(* ===== verification/_CoqProject ===== *)
-Q . S2P
Prelude.v
PyStr.v
Json.v
HaxTypes.v
Message.v
LinkedList.v
Planner.v
PlannerProps.v
Delivery.v
World.v
Cache.v
ConsulStore.v
Consul.v
Queue.v
ConsulUtil.v
ConfTree.v
ProcStatus.v
Demo.v
KvCache.v
ProcProps.v
Frame.v
Motr.v
MotrProps.v
HaEvents.v
HaSimulator.v
Handler.v
HandlerProps.v
BqProcessor.v
Server.v
ServerProps.v
PyFloat.v
ByteCount.v
Dhall.v
CdfTypes.v
Exec.v
HareCov.v
ConfStore.v
MpUtils.v
Cdf.v
Site.v
CdfProps.v
CdfTyped.v
MpProps.v
Sysconf.v
SysconfProps.v
Configure.v
Starters.v
Provision.v
ProvisionProps.v
HareUtils.v
HaxMain.v
HaxMainProps.v
OrdDict.v
CfgenTypes.v
CfgenBuild.v
CfgenPools.v
CfgenCluster.v
CfgenDemo.v
CfgenInv.v
CfgenWf.v
CfgenReads.v
CfgenRuns.v
CfgenTotal.v
CfgenMirror.v
CfgenPverWf.v
CfgenClusterWf.v
CfgenStage.v
CfgenSame.v
CfgenTol.v
CfgenPoolRuns.v
CfgenFound.v
CfgenBuilds.v
CfgenProps.v
CfgenOut.v
CfgenHax.v
CfgenDesc.v
CfgenDescProps.v
CfgenPrints.v
