(* ===== verification/Prelude.v ===== *)
(** * Verification library for Hare: the HA daemon hax, the provisioner, cfgen

    Hare runs a daemon, hax, on every node of a CORTX cluster.  hax is the link
    between Consul, which watches the nodes and keeps the configuration and
    the states in its KV store, and Motr, the storage: it answers the entrypoint
    requests of Motr processes, broadcasts the states of processes, drives, nodes
    and enclosures to them, records the events they report, and forwards SNS
    repair and rebalance commands.  The mini-provisioner describes the cluster,
    generates the configuration, and starts and stops Consul and hax.  The
    configuration generator, cfgen, turns the description into the configuration of
    Motr and the initial contents of the KV store.  The library
    models the Python code of all three: [src/hax/hax/], [src/hax/helper/],
    [src/provisioning/miniprov/hare_mp/], [src/utils/utils.py], [src/cfgen/cfgen],
    and two small tools.

    ** The program

    hax.  [hax.py] starts the threads and the server.  Requests come in over HTTP
    ([server.py]), from the callbacks of the C library ([motr/__init__.py]) and from
    the HA message bus ([ha/]).  Each becomes a message ([message.py]) added to the
    work planner ([motr/planner.py]).  Consumer threads ([handler.py]) take messages
    from the planner in groups, carry them out with [Motr] and [ConsulUtil]
    ([util.py]), and report them as finished.  A broadcast returns message ids;
    whoever needs the delivery waits for them at the herald ([motr/delivery.py]).
    Hax daemons talk to each other through queues in the KV store ([queue/]).  Reads
    of Consul within one operation share an invocation cache ([consul/cache.py]).
    Two threads of the RC collect statistics ([bytecount.py], [filestats.py]).

    Provisioner.  The phases of [hare_mp/main.py] read the configuration store
    ([store.py]); prepare stores what is known of the node in the KV store
    ([utils.py]); config writes the cluster description ([cdf.py], [types.py]), a
    Dhall expression, and runs configure ([helper/configure.py]); init formats the
    storage and waits for the other nodes; start runs Consul and hax in
    threads ([consul_starter.py], [hax_starter.py]).  The files of the services are
    written by [helper/generate_sysconf.py].

    Generator.  [cfgen] reads the description, completes it with facts about the
    hosts, validates it, builds the tree of configuration objects with their
    identifiers ([build_cluster]: nodes, processes and services; sites, racks,
    enclosures, controllers and drives; pools with their versions, whose virtual
    objects mirror the devices; profiles), validates that, and prints
    [confd.dhall], [consul-kv.json] and [consul-agents.json].

    ** The files

    - [Prelude]: exceptions, outcomes, the state and error monad [M], tactics, hints.
    - [PyStr], [Json], [PyFloat]: what the code uses of Python's str, int, re, base64,
      json, and of the division of ints into a float.
    - [HaxTypes] ([types.py]), [Message] ([message.py]).
    - [LinkedList] ([motr/util.py]): the list of active commands on a heap of
      cells, and the interface [IdentityBag] the planner is written against.
    - [Planner], [PlannerProps] ([motr/planner.py]): the operations of [WorkPlanner],
      the thread system [step], its invariants.
    - [Delivery] ([motr/delivery.py]): promises, the operations of
      [DeliveryHerald], the thread system [hstep].
    - [World]: the state the components of a hax process share, as the record
      [World]; the classes [ConsulApi] (the package python-consul), [MotrFfi] (the C
      library), [Others] (the rest of the cluster and the other threads).
    - [Cache] ([consul/cache.py]); [ConsulStore]: the documented behaviour
      of Consul's KV store, as laws ([ConsulLaws]) and as a concrete server;
      [Consul] ([util.py]: [repeat_if_fails], [KVAdapter], [CatalogAdapter],
      [ProcessGroup] locks); [KvCache]: reads and writes that share a cache.
    - [Queue] ([queue/publish.py], [queue/offset.py]).
    - [ConsulUtil], [ConfTree], [ProcStatus], [ProcProps] ([util.py]: the class
      [ConsulUtil], one definition per method); [Demo]: a small cluster for witnesses.
    - [Frame]: what a call of the Consul layer leaves alone, with the hint
      database [keeps].
    - [Motr], [MotrProps] ([motr/__init__.py], [motr/rconfc.py]).
    - [HaEvents] ([ha/]); the class [CortxUtils] is the package cortx.utils.
      [HaSimulator] ([src/ha-simulator/prod_consumer.py]), over [SimBus].
    - [Handler], [HandlerProps] ([handler.py]).
    - [BqProcessor] ([queue/__init__.py], [queue/confobjutil.py]).
    - [Server], [ServerProps] ([server.py]: the handlers).
    - [ByteCount] ([bytecount.py], [filestats.py]).
    - [Dhall]: terms and types of Dhall, a printer and a parser, and the types of
      [hare_mp/dhall/gencdf.dhall]; [CdfTypes] ([hare_mp/types.py]).
    - [Exec] ([helper/exec.py]); the class [Host] is the operating system: programs,
      files, devices.
    - [ConfStore] ([hare_mp/store.py], [validator.py]); the class [ConfApi] is the
      configuration store of cortx.utils, [ConfLaws] its documented behaviour.
    - [MpUtils], [MpProps] ([hare_mp/utils.py]); [Cdf], [CdfProps], [CdfTyped]
      ([hare_mp/cdf.py]); [Site]: a small site for witnesses.
    - [Sysconf], [SysconfProps] ([helper/generate_sysconf.py], [update_conf.py]);
      [Configure] ([helper/configure.py]).
    - [Starters] ([hare_mp/consul_starter.py], [hax_starter.py], [systemd.py]);
      [Provision], [ProvisionProps] ([hare_mp/main.py]).
    - [HareUtils] ([src/utils/utils.py]); [HareCov]
      ([src/utils/hare_cov/hare_coverage.py], [helper/ping.py]).
    - [HaxMain], [HaxMainProps] ([hax.py], [server.py]: [ServerRunner],
      [queue/cli.py]); the class [WebServer] is aiohttp.
    - [cfgen]: [OrdDict], dictionaries that keep the order of insertion; [CfgenTypes],
      the description, the classes of configuration objects, the global state [Gen];
      [CfgenBuild], identifiers, endpoints and the [build] methods of the software and
      hardware objects; [CfgenPools], drives of pools, tolerances, pool versions,
      profiles; [CfgenCluster], auxiliary pools, [validate_m0conf], [build_cluster];
      [CfgenOut], the three files; [CfgenDesc], facts, validation of the
      description, [main]; [CfgenDemo], a small description for witnesses.
    - Its theorems: [CfgenInv] (the links between objects, the invariant [wf]),
      [CfgenWf], [CfgenPverWf], [CfgenClusterWf] (every step of the construction
      keeps it), [CfgenMirror] (the subtree of a pool version), [CfgenTol]
      (tolerances, auxiliary pools), [CfgenProps], [CfgenHax] (hax reading what
      [cfgen] wrote), [CfgenDescProps].
    - That it succeeds: [CfgenReads] (reading a well-formed configuration does not
      fail), [CfgenRuns] (the rules of [runs m g Q]: from [g], [m] returns with [Q]),
      [CfgenTotal] (one node), [CfgenStage] (all nodes and metadata devices),
      [CfgenSame] (what pools leave alone), [CfgenPoolRuns] (one pool), [CfgenFound]
      (the enclosures and drives that pools select), [CfgenBuilds] (all pools,
      profiles, the whole cluster), [CfgenPrints] (the three files, [main]).

    ** How code is modelled

    A method that only computes is a function.  A method with effects is a
    computation [M (World E) A]: it takes the world and gives an [outcome] (a value,
    an exception, or [Hang]) and the next world.  Objects compared by identity and
    mutated in place (list cells, promises, caches, reply queues, locks) live in
    heaps of the world and are passed by reference.  [E] is the state of the
    outside: Consul, the C library, the message bus, the configuration store, the
    programs and files of the host; what the code needs of it is a class with
    laws where theorems rely on them.  Where a thread sleeps or
    blocks, [Others] may change the world.  Enums and named tuples keep the
    constructors and fields of the source; an [int] is a [Z]; a C field of 64 bits
    wraps where the code converts to it ([to_c]); the quotient of two ints is a
    binary64 number, rounded to even.  Log calls are left out.

    Where the order of threads matters the calls are steps of a transition system:
    [Planner.step] for the workers of the planner, each call holding its lock from
    start to end; [Delivery.hstep] for threads at the herald, which release the
    lock while they wait; [Queue.pub_reach] for publishers on different
    nodes, which interleave between the read of the counter and the transaction;
    [Starters.stop_step] for a starter and the main thread; [HareUtils.pool_step]
    for the pool that stops processes.
    The handlers are modelled as run by one thread, with [Others] for the rest.

    ** What the theorems show

    - Work planner: groups are executed one after the other: while a worker runs a
      command of a group, or the broadcast that is a group of its own, everything
      added before that group is finished; two events that run at the same time are of
      different processes; each command is started once, in order; as long as the
      backlog stays within [MAX_GROUP_ID] groups ([calm_reachable]) some worker can always
      go on.  [add_command] does not check the length of the backlog: group
      identifiers repeat, and [aliased_group_deadlock] is a run in which the planner
      stops for ever.  Two theorems state where it differs from its documentation, and one
      that the linked list behaves as a list.
    - Delivery: a wait returns only for confirmed messages, and a wait that
      ends with [NotDelivered] missed none.
    - Consul access: calls that share a cache answer, one by one, as the store would
      without it, which needs that the text of the arguments identifies a call;
      retrying returns the first success and terminates when it is bounded.
    - Queues: distinct epochs for concurrent publishers; messages are selected
      and sorted by the inbox; round trip from publisher to inbox; no message is
      taken twice by the server.
    - ConsulUtil: round trips of the states, the restart counter, the dynamic fids;
      OK is reported only when the reads of this very call say so; drives under
      repair are left alone by process events and all others are updated.
    - Motr link: one reply per entrypoint request, with the confds of the catalog in
      its order and a majority quorum; all
      notes of a broadcast are sent, in vectors Motr accepts; note vectors are
      answered entry by entry.
    - Consumer threads: a worker survives every exception; process locks are
      balanced where failures are handled, at each of the calls that unlock; a
      failure is passed on exactly when the reads of this pass confirm it.
    - Server and HA events: the states derived from Consul's checks, the
      subscriptions.
    - Statistics: byte counts per pool version, totals per category that add up, and
      the bound below which the float division is exact.
    - Start-up: a stale leader session is removed and no other; the consumers are
      started before the first call into Motr and the other threads after it is
      started; it is finalised whatever happens; the server is run
      once and then all threads are told to stop.
    - Cluster description: the text is a Dhall expression of the declared type; the
      pools are those of the storage sets, in order, and wide enough; the allowed failures are exact and fit the parity; every
      node lists the same machines in the same order.
    - Configuration: drive information and the imported KV file are read back; the
      two providers of the sysconfig generator agree; endpoints split and join.
    - Phases: init passes its barrier only when there is a mark of mkfs for every data
      node, where the mark of a node with a longer name counts too; cleanup removes
      the keys of Hare and no other; starters always signal their end; the pool
      of [stop_parallel] ends, exceptions in its threads included, and without them has
      issued the stop command of every process that was passing once.
    - Generator: the configuration is a tree without dangling or shared identifiers
      and passes its own validation; pool versions mirror the devices of their
      drives; the failures a pool is said to tolerate lose no more units than
      the parity covers, whichever enclosures fail, and for
      controllers the bound is the best possible; the auxiliary pools cover exactly
      the sets of nodes that may fail; what was built can be printed; hax maps
      every drive of the generated KV file to its storage device and back.  From
      every description that passes an executable condition ([described]) the
      cluster is built, unless disks its pools refer to cannot be found; a
      description that is validated and has what the validation does not ask for
      ([enough]) makes [main] write its three files.
    - Tools: the scanner of test directories terminates and finds exactly what it is
      asked for; the HA simulator reads back what it sends, but its first event
      ends the listener of hax, whenever it comes.

    Some theorems state behaviour its authors cannot have meant (an SNS operation
    never starts a group, the lock of dynamic fids is never taken, a lock left held
    by an unknown event, a subscription that cannot be used, a start-up that waits
    for ever on a fresh KV store, the race between a starter and the main thread,
    a status check that cannot report a failure, FDMI filters that are refused).

    ** Fuel

    Loops that retry until something outside changes ([repeat_if_fails], publishing,
    [wait_for_all], polling, the worker loop, the barrier of init) take the class
    argument [Fuel] as the
    number of rounds; with no fuel left the outcome is [Hang], as for a thread that
    is still waiting.  Theorems that promise a result say what fuel they need: one
    round when the server answers, one more than the number of failures for
    [repeat_if_fails].  Loops over data recurse on the data; those over list cells
    take the size of the heap, which bounds the number of cells; the parser of
    [Dhall] takes the length of the text; [search_dir] the depth of the tree.

    ** What is not modelled

    The C library and [motr/ffi.py], which declares its functions; the
    packages python-consul, cortx.utils, aiohttp and click, which are interfaces or
    left out; logging; argparse; [ha-simulator/emitter.py], two calls of the
    package cortx-ha.  Floats occur only as quotients of ints;
    characters outside ASCII do not occur.  Of [cfgen], the command line, logging, the
    [__repr__] methods, and the retries of [run_command] are left out; what
    facter, the disk script, dhall and the random generator answer, and [math.log],
    are arguments; so is the order of the elements of a set.  The scripts of hctl
    ([src/utils]) are separate programs.

    ** Plan

    Next: that the description the provisioner writes is one [cfgen] builds a cluster
    from; failures that are not given but computed ([gen_sns_tolerance]) and
    auxiliary pools in [described]; deeper theorems on the state of nodes and
    enclosures a broadcast derives from processes ([Motr]). *)

From Stdlib Require Export ZArith Lia Ascii String.
From stdpp Require Export base tactics list option gmap sets strings.
Abbreviation length := Datatypes.length.

#[global] Set Default Goal Selector "!".

(** Python integers are unbounded: every [int] of the source is a [Z]. *)
Declare Scope hare_scope.
Delimit Scope hare_scope with hare.
#[global] Open Scope string_scope.
#[global] Open Scope list_scope.
#[global] Open Scope Z_scope.
#[global] Open Scope hare_scope.

(** ** Python exceptions

    The exception classes the modelled code raises, catches or lets pass.
    The classes of [src/hax/hax/exception.py] keep their names. *)
Inductive exn : Type :=
| HAConsistencyException (message : string)
| ConfdQuorumException (message : string)
| RepairRebalanceException (message : string)
| BytecountException (message : string)
| NotDelivered
| InterruptedException
| StopIteration
| KeyError (key : string)
| IndexError
| ValueError
| TypeError
| AttributeError
| AssertionError
| NameError
| RuntimeError (message : string)
| JSONDecodeError
| ConsulException
| ClientError
| HTTPError
| RequestException
| HTTPNotFound
| MissingKeyError (key : string)
| CliException (stderr : string) (code : Z)
| FileNotFoundError (path : string)
| UnboundLocalError (name : string)
| SystemExit (code : Z)
| OtherException (message : string).

(** ** Effects

    A computation either returns, raises, or does not come back: [Hang] is the
    outcome of a loop that is still running when its fuel is used up and of a
    call that blocks for ever. *)
Inductive outcome (A : Type) : Type :=
| Ret (a : A)
| Raise (e : exn)
| Hang.
Arguments Ret {A} a.
Arguments Raise {A} e.
Arguments Hang {A}.

#[global] Instance outcome_ret : MRet outcome := fun _ a => Ret a.
#[global] Instance outcome_bind : MBind outcome := fun _ _ k o =>
  match o with
  | Ret a => k a
  | Raise e => Raise e
  | Hang => Hang
  end.

(** State-passing computations over a world [W]. *)
Definition M (W A : Type) : Type := W -> outcome A * W.

#[global] Instance M_ret {W} : MRet (M W) := fun _ a w => (Ret a, w).
#[global] Instance M_bind {W} : MBind (M W) := fun _ _ k m w =>
  match m w with
  | (Ret a, w') => k a w'
  | (Raise e, w') => (Raise e, w')
  | (Hang, w') => (Hang, w')
  end.

Section Effects.
Context {W : Type}.

Definition raise {A} (e : exn) : M W A := fun w => (Raise e, w).
Definition hang {A} : M W A := fun w => (Hang, w).
Definition lift {A} (o : outcome A) : M W A := fun w => (o, w).
Definition gets {A} (f : W -> A) : M W A := fun w => (Ret (f w), w).
Definition modify (f : W -> W) : M W unit := fun w => (Ret tt, f w).

(** [try: m except ...]: [h e] is [Some] handler when a clause matches [e]. *)
Definition catch {A} (m : M W A) (h : exn -> option (M W A)) : M W A := fun w =>
  match m w with
  | (Raise e, w') =>
      match h e with
      | Some m' => m' w'
      | None => (Raise e, w')
      end
  | r => r
  end.

(** [try: m finally: f]: [f] runs on return and on exception; an exception of
    [f] replaces the outcome. *)
Definition try_finally {A} (m : M W A) (f : M W unit) : M W A := fun w =>
  match m w with
  | (Hang, w') => (Hang, w')
  | (r, w') =>
      match f w' with
      | (Ret _, w'') => (r, w'')
      | (Raise e, w'') => (Raise e, w'')
      | (Hang, w'') => (Hang, w'')
      end
  end.

(** [for x in l: body x] *)
Fixpoint for_each {A} (l : list A) (body : A -> M W unit) : M W unit :=
  match l with
  | [] => mret tt
  | x :: l' => body x ;; for_each l' body
  end.

(** A [for] loop that threads an accumulator (a local variable). *)
Fixpoint fold_m {A S} (f : S -> A -> M W S) (s : S) (l : list A) : M W S :=
  match l with
  | [] => mret s
  | x :: l' => s' ← f s x; fold_m f s' l'
  end.

(** List comprehension whose body is a call. *)
Fixpoint map_m {A B} (f : A -> M W B) (l : list A) : M W (list B) :=
  match l with
  | [] => mret []
  | x :: l' => y ← f x; ys ← map_m f l'; mret (y :: ys)
  end.

Definition assert (b : bool) : M W unit :=
  if b then mret tt else raise AssertionError.
End Effects.

(** [d[k]] on a dict: KeyError when absent. *)
Definition dict_get {A} (k : string) (o : option A) : outcome A :=
  match o with
  | Some a => Ret a
  | None => Raise (KeyError k)
  end.

(** [l[i]] for a non-negative index. *)
Definition index_get {A} (i : nat) (l : list A) : outcome A :=
  match l !! i with
  | Some a => Ret a
  | None => Raise IndexError
  end.

Notation "b1 &&& b2" := (if b1 then b2 else mret false)
  (at level 40, left associativity, only parsing) : hare_scope.

(** ** Inversion lemmas for the monad *)
Section MonadLemmas.
Context {W : Type}.

Lemma bind_Ret {A B} (m : M W A) (k : A -> M W B) w b w' :
  (m ≫= k) w = (Ret b, w') ->
  exists a w1, m w = (Ret a, w1) /\ k a w1 = (Ret b, w').
Proof.
  unfold mbind, M_bind. destruct (m w) as [[a | e |] w1]; intros H; try discriminate.
  eauto.
Qed.

(** A run is known from its result alone. *)
Lemma run_ret {A} (m : M W A) w a : (m w).1 = Ret a -> m w = (Ret a, (m w).2).
Proof. destruct (m w) as [r w1]. by intros [= ->]. Qed.

Lemma bind_unfold_Ret {A B} (m : M W A) (k : A -> M W B) w a w1 :
  m w = (Ret a, w1) -> (m ≫= k) w = k a w1.
Proof. unfold mbind, M_bind. by intros ->. Qed.

Lemma bind_unfold_Raise {A B} (m : M W A) (k : A -> M W B) w e w1 :
  m w = (Raise e, w1) -> (m ≫= k) w = (Raise e, w1).
Proof. unfold mbind, M_bind. by intros ->. Qed.

Lemma bind_unfold_Hang {A B} (m : M W A) (k : A -> M W B) w w1 :
  m w = (Hang, w1) -> (m ≫= k) w = (Hang, w1).
Proof. unfold mbind, M_bind. by intros ->. Qed.

Lemma bind_gets {A B} (f : W -> A) (k : A -> M W B) w : (gets f ≫= k) w = k (f w) w.
Proof. done. Qed.

Lemma bind_modify {B} (f : W -> W) (k : M W B) w : (modify f ;; k) w = k (f w).
Proof. done. Qed.

Lemma bind_mret {A B} (a : A) (k : A -> M W B) w : (mret a ≫= k) w = k a w.
Proof. done. Qed.

Lemma fold_m_app {A S} (f : S -> A -> M W S) (l1 l2 : list A) (s : S) w :
  fold_m f s (l1 ++ l2) w = (fold_m f s l1 ≫= (fun s' => fold_m f s' l2)) w.
Proof.
  revert s w. induction l1 as [| x l1 IH]; intros s w; [done|].
  cbn [app fold_m]. unfold mbind, M_bind.
  destruct (f s x w) as [[s' | e |] w']; [| done | done].
  rewrite IH. done.
Qed.

Lemma for_each_invariant {A} (I : W -> Prop) (l : list A) (body : A -> M W unit) w o w' :
  (forall x v o1 v1, x ∈ l -> I v -> body x v = (o1, v1) -> I v1) ->
  I w -> for_each l body w = (o, w') -> I w'.
Proof.
  revert w. induction l as [| x l IH]; intros w Hstep HI; cbn.
  - intros [= _ <-]. done.
  - unfold mbind, M_bind. destruct (body x w) as [o1 w1] eqn:E.
    pose proof (Hstep x w _ _ ltac:(set_solver) HI E) as HI1.
    destruct o1; [| by intros [= _ <-] | by intros [= _ <-]].
    apply IH; [| done]. intros y v o1 v1 Hy. apply Hstep. set_solver.
Qed.

Lemma for_each_total {A} (l : list A) (body : A -> M W unit) w :
  (forall x v, exists v', body x v = (Ret tt, v')) ->
  exists w', for_each l body w = (Ret tt, w').
Proof.
  intros Hb. revert w. induction l as [| x l IH]; intros w; cbn; [by eexists |].
  destruct (Hb x w) as [w1 E]. destruct (IH w1) as [w2 E2].
  exists w2. rewrite (bind_unfold_Ret _ _ _ _ _ E). done.
Qed.
End MonadLemmas.

(** ** Tactics

    [run] computes the monad operations that head the goal; [inv_run H] splits
    a successful run [H] into the runs of its parts. *)
Ltac run :=
  unfold mbind, M_bind, mret, M_ret, outcome_bind, outcome_ret,
    raise, lift, gets, modify, catch, try_finally, assert in *; cbn in *.

Ltac inv_run H :=
  let a := fresh "a" in
  let w := fresh "w" in
  let H1 := fresh H in
  apply bind_Ret in H as (a & w & H1 & H).

Create HintDb hare.

(** ** Lists the components share *)

(** Removal of the first element that satisfies [f]. *)
Fixpoint remove_first {A} (f : A -> bool) (l : list A) : list A :=
  match l with
  | [] => []
  | x :: l' => if f x then l' else x :: remove_first f l'
  end.

Lemma remove_first_sublist {A} (f : A -> bool) (l : list A) :
  remove_first f l `sublist_of` l.
Proof.
  induction l as [| x l IH]; cbn; [done|].
  destruct (f x); [by apply sublist_cons | by apply sublist_skip].
Qed.

Lemma remove_first_elem {A} (f : A -> bool) (l : list A) x :
  x ∈ remove_first f l -> x ∈ l.
Proof. intros H. by eapply elem_of_submseteq, sublist_submseteq, remove_first_sublist. Qed.

Lemma remove_first_none {A} (f : A -> bool) (l : list A) :
  Forall (fun x => f x = false) l -> remove_first f l = l.
Proof. induction 1 as [| x l Hx _ IH]; cbn; [done|]. by rewrite Hx, IH. Qed.

#[export] Hint Resolve remove_first_elem : hare.
