(* ===== verification/PyStr.v ===== *)
(** * The parts of Python's [str], [int], [re] and [base64] the code uses

    Strings are ASCII strings ([String.string]); a [bytes] value is the string
    of its octets.  [py_int], [hex_str] and [dec_str] are [int(s, base)],
    ['{:x}'.format(n)] and [str(n)]; [rx_match] is [re.match] for the regular
    expressions of the source (literals, [.*], [(.+)], [([^/]+)], [(\d+)] and
    [$]), with Python's greedy backtracking; [b64encode] and [b64decode] follow
    CPython's non-strict decoder, character by character. *)

From S2P Require Import Prelude.

(** ** Splitting and searching *)

(** [s.split(c)] *)
Fixpoint py_split (c : ascii) (s : string) : list string :=
  match s with
  | EmptyString => [""]
  | String a s' =>
      if Ascii.eqb a c then "" :: py_split c s'
      else match py_split c s' with
           | h :: t => String a h :: t
           | [] => [String a ""]
           end
  end.

(** [s.split(c, 1)] *)
Fixpoint py_split1 (c : ascii) (s : string) : list string :=
  match s with
  | EmptyString => [""]
  | String a s' =>
      if Ascii.eqb a c then [""; s']
      else match py_split1 c s' with
           | h :: t => String a h :: t
           | [] => [String a ""]
           end
  end.

(** [c.join(l)] *)
Definition py_join (c : string) (l : list string) : string := String.concat c l.

(** [sub in s] *)
Fixpoint py_in (sub s : string) : bool :=
  String.prefix sub s ||
  match s with
  | EmptyString => false
  | String _ s' => py_in sub s'
  end.

Definition lower_char (c : ascii) : ascii :=
  let n := nat_of_ascii c in
  if (65 <=? n)%nat && (n <=? 90)%nat then ascii_of_nat (n + 32) else c.

(** [s.lower()] *)
Fixpoint py_lower (s : string) : string :=
  match s with
  | EmptyString => EmptyString
  | String c s' => String (lower_char c) (py_lower s')
  end.

(** [l[-1]] of a list [split] returned (never empty). *)
Definition py_last (l : list string) : string := default "" (last l).

(** ** Numbers *)

Definition digit_char (d : Z) : ascii :=
  ascii_of_nat (Z.to_nat (if d <? 10 then 48 + d else 87 + d)).

Definition digit_val (c : ascii) : option Z :=
  let n := Z.of_nat (nat_of_ascii c) in
  if (48 <=? n) && (n <=? 57) then Some (n - 48)
  else if (97 <=? n) && (n <=? 122) then Some (n - 87)
  else if (65 <=? n) && (n <=? 90) then Some (n - 55)
  else None.

(** Digits of [n] in base [b], most significant first; [Z.log2 n + 1] rounds
    are enough because a round divides [n] by at least two. *)
Fixpoint to_digits (fuel : nat) (b n : Z) : list Z :=
  match fuel with
  | O => []
  | S fuel' => if n <? b then [n] else to_digits fuel' b (n / b) ++ [n mod b]
  end.

Definition digits_fuel (n : Z) : nat := S (Z.to_nat (Z.log2 n)).

Definition nat_str (b n : Z) : string :=
  string_of_list_ascii (digit_char <$> to_digits (digits_fuel n) b n).

(** ['{:x}'.format(n)] *)
Definition hex_str (n : Z) : string :=
  if n <? 0 then "-" +:+ nat_str 16 (- n) else nat_str 16 n.

(** [str(n)] *)
Definition dec_str (n : Z) : string :=
  if n <? 0 then "-" +:+ nat_str 10 (- n) else nat_str 10 n.

Definition is_space (c : ascii) : bool :=
  let n := nat_of_ascii c in
  ((9 <=? n) && (n <=? 13))%nat || ((28 <=? n) && (n <=? 32))%nat.

Fixpoint drop_space (l : list ascii) : list ascii :=
  match l with
  | c :: l' => if is_space c then drop_space l' else l
  | [] => []
  end.

Definition strip_space (l : list ascii) : list ascii :=
  rev (drop_space (rev (drop_space l))).

Definition underscore : ascii := "_"%char.

(** The digit run of [int()]: single underscores are allowed between digits. *)
Fixpoint digits_value (b : Z) (l : list ascii) (acc : Z) (need_digit : bool) : option Z :=
  match l with
  | [] => if need_digit then None else Some acc
  | c :: l' =>
      if Ascii.eqb c underscore then
        if need_digit then None else digits_value b l' acc true
      else
        match digit_val c with
        | Some d => if d <? b then digits_value b l' (acc * b + d) false else None
        | None => None
        end
  end.

Definition unsigned_value (b : Z) (l : list ascii) : option Z :=
  match l with
  | "0"%char :: x :: l' =>
      if (b =? 16) && (Ascii.eqb x "x" || Ascii.eqb x "X") then
        match l' with
        | "_"%char :: l'' => digits_value b l'' 0 true
        | _ => digits_value b l' 0 true
        end
      else digits_value b l 0 true
  | _ => digits_value b l 0 true
  end.

Definition signed_value (b : Z) (l : list ascii) : option Z :=
  match l with
  | "-"%char :: l' => Z.opp <$> unsigned_value b l'
  | "+"%char :: l' => unsigned_value b l'
  | _ => unsigned_value b l
  end.

(** [int(s, b)]; ValueError on malformed input. *)
Definition py_int (b : Z) (s : string) : outcome Z :=
  match signed_value b (strip_space (list_ascii_of_string s)) with
  | Some n => Ret n
  | None => Raise ValueError
  end.

(** ** Regular expressions *)
Inductive rx : Type :=
| RLit (s : string)     (* literal text *)
| RStar                 (* .* *)
| RPlus                 (* (.+) *)
| RSeg                  (* ([^/]+) *)
| RDigits               (* (\d+) *)
| REnd.                 (* $ *)

Definition newline : ascii := ascii_of_nat 10.
Definition rx_any (c : ascii) : bool := negb (Ascii.eqb c newline).
Definition rx_seg (c : ascii) : bool := negb (Ascii.eqb c "/").
Definition rx_digit (c : ascii) : bool :=
  ((48 <=? nat_of_ascii c) && (nat_of_ascii c <=? 57))%nat.

(** Longest run first, then shorter ones: [k] is the rest of the pattern. *)
Fixpoint greedy {A} (ok : ascii -> bool) (k : list ascii -> option A)
    (s : list ascii) : option (list ascii * A) :=
  match s with
  | [] => (fun r => ([], r)) <$> k []
  | c :: s' =>
      if ok c then
        match greedy ok k s' with
        | Some (p, r) => Some (c :: p, r)
        | None => (fun r => ([], r)) <$> k s
        end
      else (fun r => ([], r)) <$> k s
  end.

Definition greedy1 {A} (ok : ascii -> bool) (k : list ascii -> option A)
    (s : list ascii) : option (list ascii * A) :=
  match s with
  | c :: s' =>
      if ok c then (fun '(p, r) => (c :: p, r)) <$> greedy ok k s' else None
  | [] => None
  end.

Fixpoint strip_lit (p s : list ascii) : option (list ascii) :=
  match p, s with
  | [], _ => Some s
  | a :: p', b :: s' => if Ascii.eqb a b then strip_lit p' s' else None
  | _ :: _, [] => None
  end.

Definition at_end (s : list ascii) : bool :=
  match s with
  | [] => true
  | [c] => Ascii.eqb c newline
  | _ => false
  end.

Definition capture (r : option (list ascii * list string)) : option (list string) :=
  (fun '(p, gs) => string_of_list_ascii p :: gs) <$> r.

Fixpoint rx_run (p : list rx) (s : list ascii) : option (list string) :=
  match p with
  | [] => Some []
  | RLit l :: p' =>
      match strip_lit (list_ascii_of_string l) s with
      | Some s' => rx_run p' s'
      | None => None
      end
  | RStar :: p' => snd <$> greedy rx_any (rx_run p') s
  | RPlus :: p' => capture (greedy1 rx_any (rx_run p') s)
  | RSeg :: p' => capture (greedy1 rx_seg (rx_run p') s)
  | RDigits :: p' => capture (greedy1 rx_digit (rx_run p') s)
  | REnd :: p' => if at_end s then rx_run p' s else None
  end.

(** [re.match(p, s)]: the captured groups when [s] matches. *)
Definition rx_match (p : list rx) (s : string) : option (list string) :=
  rx_run p (list_ascii_of_string s).

(** [match_result.group(1)] *)
Definition group1 (gs : list string) : string := default "" (gs !! 0%nat).

(** ** base64 *)
Definition b64_char (v : Z) : ascii :=
  ascii_of_nat (Z.to_nat
    (if v <? 26 then 65 + v else if v <? 52 then 71 + v
     else if v <? 62 then v - 4 else if v =? 62 then 43 else 47)).

Definition b64_val (c : ascii) : option Z :=
  let n := Z.of_nat (nat_of_ascii c) in
  if (65 <=? n) && (n <=? 90) then Some (n - 65)
  else if (97 <=? n) && (n <=? 122) then Some (n - 71)
  else if (48 <=? n) && (n <=? 57) then Some (n + 4)
  else if n =? 43 then Some 62
  else if n =? 47 then Some 63
  else None.

Definition octet (c : ascii) : Z := Z.of_nat (nat_of_ascii c).
Definition of_octet (z : Z) : ascii := ascii_of_nat (Z.to_nat z).
Definition pad_char : ascii := "="%char.

Fixpoint b64_enc (l : list ascii) : list ascii :=
  match l with
  | a :: b :: c :: l' =>
      b64_char (octet a / 4)
      :: b64_char (octet a mod 4 * 16 + octet b / 16)
      :: b64_char (octet b mod 16 * 4 + octet c / 64)
      :: b64_char (octet c mod 64) :: b64_enc l'
  | [a; b] =>
      [b64_char (octet a / 4); b64_char (octet a mod 4 * 16 + octet b / 16);
       b64_char (octet b mod 16 * 4); pad_char]
  | [a] => [b64_char (octet a / 4); b64_char (octet a mod 4 * 16); pad_char; pad_char]
  | [] => []
  end.

(** [base64.b64encode(s)] *)
Definition b64encode (s : string) : string :=
  string_of_list_ascii (b64_enc (list_ascii_of_string s)).

(** One pass over the input: position in the quad, bits left over from the
    previous character, pad characters seen in a row. *)
Fixpoint b64_dec (l : list ascii) (quad_pos leftchar pads : Z) : option (list ascii) :=
  match l with
  | [] => if quad_pos =? 0 then Some [] else None
  | ch :: l' =>
      if Ascii.eqb ch pad_char then
        if 2 <=? quad_pos then
          if 4 <=? quad_pos + (pads + 1) then Some []
          else b64_dec l' quad_pos leftchar (pads + 1)
        else b64_dec l' quad_pos leftchar pads
      else
        match b64_val ch with
        | None => b64_dec l' quad_pos leftchar pads
        | Some v =>
            if quad_pos =? 0 then b64_dec l' 1 v 0
            else if quad_pos =? 1 then
              cons (of_octet (leftchar * 4 + v / 16)) <$> b64_dec l' 2 (v mod 16) 0
            else if quad_pos =? 2 then
              cons (of_octet (leftchar * 16 + v / 4)) <$> b64_dec l' 3 (v mod 4) 0
            else
              cons (of_octet (leftchar * 64 + v)) <$> b64_dec l' 0 0 0
        end
  end.

(** [base64.b64decode(s)]; binascii.Error is a ValueError. *)
Definition b64decode (s : string) : outcome string :=
  match b64_dec (list_ascii_of_string s) 0 0 0 with
  | Some l => Ret (string_of_list_ascii l)
  | None => Raise ValueError
  end.

(** ** Lemmas: numbers *)
Section Numbers.

Definition digit_ok (d : Z) : bool :=
  match digit_val (digit_char d) with
  | Some d' => d' =? d
  | None => false
  end
  && negb (Ascii.eqb (digit_char d) underscore)
  && negb (is_space (digit_char d))
  && negb (Ascii.eqb (digit_char d) ":")
  && negb (Ascii.eqb (digit_char d) "/")
  && negb (Ascii.eqb (digit_char d) "-")
  && negb (Ascii.eqb (digit_char d) "+").

Lemma digit_ok_all d : 0 <= d < 16 -> digit_ok d = true.
Proof.
  intros H.
  assert (Hall : forallb digit_ok (seqZ 0 16) = true) by (vm_compute; reflexivity).
  rewrite forallb_forall in Hall. apply Hall, list_elem_of_In, elem_of_seqZ. lia.
Qed.

Lemma digit_char_spec d :
  0 <= d < 16 ->
  digit_val (digit_char d) = Some d /\ Ascii.eqb (digit_char d) underscore = false
  /\ is_space (digit_char d) = false /\ digit_char d <> ":"%char
  /\ digit_char d <> "/"%char /\ digit_char d <> "-"%char /\ digit_char d <> "+"%char.
Proof.
  intros H%digit_ok_all. unfold digit_ok in H.
  rewrite !andb_true_iff, !negb_true_iff in H.
  destruct H as [[[[[[Hv Hu] Hs] Hc] Hl] Hm] Hp].
  destruct (digit_val _) as [d' |]; [| done]. apply Z.eqb_eq in Hv as ->.
  rewrite !Ascii.eqb_neq in *. done.
Qed.

Definition value_of (b : Z) (ds : list Z) (acc : Z) : Z :=
  fold_left (fun a d => a * b + d) ds acc.

Lemma digits_value_chars b ds acc need :
  b <= 16 -> Forall (fun d => 0 <= d < b) ds -> ds <> [] \/ need = false ->
  digits_value b (digit_char <$> ds) acc need = Some (value_of b ds acc).
Proof.
  intros Hb Hds. revert acc need.
  induction Hds as [| d ds Hd _ IH]; intros acc need Hne; cbn.
  - destruct Hne as [Hne | ->]; done.
  - destruct (digit_char_spec d ltac:(lia)) as (-> & -> & _).
    destruct (d <? b) eqn:E; [| lia]. apply IH. by right.
Qed.

Lemma to_digits_value fuel b n :
  2 <= b -> 0 <= n < 2 ^ Z.of_nat fuel -> value_of b (to_digits fuel b n) 0 = n.
Proof.
  intros Hb. revert n. induction fuel as [| fuel IH]; intros n Hn; cbn.
  - cbn in Hn. lia.
  - destruct (n <? b) eqn:E; [cbn; lia|].
    unfold value_of. rewrite fold_left_app.
    change (value_of b (to_digits fuel b (n / b)) 0 * b + n mod b = n).
    rewrite IH; [| split].
    + pose proof (Z.div_mod n b ltac:(lia)). lia.
    + apply Z.div_pos; lia.
    + rewrite Nat2Z.inj_succ, Z.pow_succ_r in Hn by lia.
      assert (n / b <= n / 2) by (apply Z.div_le_compat_l; lia).
      assert (n / 2 < 2 ^ Z.of_nat fuel) by (apply Z.div_lt_upper_bound; lia). lia.
Qed.

Lemma to_digits_range fuel b n :
  2 <= b -> 0 <= n -> Forall (fun d => 0 <= d < b) (to_digits fuel b n).
Proof.
  intros Hb. revert n. induction fuel as [| fuel IH]; intros n Hn; cbn; [done|].
  destruct (n <? b) eqn:E; [constructor; [lia | done] |].
  apply Forall_app. split; [apply IH, Z.div_pos; lia |].
  constructor; [| done]. apply Z.mod_pos_bound. lia.
Qed.

Lemma to_digits_nonempty fuel b n : to_digits (S fuel) b n <> [].
Proof. cbn. destruct (n <? b); [done|]. by destruct (to_digits fuel b (n / b)). Qed.

Lemma digits_fuel_enough n : 0 <= n -> n < 2 ^ Z.of_nat (digits_fuel n).
Proof.
  intros Hn. unfold digits_fuel. rewrite Nat2Z.inj_succ, Z2Nat.id by apply Z.log2_nonneg.
  destruct (Z.eq_dec n 0) as [-> |]; [done|]. by apply Z.log2_spec; lia.
Qed.

Lemma nat_str_digits b n :
  list_ascii_of_string (nat_str b n) = digit_char <$> to_digits (digits_fuel n) b n.
Proof. apply list_ascii_of_string_of_list_ascii. Qed.

Lemma nat_str_value b n :
  2 <= b <= 16 -> 0 <= n ->
  digits_value b (list_ascii_of_string (nat_str b n)) 0 true = Some n.
Proof.
  intros Hb Hn. rewrite nat_str_digits, digits_value_chars.
  - rewrite to_digits_value; [done | lia |]. split; [lia | by apply digits_fuel_enough].
  - lia.
  - apply to_digits_range; lia.
  - left. apply to_digits_nonempty.
Qed.

Lemma nat_str_chars b n :
  2 <= b <= 16 -> 0 <= n ->
  Forall (fun c => is_space c = false /\ c <> ":"%char /\ c <> "/"%char
                   /\ c <> "-"%char /\ c <> "+"%char /\ Ascii.eqb c underscore = false)
    (list_ascii_of_string (nat_str b n)).
Proof.
  intros Hb Hn. rewrite nat_str_digits. apply Forall_fmap.
  eapply Forall_impl; [apply (to_digits_range (digits_fuel n) b n); lia |].
  intros d Hd; cbn in Hd. destruct (digit_char_spec d ltac:(lia)) as (_&?&?&?&?&?&?). done.
Qed.

Lemma drop_space_id l : Forall (fun c => is_space c = false) l -> drop_space l = l.
Proof. destruct 1 as [| c l Hc _]; cbn; [done|]. by rewrite Hc. Qed.

Lemma strip_space_id l : Forall (fun c => is_space c = false) l -> strip_space l = l.
Proof.
  intros H. unfold strip_space. rewrite (drop_space_id l H), drop_space_id.
  - apply rev_involutive.
  - by apply Forall_rev.
Qed.

Lemma unsigned_value_10 l : unsigned_value 10 l = digits_value 10 l 0 true.
Proof. destruct l as [| [[] [] [] [] [] [] [] []] [| x l]]; reflexivity. Qed.

Lemma signed_value_unsigned b (l : list ascii) :
  Forall (fun c => c <> "-"%char /\ c <> "+"%char) l ->
  signed_value b l = unsigned_value b l.
Proof.
  destruct 1 as [| c l [Hm Hp] _]; [done|].
  destruct c as [[] [] [] [] [] [] [] []]; done.
Qed.

(** [int(str(n)) = n]. *)
Lemma py_int_dec_str n : py_int 10 (dec_str n) = Ret n.
Proof.
  assert (Hstr : forall m, 0 <= m ->
    Forall (fun c => is_space c = false) (list_ascii_of_string (nat_str 10 m))).
  { intros m Hm. eapply Forall_impl; [by apply nat_str_chars |]. by intros c [? _]. }
  unfold py_int, dec_str. destruct (n <? 0) eqn:E.
  - change (list_ascii_of_string ("-" +:+ nat_str 10 (- n)))
      with ("-"%char :: list_ascii_of_string (nat_str 10 (- n))).
    rewrite strip_space_id by (constructor; [done | apply Hstr; lia]).
    unfold signed_value. rewrite unsigned_value_10, nat_str_value by lia.
    cbn. by rewrite Z.opp_involutive.
  - rewrite strip_space_id by (apply Hstr; lia).
    rewrite signed_value_unsigned, unsigned_value_10, nat_str_value; [done | lia | lia |].
    eapply Forall_impl; [apply nat_str_chars; lia |]. cbn; tauto.
Qed.

(** [int('0x' + hex(n), 16) = n] for the non-negative integers. *)
Lemma py_int_0x_hex n : 0 <= n -> py_int 16 ("0x" +:+ hex_str n) = Ret n.
Proof.
  intros Hn. unfold py_int, hex_str. destruct (n <? 0) eqn:E; [lia|].
  change (list_ascii_of_string ("0x" +:+ nat_str 16 n))
    with ("0"%char :: "x"%char :: list_ascii_of_string (nat_str 16 n)).
  pose proof (nat_str_chars 16 n ltac:(lia) Hn) as Hc.
  rewrite strip_space_id.
  - assert (Hv : unsigned_value 16 ("0"%char :: "x"%char :: list_ascii_of_string (nat_str 16 n))
                = digits_value 16 (list_ascii_of_string (nat_str 16 n)) 0 true).
    { destruct Hc as [| c l (_ & _ & _ & _ & _ & Hu) _]; [reflexivity|].
      destruct c as [[] [] [] [] [] [] [] []]; try reflexivity; discriminate Hu. }
    unfold signed_value. rewrite Hv, nat_str_value by lia. done.
  - constructor; [done|]. constructor; [done|]. eapply Forall_impl; [exact Hc |]. cbn; tauto.
Qed.
End Numbers.

(** ** Lemmas: splitting *)
Section Splitting.

Definition no_char (c : ascii) (s : string) : Prop :=
  Forall (fun x => x <> c) (list_ascii_of_string s).

Lemma append_cons a s t : String a s +:+ t = String a (s +:+ t).
Proof. reflexivity. Qed.

Lemma append_nil s : "" +:+ s = s.
Proof. reflexivity. Qed.

Lemma append_assoc s t u : (s +:+ t) +:+ u = s +:+ (t +:+ u).
Proof. induction s as [| a s IH]; [done|]. exact (f_equal (String a) IH). Qed.

Lemma list_ascii_of_string_app s t :
  list_ascii_of_string (s +:+ t) = list_ascii_of_string s ++ list_ascii_of_string t.
Proof. induction s as [| a s IH]; [done|]. exact (f_equal (cons a) IH). Qed.

Lemma no_char_cons c a s : no_char c (String a s) <-> a <> c /\ no_char c s.
Proof. unfold no_char. cbn. by rewrite Forall_cons. Qed.

Lemma py_split_no_sep c s : no_char c s -> py_split c s = [s].
Proof.
  induction s as [| a s IH]; cbn [py_split]; [done|]. intros [Ha Hs]%no_char_cons.
  destruct (Ascii.eqb_spec a c) as [-> |]; [done|]. by rewrite IH.
Qed.

Lemma py_split_sep c s t :
  no_char c s -> py_split c (s +:+ String c t) = s :: py_split c t.
Proof.
  induction s as [| a s IH]; rewrite ?append_cons, ?append_nil; cbn [py_split py_split1];
    [by rewrite Ascii.eqb_refl |].
  intros [Ha Hs]%no_char_cons.
  destruct (Ascii.eqb_spec a c) as [-> |]; [done|]. by rewrite IH.
Qed.

Lemma py_split1_sep c s t :
  no_char c s -> py_split1 c (s +:+ String c t) = [s; t].
Proof.
  induction s as [| a s IH]; rewrite ?append_cons, ?append_nil; cbn [py_split py_split1];
    [by rewrite Ascii.eqb_refl |].
  intros [Ha Hs]%no_char_cons.
  destruct (Ascii.eqb_spec a c) as [-> |]; [done|]. by rewrite IH.
Qed.

Lemma no_char_app c s t : no_char c (s +:+ t) <-> no_char c s /\ no_char c t.
Proof. unfold no_char. by rewrite list_ascii_of_string_app, Forall_app. Qed.

Lemma nat_str_no_char b n c :
  2 <= b <= 16 -> 0 <= n -> c = ":"%char \/ c = "/"%char -> no_char c (nat_str b n).
Proof.
  intros Hb Hn Hc. eapply Forall_impl; [by apply nat_str_chars |].
  intros x Hx; cbn in Hx. destruct Hc as [-> | ->]; tauto.
Qed.
End Splitting.

(** ** Lemmas: base64 *)
Section Base64.

Lemma octet_range c : 0 <= octet c < 256.
Proof. unfold octet. pose proof (nat_ascii_bounded c). lia. Qed.

Lemma of_octet_octet c z : z = octet c -> of_octet z = c.
Proof. intros ->. unfold of_octet, octet. by rewrite Nat2Z.id, ascii_nat_embedding. Qed.

Definition b64_ok (v : Z) : bool :=
  match b64_val (b64_char v) with
  | Some v' => v' =? v
  | None => false
  end && negb (Ascii.eqb (b64_char v) pad_char).

Lemma b64_val_char v :
  0 <= v < 64 -> b64_val (b64_char v) = Some v /\ Ascii.eqb (b64_char v) pad_char = false.
Proof.
  intros H.
  assert (Hall : forallb b64_ok (seqZ 0 64) = true) by (vm_compute; reflexivity).
  rewrite forallb_forall in Hall.
  specialize (Hall v ltac:(apply list_elem_of_In, elem_of_seqZ; lia)).
  unfold b64_ok in Hall. rewrite andb_true_iff, negb_true_iff in Hall.
  destruct Hall as [Hv Hp]. split; [| done].
  destruct (b64_val _) as [v' |]; [| done]. by apply Z.eqb_eq in Hv as ->.
Qed.

Lemma b64_dec_char v l q left pads :
  0 <= v < 64 ->
  b64_dec (b64_char v :: l) q left pads =
    if q =? 0 then b64_dec l 1 v 0
    else if q =? 1 then cons (of_octet (left * 4 + v / 16)) <$> b64_dec l 2 (v mod 16) 0
    else if q =? 2 then cons (of_octet (left * 16 + v / 4)) <$> b64_dec l 3 (v mod 4) 0
    else cons (of_octet (left * 64 + v)) <$> b64_dec l 0 0 0.
Proof. intros [Hv Hp]%b64_val_char. cbn [b64_dec]. by rewrite Hp, Hv. Qed.

Ltac b64_arith :=
  repeat match goal with c : ascii |- _ =>
    lazymatch goal with
    | _ : 0 <= octet c < 256 |- _ => fail
    | _ => pose proof (octet_range c)
    end end;
  Z.to_euclidean_division_equations; lia.

Ltac closed_tests :=
  repeat match goal with
  | |- context [(?a <=? ?b)%Z] =>
      let v := eval vm_compute in (Z.leb a b) in
      lazymatch v with true => idtac | false => idtac end;
      change (Z.leb a b) with v; cbn
  end.

Lemma b64_dec_enc n l : (length l <= n)%nat -> b64_dec (b64_enc l) 0 0 0 = Some l.
Proof.
  revert l. induction n as [| n IH]; intros l Hl.
  { by destruct l; cbn in *; [| lia]. }
  destruct l as [| a [| b [| c l]]]; cbn [b64_enc]; [done | | |];
    rewrite !b64_dec_char by b64_arith; cbn; closed_tests.
  - do 2 f_equal. apply of_octet_octet. b64_arith.
  - do 2 f_equal; [| f_equal]; apply of_octet_octet; b64_arith.
  - rewrite IH by (cbn in Hl; lia). cbn.
    do 2 f_equal; [| f_equal; [| f_equal]]; apply of_octet_octet; b64_arith.
Qed.

(** [b64decode(b64encode(s)) = s]. *)
Lemma b64decode_b64encode s : b64decode (b64encode s) = Ret s.
Proof.
  unfold b64decode, b64encode. rewrite list_ascii_of_string_of_list_ascii.
  rewrite (b64_dec_enc _ _ (Nat.le_refl _)). by rewrite string_of_list_ascii_of_string.
Qed.
End Base64.
