(* ===== verification/Json.v ===== *)
(** * Python's [json] module on the values Hare stores

    [dumps] prints with the default separators and [ensure_ascii]; [loads]
    parses.  Integers are the only numbers: a float literal (and NaN, Infinity,
    a [\u] escape above U+00FF) is outside the model and rejected.  Objects keep
    the insertion order of a dict and a repeated key keeps its first position
    with the last value. *)

From S2P Require Import Prelude PyStr.

Inductive json : Type :=
| JNull
| JBool (b : bool)
| JInt (z : Z)
| JStr (s : string)
| JArr (l : list json)
| JObj (l : list (string * json)).

(** ** Dictionaries in insertion order *)
Section Dict.
Context {A : Type}.

Fixpoint dict_find (k : string) (l : list (string * A)) : option A :=
  match l with
  | [] => None
  | (k', v) :: l' => if String.eqb k k' then Some v else dict_find k l'
  end.

Fixpoint dict_set (k : string) (v : A) (l : list (string * A)) : list (string * A) :=
  match l with
  | [] => [(k, v)]
  | (k', v') :: l' => if String.eqb k k' then (k', v) :: l' else (k', v') :: dict_set k v l'
  end.

Definition dict_keys (l : list (string * A)) : list string := fst <$> l.

Lemma dict_find_set_eq k v l : dict_find k (dict_set k v l) = Some v.
Proof.
  induction l as [| [k' v'] l IH]; cbn; [by rewrite String.eqb_refl |].
  destruct (String.eqb k k') eqn:E; cbn; rewrite E; done.
Qed.

Lemma dict_find_set_ne k k' v l : k <> k' -> dict_find k' (dict_set k v l) = dict_find k' l.
Proof.
  intros Hne. induction l as [| [k1 v1] l IH]; cbn.
  - by destruct (String.eqb_spec k' k) as [-> |].
  - destruct (String.eqb_spec k k1) as [-> |]; cbn.
    + by destruct (String.eqb_spec k' k1) as [-> |].
    + by rewrite IH.
Qed.

Lemma dict_set_fresh k v l : k ∉ dict_keys l -> dict_set k v l = l ++ [(k, v)].
Proof.
  induction l as [| [k' v'] l IH]; cbn; [done|]. intros Hk.
  destruct (String.eqb_spec k k') as [-> |]; [set_solver |]. rewrite IH; [done | set_solver].
Qed.

Lemma dict_find_elem k v l : dict_find k l = Some v -> (k, v) ∈ l.
Proof.
  induction l as [| [k' v'] l IH]; cbn; [done|].
  destruct (String.eqb_spec k k') as [-> |]; [intros [= ->]; set_solver |].
  intros H%IH. set_solver.
Qed.
End Dict.

(** [v[k]] on a parsed value. *)
Definition jget (k : string) (j : json) : outcome json :=
  match j with
  | JObj l => dict_get k (dict_find k l)
  | _ => Raise TypeError
  end.

(** [k in v] on a parsed value: only a dict, a list of strings or a string. *)
Definition jin (k : string) (j : json) : outcome bool :=
  match j with
  | JObj l => Ret (bool_decide (is_Some (dict_find k l)))
  | JArr l => Ret (existsb (fun x => match x with JStr s => String.eqb s k | _ => false end) l)
  | JStr s => Ret (py_in k s)
  | _ => Raise TypeError
  end.

(** [v.keys()] exists on a dict only. *)
Definition jkeys (j : json) : outcome (list string) :=
  match j with
  | JObj l => Ret (dict_keys l)
  | _ => Raise AttributeError
  end.

(** [v[k] = x] *)
Definition jset (k : string) (x : json) (j : json) : outcome json :=
  match j with
  | JObj l => Ret (JObj (dict_set k x l))
  | _ => Raise TypeError
  end.

(** ** dumps *)
Definition esc_char (c : ascii) : list ascii :=
  let n := nat_of_ascii c in
  let bs := "\"%char in
  match n with
  | 34%nat => [bs; c]
  | 92%nat => [bs; c]
  | 8%nat => [bs; "b"%char]
  | 9%nat => [bs; "t"%char]
  | 10%nat => [bs; "n"%char]
  | 12%nat => [bs; "f"%char]
  | 13%nat => [bs; "r"%char]
  | _ =>
      if ((32 <=? n) && (n <=? 126))%nat then [c]
      else [bs; "u"%char; "0"%char; "0"%char;
            digit_char (Z.of_nat n / 16); digit_char (Z.of_nat n mod 16)]
  end.

Definition quote : ascii := ascii_of_nat 34.

Definition str_chars (s : string) : list ascii :=
  quote :: (list_ascii_of_string s ≫= esc_char) ++ [quote].

Definition chars (s : string) : list ascii := list_ascii_of_string s.

Fixpoint dump (j : json) : list ascii :=
  match j with
  | JNull => chars "null"
  | JBool true => chars "true"
  | JBool false => chars "false"
  | JInt z => chars (dec_str z)
  | JStr s => str_chars s
  | JArr [] => chars "[]"
  | JArr (x :: l) =>
      "["%char :: dump x ++ List.concat (List.map (fun y => chars ", " ++ dump y) l)
        ++ ["]"%char]
  | JObj [] => chars "{}"
  | JObj ((k, x) :: l) =>
      "{"%char :: str_chars k ++ chars ": " ++ dump x
        ++ List.concat (List.map
             (fun '(k', y) => chars ", " ++ str_chars k' ++ chars ": " ++ dump y) l)
        ++ ["}"%char]
  end.

(** [json.dumps(j)] *)
Definition dumps (j : json) : string := string_of_list_ascii (dump j).

(** ** loads *)
Definition is_ws (c : ascii) : bool :=
  match nat_of_ascii c with
  | 32%nat | 9%nat | 10%nat | 13%nat => true
  | _ => false
  end.

Fixpoint skip_ws (l : list ascii) : list ascii :=
  match l with
  | c :: l' => if is_ws c then skip_ws l' else l
  | [] => []
  end.

Definition hex_val (c : ascii) : option Z :=
  match digit_val c with
  | Some d => if d <? 16 then Some d else None
  | None => None
  end.

Definition unescape (e : ascii) : option ascii :=
  match nat_of_ascii e with
  | 34%nat | 92%nat | 47%nat => Some e
  | 98%nat => Some (ascii_of_nat 8)
  | 102%nat => Some (ascii_of_nat 12)
  | 110%nat => Some (ascii_of_nat 10)
  | 114%nat => Some (ascii_of_nat 13)
  | 116%nat => Some (ascii_of_nat 9)
  | _ => None
  end.

(** Body of a string literal, after its opening quote. *)
Fixpoint parse_str (l : list ascii) : option (list ascii * list ascii) :=
  match l with
  | [] => None
  | c :: r =>
      if Ascii.eqb c quote then Some ([], r)
      else if Ascii.eqb c "\" then
        match r with
        | [] => None
        | e :: r1 =>
            if Ascii.eqb e "u" then
              match r1 with
              | h1 :: h2 :: h3 :: h4 :: r2 =>
                  match hex_val h1, hex_val h2, hex_val h3, hex_val h4 with
                  | Some 0, Some 0, Some d1, Some d2 =>
                      (fun '(s, r') => (of_octet (d1 * 16 + d2) :: s, r')) <$> parse_str r2
                  | _, _, _, _ => None
                  end
              | _ => None
              end
            else
              match unescape e with
              | Some x => (fun '(s, r') => (x :: s, r')) <$> parse_str r1
              | None => None
              end
        end
      else if (nat_of_ascii c <? 32)%nat then None
      else (fun '(s, r') => (c :: s, r')) <$> parse_str r
  end.

Fixpoint span_digits (l : list ascii) : list ascii * list ascii :=
  match l with
  | c :: l' =>
      if rx_digit c then let '(ds, r) := span_digits l' in (c :: ds, r) else ([], l)
  | [] => ([], [])
  end.

Definition no_fraction (l : list ascii) : bool :=
  match l with
  | c :: _ => negb (Ascii.eqb c "." || Ascii.eqb c "e" || Ascii.eqb c "E")
  | [] => true
  end.

(** [0|[1-9]\d*], not followed by a fraction or an exponent. *)
Definition parse_nat (l : list ascii) : option (Z * list ascii) :=
  match l with
  | c :: r =>
      if Ascii.eqb c "0" then if no_fraction r then Some (0, r) else None
      else if rx_digit c then
        let '(ds, r') := span_digits l in
        if no_fraction r' then (fun n => (n, r')) <$> digits_value 10 ds 0 true else None
      else None
  | [] => None
  end.

Definition parse_int (l : list ascii) : option (Z * list ascii) :=
  match l with
  | c :: r =>
      if Ascii.eqb c "-" then (fun '(n, r') => (- n, r')) <$> parse_nat r else parse_nat l
  | [] => None
  end.

Fixpoint parse_value (fuel : nat) (l : list ascii) : option (json * list ascii) :=
  match fuel with
  | O => None
  | S fuel' =>
      match l with
      | [] => None
      | c :: r =>
          if Ascii.eqb c quote then
            (fun '(s, r') => (JStr (string_of_list_ascii s), r')) <$> parse_str r
          else if Ascii.eqb c "[" then
            match skip_ws r with
            | [] => None
            | c1 :: r1 =>
                if Ascii.eqb c1 "]" then Some (JArr [], r1)
                else (fun '(js, r') => (JArr js, r')) <$> parse_elems fuel' (c1 :: r1)
            end
          else if Ascii.eqb c "{" then
            match skip_ws r with
            | [] => None
            | c1 :: r1 =>
                if Ascii.eqb c1 "}" then Some (JObj [], r1)
                else (fun '(ms, r') => (JObj (foldl (fun d kv => dict_set kv.1 kv.2 d) [] ms), r'))
                       <$> parse_members fuel' (c1 :: r1)
            end
          else match strip_lit (chars "null") l, strip_lit (chars "true") l,
                     strip_lit (chars "false") l with
               | Some r', _, _ => Some (JNull, r')
               | _, Some r', _ => Some (JBool true, r')
               | _, _, Some r' => Some (JBool false, r')
               | _, _, _ => (fun '(n, r') => (JInt n, r')) <$> parse_int l
               end
      end
  end
with parse_elems (fuel : nat) (l : list ascii) : option (list json * list ascii) :=
  match fuel with
  | O => None
  | S fuel' =>
      match parse_value fuel' l with
      | None => None
      | Some (j, r) =>
          match skip_ws r with
          | [] => None
          | c :: r1 =>
              if Ascii.eqb c "]" then Some ([j], r1)
              else if Ascii.eqb c "," then
                (fun '(js, r') => (j :: js, r')) <$> parse_elems fuel' (skip_ws r1)
              else None
          end
      end
  end
with parse_members (fuel : nat) (l : list ascii) : option (list (string * json) * list ascii) :=
  match fuel with
  | O => None
  | S fuel' =>
      match l with
      | [] => None
      | q :: r0 =>
          if Ascii.eqb q quote then
            match parse_str r0 with
            | None => None
            | Some (k, r) =>
                match skip_ws r with
                | [] => None
                | c :: r1 =>
                    if Ascii.eqb c ":" then
                      match parse_value fuel' (skip_ws r1) with
                      | None => None
                      | Some (j, r2) =>
                          let kv := (string_of_list_ascii k, j) in
                          match skip_ws r2 with
                          | [] => None
                          | c3 :: r3 =>
                              if Ascii.eqb c3 "}" then Some ([kv], r3)
                              else if Ascii.eqb c3 "," then
                                (fun '(ms, r') => (kv :: ms, r'))
                                  <$> parse_members fuel' (skip_ws r3)
                              else None
                          end
                      end
                    else None
                end
            end
          else None
      end
  end.

(** [json.loads(s)].  A call of the parser either consumes a character or is
    the value of an element just entered, so twice the length is fuel enough. *)
Definition loads (s : string) : outcome json :=
  let l := list_ascii_of_string s in
  match parse_value (2 * length l + 2) (skip_ws l) with
  | Some (j, r) => match skip_ws r with [] => Ret j | _ => Raise JSONDecodeError end
  | None => Raise JSONDecodeError
  end.

(** ** The round trip *)
Section RoundTrip.

(** Dicts have distinct keys. *)
Inductive wf_json : json -> Prop :=
| wf_null : wf_json JNull
| wf_bool b : wf_json (JBool b)
| wf_int z : wf_json (JInt z)
| wf_str s : wf_json (JStr s)
| wf_arr l : Forall wf_json l -> wf_json (JArr l)
| wf_obj l : NoDup (dict_keys l) -> Forall (fun kv => wf_json kv.2) l -> wf_json (JObj l).

Lemma wf_json_induction (P : json -> Prop) :
  P JNull -> (forall b, P (JBool b)) -> (forall z, P (JInt z)) -> (forall s, P (JStr s)) ->
  (forall l, Forall P l -> P (JArr l)) ->
  (forall l, NoDup (dict_keys l) -> Forall (fun kv => P kv.2) l -> P (JObj l)) ->
  forall j, wf_json j -> P j.
Proof.
  intros Hn Hb Hi Hs Ha Ho.
  fix IH 2. intros j [| b | z | s | l Hl | l Hnd Hl]; auto.
  - apply Ha. induction Hl as [| x l Hx _ IHl]; constructor; auto.
  - apply Ho; [done|]. clear Hnd. induction Hl as [| x l Hx _ IHl]; constructor; auto.
Qed.

Lemma parse_str_esc c r :
  parse_str (esc_char c ++ r) = (fun '(s, r') => (c :: s, r')) <$> parse_str r.
Proof. destruct c as [[] [] [] [] [] [] [] []]; reflexivity. Qed.

Lemma parse_str_chars s r :
  parse_str ((s ≫= esc_char) ++ quote :: r) = Some (s, r).
Proof.
  induction s as [| c s IH]; [reflexivity|].
  cbn [mbind list_bind]. rewrite <- app_assoc, parse_str_esc, IH. done.
Qed.

Definition dec_digit_ok (d : Z) : bool :=
  rx_digit (digit_char d) && negb (is_ws (digit_char d))
  && ((d =? 0) || negb (Ascii.eqb (digit_char d) "0"))
  && negb (Ascii.eqb (digit_char d) quote) && negb (Ascii.eqb (digit_char d) "[")
  && negb (Ascii.eqb (digit_char d) "{") && negb (Ascii.eqb (digit_char d) "-")
  && negb (Ascii.eqb "n" (digit_char d)) && negb (Ascii.eqb "t" (digit_char d))
  && negb (Ascii.eqb "f" (digit_char d)) && negb (Ascii.eqb (digit_char d) "]").

Lemma dec_digit_spec d : 0 <= d < 10 -> dec_digit_ok d = true.
Proof.
  intros H.
  assert (Hall : forallb dec_digit_ok (seqZ 0 10) = true) by (vm_compute; reflexivity).
  rewrite forallb_forall in Hall. apply Hall, list_elem_of_In, elem_of_seqZ. lia.
Qed.

(** What may follow a value inside a larger one. *)
Definition follow (r : list ascii) : Prop :=
  match r with
  | [] => True
  | c :: _ => c = ","%char \/ c = "]"%char \/ c = "}"%char
  end.

Lemma span_digits_app ds r :
  Forall (fun d => 0 <= d < 10) ds -> follow r ->
  span_digits ((digit_char <$> ds) ++ r) = (digit_char <$> ds, r).
Proof.
  intros Hds Hr. induction Hds as [| d ds Hd _ IH]; cbn.
  - destruct r as [| c r]; cbn; [done|].
    destruct Hr as [-> | [-> | ->]]; done.
  - pose proof (dec_digit_spec d Hd) as H. unfold dec_digit_ok in H.
    rewrite !andb_true_iff in H. destruct H as [[[[[[[[[[-> _] _] _] _] _] _] _] _] _] _].
    by rewrite IH.
Qed.

Lemma follow_no_fraction r : follow r -> no_fraction r = true.
Proof. destruct r as [| c r]; cbn; [done|]. by intros [-> | [-> | ->]]. Qed.

Lemma to_digits_head fuel n :
  0 < n < 2 ^ Z.of_nat fuel ->
  exists d ds, to_digits fuel 10 n = d :: ds /\ 0 < d < 10.
Proof.
  revert n. induction fuel as [| fuel IH]; intros n Hn; [cbn in Hn; lia|].
  cbn. destruct (n <? 10) eqn:E; [exists n, []; split; [done | lia] |].
  destruct (IH (n / 10)) as (d & ds & -> & Hd).
  - split; [apply Z.div_str_pos; lia |].
    rewrite Nat2Z.inj_succ, Z.pow_succ_r in Hn by lia.
    apply Z.div_lt_upper_bound; lia.
  - by exists d, (ds ++ [n mod 10]).
Qed.

Lemma parse_nat_str n r :
  0 <= n -> follow r -> parse_nat (chars (nat_str 10 n) ++ r) = Some (n, r).
Proof.
  intros Hn Hr. unfold chars. rewrite nat_str_digits.
  destruct (Z.eq_dec n 0) as [-> | Hne]; [cbn; by rewrite follow_no_fraction |].
  pose proof (to_digits_range (digits_fuel n) 10 n ltac:(lia) Hn) as Hrange.
  pose proof (nat_str_value 10 n ltac:(lia) Hn) as Hval. rewrite nat_str_digits in Hval.
  destruct (to_digits_head (digits_fuel n) n) as (d & ds & Hds & Hd).
  { split; [lia | by apply digits_fuel_enough]. }
  rewrite Hds in *. pose proof (dec_digit_spec d ltac:(lia)) as H. unfold dec_digit_ok in H.
  rewrite !andb_true_iff, orb_true_iff, !negb_true_iff in H.
  destruct H as [[[[[[[[[[Hdig _] Hz] _] _] _] _] _] _] _] _].
  assert (Hz' : Ascii.eqb (digit_char d) "0" = false) by (destruct Hz; [lia | done]).
  unfold parse_nat. change ((digit_char <$> d :: ds) ++ r) with
    (digit_char d :: (digit_char <$> ds) ++ r) at 1. cbv beta iota. rewrite Hz', Hdig.
  rewrite (span_digits_app (d :: ds) r Hrange Hr), follow_no_fraction, Hval by done. done.
Qed.

Lemma dec_str_cases z :
  exists c t, chars (dec_str z) = c :: t /\
    (c = "-"%char \/ exists d, 0 <= d < 10 /\ c = digit_char d).
Proof.
  unfold chars, dec_str. destruct (z <? 0) eqn:E.
  - by exists "-"%char, (chars (nat_str 10 (- z))); split; [| left].
  - rewrite nat_str_digits.
    pose proof (to_digits_range (digits_fuel z) 10 z ltac:(lia) ltac:(lia)) as Hr.
    pose proof (to_digits_nonempty (Z.to_nat (Z.log2 z)) 10 z) as Hne.
    change (S (Z.to_nat (Z.log2 z))) with (digits_fuel z) in Hne.
    destruct (to_digits _ 10 z) as [| d ds]; [done|].
    apply Forall_cons in Hr as [Hd _]. exists (digit_char d), (digit_char <$> ds). eauto.
Qed.

Lemma parse_int_str z r : follow r -> parse_int (chars (dec_str z) ++ r) = Some (z, r).
Proof.
  intros Hr. unfold dec_str. destruct (z <? 0) eqn:E.
  - change (chars ("-" +:+ nat_str 10 (- z)) ++ r) with
      ("-"%char :: chars (nat_str 10 (- z)) ++ r).
    cbn [parse_int]. rewrite Ascii.eqb_refl, parse_nat_str by (done || lia).
    cbn. by rewrite Z.opp_involutive.
  - destruct (dec_str_cases z) as (c & t & Hc & Hcase).
    unfold dec_str in Hc. rewrite E in Hc.
    rewrite <- (parse_nat_str z r) by (done || lia). rewrite Hc. cbn.
    destruct Hcase as [-> | (d & Hd & ->)].
    + exfalso. pose proof (nat_str_chars 10 z ltac:(lia) ltac:(lia)) as Hall.
      unfold chars in Hc. rewrite Hc in Hall. apply Forall_cons in Hall as [Hm _]. tauto.
    + pose proof (dec_digit_spec d Hd) as H. unfold dec_digit_ok in H.
      rewrite !andb_true_iff, !negb_true_iff in H. by destruct H as [[[[[_ ->] _] _] _] _].
Qed.

(** Fuel the parser needs for [j]. *)
Definition need_seq (ns : list nat) : nat := foldr (fun a n => S (Nat.max a n)) 0%nat ns.

Fixpoint need (j : json) : nat :=
  match j with
  | JArr l => S (need_seq (List.map need l))
  | JObj l => S (need_seq (List.map (fun '(_, y) => need y) l))
  | _ => 1
  end.

Definition parses (j : json) : Prop := forall fuel r,
  (need j <= fuel)%nat -> follow r -> parse_value fuel (dump j ++ r) = Some (j, r).

Lemma dump_head j :
  exists c t, dump j = c :: t /\ is_ws c = false /\ Ascii.eqb c "]" = false.
Proof.
  destruct j as [| [] | z | s | [| x l] | [| [k x] l]]; cbn; try by eexists _, _.
  destruct (dec_str_cases z) as (c & t & -> & Hc). exists c, t. split; [done|].
  destruct Hc as [-> | (d & Hd & ->)]; [done|].
  pose proof (dec_digit_spec d Hd) as H. unfold dec_digit_ok in H.
  rewrite !andb_true_iff, !negb_true_iff in H. tauto.
Qed.

Lemma skip_ws_dump j r : skip_ws (dump j ++ r) = dump j ++ r.
Proof. destruct (dump_head j) as (c & t & -> & Hw & _). cbn. by rewrite Hw. Qed.

Lemma skip_ws_space r : skip_ws (" "%char :: r) = skip_ws r.
Proof. reflexivity. Qed.

Lemma skip_ws_colon r : skip_ws (":"%char :: r) = ":"%char :: r.
Proof. reflexivity. Qed.

Lemma skip_ws_comma r : skip_ws (","%char :: r) = ","%char :: r.
Proof. reflexivity. Qed.

Lemma parse_elems_dump x l fuel r :
  Forall parses (x :: l) -> (need_seq (List.map need (x :: l)) <= fuel)%nat ->
  parse_elems fuel
    (dump x ++ List.concat (List.map (fun y => chars ", " ++ dump y) l) ++ "]"%char :: r)
  = Some (x :: l, r).
Proof.
  intros Hall. revert x fuel Hall.
  induction l as [| y l IH]; intros x fuel [Hx Hl]%Forall_cons Hf;
    cbn in Hf; destruct fuel as [| fuel]; try lia.
  - cbn [parse_elems List.map List.concat app].
    rewrite Hx by (cbn; tauto || lia). reflexivity.
  - cbn [parse_elems List.map List.concat]. rewrite <- !app_assoc.
    rewrite Hx by (cbn; tauto || lia).
    cbn [chars list_ascii_of_string app]. rewrite skip_ws_comma.
    change (Ascii.eqb "," "]") with false. change (Ascii.eqb "," ",") with true.
    cbv beta iota. rewrite skip_ws_space, skip_ws_dump.
    cbn [chars list_ascii_of_string app] in IH.
    rewrite IH; [done | done | cbn; lia].
Qed.

Lemma str_chars_head k t : exists t', str_chars k ++ t = quote :: t'.
Proof. by eexists. Qed.

Definition member_chars (kv : string * json) : list ascii :=
  let '(k, y) := kv in chars ", " ++ str_chars k ++ chars ": " ++ dump y.

Lemma parse_members_dump k x l fuel r :
  Forall (fun kv => parses kv.2) ((k, x) :: l) ->
  (need_seq (List.map (fun '(_, y) => need y) ((k, x) :: l)) <= fuel)%nat ->
  parse_members fuel
    (str_chars k ++ chars ": " ++ dump x ++ List.concat (List.map member_chars l) ++ "}"%char :: r)
  = Some ((k, x) :: l, r).
Proof.
  intros Hall. revert k x fuel Hall.
  induction l as [| [k1 y] l IH]; intros k x fuel [Hx Hl]%Forall_cons Hf;
    cbn in Hf, Hx; destruct fuel as [| fuel]; try lia;
    unfold str_chars; cbn [app parse_members]; rewrite Ascii.eqb_refl, <- app_assoc;
    cbn [app]; rewrite parse_str_chars;
    cbn [chars list_ascii_of_string app];
    rewrite skip_ws_colon, Ascii.eqb_refl, skip_ws_space, skip_ws_dump.
  - cbn [List.map List.concat app]. rewrite Hx by (cbn; tauto || lia).
    cbn. by rewrite string_of_list_ascii_of_string.
  - cbn [List.map List.concat member_chars]. rewrite <- !app_assoc.
    rewrite Hx by (cbn; tauto || lia).
    cbn [chars list_ascii_of_string app]. rewrite skip_ws_comma.
    change (Ascii.eqb "," "}") with false. change (Ascii.eqb "," ",") with true.
    cbv beta iota. rewrite skip_ws_space.
    change (skip_ws (str_chars k1 ++ ?t)) with (str_chars k1 ++ t).
    specialize (IH k1 y fuel Hl ltac:(cbn; lia)).
    cbn [chars list_ascii_of_string app] in IH. cbn [app]. rewrite IH.
    cbn. by rewrite string_of_list_ascii_of_string.
Qed.

Lemma dict_set_fold (l acc : list (string * json)) :
  NoDup (dict_keys (acc ++ l)) ->
  foldl (fun d kv => dict_set kv.1 kv.2 d) acc l = acc ++ l.
Proof.
  revert acc. induction l as [| [k v] l IH]; intros acc Hnd; cbn; [by rewrite app_nil_r |].
  rewrite dict_set_fresh.
  - rewrite IH; rewrite <- app_assoc; done.
  - unfold dict_keys in *. rewrite fmap_app, NoDup_app in Hnd. cbn in Hnd. set_solver.
Qed.

Lemma parses_all j : wf_json j -> parses j.
Proof.
  induction 1 as [| [] | z | s | l Hl | l Hnd Hl] using wf_json_induction;
    intros fuel r Hf Hr; destruct fuel as [| fuel]; try (cbn in Hf; lia); try reflexivity.
  - destruct (dec_str_cases z) as (c & t & Hc & Hcase).
    pose proof (parse_int_str z r Hr) as Hp.
    cbn [dump]. rewrite Hc in *. cbn [app] in *.
    cbn [parse_value chars list_ascii_of_string strip_lit].
    destruct Hcase as [-> | (d & Hd & ->)]; [cbn -[parse_int]; by rewrite Hp |].
    pose proof (dec_digit_spec d Hd) as H. unfold dec_digit_ok in H.
    rewrite !andb_true_iff, !negb_true_iff in H.
    destruct H as [[[[[[[[[[_ _] _] ->] ->] ->] _] ->] ->] ->] _].
    by rewrite Hp.
  - cbn [dump]. unfold str_chars. cbn [app parse_value]. rewrite Ascii.eqb_refl, <- app_assoc.
    cbn [app]. rewrite parse_str_chars. cbn. by rewrite string_of_list_ascii_of_string.
  - destruct l as [| x l]; [reflexivity|].
    cbn [dump app parse_value]. change (Ascii.eqb "[" quote) with false.
    change (Ascii.eqb "[" "[") with true. cbv beta iota. rewrite <- !app_assoc.
    rewrite skip_ws_dump. destruct (dump_head x) as (c & t & Hc & _ & Hb).
    pose proof (parse_elems_dump x l fuel r Hl ltac:(cbn in *; lia)) as Hp.
    rewrite Hc in *. cbn [app] in *. by rewrite Hb, Hp.
  - destruct l as [| [k x] l]; [reflexivity|].
    cbn [dump app parse_value]. change (Ascii.eqb "{" quote) with false.
    change (Ascii.eqb "{" "[") with false. change (Ascii.eqb "{" "{") with true.
    cbv beta iota. rewrite <- !app_assoc.
    change (skip_ws (str_chars k ++ ?t)) with (str_chars k ++ t).
    pose proof (parse_members_dump k x l fuel r Hl ltac:(cbn in *; lia)) as Hp.
    unfold member_chars in Hp. cbn [app].
    match type of Hp with parse_members _ (str_chars k ++ ?t) = _ =>
      destruct (str_chars_head k t) as [t' Ht] end.
    rewrite Ht in *. change (Ascii.eqb quote "}") with false.
    cbv beta iota. rewrite Hp. cbn.
    by rewrite (dict_set_fold l [(k, x)]).
Qed.

(** The fuel [loads] starts with covers [need]. *)
Lemma dump_nonempty j : (1 <= length (dump j))%nat.
Proof. destruct (dump_head j) as (c & t & -> & _). cbn. lia. Qed.

Lemma need_seq_bound {A} (f : A -> nat) (g : A -> list ascii) (l : list A) :
  Forall (fun y => (S (f y) <= 2 * length (g y))%nat /\ (1 <= length (g y))%nat) l ->
  (need_seq (List.map f l) <= 2 * length (List.concat (List.map g l)))%nat.
Proof.
  induction 1 as [| y l [Hy H1] _ IH]; cbn; [lia|].
  rewrite length_app. cbn in IH. unfold need_seq in IH. lia.
Qed.

Lemma need_bound j : wf_json j -> (need j <= 2 * length (dump j))%nat.
Proof.
  induction 1 as [| b | z | s | l Hl | l _ Hl] using wf_json_induction;
    try (match goal with |- (need ?j <= _)%nat => pose proof (dump_nonempty j) end; cbn [need]; lia).
  - destruct l as [| x l]; [cbn; lia|]. apply Forall_cons in Hl as [Hx Hl].
    pose proof (dump_nonempty x).
    assert (Hb : (need_seq (List.map need l)
      <= 2 * length (List.concat (List.map (fun y => chars ", " ++ dump y) l)))%nat).
    { apply (need_seq_bound need). eapply Forall_impl; [exact Hl |]. intros y Hy; cbn in Hy.
      rewrite length_app. cbn. lia. }
    cbn [need dump List.map]. unfold need_seq in *. cbn [foldr length].
    rewrite !length_app. cbn [length]. lia.
  - destruct l as [| [k x] l]; [cbn; lia|]. apply Forall_cons in Hl as [Hx Hl]. cbn in Hx.
    pose proof (dump_nonempty x).
    assert (Hb : (need_seq (List.map (fun '(_, y) => need y) l)
      <= 2 * length (List.concat (List.map member_chars l)))%nat).
    { apply (need_seq_bound (fun '(_, y) => need y)). eapply Forall_impl; [exact Hl |].
      intros [k' y] Hy; cbn in Hy. unfold member_chars. rewrite !length_app. cbn. lia. }
    cbn [need dump List.map]. unfold need_seq, member_chars in *. cbn [foldr length].
    rewrite !length_app. cbn [length]. lia.
Qed.

Lemma loads_dumps_wf j : wf_json j -> loads (dumps j) = Ret j.
Proof.
  intros Hj. unfold loads, dumps. rewrite list_ascii_of_string_of_list_ascii.
  rewrite <- (app_nil_r (dump j)) at 2. rewrite skip_ws_dump.
  pose proof (need_bound j Hj).
  rewrite (parses_all j Hj) by (done || lia). done.
Qed.
End RoundTrip.

#[export] Hint Constructors wf_json : hare.
#[export] Hint Resolve loads_dumps_wf : hare.
