(* ===== verification/HaxTypes.v ===== *)
(** * Data types of hax ([src/hax/hax/types.py])

    Configuration object types, fids, HA note states, object health, process
    events and types, message promises.  Every enum is an inductive type with
    the constructors of the source; [..._name] is the enum member's [name] and
    [..._value] its value. *)

From S2P Require Import Prelude PyStr.

(** ** Configuration object types *)
Inductive ObjT : Type :=
| PROCESS | SERVICE | SDEV | DRIVE | PROFILE | OBJV | NODE | SITE | RACK
| ENCLOSURE | CONTROLLER | ROOT | POOL | PVER | PVERF | FDMI_FILTER | FDMI_FLT_GRP.

#[global] Instance ObjT_eq_dec : EqDecision ObjT.
Proof. solve_decision. Defined.

(** [ObjT.value]: the [m0_fid.f_container] of the type. *)
Definition ObjT_value (t : ObjT) : Z :=
  match t with
  | PROCESS => 0x7200000000000001
  | SERVICE => 0x7300000000000001
  | SDEV => 0x6400000000000001
  | DRIVE => 0x6b00000000000001
  | PROFILE => 0x7000000000000001
  | OBJV => 0x6a00000000000001
  | NODE => 0x6e00000000000001
  | SITE => 0x5300000000000001
  | RACK => 0x6100000000000001
  | ENCLOSURE => 0x6500000000000001
  | CONTROLLER => 0x6300000000000001
  | ROOT => 0x7400000000000001
  | POOL => 0x6f00000000000001
  | PVER => 0x7600000000000001
  | PVERF => 0x7640000000000001
  | FDMI_FILTER => 0x6c00000000000001
  | FDMI_FLT_GRP => 0x6700000000000001
  end.

Definition ObjT_name (t : ObjT) : string :=
  match t with
  | PROCESS => "PROCESS" | SERVICE => "SERVICE" | SDEV => "SDEV" | DRIVE => "DRIVE"
  | PROFILE => "PROFILE" | OBJV => "OBJV" | NODE => "NODE" | SITE => "SITE"
  | RACK => "RACK" | ENCLOSURE => "ENCLOSURE" | CONTROLLER => "CONTROLLER"
  | ROOT => "ROOT" | POOL => "POOL" | PVER => "PVER" | PVERF => "PVERF"
  | FDMI_FILTER => "FDMI_FILTER" | FDMI_FLT_GRP => "FDMI_FLT_GRP"
  end.

Definition ObjT_all : list ObjT :=
  [PROCESS; SERVICE; SDEV; DRIVE; PROFILE; OBJV; NODE; SITE; RACK; ENCLOSURE;
   CONTROLLER; ROOT; POOL; PVER; FDMI_FILTER; FDMI_FLT_GRP; PVERF].

(** The dict [FidTypeToObjT] (its second, complete binding) as a lookup. *)
Definition FidTypeToObjT (container : Z) : outcome ObjT :=
  match List.find (fun t => ObjT_value t =? container) ObjT_all with
  | Some t => Ret t
  | None => Raise (KeyError (dec_str container))
  end.

(** ** HA note states ([HaNoteStruct]) *)
Definition M0_NC_UNKNOWN : Z := 0.
Definition M0_NC_ONLINE : Z := 1.
Definition M0_NC_FAILED : Z := 2.
Definition M0_NC_TRANSIENT : Z := 3.
Definition M0_NC_REPAIR : Z := 4.
Definition M0_NC_REPAIRED : Z := 5.
Definition M0_NC_REBALANCE : Z := 6.
Definition M0_NC_DTM_RECOVERING : Z := 7.
Definition M0_NC_NR : Z := 8.

(** ** Fids *)
Record Fid : Type := mkFid { container : Z; key : Z }.

#[global] Instance Fid_eq_dec : EqDecision Fid.
Proof. solve_decision. Defined.

#[global] Instance Fid_countable : Countable Fid.
Proof.
  apply (inj_countable' (fun f => (container f, key f)) (fun p => mkFid p.1 p.2)).
  by intros [].
Defined.

(** [Fid.__eq__] *)
Definition fid_eqb (a b : Fid) : bool :=
  (container b =? container a) && (key b =? key a).

(** [Fid.__repr__], also used by [str(fid)] and [f'{fid}']. *)
Definition fid_repr (f : Fid) : string :=
  "0x" +:+ hex_str (container f) +:+ ":0x" +:+ hex_str (key f).

(** [Fid.parse]: [val.split(':', 1)] must give exactly two parts. *)
Definition fid_parse (val : string) : outcome Fid :=
  match py_split1 ":" val with
  | [c; k] => cont ← py_int 16 c; key ← py_int 16 k; Ret (mkFid cont key)
  | _ => Raise ValueError
  end.

(** [FidStruct]: two [c_uint64] fields; ctypes keeps the low 64 bits. *)
Record FidStruct : Type := mkFidStruct { f_container : Z; f_key : Z }.

#[global] Instance FidStruct_eq_dec : EqDecision FidStruct.
Proof. solve_decision. Defined.

Definition c_uint64 (z : Z) : Z := z mod 2 ^ 64.
Definition c_uint32 (z : Z) : Z := z mod 2 ^ 32.

Definition to_c (f : Fid) : FidStruct := mkFidStruct (c_uint64 (container f)) (c_uint64 (key f)).
Definition from_struct (s : FidStruct) : Fid := mkFid (f_container s) (f_key s).
Definition get_copy (f : Fid) : Fid := mkFid (container f) (key f).
Definition is_null (f : Fid) : bool := (container f =? 0) && (key f =? 0).

Definition DW_F : Z := 0xffffffff.
Definition QW_F : Z := 0xffffffffffffffff.

(** The dict [ObjTMaskMap]. *)
Definition ObjTMaskMap (t : ObjT) : outcome Fid :=
  match t with
  | PROCESS => Ret (mkFid QW_F DW_F)
  | SERVICE => Ret (mkFid QW_F DW_F)
  | _ => Raise (KeyError (ObjT_name t))
  end.

Record Uint128 : Type := mkUint128 { hi : Z; lo : Z }.

#[global] Instance Uint128_eq_dec : EqDecision Uint128.
Proof. solve_decision. Defined.

(** [HaNoteStruct]: a fid and a [c_uint32] state. *)
Record HaNoteStruct : Type := mkNote { no_id : FidStruct; no_state : Z }.

#[global] Instance HaNoteStruct_eq_dec : EqDecision HaNoteStruct.
Proof. solve_decision. Defined.

(** [HaNoteStruct(no_id=..., no_state=...)] *)
Definition ha_note (id : FidStruct) (state : Z) : HaNoteStruct := mkNote id (c_uint32 state).

Record HaNote : Type := mkHaNote { obj_t : string; note : HaNoteStruct }.

(** ** Statistics *)
Record FsStats : Type := mkFsStats {
  fs_free_seg : Z; fs_total_seg : Z; fs_free_disk : Z; fs_avail_disk : Z;
  fs_total_disk : Z; fs_svc_total : Z; fs_svc_replied : Z }.

Record PverBC : Type := mkPverBC {
  pver_fid : Fid; user_id : Z; byte_count : Z; object_count : Z }.

Record ByteCountStats : Type := mkByteCountStats { proc_fid : Fid; pvers : list PverBC }.

Inductive PverState : Type :=
| M0_CPS_HEALTHY | M0_CPS_DEGRADED | M0_CPS_CRITICAL | M0_CPS_DAMAGED.

#[global] Instance PverState_eq_dec : EqDecision PverState.
Proof. solve_decision. Defined.

Record PverInfo : Type := mkPverInfo {
  pi_fid : Fid; pi_state : PverState; data_units : Z; parity_units : Z;
  pool_width : Z; unit_size : Z }.

Inductive SnsCmStatus : Type :=
| CM_STATUS_INVALID | CM_STATUS_IDLE | CM_STATUS_STARTED | CM_STATUS_FAILED | CM_STATUS_PAUSED.

Record ReprebStatus : Type := mkReprebStatus {
  rs_fid : Fid; rs_state : SnsCmStatus; rs_progress : Z }.

Record StobId : Type := mkStobId { domain_fid : Fid; stob_fid : Fid }.

(** ** Message ids and promises *)
Record MessageId : Type := mkMessageId { halink_ctx : Z; tag : Z }.

#[global] Instance MessageId_eq_dec : EqDecision MessageId.
Proof. solve_decision. Defined.

#[global] Instance MessageId_countable : Countable MessageId.
Proof.
  apply (inj_countable' (fun m => (halink_ctx m, tag m)) (fun p => mkMessageId p.1 p.2)).
  by intros [].
Defined.

(** [HaLinkMessagePromise]: an object holding a set of message ids.  The class
    has no [__eq__], so promises are compared and hashed by identity. *)
Definition promise_ids := gset MessageId.

Definition promise_init (ids : list MessageId) : gset MessageId := list_to_set ids.

Definition exclude_ids (p : gset MessageId) (ids : list MessageId) : gset MessageId :=
  foldl (fun s m => s ∖ {[m]}) p ids.

Definition promise_is_empty (p : gset MessageId) : bool := bool_decide (p = ∅).
Definition promise_contains (p : gset MessageId) (m : MessageId) : bool := bool_decide (m ∈ p).

(** ** Object health *)
Inductive ObjHealth : Type :=
| FAILED | OK | OFFLINE | STOPPED | RECOVERING | REPAIR | REPAIRED | REBALANCE | UNKNOWN.

#[global] Instance ObjHealth_eq_dec : EqDecision ObjHealth.
Proof. solve_decision. Defined.

Definition ObjHealth_value (h : ObjHealth) : Z * Z :=
  match h with
  | FAILED => (0, M0_NC_FAILED)
  | OK => (1, M0_NC_ONLINE)
  | OFFLINE => (2, M0_NC_TRANSIENT)
  | STOPPED => (3, M0_NC_TRANSIENT)
  | RECOVERING => (4, M0_NC_DTM_RECOVERING)
  | REPAIR => (5, M0_NC_REPAIR)
  | REPAIRED => (6, M0_NC_REPAIRED)
  | REBALANCE => (7, M0_NC_REBALANCE)
  | UNKNOWN => (8, M0_NC_TRANSIENT)
  end.

(** [list(ObjHealth)]: definition order. *)
Definition ObjHealth_all : list ObjHealth :=
  [FAILED; OK; OFFLINE; STOPPED; RECOVERING; REPAIR; REPAIRED; REBALANCE; UNKNOWN].

Definition from_ha_note_state (state : Z) : ObjHealth :=
  match List.find (fun i => (ObjHealth_value i).2 =? state) ObjHealth_all with
  | Some i => i
  | None => UNKNOWN
  end.

Definition to_ha_note_status (h : ObjHealth) : Z := (ObjHealth_value h).2.

Record HAState : Type := mkHAState { fid : Fid; status : ObjHealth }.

#[global] Instance HAState_eq_dec : EqDecision HAState.
Proof. solve_decision. Defined.

(** ** Process events and types *)
Inductive m0HaProcessEvent : Type :=
| M0_CONF_HA_PROCESS_STARTING
| M0_CONF_HA_PROCESS_STARTED
| M0_CONF_HA_PROCESS_STOPPING
| M0_CONF_HA_PROCESS_STOPPED
| M0_CONF_HA_PROCESS_DTM_RECOVERED.

#[global] Instance m0HaProcessEvent_eq_dec : EqDecision m0HaProcessEvent.
Proof. solve_decision. Defined.

Definition event_value (e : m0HaProcessEvent) : Z :=
  match e with
  | M0_CONF_HA_PROCESS_STARTING => 0
  | M0_CONF_HA_PROCESS_STARTED => 1
  | M0_CONF_HA_PROCESS_STOPPING => 2
  | M0_CONF_HA_PROCESS_STOPPED => 3
  | M0_CONF_HA_PROCESS_DTM_RECOVERED => 4
  end.

Definition event_name (e : m0HaProcessEvent) : string :=
  match e with
  | M0_CONF_HA_PROCESS_STARTING => "M0_CONF_HA_PROCESS_STARTING"
  | M0_CONF_HA_PROCESS_STARTED => "M0_CONF_HA_PROCESS_STARTED"
  | M0_CONF_HA_PROCESS_STOPPING => "M0_CONF_HA_PROCESS_STOPPING"
  | M0_CONF_HA_PROCESS_STOPPED => "M0_CONF_HA_PROCESS_STOPPED"
  | M0_CONF_HA_PROCESS_DTM_RECOVERED => "M0_CONF_HA_PROCESS_DTM_RECOVERED"
  end.

Definition event_all : list m0HaProcessEvent :=
  [M0_CONF_HA_PROCESS_STARTING; M0_CONF_HA_PROCESS_STARTED; M0_CONF_HA_PROCESS_STOPPING;
   M0_CONF_HA_PROCESS_STOPPED; M0_CONF_HA_PROCESS_DTM_RECOVERED].

(** [m0HaProcessEvent.str_to_Enum] *)
Definition event_str_to_Enum (evt : string) : outcome m0HaProcessEvent :=
  dict_get evt (List.find (fun e => String.eqb (event_name e) evt) event_all).

(** [m0HaProcessEvent.event_to_svchealth] *)
Definition event_to_svchealth (e : m0HaProcessEvent) : ObjHealth :=
  match e with
  | M0_CONF_HA_PROCESS_STARTING => OK
  | M0_CONF_HA_PROCESS_STARTED => RECOVERING
  | M0_CONF_HA_PROCESS_DTM_RECOVERED => OK
  | M0_CONF_HA_PROCESS_STOPPING => OFFLINE
  | M0_CONF_HA_PROCESS_STOPPED => OFFLINE
  end.

Inductive m0HaProcessType : Type :=
| M0_CONF_HA_PROCESS_OTHER
| M0_CONF_HA_PROCESS_KERNEL
| M0_CONF_HA_PROCESS_M0MKFS
| M0_CONF_HA_PROCESS_M0D
| M0_CONF_HA_PROCESS_HA.

#[global] Instance m0HaProcessType_eq_dec : EqDecision m0HaProcessType.
Proof. solve_decision. Defined.

Definition ptype_value (t : m0HaProcessType) : Z :=
  match t with
  | M0_CONF_HA_PROCESS_OTHER => 0
  | M0_CONF_HA_PROCESS_KERNEL => 1
  | M0_CONF_HA_PROCESS_M0MKFS => 2
  | M0_CONF_HA_PROCESS_M0D => 3
  | M0_CONF_HA_PROCESS_HA => 4
  end.

Definition ptype_name (t : m0HaProcessType) : string :=
  match t with
  | M0_CONF_HA_PROCESS_OTHER => "M0_CONF_HA_PROCESS_OTHER"
  | M0_CONF_HA_PROCESS_KERNEL => "M0_CONF_HA_PROCESS_KERNEL"
  | M0_CONF_HA_PROCESS_M0MKFS => "M0_CONF_HA_PROCESS_M0MKFS"
  | M0_CONF_HA_PROCESS_M0D => "M0_CONF_HA_PROCESS_M0D"
  | M0_CONF_HA_PROCESS_HA => "M0_CONF_HA_PROCESS_HA"
  end.

Definition ptype_all : list m0HaProcessType :=
  [M0_CONF_HA_PROCESS_OTHER; M0_CONF_HA_PROCESS_KERNEL; M0_CONF_HA_PROCESS_M0MKFS;
   M0_CONF_HA_PROCESS_M0D; M0_CONF_HA_PROCESS_HA].

(** [m0HaProcessType.str_to_Enum] *)
Definition ptype_str_to_Enum (t : string) : outcome m0HaProcessType :=
  dict_get t (List.find (fun p => String.eqb (ptype_name p) t) ptype_all).

(** [m0HaProcessType(n)]: ValueError when no member has the value. *)
Definition ptype_of_value (n : Z) : outcome m0HaProcessType :=
  match List.find (fun p => ptype_value p =? n) ptype_all with
  | Some p => Ret p
  | None => Raise ValueError
  end.

(** [m0HaObjState.parse]: the mapping of state names to state values; the
    source maps M0_NC_UNKNOWN to M0_NC_TRANSIENT. *)
Definition m0HaObjState_parse (state : string) : outcome Z :=
  dict_get state
    (if String.eqb state "M0_NC_UNKNOWN" then Some M0_NC_TRANSIENT
     else if String.eqb state "M0_NC_ONLINE" then Some M0_NC_ONLINE
     else if String.eqb state "M0_NC_FAILED" then Some M0_NC_FAILED
     else if String.eqb state "M0_NC_TRANSIENT" then Some M0_NC_TRANSIENT
     else if String.eqb state "M0_NC_REPAIR" then Some M0_NC_REPAIR
     else if String.eqb state "M0_NC_REPAIRED" then Some M0_NC_REPAIRED
     else if String.eqb state "M0_NC_REBALANCE" then Some M0_NC_REBALANCE
     else if String.eqb state "M0_NC_DTM_RECOVERING" then Some M0_NC_DTM_RECOVERING
     else if String.eqb state "M0_NC_NR" then Some M0_NC_NR
     else None).

(** [ConfHaProcess]: [chp_event] and [chp_type] are the integers Motr sends. *)
Record ConfHaProcess : Type := mkConfHaProcess {
  chp_event : Z; chp_type : Z; chp_pid : Z; chp_fid : Fid }.

Record Profile : Type := mkProfile {
  prof_fid : Fid; prof_name : string; pool_names : list string }.

Record KeyDelete : Type := mkKeyDelete { kd_name : string; kd_recurse : bool }.

(** ** Properties *)
Section TypesTheory.

Definition u64 (z : Z) : Prop := 0 <= z < 2 ^ 64.

Lemma hex_str_no_colon n : 0 <= n -> no_char ":" (hex_str n).
Proof.
  intros Hn. unfold hex_str. destruct (n <? 0) eqn:E; [lia|].
  apply nat_str_no_char; [lia | done | by left].
Qed.

Lemma hex_str_no_slash n : 0 <= n -> no_char "/" (hex_str n).
Proof.
  intros Hn. unfold hex_str. destruct (n <? 0) eqn:E; [lia|].
  apply nat_str_no_char; [lia | done | by right].
Qed.

Lemma fid_repr_no_slash f : 0 <= container f -> 0 <= key f -> no_char "/" (fid_repr f).
Proof.
  intros Hc Hk. unfold fid_repr. rewrite !no_char_app.
  repeat split; try (by apply hex_str_no_slash); by repeat constructor.
Qed.

Lemma fid_parse_repr_nonneg f :
  0 <= container f -> 0 <= key f -> fid_parse (fid_repr f) = Ret f.
Proof.
  intros Hc Hk. unfold fid_parse, fid_repr.
  change (":0x" +:+ hex_str (key f)) with (String ":" ("0x" +:+ hex_str (key f))).
  rewrite <- append_assoc, py_split1_sep.
  - rewrite !py_int_0x_hex by done. by destruct f.
  - apply no_char_app. split; [by repeat constructor | by apply hex_str_no_colon].
Qed.

Lemma fid_repr_inj f g :
  0 <= container f -> 0 <= key f -> 0 <= container g -> 0 <= key g ->
  fid_repr f = fid_repr g -> f = g.
Proof.
  intros. pose proof (fid_parse_repr_nonneg f ltac:(done) ltac:(done)) as Hf.
  pose proof (fid_parse_repr_nonneg g ltac:(done) ltac:(done)) as Hg. congruence.
Qed.

Lemma fid_eqb_spec a b : reflect (a = b) (fid_eqb a b).
Proof.
  destruct a as [c k], b as [c' k']. unfold fid_eqb. cbn.
  destruct (Z.eqb_spec c' c) as [-> |]; [| by constructor; intros [=]].
  destruct (Z.eqb_spec k' k) as [-> |]; constructor; congruence.
Qed.

Lemma FidTypeToObjT_value t : FidTypeToObjT (ObjT_value t) = Ret t.
Proof. destruct t; reflexivity. Qed.

Lemma exclude_ids_elem p ids m : m ∈ exclude_ids p ids <-> m ∈ p /\ m ∉ ids.
Proof.
  unfold exclude_ids. revert p. induction ids as [| i ids IH]; intros p; cbn; [set_solver|].
  rewrite IH. set_solver.
Qed.

(** [Fid.parse] inverts [Fid.__repr__] on every fid that fits the two
    unsigned 64-bit fields of Motr's [m0_fid], and [Fid.from_struct] inverts
    [Fid.to_c] on them; outside that range [to_c] keeps the low 64 bits. *)
Theorem fid_round_trips f :
  u64 (container f) -> u64 (key f) ->
  fid_parse (fid_repr f) = Ret f /\ from_struct (to_c f) = f
  /\ from_struct (to_c (mkFid (container f + 2 ^ 64) (key f))) = f.
Proof.
  intros [Hc Hc'] [Hk Hk']. split; [by apply fid_parse_repr_nonneg |].
  destruct f as [c k]. unfold from_struct, to_c, c_uint64. cbn -[Z.pow] in *.
  rewrite <- Z.add_mod_idemp_r, Z.mod_same, Z.add_0_r, !Z.mod_small by lia. done.
Qed.

Lemma fid_round_trips_witness :
  fid_parse (fid_repr (mkFid 0x7200000000000001 0x44)) = Ret (mkFid 0x7200000000000001 0x44).
Proof. apply (fid_round_trips (mkFid 0x7200000000000001 0x44)); by cbv. Defined.

(** Every health maps to a note state below [M0_NC_NR], and converting back
    gives the same health except for STOPPED and UNKNOWN, which both come back
    as OFFLINE; a state no health maps to comes back as UNKNOWN. *)
Theorem objhealth_note_conversions :
  (forall h, 0 <= to_ha_note_status h < M0_NC_NR
    /\ from_ha_note_state (to_ha_note_status h)
       = match h with STOPPED | UNKNOWN => OFFLINE | _ => h end)
  /\ (forall s, (forall h, to_ha_note_status h <> s) <-> from_ha_note_state s = UNKNOWN).
Proof.
  split; [by intros []|]. intros s. unfold from_ha_note_state, ObjHealth_all. split.
  - intros H. destruct (List.find _ _) as [h |] eqn:E; [| done].
    apply find_some in E as [_ E%Z.eqb_eq]. by destruct (H h).
  - cbn [List.find ObjHealth_value snd].
    repeat (let E := fresh in destruct (_ =? s) eqn:E; [done|]; apply Z.eqb_neq in E).
    by intros _ [].
Qed.
End TypesTheory.
