(* ===== verification/Message.v ===== *)
(** * Messages of the work planner ([src/hax/hax/message.py])

    One constructor per message class with the fields of its dataclass.  [cls]
    is the Python class object, [type_of] is [type(msg)], [base_of] the base
    class and [isinstance] the transitive check.  The [group] attribute of
    [BaseMessage] and the object identity are added by the planner's [Cmd]. *)

From S2P Require Import Prelude PyStr HaxTypes.

(** A [queue.Queue] a reply is put to, by identity. *)
Definition queue_id := nat.

Record EntrypointFields : Type := mkEntrypoint {
  reply_context : Z; req_id : Uint128; remote_rpc_endpoint : string;
  process_fid : Fid; git_rev : string; ep_pid : Z; is_first_request : bool }.

Record StobIoqFields : Type := mkStobIoq {
  sie_fid : Fid; conf_sdev : Fid; stob_id : StobId; sie_fd : Z; sie_opcode : Z;
  sie_rc : Z; sie_offset : Z; sie_size : Z; sie_bshift : Z }.

Inductive BaseMessage : Type :=
| EntrypointRequest (r : EntrypointFields)
| FirstEntrypointRequest (r : EntrypointFields)
| ProcessEvent (evt : ConfHaProcess)
| ProcessHaEvent (fid : Fid) (proc_type : m0HaProcessType) (states : list (option HAState))
| BroadcastHAStates (states : list HAState) (reply_to : option queue_id)
| HaNvecGetEvent (hax_msg : Z) (nvec : list HaNote)
| HaNvecSetEvent (hax_msg : Z) (nvec : list HaNote)
| SnsRebalanceStart (fid : Fid)
| SnsRebalanceStop (fid : Fid)
| SnsRebalancePause (fid : Fid)
| SnsRebalanceResume (fid : Fid)
| SnsRepairStart (fid : Fid)
| SnsRepairStop (fid : Fid)
| SnsRepairPause (fid : Fid)
| SnsRepairResume (fid : Fid)
| SnsDiskAttach (fid : Fid)
| SnsDiskDetach (fid : Fid)
| SnsRepairStatus (fid : Fid) (reply_to : queue_id)
| SnsRebalanceStatus (fid : Fid) (reply_to : queue_id)
| StobIoqError (e : StobIoqFields)
| Die.

(** The class objects, the two abstract ones included. *)
Inductive cls : Type :=
| cBaseMessage | cAnyEntrypointRequest | cEntrypointRequest | cFirstEntrypointRequest
| cProcessEvent | cProcessHaEvent | cBroadcastHAStates | cHaNvecGetEvent | cHaNvecSetEvent
| cSnsOperation | cSnsRebalanceStart | cSnsRebalanceStop | cSnsRebalancePause
| cSnsRebalanceResume | cSnsRepairStart | cSnsRepairStop | cSnsRepairPause
| cSnsRepairResume | cSnsDiskAttach | cSnsDiskDetach | cSnsRepairStatus
| cSnsRebalanceStatus | cStobIoqError | cDie.

#[global] Instance cls_eq_dec : EqDecision cls.
Proof. solve_decision. Defined.

#[global] Instance cls_countable : Countable cls.
Proof.
  refine (inj_countable'
    (fun c => match c with
     | cBaseMessage => 0 | cAnyEntrypointRequest => 1 | cEntrypointRequest => 2
     | cFirstEntrypointRequest => 3 | cProcessEvent => 4 | cProcessHaEvent => 5
     | cBroadcastHAStates => 6 | cHaNvecGetEvent => 7 | cHaNvecSetEvent => 8
     | cSnsOperation => 9 | cSnsRebalanceStart => 10 | cSnsRebalanceStop => 11
     | cSnsRebalancePause => 12 | cSnsRebalanceResume => 13 | cSnsRepairStart => 14
     | cSnsRepairStop => 15 | cSnsRepairPause => 16 | cSnsRepairResume => 17
     | cSnsDiskAttach => 18 | cSnsDiskDetach => 19 | cSnsRepairStatus => 20
     | cSnsRebalanceStatus => 21 | cStobIoqError => 22 | cDie => 23 end)%nat
    (fun n => nth n
     [cBaseMessage; cAnyEntrypointRequest; cEntrypointRequest; cFirstEntrypointRequest;
      cProcessEvent; cProcessHaEvent; cBroadcastHAStates; cHaNvecGetEvent; cHaNvecSetEvent;
      cSnsOperation; cSnsRebalanceStart; cSnsRebalanceStop; cSnsRebalancePause;
      cSnsRebalanceResume; cSnsRepairStart; cSnsRepairStop; cSnsRepairPause;
      cSnsRepairResume; cSnsDiskAttach; cSnsDiskDetach; cSnsRepairStatus;
      cSnsRebalanceStatus; cStobIoqError; cDie] cDie) _).
  by intros [].
Defined.

(** [type(msg)] *)
Definition type_of (m : BaseMessage) : cls :=
  match m with
  | EntrypointRequest _ => cEntrypointRequest
  | FirstEntrypointRequest _ => cFirstEntrypointRequest
  | ProcessEvent _ => cProcessEvent
  | ProcessHaEvent _ _ _ => cProcessHaEvent
  | BroadcastHAStates _ _ => cBroadcastHAStates
  | HaNvecGetEvent _ _ => cHaNvecGetEvent
  | HaNvecSetEvent _ _ => cHaNvecSetEvent
  | SnsRebalanceStart _ => cSnsRebalanceStart
  | SnsRebalanceStop _ => cSnsRebalanceStop
  | SnsRebalancePause _ => cSnsRebalancePause
  | SnsRebalanceResume _ => cSnsRebalanceResume
  | SnsRepairStart _ => cSnsRepairStart
  | SnsRepairStop _ => cSnsRepairStop
  | SnsRepairPause _ => cSnsRepairPause
  | SnsRepairResume _ => cSnsRepairResume
  | SnsDiskAttach _ => cSnsDiskAttach
  | SnsDiskDetach _ => cSnsDiskDetach
  | SnsRepairStatus _ _ => cSnsRepairStatus
  | SnsRebalanceStatus _ _ => cSnsRebalanceStatus
  | StobIoqError _ => cStobIoqError
  | Die => cDie
  end.

(** Direct base class. *)
Definition base_of (c : cls) : option cls :=
  match c with
  | cBaseMessage => None
  | cEntrypointRequest | cFirstEntrypointRequest => Some cAnyEntrypointRequest
  | cSnsRebalanceStart | cSnsRebalanceStop | cSnsRebalancePause | cSnsRebalanceResume
  | cSnsRepairStart | cSnsRepairStop | cSnsRepairPause | cSnsRepairResume
  | cSnsDiskAttach | cSnsDiskDetach | cSnsRepairStatus | cSnsRebalanceStatus =>
      Some cSnsOperation
  | _ => Some cBaseMessage
  end.

(** [issubclass]: the hierarchy is three levels deep. *)
Fixpoint subclass_up (fuel : nat) (c d : cls) : bool :=
  bool_decide (c = d) ||
  match fuel, base_of c with
  | S fuel', Some c' => subclass_up fuel' c' d
  | _, _ => false
  end.

Definition isinstance (m : BaseMessage) (c : cls) : bool := subclass_up 2 (type_of m) c.
