(* ===== verification/LinkedList.v ===== *)
(** * The identity-based linked list ([src/hax/hax/motr/util.py])

    [LinkedList] keeps objects that are compared by identity.  It is modelled on
    the heap its [Elem] cells live in: [head] and [next_elem] are references and
    [remove] relinks the predecessor in place.  [IdentityBag] is the interface
    the work planner uses; [list_bag] is its reference implementation and
    [linked_bag] the heap one, which the laws of [IdentityBagLaws] relate to the
    list of the elements held. *)

From S2P Require Import Prelude.

(** ** The interface *)

(** Python's [is]: objects carry an identity. *)
Class Identity (A : Type) := oid : A -> nat.

Definition is_same `{Identity A} (x y : A) : bool := (oid x =? oid y)%nat.

Class IdentityBag (A B : Type) := {
  bag_new : B;
  bag_add : A -> B -> B;
  bag_remove : A -> B -> B * bool;
  bag_contains : A -> B -> bool;
  bag_bool : B -> bool;
  bag_iter : B -> list A;
}.

(** [bag_rep b l]: [b] holds exactly the elements [l], last added first. *)
Class IdentityBagLaws (A B : Type) `{Identity A, IdentityBag A B} := {
  bag_rep : B -> list A -> Prop;
  rep_new : bag_rep bag_new [];
  rep_add x b l : bag_rep b l -> bag_rep (bag_add x b) (x :: l);
  rep_remove x b l : bag_rep b l ->
    bag_rep (bag_remove x b).1 (remove_first (fun y => is_same y x) l)
    /\ (bag_remove x b).2 = existsb (fun y => is_same y x) l;
  rep_contains x b l : bag_rep b l -> bag_contains x b = existsb (fun y => is_same y x) l;
  rep_bool b l : bag_rep b l -> bag_bool b = negb (bool_decide (l = []));
  rep_iter b l : bag_rep b l -> bag_iter b = l;
}.

(** The reference implementation: the list itself. *)
#[export] Instance list_bag {A} `{Identity A} : IdentityBag A (list A) := {|
  bag_new := [];
  bag_add x l := x :: l;
  bag_remove x l := (remove_first (fun y => is_same y x) l, existsb (fun y => is_same y x) l);
  bag_contains x l := existsb (fun y => is_same y x) l;
  bag_bool l := match l with [] => false | _ => true end;
  bag_iter l := l;
|}.

#[export] Instance list_bag_laws {A} `{Identity A} : IdentityBagLaws A (list A).
Proof. refine {| bag_rep b l := b = l |}; intros; subst; try done. by destruct l. Defined.

(** ** The heap implementation *)
Section LinkedList.
Context {A : Type} `{Identity A}.

Record Elem : Type := mkElem { data : A; next_elem : option nat }.

(** [ll_next] is the next unused reference of the heap. *)
Record LinkedList : Type := mkLinkedList {
  ll_heap : gmap nat Elem; ll_next : nat; head : option nat }.

Definition ll_init : LinkedList := mkLinkedList ∅ 0 None.

Definition ll_add (value : A) (ll : LinkedList) : LinkedList :=
  let elem := ll_next ll in
  let old_head := head ll in
  mkLinkedList (<[elem := mkElem value old_head]> (ll_heap ll)) (S elem) (Some elem).

(** The loop of [remove]: [prev] trails [q] by one cell. *)
Fixpoint remove_loop (fuel : nat) (value : A) (prev q : option nat) (ll : LinkedList)
    : option (LinkedList * bool) :=
  match fuel with
  | O => None
  | S fuel' =>
      match q with
      | None => Some (ll, false)
      | Some a =>
          match ll_heap ll !! a with
          | None => None
          | Some e =>
              if is_same (data e) value then
                match prev with
                | None => Some (mkLinkedList (ll_heap ll) (ll_next ll) (next_elem e), true)
                | Some p =>
                    match ll_heap ll !! p with
                    | None => None
                    | Some pe =>
                        Some (mkLinkedList (<[p := mkElem (data pe) (next_elem e)]> (ll_heap ll))
                                (ll_next ll) (head ll), true)
                    end
                end
              else remove_loop fuel' value q (next_elem e) ll
          end
      end
  end.

(** A walk visits each cell once: the number of cells is fuel enough. *)
Definition walk_fuel (ll : LinkedList) : nat := S (size (ll_heap ll)).

Definition ll_remove (value : A) (ll : LinkedList) : LinkedList * bool :=
  default (ll, false) (remove_loop (walk_fuel ll) value None (head ll) ll).

Fixpoint contains_loop (fuel : nat) (value : A) (q : option nat) (ll : LinkedList) : bool :=
  match fuel, q with
  | S fuel', Some a =>
      match ll_heap ll !! a with
      | Some e =>
          if is_same (data e) value then true
          else contains_loop fuel' value (next_elem e) ll
      | None => false
      end
  | _, _ => false
  end.

Definition ll_contains (value : A) (ll : LinkedList) : bool :=
  contains_loop (walk_fuel ll) value (head ll) ll.

Definition ll_bool (ll : LinkedList) : bool :=
  match head ll with Some _ => true | None => false end.

(** [LinkedListIterator] *)
Fixpoint iter_loop (fuel : nat) (cur : option nat) (ll : LinkedList) : list A :=
  match fuel, cur with
  | S fuel', Some a =>
      match ll_heap ll !! a with
      | Some e => data e :: iter_loop fuel' (next_elem e) ll
      | None => []
      end
  | _, _ => []
  end.

Definition ll_iter (ll : LinkedList) : list A := iter_loop (walk_fuel ll) (head ll) ll.

(** ** Representation *)
Inductive is_list (h : gmap nat Elem) : option nat -> list (nat * A) -> Prop :=
| is_list_nil : is_list h None []
| is_list_cons a x nxt l :
    h !! a = Some (mkElem x nxt) -> is_list h nxt l -> is_list h (Some a) ((a, x) :: l).

Lemma is_list_functional h p l1 l2 : is_list h p l1 -> is_list h p l2 -> l1 = l2.
Proof.
  intros H1. revert l2. induction H1 as [| a x nxt l Ha _ IH]; intros l2 H2; inversion H2; subst.
  - done.
  - match goal with H : h !! a = Some _, H' : is_list h ?n ?l |- _ =>
      rewrite Ha in H; injection H as <- <-; by rewrite (IH l) end.
Qed.

Lemma is_list_suffix h p l1 l2 :
  is_list h p (l1 ++ l2) -> exists q, is_list h q l2 /\ (q = None <-> l2 = []).
Proof.
  revert p. induction l1 as [| [a x] l1 IH]; intros p Hl; cbn in *.
  - exists p. split; [done|]. by inversion Hl; subst.
  - inversion Hl; subst. eauto.
Qed.

Lemma is_list_NoDup h p l : is_list h p l -> NoDup l.*1.
Proof.
  induction 1 as [| a x nxt l Ha Hl IH]; [constructor|].
  cbn. constructor; [| done]. intros ([a' y] & Heq & Hin)%list_elem_of_fmap. cbn in Heq. subst a'.
  apply list_elem_of_split in Hin as (l1 & l2 & ->).
  destruct (is_list_suffix h nxt l1 _ Hl) as (q & Hq & _).
  inversion Hq; subst.
  assert (Hfull : is_list h (Some a) ((a, x) :: l1 ++ (a, y) :: l2)) by by econstructor.
  pose proof (is_list_functional _ _ _ _ Hq Hfull) as Heq.
  apply (f_equal length) in Heq. cbn in Heq. rewrite length_app in Heq. cbn in Heq. lia.
Qed.

Lemma is_list_frame h p l a e : a ∉ l.*1 -> is_list h p l -> is_list (<[a := e]> h) p l.
Proof.
  intros Ha Hl. induction Hl as [| b x nxt l Hb _ IH]; cbn in *; [constructor|].
  econstructor; [rewrite lookup_insert_ne by set_solver; done |]. apply IH. set_solver.
Qed.

Lemma is_list_dom h p l a : is_list h p l -> a ∈ l.*1 -> is_Some (h !! a).
Proof. induction 1; cbn; set_solver. Qed.

Lemma is_list_size h p l : is_list h p l -> (length l <= size h)%nat.
Proof.
  intros Hl. pose proof (is_list_NoDup _ _ _ Hl) as Hnd.
  rewrite <- (length_fmap fst l), <- size_dom.
  rewrite <- (size_list_to_set (C := gset nat) l.*1 Hnd).
  apply subseteq_size. intros a Ha%elem_of_list_to_set.
  apply elem_of_dom. by eapply is_list_dom.
Qed.

Definition ll_rep (ll : LinkedList) (l : list A) : Prop :=
  (forall a, (ll_next ll <= a)%nat -> ll_heap ll !! a = None)
  /\ exists cells, is_list (ll_heap ll) (head ll) cells /\ cells.*2 = l.

Lemma ll_rep_add x ll l : ll_rep ll l -> ll_rep (ll_add x ll) (x :: l).
Proof.
  intros (Hfresh & cells & Hl & <-). split; cbn.
  - intros a Ha. rewrite lookup_insert_ne by lia. apply Hfresh. lia.
  - exists ((ll_next ll, x) :: cells). split; [| done].
    econstructor; [apply lookup_insert_eq |]. apply is_list_frame; [| done].
    intros Hin. destruct (is_list_dom _ _ _ _ Hl Hin) as [e He].
    by rewrite Hfresh in He by lia.
Qed.

Lemma contains_loop_spec ll p l v fuel :
  is_list (ll_heap ll) p l -> (length l < fuel)%nat ->
  contains_loop fuel v p ll = existsb (fun y => is_same y v) l.*2.
Proof.
  intros Hl. revert fuel. induction Hl as [| a x nxt l Ha _ IH]; intros fuel Hf;
    (destruct fuel; cbn in Hf; [lia|]); cbn; [done|].
  rewrite Ha. cbn. destruct (is_same x v); cbn; [done|]. apply IH. lia.
Qed.

Lemma iter_loop_spec ll p l fuel :
  is_list (ll_heap ll) p l -> (length l < fuel)%nat -> iter_loop fuel p ll = l.*2.
Proof.
  intros Hl. revert fuel. induction Hl as [| a x nxt l Ha _ IH]; intros fuel Hf;
    (destruct fuel; cbn in Hf; [lia|]); cbn; [done|].
  rewrite Ha. cbn. f_equal. apply IH. lia.
Qed.

(** Relinking the predecessor [b] of the cell [a] removes exactly [a]. *)
Lemma is_list_unlink h p pre b y a x nxt suf :
  is_list h p (pre ++ (b, y) :: (a, x) :: suf) ->
  h !! a = Some (mkElem x nxt) ->
  is_list (<[b := mkElem y nxt]> h) p (pre ++ (b, y) :: suf).
Proof.
  intros Hl Ha. pose proof (is_list_NoDup _ _ _ Hl) as Hnd.
  revert p Hl Hnd. induction pre as [| [c z] pre IH]; intros p Hl Hnd; cbn in *.
  - inversion Hl as [| ? ? n1 ? Hb Hl1]; subst. inversion Hl1 as [| ? ? n2 ? Ha' Hl2]; subst.
    rewrite Ha in Ha'. injection Ha' as <-.
    econstructor; [apply lookup_insert_eq |].
    apply is_list_frame; [| done]. apply NoDup_cons in Hnd as [Hb' _]. set_solver.
  - inversion Hl as [| ? ? n1 ? Hc Hl1]; subst. apply NoDup_cons in Hnd as [Hc' Hnd'].
    econstructor; [| by apply IH].
    rewrite lookup_insert_ne; [done|]. intros ->. apply Hc'. rewrite fmap_app. set_solver.
Qed.

Lemma last_Some_or_nil (pre : list (nat * A)) :
  pre = [] \/ exists pre' b y, pre = pre' ++ [(b, y)].
Proof.
  destruct pre as [| c pre] using rev_ind; [by left|]. right. destruct c as [b y].
  by exists pre, b, y.
Qed.

Lemma is_list_head_of h q a x l : is_list h q ((a, x) :: l) ->
  q = Some a /\ exists nxt, h !! a = Some (mkElem x nxt) /\ is_list h nxt l.
Proof. inversion 1; subst. eauto. Qed.

Lemma remove_loop_spec ll v suf : forall pre q fuel,
  is_list (ll_heap ll) (head ll) (pre ++ suf) -> is_list (ll_heap ll) q suf ->
  (length suf < fuel)%nat ->
  exists ll' cells,
    remove_loop fuel v (fst <$> last pre) q ll
      = Some (ll', existsb (fun y => is_same y v) suf.*2)
    /\ ll_next ll' = ll_next ll /\ dom (ll_heap ll') = dom (ll_heap ll)
    /\ is_list (ll_heap ll') (head ll') cells
    /\ cells.*2 = pre.*2 ++ remove_first (fun y => is_same y v) suf.*2.
Proof.
  induction suf as [| [a x] suf IH]; intros pre q fuel Hall Hq Hf;
    (destruct fuel as [| fuel]; cbn in Hf; [lia|]).
  { inversion Hq; subst. exists ll, pre. rewrite app_nil_r in Hall. cbn. by rewrite app_nil_r. }
  destruct (is_list_head_of _ _ _ _ _ Hq) as (-> & nxt & Ha & Hsuf).
  cbn [remove_loop]. rewrite Ha. cbn [data next_elem fmap list_fmap snd existsb remove_first].
  destruct (is_same x v) eqn:Esame; cbn [orb].
  - destruct (last_Some_or_nil pre) as [-> | (pre' & b & y & ->)]; cbn.
    + by exists (mkLinkedList (ll_heap ll) (ll_next ll) nxt), suf.
    + rewrite last_snoc. cbn. rewrite <- app_assoc in Hall. cbn in Hall.
      destruct (is_list_suffix _ _ pre' _ Hall) as (qb & Hqb & _).
      destruct (is_list_head_of _ _ _ _ _ Hqb) as (-> & nb & Hb & _). rewrite Hb.
      eexists _, (pre' ++ (b, y) :: suf). repeat split; cbn.
      * rewrite dom_insert_L. apply elem_of_dom_2 in Hb. set_solver.
      * by eapply is_list_unlink.
      * by rewrite !fmap_app, <- app_assoc.
  - destruct (IH (pre ++ [(a, x)]) nxt fuel) as (ll' & cells & Hrun & Hn & Hd & Hl & Hc);
      [by rewrite <- app_assoc | done | lia |].
    rewrite last_snoc in Hrun. cbn in Hrun. exists ll', cells.
    repeat split; try done. rewrite Hc, fmap_app, <- app_assoc. done.
Qed.

Lemma ll_rep_remove x ll l : ll_rep ll l ->
  ll_rep (ll_remove x ll).1 (remove_first (fun y => is_same y x) l)
  /\ (ll_remove x ll).2 = existsb (fun y => is_same y x) l.
Proof.
  intros (Hfresh & cells & Hl & <-). unfold ll_remove.
  destruct (remove_loop_spec ll x cells [] (head ll) (walk_fuel ll) Hl Hl)
    as (ll' & cells' & Hrun & Hn & Hd & Hl' & Hc).
  { unfold walk_fuel. pose proof (is_list_size _ _ _ Hl). lia. }
  change (fst <$> last []) with (@None nat) in Hrun. rewrite Hrun. cbn.
  split; [| done]. split; [| by exists cells'].
  intros a Ha. rewrite Hn in Ha. apply not_elem_of_dom. rewrite Hd.
  by apply not_elem_of_dom, Hfresh.
Qed.

#[export] Instance linked_bag : IdentityBag A LinkedList := {|
  bag_new := ll_init;
  bag_add := ll_add;
  bag_remove := ll_remove;
  bag_contains := ll_contains;
  bag_bool := ll_bool;
  bag_iter := ll_iter;
|}.

(** The heap implementation satisfies the interface the planner relies on. *)
#[export] Instance linked_bag_laws : IdentityBagLaws A LinkedList.
Proof.
  refine {| bag_rep := ll_rep |};
    cbn [linked_bag bag_new bag_add bag_remove bag_contains bag_bool bag_iter].
  - split; [intros; apply lookup_empty |]. exists []. split; [constructor | done].
  - intros. by apply ll_rep_add.
  - intros. by apply ll_rep_remove.
  - intros x ll l (_ & cells & Hl & <-). apply contains_loop_spec; [done|].
    unfold walk_fuel. pose proof (is_list_size _ _ _ Hl). lia.
  - intros ll l (_ & cells & Hl & <-). unfold ll_bool. by destruct Hl.
  - intros ll l (_ & cells & Hl & <-). apply iter_loop_spec; [done|].
    unfold walk_fuel. pose proof (is_list_size _ _ _ Hl). lia.
Defined.

(** A list of updates applied from the empty list. *)
Inductive ll_op : Type := OpAdd (x : A) | OpRemove (x : A).

Definition ll_apply (ll : LinkedList) (op : ll_op) : LinkedList :=
  match op with
  | OpAdd x => ll_add x ll
  | OpRemove x => (ll_remove x ll).1
  end.

Definition spec_apply (l : list A) (op : ll_op) : list A :=
  match op with
  | OpAdd x => x :: l
  | OpRemove x => remove_first (fun y => is_same y x) l
  end.

(** C35: after any sequence of [add] and [remove] calls on a fresh [LinkedList],
    iterating it yields the list that the same updates give on a plain list
    (insertion at the front, removal of the first identical element), truth
    testing tells whether that list is empty and [in] whether it holds an
    identical object: the in-place relinking never loses or duplicates a cell. *)
Theorem linked_list_refines ops :
  let ll := foldl ll_apply ll_init ops in
  let l := foldl spec_apply [] ops in
  ll_iter ll = l /\ ll_bool ll = negb (bool_decide (l = []))
  /\ forall x, ll_contains x ll = existsb (fun y => is_same y x) l
             /\ (ll_remove x ll).2 = existsb (fun y => is_same y x) l.
Proof.
  assert (Hrep : ll_rep (foldl ll_apply ll_init ops) (foldl spec_apply [] ops)).
  { assert (Hgen : forall ops ll l, ll_rep ll l ->
      ll_rep (foldl ll_apply ll ops) (foldl spec_apply l ops)).
    { clear ops. induction ops as [| [x | x] ops IH]; intros ll l Hr; cbn; [done | |];
        apply IH; [by apply ll_rep_add | by apply ll_rep_remove]. }
    apply Hgen. exact (rep_new (A := A) (B := LinkedList)). }
  split; [| split; [| split]].
  - exact (rep_iter (B := LinkedList) _ _ Hrep).
  - exact (rep_bool (B := LinkedList) _ _ Hrep).
  - exact (rep_contains (B := LinkedList) _ _ _ Hrep).
  - apply (ll_rep_remove _ _ _ Hrep).
Qed.
End LinkedList.
