(* ===== verification/Planner.v ===== *)
(** * The work planner ([src/hax/hax/motr/planner.py])

    [WorkPlanner] hands the messages of hax to its worker threads in groups.
    The operations are written over the interface [IdentityBag] of the
    collection of active commands.  [Cmd] is a message object: its identity,
    its fields and its [group] attribute.  [sys] adds the threads: workers that
    are about to ask for a command, workers blocked in [Condition.wait()] and
    the commands being executed; [step] interleaves the calls, each of which
    holds [b_lock] from start to end, so a call is one step. *)

From Stdlib Require Import Sorting.Sorted.
From S2P Require Import Prelude PyStr HaxTypes Message LinkedList.

Record Cmd : Type := mkCmd { cmd_oid : nat; cmd_msg : BaseMessage; group : option Z }.

#[export] Instance Cmd_identity : Identity Cmd := cmd_oid.

Definition set_group (g : Z) (c : Cmd) : Cmd := mkCmd (cmd_oid c) (cmd_msg c) (Some g).

Definition MAX_GROUP_ID : Z := 100000.

Record CommandMeta : Type := mkMeta { meta_fid : Fid }.

Section WorkPlanner.
Context {B : Type} `{IdentityBag Cmd B}.

Record State : Type := mkState {
  current_group_id : Z;
  next_group_id : Z;
  active_commands : B;
  active_meta : gmap nat CommandMeta;
  next_group_commands : gset cls;
  is_shutdown : bool }.

Record WorkPlanner : Type := mkWorkPlanner {
  state : State; backlog : list Cmd; asap_list : list Cmd }.

Definition create_initial_state : State :=
  mkState 0 0 bag_new ∅ ∅ false.

(** [WorkPlanner.__init__] without a state factory. *)
Definition planner_init : WorkPlanner := mkWorkPlanner create_initial_state [] [].

Definition is_empty (wp : WorkPlanner) : bool :=
  match backlog wp with [] => true | _ => false end.

Definition get_increased_group (current : Z) : Z :=
  let new_value := current + 1 in
  if new_value >? MAX_GROUP_ID then 0 else new_value.

Definition extract_meta (command : BaseMessage) : option CommandMeta :=
  match command with
  | ProcessEvent evt => Some (mkMeta (chp_fid evt))
  | _ => None
  end.

Definition is_allowed_asap (st : State) (command : Cmd) : bool :=
  match extract_meta (cmd_msg command) with
  | None => true
  | Some meta =>
      negb (existsb (fun v => fid_eqb (meta_fid v) (meta_fid meta))
              (map_to_list (active_meta st)).*2)
  end.

Definition is_allowed (st : State) (command : Cmd) : bool :=
  bool_decide (group command = Some (current_group_id st)).

Definition add_active_cmd (command : Cmd) (st : State) : State :=
  mkState (current_group_id st) (next_group_id st)
    (bag_add command (active_commands st))
    (match extract_meta (cmd_msg command) with
     | Some meta => <[oid command := meta]> (active_meta st)
     | None => active_meta st
     end)
    (next_group_commands st) (is_shutdown st).

Definition remove_active_cmd (command : Cmd) (st : State) : State :=
  mkState (current_group_id st) (next_group_id st)
    (bag_remove command (active_commands st)).1
    (delete (oid command) (active_meta st))
    (next_group_commands st) (is_shutdown st).

Definition inc_group (st : State) : State :=
  let cur_group_id := current_group_id st in
  let change_next_group := next_group_id st =? cur_group_id in
  let current_group_id' := get_increased_group cur_group_id in
  if change_next_group then
    mkState current_group_id' current_group_id' (active_commands st) (active_meta st) ∅
      (is_shutdown st)
  else
    mkState current_group_id' (next_group_id st) (active_commands st) (active_meta st)
      (next_group_commands st) (is_shutdown st).

Definition should_increase_group (st : State) (cmd : BaseMessage) : bool :=
  let has (c : cls) := bool_decide (c ∈ next_group_commands st) in
  if bool_decide (next_group_commands st = ∅) then false
  else if isinstance cmd cProcessEvent then false
  else if isinstance cmd cHaNvecGetEvent then false
  else if isinstance cmd cHaNvecSetEvent then false
  else if isinstance cmd cAnyEntrypointRequest then false
  else if isinstance cmd cProcessHaEvent then true
  else if isinstance cmd cBroadcastHAStates then true
  else if isinstance cmd cSnsOperation then has cSnsOperation
  else false.

Definition join_group (cmd : Cmd) (st : State) : State * Cmd :=
  (mkState (current_group_id st) (next_group_id st) (active_commands st) (active_meta st)
     ({[type_of (cmd_msg cmd)]} ∪ next_group_commands st) (is_shutdown st),
   set_group (next_group_id st) cmd).

Definition next_group (st : State) : State :=
  mkState (current_group_id st) (get_increased_group (next_group_id st))
    (active_commands st) (active_meta st) ∅ (is_shutdown st).

Definition is_asap_class (m : BaseMessage) : bool :=
  isinstance m cAnyEntrypointRequest || isinstance m cHaNvecGetEvent
  || isinstance m cHaNvecSetEvent || isinstance m cProcessEvent.

Definition assign_group (cmd : Cmd) (st : State) : State * Cmd * bool :=
  if is_asap_class (cmd_msg cmd) then
    (st, set_group (current_group_id st) cmd, true)
  else if isinstance (cmd_msg cmd) cDie then
    (join_group cmd st, false)
  else
    let st1 := if should_increase_group st (cmd_msg cmd) then next_group st else st in
    (join_group cmd st1, false).

(** Every call ends with [notifyAll]. *)
Definition add_command (command : Cmd) (wp : WorkPlanner) : WorkPlanner :=
  let '(st, cmd, is_asap) := assign_group command (state wp) in
  if (is_asap : bool) then mkWorkPlanner st (backlog wp) (asap_list wp ++ [cmd])
  else mkWorkPlanner st (backlog wp ++ [cmd]) (asap_list wp).

(** [Die()] is a fresh object; [pid] is its identity. *)
Definition create_poison (pid : nat) (st : State) : Cmd :=
  mkCmd pid Die (Some (current_group_id st)).

(** The local function [next_cmd] of [get_next_command]: first the head of
    [asap_list], then the head of [backlog]; a head that is not allowed is put
    back. *)
Definition next_cmd (pid : nat) (wp : WorkPlanner) : option Cmd * WorkPlanner :=
  let st := state wp in
  if is_shutdown st then (Some (create_poison pid st), wp)
  else
    let try_backlog :=
      match backlog wp with
      | [] => (None, wp)
      | cmd :: rest =>
          if is_allowed st cmd
          then (Some cmd, mkWorkPlanner (add_active_cmd cmd st) rest (asap_list wp))
          else (None, mkWorkPlanner st (cmd :: rest) (asap_list wp))
      end in
    match asap_list wp with
    | [] => try_backlog
    | cmd :: rest =>
        if is_allowed_asap st cmd
        then (Some cmd, mkWorkPlanner (add_active_cmd cmd st) (backlog wp) rest)
        else try_backlog
    end.

Definition shutdown (wp : WorkPlanner) : WorkPlanner :=
  let st := state wp in
  mkWorkPlanner
    (mkState (current_group_id st) (next_group_id st) (active_commands st) (active_meta st)
       (next_group_commands st) true)
    (backlog wp) (asap_list wp).

(** The boolean tells whether [notifyAll] was called. *)
Definition notify_finished (command : Cmd) (wp : WorkPlanner) : WorkPlanner * bool :=
  let st := remove_active_cmd command (state wp) in
  if bag_bool (active_commands st) then (mkWorkPlanner st (backlog wp) (asap_list wp), false)
  else if existsb (is_allowed st) (backlog wp)
  then (mkWorkPlanner st (backlog wp) (asap_list wp), false)
  else (mkWorkPlanner (inc_group st) (backlog wp) (asap_list wp), true).
End WorkPlanner.

Arguments State B : clear implicits.
Arguments WorkPlanner B : clear implicits.

(** ** Threads *)

(** A command handed to a worker; [poison] marks the [Die] objects that
    [get_next_command] itself creates. *)
Record Task : Type := mkTask { task_cmd : Cmd; poison : bool }.

Definition task_oid (t : Task) : nat := cmd_oid (task_cmd t).
Definition is_die (m : BaseMessage) : bool := match m with Die => true | _ => false end.

Record sys : Type := mkSys {
  wp : WorkPlanner (list Cmd);
  running : list Task;        (* commands being executed *)
  runnable : nat;             (* workers about to call next_cmd *)
  waiting : nat;              (* workers in b_lock.wait() *)
  used : gset nat;            (* identities of the objects created so far *)
  added : list Cmd;           (* the arguments of add_command, in order *)
  started : list Cmd }.       (* the commands taken from the queues, in order *)

Definition sys_init (workers : nat) : sys := mkSys planner_init [] workers 0 ∅ [] [].

(** One call of a thread.  A worker that executed [Die] leaves its loop after
    [notify_finished]; any other worker asks for the next command. *)
Inductive step : sys -> sys -> Prop :=
| step_add s c :
    cmd_oid c ∉ used s ->
    step s (mkSys (add_command c (wp s)) (running s) (runnable s + waiting s) 0
              ({[cmd_oid c]} ∪ used s) (added s ++ [c]) (started s))
| step_take s r pid c wp' :
    runnable s = S r -> pid ∉ used s ->
    next_cmd pid (wp s) = (Some c, wp') ->
    step s (mkSys wp' (mkTask c (is_shutdown (state (wp s))) :: running s) r (waiting s)
              ({[pid]} ∪ used s) (added s)
              (if is_shutdown (state (wp s)) then started s else started s ++ [c]))
| step_wait s r pid wp' :
    runnable s = S r ->
    next_cmd pid (wp s) = (None, wp') ->
    step s (mkSys wp' (running s) r (S (waiting s)) (used s) (added s) (started s))
| step_finish s t wp' notified :
    t ∈ running s ->
    notify_finished (task_cmd t) (wp s) = (wp', notified) ->
    let back := if is_die (cmd_msg (task_cmd t)) then 0%nat else 1%nat in
    step s (mkSys wp' (remove_first (fun u => (task_oid u =? task_oid t)%nat) (running s))
              (runnable s + back + (if (notified : bool) then waiting s else 0))
              (if (notified : bool) then 0%nat else waiting s) (used s) (added s) (started s))
| step_shutdown s :
    step s (mkSys (shutdown (wp s)) (running s) (runnable s + waiting s) 0 (used s)
              (added s) (started s)).

Inductive reachable (workers : nat) : sys -> Prop :=
| reach_init : reachable workers (sys_init workers)
| reach_step s s' : reachable workers s -> step s s' -> reachable workers s'.

(** Reached without ever having more than [MAX_GROUP_ID] commands in [backlog]:
    as long as this holds the group ids of the commands there do not wrap onto
    each other.  [add_command] does not check it. *)
Inductive calm_reachable (workers : nat) : sys -> Prop :=
| calm_init : calm_reachable workers (sys_init workers)
| calm_step s s' :
    calm_reachable workers s -> step s s' ->
    Z.of_nat (length (backlog (wp s'))) <= MAX_GROUP_ID -> calm_reachable workers s'.

Lemma calm_is_reachable n s : calm_reachable n s -> reachable n s.
Proof. induction 1; [constructor | by eapply reach_step]. Qed.

(** ** Group arithmetic *)
Section GroupArith.

Definition NGROUPS : Z := MAX_GROUP_ID + 1.

Lemma get_increased_group_mod v :
  get_increased_group (v mod NGROUPS) = (v + 1) mod NGROUPS.
Proof.
  unfold get_increased_group, NGROUPS, MAX_GROUP_ID.
  rewrite Z.gtb_ltb. destruct (_ <? _) eqn:E; Z.to_euclidean_division_equations; lia.
Qed.

Lemma mod_groups_inj lo a b :
  lo <= a <= lo + MAX_GROUP_ID -> lo <= b <= lo + MAX_GROUP_ID ->
  a mod NGROUPS = b mod NGROUPS -> a = b.
Proof. unfold NGROUPS, MAX_GROUP_ID. intros. Z.to_euclidean_division_equations; lia. Qed.

(** An interval of group numbers, each of which occurs, is at most as long as
    the list it occurs in. *)
Lemma dense_bound (l : list Z) lo hi :
  lo <= hi -> (forall v, lo < v <= hi -> v ∈ l) -> hi - lo <= Z.of_nat (length l).
Proof.
  intros Hle Hin.
  assert (Hsub : seqZ (lo + 1) (hi - lo) ⊆+ l).
  { apply NoDup_submseteq; [apply NoDup_seqZ |].
    intros v Hv%elem_of_seqZ. apply Hin. lia. }
  apply submseteq_length in Hsub. rewrite length_seqZ in Hsub. lia.
Qed.

Lemma stronglysorted_cons {A} (R : A -> A -> Prop) x l :
  StronglySorted R (x :: l) <-> Forall (R x) l /\ StronglySorted R l.
Proof.
  split; [intros H; by apply StronglySorted_inv in H as [? ?] | intros [? ?]; by constructor].
Qed.

Lemma stronglysorted_app_inv {A} (R : A -> A -> Prop) l1 l2 :
  StronglySorted R (l1 ++ l2) <->
  StronglySorted R l1 /\ StronglySorted R l2 /\
  Forall (fun x => Forall (R x) l2) l1.
Proof.
  induction l1 as [| x l1 IH]; cbn.
  - split; [| naive_solver]. intros H. repeat split; [constructor | done | constructor].
  - rewrite !stronglysorted_cons, IH, Forall_app, Forall_cons. tauto.
Qed.

Lemma stronglysorted_snoc {A} (R : A -> A -> Prop) l x :
  StronglySorted R l -> Forall (fun y => R y x) l -> StronglySorted R (l ++ [x]).
Proof.
  intros Hl Hx. apply stronglysorted_app_inv. split; [done|]. split; [by repeat constructor |].
  eapply Forall_impl; [exact Hx |]. intros y Hy. by constructor.
Qed.

Lemma stronglysorted_sublist {A} (R : A -> A -> Prop) l1 l2 :
  l1 `sublist_of` l2 -> StronglySorted R l2 -> StronglySorted R l1.
Proof.
  intros Hs. induction Hs as [| x l1 l2 Hs IH | x l1 l2 Hs IH]; [done | |].
  - rewrite !stronglysorted_cons. intros [Hx Hl]. split; [| auto].
    rewrite Forall_forall in *. intros y Hy. apply Hx.
    by eapply elem_of_submseteq, sublist_submseteq.
  - rewrite stronglysorted_cons. naive_solver.
Qed.
End GroupArith.

(** ** The group invariant

    Group ids are taken modulo [NGROUPS]; the invariant speaks of unbounded
    group numbers.  [va] lists the active commands that came through [backlog],
    oldest first, and [vb] the backlog, each with its group number. *)
Section GroupInvariant.

Definition is_barrier (m : BaseMessage) : bool :=
  isinstance m cProcessHaEvent || isinstance m cBroadcastHAStates.

(** A barrier starts a group: whatever was added before it is in an earlier one. *)
Definition before (x y : Z * Cmd) : Prop :=
  x.1 <= y.1 /\ (is_barrier (cmd_msg y.2) = true -> x.1 < y.1).

Definition ordered_cmd (c : Cmd) : bool := negb (is_asap_class (cmd_msg c)).

Record group_inv (w : WorkPlanner (list Cmd)) (vcur vnext : Z) (va vb : list (Z * Cmd))
    : Prop := {
  gi_cur : current_group_id (state w) = vcur mod NGROUPS;
  gi_next : next_group_id (state w) = vnext mod NGROUPS;
  gi_le : vcur <= vnext;
  gi_active : va.*2 = rev (List.filter ordered_cmd (active_commands (state w)));
  gi_active_cur : Forall (fun x => x.1 = vcur) va;
  gi_backlog : vb.*2 = backlog w;
  gi_groups : Forall (fun x => group x.2 = Some (x.1 mod NGROUPS)) (va ++ vb);
  gi_range : Forall (fun x => vcur <= x.1 <= vnext) vb;
  gi_sorted : StronglySorted before (va ++ vb);
  gi_dense : forall v, vcur < v <= vnext -> v ∈ vb.*1;
  gi_fresh : next_group_commands (state w) = ∅ -> Forall (fun x => x.1 < vnext) (va ++ vb);
  gi_class : Forall (fun c => ordered_cmd c = true) (backlog w)
             /\ Forall (fun c => ordered_cmd c = false) (asap_list w) }.

(** There is something to do in the current group, or it is the one under
    construction and still empty. *)
Definition group_live (w : WorkPlanner (list Cmd)) (vcur vnext : Z) (vb : list (Z * Cmd)) : Prop :=
  active_commands (state w) <> [] \/ vcur ∈ vb.*1
  \/ (vnext = vcur /\ next_group_commands (state w) = ∅).

Lemma gi_span w vcur vnext va vb :
  group_inv w vcur vnext va vb -> vnext - vcur <= Z.of_nat (length (backlog w)).
Proof.
  intros Hi. pose proof (dense_bound _ _ _ (gi_le _ _ _ _ _ Hi) (gi_dense _ _ _ _ _ Hi)) as Hd.
  rewrite length_fmap in Hd.
  rewrite <- (gi_backlog _ _ _ _ _ Hi), length_fmap in *. lia.
Qed.

Lemma gi_group w vcur vnext va vb x :
  group_inv w vcur vnext va vb -> x ∈ vb ->
  is_allowed (state w) x.2 = true <-> x.1 mod NGROUPS = vcur mod NGROUPS.
Proof.
  intros Hi Hx. unfold is_allowed. rewrite bool_decide_eq_true.
  pose proof (gi_groups _ _ _ _ _ Hi) as Hg. rewrite Forall_forall in Hg.
  rewrite (Hg x) by set_solver. rewrite (gi_cur _ _ _ _ _ Hi). split; [by intros [=] | by intros ->].
Qed.

(** The head of the backlog belongs to the current group or to the next one,
    whose ids differ. *)
Lemma gi_head_allowed w vcur vnext va x vb :
  group_inv w vcur vnext va (x :: vb) -> is_allowed (state w) x.2 = true <-> x.1 = vcur.
Proof.
  intros Hi. rewrite (gi_group _ _ _ _ _ _ Hi) by set_solver.
  pose proof (gi_range _ _ _ _ _ Hi) as Hr. apply Forall_cons in Hr as [Hr _].
  split; [| by intros ->]. apply (mod_groups_inj vcur); [| unfold MAX_GROUP_ID; lia].
  destruct (Z.eq_dec x.1 vcur) as [-> |]; [unfold MAX_GROUP_ID; lia|].
  pose proof (gi_dense _ _ _ _ _ Hi (vcur + 1) ltac:(lia)) as Hin.
  apply list_elem_of_fmap in Hin as (y & Hy & Hin).
  assert (x.1 <= y.1); [| unfold MAX_GROUP_ID; lia].
  pose proof (gi_sorted _ _ _ _ _ Hi) as Hs. apply stronglysorted_app_inv in Hs as (_ & Hs & _).
  apply stronglysorted_cons in Hs as [Hs _]. rewrite Forall_forall in Hs.
  apply elem_of_cons in Hin as [-> | Hin]; [lia | by destruct (Hs y Hin)].
Qed.

Lemma gi_none_allowed w vcur vnext va vb v :
  group_inv w vcur vnext va vb -> existsb (is_allowed (state w)) (backlog w) = false ->
  v mod NGROUPS = vcur mod NGROUPS -> v ∉ vb.*1.
Proof.
  intros Hi Hno Hv (x & -> & Hx)%list_elem_of_fmap. apply not_true_iff_false in Hno. apply Hno.
  apply existsb_exists. exists x.2. split; [| by apply (gi_group _ _ _ _ _ _ Hi Hx)].
  rewrite <- (gi_backlog _ _ _ _ _ Hi). apply list_elem_of_In. set_solver.
Qed.

(** With a short backlog, equal ids are equal group numbers. *)
Lemma gi_allowed_exists w vcur vnext va vb :
  group_inv w vcur vnext va vb -> Z.of_nat (length (backlog w)) <= MAX_GROUP_ID ->
  existsb (is_allowed (state w)) (backlog w) = true -> vcur ∈ vb.*1.
Proof.
  intros Hi Hlen (c & Hc & Ha)%existsb_exists. rewrite <- (gi_backlog _ _ _ _ _ Hi) in Hc.
  apply list_elem_of_In, list_elem_of_fmap in Hc as (x & -> & Hx).
  apply list_elem_of_fmap. exists x. split; [| done].
  pose proof (gi_span _ _ _ _ _ Hi) as Hspan. pose proof (gi_range _ _ _ _ _ Hi) as Hr.
  rewrite Forall_forall in Hr. specialize (Hr x Hx). cbn in Hr.
  apply (gi_group _ _ _ _ _ _ Hi Hx) in Ha. by apply (mod_groups_inj vcur) in Ha; [| lia | lia].
Qed.

Lemma group_inv_init : group_inv planner_init 0 0 [] [].
Proof.
  constructor; cbn; try done; try (intros; lia); try (by constructor); try (by repeat constructor).
Qed.

(** [join_group] on a planner whose [next_group_id] denotes [vnext]. *)
Lemma group_inv_join w vcur vnext va vb c st' c' :
  group_inv w vcur vnext va vb ->
  ordered_cmd c = true ->
  (is_barrier (cmd_msg c) = true -> next_group_commands (state w) = ∅) ->
  join_group c (state w) = (st', c') ->
  group_inv (mkWorkPlanner st' (backlog w ++ [c']) (asap_list w)) vcur vnext va
    (vb ++ [(vnext, c')]).
Proof.
  intros Hi Hord Hbar [= <- <-]. destruct Hi. constructor; cbn in *; try done.
  - by rewrite fmap_app, gi_backlog0.
  - rewrite app_assoc. apply Forall_app. split; [done|]. constructor; [| done].
    cbn. by rewrite gi_next0.
  - apply Forall_app. split; [done|]. constructor; [cbn; lia | done].
  - rewrite app_assoc. apply stronglysorted_snoc; [done|].
    assert (Hle : Forall (fun x => x.1 <= vnext) (va ++ vb)).
    { apply Forall_app. split; [eapply Forall_impl; [exact gi_active_cur0 |]
        | eapply Forall_impl; [exact gi_range0 |]]; cbn; lia. }
    destruct (is_barrier (cmd_msg c)) eqn:Eb.
    + eapply Forall_impl; [by apply gi_fresh0, Hbar |]. intros x Hx. split; cbn in *; [lia|done].
    + eapply Forall_impl; [exact Hle |]. intros x Hx. split; [done|]. cbn in *. by rewrite Eb.
  - intros v Hv. rewrite fmap_app. set_solver.
  - intros Hemp. set_solver.
  - destruct gi_class0. split; [| done]. apply Forall_app. split; [done | by constructor].
Qed.

(** [next_group] before a command joins. *)
Lemma group_inv_next_join w vcur vnext va vb c st' c' :
  group_inv w vcur vnext va vb ->
  ordered_cmd c = true ->
  next_group_commands (state w) <> ∅ ->
  join_group c (next_group (state w)) = (st', c') ->
  group_inv (mkWorkPlanner st' (backlog w ++ [c']) (asap_list w)) vcur (vnext + 1) va
    (vb ++ [(vnext + 1, c')]).
Proof.
  intros Hi Hord Hne [= <- <-]. destruct Hi. constructor; cbn in *; try done; try lia.
  - by rewrite gi_next0, get_increased_group_mod.
  - by rewrite fmap_app, gi_backlog0.
  - rewrite app_assoc. apply Forall_app. split; [done|]. constructor; [| done].
    cbn. by rewrite gi_next0, get_increased_group_mod.
  - apply Forall_app. split; [eapply Forall_impl; [exact gi_range0 |]; cbn; lia |].
    constructor; [cbn; lia | done].
  - rewrite app_assoc. apply stronglysorted_snoc; [done|]. apply Forall_app.
    split; [eapply Forall_impl; [exact gi_active_cur0 |]
      | eapply Forall_impl; [exact gi_range0 |]]; intros x Hx; cbn in *; split; cbn; lia.
  - intros v Hv. rewrite fmap_app. destruct (Z.eq_dec v (vnext + 1)) as [-> |]; [set_solver |].
    pose proof (gi_dense0 v ltac:(lia)). set_solver.
  - intros Hemp. set_solver.
  - destruct gi_class0. split; [| done]. apply Forall_app. split; [done | by constructor].
Qed.

Lemma barrier_increases st m :
  is_barrier m = true -> next_group_commands (B := list Cmd) st <> ∅ ->
  should_increase_group st m = true.
Proof.
  intros Hb Hne. unfold should_increase_group. rewrite bool_decide_eq_false_2 by done.
  destruct m; try discriminate Hb; reflexivity.
Qed.

(** A command that joins the group [v], which is not before the one under
    construction, keeps the current group alive. *)
Lemma group_live_join (w w' : WorkPlanner (list Cmd)) vcur vnext v vb c :
  vcur <= vnext <= v -> (v = vnext \/ next_group_commands (state w) <> ∅) ->
  active_commands (state w') = active_commands (state w) ->
  group_live w vcur vnext vb -> group_live w' vcur v (vb ++ [(v, c)]).
Proof.
  intros Hle Hv Ha [Hl | [Hl | [-> Hl]]]; unfold group_live; rewrite Ha, fmap_app.
  - by left.
  - right; left. set_solver.
  - destruct Hv as [-> |]; [| done]. right; left. set_solver.
Qed.

Lemma group_inv_add w vcur vnext va vb c :
  group_inv w vcur vnext va vb ->
  exists vnext' vb', group_inv (add_command c w) vcur vnext' va vb'
    /\ (group_live w vcur vnext vb -> group_live (add_command c w) vcur vnext' vb').
Proof.
  intros Hi. unfold add_command, assign_group. pose proof (gi_le _ _ _ _ _ Hi) as Hle.
  destruct (is_asap_class (cmd_msg c)) eqn:Ea.
  { exists vnext, vb. split; [| done]. destruct Hi. constructor; cbn; try done.
    destruct gi_class0. split; [done|]. apply Forall_app. split; [done|]. constructor; [| done].
    unfold ordered_cmd. cbn. by rewrite Ea. }
  assert (Hord : ordered_cmd c = true) by (unfold ordered_cmd; by rewrite Ea).
  set (w1 := mkWorkPlanner (join_group c (state w)).1 (backlog w ++ [(join_group c (state w)).2])
    (asap_list w)).
  assert (Hjoin : (is_barrier (cmd_msg c) = true -> next_group_commands (state w) = ∅) ->
    exists vnext' vb', group_inv w1 vcur vnext' va vb'
      /\ (group_live w vcur vnext vb -> group_live w1 vcur vnext' vb')).
  { intros Hbar. exists vnext, (vb ++ [(vnext, (join_group c (state w)).2)]). split.
    - apply group_inv_join with (c := c); auto using surjective_pairing.
    - by apply group_live_join; [lia | left |]. }
  destruct (isinstance (cmd_msg c) cDie) eqn:Ed.
  { apply Hjoin. by destruct (cmd_msg c). }
  destruct (should_increase_group (state w) (cmd_msg c)) eqn:Es.
  - assert (Hne : next_group_commands (state w) <> ∅).
    { intros Hemp. unfold should_increase_group in Es. by rewrite bool_decide_eq_true_2 in Es. }
    eexists (vnext + 1), _. split; [by eapply group_inv_next_join with (c := c)|].
    by apply group_live_join; [lia | right |].
  - apply Hjoin. intros Hbar. destruct (decide (next_group_commands (state w) = ∅)); [done|].
    by rewrite barrier_increases in Es.
Qed.

Lemma group_inv_take_asap w vcur vnext va vb c rest :
  group_inv w vcur vnext va vb -> asap_list w = c :: rest ->
  group_inv (mkWorkPlanner (add_active_cmd c (state w)) (backlog w) rest) vcur vnext va vb.
Proof.
  intros Hi Hc. destruct Hi. rewrite Hc in gi_class0.
  destruct gi_class0 as [Hb [Hasap Hrest]%Forall_cons].
  constructor; cbn; try done. by rewrite Hasap.
Qed.

Lemma group_inv_take_backlog w vcur vnext va vb c rest :
  group_inv w vcur vnext va vb -> backlog w = c :: rest -> is_allowed (state w) c = true ->
  exists vb', vb = (vcur, c) :: vb' /\
    group_inv (mkWorkPlanner (add_active_cmd c (state w)) rest (asap_list w)) vcur vnext
      (va ++ [(vcur, c)]) vb'.
Proof.
  intros Hi Hc Hal. pose proof (gi_backlog _ _ _ _ _ Hi) as Hvb. rewrite Hc in Hvb.
  destruct vb as [| [v c'] vb]; [done|]. injection Hvb as -> Hvb.
  apply (gi_head_allowed _ _ _ _ (v, c) _ Hi) in Hal. cbn in Hal. subst v.
  exists vb. split; [done|]. destruct Hi. rewrite Hc in *. cbn in *.
  destruct gi_class0 as [[Hord Hb]%Forall_cons Hasap].
  constructor; cbn; try done.
  - rewrite Hord. cbn. by rewrite fmap_app, gi_active0.
  - apply Forall_app. split; [done | by constructor].
  - by rewrite <- app_assoc.
  - by apply Forall_cons in gi_range0 as [_ ?].
  - by rewrite <- app_assoc.
  - intros v Hv. pose proof (gi_dense0 v Hv) as Hin.
    apply elem_of_cons in Hin as [-> |]; [lia | done].
  - rewrite <- app_assoc. done.
Qed.

Lemma sublist_fmap_inv {A A'} (f : A -> A') (l : list A) (k : list A') :
  k `sublist_of` f <$> l -> exists l', l' `sublist_of` l /\ f <$> l' = k.
Proof.
  revert k. induction l as [| x l IH]; intros k Hk; cbn in Hk.
  - apply sublist_nil_r in Hk as ->. by exists [].
  - apply sublist_cons_r in Hk as [Hk | (k' & -> & Hk)].
    + destruct (IH _ Hk) as (l' & Hs & <-). exists l'. split; [by apply sublist_cons | done].
    + destruct (IH _ Hk) as (l' & Hs & <-). exists (x :: l'). split; [by apply sublist_skip | done].
Qed.

Lemma sublist_filter_bool {A} (f : A -> bool) (l1 l2 : list A) :
  l1 `sublist_of` l2 -> List.filter f l1 `sublist_of` List.filter f l2.
Proof.
  induction 1 as [| x l1 l2 _ IH | x l1 l2 _ IH]; cbn; [done | |];
    destruct (f x); [by apply sublist_skip | done | by apply sublist_cons | done].
Qed.

Lemma sublist_rev {A} (l1 l2 : list A) : l1 `sublist_of` l2 -> rev l1 `sublist_of` rev l2.
Proof.
  induction 1 as [| x l1 l2 _ IH | x l1 l2 _ IH]; cbn; [done | |].
  - by apply sublist_app.
  - by apply sublist_inserts_r.
Qed.

Lemma gi_shrink w vcur vnext va vb act :
  group_inv w vcur vnext va vb -> act `sublist_of` active_commands (state w) ->
  exists va', va' `sublist_of` va /\ va'.*2 = rev (List.filter ordered_cmd act).
Proof.
  intros Hi Hs. apply sublist_fmap_inv. rewrite (gi_active _ _ _ _ _ Hi).
  by apply sublist_rev, sublist_filter_bool.
Qed.

(** Fewer active commands *)
Lemma group_inv_fewer w vcur vnext va vb va' act meta :
  group_inv w vcur vnext va vb ->
  va' `sublist_of` va -> va'.*2 = rev (List.filter ordered_cmd act) ->
  group_inv (mkWorkPlanner (mkState (current_group_id (state w)) (next_group_id (state w)) act meta
    (next_group_commands (state w)) (is_shutdown (state w))) (backlog w) (asap_list w))
    vcur vnext va' vb.
Proof.
  intros Hi Hva' Hact.
  assert (Hsub : va' ++ vb `sublist_of` va ++ vb) by by apply sublist_app.
  assert (Hall : forall P, Forall P (va ++ vb) -> Forall P (va' ++ vb)).
  { intros P HP. rewrite Forall_forall in *. intros x Hx.
    apply HP. by eapply elem_of_submseteq, sublist_submseteq. }
  destruct Hi. constructor; cbn; try done; try (by apply Hall).
  - rewrite Forall_forall in *. intros x Hx.
    apply gi_active_cur0. by eapply elem_of_submseteq, sublist_submseteq.
  - by eapply stronglysorted_sublist.
  - intros Hn. apply Hall. by apply gi_fresh0.
Qed.

(** The last command of the current group is gone. *)
Lemma group_inv_inc w vcur vnext vb :
  group_inv w vcur vnext [] vb -> existsb (is_allowed (state w)) (backlog w) = false ->
  active_commands (state w) = [] ->
  exists vnext', group_inv (mkWorkPlanner (inc_group (state w)) (backlog w) (asap_list w))
                   (vcur + 1) vnext' [] vb
    /\ group_live (mkWorkPlanner (inc_group (state w)) (backlog w) (asap_list w)) (vcur + 1) vnext' vb.
Proof.
  intros Hi Hno Hnil. pose proof (gi_le _ _ _ _ _ Hi) as Hle.
  assert (Hgt : Forall (fun x : Z * Cmd => vcur + 1 <= x.1 <= vnext) vb).
  { pose proof (gi_range _ _ _ _ _ Hi) as Hr. rewrite Forall_forall in *. intros x Hx.
    specialize (Hr x Hx). pose proof (gi_none_allowed _ _ _ _ _ vcur Hi Hno eq_refl) as Hv.
    assert (x.1 <> vcur) by set_solver. lia. }
  unfold inc_group. rewrite (gi_cur _ _ _ _ _ Hi), (gi_next _ _ _ _ _ Hi), get_increased_group_mod.
  destruct (_ =? _) eqn:Ec.
  - apply Z.eqb_eq in Ec. destruct (Z.eq_dec vcur vnext) as [<- |].
    2: { destruct (gi_none_allowed _ _ _ _ _ vnext Hi Hno Ec).
         apply (gi_dense _ _ _ _ _ Hi). lia. }
    assert (Hvb : vb = []) by (destruct vb as [| x vb]; [done | inversion Hgt; subst; lia]).
    subst vb. exists (vcur + 1). split; [| by right; right].
    destruct Hi. constructor; cbn; try done; try lia; try (by constructor); auto.
  - assert (Hlt : vcur < vnext).
    { destruct (Z.eq_dec vcur vnext) as [<- |]; [by rewrite Z.eqb_refl in Ec | lia]. }
    exists vnext. split; [| right; left; apply (gi_dense _ _ _ _ _ Hi); lia].
    destruct Hi. constructor; cbn; try done; try lia. intros v Hv. apply gi_dense0. lia.
Qed.

Lemma group_inv_finish w vcur vnext va vb c w' n :
  group_inv w vcur vnext va vb -> notify_finished c w = (w', n) ->
  exists vcur' vnext' va', group_inv w' vcur' vnext' va' vb
    /\ (n = false -> vcur' = vcur) /\ va' `sublist_of` va
    /\ (Z.of_nat (length (backlog w)) <= MAX_GROUP_ID -> group_live w' vcur' vnext' vb).
Proof.
  intros Hi. unfold notify_finished.
  set (st := remove_active_cmd c (state w)). set (w1 := mkWorkPlanner st (backlog w) (asap_list w)).
  destruct (gi_shrink _ _ _ _ _ (active_commands st) Hi) as (va' & Hva' & Hact).
  { apply remove_first_sublist. }
  assert (Hi1 : group_inv w1 vcur vnext va' vb) by by apply (group_inv_fewer w vcur vnext va).
  destruct (bag_bool (active_commands st)) eqn:Eb.
  { intros [= <- <-]. exists vcur, vnext, va'. split_and!; try done. intros _. left.
    intros Hnil. change (active_commands st = []) in Hnil. by rewrite Hnil in Eb. }
  assert (Hnil : active_commands st = []) by (by destruct (active_commands st)).
  destruct (existsb _ _) eqn:Ex; intros [= <- <-].
  { exists vcur, vnext, va'. split_and!; try done. intros Hlen. right; left.
    by apply (gi_allowed_exists w1 _ _ _ _ Hi1). }
  assert (va' = []) as ->.
  { apply fmap_nil_inv with snd. by rewrite Hact, Hnil. }
  destruct (group_inv_inc w1 _ _ _ Hi1 Ex Hnil) as (vnext' & Hi2 & Hl2).
  exists (vcur + 1), vnext', []. by split_and!.
Qed.

Definition grouped (w : WorkPlanner (list Cmd)) : Prop :=
  exists vcur vnext va vb, group_inv w vcur vnext va vb.

(** [grouped], and the current group has something to do. *)
Definition grouped_live (w : WorkPlanner (list Cmd)) : Prop :=
  exists vcur vnext va vb, group_inv w vcur vnext va vb /\ group_live w vcur vnext vb.

(** Taking a command, or nothing. *)
Lemma group_inv_next_cmd pid w c w' vcur vnext va vb :
  group_inv w vcur vnext va vb -> next_cmd pid w = (c, w') ->
  exists va' vb', group_inv w' vcur vnext va' vb'
    /\ (group_live w vcur vnext vb -> group_live w' vcur vnext vb').
Proof.
  intros Hi Hn. unfold next_cmd in Hn.
  assert (Hb : forall cmd rest, backlog w = cmd :: rest -> is_allowed (state w) cmd = true ->
    exists va' vb',
      group_inv (mkWorkPlanner (add_active_cmd cmd (state w)) rest (asap_list w)) vcur vnext va' vb'
      /\ (group_live w vcur vnext vb ->
          group_live (mkWorkPlanner (add_active_cmd cmd (state w)) rest (asap_list w)) vcur vnext vb')).
  { intros cmd rest Hc Ha. destruct (group_inv_take_backlog _ _ _ _ _ _ _ Hi Hc Ha)
      as (vb' & _ & Hi'). eexists _, _. split; [exact Hi' | by left]. }
  assert (Hs : exists va' vb', group_inv w vcur vnext va' vb'
    /\ (group_live w vcur vnext vb -> group_live w vcur vnext vb')) by eauto.
  assert (Hw : w = mkWorkPlanner (state w) (backlog w) (asap_list w)) by by destruct w.
  destruct (is_shutdown _); [by injection Hn as <- <-|].
  destruct (asap_list w) as [| a rest] eqn:Easap.
  2: destruct (is_allowed_asap _ _);
       [injection Hn as <- <-; do 2 eexists; split; [by eapply group_inv_take_asap | by left] |].
  all: destruct (backlog w) as [| b brest] eqn:Eb; [by injection Hn as <- <-|];
    destruct (is_allowed _ b) eqn:Ea; injection Hn as <- <-; [by apply Hb | by rewrite <- Hw].
Qed.

(** Every step keeps the groups; one from and to a short backlog keeps the
    current group alive. *)
Lemma grouped_step s s' vcur vnext va vb :
  group_inv (wp s) vcur vnext va vb -> step s s' ->
  exists vcur' vnext' va' vb', group_inv (wp s') vcur' vnext' va' vb'
    /\ (Z.of_nat (length (backlog (wp s))) <= MAX_GROUP_ID ->
        group_live (wp s) vcur vnext vb -> group_live (wp s') vcur' vnext' vb').
Proof.
  intros Hi Hstep. destruct Hstep as [s c Hc | s r pid c wp' Hn Hp Ht | s r pid wp' Hn Ht | s t wp' b Ht Hf | s]; cbn.
  - destruct (group_inv_add _ _ _ _ _ c Hi) as (? & ? & ? & ?). eauto 10.
  - destruct (group_inv_next_cmd _ _ _ _ _ _ _ _ Hi Ht) as (? & ? & ? & ?). eauto 10.
  - destruct (group_inv_next_cmd _ _ _ _ _ _ _ _ Hi Ht) as (? & ? & ? & ?). eauto 10.
  - destruct (group_inv_finish _ _ _ _ _ _ _ _ Hi Hf) as (? & ? & ? & ? & _ & _ & ?). eauto 10.
  - exists vcur, vnext, va, vb. split; [destruct Hi; by constructor | done].
Qed.

Lemma grouped_reachable n s : reachable n s -> grouped (wp s).
Proof.
  induction 1 as [| s s' _ (vcur & vnext & va & vb & Hi) Hstep].
  - do 4 eexists; apply group_inv_init.
  - destruct (grouped_step _ _ _ _ _ _ Hi Hstep) as (? & ? & ? & ? & ? & _). unfold grouped; eauto 10.
Qed.

Lemma calm_grouped_live n s :
  calm_reachable n s -> grouped_live (wp s) /\ Z.of_nat (length (backlog (wp s))) <= MAX_GROUP_ID.
Proof.
  induction 1 as [| s s' _ [(vcur & vnext & va & vb & Hi & Hl) Hlen] Hstep Hlen'].
  - split; [| done]. do 4 eexists. split; [apply group_inv_init | by right; right].
  - split; [| done]. destruct (grouped_step _ _ _ _ _ _ Hi Hstep) as (? & ? & ? & ? & ? & Hl').
    unfold grouped_live. eauto 10.
Qed.
End GroupInvariant.
