(* ===== verification/PlannerProps.v ===== *)
(** * Correctness of the work planner

    Invariants of the thread system of [Planner] by induction on [reachable]:
    ordering of the groups, no deadlock, one [ProcessEvent] per process at a
    time, every command started once and in order; and the refinement from the
    planner over lists to the one over the linked list. *)

From Stdlib Require Import Sorting.Sorted.
From S2P Require Import Prelude PyStr HaxTypes Message LinkedList Planner.

Section ThreadInvariant.

Definition live (t : Task) : bool := negb (poison t).

Definition oids (s : sys) : list nat :=
  (task_oid <$> running s) ++ (cmd_oid <$> asap_list (wp s)) ++ (cmd_oid <$> backlog (wp s)).

Record thread_inv (s : sys) : Prop := {
  ti_active : active_commands (state (wp s)) = task_cmd <$> List.filter live (running s);
  ti_nodup : NoDup (oids s);
  ti_used : Forall (fun o => o ∈ used s) (oids s);
  ti_meta : forall k m, active_meta (state (wp s)) !! k = Some m <->
    exists c, c ∈ active_commands (state (wp s)) /\ cmd_oid c = k
              /\ extract_meta (cmd_msg c) = Some m;
  ti_poison : forall t, t ∈ running s -> poison t = true -> is_die (cmd_msg (task_cmd t)) = true;
  ti_shutdown : is_shutdown (state (wp s)) = true -> waiting s = 0%nat;
  ti_wait_backlog : waiting s <> 0%nat -> forall c rest, backlog (wp s) = c :: rest ->
    is_allowed (state (wp s)) c = false;
  ti_wait_asap : waiting s <> 0%nat -> forall c rest, asap_list (wp s) = c :: rest ->
    is_allowed_asap (state (wp s)) c = true ->
    runnable s <> 0%nat \/ exists t, t ∈ running s /\ is_die (cmd_msg (task_cmd t)) = false;
  ti_one_event : forall c1 c2 m1 m2,
    c1 ∈ active_commands (state (wp s)) -> c2 ∈ active_commands (state (wp s)) ->
    extract_meta (cmd_msg c1) = Some m1 -> extract_meta (cmd_msg c2) = Some m2 ->
    meta_fid m1 = meta_fid m2 -> cmd_oid c1 = cmd_oid c2 }.

(** The two ways a command leaves a queue. *)
Lemma next_cmd_cases pid (w : WorkPlanner (list Cmd)) c w' :
  next_cmd pid w = (Some c, w') ->
  (is_shutdown (state w) = true /\ c = create_poison pid (state w) /\ w' = w)
  \/ (is_shutdown (state w) = false /\ exists rest, asap_list w = c :: rest
      /\ is_allowed_asap (state w) c = true
      /\ w' = mkWorkPlanner (add_active_cmd c (state w)) (backlog w) rest)
  \/ (is_shutdown (state w) = false /\ exists rest, backlog w = c :: rest
      /\ is_allowed (state w) c = true
      /\ (forall a l, asap_list w = a :: l -> is_allowed_asap (state w) a = false)
      /\ w' = mkWorkPlanner (add_active_cmd c (state w)) rest (asap_list w)).
Proof.
  unfold next_cmd. destruct (is_shutdown (state w)); [intros [= <- <-]; by left|].
  destruct (asap_list w) as [| a l].
  - destruct (backlog w) as [| b l']; [done|].
    destruct (is_allowed _ b) eqn:E; [intros [= <- <-] | done].
    right; right. split; [done|]. by exists l'.
  - destruct (is_allowed_asap _ a) eqn:Ea;
      [intros [= <- <-]; right; left; split; [done|]; by exists l |].
    destruct (backlog w) as [| b l']; [done|].
    destruct (is_allowed _ b) eqn:E; [intros [= <- <-] | done].
    right; right. split; [done|]. exists l'. repeat split; [done|]. by intros ? ? [= <- <-].
Qed.

Lemma next_cmd_none pid (w : WorkPlanner (list Cmd)) w' :
  next_cmd pid w = (None, w') ->
  w' = w /\ is_shutdown (state w) = false
  /\ (forall a l, asap_list w = a :: l -> is_allowed_asap (state w) a = false)
  /\ (forall b l, backlog w = b :: l -> is_allowed (state w) b = false).
Proof.
  unfold next_cmd. destruct (is_shutdown (state w)) eqn:Esh; [done|].
  assert (Hw : w = mkWorkPlanner (state w) (backlog w) (asap_list w)) by by destruct w.
  assert (Hb : forall w0, match backlog w with
      | [] => (None, w)
      | cmd :: rest => if is_allowed (state w) cmd
          then (Some cmd, mkWorkPlanner (add_active_cmd cmd (state w)) rest (asap_list w))
          else (None, mkWorkPlanner (state w) (cmd :: rest) (asap_list w)) end = (None, w0) ->
    w0 = w /\ forall b l, backlog w = b :: l -> is_allowed (state w) b = false).
  { intros w0. destruct (backlog w) as [| b l]; [by intros [= <-]|].
    destruct (is_allowed _ b) eqn:E; [done|]. intros [= <-]. split; [done|].
    by intros ? ? [= <- <-]. }
  destruct (asap_list w) as [| a l].
  - by intros [-> Hb']%Hb.
  - destruct (is_allowed_asap _ a) eqn:Ea; [done|]. intros [-> Hb']%Hb.
    repeat split; [|done]. by intros ? ? [= <- <-].
Qed.

Lemma allowed_asap_spec (st : State (list Cmd)) c :
  is_allowed_asap st c = true <->
  forall m k v, extract_meta (cmd_msg c) = Some m -> active_meta st !! k = Some v ->
    meta_fid v <> meta_fid m.
Proof.
  unfold is_allowed_asap. destruct (extract_meta (cmd_msg c)) as [m |]; [| naive_solver].
  rewrite negb_true_iff. split.
  - intros Hex m' k v [= <-] Hk Hv. apply not_true_iff_false in Hex. apply Hex.
    apply existsb_exists. exists v. split; [| by destruct (fid_eqb_spec (meta_fid v) (meta_fid m))].
    apply list_elem_of_In, list_elem_of_fmap. exists (k, v). split; [done|].
    by apply elem_of_map_to_list.
  - intros Hall. apply not_true_iff_false. intros (v & Hv & Hf)%existsb_exists.
    apply list_elem_of_In, list_elem_of_fmap in Hv as ([k v'] & -> & Hk%elem_of_map_to_list).
    cbn in Hf. destruct (fid_eqb_spec (meta_fid v') (meta_fid m)) as [He |]; [| done].
    by apply (Hall m k v') in He.
Qed.

Lemma remove_first_oid {A} (f : A -> nat) (o : nat) (l : list A) x :
  NoDup (f <$> l) ->
  x ∈ remove_first (fun y => (f y =? o)%nat) l <-> x ∈ l /\ f x <> o.
Proof.
  induction l as [| y l IH]; cbn; [set_solver|]. intros [Hy Hl]%NoDup_cons.
  destruct (Nat.eqb_spec (f y) o) as [<- | Hne].
  - rewrite elem_of_cons. split; [| naive_solver]. intros Hx. split; [by right|].
    intros Hf. apply Hy. rewrite <- Hf. by apply list_elem_of_fmap_2.
  - rewrite !elem_of_cons, IH by done. naive_solver.
Qed.

Lemma nodup_fmap_eq {A} (f : A -> nat) (l : list A) x y :
  NoDup (f <$> l) -> x ∈ l -> y ∈ l -> f x = f y -> x = y.
Proof.
  induction l as [| z l IH]; [set_solver|]. cbn. intros [Hz Hl]%NoDup_cons.
  intros [-> | Hx]%elem_of_cons [-> | Hy]%elem_of_cons He; [done | | |auto].
  - destruct Hz. rewrite He. by apply list_elem_of_fmap_2.
  - destruct Hz. rewrite <- He. by apply list_elem_of_fmap_2.
Qed.

Lemma remove_first_live (o : nat) (l : list Task) :
  NoDup (task_oid <$> l) ->
  remove_first (fun y => (cmd_oid y =? o)%nat) (task_cmd <$> List.filter live l)
  = task_cmd <$> List.filter live (remove_first (fun u => (task_oid u =? o)%nat) l).
Proof.
  induction l as [| t l IH]; cbn; [done|]. intros [Ht Hl]%NoDup_cons.
  destruct (live t) eqn:Et; cbn; fold (task_oid t); destruct (Nat.eqb_spec (task_oid t) o) as [<- |].
  - done.
  - cbn. rewrite Et. cbn. f_equal. by apply IH.
  - apply remove_first_none, Forall_forall. intros c Hc.
    apply Nat.eqb_neq. intros He. apply Ht. rewrite <- He.
    apply list_elem_of_fmap in Hc as (u & -> & Hu).
    apply list_elem_of_In, filter_In in Hu as [Hu _]. apply list_elem_of_fmap.
    exists u. by rewrite list_elem_of_In.
  - cbn. rewrite Et. by apply IH.
Qed.

Lemma live_oids_nodup s : thread_inv s -> NoDup (cmd_oid <$> active_commands (state (wp s))).
Proof.
  intros Hi. rewrite (ti_active _ Hi). pose proof (ti_nodup _ Hi) as Hn.
  apply NoDup_app in Hn as [Hn _]. revert Hn. generalize (running s).
  induction l as [| t l IH]; cbn; [done|]. intros [Ht Hl]%NoDup_cons.
  destruct (live t); cbn; [| auto]. constructor; [| auto].
  intros (c & Hc & (u & -> & Hu)%list_elem_of_fmap)%list_elem_of_fmap.
  apply Ht, list_elem_of_fmap. exists u. split; [done|].
  by apply list_elem_of_In, filter_In in Hu as [?%list_elem_of_In _].
Qed.

Lemma active_oid_running s c :
  thread_inv s -> c ∈ active_commands (state (wp s)) -> cmd_oid c ∈ task_oid <$> running s.
Proof.
  intros Hi Hc. rewrite (ti_active _ Hi) in Hc.
  apply list_elem_of_fmap in Hc as (t & -> & Ht%list_elem_of_In).
  apply filter_In in Ht as [Ht%list_elem_of_In _].
  by apply (list_elem_of_fmap_2 task_oid).
Qed.

Lemma thread_inv_init n : thread_inv (sys_init n).
Proof.
  constructor; cbn; try done; try (by constructor).
  - intros k m. rewrite lookup_empty. split; [done|]. intros (c & Hc & _). set_solver.
  - intros t Ht. set_solver.
  - intros c1 c2 m1 m2 Hc. set_solver.
Qed.

Lemma assign_group_same c (st : State (list Cmd)) st' c' b :
  assign_group c st = (st', c', b) ->
  cmd_oid c' = cmd_oid c /\ cmd_msg c' = cmd_msg c
  /\ active_commands st' = active_commands st /\ active_meta st' = active_meta st
  /\ current_group_id st' = current_group_id st /\ is_shutdown st' = is_shutdown st
  /\ b = negb (ordered_cmd c).
Proof.
  unfold assign_group, join_group, ordered_cmd.
  destruct (is_asap_class _); [by intros [= <- <- <-]|].
  destruct (isinstance _ _); [by intros [= <- <- <-]|].
  by destruct (should_increase_group _ _); intros [= <- <- <-].
Qed.

Lemma thread_inv_add s c :
  thread_inv s -> cmd_oid c ∉ used s ->
  thread_inv (mkSys (add_command c (wp s)) (running s) (runnable s + waiting s) 0
              ({[cmd_oid c]} ∪ used s) (added s ++ [c]) (started s)).
Proof.
  intros Hi Hc. unfold add_command.
  destruct (assign_group c (state (wp s))) as [[st' c'] b] eqn:Ea.
  apply assign_group_same in Ea as (Ho & Hm & Hact & Hmeta & Hcur & Hsh & _).
  assert (Hnew : cmd_oid c' ∉ oids s).
  { rewrite Ho. intros Hin. apply Hc. pose proof (ti_used _ Hi) as Hu.
    rewrite Forall_forall in Hu. by apply Hu. }
  assert (Hperm : oids (mkSys (if b then mkWorkPlanner st' (backlog (wp s)) (asap_list (wp s) ++ [c'])
      else mkWorkPlanner st' (backlog (wp s) ++ [c']) (asap_list (wp s))) (running s)
      (runnable s + waiting s) 0 ({[cmd_oid c]} ∪ used s) (added s ++ [c]) (started s))
      ≡ₚ cmd_oid c' :: oids s).
  { unfold oids. destruct b; cbn; rewrite fmap_app; cbn; solve_Permutation. }
  constructor; cbn; try done.
  - destruct b; cbn; by rewrite Hact, (ti_active _ Hi).
  - rewrite Hperm. constructor; [done | apply Hi].
  - rewrite Hperm. constructor; [set_solver|].
    eapply Forall_impl; [apply Hi|]. set_solver.
  - destruct b; cbn; rewrite Hact, Hmeta; apply Hi.
  - apply Hi.
  - destruct b; cbn; rewrite Hact; apply Hi.
Qed.

Lemma thread_inv_poison s r pid :
  thread_inv s -> runnable s = S r -> pid ∉ used s -> is_shutdown (state (wp s)) = true ->
  thread_inv (mkSys (wp s) (mkTask (create_poison pid (state (wp s))) true :: running s) r
     (waiting s) ({[pid]} ∪ used s) (added s) (started s)).
Proof.
  intros Hi Hr Hp Hsh. pose proof (ti_shutdown _ Hi Hsh) as Hw.
  constructor; cbn; try done; try (intros; lia).
  - apply Hi.
  - constructor; [| apply Hi]. intros Hin. apply Hp.
    pose proof (ti_used _ Hi) as Hu. rewrite Forall_forall in Hu. by apply Hu.
  - constructor; [set_solver|]. eapply Forall_impl; [apply Hi|]. set_solver.
  - apply Hi.
  - intros t [-> | Ht]%elem_of_cons; [done|]. by apply Hi.
  - apply Hi.
Qed.

Lemma meta_add (st : State (list Cmd)) c :
  (forall k m, active_meta st !! k = Some m <->
    exists c, c ∈ active_commands st /\ cmd_oid c = k /\ extract_meta (cmd_msg c) = Some m) ->
  cmd_oid c ∉ cmd_oid <$> active_commands st ->
  forall k m, active_meta (add_active_cmd c st) !! k = Some m <->
    exists c', c' ∈ active_commands (add_active_cmd c st) /\ cmd_oid c' = k
      /\ extract_meta (cmd_msg c') = Some m.
Proof.
  intros Hm Hc k m. cbn.
  assert (Hnone : active_meta st !! cmd_oid c = None).
  { apply eq_None_not_Some. intros [m' Hm']. apply Hm in Hm' as (c' & Hc' & Ho & _).
    apply Hc. rewrite <- Ho. by apply (list_elem_of_fmap_2 cmd_oid). }
  setoid_rewrite elem_of_cons.
  destruct (extract_meta (cmd_msg c)) as [mc |] eqn:Emc.
  - destruct (decide (k = cmd_oid c)) as [-> | Hk].
    + rewrite lookup_insert_eq. split; [intros [= <-]; eauto|].
      intros (c' & [-> | Hc'] & Ho & Hmc); [congruence|].
      exfalso. apply Hc. rewrite <- Ho. by apply (list_elem_of_fmap_2 cmd_oid).
    + rewrite lookup_insert_ne by done. rewrite Hm. naive_solver.
  - rewrite Hm. naive_solver.
Qed.

Lemma thread_inv_start s r pid c asap' backlog' st' :
  thread_inv s ->
  (cmd_oid <$> asap_list (wp s)) ++ (cmd_oid <$> backlog (wp s))
    ≡ₚ cmd_oid c :: (cmd_oid <$> asap') ++ (cmd_oid <$> backlog') ->
  is_allowed_asap (state (wp s)) c = true -> is_shutdown (state (wp s)) = false ->
  (waiting s <> 0%nat -> backlog' = backlog (wp s) /\ is_die (cmd_msg c) = false) ->
  thread_inv (mkSys (mkWorkPlanner (add_active_cmd c (state (wp s))) backlog' asap')
    (mkTask c false :: running s) r (waiting s) ({[pid]} ∪ used s) (added s) st').
Proof.
  intros Hi Hperm Hal Hsh Hw.
  assert (Hoids : oids s ≡ₚ cmd_oid c :: (task_oid <$> running s)
     ++ (cmd_oid <$> asap') ++ (cmd_oid <$> backlog')).
  { unfold oids. rewrite Hperm. solve_Permutation. }
  assert (Hnew : cmd_oid c ∉ cmd_oid <$> active_commands (state (wp s))).
  { intros (c' & Ho & Hc')%list_elem_of_fmap. apply (active_oid_running _ _ Hi) in Hc'.
    pose proof (ti_nodup _ Hi) as Hn. rewrite Hoids in Hn. apply NoDup_cons in Hn as [Hn _].
    apply Hn. rewrite Ho. set_solver. }
  constructor; try done.
  - cbn. by rewrite (ti_active _ Hi).
  - change (NoDup (cmd_oid c :: (task_oid <$> running s) ++ (cmd_oid <$> asap')
      ++ (cmd_oid <$> backlog'))). rewrite <- Hoids. apply Hi.
  - change (Forall (fun o => o ∈ {[pid]} ∪ used s) (cmd_oid c :: (task_oid <$> running s)
      ++ (cmd_oid <$> asap') ++ (cmd_oid <$> backlog'))). rewrite <- Hoids.
    eapply Forall_impl; [apply Hi|]. set_solver.
  - apply meta_add; [apply Hi | done].
  - cbn. intros t [-> | Ht]%elem_of_cons; [done|]. by apply Hi.
  - cbn. by rewrite Hsh.
  - cbn. intros Hn b l ->. destruct (Hw Hn) as [Hb _].
    by apply (ti_wait_backlog _ Hi Hn _ l).
  - cbn. intros Hn a l -> _. right. exists (mkTask c false). split; [set_solver|].
    by destruct (Hw Hn).
  - cbn. rewrite allowed_asap_spec in Hal. pose proof (ti_meta _ Hi) as Hmeta.
    intros c1 c2 m1 m2 [-> | H1]%elem_of_cons [-> | H2]%elem_of_cons E1 E2 Hf; [done | | |].
    + exfalso. apply (Hal m1 (cmd_oid c2) m2); [done | | done]. apply Hmeta. eauto.
    + exfalso. apply (Hal m2 (cmd_oid c1) m1); [done | | done]. apply Hmeta. eauto.
    + by apply (ti_one_event _ Hi c1 c2 m1 m2).
Qed.

Lemma thread_inv_take s r pid c wp' :
  thread_inv s -> grouped (wp s) -> runnable s = S r -> pid ∉ used s ->
  next_cmd pid (wp s) = (Some c, wp') ->
  thread_inv (mkSys wp' (mkTask c (is_shutdown (state (wp s))) :: running s) r (waiting s)
     ({[pid]} ∪ used s) (added s)
     (if is_shutdown (state (wp s)) then started s else started s ++ [c])).
Proof.
  intros Hi (vcur & vnext & va & vb & Hg) Hr Hp.
  destruct (gi_class _ _ _ _ _ Hg) as [Hb Ha].
  intros [(Hsh & -> & ->) | [(Hsh & rest & Hq & Hal & ->) | (Hsh & rest & Hq & Hal & _ & ->)]]%next_cmd_cases;
    rewrite Hsh.
  - by apply thread_inv_poison.
  - apply thread_inv_start; try done; [by rewrite Hq|].
    intros _. split; [done|]. rewrite Hq in Ha. apply Forall_cons in Ha as [Ha _].
    unfold ordered_cmd in Ha. by destruct (cmd_msg c).
  - apply thread_inv_start; try done.
    + rewrite Hq. cbn. solve_Permutation.
    + rewrite Hq in Hb. apply Forall_cons in Hb as [Hb _]. unfold ordered_cmd in Hb.
      unfold is_allowed_asap. by destruct (cmd_msg c).
    + intros Hn. exfalso. by rewrite (ti_wait_backlog _ Hi Hn _ _ Hq) in Hal.
Qed.

Lemma notify_finished_same c (w : WorkPlanner (list Cmd)) w' n :
  notify_finished c w = (w', n) ->
  backlog w' = backlog w /\ asap_list w' = asap_list w
  /\ active_commands (state w')
     = remove_first (fun y => (cmd_oid y =? cmd_oid c)%nat) (active_commands (state w))
  /\ active_meta (state w') = delete (cmd_oid c) (active_meta (state w))
  /\ is_shutdown (state w') = is_shutdown (state w)
  /\ (n = false -> current_group_id (state w') = current_group_id (state w)).
Proof.
  unfold notify_finished. destruct (bag_bool _); [by intros [= <- <-]|].
  destruct (existsb _ _); [by intros [= <- <-]|]. intros [= <- <-]. unfold inc_group.
  by destruct (_ =? _).
Qed.

Lemma meta_remove s o :
  thread_inv s ->
  forall k m, delete o (active_meta (state (wp s))) !! k = Some m <->
    exists c, c ∈ remove_first (fun y => (cmd_oid y =? o)%nat) (active_commands (state (wp s)))
      /\ cmd_oid c = k /\ extract_meta (cmd_msg c) = Some m.
Proof.
  intros Hi k m. rewrite lookup_delete_Some, (ti_meta _ Hi).
  setoid_rewrite (remove_first_oid cmd_oid); [| by apply live_oids_nodup].
  split; [intros (Hk & c & Hc & <- & Hm) | intros (c & [Hc Ho] & <- & Hm)]; eauto 10.
Qed.

Lemma thread_inv_finish s t wp' n :
  thread_inv s -> t ∈ running s -> notify_finished (task_cmd t) (wp s) = (wp', n) ->
  thread_inv (mkSys wp' (remove_first (fun u => (task_oid u =? task_oid t)%nat) (running s))
    (runnable s + (if is_die (cmd_msg (task_cmd t)) then 0 else 1) + (if n then waiting s else 0))
    (if n then 0%nat else waiting s) (used s) (added s) (started s)).
Proof.
  intros Hi Ht (Hb & Ha & Hact & Hmeta & Hsh & Hcur)%notify_finished_same.
  pose proof (ti_nodup _ Hi) as Hnd. unfold oids in Hnd.
  assert (Hsub : (task_oid <$> remove_first (fun u => (task_oid u =? task_oid t)%nat) (running s))
    ++ (cmd_oid <$> asap_list wp') ++ (cmd_oid <$> backlog wp') `sublist_of` oids s).
  { unfold oids. rewrite Ha, Hb. apply sublist_app; [| done].
    by apply fmap_sublist, remove_first_sublist. }
  apply NoDup_app in Hnd as [Hnd _].
  constructor; cbn [wp running runnable waiting used].
  - rewrite Hact, (ti_active _ Hi). by apply remove_first_live.
  - eapply sublist_NoDup; [apply Hi | exact Hsub].
  - rewrite Forall_forall. intros o Ho. pose proof (ti_used _ Hi) as Hu.
    rewrite Forall_forall in Hu. apply Hu. by eapply elem_of_submseteq, sublist_submseteq.
  - rewrite Hact, Hmeta. by apply meta_remove.
  - intros u Hu%remove_first_elem. by apply Hi.
  - rewrite Hsh. intros Hs. rewrite (ti_shutdown _ Hi Hs). by destruct n.
  - destruct n; [done|]. rewrite Hb. unfold is_allowed. rewrite Hcur by done. apply Hi.
  - destruct n; [done|]. rewrite Ha. intros Hw a l Hal Hok.
    destruct (is_die (cmd_msg (task_cmd t))) eqn:Ed; [| left; lia].
    destruct (ti_wait_asap _ Hi Hw a l Hal) as [Hr | (u & Hu & Hdu)]; [| left; lia |].
    + rewrite allowed_asap_spec in *. intros m k v Hm Hk. apply (Hok m k v Hm).
      rewrite Hmeta. rewrite lookup_delete_ne; [done|]. intros <-.
      apply (ti_meta _ Hi) in Hk as (c & Hc & Ho & Hmc). rewrite (ti_active _ Hi) in Hc.
      apply list_elem_of_fmap in Hc as (u & -> & Hu%list_elem_of_In).
      apply filter_In in Hu as [Hu%list_elem_of_In _].
      assert (u = t) as ->; [| by destruct (cmd_msg (task_cmd t))].
      by apply (nodup_fmap_eq task_oid (running s)).
    + right. exists u. split; [| done]. apply remove_first_oid; [done|]. split; [done|].
      intros Ho. assert (u = t) as -> by by apply (nodup_fmap_eq task_oid (running s)).
      by rewrite Ed in Hdu.
  - rewrite Hact. intros c1 c2 m1 m2 H1%remove_first_elem H2%remove_first_elem. by apply Hi.
Qed.

Lemma thread_inv_reachable n s : reachable n s -> thread_inv s.
Proof.
  induction 1 as [| s s' Hr IH Hstep]; [apply thread_inv_init|].
  pose proof (grouped_reachable _ _ Hr) as Hg.
  destruct Hstep as [s c Hc | s r pid c wp' Hn Hp Ht | s r pid wp' Hn Ht | s t wp' b Ht Hf | s].
  - by apply thread_inv_add.
  - by apply thread_inv_take.
  - apply next_cmd_none in Ht as (-> & Hsh & Ha & Hb). destruct IH.
    constructor; cbn; try done; [by rewrite Hsh |].
    intros _ a l Hal Hok. by rewrite (Ha _ _ Hal) in Hok.
  - by apply thread_inv_finish.
  - destruct IH. by constructor.
Qed.

(** ** The order of the commands *)

Definition key (c : Cmd) : nat * BaseMessage := (cmd_oid c, cmd_msg c).

Definition class_keys (b : bool) (l : list Cmd) : list (nat * BaseMessage) :=
  key <$> List.filter (fun c => Bool.eqb (ordered_cmd c) b) l.

Record log_inv (s : sys) : Prop := {
  li_backlog : class_keys true (started s) ++ (key <$> backlog (wp s)) = class_keys true (added s);
  li_asap : class_keys false (started s) ++ (key <$> asap_list (wp s)) = class_keys false (added s);
  li_nodup : NoDup (cmd_oid <$> added s);
  li_used : Forall (fun c => cmd_oid c ∈ used s) (added s) }.

Lemma class_keys_snoc b l c :
  class_keys b (l ++ [c]) = class_keys b l ++ (if Bool.eqb (ordered_cmd c) b then [key c] else []).
Proof.
  unfold class_keys. rewrite List.filter_app, fmap_app. f_equal. cbn. by destruct (Bool.eqb _ _).
Qed.

Lemma log_inv_add s c : log_inv s -> cmd_oid c ∉ used s ->
  log_inv (mkSys (add_command c (wp s)) (running s) (runnable s + waiting s) 0
              ({[cmd_oid c]} ∪ used s) (added s ++ [c]) (started s)).
Proof.
  intros [Hb Ha Hn Hu] Hc. unfold add_command.
  destruct (assign_group c (state (wp s))) as [[st' c'] b] eqn:Ea.
  apply assign_group_same in Ea as (Ho & Hm & _ & _ & _ & _ & ->).
  assert (Hk : key c' = key c) by (unfold key; by rewrite Ho, Hm).
  constructor; cbn [wp added started used].
  - rewrite class_keys_snoc, <- Hb. destruct (ordered_cmd c); cbn.
    + by rewrite fmap_app, (assoc_L (++)), <- Hk.
    + by rewrite app_nil_r.
  - rewrite class_keys_snoc, <- Ha. destruct (ordered_cmd c); cbn.
    + by rewrite app_nil_r.
    + by rewrite fmap_app, (assoc_L (++)), <- Hk.
  - rewrite fmap_app, NoDup_app. split; [done|]. split; [| by apply NoDup_singleton].
    intros o (d & -> & Hd)%list_elem_of_fmap. rewrite Forall_forall in Hu.
    specialize (Hu d Hd). cbn. rewrite list_elem_of_singleton. congruence.
  - apply Forall_app. split; [| constructor; [set_solver | done]].
    eapply Forall_impl; [exact Hu | set_solver].
Qed.

Lemma log_inv_reachable n s : reachable n s -> log_inv s.
Proof.
  induction 1 as [| s s' Hr IH Hstep]; [by repeat constructor|].
  destruct (grouped_reachable _ _ Hr) as (vcur & vnext & va & vb & Hg).
  destruct (gi_class _ _ _ _ _ Hg) as [Hcb Hca].
  destruct Hstep as [s c Hc | s r pid c wp' Hn Hp Ht | s r pid wp' Hn Ht | s t wp' b Ht Hf | s].
  - by apply log_inv_add.
  - destruct IH as [Hb Ha Hnd Hu].
    assert (Forall (fun c => cmd_oid c ∈ {[pid]} ∪ used s) (added s))
      by (eapply Forall_impl; [exact Hu | set_solver]).
    apply next_cmd_cases in Ht as
      [(Hsh & -> & ->) | [(Hsh & rest & Hq & Hal & ->) | (Hsh & rest & Hq & Hal & _ & ->)]];
      rewrite Hsh; [by constructor | |]; rewrite Hq in *.
    + apply Forall_cons in Hca as [Hc _]. constructor; cbn [wp added started used]; try done.
      * rewrite class_keys_snoc, Hc. cbn. by rewrite app_nil_r.
      * rewrite class_keys_snoc, Hc. cbn. by rewrite <- (assoc_L (++)).
    + apply Forall_cons in Hcb as [Hc _]. constructor; cbn [wp added started used]; try done.
      * rewrite class_keys_snoc, Hc. cbn. by rewrite <- (assoc_L (++)).
      * rewrite class_keys_snoc, Hc. cbn. by rewrite app_nil_r.
  - apply next_cmd_none in Ht as (-> & _). destruct IH. by constructor.
  - apply notify_finished_same in Hf as (Hb & Ha & _). destruct IH.
    constructor; cbn [wp added started used]; rewrite ?Hb, ?Ha; done.
  - destruct IH. by constructor.
Qed.

(** The commands being executed against the logs: the active ones are among those
    started, newest first; a poison pill was never added. *)
Record run_inv (s : sys) : Prop := {
  ri_active : active_commands (state (wp s)) `sublist_of` rev (started s);
  ri_poison : Forall (fun t => poison t = true ->
                task_oid t ∈ used s /\ task_oid t ∉ cmd_oid <$> added s) (running s) }.

Lemma run_inv_take s c pid wp' rn r :
  run_inv s -> active_commands (state wp') = c :: active_commands (state (wp s)) ->
  run_inv (mkSys wp' (mkTask c false :: running s) rn r ({[pid]} ∪ used s) (added s) (started s ++ [c])).
Proof.
  intros [Ha Hp] Hact. constructor; cbn.
  - rewrite Hact, rev_app_distr. by apply sublist_skip.
  - constructor; [done|]. eapply Forall_impl; [exact Hp|]. set_solver.
Qed.

Lemma run_inv_reachable n s : reachable n s -> run_inv s.
Proof.
  induction 1 as [| s s' Hr IH Hstep]; [by repeat constructor|].
  pose proof (li_used _ (log_inv_reachable _ _ Hr)) as Hu. rewrite Forall_forall in Hu.
  destruct Hstep as [s c Hc | s r pid c wp' Hn Hp Ht | s r pid wp' Hn Ht | s t wp' b Ht Hf | s].
  - destruct IH as [Ha Hp]. constructor; cbn.
    + unfold add_command. destruct (assign_group c (state (wp s))) as [[st' c'] b] eqn:Ea.
      apply assign_group_same in Ea as (_ & _ & Hact & _). by destruct b; cbn; rewrite Hact.
    + eapply Forall_impl; [exact Hp|]. intros t Ht Hpo. destruct (Ht Hpo) as [H1 H2].
      split; [set_solver|]. rewrite fmap_app. cbn. intros [? | He%list_elem_of_singleton]%elem_of_app; [done|].
      apply Hc. by rewrite <- He.
  - apply next_cmd_cases in Ht as
      [(Hsh & -> & ->) | [(Hsh & rest & Hq & Hal & ->) | (Hsh & rest & Hq & Hal & _ & ->)]];
      rewrite Hsh; [| by apply run_inv_take..].
    destruct IH as [Ha Hpo]. constructor; [done|]. cbn. constructor.
    + intros _. split; [set_solver|]. intros (d & He & Hd)%list_elem_of_fmap. cbn in He. subst pid.
      by apply Hp, Hu.
    + eapply Forall_impl; [exact Hpo|]. set_solver.
  - apply next_cmd_none in Ht as (-> & _). destruct IH. by constructor.
  - apply notify_finished_same in Hf as (_ & _ & Hact & _). destruct IH as [Ha Hp].
    constructor; cbn [wp added started used running].
    + rewrite Hact. etrans; [apply remove_first_sublist | done].
    + rewrite Forall_forall in *. intros u Hu'%remove_first_elem. by apply Hp.
  - destruct IH. by constructor.
Qed.

(** Two lists of commands without a repeated identity *)
Lemma nodup_split {A} (l1 l2 k1 k2 : list A) x :
  NoDup (l1 ++ x :: l2) -> l1 ++ x :: l2 = k1 ++ x :: k2 -> l1 = k1.
Proof.
  revert k1. induction l1 as [| y l1 IH]; intros [| z k1] Hn He; cbn in *; [done | | |].
  - injection He as <- ->. apply NoDup_cons in Hn as [Hx _]. destruct Hx. set_solver.
  - injection He as -> <-. apply NoDup_cons in Hn as [Hx _]. destruct Hx. set_solver.
  - injection He as <- He. apply NoDup_cons in Hn as [_ Hn]. f_equal. by apply (IH k1).
Qed.

Lemma class_keys_perm l : class_keys true l ++ class_keys false l ≡ₚ key <$> l.
Proof.
  unfold class_keys. induction l as [| c l IH]; cbn; [done|].
  destruct (ordered_cmd c); cbn; [by rewrite IH|].
  by rewrite <- Permutation_middle, IH.
Qed.

Lemma sorted_barrier_head vcur (va : list (Z * Cmd)) :
  StronglySorted before va -> Forall (fun x => x.1 = vcur) va ->
  Forall (fun c => is_barrier (cmd_msg c) = false) (tail va.*2).
Proof.
  destruct va as [| x va]; [by constructor|].
  rewrite stronglysorted_cons, Forall_cons. cbn. intros [Hx _] [Ex Hall].
  rewrite Forall_fmap. rewrite Forall_forall in *. intros y Hy. cbn.
  destruct (is_barrier (cmd_msg y.2)) eqn:Eb; [| done].
  destruct (Hx y Hy) as [_ Hlt]. specialize (Hlt Eb). specialize (Hall y Hy). lia.
Qed.

Lemma live_head w vcur vnext va vb :
  group_inv w vcur vnext va vb -> group_live w vcur vnext vb -> active_commands (state w) = [] ->
  backlog w = [] \/ exists c rest, backlog w = c :: rest /\ is_allowed (state w) c = true.
Proof.
  intros Hi Hl Hact. pose proof (gi_backlog _ _ _ _ _ Hi) as Hb.
  assert (va = []) as -> by (apply fmap_nil_inv with snd; by rewrite (gi_active _ _ _ _ _ Hi), Hact).
  destruct vb as [| x vb]; [by left | right]. rewrite <- Hb. cbn. eexists _, _. split; [done|].
  apply (gi_head_allowed _ _ _ _ x _ Hi).
  pose proof (gi_range _ _ _ _ _ Hi) as Hr. apply Forall_cons in Hr as [Hr Hr'].
  destruct Hl as [? | [Hin | [-> Hemp]]]; [done | |].
  - cbn in Hin. apply elem_of_cons in Hin as [? | Hin]; [done|].
    apply list_elem_of_fmap in Hin as (y & Hy & Hin).
    pose proof (gi_sorted _ _ _ _ _ Hi) as Hs. apply stronglysorted_cons in Hs as [Hs _].
    rewrite Forall_forall in Hs. destruct (Hs y Hin) as [Hle _]. lia.
  - pose proof (gi_fresh _ _ _ _ _ Hi Hemp) as Hf. apply Forall_cons in Hf as [Hf _]. lia.
Qed.
End ThreadInvariant.

(** ** Refinement of the collection of active commands *)
Section Refinement.

Inductive call : Type :=
| CAdd (c : Cmd) | CNext (pid : nat) | CFinish (c : Cmd) | CShutdown | CEmpty.

(** What a caller of the planner observes. *)
Inductive reply : Type := RNone | RCmd (c : option Cmd) | RNotified (b : bool) | REmpty (b : bool).

Definition perform {B} `{IdentityBag Cmd B} (c : call) (w : WorkPlanner B)
    : WorkPlanner B * reply :=
  match c with
  | CAdd cmd => (add_command cmd w, RNone)
  | CNext pid => let '(o, w') := next_cmd pid w in (w', RCmd o)
  | CFinish cmd => let '(w', b) := notify_finished cmd w in (w', RNotified b)
  | CShutdown => (shutdown w, RNone)
  | CEmpty => (w, REmpty (is_empty w))
  end.

Fixpoint perform_all {B} `{IdentityBag Cmd B} (cs : list call) (w : WorkPlanner B)
    : list reply :=
  match cs with
  | [] => []
  | c :: cs' => let '(w', r) := perform c w in r :: perform_all cs' w'
  end.

Context {B : Type} `{!IdentityBag Cmd B} `{!IdentityBagLaws Cmd B}.

Record state_sim (st : State B) (st' : State (list Cmd)) : Prop := {
  sim_cur : current_group_id st = current_group_id st';
  sim_next : next_group_id st = next_group_id st';
  sim_active : bag_rep (active_commands st) (active_commands st');
  sim_meta : active_meta st = active_meta st';
  sim_classes : next_group_commands st = next_group_commands st';
  sim_shutdown : is_shutdown st = is_shutdown st' }.

Record planner_sim (w : WorkPlanner B) (w' : WorkPlanner (list Cmd)) : Prop := {
  sim_state : state_sim (state w) (state w');
  sim_backlog : backlog w = backlog w';
  sim_asap : asap_list w = asap_list w' }.

Lemma sim_assign st st' c :
  state_sim st st' ->
  exists c' b st1 st1', assign_group c st = (st1, c', b) /\ assign_group c st' = (st1', c', b)
    /\ state_sim st1 st1'.
Proof.
  destruct st, st'. intros [Hc Hn Ha Hm Hk Hs]. cbn in *. subst. unfold assign_group, join_group.
  assert (Hinc : forall a, should_increase_group (mkState current_group_id0 next_group_id0
      active_commands a next_group_commands0 is_shutdown0) (cmd_msg c)
    = should_increase_group (mkState current_group_id0 next_group_id0
      active_commands0 a next_group_commands0 is_shutdown0) (cmd_msg c)) by done.
  destruct (is_asap_class _); [by repeat eexists|].
  destruct (isinstance _ cDie); [by repeat eexists|].
  rewrite Hinc. destruct (should_increase_group _ _); by repeat eexists.
Qed.

Lemma sim_add_active st st' c :
  state_sim st st' -> state_sim (add_active_cmd c st) (add_active_cmd c st').
Proof.
  intros [Hc Hn Ha Hm Hk Hs]. constructor; cbn; try done; [by apply rep_add|]. by rewrite Hm.
Qed.

Lemma sim_remove_active st st' c :
  state_sim st st' -> state_sim (remove_active_cmd c st) (remove_active_cmd c st').
Proof.
  intros [Hc Hn Ha Hm Hk Hs]. constructor; cbn; try done; [| by rewrite Hm].
  by apply (rep_remove c) in Ha as [Ha _].
Qed.

Lemma sim_inc_group st st' : state_sim st st' -> state_sim (inc_group st) (inc_group st').
Proof.
  intros [Hc Hn Ha Hm Hk Hs]. unfold inc_group. rewrite Hc, Hn, Hs.
  by destruct (_ =? _).
Qed.

Lemma sim_next_cmd pid w w' :
  planner_sim w w' ->
  (next_cmd pid w).1 = (next_cmd pid w').1
  /\ planner_sim (next_cmd pid w).2 (next_cmd pid w').2.
Proof.
  destruct w as [st b a], w' as [st' b' a']. intros [Hs Hb Ha]. cbn in *. subst b' a'.
  assert (Hal : forall c, is_allowed_asap st c = is_allowed_asap st' c)
    by (intros c; unfold is_allowed_asap; by rewrite (sim_meta _ _ Hs)).
  assert (Hok : forall c, is_allowed st c = is_allowed st' c)
    by (intros c; unfold is_allowed; by rewrite (sim_cur _ _ Hs)).
  pose proof (fun c => sim_add_active _ _ c Hs) as Hadd.
  unfold next_cmd, create_poison. cbn. rewrite (sim_shutdown _ _ Hs), (sim_cur _ _ Hs).
  destruct (is_shutdown st'); [done|].
  destruct a as [| x a]; [| rewrite Hal; destruct (is_allowed_asap _ _); [by repeat constructor; apply Hadd |]];
    (destruct b as [| y b];
      [by repeat constructor; apply Hs
      | rewrite Hok; destruct (is_allowed _ _); by repeat constructor; (apply Hadd || apply Hs)]).
Qed.

Lemma sim_notify_finished c w w' :
  planner_sim w w' ->
  (notify_finished c w).2 = (notify_finished c w').2
  /\ planner_sim (notify_finished c w).1 (notify_finished c w').1.
Proof.
  destruct w as [st b a], w' as [st' b' a']. intros [Hs Hb Ha]. cbn in *. subst b' a'.
  pose proof (sim_remove_active _ _ c Hs) as Hr. unfold notify_finished. cbn [state backlog asap_list].
  assert (Hok : existsb (is_allowed (remove_active_cmd c st)) b
    = existsb (is_allowed (remove_active_cmd c st')) b).
  { unfold is_allowed. by rewrite (sim_cur _ _ Hr). }
  rewrite Hok, (rep_bool _ _ (sim_active _ _ Hr)).
  replace (bag_bool (active_commands (remove_active_cmd c st')))
    with (negb (bool_decide (active_commands (remove_active_cmd c st') = [])))
    by by destruct (active_commands (remove_active_cmd c st')).
  destruct (negb _); [by repeat constructor; apply Hr|].
  clear Hok. destruct (existsb _ _); [by repeat constructor; apply Hr|].
  split; [done|]. constructor; [by apply sim_inc_group | done | done].
Qed.

Lemma sim_perform c w w' :
  planner_sim w w' ->
  (perform c w).2 = (perform c w').2 /\ planner_sim (perform c w).1 (perform c w').1.
Proof.
  intros Hsim. destruct c as [c | pid | c | |]; cbn.
  - split; [done|]. destruct Hsim as [Hs Hb Ha]. unfold add_command.
    destruct (sim_assign _ _ c Hs) as (c' & b & st1 & st1' & -> & -> & Hs').
    destruct b; by constructor; cbn; rewrite ?Ha, ?Hb.
  - destruct (sim_next_cmd pid _ _ Hsim) as [He Hp].
    destruct (next_cmd pid w), (next_cmd pid w'). cbn in *. by subst.
  - destruct (sim_notify_finished c _ _ Hsim) as [He Hp].
    destruct (notify_finished c w), (notify_finished c w'). cbn in *. by subst.
  - destruct Hsim as [[] ? ?]. split; [done|]. by constructor.
  - split; [| done]. unfold is_empty. by rewrite (sim_backlog _ _ Hsim).
Qed.

Lemma sim_perform_all cs w w' : planner_sim w w' -> perform_all cs w = perform_all cs w'.
Proof.
  revert w w'. induction cs as [| c cs IH]; intros w w' Hsim; cbn; [done|].
  destruct (sim_perform c _ _ Hsim) as [He Hp].
  destruct (perform c w), (perform c w'). cbn in *. subst. f_equal. by apply IH.
Qed.

Lemma sim_init : planner_sim planner_init planner_init.
Proof. repeat constructor. cbn. apply rep_new. Qed.
End Refinement.

(** A step only adds the class of a message to [next_group_commands]. *)
Lemma classes_step s s' :
  step s s' -> cSnsOperation ∉ next_group_commands (state (wp s)) ->
  cSnsOperation ∉ next_group_commands (state (wp s')).
Proof.
  assert (Hty : forall m, type_of m <> cSnsOperation) by by intros [].
  intros Hstep Hno.
  destruct Hstep as [s c Hc | s r pid c wp' Hn Hp Ht | s r pid wp' Hn Ht | s t wp' b Ht Hf | s];
    cbn [wp]; [| | | | done].
  - specialize (Hty (cmd_msg c)). unfold add_command, assign_group, join_group.
    destruct (is_asap_class _); [done|]. destruct (isinstance _ cDie); [cbn; set_solver|].
    destruct (should_increase_group _ _); cbn; set_solver.
  - by apply next_cmd_cases in Ht as
      [(_ & _ & ->) | [(_ & rest & _ & _ & ->) | (_ & rest & _ & _ & _ & ->)]].
  - by apply next_cmd_none in Ht as (-> & _).
  - revert Hf. unfold notify_finished. destruct (bag_bool _); [by intros [= <- <-]|].
    destruct (existsb _ _); [by intros [= <- <-]|]. intros [= <- <-]. unfold inc_group. cbn.
    destruct (_ =? _); [set_solver | done].
Qed.

(** ** Executable schedules

    [exec] performs one step when it is possible; [schedule] runs a list of
    them, so a schedule ends in a reachable state. *)
Section Schedules.

Inductive action : Type :=
| AAdd (c : Cmd)
| ANext (pid : nat)          (* a runnable worker takes a command or blocks *)
| AFinish (o : nat)
| AShutdown.

Definition exec (a : action) (s : sys) : sys :=
  match a with
  | AAdd c =>
      if bool_decide (cmd_oid c ∉ used s) then mkSys (add_command c (wp s)) (running s) (runnable s + waiting s) 0
              ({[cmd_oid c]} ∪ used s) (added s ++ [c]) (started s)
      else s
  | ANext pid =>
      match runnable s, next_cmd pid (wp s) with
      | S r, (Some c, wp') =>
          if bool_decide (pid ∈ used s) then s else
          mkSys wp' (mkTask c (is_shutdown (state (wp s))) :: running s) r (waiting s)
              ({[pid]} ∪ used s) (added s)
              (if is_shutdown (state (wp s)) then started s else started s ++ [c])
      | S r, (None, wp') => mkSys wp' (running s) r (S (waiting s)) (used s) (added s) (started s)
      | O, _ => s
      end
  | AFinish o =>
      match List.find (fun t => (task_oid t =? o)%nat) (running s) with
      | Some t =>
          let '(wp', notified) := notify_finished (task_cmd t) (wp s) in
          mkSys wp' (remove_first (fun u => (task_oid u =? task_oid t)%nat) (running s))
            (runnable s + (if is_die (cmd_msg (task_cmd t)) then 0 else 1)
               + (if notified then waiting s else 0))
            (if notified then 0%nat else waiting s) (used s) (added s) (started s)
      | None => s
      end
  | AShutdown =>
      mkSys (shutdown (wp s)) (running s) (runnable s + waiting s) 0 (used s) (added s) (started s)
  end.

Definition schedule (n : nat) (l : list action) : sys := foldl (fun s a => exec a s) (sys_init n) l.

Lemma exec_step a s : exec a s = s \/ step s (exec a s).
Proof.
  destruct a as [c | pid | o |]; cbn [exec].
  - case_bool_decide; [right | by left]. by apply step_add.
  - destruct (runnable s) as [| r] eqn:Er; [by left|].
    destruct (next_cmd pid (wp s)) as [[c |] wp'] eqn:En.
    + destruct (bool_decide _) eqn:Ep; [by left | right]. apply bool_decide_eq_false in Ep.
      by eapply step_take.
    + right. by eapply step_wait.
  - destruct (List.find _ _) as [t |] eqn:Ef; [right | by left].
    apply find_some in Ef as [Ht _]. apply list_elem_of_In in Ht.
    destruct (notify_finished _ _) as [wp' b] eqn:En. by eapply step_finish.
  - right. apply step_shutdown.
Qed.

Lemma exec_reachable n a s : reachable n s -> reachable n (exec a s).
Proof. intros Hr. destruct (exec_step a s) as [-> | ?]; [done | by eapply reach_step]. Qed.

(** The backlog stays short along the schedule. *)
Fixpoint calm_schedule (l : list action) (s : sys) : bool :=
  match l with
  | [] => true
  | a :: l' => (Z.of_nat (length (backlog (wp (exec a s)))) <=? MAX_GROUP_ID)
               && calm_schedule l' (exec a s)
  end.

Lemma schedule_calm n l : calm_schedule l (sys_init n) = true -> calm_reachable n (schedule n l).
Proof.
  unfold schedule. assert (Hs : calm_reachable n (sys_init n)) by constructor.
  revert Hs. generalize (sys_init n). induction l as [| a l IH]; intros s Hs Hc; cbn in *; [done|].
  apply andb_true_iff in Hc as [Ha%Z.leb_le Hc]. apply IH; [| done].
  destruct (exec_step a s) as [E | Hstep]; [by rewrite E | by eapply calm_step].
Qed.

Lemma schedule_reachable n l : reachable n (schedule n l).
Proof.
  unfold schedule. assert (Hs : reachable n (sys_init n)) by constructor.
  revert Hs. generalize (sys_init n). induction l as [| a l IH]; intros s Hs; cbn; [done|].
  by apply IH, exec_reachable.
Qed.
End Schedules.

(** ** What is being executed *)
Section Executing.

Lemma running_active s t :
  thread_inv s -> t ∈ running s -> poison t = false -> task_cmd t ∈ active_commands (state (wp s)).
Proof.
  intros Hi Ht Hp. rewrite (ti_active _ Hi). apply list_elem_of_fmap. exists t. split; [done|].
  apply list_elem_of_In, filter_In. split; [by apply list_elem_of_In | unfold live; by rewrite Hp].
Qed.

Lemma running_ordered n s t :
  reachable n s -> t ∈ running s -> poison t = false /\ ordered_cmd (task_cmd t) = true ->
  task_cmd t ∈ rev (List.filter ordered_cmd (active_commands (state (wp s)))).
Proof.
  intros Hr Ht [Hp Ho]. rewrite list_elem_of_In, <- in_rev, filter_In, <- list_elem_of_In.
  split; [| done]. by apply running_active; [apply (thread_inv_reachable n) | |].
Qed.

(** The ordered commands that were started are a beginning of those added, and
    the active ones a part of them, both in order. *)
Lemma ordered_logs n s :
  reachable n s ->
  class_keys true (started s) ++ (key <$> backlog (wp s)) = class_keys true (added s)
  /\ rev (List.filter ordered_cmd (active_commands (state (wp s))))
       `sublist_of` List.filter ordered_cmd (started s)
  /\ NoDup (fst <$> class_keys true (added s)).
Proof.
  intros Hr. destruct (log_inv_reachable _ _ Hr) as [Hb Ha Hn _]. split; [done|]. split.
  - rewrite <- (rev_involutive (started s)), filter_rev. apply sublist_rev, sublist_filter_bool.
    apply (ri_active _ (run_inv_reachable _ _ Hr)).
  - eapply sublist_NoDup; [exact Hn|]. unfold class_keys. rewrite <- list_fmap_compose.
    change (fst ∘ key) with cmd_oid. apply fmap_sublist. generalize (added s). intros l.
    induction l as [| c l IH]; cbn; [done|]. destruct (Bool.eqb _ _); [by apply sublist_skip | by apply sublist_cons].
Qed.

Lemma class_keys_elem b l k : k ∈ class_keys b l <-> exists c, c ∈ l /\ ordered_cmd c = b /\ key c = k.
Proof.
  unfold class_keys. rewrite list_elem_of_fmap. setoid_rewrite list_elem_of_In.
  setoid_rewrite filter_In. setoid_rewrite eqb_true_iff. naive_solver.
Qed.

(** A command of the one class is not found among the keys of the other. *)
Lemma class_keys_apart n s d a :
  reachable n s -> d ∈ added s -> ordered_cmd d = true -> key a ∈ class_keys false (added s) ->
  cmd_oid d <> cmd_oid a.
Proof.
  intros Hr Hd Ho (d' & Hd' & Ho' & [= Hk _])%class_keys_elem He.
  assert (d' = d) as ->; [| congruence].
  apply (nodup_fmap_eq cmd_oid (added s)); [apply (log_inv_reachable _ _ Hr) | done | done | congruence].
Qed.

Lemma barrier_is_oldest n s c :
  reachable n s -> c ∈ rev (List.filter ordered_cmd (active_commands (state (wp s)))) ->
  is_barrier (cmd_msg c) = true ->
  exists tl, rev (List.filter ordered_cmd (active_commands (state (wp s)))) = c :: tl.
Proof.
  intros Hr Hc Hb. destruct (grouped_reachable _ _ Hr) as (vcur & vnext & va & vb & Hi).
  rewrite <- (gi_active _ _ _ _ _ Hi) in *.
  pose proof (gi_sorted _ _ _ _ _ Hi) as [Hs _]%stronglysorted_app_inv.
  pose proof (sorted_barrier_head _ _ Hs (gi_active_cur _ _ _ _ _ Hi)) as Ht.
  destruct va.*2 as [| x tl]; [set_solver|]. apply elem_of_cons in Hc as [-> | Hc]; [by exists tl|].
  cbn in Ht. rewrite Forall_forall in Ht. by rewrite (Ht c Hc) in Hb.
Qed.

(** Where a barrier that is being executed stands in the logs: the commands that were added
    to the backlog before it are those started before it, and no ordered command
    that runs was started before it. *)
Lemma barrier_in_logs n s t a1 c a2 :
  reachable n s -> t ∈ running s -> poison t = false /\ ordered_cmd (task_cmd t) = true ->
  is_barrier (cmd_msg (task_cmd t)) = true -> added s = a1 ++ c :: a2 -> cmd_oid c = task_oid t ->
  exists s1 s2 tl, List.filter ordered_cmd (started s) = s1 ++ task_cmd t :: s2
    /\ class_keys true a1 = key <$> s1
    /\ rev (List.filter ordered_cmd (active_commands (state (wp s)))) = task_cmd t :: tl
    /\ tl `sublist_of` s2.
Proof.
  intros Hr Ht Ho Hb Hadd Hc. destruct (ordered_logs _ _ Hr) as (Hkeys & Hsub & Hnd).
  destruct (barrier_is_oldest _ _ _ Hr (running_ordered _ _ _ Hr Ht Ho) Hb) as [tl Htl].
  rewrite Htl in Hsub. apply sublist_cons_l in Hsub as (s1 & s2 & Hst & Htl2).
  assert (Hs : class_keys true (started s) = key <$> (s1 ++ task_cmd t :: s2)).
  { rewrite <- Hst. unfold class_keys. f_equal. apply List.filter_ext. intros x. by destruct (ordered_cmd x). }
  exists s1, s2, tl. split; [done|]. split; [| done].
  rewrite Hs, fmap_app in Hkeys. cbn in Hkeys. rewrite <- app_assoc in Hkeys. cbn in Hkeys.
  assert (Hk : key (task_cmd t) ∈ class_keys true (added s)) by (rewrite <- Hkeys; set_solver).
  apply class_keys_elem in Hk as (c' & Hc' & Hoc & Hkc).
  assert (c' = c) as ->.
  { apply (nodup_fmap_eq cmd_oid (added s)); [apply (log_inv_reachable _ _ Hr) | done | rewrite Hadd; set_solver |].
    injection Hkc as -> _. by rewrite Hc. }
  assert (Ha : class_keys true (added s) = class_keys true a1 ++ key (task_cmd t) :: class_keys true a2).
  { rewrite Hadd. unfold class_keys. rewrite List.filter_app, fmap_app. cbn. by rewrite Hoc, <- Hkc. }
  rewrite Ha in Hkeys, Hnd. symmetry. eapply nodup_split; [| exact Hkeys].
  rewrite Hkeys. by apply NoDup_fmap_1 in Hnd.
Qed.

(** A task that is executed was started. *)
Lemma running_started n s u :
  reachable n s -> u ∈ running s -> poison u = false -> task_cmd u ∈ started s.
Proof.
  intros Hr Hu Hp. pose proof (running_active _ _ (thread_inv_reachable _ _ Hr) Hu Hp) as Ha.
  rewrite list_elem_of_In, in_rev, <- list_elem_of_In.
  eapply elem_of_submseteq; [exact Ha|]. apply sublist_submseteq, (ri_active _ (run_inv_reachable _ _ Hr)).
Qed.

Lemma barrier_after_all n s t a1 c a2 d :
  reachable n s -> t ∈ running s -> poison t = false /\ ordered_cmd (task_cmd t) = true ->
  is_barrier (cmd_msg (task_cmd t)) = true -> added s = a1 ++ c :: a2 -> cmd_oid c = task_oid t ->
  d ∈ a1 -> ordered_cmd d = true ->
  cmd_oid d ∉ (task_oid <$> running s)
  /\ cmd_oid d ∉ (cmd_oid <$> backlog (wp s)) /\ cmd_oid d ∉ (cmd_oid <$> asap_list (wp s)).
Proof.
  intros Hr Ht Ho Hb Hadd Hc Hd Hod.
  destruct (barrier_in_logs _ _ _ _ _ _ Hr Ht Ho Hb Hadd Hc) as (s1 & s2 & tl & Hst & Hk & Htl & Hsub).
  destruct (ordered_logs _ _ Hr) as (Hkeys & _ & Hnd).
  assert (Hs : class_keys true (started s) = key <$> (s1 ++ task_cmd t :: s2)).
  { rewrite <- Hst. unfold class_keys. f_equal. apply List.filter_ext. intros x. by destruct (ordered_cmd x). }
  rewrite <- Hkeys, Hs, !fmap_app, <- !list_fmap_compose in Hnd. change (fst ∘ key) with cmd_oid in Hnd.
  assert (Hd1 : cmd_oid d ∈ cmd_oid <$> s1).
  { change cmd_oid with (fst ∘ key). rewrite list_fmap_compose, <- Hk. apply list_elem_of_fmap.
    exists (key d). split; [done|]. apply class_keys_elem. eauto. }
  assert (Hda : d ∈ added s) by (rewrite Hadd; set_solver).
  destruct (log_inv_reachable _ _ Hr) as [_ Hasap _ _].
  rewrite NoDup_app, NoDup_app in Hnd. destruct Hnd as ((_ & Hn1 & _) & Hn2 & _). cbn in Hn1, Hn2.
  split_and!.
  - intros (u & He & Hu)%list_elem_of_fmap. destruct (poison u) eqn:Ep.
    { pose proof (ri_poison _ (run_inv_reachable _ _ Hr)) as Hp. rewrite Forall_forall in Hp.
      destruct (Hp u Hu Ep) as [_ Hno]. apply Hno. rewrite <- He. by apply (list_elem_of_fmap_2 cmd_oid). }
    pose proof (running_started _ _ _ Hr Hu Ep) as Hus. destruct (ordered_cmd (task_cmd u)) eqn:Eo.
    + pose proof (running_ordered _ _ _ Hr Hu (conj Ep Eo)) as Hin. rewrite Htl in Hin.
      apply (Hn1 _ Hd1). rewrite He. apply elem_of_cons in Hin as [E | Hin]; [unfold task_oid; rewrite E; by left|].
      right. apply (list_elem_of_fmap_2 cmd_oid). by eapply elem_of_submseteq, sublist_submseteq.
    + eapply class_keys_apart; [exact Hr | exact Hda | exact Hod | | exact He].
      rewrite <- Hasap. apply elem_of_app. left. apply class_keys_elem. eauto.
  - apply Hn2. set_solver.
  - intros (a & He & Ha)%list_elem_of_fmap.
    eapply class_keys_apart; [exact Hr | exact Hda | exact Hod | | exact He].
    rewrite <- Hasap. apply elem_of_app. right. by apply list_elem_of_fmap_2.
Qed.
End Executing.

(** ** The claims *)

(** A task that went through [backlog]. *)
Definition ordered_task (t : Task) : Prop := poison t = false /\ ordered_cmd (task_cmd t) = true.

(** Neither queued nor being executed. *)
Definition gone (s : sys) (c : Cmd) : Prop :=
  cmd_oid c ∉ (task_oid <$> running s)
  /\ cmd_oid c ∉ (cmd_oid <$> backlog (wp s)) /\ cmd_oid c ∉ (cmd_oid <$> asap_list (wp s)).

(** C1: in every interleaving of the calls of the planner, every command a worker is
    executing that went through [backlog] belongs to the current group; and while
    a [BroadcastHAStates] or [ProcessHaEvent] is being executed, everything that was
    added to the backlog before it has been executed to the end: it is neither
    queued nor running. *)
Theorem groups_are_barriers n s t :
  reachable n s -> t ∈ running s -> ordered_task t ->
  group (task_cmd t) = Some (current_group_id (state (wp s)))
  /\ (is_barrier (cmd_msg (task_cmd t)) = true ->
      forall a1 c a2 d, added s = a1 ++ c :: a2 -> cmd_oid c = task_oid t ->
        d ∈ a1 -> ordered_cmd d = true -> gone s d).
Proof.
  intros Hr Ht Ho. pose proof (running_ordered _ _ _ Hr Ht Ho) as Hin.
  destruct (grouped_reachable _ _ Hr) as (vcur & vnext & va & vb & Hi). split.
  - pose proof (gi_groups _ _ _ _ _ Hi) as [Hg _]%Forall_app.
    pose proof (gi_active_cur _ _ _ _ _ Hi) as Hcur.
    rewrite <- (gi_active _ _ _ _ _ Hi) in Hin. apply list_elem_of_fmap in Hin as (x & -> & Hx).
    rewrite Forall_forall in Hg, Hcur. by rewrite (Hg x Hx), (gi_cur _ _ _ _ _ Hi), (Hcur x Hx).
  - intros Hb a1 c a2 d. by eapply barrier_after_all.
Qed.

(** C2: no deadlock, as long as [backlog] never held more than [MAX_GROUP_ID]
    commands.  When every worker left alive is blocked in [get_next_command] and
    no command is being executed, there is nothing to do: both queues are empty and
    no shutdown was requested. *)
Theorem no_deadlock n s :
  calm_reachable n s ->
  waiting s <> 0%nat -> runnable s = 0%nat -> running s = [] ->
  backlog (wp s) = [] /\ asap_list (wp s) = [] /\ is_shutdown (state (wp s)) = false.
Proof.
  intros Hc Hw Hn Hrun. pose proof (thread_inv_reachable _ _ (calm_is_reachable _ _ Hc)) as Hi.
  destruct (calm_grouped_live _ _ Hc) as [(vcur & vnext & va & vb & Hg & Hl) _].
  assert (Hact : active_commands (state (wp s)) = []) by by rewrite (ti_active _ Hi), Hrun.
  repeat split.
  - destruct (live_head _ _ _ _ _ Hg Hl Hact) as [? | (c & rest & Hb & Hal)]; [done|].
    by rewrite (ti_wait_backlog _ Hi Hw _ _ Hb) in Hal.
  - destruct (asap_list (wp s)) as [| a l] eqn:Ea; [done|].
    destruct (ti_wait_asap _ Hi Hw a l Ea) as [? | (t & Ht & _)]; [| done |].
    + apply allowed_asap_spec. intros m k v _ (c & Hc' & _)%(ti_meta _ Hi).
      rewrite Hact in Hc'. set_solver.
    + rewrite Hrun in Ht. set_solver.
  - destruct (is_shutdown _) eqn:Es; [| done]. by rewrite (ti_shutdown _ Hi Es) in Hw.
Qed.

(** C30: two [ProcessEvent]s that workers execute at the same time are about
    different processes. *)
Theorem one_event_per_process n s t1 t2 e1 e2 :
  reachable n s ->
  t1 ∈ running s -> t2 ∈ running s -> t1 <> t2 ->
  cmd_msg (task_cmd t1) = ProcessEvent e1 -> cmd_msg (task_cmd t2) = ProcessEvent e2 ->
  chp_fid e1 <> chp_fid e2.
Proof.
  intros Hi%thread_inv_reachable H1 H2 Hne E1 E2 Hf. apply Hne.
  assert (Hact : forall t e, t ∈ running s -> cmd_msg (task_cmd t) = ProcessEvent e ->
    task_cmd t ∈ active_commands (state (wp s))).
  { intros t e Ht Et. apply (running_active _ _ Hi Ht). destruct (poison t) eqn:Ep; [| done].
    pose proof (ti_poison _ Hi t Ht Ep) as Hd. by rewrite Et in Hd. }
  pose proof (ti_nodup _ Hi) as Hnd. apply NoDup_app in Hnd as [Hnd _].
  apply (nodup_fmap_eq task_oid (running s)); [done | done | done |].
  apply (ti_one_event _ Hi (task_cmd t1) (task_cmd t2) (mkMeta (chp_fid e1)) (mkMeta (chp_fid e2)));
    [by eapply Hact | by eapply Hact | by rewrite E1 | by rewrite E2 | done].
Qed.

(** C29: commands are started in the order they were added, separately for the
    two queues; none is lost (what was not started is still queued) and none is
    started twice. *)
Theorem commands_start_in_order n s :
  reachable n s ->
  class_keys true (started s) ++ (key <$> backlog (wp s)) = class_keys true (added s)
  /\ class_keys false (started s) ++ (key <$> asap_list (wp s)) = class_keys false (added s)
  /\ NoDup (cmd_oid <$> started s).
Proof.
  intros [Hb Ha Hn _]%log_inv_reachable. split; [done|]. split; [done|].
  assert (Hp : (fst <$> (key <$> started s))
    ++ (fst <$> ((key <$> backlog (wp s)) ++ (key <$> asap_list (wp s))))
    ≡ₚ fst <$> (key <$> added s)).
  { rewrite <- (class_keys_perm (started s)), <- (class_keys_perm (added s)), <- Ha, <- Hb.
    rewrite <- fmap_app. apply fmap_Permutation. solve_Permutation. }
  rewrite <- !list_fmap_compose in Hp. change (fst ∘ key) with cmd_oid in Hp.
  rewrite <- Hp in Hn. by apply NoDup_app in Hn as [Hn _].
Qed.

(** The planner that keeps its active commands in the linked list of
    [motr/util.py] answers every sequence of calls as the one that keeps them in
    a list: the same commands, the same wake-ups. *)
Theorem planner_over_linked_list (cs : list call) :
  perform_all cs (planner_init : WorkPlanner (@LinkedList Cmd))
  = perform_all cs (planner_init : WorkPlanner (list Cmd)).
Proof. apply sim_perform_all, sim_init. Qed.

(** An SNS operation never starts a group of its own: the
    test [SnsOperation in next_group_commands] is made on exact classes, and the
    classes recorded are those of the concrete messages, so in every reachable
    state an SNS operation joins the group under construction. *)
Theorem sns_operation_joins_group n s m :
  reachable n s -> isinstance m cSnsOperation = true ->
  should_increase_group (state (wp s)) m = false.
Proof.
  intros Hr Hm. assert (Hno : cSnsOperation ∉ next_group_commands (state (wp s))).
  { clear m Hm. induction Hr as [| s s' _ IH Hstep]; [set_solver|]. by apply (classes_step s). }
  unfold should_increase_group. destruct (bool_decide (_ = ∅)); [done|].
  destruct m; try done; cbn; by apply bool_decide_eq_false.
Qed.

(** A command that becomes eligible need not wake a blocked worker.  In a
    reachable state of three workers one is blocked, none is about to ask for a
    command, and the head of [asap_list] is allowed: [notify_finished] returned
    before [notifyAll] because another command was active. *)
Theorem eligible_command_not_woken :
  exists s c rest, reachable 3 s /\ waiting s = 1%nat /\ runnable s = 0%nat
    /\ asap_list (wp s) = c :: rest /\ is_allowed_asap (state (wp s)) c = true.
Proof.
  set (f := mkFid 1 1). set (pe o := mkCmd o (ProcessEvent (mkConfHaProcess 0 0 0 f)) None).
  set (s := schedule 3 [AAdd (pe 1%nat); ANext 11; AAdd (mkCmd 2 (BroadcastHAStates [] None) None);
    ANext 12; AAdd (pe 3%nat); AAdd (mkCmd 4 (HaNvecGetEvent 0 []) None); ANext 13;
    AFinish 1; ANext 14]).
  exists s. eexists _, _. split; [apply schedule_reachable|]. by repeat split.
Qed.

(** ** The group ids wrap around

    [add_command] accepts any number of commands, but a group is known only by its
    id modulo [NGROUPS]. *)
Section Aliasing.

Definition broadcast_cmd (i : nat) : Cmd := mkCmd i (BroadcastHAStates [] None) None.
Definition grouped_cmd (i : nat) : Cmd :=
  mkCmd i (BroadcastHAStates [] None) (Some (Z.of_nat i mod NGROUPS)).

(** [k] broadcasts are queued, each in a group of its own. *)
Definition loaded (k : nat) : sys :=
  mkSys (mkWorkPlanner (mkState 0 ((Z.of_nat k - 1) mod NGROUPS) [] ∅ {[cBroadcastHAStates]} false)
           (grouped_cmd <$> seq 0 k) [])
    [] 1 0 (list_to_set (seq 0 k)) (broadcast_cmd <$> seq 0 k) [].

Lemma loaded_next k : (1 <= k)%nat ->
  mkSys (add_command (broadcast_cmd k) (wp (loaded k))) [] 1 0
    ({[k]} ∪ list_to_set (seq 0 k)) ((broadcast_cmd <$> seq 0 k) ++ [broadcast_cmd k]) []
  = loaded (S k).
Proof.
  intros Hk. unfold loaded. rewrite seq_S, !fmap_app. cbn [plus fmap list_fmap].
  unfold add_command, assign_group. cbn [wp state backlog asap_list is_asap_class cmd_msg broadcast_cmd isinstance].
  assert (Hi : should_increase_group (mkState (B := list Cmd) 0 ((Z.of_nat k - 1) mod NGROUPS) [] ∅
    {[cBroadcastHAStates]} false) (BroadcastHAStates [] None) = true).
  { apply barrier_increases; [done|]. cbn. set_solver. }
  cbn. rewrite Hi. unfold join_group, next_group, set_group, grouped_cmd. cbn [current_group_id next_group_id
    active_commands active_meta next_group_commands is_shutdown cmd_oid cmd_msg broadcast_cmd type_of].
  rewrite get_increased_group_mod, union_empty_r_L.
  replace (Z.of_nat (S k) - 1) with (Z.of_nat k - 1 + 1) by lia.
  replace (Z.of_nat k - 1 + 1) with (Z.of_nat k) by lia. f_equal.
  apply set_eq. intros x. rewrite list_to_set_app_L. set_solver.
Qed.

Lemma loaded_reachable k : (1 <= k)%nat -> reachable 1 (loaded k).
Proof.
  induction k as [| k IH]; [lia|]. intros _. destruct (decide (k = 0%nat)) as [-> |].
  - replace (loaded 1) with (exec (AAdd (broadcast_cmd 0)) (sys_init 1)) by by vm_compute.
    apply exec_reachable. constructor.
  - rewrite <- loaded_next by lia. eapply reach_step; [apply IH; lia|].
    apply (step_add (loaded k) (broadcast_cmd k)). cbn. intros Hin.
    apply elem_of_list_to_set, elem_of_seq in Hin. lia.
Qed.

(** Beyond [MAX_GROUP_ID] queued groups the planner stops for good.  With
    [NGROUPS + 1] broadcasts in the backlog, the last one has the id of the first:
    when the first is finished, [notify_finished] takes the last one for a command
    of the current group and does not go on to the next group, whose command is at
    the head of the backlog.  The only worker waits, nothing is executed, and the
    backlog is not empty. *)
Theorem aliased_group_deadlock :
  exists s, reachable 1 s /\ waiting s = 1%nat /\ runnable s = 0%nat /\ running s = []
    /\ length (backlog (wp s)) = Z.to_nat NGROUPS /\ is_shutdown (state (wp s)) = false.
Proof.
  set (n := Z.to_nat NGROUPS). assert (Hn : Z.of_nat n = NGROUPS) by (unfold n, NGROUPS, MAX_GROUP_ID; lia).
  assert (Hpos : 2 < NGROUPS) by (unfold NGROUPS, MAX_GROUP_ID; lia). clearbody n.
  destruct n as [| [| m]]; [lia | lia |].
  pose proof (loaded_reachable (S (S (S m))) ltac:(lia)) as Hr.
  set (g := (Z.of_nat (S (S (S m))) - 1) mod NGROUPS) in Hr.
  set (rest := grouped_cmd <$> seq 1 (S (S m))).
  set (mk act := mkState (B := list Cmd) 0 g act ∅ {[cBroadcastHAStates]} false).
  assert (H0 : is_allowed (mk []) (grouped_cmd 0) = true) by (by apply bool_decide_eq_true).
  assert (Hrest : exists c, rest = grouped_cmd 1 :: c) by by eexists.
  assert (Hlast : existsb (is_allowed (mk [])) rest = true).
  { apply existsb_exists. exists (grouped_cmd (S (S m))). split.
    - apply list_elem_of_In, list_elem_of_fmap. exists (S (S m)). split; [done|]. apply elem_of_seq. lia.
    - apply bool_decide_eq_true. unfold grouped_cmd. cbn [group mk current_group_id]. rewrite Hn. by rewrite Z_mod_same_full. }
  assert (H1 : is_allowed (mk []) (grouped_cmd 1) = false).
  { apply bool_decide_eq_false. unfold grouped_cmd. cbn [group mk current_group_id].
    change (Z.of_nat 1) with 1. by rewrite Z.mod_1_l by lia. }
  assert (Hlen : length rest = S (S m)) by (unfold rest; by rewrite length_fmap, length_seq).
  unfold loaded in Hr. change (grouped_cmd <$> seq 0 (S (S (S m)))) with (grouped_cmd 0 :: rest) in Hr.
  fold g in Hr. fold (mk []) in Hr. revert Hr.
  generalize (broadcast_cmd <$> seq 0 (S (S (S m)))). generalize (list_to_set (C := gset nat) (seq 0 (S (S (S m))))).
  intros u a Hr. clearbody rest g.
  set (pid := fresh u). assert (Hp : pid ∉ u) by apply is_fresh.
  set (t := mkTask (grouped_cmd 0) false).
  assert (Hr2 : reachable 1 (mkSys (mkWorkPlanner (mk [grouped_cmd 0]) rest []) [t] 0 0 ({[pid]} ∪ u) a [grouped_cmd 0])).
  { eapply reach_step; [exact Hr|].
    apply (step_take (mkSys (mkWorkPlanner (mk []) (grouped_cmd 0 :: rest) []) [] 1 0 u a []) 0 pid (grouped_cmd 0));
      [done | done |]. unfold next_cmd. cbn [wp state asap_list backlog is_shutdown mk]. fold (mk []). by rewrite H0. }
  assert (Hr3 : reachable 1 (mkSys (mkWorkPlanner (mk []) rest []) [] 1 0 ({[pid]} ∪ u) a [grouped_cmd 0])).
  { pose proof (step_finish (mkSys (mkWorkPlanner (mk [grouped_cmd 0]) rest []) [t] 0 0 ({[pid]} ∪ u) a [grouped_cmd 0]) t
      (mkWorkPlanner (mk []) rest []) false ltac:(by left)) as Hstep.
    cbn zeta in Hstep. cbn [running runnable waiting used added started] in Hstep.
    replace (remove_first _ [t]) with (@nil Task) in Hstep by done.
    eapply reach_step; [exact Hr2 | apply Hstep].
    unfold notify_finished. change (remove_active_cmd (task_cmd t) _) with (mk []). cbn [bag_bool active_commands mk].
    cbn [wp backlog asap_list]. fold (mk []). by rewrite Hlast. }
  eexists. split.
  - eapply reach_step; [exact Hr3|].
    apply (step_wait (mkSys (mkWorkPlanner (mk []) rest []) [] 1 0 ({[pid]} ∪ u) a [grouped_cmd 0]) 0 0
      (mkWorkPlanner (mk []) rest [])); [done|].
    destruct Hrest as [r ->]. unfold next_cmd. cbn [wp state asap_list backlog is_shutdown mk]. fold (mk []). by rewrite H1.
  - by split_and!.
Qed.
End Aliasing.

(** ** Witnesses *)
Section Witnesses.

Definition fid_a : Fid := mkFid 1 1.
Definition proc_event (f : Fid) : BaseMessage := ProcessEvent (mkConfHaProcess 0 0 0 f).
Definition cmd (o : nat) (m : BaseMessage) : Cmd := mkCmd o m None.
Definition bcast : BaseMessage := BroadcastHAStates [] None.

(** Two broadcasts and a process event are added; one worker takes the event,
    one the first broadcast, the third blocks. *)
Definition busy : sys :=
  schedule 3 [AAdd (cmd 1 bcast); AAdd (cmd 2 bcast); AAdd (cmd 3 (proc_event fid_a));
              ANext 11; ANext 12; ANext 13].

(** One broadcast is executed to its end; the worker then blocks. *)
Definition idle : sys := schedule 1 [AAdd (cmd 1 bcast); ANext 11; AFinish 1; ANext 12].

Definition busy_bcast : Task := mkTask (mkCmd 2 bcast (Some 1)) false.

(** The second broadcast is executed: the first one is gone. *)
Definition second_running : sys :=
  schedule 3 [AAdd (cmd 1 bcast); AAdd (cmd 2 bcast); ANext 11; AFinish 1; ANext 12].

Lemma groups_are_barriers_witness :
  busy_bcast ∈ running second_running /\ group (task_cmd busy_bcast) = Some (current_group_id (state (wp second_running)))
  /\ added second_running = [cmd 1 bcast; cmd 2 bcast] /\ gone second_running (cmd 1 bcast).
Proof.
  assert (Hin : busy_bcast ∈ running second_running) by (vm_compute; left).
  destruct (groups_are_barriers 3 second_running busy_bcast) as [Hg Hb];
    [apply schedule_reachable | exact Hin | split; reflexivity |].
  split; [exact Hin|]. split; [exact Hg|]. split; [reflexivity|].
  by apply (Hb eq_refl [cmd 1 bcast] (cmd 2 bcast) [] (cmd 1 bcast)); [| | left |].
Defined.

Lemma no_deadlock_witness : waiting idle = 1%nat /\ backlog (wp idle) = [].
Proof.
  split; [reflexivity|].
  apply (no_deadlock 1 idle);
    [apply schedule_calm; reflexivity | discriminate | reflexivity | reflexivity].
Defined.

Definition fid_b : Fid := mkFid 1 2.

(** Events of two processes are executed, a second one of the first waits. *)
Definition two_events : sys :=
  schedule 3 [AAdd (cmd 1 (proc_event fid_a)); AAdd (cmd 2 (proc_event fid_b));
              AAdd (cmd 3 (proc_event fid_a)); ANext 11; ANext 12; ANext 13].

Lemma one_event_per_process_witness :
  task_oid <$> running two_events = [2%nat; 1%nat]
  /\ cmd_oid <$> asap_list (wp two_events) = [3%nat] /\ fid_a <> fid_b.
Proof.
  split; [reflexivity|]. split; [reflexivity|].
  apply (one_event_per_process 3 two_events (mkTask (mkCmd 1 (proc_event fid_a) (Some 0)) false)
    (mkTask (mkCmd 2 (proc_event fid_b) (Some 0)) false)
    (mkConfHaProcess 0 0 0 fid_a) (mkConfHaProcess 0 0 0 fid_b));
    [apply schedule_reachable | vm_compute; right; left | vm_compute; left
    | discriminate | reflexivity | reflexivity].
Defined.

Lemma commands_start_in_order_witness :
  cmd_oid <$> started busy = [3%nat; 1%nat] /\ NoDup (cmd_oid <$> started busy).
Proof.
  split; [reflexivity|]. apply (commands_start_in_order 3 busy). apply schedule_reachable.
Defined.

Lemma sns_operation_joins_group_witness :
  next_group_commands (state (wp (schedule 1 [AAdd (cmd 1 (SnsRepairStart fid_a))])))
    = {[cSnsRepairStart]}
  /\ should_increase_group (state (wp (schedule 1 [AAdd (cmd 1 (SnsRepairStart fid_a))])))
       (SnsRebalanceStart fid_a) = false.
Proof.
  split; [vm_compute; reflexivity|].
  apply (sns_operation_joins_group 1); [apply schedule_reachable | reflexivity].
Defined.
End Witnesses.
