(* ===== verification/Delivery.v ===== *)
(** * The delivery herald ([src/hax/hax/motr/delivery.py])

    [DeliveryHerald] lets a thread wait until Motr confirms the delivery of the
    messages of a promise.  Promises are objects compared by identity and their
    id sets are mutable, so they live in a heap, [promise_heap].  The operations
    below are the bodies executed under [self.lock]; [hstep] interleaves the
    threads that call them.  [get_now_ts()] is the argument [now]. *)

From S2P Require Import Prelude HaxTypes.

Definition MAX_UNSORTED_TTL : Z := 10000.

Record Herald : Type := mkHerald {
  recently_delivered : gmap nat (list MessageId);
  waiting_clients : list (nat * nat);              (* promise, condition; a dict in order *)
  unsorted_deliveries : list (MessageId * Z);      (* message, timestamp; a dict in order *)
  unsorted_ttl : Z;
  promise_heap : gmap nat promise_ids }.

Definition herald_init (ttl : Z) : Herald := mkHerald ∅ [] [] ttl ∅.

(** [d[k] = v] and [del d[k]] on the ordered dicts. *)
Fixpoint alist_set {K V} `{EqDecision K} (k : K) (v : V) (l : list (K * V)) : list (K * V) :=
  match l with
  | [] => [(k, v)]
  | (k', v') :: l' => if decide (k = k') then (k', v) :: l' else (k', v') :: alist_set k v l'
  end.

Definition alist_del {K V} `{EqDecision K} (k : K) (l : list (K * V)) : list (K * V) :=
  List.filter (fun x => negb (bool_decide (x.1 = k))) l.

Definition promise_of (p : nat) (h : Herald) : promise_ids := default ∅ (promise_heap h !! p).

Section Operations.

Definition verify_delivered (promise : nat) : M Herald unit := fun h =>
  if negb (existsb (fun x => bool_decide (x.1 = promise)) (waiting_clients h))
  then (Raise (KeyError "promise"), h)
  else
    let h1 := mkHerald (recently_delivered h) (alist_del promise (waiting_clients h))
                (unsorted_deliveries h) (unsorted_ttl h) (promise_heap h) in
    match recently_delivered h1 !! promise with
    | None => (Raise NotDelivered, h1)
    | Some confirmed_msgs =>
        (Ret tt, mkHerald (delete promise (recently_delivered h1)) (waiting_clients h1)
                   (unsorted_deliveries h1) (unsorted_ttl h1)
                   (<[promise := exclude_ids (promise_of promise h1) confirmed_msgs]>
                      (promise_heap h1)))
    end.

Definition groom_unsorted (now : Z) (promise : nat) (h : Herald) : Herald :=
  let too_old (ts : Z) := now - ts >? unsorted_ttl h in
  let ids := promise_of promise h in
  let delivered := (List.filter (fun x => promise_contains ids x.1) (unsorted_deliveries h)).*1 in
  let to_remove (x : MessageId * Z) := promise_contains ids x.1 || too_old x.2 in
  mkHerald
    (match delivered with
     | [] => recently_delivered h
     | _ => <[promise := delivered]> (recently_delivered h)
     end)
    (waiting_clients h)
    (List.filter (fun x => negb (to_remove x)) (unsorted_deliveries h))
    (unsorted_ttl h) (promise_heap h).

(** The first critical section of [wait_for_any] and [wait_for_all]; the
    boolean is [skip_await]. *)
Definition wait_begin (now : Z) (promise condition : nat) (h : Herald) : Herald * bool :=
  let h1 := groom_unsorted now promise h in
  (mkHerald (recently_delivered h1) (alist_set promise condition (waiting_clients h1))
     (unsorted_deliveries h1) (unsorted_ttl h1) (promise_heap h1),
   bool_decide (is_Some (recently_delivered h1 !! promise))).

(** The second critical section of [wait_for_any]. *)
Definition wait_any_end (promise : nat) : M Herald unit := verify_delivered promise.

(** The critical section in the loop of [wait_for_all]; the boolean tells
    whether the loop goes on. *)
Definition wait_all_round (promise condition : nat) : M Herald bool :=
  verify_delivered promise ;;
  empty ← gets (fun h => promise_is_empty (promise_of promise h));
  if (empty : bool) then mret false
  else
    modify (fun h => mkHerald (recently_delivered h)
      (alist_set promise condition (waiting_clients h))
      (unsorted_deliveries h) (unsorted_ttl h) (promise_heap h)) ;;
    mret true.

(** The condition notified is the second component. *)
Definition notify_delivered (now : Z) (message_id : MessageId) (h : Herald)
    : Herald * option nat :=
  match List.find (fun x => promise_contains (promise_of x.1 h) message_id) (waiting_clients h) with
  | Some (promise, client) =>
      let old_list := default [] (recently_delivered h !! promise) in
      (mkHerald (<[promise := old_list ++ [message_id]]> (recently_delivered h))
         (waiting_clients h) (unsorted_deliveries h) (unsorted_ttl h) (promise_heap h),
       Some client)
  | None =>
      (mkHerald (recently_delivered h) (waiting_clients h)
         (alist_set message_id now (unsorted_deliveries h)) (unsorted_ttl h) (promise_heap h),
       None)
  end.

(** [locked] is [self.lock.locked()]. *)
Definition check_if_delivered_locked (locked : bool) (promise : nat) : M Herald nat := fun h =>
  if negb locked then (Raise (RuntimeError "DeliveryHerald.lock not acquired"), h)
  else
    match recently_delivered h !! promise with
    | None => (Ret promise, h)
    | Some confirmed_msgs =>
        let h1 := mkHerald (delete promise (recently_delivered h)) (waiting_clients h)
                    (unsorted_deliveries h) (unsorted_ttl h) (promise_heap h) in
        if negb (existsb (fun x => bool_decide (x.1 = promise)) (waiting_clients h))
        then (Raise (KeyError "promise"), h1)
        else
          (Ret promise, mkHerald (recently_delivered h1) (alist_del promise (waiting_clients h1))
             (unsorted_deliveries h1) (unsorted_ttl h1)
             (<[promise := exclude_ids (promise_of promise h1) confirmed_msgs]>
                (promise_heap h1)))
    end.
End Operations.

(** ** Threads

    A thread that calls [wait_for_any] or [wait_for_all] on a new promise is
    [Waiting] until its last critical section.  A blocked thread may go on at any
    time, woken by [notify] or by the timeout.  The ghost fields record the ids
    each promise was made of, all messages confirmed so far, and those confirmed
    since a promise was registered. *)
Inductive pc : Type := Waiting | Done (delivered : bool).

Record hsys : Type := mkHsys {
  herald : Herald;
  threads : gmap nat (bool * pc);          (* promise -> (wait_for_all?, pc) *)
  orig : gmap nat (gset MessageId);
  confirmed : gset MessageId;
  since : gmap nat (gset MessageId) }.

Definition hsys_init (ttl : Z) : hsys := mkHsys (herald_init ttl) ∅ ∅ ∅ ∅.

Definition alloc_promise (p : nat) (ids : list MessageId) (h : Herald) : Herald :=
  mkHerald (recently_delivered h) (waiting_clients h) (unsorted_deliveries h) (unsorted_ttl h)
    (<[p := promise_init ids]> (promise_heap h)).

(** The state after the critical section at the end of a wait. *)
Definition after_wait (all : bool) (p condition : nat) (h : Herald) : Herald * pc :=
  if all then
    match wait_all_round p condition h with
    | (Ret true, h') => (h', Waiting)
    | (Ret false, h') => (h', Done true)
    | (_, h') => (h', Done false)
    end
  else
    match wait_any_end p h with
    | (Ret _, h') => (h', Done true)
    | (_, h') => (h', Done false)
    end.

(** A step of a thread at the herald.  A wait begins with a promise of its own, for message
    ids that no other promise waits for: [wait_for_all] does not check this, but the
    ids are those that one broadcast has just returned, and the C library gives every
    message an id of its own. *)
Inductive hstep : hsys -> hsys -> Prop :=
| hs_begin s p all ids condition now h :
    orig s !! p = None ->
    (forall q ids', orig s !! q = Some ids' -> (list_to_set ids : gset MessageId) ## ids') ->
    h = (wait_begin now p condition (alloc_promise p ids (herald s))).1 ->
    hstep s (mkHsys h
      (<[p := (all, if all && bool_decide (promise_init ids = ∅) then Done true else Waiting)]>
         (threads s))
      (<[p := promise_init ids]> (orig s)) (confirmed s) (<[p := ∅]> (since s)))
| hs_notify s m now :
    hstep s (mkHsys (notify_delivered now m (herald s)).1 (threads s) (orig s)
      ({[m]} ∪ confirmed s) ((fun ms => {[m]} ∪ ms) <$> since s))
| hs_wake s p all condition h pc' :
    threads s !! p = Some (all, Waiting) ->
    after_wait all p condition (herald s) = (h, pc') ->
    hstep s (mkHsys h (<[p := (all, pc')]> (threads s)) (orig s) (confirmed s) (since s)).

Inductive hreachable (ttl : Z) : hsys -> Prop :=
| hr_init : hreachable ttl (hsys_init ttl)
| hr_step s s' : hreachable ttl s -> hstep s s' -> hreachable ttl s'.

Section Invariant.

Record herald_inv (s : hsys) : Prop := {
  (* confirmations kept for a promise are confirmed ids it still waits for *)
  hi_recent : forall p l, recently_delivered (herald s) !! p = Some l ->
    l <> [] /\ forall m, m ∈ l -> m ∈ confirmed s /\ m ∈ promise_of p (herald s);
  hi_unsorted : forall m t, (m, t) ∈ unsorted_deliveries (herald s) -> m ∈ confirmed s;
  (* an id leaves a promise only when it is confirmed *)
  hi_gone : forall p ids m, orig s !! p = Some ids -> m ∈ ids ->
    m ∈ promise_of p (herald s) \/ m ∈ confirmed s;
  hi_sub : forall p ids, orig s !! p = Some ids -> promise_of p (herald s) ⊆ ids;
  hi_fresh : forall p, orig s !! p = None ->
    recently_delivered (herald s) !! p = None /\ promise_heap (herald s) !! p = None
    /\ p ∉ (waiting_clients (herald s)).*1 /\ threads s !! p = None;
  hi_registered : forall p all, threads s !! p = Some (all, Waiting) ->
    p ∈ (waiting_clients (herald s)).*1 /\ is_Some (orig s !! p);
  hi_clients : forall p, p ∈ (waiting_clients (herald s)).*1 -> is_Some (orig s !! p);
  hi_disjoint : forall p q ids ids', orig s !! p = Some ids -> orig s !! q = Some ids' ->
    p <> q -> ids ## ids';
  (* what was confirmed while the promise waits is kept for it *)
  hi_kept : forall p all ms m, threads s !! p = Some (all, Waiting) -> since s !! p = Some ms ->
    m ∈ ms -> m ∈ promise_of p (herald s) ->
    exists l, recently_delivered (herald s) !! p = Some l /\ m ∈ l;
  hi_done_all : forall p, threads s !! p = Some (true, Done true) ->
    promise_of p (herald s) = ∅;
  hi_done_any : forall p ids, threads s !! p = Some (false, Done true) -> orig s !! p = Some ids ->
    exists m, m ∈ ids /\ m ∈ confirmed s }.

Lemma alist_set_keys {K V} `{EqDecision K} (k : K) (v : V) l x :
  x ∈ (alist_set k v l).*1 <-> x = k \/ x ∈ l.*1.
Proof.
  induction l as [| [k' v'] l IH]; cbn; [set_solver|].
  destruct (decide (k = k')) as [-> |]; cbn; [set_solver|]. rewrite !elem_of_cons, IH. tauto.
Qed.

Lemma alist_set_elem {K V} `{EqDecision K} (k : K) (v : V) l x y :
  (x, y) ∈ alist_set k v l -> (x = k /\ y = v) \/ (x, y) ∈ l.
Proof.
  induction l as [| [k' v'] l IH]; cbn; [set_solver|].
  destruct (decide (k = k')) as [-> |]; rewrite !elem_of_cons; naive_solver.
Qed.

Lemma alist_del_keys {K V} `{EqDecision K} (k : K) (l : list (K * V)) x :
  x ∈ (alist_del k l).*1 <-> x <> k /\ x ∈ l.*1.
Proof.
  unfold alist_del. induction l as [| [k' v'] l IH]; cbn; [set_solver|].
  destruct (bool_decide_reflect (k' = k)) as [-> | Hne]; cbn;
    rewrite ?elem_of_cons, IH; naive_solver.
Qed.

Lemma clients_exist (h : Herald) p :
  existsb (fun x => bool_decide (x.1 = p)) (waiting_clients h) = true
  <-> p ∈ (waiting_clients h).*1.
Proof.
  rewrite existsb_exists, list_elem_of_fmap. split.
  - intros (x & Hx & Hp%bool_decide_eq_true). exists x. by rewrite list_elem_of_In.
  - intros (x & -> & Hx). exists x. split; [by apply list_elem_of_In | by apply bool_decide_eq_true].
Qed.

Lemma filter_elem {A} (f : A -> bool) (l : list A) x :
  x ∈ List.filter f l <-> x ∈ l /\ f x = true.
Proof. by rewrite !list_elem_of_In, filter_In. Qed.

(** What [verify_delivered] does to a registered promise. *)
Lemma verify_registered p h :
  p ∈ (waiting_clients h).*1 ->
  verify_delivered p h =
  let h1 := mkHerald (recently_delivered h) (alist_del p (waiting_clients h))
              (unsorted_deliveries h) (unsorted_ttl h) (promise_heap h) in
  match recently_delivered h !! p with
  | None => (Raise NotDelivered, h1)
  | Some l => (Ret tt, mkHerald (delete p (recently_delivered h)) (waiting_clients h1)
      (unsorted_deliveries h) (unsorted_ttl h)
      (<[p := exclude_ids (promise_of p h) l]> (promise_heap h)))
  end.
Proof.
  intros Hp. unfold verify_delivered. by rewrite (proj2 (clients_exist h p) Hp).
Qed.

(** The herald after a wake-up, in all cases: either nothing was kept for the
    promise and it is dropped, or the kept messages are taken out of it. *)
Lemma after_wait_cases all p condition h h' pc' :
  p ∈ (waiting_clients h).*1 -> after_wait all p condition h = (h', pc') ->
  unsorted_deliveries h' = unsorted_deliveries h /\
  (forall q, q <> p -> recently_delivered h' !! q = recently_delivered h !! q
     /\ promise_heap h' !! q = promise_heap h !! q
     /\ (q ∈ (waiting_clients h').*1 <-> q ∈ (waiting_clients h).*1)) /\
  recently_delivered h' !! p = None /\
  match recently_delivered h !! p with
  | None => pc' = Done false /\ promise_of p h' = promise_of p h
            /\ p ∉ (waiting_clients h').*1
  | Some l =>
      promise_of p h' = exclude_ids (promise_of p h) l
      /\ pc' = (if all && negb (promise_is_empty (promise_of p h')) then Waiting else Done true)
      /\ (pc' = Waiting -> p ∈ (waiting_clients h').*1)
  end.
Proof.
  intros Hp. unfold after_wait, wait_all_round, wait_any_end.
  assert (Hk : forall q, q <> p -> q ∈ (alist_del p (waiting_clients h)).*1
    <-> q ∈ (waiting_clients h).*1) by (intros q Hq; rewrite alist_del_keys; tauto).
  assert (Hk' : forall q v, q <> p -> q ∈ (alist_set p v (alist_del p (waiting_clients h))).*1
    <-> q ∈ (waiting_clients h).*1) by (intros q v Hq; rewrite alist_set_keys, Hk; tauto).
  assert (Hno : p ∉ (alist_del p (waiting_clients h)).*1) by (rewrite alist_del_keys; tauto).
  run. rewrite verify_registered by done. cbn zeta.
  destruct (recently_delivered h !! p) as [l |] eqn:El.
  - destruct all; cbn; [destruct (promise_is_empty _) eqn:Ee |]; cbn; intros [= <- <-]; cbn;
      unfold promise_of in *; cbn in *; rewrite ?lookup_insert_eq, ?lookup_delete_eq in *; cbn in *;
      rewrite ?Ee; cbn; (split; [done|]);
      (split; [intros q Hq; rewrite lookup_delete_ne, lookup_insert_ne by done; eauto |]);
      repeat split; try done; intros _; rewrite alist_set_keys; by left.
  - destruct all; intros [= <- <-]; cbn; (split; [done|]); (split; [eauto |]); done.
Qed.

Lemma herald_inv_init ttl : herald_inv (hsys_init ttl).
Proof.
  constructor; cbn; try (intros *; rewrite ?lookup_empty; done); try set_solver.
Qed.

Lemma herald_inv_wake s p all condition h pc' :
  herald_inv s -> threads s !! p = Some (all, Waiting) ->
  after_wait all p condition (herald s) = (h, pc') ->
  herald_inv (mkHsys h (<[p := (all, pc')]> (threads s)) (orig s) (confirmed s) (since s)).
Proof.
  intros Hi Hth Haw. destruct (hi_registered _ Hi _ _ Hth) as [Hreg [ids Hids]].
  destruct (after_wait_cases _ _ _ _ _ _ Hreg Haw) as (Hun & Hoth & Hrec & Hp).
  assert (Hpo : forall q, q <> p -> promise_of q h = promise_of q (herald s)).
  { intros q Hq. unfold promise_of. by destruct (Hoth q Hq) as (_ & -> & _). }
  assert (Hpp : promise_of p h ⊆ promise_of p (herald s)).
  { destruct (recently_delivered (herald s) !! p) as [l |].
    - destruct Hp as (-> & _). intros m Hm%exclude_ids_elem. tauto.
    - by destruct Hp as (_ & -> & _). }
  assert (Hgone : forall m, m ∈ promise_of p (herald s) -> m ∈ promise_of p h \/ m ∈ confirmed s).
  { intros m Hm. destruct (recently_delivered (herald s) !! p) as [l |] eqn:El.
    - destruct Hp as (-> & _). rewrite exclude_ids_elem.
      destruct (decide (m ∈ l)) as [Hml |]; [right | by left].
      destruct (hi_recent _ Hi _ _ El) as [_ Hl]. by apply Hl.
    - left. by destruct Hp as (_ & -> & _). }
  constructor; cbn.
  - intros q l Hq. destruct (decide (q = p)) as [-> | Hne]; [congruence|].
    destruct (Hoth q Hne) as (E & _ & _). rewrite E in Hq. rewrite Hpo by done. by apply Hi.
  - rewrite Hun. apply Hi.
  - intros q ids' m Hq Hm. destruct (hi_gone _ Hi q ids' m Hq Hm) as [Hin | ?]; [| by right].
    destruct (decide (q = p)) as [-> | Hne]; [by apply Hgone | left; by rewrite Hpo].
  - intros q ids' Hq. pose proof (hi_sub _ Hi q ids' Hq) as Hs.
    destruct (decide (q = p)) as [-> | Hne]; [set_solver | by rewrite Hpo].
  - intros q Hq. assert (q <> p) as Hne by congruence.
    destruct (Hoth q Hne) as (-> & -> & ->). rewrite lookup_insert_ne by done. by apply Hi.
  - intros q all' Hq. destruct (decide (q = p)) as [-> | Hne].
    + rewrite lookup_insert_eq in Hq. injection Hq as -> ->. split; [| eauto].
      destruct (recently_delivered (herald s) !! p); [by apply Hp | by destruct Hp].
    + rewrite lookup_insert_ne in Hq by done. destruct (hi_registered _ Hi _ _ Hq).
      destruct (Hoth q Hne) as (_ & _ & ->). done.
  - intros q Hq. destruct (decide (q = p)) as [-> | Hne]; [eauto|].
    apply (hi_clients _ Hi). by apply (Hoth q Hne).
  - apply Hi.
  - intros q all' ms m Hq Hms Hm Hin. destruct (decide (q = p)) as [-> | Hne].
    + exfalso. destruct (hi_kept _ Hi p all ms m Hth Hms Hm) as (l & El & Hml); [set_solver|].
      rewrite El in Hp. destruct Hp as (Heq & _). rewrite Heq, exclude_ids_elem in Hin. tauto.
    + rewrite lookup_insert_ne in Hq by done. rewrite Hpo in Hin by done.
      destruct (Hoth q Hne) as (-> & _ & _). by apply (hi_kept _ Hi q all' ms m).
  - intros q Hq. destruct (decide (q = p)) as [-> | Hne].
    + rewrite lookup_insert_eq in Hq. injection Hq as -> ->.
      destruct (recently_delivered (herald s) !! p); [| by destruct Hp].
      destruct Hp as (_ & Hpc & _). unfold promise_is_empty in Hpc.
      by case_bool_decide.
    + rewrite lookup_insert_ne in Hq by done. rewrite Hpo by done. by apply Hi.
  - intros q ids' Hq Hor. destruct (decide (q = p)) as [-> | Hne].
    + rewrite lookup_insert_eq in Hq. injection Hq as -> ->.
      destruct (recently_delivered (herald s) !! p) as [l |] eqn:El; [| by destruct Hp].
      destruct (hi_recent _ Hi _ _ El) as [Hl Hml]. destruct l as [| m l]; [done|].
      exists m. destruct (Hml m) as [Hc Hin]; [set_solver|]. split; [| done].
      by apply (hi_sub _ Hi p).
    + rewrite lookup_insert_ne in Hq by done. by apply (hi_done_any _ Hi q).
Qed.

Lemma herald_inv_notify s m now :
  herald_inv s ->
  herald_inv (mkHsys (notify_delivered now m (herald s)).1 (threads s) (orig s)
      ({[m]} ∪ confirmed s) ((fun ms => {[m]} ∪ ms) <$> since s)).
Proof.
  intros Hi. unfold notify_delivered. destruct (List.find _ _) as [[p c] |] eqn:Ef.
  - apply find_some in Ef as [Hin%list_elem_of_In Hm]. cbn in Hm. apply bool_decide_eq_true in Hm.
    assert (Hp : p ∈ (waiting_clients (herald s)).*1) by by apply (list_elem_of_fmap_2' fst _ (p, c)).
    destruct (hi_clients _ Hi p Hp) as [ids Hids].
    assert (Hold : forall x, x ∈ default [] (recently_delivered (herald s) !! p) ->
      x ∈ confirmed s /\ x ∈ promise_of p (herald s)).
    { intros x Hx. destruct (recently_delivered (herald s) !! p) as [l |] eqn:El; [| set_solver].
      destruct (hi_recent _ Hi p l El) as [_ Hl]. by apply Hl. }
    constructor; cbn; try apply Hi.
    + intros q l. destruct (decide (q = p)) as [-> | Hne].
      * rewrite lookup_insert_eq. intros [= <-]. split; [by destruct (default _ _)|].
        intros x [Hx | ->%list_elem_of_singleton]%elem_of_app; [| set_solver].
        destruct (Hold x Hx). set_solver.
      * rewrite lookup_insert_ne by done. intros Hl. destruct (hi_recent _ Hi q l Hl) as [? Hq].
        split; [done|]. intros x Hx. destruct (Hq x Hx). set_solver.
    + intros x t Hx. pose proof (hi_unsorted _ Hi x t Hx). set_solver.
    + intros q ids' x Hq Hx. destruct (hi_gone _ Hi q ids' x Hq Hx); set_solver.
    + intros q Hq. assert (q <> p) by congruence. rewrite lookup_insert_ne by done. by apply Hi.
    + intros q all ms x Hq Hms Hx Hxp. rewrite lookup_fmap in Hms.
      destruct (since s !! q) as [ms' |] eqn:Es; [| done]. injection Hms as <-.
      assert (Hcase : x = m \/ x ∈ ms') by set_solver.
      destruct (decide (q = p)) as [-> | Hne].
      * rewrite lookup_insert_eq. eexists. split; [done|]. rewrite elem_of_app.
        destruct Hcase as [-> | Hx']; [right; set_solver | left].
        by destruct (hi_kept _ Hi p all ms' x Hq Es Hx' Hxp) as (l & -> & ?).
      * rewrite lookup_insert_ne by done. destruct Hcase as [-> | Hx'].
        -- exfalso. destruct (hi_registered _ Hi q all Hq) as [_ [ids' Hids']].
           pose proof (hi_disjoint _ Hi p q ids ids' Hids Hids' ltac:(congruence)).
           pose proof (hi_sub _ Hi p ids Hids). pose proof (hi_sub _ Hi q ids' Hids'). set_solver.
        -- by apply (hi_kept _ Hi q all ms' x).
    + intros q ids' Hq Hor. destruct (hi_done_any _ Hi q ids' Hq Hor) as (x & ? & ?). set_solver.
  - constructor; cbn; try apply Hi.
    + intros q l Hl. destruct (hi_recent _ Hi q l Hl) as [? Hq].
      split; [done|]. intros x Hx. destruct (Hq x Hx). set_solver.
    + intros x t [[-> _] | Hx]%alist_set_elem; [set_solver|].
      pose proof (hi_unsorted _ Hi x t Hx). set_solver.
    + intros q ids' x Hq Hx. destruct (hi_gone _ Hi q ids' x Hq Hx); set_solver.
    + intros q all ms x Hq Hms Hx Hxp. rewrite lookup_fmap in Hms.
      destruct (since s !! q) as [ms' |] eqn:Es; [| done]. injection Hms as <-.
      assert (Hcase : x = m \/ x ∈ ms') by set_solver. destruct Hcase as [-> | Hx'].
      * exfalso. destruct (hi_registered _ Hi q all Hq) as [Hreg _].
        apply list_elem_of_fmap in Hreg as ([q' c] & -> & Hin%list_elem_of_In).
        apply (find_none _ _ Ef) in Hin. cbn in *. by apply bool_decide_eq_false in Hin.
      * by apply (hi_kept _ Hi q all ms' x).
    + intros q ids' Hq Hor. destruct (hi_done_any _ Hi q ids' Hq Hor) as (x & ? & ?). set_solver.
Qed.

Lemma herald_inv_begin s p all ids condition now h :
  herald_inv s -> orig s !! p = None ->
  (forall q ids', orig s !! q = Some ids' -> (list_to_set ids : gset MessageId) ## ids') ->
  h = (wait_begin now p condition (alloc_promise p ids (herald s))).1 ->
  herald_inv (mkHsys h
      (<[p := (all, if all && bool_decide (promise_init ids = ∅) then Done true else Waiting)]>
         (threads s))
      (<[p := promise_init ids]> (orig s)) (confirmed s) (<[p := ∅]> (since s))).
Proof.
  intros Hi Hfresh Hdis ->. destruct (hi_fresh _ Hi p Hfresh) as (Hr & Hh & Hc & Ht).
  set (h := (wait_begin now p condition (alloc_promise p ids (herald s))).1).
  assert (Hpp : promise_of p h = promise_init ids)
    by (unfold promise_of; cbn; by rewrite lookup_insert_eq).
  assert (Hpo : forall q, q <> p -> promise_of q h = promise_of q (herald s))
    by (intros q Hq; unfold promise_of; cbn; by rewrite lookup_insert_ne).
  assert (Hrec : forall q, q <> p -> recently_delivered h !! q = recently_delivered (herald s) !! q).
  { intros q Hq. cbn. case_match; [done | by rewrite lookup_insert_ne]. }
  assert (Hcl : forall q, q ∈ (waiting_clients h).*1 <-> q = p \/ q ∈ (waiting_clients (herald s)).*1)
    by (intros q; cbn; apply alist_set_keys).
  assert (Hno : forall q, orig s !! q = Some (promise_init ids) \/ is_Some (orig s !! q) -> q <> p)
    by (intros q Hq ->; rewrite Hfresh in Hq; destruct Hq as [? | [? ?]]; done).
  constructor; cbn [herald threads orig confirmed since].
  - intros q l Hl. destruct (decide (q = p)) as [-> | Hne].
    + rewrite Hpp. cbn in Hl. unfold promise_of in Hl. cbn in Hl.
      rewrite lookup_insert_eq in Hl. cbn in Hl.
      assert (Hall : forall m, m ∈ (List.filter (fun x => promise_contains (promise_init ids) x.1)
          (unsorted_deliveries (herald s))).*1 -> m ∈ confirmed s /\ m ∈ promise_init ids).
      { intros m ([m' t] & -> & [Hin Hm]%filter_elem)%list_elem_of_fmap.
        split; [by apply (hi_unsorted _ Hi _ t) | by apply bool_decide_eq_true in Hm]. }
      destruct ((List.filter (fun x => promise_contains (promise_init ids) x.1)
          (unsorted_deliveries (herald s))).*1) as [| m0 l0]; [congruence|].
      rewrite lookup_insert_eq in Hl. injection Hl as <-. split; [done|].
      intros m Hm. by apply Hall.
    + rewrite Hrec in Hl by done. rewrite Hpo by done. by apply Hi.
  - intros m t [Hm _]%filter_elem. by apply (hi_unsorted _ Hi _ t).
  - intros q ids' m Hq Hm. destruct (decide (q = p)) as [-> | Hne].
    + rewrite lookup_insert_eq in Hq. injection Hq as <-. left. by rewrite Hpp.
    + rewrite lookup_insert_ne in Hq by done. rewrite Hpo by done. by apply (hi_gone _ Hi q ids').
  - intros q ids' Hq. destruct (decide (q = p)) as [-> | Hne].
    + rewrite lookup_insert_eq in Hq. injection Hq as <-. by rewrite Hpp.
    + rewrite lookup_insert_ne in Hq by done. rewrite Hpo by done. by apply Hi.
  - intros q. destruct (decide (q = p)) as [-> | Hne]; [by rewrite lookup_insert_eq|].
    rewrite !lookup_insert_ne, Hrec, Hcl by done. intros Hq.
    destruct (hi_fresh _ Hi q Hq) as (? & ? & ? & ?). repeat split; [done | | | done].
    + cbn. by rewrite lookup_insert_ne.
    + tauto.
  - intros q all' Hq. rewrite Hcl. destruct (decide (q = p)) as [-> | Hne].
    + split; [by left | rewrite lookup_insert_eq; eauto].
    + rewrite lookup_insert_ne in Hq by done. rewrite lookup_insert_ne by done.
      destruct (hi_registered _ Hi q all' Hq). auto.
  - intros q. rewrite Hcl. destruct (decide (q = p)) as [-> | Hne].
    + rewrite lookup_insert_eq. eauto.
    + rewrite lookup_insert_ne by done. intros [? | Hq]; [done | by apply Hi].
  - intros q q' i i' Hq Hq' Hne.
    destruct (decide (q = p)) as [-> | Hne1]; destruct (decide (q' = p)) as [-> | Hne2]; [done | | |].
    + rewrite lookup_insert_eq in Hq. injection Hq as <-. rewrite lookup_insert_ne in Hq' by done.
      by apply (Hdis q').
    + rewrite lookup_insert_eq in Hq'. injection Hq' as <-. rewrite lookup_insert_ne in Hq by done.
      symmetry. by apply (Hdis q).
    + rewrite lookup_insert_ne in Hq by done. rewrite lookup_insert_ne in Hq' by done. by apply (hi_disjoint _ Hi q q').
  - intros q all' ms m Hq Hms Hm. destruct (decide (q = p)) as [-> | Hne].
    + rewrite lookup_insert_eq in Hms. injection Hms as <-. set_solver.
    + rewrite lookup_insert_ne in Hq by done. rewrite lookup_insert_ne in Hms by done. rewrite Hpo, Hrec by done.
      by apply (hi_kept _ Hi q all' ms m).
  - intros q Hq. destruct (decide (q = p)) as [-> | Hne].
    + rewrite lookup_insert_eq in Hq. rewrite Hpp. destruct all; cbn in Hq; [| done].
      by case_bool_decide.
    + rewrite lookup_insert_ne in Hq by done. rewrite Hpo by done. by apply Hi.
  - intros q ids' Hq Hor. destruct (decide (q = p)) as [-> | Hne].
    + rewrite lookup_insert_eq in Hq. by destruct all.
    + rewrite lookup_insert_ne in Hq by done. rewrite lookup_insert_ne in Hor by done. by apply (hi_done_any _ Hi q).
Qed.

Lemma herald_inv_reachable ttl s : hreachable ttl s -> herald_inv s.
Proof.
  induction 1 as [| s s' _ IH Hstep]; [apply herald_inv_init|]. destruct Hstep.
  - by eapply herald_inv_begin.
  - by apply herald_inv_notify.
  - by eapply herald_inv_wake.
Qed.
End Invariant.

(** C13: a wait that returns was justified: every id of the promise was
    confirmed by Motr when [wait_for_all] returns, at least one when
    [wait_for_any] returns. *)
Theorem wait_returns_only_when_delivered ttl s p all ids :
  hreachable ttl s -> threads s !! p = Some (all, Done true) -> orig s !! p = Some ids ->
  if all : bool then ids ⊆ confirmed s else exists m, m ∈ ids /\ m ∈ confirmed s.
Proof.
  intros Hi%herald_inv_reachable Ht Ho. destruct all.
  - intros m Hm. destruct (hi_gone _ Hi p ids m Ho Hm) as [Hin | ?]; [| done].
    rewrite (hi_done_all _ Hi p Ht) in Hin. set_solver.
  - by apply (hi_done_any _ Hi p).
Qed.

(** No confirmation is missed.  When a wait ends with [NotDelivered], none
    of the messages it still waited for was confirmed since the promise was
    registered, even if the wake-up of [notify_delivered] found nobody blocked
    yet. *)
Theorem not_delivered_is_true ttl s p all condition h ms m :
  hreachable ttl s -> threads s !! p = Some (all, Waiting) ->
  after_wait all p condition (herald s) = (h, Done false) ->
  since s !! p = Some ms -> m ∈ ms -> m ∉ promise_of p (herald s).
Proof.
  intros Hi%herald_inv_reachable Ht Ha Hms Hm Hin.
  destruct (hi_registered _ Hi _ _ Ht) as [Hreg _].
  destruct (hi_kept _ Hi p all ms m Ht Hms Hm Hin) as (l & El & _).
  destruct (after_wait_cases _ _ _ _ _ _ Hreg Ha) as (_ & _ & _ & Hp).
  rewrite El in Hp. destruct Hp as (_ & Hpc & _). by destruct (_ && _) in Hpc.
Qed.

(** ** Witnesses *)
Section Witnesses.

Definition msg (t : Z) : MessageId := mkMessageId 1 t.
Definition begin (p : nat) (all : bool) (ids : list MessageId) (s : hsys) : hsys :=
  mkHsys (wait_begin 0 p p (alloc_promise p ids (herald s))).1
    (<[p := (all, if all && bool_decide (promise_init ids = ∅) then Done true else Waiting)]>
       (threads s))
    (<[p := promise_init ids]> (orig s)) (confirmed s) (<[p := ∅]> (since s)).
Definition deliver (m : MessageId) (s : hsys) : hsys :=
  mkHsys (notify_delivered 0 m (herald s)).1 (threads s) (orig s)
    ({[m]} ∪ confirmed s) ((fun ms => {[m]} ∪ ms) <$> since s).
Definition wake (p : nat) (all : bool) (s : hsys) : hsys :=
  let r := after_wait all p p (herald s) in
  mkHsys r.1 (<[p := (all, r.2)]> (threads s)) (orig s) (confirmed s) (since s).

Definition two : hsys := begin 7 true [msg 1; msg 2] (hsys_init MAX_UNSORTED_TTL).
Definition other : hsys := deliver (msg 9) two.
Definition both : hsys := deliver (msg 2) (deliver (msg 1) two).
Definition finished : hsys := wake 7 true both.

Lemma two_reachable : hreachable MAX_UNSORTED_TTL two.
Proof.
  eapply hr_step; [constructor|]. eapply hs_begin; [reflexivity | | reflexivity].
  intros q ids' Hq. cbn in Hq. by rewrite lookup_empty in Hq.
Qed.

Lemma both_reachable : hreachable MAX_UNSORTED_TTL both.
Proof.
  eapply hr_step; [eapply hr_step; [apply two_reachable|] |]; apply hs_notify.
Qed.

Lemma wait_returns_only_when_delivered_witness :
  threads finished !! 7%nat = Some (true, Done true) /\ {[msg 1; msg 2]} ⊆ confirmed finished.
Proof.
  split; [vm_compute; reflexivity|].
  apply (wait_returns_only_when_delivered MAX_UNSORTED_TTL finished 7 true {[msg 1; msg 2]}).
  - eapply hr_step; [apply both_reachable|]. eapply hs_wake; [vm_compute; reflexivity|].
    apply surjective_pairing.
  - vm_compute; reflexivity.
  - vm_compute; reflexivity.
Defined.

Lemma not_delivered_is_true_witness :
  (after_wait true 7 7 (herald other)).2 = Done false
  /\ msg 9 ∉ promise_of 7 (herald other).
Proof.
  split; [vm_compute; reflexivity|].
  apply (not_delivered_is_true MAX_UNSORTED_TTL other 7 true 7
           (after_wait true 7 7 (herald other)).1 {[msg 9]}).
  - eapply hr_step; [apply two_reachable|]. apply hs_notify.
  - vm_compute; reflexivity.
  - vm_compute; reflexivity.
  - vm_compute; reflexivity.
  - set_solver.
Defined.
End Witnesses.
