(* ===== verification/World.v ===== *)
(** * The world of the hax process

    The state the components of hax share and the interfaces of the code that is
    not part of the repository: the Consul client ([ConsulApi]) and the C library
    behind [HaxFFI] ([MotrFfi]), both operations on an abstract environment [E],
    and [Others], what the other threads and the rest of the cluster do while a
    thread sleeps or is blocked.  Bytes are strings: [.decode()] is the identity
    on them. *)

From S2P Require Import Prelude PyStr Json HaxTypes Message LinkedList Planner Delivery.

(** ** Consul *)

(** An entry of the KV store as [consul.kv.get] returns it.  [Value] is [None]
    for an empty value; [Session] is present while a session holds the key. *)
Record kvitem : Type := mkKv {
  Key : string; Value : option string; ModifyIndex : Z; Session : option string }.

(** [data] of [index, data = kv.get(...)]: absent, one entry, or the list that
    [recurse=True] gives. *)
Inductive kvdata : Type := KVNone | KVItem (i : kvitem) | KVList (l : list kvitem).

(** An operation of [consul.txn.put]; the value is the base64 text sent. *)
Inductive txn_op : Type :=
| TxnSet (key value : string)
| TxnCas (key value : string) (index : Z)
| TxnDelete (key : string)
| TxnDeleteTree (key : string).

Class ConsulApi (E : Type) := {
  consul_kv_get : string -> bool -> M E (Z * kvdata);         (* key, recurse *)
  consul_kv_put : string -> string -> option Z -> M E bool;   (* key, value, cas *)
  consul_txn_put : list txn_op -> M E unit;
  consul_catalog_nodes : M E (list json);
  consul_catalog_services : M E (list (string * json));
  consul_catalog_service : string -> M E (list json);
  consul_agent_self : M E json;
  consul_agent_members : M E (list json);
  consul_agent_force_leave : string -> M E unit;
  consul_session_destroy : string -> M E unit;
  consul_session_info : string -> M E (option json);
  consul_health_node : string -> M E (list json);
}.

(** ** The Motr C library *)
Inductive ffi_call : Type :=
| FStart (rpc_endpoint : string) (process ha_service rm : FidStruct)
| FStartRconfc (profile : FidStruct)
| FStopRconfc
| FMotrStop
| FMotrFini
| FEntrypointReply (reply_context : Z) (req_id : Uint128) (rc confd_nr : Z)
    (confd_fids : list FidStruct) (confd_eps : list string) (quorum : Z)
    (rm_fid : FidStruct) (rm_eps : option string)
| FHaBroadcast (notes : list HaNoteStruct) (nr : Z) (skip : list string) (nr_skip : Z)
| FHaBroadcastHaxOnly (notes : list HaNoteStruct) (nr : Z) (hax_endpoint : string)
| FHaxLinkStopped (proc_ep : string)
| FHaNvecReply (hax_msg : Z) (notes : list HaNoteStruct) (nr : Z)
| FHaxStop (hax_fid : FidStruct) (hax_endpoint : string)
| FStartRepair (pool : FidStruct) | FStartRebalance (pool : FidStruct)
| FStopRepair (pool : FidStruct) | FStopRebalance (pool : FidStruct)
| FPauseRepair (pool : FidStruct) | FPauseRebalance (pool : FidStruct)
| FResumeRepair (pool : FidStruct) | FResumeRebalance (pool : FidStruct).

Class MotrFfi (E : Type) := {
  ffi_init_motr_api : M E Z;
  ffi_rc : ffi_call -> M E Z;                              (* calls that return a code *)
  ffi_ids : ffi_call -> M E (list MessageId);              (* calls that return message ids *)
  ffi_filesystem_stats_fetch : M E (option FsStats);
  ffi_proc_bytecount_fetch : FidStruct -> M E (option ByteCountStats);
  ffi_pver_status_fetch : FidStruct -> M E (option PverInfo);
  ffi_repair_status : FidStruct -> M E (option (list ReprebStatus));
  ffi_rebalance_status : FidStruct -> M E (option (list ReprebStatus));
}.

(** ** The state of the process *)

(** [InvocationCache._calls]: function name, stringified arguments, value. *)
Notation InvocationCache := (gmap string (gmap string json)).

(** The attributes of the [Motr] object. *)
Record MotrState : Type := mkMotr {
  ha_ctx : Z; spiel_ready : bool; motr_is_stopping : bool;
  motr_process_fid : option Fid; motr_profile : option Profile }.

(** What a reply queue ([queue.Queue]) holds. *)
Inductive reply_item : Type :=
| ReplyIds (ids : list MessageId) | ReplyStatus (l : list ReprebStatus).

Record World (E : Type) : Type := mkWorld {
  env : E;
  hare_hax_node_name : option string;                (* os.environ *)
  stopping : bool;                                   (* HaxGlobalState.stopping *)
  caches : gmap nat InvocationCache;                 (* the cache objects alive *)
  next_cache : nat;
  all_node_items : list kvitem;                      (* ConsulUtil.all_node_items *)
  motr_processes_status : list (string * string);    (* the module's dict *)
  process_locks : list bool;                         (* ProcessGroup, true when held *)
  work_planner : WorkPlanner (list Cmd);
  next_oid : nat;
  delivery : Herald;
  reply_queues : gmap queue_id (list reply_item);
  motr : MotrState;
  ffi_log : list ffi_call;
  subscriber_list : json;                            (* cached_subscriber_list *)
  subscriber_list_cached : bool;
  events_set : gset nat }.                           (* threading.Event objects that are set *)

Arguments mkWorld {E}.
Arguments env {E}. Arguments hare_hax_node_name {E}. Arguments stopping {E}.
Arguments caches {E}. Arguments next_cache {E}. Arguments all_node_items {E}.
Arguments motr_processes_status {E}. Arguments process_locks {E}.
Arguments work_planner {E}. Arguments next_oid {E}. Arguments delivery {E}.
Arguments reply_queues {E}. Arguments motr {E}. Arguments ffi_log {E}.
Arguments subscriber_list {E}. Arguments subscriber_list_cached {E}. Arguments events_set {E}.

(** [others w] is [w] after a sleep or a blocking wait of the current thread;
    [fuel] bounds the loops that wait for the environment. *)
Class Others (E : Type) := others : World E -> World E.
Class Fuel := fuel : nat.

Section Access.
Context {E : Type}.

Definition set_env (e : E) (w : World E) : World E :=
  mkWorld e (hare_hax_node_name w) (stopping w) (caches w) (next_cache w) (all_node_items w)
    (motr_processes_status w) (process_locks w) (work_planner w) (next_oid w) (delivery w)
    (reply_queues w) (motr w) (ffi_log w) (subscriber_list w) (subscriber_list_cached w) (events_set w).
Definition set_stopping (b : bool) (w : World E) : World E :=
  mkWorld (env w) (hare_hax_node_name w) b (caches w) (next_cache w) (all_node_items w)
    (motr_processes_status w) (process_locks w) (work_planner w) (next_oid w) (delivery w)
    (reply_queues w) (motr w) (ffi_log w) (subscriber_list w) (subscriber_list_cached w) (events_set w).
Definition set_caches (c : gmap nat InvocationCache) (n : nat) (w : World E) : World E :=
  mkWorld (env w) (hare_hax_node_name w) (stopping w) c n (all_node_items w)
    (motr_processes_status w) (process_locks w) (work_planner w) (next_oid w) (delivery w)
    (reply_queues w) (motr w) (ffi_log w) (subscriber_list w) (subscriber_list_cached w) (events_set w).
Definition set_all_node_items (l : list kvitem) (w : World E) : World E :=
  mkWorld (env w) (hare_hax_node_name w) (stopping w) (caches w) (next_cache w) l
    (motr_processes_status w) (process_locks w) (work_planner w) (next_oid w) (delivery w)
    (reply_queues w) (motr w) (ffi_log w) (subscriber_list w) (subscriber_list_cached w) (events_set w).
Definition set_statuses (l : list (string * string)) (w : World E) : World E :=
  mkWorld (env w) (hare_hax_node_name w) (stopping w) (caches w) (next_cache w) (all_node_items w)
    l (process_locks w) (work_planner w) (next_oid w) (delivery w)
    (reply_queues w) (motr w) (ffi_log w) (subscriber_list w) (subscriber_list_cached w) (events_set w).
Definition set_locks (l : list bool) (w : World E) : World E :=
  mkWorld (env w) (hare_hax_node_name w) (stopping w) (caches w) (next_cache w) (all_node_items w)
    (motr_processes_status w) l (work_planner w) (next_oid w) (delivery w)
    (reply_queues w) (motr w) (ffi_log w) (subscriber_list w) (subscriber_list_cached w) (events_set w).
Definition set_planner (p : WorkPlanner (list Cmd)) (n : nat) (w : World E) : World E :=
  mkWorld (env w) (hare_hax_node_name w) (stopping w) (caches w) (next_cache w) (all_node_items w)
    (motr_processes_status w) (process_locks w) p n (delivery w)
    (reply_queues w) (motr w) (ffi_log w) (subscriber_list w) (subscriber_list_cached w) (events_set w).
Definition set_delivery (h : Herald) (n : nat) (w : World E) : World E :=
  mkWorld (env w) (hare_hax_node_name w) (stopping w) (caches w) (next_cache w) (all_node_items w)
    (motr_processes_status w) (process_locks w) (work_planner w) n h
    (reply_queues w) (motr w) (ffi_log w) (subscriber_list w) (subscriber_list_cached w) (events_set w).
Definition set_replies (q : gmap queue_id (list reply_item)) (w : World E) : World E :=
  mkWorld (env w) (hare_hax_node_name w) (stopping w) (caches w) (next_cache w) (all_node_items w)
    (motr_processes_status w) (process_locks w) (work_planner w) (next_oid w) (delivery w)
    q (motr w) (ffi_log w) (subscriber_list w) (subscriber_list_cached w) (events_set w).
Definition set_motr (m : MotrState) (w : World E) : World E :=
  mkWorld (env w) (hare_hax_node_name w) (stopping w) (caches w) (next_cache w) (all_node_items w)
    (motr_processes_status w) (process_locks w) (work_planner w) (next_oid w) (delivery w)
    (reply_queues w) m (ffi_log w) (subscriber_list w) (subscriber_list_cached w) (events_set w).
Definition set_ffi_log (l : list ffi_call) (w : World E) : World E :=
  mkWorld (env w) (hare_hax_node_name w) (stopping w) (caches w) (next_cache w) (all_node_items w)
    (motr_processes_status w) (process_locks w) (work_planner w) (next_oid w) (delivery w)
    (reply_queues w) (motr w) l (subscriber_list w) (subscriber_list_cached w) (events_set w).
Definition set_subscribers (l : json) (b : bool) (w : World E) : World E :=
  mkWorld (env w) (hare_hax_node_name w) (stopping w) (caches w) (next_cache w) (all_node_items w)
    (motr_processes_status w) (process_locks w) (work_planner w) (next_oid w) (delivery w)
    (reply_queues w) (motr w) (ffi_log w) l b (events_set w).

(** A call into the environment. *)
Definition on_env {A} (m : M E A) : M (World E) A := fun w =>
  let '(r, e) := m (env w) in (r, set_env e w).

(** A call of the C library is logged. *)
Definition ffi `{MotrFfi E} {A} (op : ffi_call -> M E A) (c : ffi_call) : M (World E) A :=
  modify (fun w => set_ffi_log (ffi_log w ++ [c]) w) ;; on_env (op c).

(** [time.sleep(...)] *)
Definition sleep `{Others E} : M (World E) unit := modify others.

(** A process with nothing cached and no lock held. *)
Definition world_init (e : E) (node : option string) (buckets : nat) : World E :=
  mkWorld e node false ∅ 0 [] [] (replicate buckets false) planner_init 0
    (herald_init MAX_UNSORTED_TTL) ∅ (mkMotr 1 false false None None) [] (JArr []) false ∅.
End Access.

(** ** Conversions of parsed values *)

(** [int(x)] *)
Definition int_of (j : json) : outcome Z :=
  match j with
  | JInt z => Ret z
  | JStr s => py_int 10 s
  | JBool b => Ret (if b then 1 else 0)
  | _ => Raise TypeError
  end.

(** [int(item['Value'])] on the bytes of a KV value. *)
Definition int_of_value (v : option string) : outcome Z :=
  match v with Some s => py_int 10 s | None => Raise TypeError end.

(** [json.loads(item['Value'])] *)
Definition loads_value (v : option string) : outcome json :=
  match v with Some s => loads s | None => Raise TypeError end.

(** [item['Value'].decode('utf-8')] *)
Definition decode_value (v : option string) : outcome string :=
  match v with Some s => Ret s | None => Raise AttributeError end.

(** A value used where the code needs a [str] (concatenation, [split],
    [Fid.parse]). *)
Definition need_str (j : json) : outcome string :=
  match j with JStr s => Ret s | _ => Raise AttributeError end.

(** Python's truth value. *)
Definition truthy (j : json) : bool :=
  match j with
  | JNull => false
  | JBool b => b
  | JInt z => negb (z =? 0)
  | JStr s => negb (String.eqb s "")
  | JArr l => match l with [] => false | _ => true end
  | JObj l => match l with [] => false | _ => true end
  end.

(** [str(x)] and [repr(x)]. *)
Definition repr_char (q c : ascii) : string :=
  let n := nat_of_ascii c in
  if Ascii.eqb c q || Ascii.eqb c "\" then String "\" (String c "")
  else if (n =? 9)%nat then "\t"
  else if (n =? 10)%nat then "\n"
  else if (n =? 13)%nat then "\r"
  else if (n <? 32)%nat || (n =? 127)%nat then
    "\x" +:+ String (digit_char (Z.of_nat n / 16)) (String (digit_char (Z.of_nat n mod 16)) "")
  else String c "".

Definition repr_str (s : string) : string :=
  let sq := ascii_of_nat 39 in
  let q := if py_in (String sq "") s && negb (py_in (String quote "") s) then quote else sq in
  String q (String.concat "" (List.map (repr_char q) (list_ascii_of_string s)) +:+ String q "").

Fixpoint py_repr (j : json) : string :=
  match j with
  | JNull => "None"
  | JBool true => "True"
  | JBool false => "False"
  | JInt z => dec_str z
  | JStr s => repr_str s
  | JArr l => "[" +:+ String.concat ", " (List.map py_repr l) +:+ "]"
  | JObj l =>
      "{" +:+ String.concat ", " (List.map (fun '(k, v) => repr_str k +:+ ": " +:+ py_repr v) l)
        +:+ "}"
  end.

Definition py_str (j : json) : string :=
  match j with JStr s => s | _ => py_repr j end.

(** [svc['a']['b']] *)
Definition jget2 (a b : string) (j : json) : outcome json := x ← jget a j; jget b x.

(** [d.get(k)], [None] as [JNull]. *)
Definition jget_or (k : string) (dflt : json) (j : json) : outcome json :=
  match j with
  | JObj l => Ret (default dflt (dict_find k l))
  | _ => Raise AttributeError
  end.
