(* ===== verification/Cache.v ===== *)
(** * The invocation cache ([src/hax/hax/consul/cache.py])

    A cache object maps a function name and the text of the arguments to the
    value returned; cache objects are shared by reference (a [nat] into
    [caches]), created when a decorated function is called without one, and
    cleared by the functions that write.  Values of different types are kept as
    [json] trees; [PyVal] is the embedding. *)

From S2P Require Import Prelude PyStr Json HaxTypes World.

(** ** Embedding of the cached values *)
Class PyVal (A : Type) := {
  to_py : A -> json;
  of_py : json -> option A;
  of_to_py a : of_py (to_py a) = Some a;
}.

#[global] Instance PyVal_json : PyVal json.
Proof.
  refine {| to_py j := j; of_py j := Some j |}.
  done.
Defined.

#[global] Instance PyVal_Z : PyVal Z.
Proof.
  refine {| to_py := JInt; of_py j := match j with JInt z => Some z | _ => None end |}.
  done.
Defined.

#[global] Instance PyVal_bool : PyVal bool.
Proof.
  refine {| to_py := JBool; of_py j := match j with JBool z => Some z | _ => None end |}.
  done.
Defined.

#[global] Instance PyVal_string : PyVal string.
Proof.
  refine {| to_py := JStr; of_py j := match j with JStr z => Some z | _ => None end |}.
  done.
Defined.

#[global] Instance PyVal_option {A} `{PyVal A} : PyVal (option A).
Proof.
  refine {| to_py o := match o with Some a => JArr [to_py a] | None => JNull end;
     of_py j := match j with
       | JArr [x] => Some <$> of_py x
       | JNull => Some None
       | _ => None end |}.
  intros [a |]; [| done]. by rewrite of_to_py.
Defined.

#[global] Instance PyVal_prod {A B} `{PyVal A, PyVal B} : PyVal (A * B).
Proof.
  refine {| to_py p := JArr [to_py p.1; to_py p.2];
     of_py j := match j with
       | JArr [x; y] => a ← of_py x; b ← of_py y; Some (a, b)
       | _ => None end |}.
  intros [a b]. cbn. by rewrite !of_to_py.
Defined.

#[global] Instance PyVal_list {A} `{PyVal A} : PyVal (list A).
Proof.
  refine {| to_py l := JArr (to_py <$> l);
     of_py j := match j with JArr l => mapM of_py l | _ => None end |}.
  intros l. apply mapM_Some. induction l; cbn; constructor; [apply of_to_py | done].
Defined.

(** A type embeds through an injection into one that does. *)
Definition PyVal_inj {A B} `{PyVal B} (f : A -> B) (g : B -> A) (Hgf : forall a, g (f a) = a)
    : PyVal A.
Proof.
  refine {| to_py a := to_py (f a); of_py j := g <$> of_py j |}.
  intros a. rewrite of_to_py. cbn. by rewrite Hgf.
Defined.

#[global] Instance PyVal_Fid : PyVal Fid.
Proof.
  refine (PyVal_inj (fun f => (container f, key f)) (fun p => mkFid p.1 p.2) _). by intros [].
Defined.

#[global] Instance PyVal_kvitem : PyVal kvitem.
Proof.
  refine (PyVal_inj (fun i => (Key i, Value i, ModifyIndex i, Session i))
    (fun '(k, v, m, s) => mkKv k v m s) _). by intros [].
Defined.

#[global] Instance PyVal_kvdata : PyVal kvdata.
Proof.
  refine (PyVal_inj (fun d => match d with
      | KVNone => (None, []) | KVItem i => (Some i, []) | KVList l => (None, [l]) end)
    (fun p => match p with
      | (Some i, _) => KVItem i | (None, l :: _) => KVList l | _ => KVNone end) _). by intros [].
Defined.

(** ** The decorators *)
Section Decorators.
Context {E : Type}.

Definition cache_get (c : nat) (fn_name args : string) (w : World E) : option json :=
  calls ← caches w !! c; fun_dict ← calls !! fn_name; fun_dict !! args.

Definition cache_put (c : nat) (fn_name args : string) (v : json) (w : World E) : World E :=
  let calls := default ∅ (caches w !! c) in
  let fun_dict := default ∅ (calls !! fn_name) in
  set_caches (<[c := <[fn_name := <[args := v]> fun_dict]> calls]> (caches w)) (next_cache w) w.

Definition cache_clear (c : nat) (w : World E) : World E :=
  set_caches (<[c := ∅]> (caches w)) (next_cache w) w.

(** [InvocationCache()] *)
Definition new_cache : M (World E) nat := fun w =>
  (Ret (next_cache w), set_caches (<[next_cache w := ∅]> (caches w)) (S (next_cache w)) w).

Definition cache_or_new (kv_cache : option nat) : M (World E) nat :=
  match kv_cache with Some c => mret c | None => new_cache end.

Definition supports_consul_cache {A} (f : option nat -> M (World E) A) (kv_cache : option nat)
    : M (World E) A :=
  c ← cache_or_new kv_cache; f (Some c).

Definition uses_consul_cache {A} `{PyVal A} (fn_name args : string)
    (f : option nat -> M (World E) A) (kv_cache : option nat) : M (World E) A :=
  c ← cache_or_new kv_cache;
  hit ← gets (cache_get c fn_name args);
  match hit ≫= of_py with
  | Some v => mret v
  | None =>
      ret_value ← f (Some c);
      modify (cache_put c fn_name args (to_py ret_value)) ;;
      mret ret_value
  end.

Definition invalidates_consul_cache {A} (f : M (World E) A) (kv_cache : option nat)
    : M (World E) A :=
  match kv_cache with
  | Some c => modify (cache_clear c) ;; f
  | None => f
  end.
End Decorators.

(** The text of the arguments: [f'{args}{kwargs}'] without the object itself and
    the cache, which are the same in every key of one cache. *)
Definition key_of (args : list string) (kwargs : list (string * string)) : string :=
  "(" +:+ String.concat ", " args +:+ "){"
    +:+ String.concat ", " ((fun '(k, v) => repr_str k +:+ ": " +:+ v) <$> kwargs) +:+ "}".

Definition py_bool (b : bool) : string := if b then "True" else "False".

Section CacheFacts.
Context {E : Type}.

(** The world without the caches. *)
Definition core (w : World E) : World E := set_caches ∅ 0 w.

Lemma cache_get_put c fn args v c' fn' args' (w : World E) :
  cache_get c' fn' args' (cache_put c fn args v w) =
  if decide (c' = c /\ fn' = fn /\ args' = args) then Some v else cache_get c' fn' args' w.
Proof.
  unfold cache_get, cache_put. cbn.
  destruct (decide (c' = c)) as [-> | Hc].
  - rewrite lookup_insert_eq. cbn. destruct (decide (fn' = fn)) as [-> | Hf].
    + rewrite lookup_insert_eq. cbn. destruct (decide (args' = args)) as [-> | Ha].
      * rewrite lookup_insert_eq. by rewrite decide_True.
      * rewrite lookup_insert_ne by done. rewrite decide_False by naive_solver.
        destruct (caches w !! c) as [calls |]; cbn; [| done].
        by destruct (calls !! fn).
    + rewrite lookup_insert_ne by done. rewrite decide_False by naive_solver.
      destruct (caches w !! c) as [calls |]; cbn; done.
  - rewrite lookup_insert_ne by done. by rewrite decide_False by naive_solver.
Qed.
End CacheFacts.
