(* ===== verification/ConsulStore.v ===== *)
(** * What hax relies on in Consul's KV store

    [store] is the documented behaviour of the KV store and of its transactions
    (check-and-set, atomicity, listing by prefix in key order).  [ConsulLaws]
    states that a client [E] of [ConsulApi] behaves as a [store] while the
    server answers; [server] is a concrete instance. *)

From S2P Require Import Prelude PyStr Json HaxTypes World.

Record store : Type := mkStore { entries : gmap string kvitem; kv_index : Z }.

Definition store_get (k : string) (s : store) : option kvitem := entries s !! k.

Definition new_entry (k v : string) (index : Z) (s : store) : kvitem :=
  mkKv k (if String.eqb v "" then None else Some v) index (entries s !! k ≫= Session).

(** [cas = Some 0]: only if the key is absent; [Some i]: only if unchanged since
    index [i]. *)
Definition cas_ok (k : string) (cas : option Z) (s : store) : bool :=
  match cas, entries s !! k with
  | None, _ => true
  | Some i, None => i =? 0
  | Some i, Some e => negb (i =? 0) && (i =? ModifyIndex e)
  end.

Definition store_set (k v : string) (s : store) : store :=
  mkStore (<[k := new_entry k v (kv_index s + 1) s]> (entries s)) (kv_index s).

Definition bump (s : store) : store := mkStore (entries s) (kv_index s + 1).

Definition store_put (k v : string) (cas : option Z) (s : store) : bool * store :=
  if cas_ok k cas s then (true, bump (store_set k v s)) else (false, s).

Definition store_delete (k : string) (s : store) : store := mkStore (delete k (entries s)) (kv_index s).

Definition store_delete_tree (p : string) (s : store) : store :=
  mkStore (filter (fun kv => String.prefix p kv.1 = false) (entries s)) (kv_index s).

Definition txn_step (op : txn_op) (s : store) : option store :=
  match op with
  | TxnSet k v =>
      match b64decode v with Ret d => Some (store_set k d s) | _ => None end
  | TxnCas k v i =>
      match b64decode v with
      | Ret d => if cas_ok k (Some i) s then Some (store_set k d s) else None
      | _ => None
      end
  | TxnDelete k => Some (store_delete k s)
  | TxnDeleteTree k => Some (store_delete_tree k s)
  end.

(** A transaction applies as a whole, at one index, or not at all. *)
Definition store_txn (ops : list txn_op) (s : store) : option store :=
  bump <$> foldl (fun o op => o ≫= txn_step op) (Some s) ops.

Fixpoint insert_sorted (i : kvitem) (l : list kvitem) : list kvitem :=
  match l with
  | [] => [i]
  | j :: l' => if String.leb (Key i) (Key j) then i :: l else j :: insert_sorted i l'
  end.

(** The entries under a prefix in the order of their keys. *)
Definition store_list (p : string) (s : store) : list kvitem :=
  foldr insert_sorted []
    (List.filter (fun i => String.prefix p (Key i)) (map_to_list (entries s)).*2).

(** [index, data = kv.get(key, recurse=...)] *)
Definition store_read (k : string) (recurse : bool) (s : store) : Z * kvdata :=
  if recurse then
    match store_list k s with
    | [] => (kv_index s, KVNone)
    | l => (kv_index s, KVList l)
    end
  else
    match store_get k s with
    | Some i => (ModifyIndex i, KVItem i)
    | None => (kv_index s, KVNone)
    end.

Class ConsulLaws (E : Type) `{ConsulApi E} := {
  view : E -> store;
  set_view : store -> E -> E;
  available : E -> bool;
  view_set s e : view (set_view s e) = s;
  set_view_view e : set_view (view e) e = e;
  set_set s s' e : set_view s (set_view s' e) = set_view s e;
  available_set s e : available (set_view s e) = available e;
  law_get k r e : available e = true -> consul_kv_get k r e = (Ret (store_read k r (view e)), e);
  law_put k v cas e : available e = true ->
    consul_kv_put k v cas e =
    let '(ok, s) := store_put k v cas (view e) in (Ret ok, set_view s e);
  law_txn ops e : available e = true ->
    consul_txn_put ops e =
    match store_txn ops (view e) with
    | Some s => (Ret tt, set_view s e)
    | None => (Raise ClientError, e)
    end;
  law_get_down k r e : available e = false -> consul_kv_get k r e = (Raise ConsulException, e);
  law_put_down k v cas e : available e = false -> consul_kv_put k v cas e = (Raise ConsulException, e);
  law_txn_down ops e : available e = false -> consul_txn_put ops e = (Raise ConsulException, e);
}.

(** ** A server *)
Record server : Type := mkServer {
  srv_store : store; srv_up : bool;
  srv_catalog : list (string * list json);     (* service name -> instances *)
  srv_health : list (string * list json);      (* consul node -> checks *)
  srv_sessions : list (string * json);
  srv_members : list json;
  srv_node_name : string;
  srv_ffi_ids : list MessageId }.

Definition if_up {A} (k : server -> A) : M server A := fun s =>
  if srv_up s then (Ret (k s), s) else (Raise ConsulException, s).

Definition set_store (st : store) (s : server) : server :=
  mkServer st (srv_up s) (srv_catalog s) (srv_health s) (srv_sessions s) (srv_members s)
    (srv_node_name s) (srv_ffi_ids s).

#[export] Instance server_api : ConsulApi server := {|
  consul_kv_get k r := if_up (fun s => store_read k r (srv_store s));
  consul_kv_put k v cas s :=
    if srv_up s then
      let '(ok, st) := store_put k v cas (srv_store s) in (Ret ok, set_store st s)
    else (Raise ConsulException, s);
  consul_txn_put ops s :=
    if srv_up s then
      match store_txn ops (srv_store s) with
      | Some st => (Ret tt, set_store st s)
      | None => (Raise ClientError, s)
      end
    else (Raise ConsulException, s);
  consul_catalog_nodes :=
    if_up (fun s => (fun n => JObj [("Node", JStr n)]) <$> (srv_health s).*1);
  consul_catalog_services := if_up (fun s => (fun n => (n.1, JArr [])) <$> srv_catalog s);
  consul_catalog_service n := if_up (fun s => default [] (dict_find n (srv_catalog s)));
  consul_agent_self := if_up (fun s => JObj [("Config", JObj [("NodeName", JStr (srv_node_name s))])]);
  consul_agent_members := if_up srv_members;
  consul_agent_force_leave _ := if_up (fun _ => tt);
  consul_session_destroy _ := if_up (fun _ => tt);
  consul_session_info i := if_up (fun s => dict_find i (srv_sessions s));
  consul_health_node n := if_up (fun s => default [] (dict_find n (srv_health s)));
|}.

#[export] Instance server_laws : ConsulLaws server.
Proof.
  refine {| view := srv_store; set_view := set_store; available := srv_up |};
    cbn; unfold if_up; try done; try (by intros * ->).
  by intros [].
Defined.

(** The calls into Motr answer with code 0 and the ids configured. *)
#[export] Instance server_ffi : MotrFfi server := {|
  ffi_init_motr_api := mret 1;
  ffi_rc _ := mret 0;
  ffi_ids _ s := (Ret (srv_ffi_ids s), s);
  ffi_filesystem_stats_fetch := mret None;
  ffi_proc_bytecount_fetch _ := mret None;
  ffi_pver_status_fetch _ := mret None;
  ffi_repair_status _ := mret None;
  ffi_rebalance_status _ := mret None;
|}.

(** A server that holds the given keys. *)
Definition store_of (l : list (string * string)) : store :=
  foldl (fun s kv => bump (store_set kv.1 kv.2 s)) (mkStore ∅ 0) l.

Definition server_of (l : list (string * string)) : server :=
  mkServer (store_of l) true [] [] [] [] "node1" [].

(** ** Lemmas *)
Section StoreLemmas.

Lemma store_set_get k v s : store_get k (store_set k v s) = Some (new_entry k v (kv_index s + 1) s).
Proof. apply lookup_insert_eq. Qed.

Lemma store_set_get_ne k k' v s : k <> k' -> store_get k' (store_set k v s) = store_get k' s.
Proof. intros Hk. by apply lookup_insert_ne. Qed.

Lemma insert_sorted_perm i l : insert_sorted i l ≡ₚ i :: l.
Proof.
  induction l as [| j l IH]; cbn; [done|]. destruct (String.leb _ _); [done|].
  rewrite IH. apply Permutation_swap.
Qed.

Lemma store_list_perm p s :
  store_list p s ≡ₚ List.filter (fun i => String.prefix p (Key i)) (map_to_list (entries s)).*2.
Proof.
  unfold store_list. induction (List.filter _ _) as [| i l IH]; cbn; [done|].
  by rewrite insert_sorted_perm, IH.
Qed.

Lemma store_list_elem p s i :
  i ∈ store_list p s <->
  String.prefix p (Key i) = true /\ exists k, entries s !! k = Some i.
Proof.
  rewrite (store_list_perm p s), list_elem_of_In, filter_In, <- list_elem_of_In.
  rewrite list_elem_of_fmap. split.
  - intros [([k j] & -> & Hk%elem_of_map_to_list) Hp]. eauto.
  - intros [Hp [k Hk]]. split; [| done]. exists (k, i). split; [done|].
    by apply elem_of_map_to_list.
Qed.
End StoreLemmas.
