(* ===== verification/Consul.v ===== *)
(** * Access to Consul ([src/hax/hax/util.py], first part)

    Retrying, the adapters of the KV store and of the catalog, the process
    groups, and the helpers that build fids and service data. *)

From S2P Require Import Prelude PyStr Json HaxTypes Message World Cache ConsulStore.

(** The exceptions of the Consul client: [except (ConsulException, HTTPError,
    RequestException)]; [ClientError] is a subclass of [ConsulException]. *)
Definition is_consul_error (e : exn) : bool :=
  match e with
  | ConsulException | ClientError | HTTPError | RequestException => true
  | _ => false
  end.

Record ServiceData : Type := mkServiceData_ {
  sd_node : string; sd_fid : Fid; ip_addr : string; address : string }.

Record FidWithType : Type := mkFidWithType { fwt_fid : Fid; service_type : string }.

Record MotrConsulProcInfo : Type := mkProcInfo { proc_status : string; proc_type : string }.

Record PutKV : Type := mkPutKV { put_key : string; put_value : string }.

Record TxPutKV : Type := mkTxPutKV { tx_key : string; tx_value : string; tx_cas : option Z }.

#[global] Instance PyVal_ServiceData : PyVal ServiceData.
Proof.
  refine (PyVal_inj (fun s => (sd_node s, sd_fid s, ip_addr s, address s))
    (fun '(n, f, i, a) => mkServiceData_ n f i a) _). by intros [].
Defined.
#[global] Instance PyVal_FidWithType : PyVal FidWithType.
Proof.
  refine (PyVal_inj (fun s => (fwt_fid s, service_type s)) (fun '(f, t) => mkFidWithType f t) _).
  by intros [].
Defined.
#[global] Instance PyVal_ProcInfo : PyVal MotrConsulProcInfo.
Proof.
  refine (PyVal_inj (fun s => (proc_status s, proc_type s)) (fun '(f, t) => mkProcInfo f t) _).
  by intros [].
Defined.

Definition consul_to_local_nodename (consul_node : string) : string :=
  default "" (head (py_split ":" consul_node)).

Definition mk_fid (obj_t : ObjT) (k : Z) : Fid := mkFid (ObjT_value obj_t) k.
Definition create_process_fid (k : Z) : Fid := mk_fid PROCESS k.
Definition create_service_fid (k : Z) : Fid := mk_fid SERVICE k.
Definition create_sdev_fid (k : Z) : Fid := mk_fid SDEV k.
Definition create_drive_fid (k : Z) : Fid := mk_fid DRIVE k.
Definition create_profile_fid (k : Z) : Fid := mk_fid PROFILE k.

Definition mkServiceData (service : json) : outcome ServiceData :=
  transport_type ← jget2 "ServiceMeta" "transport_type" service;
  addr ← jget "ServiceAddress" service;
  port ← jget "ServicePort" service;
  let sep := match transport_type with JStr t => if String.eqb t "lnet" then ":" else "@"
             | _ => "@" end in
  node ← jget "Node" service;
  node_s ← need_str node;
  sid ← jget "ServiceID" service;
  k ← int_of sid;
  ip ← jget "Address" service;
  Ret (mkServiceData_ (consul_to_local_nodename node_s) (mk_fid PROCESS k) (py_str ip)
         (py_str addr +:+ sep +:+ py_str port)).

Definition to_canonical_service_data (service : json) : outcome ServiceData :=
  node ← jget "Node" service;
  sid ← jget "ServiceID" service;
  fidk ← int_of sid;
  srv_ip_addr ← jget "Address" service;
  srv_address ← jget "ServiceAddress" service;
  srv_port ← jget "ServicePort" service;
  Ret (mkServiceData_ (py_str node) (create_process_fid fidk) (py_str srv_ip_addr)
         (py_str srv_address +:+ "@" +:+ py_str srv_port)).

Definition ha_process_events : list string :=
  ["M0_CONF_HA_PROCESS_STARTING"; "M0_CONF_HA_PROCESS_STARTED"; "M0_CONF_HA_PROCESS_STOPPING";
   "M0_CONF_HA_PROCESS_STOPPED"; "M0_CONF_HA_PROCESS_DTM_RECOVERED"].

Definition ha_conf_obj_states : list string :=
  ["M0_NC_UNKNOWN"; "M0_NC_ONLINE"; "M0_NC_FAILED"; "M0_NC_TRANSIENT"; "M0_NC_REPAIR";
   "M0_NC_REPAIRED"; "M0_NC_REBALANCE"; "M0_NC_DTM_RECOVERING"].

(** Using the result of [kv_get]: [data['Value']], [for x in data], [if data]. *)
Definition item_of (d : kvdata) : outcome kvitem :=
  match d with KVItem i => Ret i | _ => Raise TypeError end.
Definition items_of (d : kvdata) : outcome (list kvitem) :=
  match d with KVList l => Ret l | _ => Raise TypeError end.
Definition kv_truthy (d : kvdata) : bool :=
  match d with KVNone => false | KVItem _ => true | KVList l => negb (bool_decide (length l = 0%nat)) end.

Section Consul.
Context {E : Type} `{ConsulApi E} `{Others E} `{Fuel}.
Notation W := (World E).

(** ** Retrying *)
Fixpoint repeat_loop {A} (n : nat) (max_retries attempt_count : Z) (f : M W A) : M W A :=
  match n with
  | O => hang
  | S n' => fun w =>
      match f w with
      | (Raise (HAConsistencyException m), w1) =>
          if stopping w1 then (Raise (HAConsistencyException m), w1)
          else
            let attempt_count' := attempt_count + 1 in
            if (max_retries >=? 0) && (attempt_count' >? max_retries)
            then (Raise (HAConsistencyException m), w1)
            else (sleep ;; repeat_loop n' max_retries attempt_count' f) w1
      | r => r
      end
  end.

(** [@repeat_if_fails(max_retries=...)]; -1 repeats for ever. *)
Definition repeat_if_fails {A} (max_retries : Z) (f : M W A) : M W A :=
  repeat_loop fuel max_retries 0 f.

(** [wait_for_event(event, interval_sec)] *)
Definition wait_for_event (event : nat) : M W unit :=
  sleep ;;
  interrupted ← gets (fun w => bool_decide (event ∈ events_set w));
  if (interrupted : bool) then raise InterruptedException else mret tt.

(** [try: m except (ConsulException, HTTPError, RequestException) as e: raise
    HAConsistencyException(message) from e] *)
Definition wrap_consul {A} (message : string) (m : M W A) : M W A :=
  catch m (fun e =>
    if is_consul_error e then Some (raise (HAConsistencyException message)) else None).

(** ** KVAdapter *)
Definition kv_get_raw (key : string) (recurse : bool) : M W (Z * kvdata) :=
  assert (negb (String.eqb key "")) ;;
  wrap_consul "Could not access Consul KV" (on_env (consul_kv_get key recurse)).

Definition kv_get_kwargs (recurse allow_null : option bool) : list (string * string) :=
  match allow_null with Some b => [("allow_null", py_bool b)] | None => [] end
  ++ match recurse with Some b => [("recurse", py_bool b)] | None => [] end.

(** [kv_get(key, allow_null=..., recurse=..., kv_cache=...)]; [None] for a
    keyword that is not passed. *)
Definition kv_get (key : string) (recurse allow_null : option bool) (kv_cache : option nat)
    : M W kvdata :=
  uses_consul_cache "KVAdapter.kv_get" (key_of [repr_str key] (kv_get_kwargs recurse allow_null))
    (fun _ =>
       data ← kv_get_raw key (default false recurse);
       match snd data with
       | KVNone =>
           if default false allow_null then mret KVNone
           else raise (HAConsistencyException "Could not get data from Consul KV")
       | d => mret d
       end) kv_cache.

Definition kv_put (key data : string) (cas : option Z) (kv_cache : option nat) : M W bool :=
  invalidates_consul_cache
    (assert (negb (String.eqb key "")) ;;
     wrap_consul "Failed to put value to KV" (on_env (consul_kv_put key data cas))) kv_cache.

(** The local function [to_payload] of [kv_put_in_transaction]: [if v.cas]. *)
Definition to_payload (v : TxPutKV) : txn_op :=
  let b64_str := b64encode (tx_value v) in
  match tx_cas v with
  | Some index => if index =? 0 then TxnSet (tx_key v) b64_str else TxnCas (tx_key v) b64_str index
  | None => TxnSet (tx_key v) b64_str
  end.

Definition txn_put (ops : list txn_op) (message : string) : M W bool :=
  catch (on_env (consul_txn_put ops) ;; mret true) (fun e =>
    match e with
    | ClientError => Some (mret false)
    | _ => if is_consul_error e then Some (raise (HAConsistencyException message)) else None
    end).

Definition kv_put_in_transaction (tx_payload : list TxPutKV) : M W bool :=
  txn_put (to_payload <$> tx_payload) "Failed to put value to KV".

Definition delete_payload (v : KeyDelete) : txn_op :=
  if kd_recurse v then TxnDeleteTree (kd_name v) else TxnDelete (kd_name v).

Definition kv_delete_in_transaction (tx_payload : list KeyDelete) : M W bool :=
  repeat_if_fails 5
    (txn_put (delete_payload <$> tx_payload) "Failed to delete key(s) from KV").

(** ** CatalogAdapter *)
Definition get_node_names : M W (list string) :=
  wrap_consul "Cannot access Consul catalog"
    (nodes ← on_env consul_catalog_nodes;
     map_m (fun node => n ← lift (jget "Node" node); mret (py_str n)) nodes).

Definition get_service_names : M W (list string) :=
  wrap_consul "Cannot access Consul catalog"
    (services ← on_env consul_catalog_services; mret (dict_keys services)).

Definition get_services (svc_name : string) : M W (list json) :=
  wrap_consul "Could not access Consul Catalog" (on_env (consul_catalog_service svc_name)).

(** ** ProcessGroup *)
Definition group_of (proc_fid : Fid) (w : W) : outcome nat :=
  match length (process_locks w) with
  | O => Raise (OtherException "ZeroDivisionError")
  | n => Ret (Z.to_nat (key proc_fid mod Z.of_nat n))
  end.

(** [Lock.acquire()] blocks while another thread holds the lock. *)
Fixpoint acquire (n : nat) (group : nat) : M W unit := fun w =>
  match process_locks w !! group with
  | None => (Raise IndexError, w)
  | Some false => (Ret tt, set_locks (<[group := true]> (process_locks w)) w)
  | Some true => match n with O => (Hang, w) | S n' => acquire n' group (others w) end
  end.

Definition release (group : nat) : M W unit := fun w =>
  match process_locks w !! group with
  | None => (Raise IndexError, w)
  | Some true => (Ret tt, set_locks (<[group := false]> (process_locks w)) w)
  | Some false => (Raise (RuntimeError "release unlocked lock"), w)
  end.

Definition process_group_lock (proc_fid : Fid) : M W unit :=
  g ← (fun w => (group_of proc_fid w, w)); acquire fuel g.

Definition process_group_unlock (proc_fid : Fid) : M W unit :=
  g ← (fun w => (group_of proc_fid w, w)); release g.
End Consul.

(** ** Properties *)
Section ConsulProps.
Context {E : Type} `{ConsulApi E} `{!ConsulLaws E} `{Others E} `{Fuel}.
Notation W := (World E).
Implicit Types w : World E.

Lemma wrap_consul_ret {A} msg (m : M W A) w a w' :
  m w = (Ret a, w') -> wrap_consul msg m w = (Ret a, w').
Proof. intros Hm. unfold wrap_consul, catch. by rewrite Hm. Qed.

Lemma wrap_consul_error {A} msg (m : M W A) w e w' :
  m w = (Raise e, w') -> is_consul_error e = true ->
  wrap_consul msg m w = (Raise (HAConsistencyException msg), w').
Proof. intros Hm He. unfold wrap_consul, catch. by rewrite Hm, He. Qed.

Lemma set_env_same w : set_env (env w) w = w.
Proof. by destruct w. Qed.

Lemma on_env_get k r w :
  available (env w) = true ->
  on_env (consul_kv_get k r) w = (Ret (store_read k r (view (env w))), w).
Proof.
  intros Ha. unfold on_env. rewrite law_get by done. by rewrite set_env_same.
Qed.

Lemma kv_get_raw_ok k r w :
  available (env w) = true -> k <> "" ->
  kv_get_raw k r w = (Ret (store_read k r (view (env w))), w).
Proof.
  intros Ha Hk. unfold kv_get_raw, assert.
  destruct (String.eqb_spec k "") as [-> | _]; [done|].
  apply wrap_consul_ret. by apply on_env_get.
Qed.

(** The answer of [kv_get] when the server is reachable. *)
Definition kv_get_outcome (k : string) (r an : option bool) (s : store) : outcome kvdata :=
  match (store_read k (default false r) s).2 with
  | KVNone => if default false an then Ret KVNone
              else Raise (HAConsistencyException "Could not get data from Consul KV")
  | d => Ret d
  end.

Lemma kv_get_body k r an w :
  available (env w) = true -> k <> "" ->
  (data ← kv_get_raw k (default false r);
   match snd data with
   | KVNone =>
       if default false an then mret KVNone
       else raise (HAConsistencyException "Could not get data from Consul KV")
   | d => mret d
   end) w = (kv_get_outcome k r an (view (env w)), w).
Proof.
  intros Ha Hk. rewrite (bind_unfold_Ret _ _ _ _ _ (kv_get_raw_ok k _ w Ha Hk)).
  unfold kv_get_outcome. destruct (store_read _ _ _) as [i []]; cbn; [| done | done].
  by destruct (default false an).
Qed.

Lemma core_env w w0 : core w = core w0 -> env w = env w0.
Proof. intros Hc. by apply (f_equal env) in Hc. Qed.

Definition clear_cache (kv : option nat) (w : W) : W :=
  match kv with Some c => cache_clear c w | None => w end.

Lemma clear_cache_env kv w : env (clear_cache kv w) = env w.
Proof. by destruct kv. Qed.

Lemma kv_put_ok k v cas kv w :
  available (env w) = true -> k <> "" ->
  kv_put k v cas kv w =
  (Ret (store_put k v cas (view (env w))).1,
   set_env (set_view (store_put k v cas (view (env w))).2 (env w)) (clear_cache kv w)).
Proof.
  intros Ha Hk.
  assert (Hbody : forall w1, env w1 = env w ->
    (assert (negb (String.eqb k "")) ;;
     wrap_consul "Failed to put value to KV" (on_env (consul_kv_put k v cas))) w1
    = (Ret (store_put k v cas (view (env w))).1,
       set_env (set_view (store_put k v cas (view (env w))).2 (env w)) w1)).
  { intros w1 He. unfold assert. destruct (String.eqb_spec k "") as [-> | _]; [done|].
    cbn [negb]. rewrite bind_mret. apply wrap_consul_ret. unfold on_env.
    rewrite law_put by by rewrite He. rewrite He. by destruct (store_put _ _ _ _). }
  unfold kv_put, invalidates_consul_cache. destruct kv as [c |]; [| by apply Hbody].
  rewrite bind_modify. by apply Hbody.
Qed.

Lemma cache_clear_get c fn args w : cache_get c fn args (cache_clear c w) = None.
Proof. unfold cache_get, cache_clear. cbn. by rewrite lookup_insert_eq. Qed.

(** Without an entry in its cache, [kv_get] asks the server. *)
Lemma kv_get_miss_core k r an kv w d :
  available (env w) = true -> k <> "" ->
  kv_get_outcome k r an (view (env w)) = Ret d ->
  (forall c, kv = Some c -> forall fn args, cache_get c fn args w = None) ->
  exists w', kv_get k r an kv w = (Ret d, w') /\ core w' = core w.
Proof.
  intros Ha Hk Hd Hmiss. unfold kv_get, uses_consul_cache.
  assert (Hmain : forall w1 c, core w1 = core w -> (forall fn args, cache_get c fn args w1 = None) ->
    exists w', (hit ← gets (cache_get c "KVAdapter.kv_get" (key_of [repr_str k] (kv_get_kwargs r an)));
      match hit ≫= of_py with
      | Some v => mret v
      | None => ret_value ← (data ← kv_get_raw k (default false r);
          match snd data with
          | KVNone => if default false an then mret KVNone
              else raise (HAConsistencyException "Could not get data from Consul KV")
          | d => mret d end);
          modify (cache_put c "KVAdapter.kv_get" (key_of [repr_str k] (kv_get_kwargs r an))
                    (to_py ret_value)) ;; mret ret_value end) w1 = (Ret d, w') /\ core w' = core w).
  { intros w1 c Hco Hm. pose proof (core_env _ _ Hco) as He. rewrite bind_gets, Hm.
    change (None ≫= of_py) with (None : option kvdata). cbv iota.
    eexists. rewrite (bind_unfold_Ret _ _ w1 d w1); [| rewrite kv_get_body; rewrite ?He; by rewrite ?Hd].
    split; [reflexivity | exact Hco]. }
  destruct kv as [c |]; cbn [cache_or_new].
  - apply (Hmain w c); [done | by apply Hmiss].
  - apply (Hmain (new_cache w).2 (next_cache w)); [done|].
    intros fn args. unfold cache_get. cbn. by rewrite lookup_insert_eq.
Qed.

Lemma kv_get_miss k r an kv w d :
  available (env w) = true -> k <> "" ->
  kv_get_outcome k r an (view (env w)) = Ret d ->
  (forall c, kv = Some c -> forall fn args, cache_get c fn args w = None) ->
  exists w', kv_get k r an kv w = (Ret d, w') /\ env w' = env w.
Proof.
  intros Ha Hk Hd Hm. destruct (kv_get_miss_core k r an kv w d Ha Hk Hd Hm) as (w' & Hg & Hc).
  exists w'. split; [exact Hg | by apply core_env].
Qed.

(** *** Retrying *)

(** [attempts n f w w']: the first [n] calls of [f] from [w] raise
    [HAConsistencyException] while no stop is requested, and [w'] is the world
    after the last of the sleeps between them. *)
Fixpoint attempts {A} (n : nat) (f : M W A) (w w' : W) : Prop :=
  match n with
  | O => w' = w
  | S n' => exists m w1, f w = (Raise (HAConsistencyException m), w1) /\ stopping w1 = false
              /\ attempts n' f (others w1) w'
  end.

Lemma repeat_loop_success {A} (f : M W A) n k count w w' r w'' :
  attempts n f w w' -> f w' = (r, w'') ->
  (forall m, r <> Raise (HAConsistencyException m)) -> (n < k)%nat ->
  repeat_loop k (-1) count f w = (r, w'').
Proof.
  revert k count w. induction n as [| n IH]; intros k count w Ha Hf Hr Hk; cbn in Ha.
  - subst w'. destruct k as [| k]; [lia|]. cbn. rewrite Hf.
    by destruct r as [a | [] |]; try done; destruct (Hr message).
  - destruct Ha as (m & w1 & E1 & Hs & Ha). destruct k as [| k]; [lia|]. cbn.
    rewrite E1, Hs. change (-1 >=? 0) with false. cbn [andb].
    unfold sleep. rewrite bind_modify. apply IH; [done | done | done | lia].
Qed.

Lemma repeat_loop_bounded {A} (f : M W A) k mx count w :
  (forall w, (f w).1 <> Hang) -> 0 <= mx -> 0 <= count <= mx -> mx - count < Z.of_nat k ->
  (repeat_loop k mx count f w).1 <> Hang.
Proof.
  intros Hf Hmx. revert count w. induction k as [| k IH]; intros count w Hc Hk; [lia|].
  cbn. pose proof (Hf w) as Hw. destruct (f w) as [r w1].
  destruct r as [a | e |]; [done | | done].
  destruct e; try done. destruct (stopping w1); [done|].
  destruct (_ && _) eqn:Eb; [done|]. unfold sleep. rewrite bind_modify. apply IH; [| lia].
  rewrite Z.geb_leb, Z.gtb_ltb in Eb. destruct (Z.leb_spec 0 mx); [| lia].
  destruct (Z.ltb_spec mx (count + 1)); [done | lia].
Qed.

Lemma repeat_if_fails_ret {A} mx (f : M W A) w r w' :
  f w = (r, w') -> (forall m, r <> Raise (HAConsistencyException m)) -> fuel <> 0%nat ->
  repeat_if_fails mx f w = (r, w').
Proof.
  intros Hf Hr Hn. unfold repeat_if_fails. destruct fuel as [| k]; [done|]. cbn. rewrite Hf.
  by destruct r as [a | [] |]; try done; destruct (Hr message).
Qed.

(** The run that returns, after the attempts that were given up. *)
Lemma repeat_if_fails_run {A} mx (f : M W A) w a w' :
  repeat_if_fails mx f w = (Ret a, w') -> exists n w1, attempts n f w w1 /\ f w1 = (Ret a, w').
Proof.
  unfold repeat_if_fails. generalize 0. revert w. induction fuel as [| k IH]; intros w c; cbn; [done|].
  destruct (f w) as [[b | e |] w1] eqn:Ef; [intros [= <- <-]; by exists 0%nat, w | | done].
  destruct e; try done. destruct (stopping w1) eqn:Es; [done|]. destruct (_ && _); [done|].
  unfold sleep. rewrite bind_modify. intros (n & w2 & Ha & Hf)%IH.
  exists (S n), w2. split; [| done]. cbn. by eauto.
Qed.

End ConsulProps.

(** Read your writes.  After [kv_put] through a cache, [kv_get] through the
    same cache (or none) returns the value written, whatever the cache held. *)
Theorem kv_get_after_put {E} `{ConsulApi E} `{!ConsulLaws E} `{Others E} `{Fuel}
    k v kv (w : World E) :
  available (env w) = true -> k <> "" -> v <> "" ->
  exists w1 w2 i, kv_put k v None kv w = (Ret true, w1)
    /\ kv_get k None None kv w1 = (Ret (KVItem i), w2) /\ Value i = Some v.
Proof.
  intros Ha Hk Hv. set (s := (store_put k v None (view (env w))).2).
  set (w1 := set_env (set_view s (env w)) (clear_cache kv w)).
  destruct (kv_get_miss k None None kv w1
    (KVItem (new_entry k v (kv_index (view (env w)) + 1) (view (env w))))) as (w2 & Hg & _).
  - cbn. by rewrite available_set.
  - done.
  - unfold kv_get_outcome, store_read. cbn. rewrite view_set. unfold s. cbn.
    unfold store_get. cbn. by rewrite lookup_insert_eq.
  - intros c -> fn args. apply (cache_clear_get c fn args w).
  - exists w1, w2. eexists. rewrite kv_put_ok by done. split; [done|]. split; [exact Hg|].
    cbn. destruct (String.eqb_spec v "") as [-> |]; done.
Qed.

(** Retrying.  With no limit on the retries, the first outcome that is not
    [HAConsistencyException] is returned, after any number [n] of failures; the
    loop is given [fuel] above [n]. *)
Theorem repeat_if_fails_first_success {E A} `{Others E} `{Fuel} (f : M (World E) A) n w w' r w'' :
  attempts n f w w' -> f w' = (r, w'') ->
  (forall m, r <> Raise (HAConsistencyException m)) -> (n < fuel)%nat ->
  repeat_if_fails (-1) f w = (r, w'').
Proof. intros Ha Hf Hr Hk. by eapply repeat_loop_success. Qed.

(** Bounded retrying terminates: with a limit [mx] the loop ends within
    [mx + 1] calls of [f]. *)
Theorem repeat_if_fails_terminates {E A} `{Others E} `{Fuel} (f : M (World E) A) mx w :
  (forall w, (f w).1 <> Hang) -> 0 <= mx < Z.of_nat fuel -> (repeat_if_fails mx f w).1 <> Hang.
Proof. intros Hf Hmx. apply repeat_loop_bounded; [done | lia | lia | lia]. Qed.

(** ** Witnesses *)
Section Witnesses.

Definition demo_fuel : Fuel := 10%nat.
Definition demo_others : Others server := fun w => w.
(** While the thread sleeps, the server comes up. *)
Definition demo_repair : Others server := fun w =>
  set_env (mkServer (srv_store (env w)) true (srv_catalog (env w)) (srv_health (env w))
    (srv_sessions (env w)) (srv_members (env w)) (srv_node_name (env w)) (srv_ffi_ids (env w))) w.
Definition demo_world : World server := world_init (server_of [("a", "1")]) None 3.
Definition down_world : World server :=
  world_init (mkServer (store_of [("a", "1")]) false [] [] [] [] "node1" []) None 3.
#[local] Existing Instances demo_fuel demo_others.

Lemma kv_get_after_put_witness :
  exists w1 w2 i, kv_put "a" "2" None None demo_world = (Ret true, w1)
    /\ kv_get "a" None None None w1 = (Ret (KVItem i), w2) /\ Value i = Some "2".
Proof. apply kv_get_after_put; [reflexivity | discriminate | discriminate]. Defined.

Lemma repeat_if_fails_first_success_witness :
  let read : M (World server) (Z * kvdata) := kv_get_raw "a" false in
  (read down_world).1 = Raise (HAConsistencyException "Could not access Consul KV")
  /\ (@repeat_if_fails server demo_repair demo_fuel _ (-1) read down_world).1
     = (read (demo_repair down_world)).1.
Proof.
  cbn zeta. split; [reflexivity|].
  rewrite (@repeat_if_fails_first_success server _ demo_repair demo_fuel (kv_get_raw "a" false) 1
    down_world (demo_repair down_world) (kv_get_raw "a" false (demo_repair down_world)).1
    (kv_get_raw "a" false (demo_repair down_world)).2).
  - reflexivity.
  - eexists _, _. repeat split.
  - reflexivity.
  - intros m. vm_compute. discriminate.
  - unfold fuel, demo_fuel. lia.
Defined.

Lemma repeat_if_fails_terminates_witness :
  (repeat_if_fails 5 (kv_get_raw "a" false) down_world).1 <> Hang.
Proof.
  apply repeat_if_fails_terminates; [| unfold fuel, demo_fuel; lia].
  intros w. unfold kv_get_raw, wrap_consul. run. unfold on_env, if_up. cbn.
  destruct (srv_up (env w)); cbn; discriminate.
Defined.
End Witnesses.
