(* ===== verification/Queue.v ===== *)
(** * The message queues in Consul ([src/hax/hax/queue/publish.py], [offset.py])

    A queue is a prefix of the KV store with an epoch counter.  [publish] takes
    the next epoch and writes the message in one transaction that checks that
    the counter did not move; a consumer remembers the last epoch it has read
    and takes the newer messages in the order of their epochs. *)

From Stdlib Require Import Sorting.Sorted.
From S2P Require Import Prelude PyStr Json HaxTypes Message World Cache ConsulStore Consul.

Record Publisher : Type := mkPublisher { queue_prefix : string; epoch_key : string }.

Definition BQPublisher : Publisher := mkPublisher "bq" "epoch".
Definition EQPublisher : Publisher := mkPublisher "eq" "eq-epoch".

Record OffsetStorage : Type := mkOffset { os_node_name : string; key_prefix : string }.

Definition get_key_by_node (prefix node_name : string) : string := prefix +:+ "/" +:+ node_name.

Section Queue.
Context {E : Type} `{ConsulApi E} `{Others E} `{Fuel}.
Notation W := (World E).

(** [simplejson.dumps(Message(...))]: a NamedTuple is printed as an object. *)
Definition message_json (timestamp message_type : string) (payload : json) : json :=
  JObj [("timestamp", JStr timestamp); ("message_type", JStr message_type); ("payload", payload)].

(** The two requests of one round of the loop of [publish]. *)
Definition publish_read (p : Publisher) : M W (Z * Z) :=
  r ← kv_get_raw (epoch_key p) false;
  i ← lift (item_of (snd r));
  value ← lift (int_of_value (Value i));
  mret (fst r, value).

Definition publish_write (p : Publisher) (data : string) (index value : Z) : M W bool :=
  let next_epoch := value + 1 in
  let new_key := queue_prefix p +:+ "/" +:+ dec_str next_epoch in
  kv_put_in_transaction [mkTxPutKV (epoch_key p) (dec_str next_epoch) (Some index);
                         mkTxPutKV new_key data None].

Fixpoint publish_loop (n : nat) (p : Publisher) (data : string) : M W Z :=
  match n with
  | O => hang
  | S n' =>
      r ← publish_read p;
      ok ← publish_write p data (fst r) (snd r);
      if (ok : bool) then mret (snd r + 1) else publish_loop n' p data
  end.

Definition publish (p : Publisher) (timestamp message_type payload : string) : M W Z :=
  repeat_if_fails (-1)
    (data ← lift (loads payload);
     publish_loop fuel p (dumps (message_json timestamp message_type data))).

Definition mark_last_read (o : OffsetStorage) (message_epoch : Z) : M W unit :=
  repeat_if_fails (-1)
    (kv_put (get_key_by_node (key_prefix o) (os_node_name o)) (dec_str message_epoch) None None ;;
     mret tt).

Definition get_last_read_epoch (o : OffsetStorage) : M W Z :=
  repeat_if_fails (-1)
    (raw ← kv_get (get_key_by_node (key_prefix o) (os_node_name o)) None (Some true) None;
     if kv_truthy raw then
       i ← lift (item_of raw);
       match Value i with
       | None => mret (-1)
       | Some v => lift (py_int 10 v)
       end
     else mret (-1)).

(** The local function [to_tuple] of [InboxFilter.prepare]. *)
Definition to_tuple (value : json) : outcome (Z * string) :=
  k ← jget "Key" value;
  ks ← need_str k;
  match rx_match [RStar; RLit "/"; RDigits; REnd] ks with
  | None => Raise AssertionError
  | Some gs =>
      epoch ← py_int 10 (group1 gs);
      v ← jget "Value" value;
      match v with
      | JStr s => d ← b64decode s; Ret (epoch, d)
      | _ => Raise TypeError
      end
  end.

(** [messages.sort(key=lambda x: x[0])] is stable. *)
Fixpoint insert_msg (x : Z * string) (l : list (Z * string)) : list (Z * string) :=
  match l with
  | [] => [x]
  | y :: l' => if fst x <=? fst y then x :: l else y :: insert_msg x l'
  end.

Definition sort_msgs (l : list (Z * string)) : list (Z * string) := foldr insert_msg [] l.

Definition prepare (o : OffsetStorage) (raw_input : list json) : M W (list (Z * string)) :=
  offset ← get_last_read_epoch o;
  messages ← map_m (fun item => lift (to_tuple item)) raw_input;
  mret (List.filter (fun x => fst x >? offset) (sort_msgs messages)).
End Queue.

(** ** Sorting *)
Section Sorting.
Implicit Types l : list (Z * string).

Definition epoch_le (x y : Z * string) : Prop := fst x <= fst y.

Lemma insert_msg_perm x l : insert_msg x l ≡ₚ x :: l.
Proof.
  induction l as [| y l IH]; cbn; [done|]. destruct (_ <=? _); [done|].
  rewrite IH. apply Permutation_swap.
Qed.

Lemma sort_msgs_perm l : sort_msgs l ≡ₚ l.
Proof. induction l as [| x l IH]; cbn; [done|]. by rewrite insert_msg_perm, IH. Qed.

Lemma insert_msg_sorted x l : StronglySorted epoch_le l -> StronglySorted epoch_le (insert_msg x l).
Proof.
  induction l as [| y l IH]; cbn; intros Hs; [by repeat constructor|].
  apply StronglySorted_inv in Hs as [Hs Hy].
  destruct (Z.leb_spec (fst x) (fst y)) as [Hle | Hlt].
  - constructor; [by constructor|]. constructor; [done|].
    eapply Forall_impl; [exact Hy|]. unfold epoch_le. intros z ?. lia.
  - constructor; [auto|]. rewrite insert_msg_perm. constructor; [unfold epoch_le; lia | done].
Qed.

Lemma sort_msgs_sorted l : StronglySorted epoch_le (sort_msgs l).
Proof. induction l as [| x l IH]; cbn; [constructor | by apply insert_msg_sorted]. Qed.

(** Messages of one epoch keep their order. *)
Lemma insert_msg_stable e x l :
  StronglySorted epoch_le l ->
  List.filter (fun y => fst y =? e) (insert_msg x l) = List.filter (fun y => fst y =? e) (x :: l).
Proof.
  induction l as [| y l IH]; [done|]. intros [Hs Hy]%StronglySorted_inv. cbn [insert_msg].
  destruct (Z.leb_spec (fst x) (fst y)) as [| Hlt]; [done|]. cbn [List.filter].
  rewrite IH by done. cbn [List.filter].
  destruct (Z.eqb_spec (fst x) e); destruct (Z.eqb_spec (fst y) e); try done; lia.
Qed.

Lemma sort_msgs_stable e l :
  List.filter (fun y => fst y =? e) (sort_msgs l) = List.filter (fun y => fst y =? e) l.
Proof.
  induction l as [| x l IH]; [done|]. cbn [sort_msgs foldr].
  change (foldr insert_msg [] l) with (sort_msgs l).
  rewrite insert_msg_stable by apply sort_msgs_sorted. cbn [List.filter]. by rewrite IH.
Qed.

Lemma Permutation_filter_bool (f : Z * string -> bool) l l' :
  l ≡ₚ l' -> List.filter f l ≡ₚ List.filter f l'.
Proof.
  induction 1 as [| x l l' _ IH | x y l | l1 l2 l3 _ IH1 _ IH2]; cbn.
  - done.
  - destruct (f x); by rewrite IH.
  - destruct (f x), (f y); try done. apply Permutation_swap.
  - by rewrite IH1.
Qed.

Lemma sorted_filter (f : Z * string -> bool) l :
  StronglySorted epoch_le l -> StronglySorted epoch_le (List.filter f l).
Proof.
  induction 1 as [| x l Hs IH Hx]; cbn; [constructor|]. destruct (f x); [| done].
  constructor; [done|]. rewrite Forall_forall in *. intros y Hy. apply Hx.
  apply list_elem_of_In in Hy. apply filter_In in Hy as [Hy _]. by apply list_elem_of_In.
Qed.
End Sorting.

(** ** Reading back what was published *)
Section RoundTrip.

Lemma greedy_none {A} ok (k : list ascii -> option A) s :
  (forall t, t `suffix_of` s -> k t = None) -> greedy ok k s = None.
Proof.
  induction s as [| c s IH]; cbn; intros Hk.
  - by rewrite Hk.
  - rewrite (Hk (c :: s)) by done. rewrite IH; [by destruct (ok c)|].
    intros t Ht. apply Hk. by apply suffix_cons_r.
Qed.

Lemma greedy_skip {A} ok (k : list ascii -> option A) l s r :
  Forall (fun c => ok c = true) l -> greedy ok k s = Some r ->
  greedy ok k (l ++ s) = Some (l ++ r.1, r.2).
Proof.
  induction 1 as [| c l Hc _ IH]; cbn; intros Hs; [by rewrite Hs; destruct r|].
  by rewrite Hc, IH.
Qed.

Definition is_digit_char (c : ascii) : Prop := rx_digit c = true.

Lemma digit_rx_spec d : 0 <= d < 10 -> rx_digit (digit_char d) = true.
Proof.
  intros Hd.
  assert (d = 0 \/ d = 1 \/ d = 2 \/ d = 3 \/ d = 4 \/ d = 5 \/ d = 6 \/ d = 7 \/ d = 8 \/ d = 9)
    as Hcases by lia.
  by repeat destruct Hcases as [-> | Hcases]; [..| subst].
Qed.

Lemma greedy_digits_end ds :
  Forall is_digit_char ds ->
  greedy rx_digit (rx_run [REnd]) ds = Some (ds, []).
Proof.
  intros Hd. assert (Hnil : greedy rx_digit (rx_run [REnd]) [] = Some ([], [])) by done.
  pose proof (greedy_skip rx_digit (rx_run [REnd]) ds [] _ Hd Hnil) as Hg.
  by rewrite !app_nil_r in Hg.
Qed.

Lemma rx_epoch_chars l ds :
  Forall (fun c => rx_any c = true) l -> Forall is_digit_char ds -> ds <> [] ->
  rx_run [RStar; RLit "/"; RDigits; REnd] (l ++ "/"%char :: ds)
  = Some [string_of_list_ascii ds].
Proof.
  intros Hl Hd Hne. change (rx_run [RStar; RLit "/"; RDigits; REnd] (l ++ "/"%char :: ds))
    with (snd <$> greedy rx_any (rx_run [RLit "/"; RDigits; REnd]) (l ++ "/"%char :: ds)).
  assert (Hk : rx_run [RLit "/"; RDigits; REnd] ("/"%char :: ds) = Some [string_of_list_ascii ds]).
  { change (capture (greedy1 rx_digit (rx_run [REnd]) ds) = Some [string_of_list_ascii ds]).
    destruct ds as [| d ds]; [done|]. apply Forall_cons in Hd as [Hd Hds].
    cbn [greedy1]. rewrite Hd. by rewrite greedy_digits_end. }
  assert (Hs : greedy rx_any (rx_run [RLit "/"; RDigits; REnd]) ("/"%char :: ds)
    = Some ([], [string_of_list_ascii ds])).
  { cbn [greedy]. change (rx_any "/") with true. cbv iota.
    rewrite greedy_none; [by rewrite Hk|]. intros t [u Ht].
    destruct t as [| c t]; [done|].
    assert (Hc : is_digit_char c).
    { rewrite Forall_forall in Hd. apply Hd. rewrite Ht. set_solver. }
    cbn [rx_run list_ascii_of_string strip_lit]. destruct (Ascii.eqb_spec "/" c) as [<- |]; done. }
  by rewrite (greedy_skip _ _ _ _ _ Hl Hs).
Qed.

Lemma dec_digits e : 0 <= e ->
  Forall is_digit_char (list_ascii_of_string (dec_str e))
  /\ list_ascii_of_string (dec_str e) <> [].
Proof.
  intros He. unfold dec_str. destruct (Z.ltb_spec e 0); [lia|].
  rewrite nat_str_digits. split.
  - rewrite Forall_fmap. pose proof (to_digits_range (digits_fuel e) 10 e ltac:(lia) He) as Hr.
    eapply Forall_impl; [exact Hr|]. intros d Hd. by apply digit_rx_spec.
  - intros Hn%fmap_nil_inv. by apply to_digits_nonempty in Hn.
Qed.
End RoundTrip.

(** ** Concurrent publishers

    Publishers of one queue on several nodes share the store.  A round of the
    loop is two requests, a read and a transaction, and the requests of different
    publishers interleave; other clients write other keys. *)
Section Publishers.
Context {E : Type} `{ConsulApi E} `{!ConsulLaws E} `{Others E} `{Fuel}.
Context (p : Publisher) (data : nat -> string).
Notation W := (World E).

Inductive pub_state : Type := PIdle | PRead (index value : Z) | PDone (epoch : Z).

Record pubs : Type := mkPubs { pub_world : W; pub : gmap nat pub_state }.

Definition msg_key (e : Z) : string := queue_prefix p +:+ "/" +:+ dec_str e.

Inductive pub_step : pubs -> pubs -> Prop :=
| ps_start s i : pub s !! i = None -> pub_step s (mkPubs (pub_world s) (<[i := PIdle]> (pub s)))
| ps_read s i r w : pub s !! i = Some PIdle -> publish_read p (pub_world s) = (Ret r, w) ->
    pub_step s (mkPubs w (<[i := PRead (fst r) (snd r)]> (pub s)))
| ps_write s i index value ok w : pub s !! i = Some (PRead index value) ->
    publish_write p (data i) index value (pub_world s) = (Ret ok, w) ->
    pub_step s (mkPubs w (<[i := if ok : bool then PDone (value + 1) else PIdle]> (pub s)))
| ps_other s k v w : k <> epoch_key p -> (forall e, k <> msg_key e) ->
    kv_put k v None None (pub_world s) = (Ret true, w) -> pub_step s (mkPubs w (pub s)).

Inductive pub_reach (s0 : pubs) : pubs -> Prop :=
| pr_refl : pub_reach s0 s0
| pr_step s s' : pub_reach s0 s -> pub_step s s' -> pub_reach s0 s'.

(** The counter is at [n]: it was [n0] when the first publisher started. *)
Record pub_inv (n0 n : Z) (s : pubs) : Prop := {
  pi_up : available (env (pub_world s)) = true;
  pi_le : n0 <= n;
  pi_epoch : exists i, store_get (epoch_key p) (view (env (pub_world s))) = Some i
    /\ Value i = Some (dec_str n)
    /\ 1 <= ModifyIndex i <= kv_index (view (env (pub_world s)))
    /\ forall j index value, pub s !! j = Some (PRead index value) ->
         1 <= index <= ModifyIndex i /\ (index = ModifyIndex i -> value = n);
  pi_done : forall j e, pub s !! j = Some (PDone e) -> n0 < e <= n
    /\ exists i, store_get (msg_key e) (view (env (pub_world s))) = Some i
                 /\ Value i = Some (data j);
  pi_all : forall e, n0 < e <= n -> exists j, pub s !! j = Some (PDone e);
  pi_inj : forall j j' e, pub s !! j = Some (PDone e) -> pub s !! j' = Some (PDone e) -> j = j' }.

Hypothesis Hslash : no_char "/" (epoch_key p).
Hypothesis Hkey : epoch_key p <> "".
Hypothesis Hdata : forall i, data i <> "".

Lemma msg_key_ne e : epoch_key p <> msg_key e.
Proof.
  intros He. rewrite He in Hslash. unfold msg_key in Hslash.
  apply no_char_app in Hslash as [_ Hs]. rewrite append_cons in Hs.
  by apply no_char_cons in Hs as [? _].
Qed.

Lemma msg_key_inj e e' : msg_key e = msg_key e' -> e = e'.
Proof.
  unfold msg_key. intros He. apply (inj (append _)) in He. rewrite !append_cons, !append_nil in He.
  injection He as He. pose proof (py_int_dec_str e) as Hp. rewrite He, py_int_dec_str in Hp.
  by injection Hp.
Qed.

Lemma publish_read_ok w i n :
  available (env w) = true -> store_get (epoch_key p) (view (env w)) = Some i ->
  Value i = Some (dec_str n) -> publish_read p w = (Ret (ModifyIndex i, n), w).
Proof.
  intros Ha Hi Hv. unfold publish_read.
  rewrite (bind_unfold_Ret _ _ _ _ _ (kv_get_raw_ok _ _ _ Ha Hkey)).
  unfold store_read. rewrite Hi. unfold mbind, M_bind, lift. cbn. rewrite Hv. cbn.
  by rewrite py_int_dec_str.
Qed.

(** The transaction moves the counter and adds the message, or does nothing. *)
Lemma publish_write_ok w j index n i :
  available (env w) = true -> store_get (epoch_key p) (view (env w)) = Some i -> 1 <= index ->
  publish_write p (data j) index n w =
  if index =? ModifyIndex i then
    (Ret true, set_env (set_view (bump (store_set (msg_key (n + 1)) (data j)
       (store_set (epoch_key p) (dec_str (n + 1)) (view (env w))))) (env w)) w)
  else (Ret false, w).
Proof.
  intros Ha Hi Hx. unfold publish_write, kv_put_in_transaction. cbn [fmap list_fmap].
  assert (Hp1 : to_payload (mkTxPutKV (epoch_key p) (dec_str (n + 1)) (Some index))
    = TxnCas (epoch_key p) (b64encode (dec_str (n + 1))) index).
  { unfold to_payload. cbn [tx_cas tx_key tx_value].
    by destruct (Z.eqb_spec index 0) as [? | _]; [lia|]. }
  rewrite Hp1. change (to_payload (mkTxPutKV (queue_prefix p +:+ "/" +:+ dec_str (n + 1)) (data j) None))
    with (TxnSet (msg_key (n + 1)) (b64encode (data j))).
  unfold txn_put, catch, on_env, mbind, M_bind. rewrite law_txn by done.
  unfold store_txn. cbn [foldl mbind option_bind txn_step].
  rewrite b64decode_b64encode. unfold cas_ok. unfold store_get in Hi. rewrite Hi.
  destruct (Z.eqb_spec index 0) as [? | _]; [lia|]. cbn [negb andb].
  destruct (_ =? _); cbn [fmap option_fmap option_map mbind option_bind txn_step].
  - by rewrite b64decode_b64encode.
  - by rewrite set_env_same.
Qed.

(** A publisher that has no epoch yet moves to a state without one. *)
Lemma pub_inv_update n0 n s j x :
  pub_inv n0 n s -> (forall e, pub s !! j <> Some (PDone e)) -> (forall e, x <> PDone e) ->
  (forall index value, x = PRead index value ->
     exists i, store_get (epoch_key p) (view (env (pub_world s))) = Some i
               /\ index = ModifyIndex i /\ value = n) ->
  pub_inv n0 n (mkPubs (pub_world s) (<[j := x]> (pub s))).
Proof.
  intros [Hup Hle (i & Hi & Hv & Hix & Hread) Hdone Hall Hinj] Hold Hnew Hx.
  constructor; cbn; [done | done | | | |].
  - exists i. split; [done|]. split; [done|]. split; [done|]. intros j' index value.
    destruct (decide (j' = j)) as [-> | Hne]; [| rewrite lookup_insert_ne by done; apply Hread].
    rewrite lookup_insert_eq. intros [= ->]. destruct (Hx index value eq_refl) as (i' & Hi' & -> & ->).
    assert (i' = i) as -> by congruence. split; [lia | done].
  - intros j' e. destruct (decide (j' = j)) as [-> | Hne]; [| rewrite lookup_insert_ne by done; auto].
    rewrite lookup_insert_eq. intros [= ->]. by destruct (Hnew e).
  - intros e He. destruct (Hall e He) as [j' Hj']. exists j'.
    rewrite lookup_insert_ne; [done | intros ->; by apply Hold in Hj'].
  - intros j1 j2 e. destruct (decide (j1 = j)) as [-> | Hn1].
    { rewrite lookup_insert_eq. intros [= ->]. by destruct (Hnew e). }
    destruct (decide (j2 = j)) as [-> | Hn2].
    { rewrite (lookup_insert_eq _ j). intros _ [= ->]. by destruct (Hnew e). }
    rewrite !lookup_insert_ne by done. apply Hinj.
Qed.

(** A transaction that goes through: the epoch read was the current one. *)
Lemma pub_inv_commit n0 n s j index :
  pub_inv n0 n s -> pub s !! j = Some (PRead index n) ->
  pub_inv n0 (n + 1)
    (mkPubs (set_env (set_view (bump (store_set (msg_key (n + 1)) (data j)
       (store_set (epoch_key p) (dec_str (n + 1)) (view (env (pub_world s))))))
       (env (pub_world s))) (pub_world s)) (<[j := PDone (n + 1)]> (pub s))).
Proof.
  intros [Hup Hle (i & Hi & Hv & Hix & Hread) Hdone Hall Hinj] Hj.
  set (st := view (env (pub_world s))) in *.
  assert (Hlt : forall j' e, pub s !! j' = Some (PDone e) -> j' <> j /\ e <= n).
  { intros j' e He. split; [congruence | by apply Hdone in He as [[_ ?] _]]. }
  constructor; cbn; rewrite ?view_set, ?available_set; [done | lia | | | |].
  - exists (new_entry (epoch_key p) (dec_str (n + 1)) (kv_index st + 1) st).
    unfold bump, store_get. cbn. rewrite lookup_insert_ne by (apply not_eq_sym, msg_key_ne).
    rewrite lookup_insert_eq. split; [done|]. split.
    { destruct (String.eqb_spec (dec_str (n + 1)) "") as [He |]; [| done].
      pose proof (py_int_dec_str (n + 1)) as Hp. by rewrite He in Hp. }
    split; [lia|]. intros j' index' value'. destruct (decide (j' = j)) as [-> | Hne];
      [by rewrite lookup_insert_eq | rewrite lookup_insert_ne by done].
    intros Hr. apply Hread in Hr as [? _]. split; lia.
  - intros j' e. destruct (decide (j' = j)) as [-> | Hne].
    + rewrite lookup_insert_eq. intros [= <-]. split; [lia|]. eexists.
      unfold bump, store_get. cbn. rewrite lookup_insert_eq. split; [done|]. cbn.
      destruct (String.eqb_spec (data j) "") as [He |]; [by apply Hdata in He | done].
    + rewrite lookup_insert_ne by done. intros He. destruct (Hdone j' e He) as [? (i' & Hi' & Hv')].
      split; [lia|]. exists i'. split; [| done]. unfold bump, store_get. cbn.
      rewrite lookup_insert_ne; [| intros Heq%msg_key_inj; lia].
      rewrite lookup_insert_ne by apply msg_key_ne. done.
  - intros e He. destruct (Z.eq_dec e (n + 1)) as [-> | Hne].
    + exists j. by rewrite lookup_insert_eq.
    + destruct (Hall e) as [j' Hj']; [lia|]. exists j'. rewrite lookup_insert_ne; [done|].
      by destruct (Hlt _ _ Hj').
  - intros j1 j2 e. destruct (decide (j1 = j)) as [-> | Hn1]; destruct (decide (j2 = j)) as [-> | Hn2];
      rewrite ?lookup_insert_eq, ?lookup_insert_ne by done; [done | | | apply Hinj].
    + intros [= <-] He%Hlt. lia.
    + intros He%Hlt [= <-]. lia.
Qed.

(** A write of another client. *)
Lemma pub_inv_other n0 n s k v :
  pub_inv n0 n s -> k <> epoch_key p -> (forall e, k <> msg_key e) ->
  pub_inv n0 n (mkPubs (set_env (set_view (bump (store_set k v (view (env (pub_world s)))))
     (env (pub_world s))) (pub_world s)) (pub s)).
Proof.
  intros [Hup Hle (i & Hi & Hv & Hix & Hread) Hdone Hall Hinj] Hk Hm.
  constructor; cbn; rewrite ?view_set, ?available_set; [done | done | | | done | done].
  - exists i. unfold bump, store_get. cbn. rewrite lookup_insert_ne by done.
    split; [done|]. split; [done|]. split; [lia | exact Hread].
  - intros j e He. destruct (Hdone j e He) as [? (i' & Hi' & Hv')]. split; [done|].
    exists i'. split; [| done]. unfold bump, store_get. cbn. by rewrite lookup_insert_ne.
Qed.

Lemma pub_inv_step n0 n s s' :
  pub_inv n0 n s -> pub_step s s' -> exists n', pub_inv n0 n' s'.
Proof.
  intros Hinv Hstep. destruct (pi_epoch _ _ _ Hinv) as (i & Hi & Hv & Hix & Hread).
  pose proof (pi_up _ _ _ Hinv) as Hup.
  destruct Hstep as [s j Hj | s j r w Hj Hr | s j index value ok w Hj Hw | s k v w Hk Hm Hw].
  - exists n. by apply pub_inv_update; rewrite ?Hj.
  - rewrite (publish_read_ok _ i n Hup Hi Hv) in Hr. injection Hr as <- <-. exists n.
    apply pub_inv_update; [done | by rewrite Hj | done |].
    intros index value [= <- <-]. by exists i.
  - destruct (Hread _ _ _ Hj) as [Hx Heq].
    rewrite (publish_write_ok _ j index value i Hup Hi) in Hw by lia.
    destruct (Z.eqb_spec index (ModifyIndex i)) as [-> | Hne]; injection Hw as <- <-.
    + rewrite (Heq eq_refl) in Hj |- *. exists (n + 1). by eapply pub_inv_commit.
    + exists n. apply pub_inv_update; [done | by rewrite Hj | done | done].
  - destruct (String.eqb_spec k "") as [-> | Hkn]; [by vm_compute in Hw|].
    rewrite kv_put_ok in Hw by done. cbn in Hw. injection Hw as <-.
    exists n. by apply pub_inv_other.
Qed.
End Publishers.

Lemma wf_message ts ty j : wf_json j -> wf_json (message_json ts ty j).
Proof.
  intros Hj. unfold message_json. constructor.
  - cbn. repeat (constructor; [set_solver|]). constructor.
  - by repeat constructor.
Qed.

(** What a Consul watch posts for an entry: the value is base64. *)
Definition watch_entry (k v : string) : json :=
  JObj [("Key", JStr k); ("Value", JStr (b64encode v))].

(** The message handed over is the one stored. *)
Lemma to_tuple_entry (prefix v : string) (e : Z) :
  0 <= e -> Forall (fun c => rx_any c = true) (list_ascii_of_string prefix) ->
  to_tuple (watch_entry (prefix +:+ "/" +:+ dec_str e) v) = Ret (e, v).
Proof.
  intros He Hp. destruct (dec_digits e He) as [Hd Hne].
  unfold to_tuple, watch_entry. cbn [jget dict_find String.eqb Ascii.eqb Bool.eqb dict_get].
  cbn [mbind outcome_bind need_str]. unfold rx_match.
  rewrite list_ascii_of_string_app, append_cons, append_nil. cbn [list_ascii_of_string].
  rewrite rx_epoch_chars by done. cbn [group1 lookup list_lookup default from_option id].
  rewrite string_of_list_ascii_of_string, py_int_dec_str.
  cbn [mbind outcome_bind]. by rewrite b64decode_b64encode.
Qed.

(** C3: epochs.  However the requests of several publishers of a queue
    interleave with each other and with the writes of other clients, every epoch
    between the first and the current value of the counter was given to exactly
    one publisher, and the message of that publisher is stored under it. *)
Theorem publishers_get_distinct_epochs {E} `{ConsulApi E} `{!ConsulLaws E} `{Others E} `{Fuel}
    p data (w0 : World E) i0 n0 s :
  no_char "/" (epoch_key p) -> epoch_key p <> "" -> (forall i, data i <> "") ->
  available (env w0) = true ->
  store_get (epoch_key p) (view (env w0)) = Some i0 -> Value i0 = Some (dec_str n0) ->
  1 <= ModifyIndex i0 <= kv_index (view (env w0)) ->
  pub_reach p data (mkPubs w0 ∅) s ->
  exists n, n0 <= n
    /\ (exists i, store_get (epoch_key p) (view (env (pub_world s))) = Some i
                  /\ Value i = Some (dec_str n))
    /\ (forall e, n0 < e <= n -> exists j, pub s !! j = Some (PDone e)
           /\ forall j', pub s !! j' = Some (PDone e) -> j' = j)
    /\ (forall j e, pub s !! j = Some (PDone e) -> n0 < e <= n
           /\ exists i, store_get (msg_key p e) (view (env (pub_world s))) = Some i
                        /\ Value i = Some (data j)).
Proof.
  intros Hslash Hkey Hdata Hup Hi Hv Hix Hreach.
  assert (Hinv : exists n, pub_inv p data n0 n s).
  { induction Hreach as [| s s' _ [n IH] Hstep]; [| by eapply pub_inv_step].
    exists n0. constructor; cbn; try done.
    - exists i0. repeat split; try done; try lia.
    - intros e ?. lia. }
  destruct Hinv as [n [Hup' Hle (i & Hi' & Hv' & _) Hdone Hall Hinj]].
  exists n. split; [done|]. split; [eauto|]. split; [| done].
  intros e He. destruct (Hall e He) as [j Hj]. exists j. split; [done|].
  intros j' Hj'. by apply (Hinj j' j e).
Qed.

(** C32: the inbox.  [prepare] returns exactly the messages posted whose epoch is
    above the last one read, in the order of their epochs; messages with the same
    epoch keep the order they were posted in. *)
Theorem prepare_selects_and_sorts {E} `{ConsulApi E} `{Others E} `{Fuel}
    o raw msgs off (w w1 : World E) :
  get_last_read_epoch o w = (Ret off, w1) ->
  Forall2 (fun j m => to_tuple j = Ret m) raw msgs ->
  exists res, prepare o raw w = (Ret res, w1)
    /\ StronglySorted epoch_le res
    /\ res ≡ₚ List.filter (fun x => fst x >? off) msgs
    /\ (forall e, e > off -> List.filter (fun x => fst x =? e) res
                            = List.filter (fun x => fst x =? e) msgs).
Proof.
  intros Hoff Hmsgs. exists (List.filter (fun x => fst x >? off) (sort_msgs msgs)).
  assert (Hmap : forall w : World E, map_m (fun item => lift (to_tuple item)) raw w = (Ret msgs, w)).
  { intros w2. induction Hmsgs as [| j m raw msgs Hj _ IH]; [done|]. cbn [map_m].
    rewrite (bind_unfold_Ret _ _ w2 m w2) by (unfold lift; by rewrite Hj).
    by rewrite (bind_unfold_Ret _ _ _ _ _ IH). }
  repeat split.
  - unfold prepare. rewrite (bind_unfold_Ret _ _ _ _ _ Hoff).
    by rewrite (bind_unfold_Ret _ _ _ _ _ (Hmap w1)).
  - apply sorted_filter, sort_msgs_sorted.
  - apply Permutation_filter_bool, sort_msgs_perm.
  - intros e He. rewrite <- (sort_msgs_stable e msgs).
    induction (sort_msgs msgs) as [| x l IH]; [done|]. cbn [List.filter].
    destruct (Z.eqb_spec (fst x) e) as [Hx | Hx]; rewrite Z.gtb_ltb;
      destruct (Z.ltb_spec off (fst x)); cbn [List.filter];
      rewrite ?(proj2 (Z.eqb_eq _ _) Hx), ?(proj2 (Z.eqb_neq _ _) Hx); try (by rewrite IH); lia.
Qed.

(** C33: from publisher to inbox.  With nobody else publishing, [publish] returns
    the next epoch and stores the message, and the entry a watch then posts is
    decoded by the inbox to that epoch and to a text that parses to the message. *)
Theorem published_message_is_read {E} `{ConsulApi E} `{!ConsulLaws E} `{Others E} `{Fuel}
    p ts ty payload j (w : World E) i n :
  no_char "/" (epoch_key p) -> epoch_key p <> "" ->
  Forall (fun c => rx_any c = true) (list_ascii_of_string (queue_prefix p)) ->
  available (env w) = true -> fuel <> 0%nat ->
  store_get (epoch_key p) (view (env w)) = Some i -> Value i = Some (dec_str n) ->
  1 <= ModifyIndex i -> 0 <= n ->
  loads payload = Ret j -> wf_json j ->
  exists w' i', publish p ts ty payload w = (Ret (n + 1), w')
    /\ store_get (msg_key p (n + 1)) (view (env w')) = Some i'
    /\ exists text, Value i' = Some text
       /\ to_tuple (watch_entry (msg_key p (n + 1)) text) = Ret (n + 1, text)
       /\ loads text = Ret (message_json ts ty j).
Proof.
  intros Hslash Hkey Hpre Hup Hfuel Hi Hv Hix Hn Hj Hwf.
  set (data := dumps (message_json ts ty j)).
  assert (Hwfm : wf_json (message_json ts ty j)).
  { apply wf_message. done. }
  pose proof (publish_read_ok p Hkey w i n Hup Hi Hv) as Hr.
  pose proof (publish_write_ok p (fun _ => data) w 0 (ModifyIndex i) n i Hup Hi Hix) as Hw.
  rewrite Z.eqb_refl in Hw.
  eexists _, (new_entry (msg_key p (n + 1)) data (kv_index (view (env w)) + 1) _).
  split; [| split; [| exists data; repeat split]].
  - unfold publish. apply repeat_if_fails_ret; [| done | done].
    rewrite (bind_unfold_Ret _ _ w j w) by (unfold lift; by rewrite Hj). fold data.
    destruct fuel as [| k]; [done|]. cbn [publish_loop].
    rewrite (bind_unfold_Ret _ _ _ _ _ Hr). cbn [fst snd].
    by rewrite (bind_unfold_Ret _ _ _ _ _ Hw).
  - cbn. rewrite view_set. unfold store_get, bump. cbn. rewrite lookup_insert_eq. done.
  - apply to_tuple_entry; [lia | done].
  - by apply loads_dumps_wf.
Qed.

(** ** Witnesses *)
Section Witnesses.
#[local] Existing Instances demo_fuel demo_others.

Definition epoch_world (n : string) : World server :=
  world_init (server_of [("epoch", n)]) None 3.

Definition demo_data (i : nat) : string := "x".

(** Two publishers read the same epoch; the second transaction is refused. *)
Definition p1 : gmap nat pub_state := <[1%nat := PIdle]> (<[0%nat := PIdle]> ∅).
Definition p2 : gmap nat pub_state := <[1%nat := PRead 1 5]> (<[0%nat := PRead 1 5]> p1).
Definition committed : pubs (E := server) :=
  mkPubs (publish_write BQPublisher (demo_data 0) 1 5 (epoch_world "5")).2 (<[0%nat := PDone 6]> p2).
Definition race : pubs (E := server) :=
  mkPubs (pub_world committed) (<[1%nat := PIdle]> (pub committed)).

Lemma race_reachable : pub_reach BQPublisher demo_data (mkPubs (epoch_world "5") ∅) race.
Proof.
  eapply (pr_step _ _ _ committed).
  2: { eapply (ps_write _ _ committed 1%nat 1 5 false); vm_compute; reflexivity. }
  eapply (pr_step _ _ _ (mkPubs (epoch_world "5") p2)).
  2: { eapply (ps_write _ _ (mkPubs (epoch_world "5") p2) 0%nat 1 5 true); vm_compute; reflexivity. }
  eapply (pr_step _ _ _ (mkPubs (epoch_world "5") (<[0%nat := PRead 1 5]> p1))).
  2: { eapply (ps_read _ _ (mkPubs _ _) 1%nat (1, 5)); vm_compute; reflexivity. }
  eapply (pr_step _ _ _ (mkPubs (epoch_world "5") p1)).
  2: { eapply (ps_read _ _ (mkPubs _ _) 0%nat (1, 5)); vm_compute; reflexivity. }
  eapply (pr_step _ _ _ (mkPubs (epoch_world "5") (<[0%nat := PIdle]> ∅))).
  2: { apply (ps_start _ _ (mkPubs _ _) 1%nat). vm_compute; reflexivity. }
  eapply pr_step; [apply pr_refl |]. apply (ps_start _ _ (mkPubs _ _) 0%nat). reflexivity.
Qed.

Lemma publishers_get_distinct_epochs_witness :
  exists n, 5 <= n /\ forall j e, pub race !! j = Some (PDone e) -> 5 < e <= n.
Proof.
  destruct (publishers_get_distinct_epochs BQPublisher demo_data (epoch_world "5")
    (mkKv "epoch" (Some "5") 1 None) 5 race) as (n & Hn & _ & _ & Hd).
  - repeat (constructor; [discriminate|]). constructor.
  - discriminate.
  - intros i. discriminate.
  - reflexivity.
  - vm_compute; reflexivity.
  - vm_compute; reflexivity.
  - vm_compute. split; discriminate.
  - apply race_reachable.
  - exists n. split; [done|]. intros j e He. by apply Hd in He as [? _].
Defined.

Definition inbox : list json := [watch_entry "bq/10" "b"; watch_entry "bq/9" "a"; watch_entry "bq/2" "z"].

Lemma prepare_selects_and_sorts_witness :
  exists res w1, prepare (mkOffset "node1" "bq-delivered") inbox
      (world_init (server_of [("bq-delivered/node1", "5")]) None 3) = (Ret res, w1)
    /\ StronglySorted epoch_le res.
Proof.
  destruct (prepare_selects_and_sorts (mkOffset "node1" "bq-delivered") inbox
    [(10, "b"); (9, "a"); (2, "z")] 5
    (world_init (server_of [("bq-delivered/node1", "5")]) None 3)
    (get_last_read_epoch (mkOffset "node1" "bq-delivered")
       (world_init (server_of [("bq-delivered/node1", "5")]) None 3)).2) as (res & Hp & Hs & _).
  - vm_compute; reflexivity.
  - repeat constructor.
  - eauto.
Defined.

Lemma published_message_is_read_witness :
  exists w' i', publish BQPublisher "now" "SNS_OP" "[1]" (epoch_world "5") = (Ret 6, w')
    /\ store_get "bq/6" (view (env w')) = Some i'.
Proof.
  destruct (published_message_is_read BQPublisher "now" "SNS_OP" "[1]" (JArr [JInt 1])
    (epoch_world "5") (mkKv "epoch" (Some "5") 1 None) 5) as (w' & i' & Hp & Hs & _).
  - repeat (constructor; [discriminate|]). constructor.
  - discriminate.
  - repeat constructor.
  - reflexivity.
  - discriminate.
  - vm_compute; reflexivity.
  - vm_compute; reflexivity.
  - discriminate.
  - discriminate.
  - vm_compute; reflexivity.
  - repeat constructor.
  - exists w', i'. split; [exact Hp | exact Hs].
Defined.
End Witnesses.
