(* ===== verification/ConsulUtil.v ===== *)
(** * ConsulUtil: names, services and the nodes of the cluster
      ([src/hax/hax/util.py])

    One definition per method.  The argument [kv] is the [kv_cache] keyword,
    [None] where a caller does not pass it on; the text of the arguments given to
    [uses_consul_cache] is the key Python builds from them. *)

From S2P Require Import Prelude PyStr Json HaxTypes Message World Delivery Cache ConsulStore.
From S2P Require Import Consul.

(** ** Fids with a dynamic part *)

Definition get_base_fid (obj_fid : Fid) : outcome Fid :=
  objt ← FidTypeToObjT (container obj_fid);
  fid_mask ← ObjTMaskMap objt;
  Ret (mkFid (container obj_fid) (Z.land (key obj_fid) (key fid_mask))).

(** Keys of the entries whose last component is the fid. *)
Definition keys_ending_with (fid : Fid) (node_items : list kvitem) : list string :=
  List.filter (fun k => String.eqb (fid_repr fid) (py_last (py_split "/" k))) (Key <$> node_items).

Definition get_process_keys (node_items : list kvitem) (fidk : Z) : list string :=
  keys_ending_with (mk_fid PROCESS fidk) node_items.

Definition get_service_keys (node_items : list kvitem) (fidk : Z) : list string :=
  keys_ending_with (mk_fid SERVICE fidk) node_items.

(** ['/'.join(key.split('/')[:3])] *)
Definition node_key_of (k : string) : string := py_join "/" (take 3 (py_split "/" k)).

(** [s in l] on a parsed list of strings. *)
Definition in_strings (s : string) (l : list json) : bool :=
  existsb (fun j => match j with JStr t => String.eqb s t | _ => false end) l.

Section ConsulUtil.
Context {E : Type} `{ConsulApi E} `{Others E} `{Fuel}.
Notation W := (World E).
Notation retry := (repeat_if_fails (-1)).

(** [for x in l: r = f(x); if r: return r] *)
Fixpoint find_m {A B} (f : A -> M W (option B)) (l : list A) : M W (option B) :=
  match l with
  | [] => mret None
  | x :: l' => r ← f x; match r with Some b => mret (Some b) | None => find_m f l' end
  end.

Definition get_consul_node (node : string) : M W (option string) :=
  consul_node_data ← kv_get ("consul/node/" +:+ node) None (Some true) None;
  if kv_truthy consul_node_data then
    i ← lift (item_of consul_node_data);
    v ← lift (decode_value (Value i));
    mret (Some v)
  else mret None.

Definition service_by_name (hostname svc_name : string) : M W (option json) :=
  consul_node ← get_consul_node hostname;
  match consul_node with
  | None => mret None
  | Some cn =>
      if String.eqb cn "" then mret None
      else
        svcs ← get_services svc_name;
        found ← find_m (fun svc =>
          n ← lift (jget "Node" svc);
          mret (if py_in (py_str n) cn then Some svc else None)) svcs;
        match found with
        | Some svc => mret (Some svc)
        | None => raise (HAConsistencyException "No Consul service found at node")
        end
  end.

Definition get_local_nodename : M W string :=
  wrap_consul "Failed to communicate to Consul Agent"
    (e ← gets hare_hax_node_name;
     match e with
     | Some n =>
         if String.eqb n "" then
           j ← on_env consul_agent_self;
           n' ← lift (jget2 "Config" "NodeName" j);
           mret (consul_to_local_nodename (py_str n'))
         else mret (consul_to_local_nodename n)
     | None =>
         j ← on_env consul_agent_self;
         n' ← lift (jget2 "Config" "NodeName" j);
         mret (consul_to_local_nodename (py_str n'))
     end).

Definition force_leave (node : string) : M W unit :=
  retry (catch (on_env (consul_agent_force_leave node))
           (fun _ => Some (raise (HAConsistencyException "Force leaving agent")))).

Definition local_service_by_name (name : string) (kv : option nat) : M W (option json) :=
  uses_consul_cache "ConsulUtil._local_service_by_name" (key_of [repr_str name] [])
    (fun _ =>
       local_nodename ← get_local_nodename;
       service_by_name local_nodename name) kv.

(** [if not svc] *)
Definition need_service (o : option json) (message : string) : outcome json :=
  match o with
  | Some svc => if truthy svc then Ret svc else Raise (HAConsistencyException message)
  | None => Raise (HAConsistencyException message)
  end.

Definition service_id (svc : json) : outcome Z := sid ← jget "ServiceID" svc; int_of sid.

Definition get_hax_fid (kv : option nat) : M W Fid :=
  uses_consul_cache "ConsulUtil.get_hax_fid" (key_of [] [])
    (fun _ =>
       o ← local_service_by_name "hax" None;
       svc ← lift (need_service o "Error fetching hax svc");
       k ← lift (service_id svc);
       mret (mk_fid PROCESS k)) kv.

Definition service_data (kv : option nat) : M W ServiceData :=
  uses_consul_cache "ConsulUtil._service_data" (key_of [] [])
    (fun kv =>
       f ← get_hax_fid kv;
       services ← get_services "hax";
       found ← find_m (fun svc =>
         k ← lift (service_id svc);
         if k =? key f then d ← lift (mkServiceData svc); mret (Some d) else mret None) services;
       match found with
       | Some d => mret d
       | None => raise (RuntimeError "Unreachable")
       end) kv.

Definition get_ha_fid (kv : option nat) : M W Fid :=
  uses_consul_cache "ConsulUtil.get_ha_fid" (key_of [] [])
    (fun _ =>
       o ← local_service_by_name "hax" None;
       svc ← lift (need_service o "Error fetching hax svc");
       k ← lift (service_id svc);
       mret (mk_fid SERVICE (k + 1))) kv.

Definition get_leader_session_no_wait : M W string :=
  catch (leader ← kv_get "leader" None None None;
         i ← lift (item_of leader);
         s ← lift (dict_get "Session" (Session i));
         mret s)
    (fun e => match e with
       | KeyError _ => Some (raise (HAConsistencyException "Could not get the leader from Consul"))
       | _ => None end).

Definition get_leader_session : M W string := retry get_leader_session_no_wait.

Definition get_session_node (session_id : string) : M W string :=
  wrap_consul "Failed to communicate to Consul Agent"
    (o ← on_env (consul_session_info session_id);
     match o with
     | None => raise (HAConsistencyException "Failed to get session node")
     | Some session =>
         n ← lift (jget_or "Node" JNull session);
         match n with
         | JNull => raise (HAConsistencyException "Failed to get session node")
         | _ => mret (consul_to_local_nodename (py_str n))
         end
     end).

Definition get_rm_fid (kv : option nat) : M W Fid :=
  retry (uses_consul_cache "ConsulUtil.get_rm_fid" (key_of [] [])
    (fun kv =>
       s ← get_leader_session;
       rm_node ← get_session_node s;
       o ← service_by_name rm_node "confd";
       confd ← lift (need_service o "Error fetching confd svc");
       pfidk ← lift (service_id confd);
       d ← kv_get ("m0conf/nodes/" +:+ rm_node +:+ "/processes/" +:+ dec_str pfidk
                     +:+ "/services/rms") None None kv;
       i ← lift (item_of d);
       fidk ← lift (int_of_value (Value i));
       mret (mk_fid SERVICE fidk)) kv).

(** [if not x: raise HAConsistencyException(...)] *)
Definition non_empty (s message : string) : outcome string :=
  if String.eqb s "" then Raise (HAConsistencyException message) else Ret s.

Definition get_hax_endpoint (kv : option nat) : M W string :=
  uses_consul_cache "ConsulUtil.get_hax_endpoint" (key_of [] [])
    (fun kv => d ← service_data kv; lift (non_empty (address d) "Error fetching hax endpoint")) kv.

Definition get_hax_ip_address (kv : option nat) : M W string :=
  uses_consul_cache "ConsulUtil.get_hax_ip_address" (key_of [] [])
    (fun kv => retry (d ← service_data kv;
                      lift (non_empty (ip_addr d) "Error fetching hax ip address"))) kv.

Definition get_hax_hostname (kv : option nat) : M W string :=
  uses_consul_cache "ConsulUtil.get_hax_hostname" (key_of [] [])
    (fun kv => retry (d ← service_data kv;
                      lift (non_empty (sd_node d) "Error fetching hax hostname"))) kv.

Definition get_hax_http_port : M W Z :=
  o ← local_service_by_name "hax" None;
  svc ← lift (need_service o "Error fetching hax svc");
  meta ← lift (jget "ServiceMeta" svc);
  port ← lift (jget_or "http_port" (JInt 8008) meta);
  lift (int_of port).

Definition get_hax_ssl_config (kv : option nat) : M W (option json) :=
  uses_consul_cache "ConsulUtil.get_hax_ssl_config" (key_of [] [])
    (fun kv => retry
       (ssl_data ← kv_get "ssl/hax" None (Some true) kv;
        if kv_truthy ssl_data then
          i ← lift (item_of ssl_data);
          data ← lift (loads_value (Value i));
          mret (Some data)
        else mret None)) kv.

Definition get_all_nodes (kv : option nat) : M W (list kvitem) :=
  retry (uses_consul_cache "ConsulUtil.get_all_nodes" (key_of [] [])
    (fun kv => d ← kv_get "m0conf/nodes" (Some true) None kv; lift (items_of d)) kv).

Definition get_all_nodes_cached : M W (list kvitem) :=
  cached ← gets all_node_items;
  match cached with
  | [] =>
      items ← get_all_nodes None;
      modify (set_all_node_items items) ;;
      mret items
  | _ => mret cached
  end.

Definition fid_to_endpoint (proc_fid : Fid) : M W (option string) :=
  retry
    (process_items ← get_all_nodes_cached;
     let regex := [RLit "m0conf/"; RStar;
                   RLit ("/processes/" +:+ dec_str (key proc_fid) +:+ "/endpoint")] in
     find_m (fun proc_item =>
       match rx_match regex (Key proc_item) with
       | None => mret None
       | Some _ =>
           d ← kv_get (Key proc_item) None None None;
           i ← lift (item_of d);
           v ← lift (decode_value (Value i));
           mret (Some v)
       end) process_items).

Definition get_leader_node : M W string :=
  retry
    (leader ← kv_get "leader" None (Some true) None;
     match leader with
     | KVNone => raise (HAConsistencyException "No leader key exists yet")
     | d =>
         i ← lift (item_of d);
         match Value i with
         | None => raise (HAConsistencyException "No RC leader found")
         | Some node => mret node
         end
     end).

Definition is_leader_value_present_for_session : M W bool :=
  leader ← kv_get "leader" None (Some true) None;
  match leader with
  | KVNone => mret false
  | d => i ← lift (item_of d); mret (match Value i with None => false | Some _ => true end)
  end.

Definition destroy_session (session : string) : M W unit :=
  wrap_consul "Failed to communicate to Consul Agent" (on_env (consul_session_destroy session)).

Definition am_i_rc : M W bool :=
  leader ← get_leader_node;
  this_node ← get_local_nodename;
  mret (String.eqb leader this_node).

(** [services_dict[int(svc['ServiceID'])] = mkServiceData(svc)]: a later
    instance with the same id replaces the earlier one in its place. *)
Definition get_service_data_by_name (name : string) : M W (list ServiceData) :=
  services ← get_services name;
  services_dict ← fold_m (fun d svc =>
    k ← lift (service_id svc);
    s ← lift (mkServiceData svc);
    mret (alist_set k s d)) ([] : list (Z * ServiceData)) services;
  mret (services_dict.*2).

Definition get_confd_list : M W (list ServiceData) := get_service_data_by_name "confd".

Definition is_process_confd (proc_fid : Fid) : M W bool :=
  retry (confds ← get_confd_list;
         mret (existsb (fun confd => fid_eqb proc_fid (sd_fid confd)) confds)).

Definition services_regex (process_fid : Fid) : list rx :=
  [RLit "m0conf/"; RStar; RLit ("/processes/" +:+ dec_str (key process_fid) +:+ "/services/");
   RPlus; REnd].

Definition get_services_by_parent_process (process_fid : Fid) (kv : option nat)
    : M W (list FidWithType) :=
  uses_consul_cache "ConsulUtil.get_services_by_parent_process"
    (key_of [fid_repr process_fid] [])
    (fun _ =>
       node_items ← get_all_nodes_cached;
       fold_m (fun services node =>
         match rx_match (services_regex process_fid) (Key node) with
         | None => mret services
         | Some gs =>
             srv_fidk ← lift (int_of_value (Value node));
             mret (services ++ [mkFidWithType (mk_fid SERVICE srv_fidk) (group1 gs)])
         end) [] node_items) kv.

(** Iterating over a parsed value. *)
Definition jiter (j : json) : outcome (list json) :=
  match j with
  | JArr l => Ret l
  | JObj l => Ret (JStr <$> dict_keys l)
  | JStr s => Ret ((fun c => JStr (String c "")) <$> list_ascii_of_string s)
  | _ => Raise TypeError
  end.

Definition get_m0_client_types : M W (list json) :=
  retry (m0_client_types ← kv_get "m0_client_types" None None None;
         i ← lift (item_of m0_client_types);
         j ← lift (loads_value (Value i));
         lift (jiter j)).

Definition is_proc_client (process_fid : Fid) : M W bool :=
  retry
    (node_items ← get_all_nodes_cached;
     client_types ← get_m0_client_types;
     mret (existsb (fun node =>
       match rx_match (services_regex process_fid) (Key node) with
       | None => false
       | Some gs => in_strings (group1 gs) client_types
       end) node_items)).

(** [member['Status']] is an int; 1 is alive. *)
Definition is_node_alive (node : string) (kv : option nat) : M W bool :=
  uses_consul_cache "ConsulUtil.is_node_alive" (key_of [repr_str node] [])
    (fun _ => wrap_consul "Failed to members data from Consul"
      (members_data ← on_env consul_agent_members;
       found ← find_m (fun member =>
         n ← lift (jget "Name" member);
         s ← lift (need_str n);
         if String.eqb (consul_to_local_nodename s) node then
           st ← lift (jget "Status" member);
           z ← lift (int_of st);
           mret (Some (z =? 1))
         else mret None) members_data;
       mret (default true found))) kv.

Definition get_node_health_details (node : string) (kv : option nat) : M W (option (list json)) :=
  uses_consul_cache "ConsulUtil.get_node_health_details" (key_of [repr_str node] [])
    (fun _ => wrap_consul "Failed to get node health"
      (consul_node ← get_consul_node node;
       match consul_node with
       | None => mret None
       | Some cn =>
           if String.eqb cn "" then mret None
           else l ← on_env (consul_health_node cn); mret (Some l)
       end)) kv.

(** [str(node_data[0]['Status'])], [None] when there are no checks. *)
Definition first_status (node_data : option (list json)) : outcome (option string) :=
  match node_data with
  | None | Some [] => Ret None
  | Some (c :: _) => s ← jget "Status" c; Ret (Some (py_str s))
  end.

Definition get_node_health_status (node : string) (kv : option nat) : M W string :=
  uses_consul_cache "ConsulUtil.get_node_health_status" (key_of [repr_str node] [])
    (fun kv => wrap_consul "Failed to get node health"
      (node_data ← get_node_health_details node kv;
       s ← lift (first_status node_data);
       mret (default "offline" s))) kv.

Definition get_node_hare_motr_s3_fids (node : string) : M W (list Fid) :=
  node_data ← get_node_health_details node None;
  fold_m (fun fids item =>
    n ← lift (jget "ServiceName" item);
    if in_strings (py_str n) [JStr "hax"; JStr "ios"; JStr "confd"; JStr "s3service"] then
      k ← lift (service_id item);
      mret (fids ++ [mk_fid PROCESS k])
    else mret fids) [] (default [] node_data).

Definition get_node_fid (node : string) (use_cache : bool) (kv : option nat) : M W (option Fid) :=
  retry (uses_consul_cache "ConsulUtil.get_node_fid"
    (key_of [repr_str node] (if use_cache then [] else [("use_cache", "False")]))
    (fun kv =>
       node_items ← (if use_cache then get_all_nodes_cached else get_all_nodes kv);
       find_m (fun item =>
         let key_split := py_split "/" (Key item) in
         if negb (length key_split =? 3)%nat then mret None
         else
           item_value ← lift (loads_value (Value item));
           has_name ← lift (jin "name" item_value);
           if (has_name : bool) then
             n ← lift (jget "name" item_value);
             if String.eqb (py_str n) node && match n with JStr _ => true | _ => false end then
               fs ← lift (index_get 2 key_split);
               f ← lift (fid_parse fs);
               mret (Some f)
             else mret None
           else mret None) node_items) kv).

Definition get_node_name_by_fid (node_fid : Fid) (kv : option nat) : M W (option string) :=
  retry (uses_consul_cache "ConsulUtil.get_node_name_by_fid" (key_of [fid_repr node_fid] [])
    (fun kv =>
       node_data ← kv_get ("m0conf/nodes/" +:+ fid_repr node_fid) None None kv;
       if kv_truthy node_data then
         i ← lift (item_of node_data);
         parsed ← lift (loads_value (Value i));
         name ← lift (jget "name" parsed);
         mret (Some (py_str name))
       else mret None) kv).

Definition value_by_key (k : string) (allow_null : bool) (kv : option nat) : M W (option string) :=
  d ← kv_get k None (Some allow_null) kv;
  if kv_truthy d then
    i ← lift (item_of d);
    v ← lift (decode_value (Value i));
    mret (Some v)
  else mret None.

Definition get_node_name_by_machineid (machineid : string) (allow_null : bool) (kv : option nat)
    : M W (option string) :=
  retry (uses_consul_cache "ConsulUtil.get_node_name_by_machineid"
    (key_of [repr_str machineid] [("allow_null", py_bool allow_null)])
    (fun kv => value_by_key machineid allow_null kv) kv).

Definition get_machineid_by_nodename (nodename : string) (allow_null : bool) (kv : option nat)
    : M W (option string) :=
  uses_consul_cache "ConsulUtil.get_machineid_by_nodename"
    (key_of [repr_str nodename] [("allow_null", py_bool allow_null)])
    (fun kv => value_by_key nodename allow_null kv) kv.

Definition get_process_node (proc_fid : Fid) (kv : option nat) : M W string :=
  retry (uses_consul_cache "ConsulUtil.get_process_node" (key_of [fid_repr proc_fid] [])
    (fun kv =>
       data ← catch
         (proc_base_fid ← lift (get_base_fid proc_fid);
          let fidk := key proc_base_fid in
          node_items ← get_all_nodes_cached;
          keys ← lift (if container proc_base_fid =? ObjT_value PROCESS
                       then Ret (get_process_keys node_items fidk)
                       else if container proc_base_fid =? ObjT_value SERVICE
                       then Ret (get_service_keys node_items fidk)
                       else Raise NameError);
          match keys with
          | [] => raise (HAConsistencyException "Failed to get process node")
          | k :: _ =>
              node_val ← kv_get (node_key_of k) None None kv;
              i ← lift (item_of node_val);
              mret (Value i)
          end)
         (fun _ => Some (raise (HAConsistencyException "failed to get process node")));
       j ← lift (loads_value data);
       name ← lift (jget "name" j);
       mret (py_str name)) kv).

Definition is_proc_local (pfid : Fid) : M W bool :=
  local_node ← get_local_nodename;
  proc_node ← get_process_node pfid None;
  mret (String.eqb proc_node local_node).

Definition get_service_process_fid (svc_fid : Fid) : M W Fid :=
  assert (container svc_fid =? ObjT_value SERVICE) ;;
  node_items ← get_all_nodes_cached;
  match get_service_keys node_items (key svc_fid) with
  | [k] =>
      process_fid ← lift (index_get 4 (py_split "/" k));
      lift (fid_parse process_fid)
  | _ => raise (RuntimeError "svc_fid")
  end.

Definition get_proc_node_health (proc_fid : Fid) : M W ObjHealth :=
  retry
    (node ← get_process_node proc_fid None;
     node_data ← get_node_health_details node None;
     s ← lift (first_status node_data);
     mret (match s with
           | Some st => if String.eqb st "passing" then OK else OFFLINE
           | None => OFFLINE
           end)).

Definition get_configpath (allow_null : bool) : M W (option string) :=
  retry
    (config_path ← kv_get "config_path" None (Some allow_null) None;
     match config_path with
     | KVNone => mret None
     | d => i ← lift (item_of d); v ← lift (decode_value (Value i)); mret (Some v)
     end).

#[local] Instance PyVal_Profile : PyVal Profile.
Proof.
  refine (PyVal_inj (fun s => (prof_fid s, prof_name s, pool_names s))
    (fun '(f, n, p) => mkProfile f n p) _). by intros [].
Defined.

Definition to_profile (k : string) (v : json) : outcome Profile :=
  f ← fid_parse k;
  n ← jget "name" v;
  p ← jget "pools" v;
  names ← jiter p;
  Ret (mkProfile f (py_str n) (py_str <$> names)).

Definition get_profiles (kv : option nat) : M W (list Profile) :=
  retry (uses_consul_cache "ConsulUtil.get_profiles" (key_of [] [])
    (fun kv =>
       d ← kv_get "m0conf/profiles/" (Some true) None kv;
       items ← lift (items_of d);
       map_m (fun x =>
         payload ← lift (loads_value (Value x));
         lift (to_profile (py_last (py_split "/" (Key x))) payload)) items) kv).
End ConsulUtil.
