(* ===== verification/ConfTree.v ===== *)
(** * ConsulUtil: the configuration tree of the cluster
      ([src/hax/hax/util.py])

    Nodes, enclosures, controllers and drives as the keys [m0conf/nodes/...] and
    [m0conf/sites/...] of the KV store describe them, and the methods that read
    and write their states. *)

From S2P Require Import Prelude PyStr Json HaxTypes Message World Delivery Cache ConsulStore.
From S2P Require Import Consul ConsulUtil.

(** ** State tables *)

Definition get_device_ha_state (status : ObjHealth) : outcome string :=
  match status with
  | UNKNOWN => Ret "M0_NC_TRANSIENT"
  | RECOVERING => Ret "M0_NC_DTM_RECOVERING"
  | OK => Ret "M0_NC_ONLINE"
  | OFFLINE => Ret "M0_NC_TRANSIENT"
  | FAILED => Ret "M0_NC_FAILED"
  | REPAIR => Ret "M0_NC_REPAIR"
  | REPAIRED => Ret "M0_NC_REPAIRED"
  | REBALANCE => Ret "M0_NC_REBALANCE"
  | STOPPED => Raise (KeyError "ObjHealth.STOPPED")
  end.

Definition ha_note_to_objhealth (state : Z) : outcome ObjHealth :=
  if state =? M0_NC_FAILED then Ret FAILED
  else if state =? M0_NC_ONLINE then Ret OK
  else if state =? M0_NC_TRANSIENT then Ret OFFLINE
  else if state =? M0_NC_DTM_RECOVERING then Ret RECOVERING
  else if state =? M0_NC_REPAIR then Ret REPAIR
  else if state =? M0_NC_REPAIRED then Ret REPAIRED
  else if state =? M0_NC_REBALANCE then Ret REBALANCE
  else if state =? M0_NC_UNKNOWN then Ret UNKNOWN
  else Raise (KeyError (dec_str state)).

(** [device_state_map] of [update_drive_state]. *)
Definition device_state_map (status : ObjHealth) : outcome string :=
  match status with
  | OK => Ret "online"
  | UNKNOWN => Ret "offline"
  | RECOVERING => Ret "dtm_recovering"
  | FAILED => Ret "failed"
  | OFFLINE => Ret "offline"
  | REPAIR => Ret "repairing"
  | REPAIRED => Ret "repaired"
  | REBALANCE => Ret "rebalancing"
  | STOPPED => Raise (KeyError "ObjHealth.STOPPED")
  end.

(** The result of [get_sdev_state] for the state text of a sdev. *)
Definition drive_to_ha_state (state : string) : outcome Z :=
  let s := py_lower state in
  if String.eqb s "unknown" || String.eqb s "m0_nc_unknown" || String.eqb s "dtm_recovering"
  then Ret M0_NC_ONLINE
  else if String.eqb s "online" then Ret M0_NC_ONLINE
  else if String.eqb s "offline" then Ret M0_NC_TRANSIENT
  else if String.eqb s "failed" then Ret M0_NC_FAILED
  else if String.eqb s "repairing" then Ret M0_NC_REPAIR
  else if String.eqb s "repaired" then Ret M0_NC_REPAIRED
  else if String.eqb s "rebalancing" then Ret M0_NC_REBALANCE
  else Raise (KeyError s).

(** A drive in one of these states is not changed by a process event. *)
Definition protected_state (j : json) : bool :=
  in_strings (match j with JStr s => s | _ => "" end)
    [JStr "failed"; JStr "repairing"; JStr "repaired"; JStr "rebalancing"].

(** [m0HaObjState.parse(val['state'])] *)
Definition parse_state (j : json) : outcome Z :=
  match j with
  | JStr s => m0HaObjState_parse s
  | JArr _ | JObj _ => Raise TypeError
  | _ => Raise (KeyError (py_str j))
  end.

Section ConfTree.
Context {E : Type} `{ConsulApi E} `{Others E} `{Fuel}.
Notation W := (World E).
Notation retry := (repeat_if_fails (-1)).

Definition get_all_sites (kv : option nat) : M W (list kvitem) :=
  retry (uses_consul_cache "ConsulUtil.get_all_sites" (key_of [] [])
    (fun kv => d ← kv_get "m0conf/sites" (Some true) None kv; lift (items_of d)) kv).

(** [self.kv.kv_get('m0conf/sites', recurse=True, kv_cache=kv)] iterated. *)
Definition site_items (kv : option nat) : M W (list kvitem) :=
  d ← kv_get "m0conf/sites" (Some true) None kv; lift (items_of d).

(** *** Enclosures and controllers *)

Definition get_node_encl_fid (node : string) (kv : option nat) : M W (option Fid) :=
  retry (uses_consul_cache "ConsulUtil.get_node_encl_fid" (key_of [repr_str node] [])
    (fun kv =>
       node_fid ← get_node_fid node true kv;
       match node_fid with
       | None => mret None
       | Some nf =>
           encl_items ← site_items kv;
           find_m (fun encl =>
             match rx_match [RLit "m0conf/"; RStar; RLit "/racks/"; RStar; RLit "/encls/"; RSeg; REnd]
                     (Key encl) with
             | None => mret None
             | Some gs =>
                 encl_value ← lift (loads_value (Value encl));
                 has_node ← lift (jin "node" encl_value);
                 if (has_node : bool) then
                   n ← lift (jget "node" encl_value);
                   match n with
                   | JStr s =>
                       if String.eqb s (fid_repr nf)
                       then f ← lift (fid_parse (group1 gs)); mret (Some f)
                       else mret None
                   | _ => mret None
                   end
                 else mret None
             end) encl_items
       end) kv).

Definition get_node_ctrl_fids (node : string) (kv : option nat) : M W (option (list Fid)) :=
  retry (uses_consul_cache "ConsulUtil.get_node_ctrl_fids" (key_of [repr_str node] [])
    (fun kv =>
       encl_fid ← get_node_encl_fid node kv;
       match encl_fid with
       | None => mret None
       | Some ef =>
           ctrl_items ← get_all_sites kv;
           list_fids ← fold_m (fun fids ctrl =>
             match rx_match [RLit "m0conf/"; RStar; RLit "/racks/"; RStar;
                             RLit ("/encls/" +:+ fid_repr ef +:+ "/ctrls/"); RSeg; REnd]
                     (Key ctrl) with
             | None => mret fids
             | Some gs => f ← lift (fid_parse (group1 gs)); mret (fids ++ [f])
             end) [] ctrl_items;
           mret (Some list_fids)
       end) kv).

Definition get_encl_node (encl : Fid) (kv : option nat) : M W string :=
  retry (uses_consul_cache "ConsulUtil.get_encl_node" (key_of [fid_repr encl] [])
    (fun kv =>
       items ← site_items kv;
       encl_key ← lift (index_get 0 (keys_ending_with encl items));
       encl_val ← kv_get encl_key None None kv;
       i ← lift (item_of encl_val);
       j ← lift (loads_value (Value i));
       n ← lift (jget "node" j);
       node_val ← kv_get ("m0conf/nodes/" +:+ py_str n) None None kv;
       ni ← lift (item_of node_val);
       nj ← lift (loads_value (Value ni));
       name ← lift (jget "name" nj);
       mret (py_str name)) kv).

Definition get_ctrl_encl (ctrl : Fid) (kv : option nat) : M W Fid :=
  retry (uses_consul_cache "ConsulUtil.get_ctrl_encl" (key_of [fid_repr ctrl] [])
    (fun kv =>
       items ← site_items kv;
       k ← lift (index_get 0 (keys_ending_with ctrl items));
       encl_fid_str ← lift (index_get 6 (py_split "/" k));
       lift (fid_parse encl_fid_str)) kv).

Definition get_ctrl_node (ctrl : Fid) (kv : option nat) : M W string :=
  uses_consul_cache "ConsulUtil.get_ctrl_node" (key_of [fid_repr ctrl] [])
    (fun kv =>
       encl_fid ← get_ctrl_encl ctrl kv;
       get_encl_node encl_fid kv) kv.

(** *** Writing states *)

(** The fid may be missing: it is then printed as [None]. *)
Definition fid_text (f : option Fid) : string :=
  match f with Some f => fid_repr f | None => "None" end.

Definition set_node_state (node_fid : option Fid) (status : ObjHealth) (kv : option nat) : M W unit :=
  retry
    (node_items ← get_all_nodes_cached;
     for_each node_items (fun node =>
       match rx_match [RLit ("m0conf/nodes/" +:+ fid_text node_fid); REnd] (Key node) with
       | None => mret tt
       | Some _ =>
           value ← lift (loads_value (Value node));
           s ← lift (get_device_ha_state status);
           value' ← lift (jset "state" (JStr s) value);
           kv_put (Key node) (dumps value') None kv ;; mret tt
       end)).

Definition set_encl_state (encl_fid : option Fid) (status : ObjHealth) (kv : option nat) : M W unit :=
  retry
    (node_items ← get_all_sites kv;
     for_each node_items (fun encl =>
       match rx_match [RLit "m0conf/"; RStar; RLit ("/" +:+ fid_text encl_fid); REnd] (Key encl) with
       | None => mret tt
       | Some _ =>
           value ← lift (loads_value (Value encl));
           s ← lift (get_device_ha_state status);
           value' ← lift (jset "state" (JStr s) value);
           kv_put (Key encl) (dumps value') None kv ;; mret tt
       end)).

Definition ctrl_regex (ctrl_fid : Fid) : list rx :=
  [RLit "m0conf/"; RStar; RLit ("/ctrls/" +:+ fid_repr ctrl_fid); REnd].

Definition get_ctrl_state_updates (ctrl_fid : Fid) (status : ObjHealth) (kv : option nat)
    : M W (list PutKV) :=
  retry
    (ctrl_items ← get_all_sites kv;
     fold_m (fun result ctrl =>
       match rx_match (ctrl_regex ctrl_fid) (Key ctrl) with
       | None => mret result
       | Some _ =>
           value ← lift (loads_value (Value ctrl));
           s ← lift (get_device_ha_state status);
           value' ← lift (jset "state" (JStr s) value);
           mret (result ++ [mkPutKV (Key ctrl) (dumps value')])
       end) [] ctrl_items).

(** *** Reading states *)

(** The state of the first entry whose key matches, ONLINE when there is none. *)
Definition state_of_first (regex : list rx) (items : list kvitem) : M W Z :=
  found ← find_m (fun x =>
    match rx_match regex (Key x) with
    | None => mret None
    | Some _ =>
        val ← lift (loads_value (Value x));
        state ← lift (jget "state" val);
        z ← lift (parse_state state);
        mret (Some z)
    end) items;
  mret (default M0_NC_ONLINE found).

(** Arguments of a state getter as they appear in its cache key. *)
Definition getter_key (obj_t : ObjT) (fidk : Z) : string :=
  key_of ["ObjT." +:+ ObjT_name obj_t; dec_str fidk] [].

Definition get_ctrl_state (obj_t : ObjT) (fidk : Z) (kv : option nat) : M W Z :=
  retry (uses_consul_cache "ConsulUtil.get_ctrl_state" (getter_key obj_t fidk)
    (fun kv =>
       assert (ObjT_value obj_t =? ObjT_value CONTROLLER) ;;
       ctrl_items ← get_all_sites kv;
       state_of_first (ctrl_regex (mk_fid CONTROLLER fidk)) ctrl_items) kv).

Definition get_encl_state (obj_t : ObjT) (fidk : Z) (kv : option nat) : M W Z :=
  retry (uses_consul_cache "ConsulUtil.get_encl_state" (getter_key obj_t fidk)
    (fun kv =>
       assert (ObjT_value obj_t =? ObjT_value ENCLOSURE) ;;
       encl_items ← get_all_sites kv;
       state_of_first [RLit "m0conf/"; RStar;
                       RLit ("/encls/" +:+ fid_repr (mk_fid ENCLOSURE fidk)); REnd]
         encl_items) kv).

Definition get_node_state (obj_t : ObjT) (fidk : Z) (kv : option nat) : M W Z :=
  retry (uses_consul_cache "ConsulUtil.get_node_state" (getter_key obj_t fidk)
    (fun kv =>
       assert (ObjT_value obj_t =? ObjT_value NODE) ;;
       node ← kv_get ("m0conf/nodes/" +:+ fid_repr (mk_fid NODE fidk)) (Some false) None kv;
       if kv_truthy node then
         i ← lift (item_of node);
         val ← lift (loads_value (Value i));
         state ← lift (jget "state" val);
         lift (parse_state state)
       else mret M0_NC_ONLINE) kv).

(** *** Drives *)

Definition drive_to_sdev_fid (drive_fid : Fid) (kv : option nat) : M W Fid :=
  retry (uses_consul_cache "ConsulUtil.drive_to_sdev_fid" (key_of [fid_repr drive_fid] [])
    (fun kv =>
       sdev_items ← site_items kv;
       found ← find_m (fun x =>
         match rx_match [RLit "m0conf/"; RStar; RLit ("/drives/" +:+ fid_repr drive_fid); REnd]
                 (Key x) with
         | None => mret None
         | Some _ =>
             j ← lift (loads_value (Value x));
             sdev ← lift (jget "sdev" j);
             s ← lift (need_str sdev);
             f ← lift (fid_parse s);
             mret (Some (create_sdev_fid (key f)))
         end) sdev_items;
       mret (default (mkFid 0 0) found)) kv).

Definition sdev_to_drive_fid (sdev_fid : Fid) : M W Fid :=
  retry
    (drive_items ← site_items None;
     found ← find_m (fun x =>
       if py_in "/drives/" (Key x) then
         j ← lift (loads_value (Value x));
         sdev ← lift (jget "sdev" j);
         match sdev with
         | JStr s =>
             if String.eqb s (fid_repr sdev_fid) then
               drive_fid_item ← lift (index_get 10 (py_split "/" (Key x)));
               f ← lift (fid_parse drive_fid_item);
               mret (Some (create_drive_fid (key f)))
             else mret None
         | _ => mret None
         end
       else mret None) drive_items;
     mret (default (mkFid 0 0) found)).

Definition node_to_drive_fid (node_name drive : string) : M W Fid :=
  retry
    (node_fid ← get_node_fid node_name true None;
     sdev_items ← get_all_nodes_cached;
     found ← find_m (fun x =>
       if py_in ("m0conf/nodes/" +:+ fid_text node_fid) (Key x) && py_in "/sdevs/" (Key x) then
         j ← lift (loads_value (Value x));
         path ← lift (jget "path" j);
         match path with
         | JStr s =>
             if String.eqb s drive then
               sdev_fid_item ← lift (index_get 8 (py_split "/" (Key x)));
               f ← lift (fid_parse sdev_fid_item);
               mret (Some (create_sdev_fid (key f)))
             else mret None
         | _ => mret None
         end
       else mret None) sdev_items;
     sdev_to_drive_fid (default (mkFid 0 0) found)).

Definition get_disks_by_parent_process (process_fid svc_fid : Fid) : M W (list Fid) :=
  node_items ← get_all_nodes_cached;
  fold_m (fun disks node =>
    match rx_match [RLit "m0conf/"; RStar;
                    RLit ("/processes/" +:+ fid_repr process_fid +:+ "/services/"
                            +:+ fid_repr svc_fid +:+ "/sdevs/"); RSeg; REnd] (Key node) with
    | None => mret disks
    | Some gs =>
        f ← lift (fid_parse (group1 gs));
        disk_fid ← sdev_to_drive_fid (create_sdev_fid (key f));
        mret (disks ++ [disk_fid])
    end) [] node_items.

Definition sdev_regex (sdev_fid : Fid) : list rx :=
  [RLit "m0conf/"; RStar; RLit ("/sdevs/" +:+ fid_repr sdev_fid); REnd].

(** One entry of the loop of [get_sdev_state_update]. *)
Definition sdev_update (sdev : kvitem) (state : string) (device_event : bool)
    : outcome (list PutKV) :=
  value ← loads_value (Value sdev);
  skip ← (if device_event then Ret false
          else old ← jget "state" value; Ret (protected_state old));
  if (skip : bool) then Ret []
  else
    value' ← jset "state" (JStr state) value;
    Ret [mkPutKV (Key sdev) (dumps value')].

(** One call of the decorated function. *)
Definition sdev_state_updates (sdev_fid : Fid) (state : string) (device_event : bool)
    (kv : option nat) : M W (list PutKV) :=
  supports_consul_cache (fun kv =>
    sdev_items ← get_all_nodes kv;
    fold_m (fun result sdev =>
      match rx_match (sdev_regex sdev_fid) (Key sdev) with
      | None => mret result
      | Some _ =>
          u ← lift (sdev_update sdev state device_event);
          mret (result ++ u)
      end) [] sdev_items) kv.

Definition get_sdev_state_update (sdev_fid : Fid) (state : string) (device_event : bool)
    (kv : option nat) : M W (list PutKV) :=
  retry (sdev_state_updates sdev_fid state device_event kv).

Definition update_drive_state (drive_fids : list Fid) (status : ObjHealth) (device_event : bool)
    (kv : option nat) : M W unit :=
  supports_consul_cache (fun kv =>
    updates ← fold_m (fun updates drive =>
      sdev_fid ← drive_to_sdev_fid drive None;
      s ← lift (device_state_map status);
      u ← get_sdev_state_update sdev_fid s device_event None;
      mret (updates ++ u)) [] drive_fids;
    for_each updates (fun op => kv_put (put_key op) (put_value op) None kv ;; mret tt)) kv.

Definition get_sdev_state (obj_t : ObjT) (fidk : Z) (kv : option nat) : M W Z :=
  retry (uses_consul_cache "ConsulUtil.get_sdev_state" (getter_key obj_t fidk)
    (fun kv =>
       sdev_fid ← (if String.eqb (ObjT_name obj_t) (ObjT_name DRIVE)
                   then drive_to_sdev_fid (create_drive_fid fidk) kv
                   else mret (create_sdev_fid fidk));
       sdev_items ← get_all_nodes kv;
       found ← find_m (fun sdev =>
         match rx_match (sdev_regex sdev_fid) (Key sdev) with
         | None => mret None
         | Some _ =>
             val ← lift (loads_value (Value sdev));
             state ← lift (jget "state" val);
             z ← lift (drive_to_ha_state (py_str state));
             mret (Some z)
         end) sdev_items;
       mret (default M0_NC_ONLINE found)) kv).

(** *** Io services *)

Definition get_io_service_devices (ioservice_fid : Fid) (kv : option nat)
    : M W (option (list string)) :=
  retry (uses_consul_cache "ConsulUtil.get_io_service_devices" (key_of [fid_repr ioservice_fid] [])
    (fun _ =>
       sdev_items ← get_all_nodes_cached;
       sdev_fids ← fold_m (fun fids sdev =>
         match rx_match [RLit "m0conf/"; RStar; RLit ("/processes/" +:+ fid_repr ioservice_fid +:+ "/");
                         RStar; RLit "/sdevs/"; RStar; REnd] (Key sdev) with
         | None => mret fids
         | Some _ => k ← lift (index_get 8 (py_split "/" (Key sdev))); mret (fids ++ [k])
         end) [] sdev_items;
       mret (Some sdev_fids)) kv).

Definition get_device_controller (sdev_fid : string) (kv : option nat) : M W (option string) :=
  retry (uses_consul_cache "ConsulUtil.get_device_controller" (key_of [repr_str sdev_fid] [])
    (fun kv =>
       sites_items ← get_all_sites kv;
       find_m (fun item =>
         j ← lift (loads_value (Value item));
         keys ← lift (jkeys j);
         if negb (existsb (String.eqb "sdev") keys) then mret None
         else
           sdev ← lift (jget "sdev" j);
           match sdev with
           | JStr s =>
               if String.eqb s sdev_fid
               then k ← lift (index_get 8 (py_split "/" (Key item))); mret (Some k)
               else mret None
           | _ => mret None
           end) sites_items) kv).

Definition get_ioservice_ctrl_fid (ioservice_fid : Fid) (kv : option nat) : M W (option Fid) :=
  retry (uses_consul_cache "ConsulUtil.get_ioservice_ctrl_fid" (key_of [fid_repr ioservice_fid] [])
    (fun kv =>
       sdev_fids ← get_io_service_devices ioservice_fid kv;
       match sdev_fids with
       | None | Some [] => mret None
       | Some (sdev_fid :: _) =>
           ctrl_fid ← get_device_controller sdev_fid kv;
           match ctrl_fid with
           | None => mret None
           | Some c => f ← lift (fid_parse c); mret (Some f)
           end
       end) kv).

(** ['name' in json.loads(item['Value']).keys()] *)
Definition has_key (k : string) (item : kvitem) : outcome bool :=
  j ← loads_value (Value item);
  keys ← jkeys j;
  Ret (existsb (String.eqb k) keys).

Definition value_field (k : string) (v : option string) : outcome json :=
  j ← loads_value v; jget k j.

(** [state not in (...)] for a parsed state. *)
Definition state_in (j : json) (l : list string) : bool :=
  match j with JStr s => existsb (String.eqb s) l | _ => false end.

Definition all_io_services_failed (node : string) (kv : option nat) : M W bool :=
  retry
    (node_fid ← get_node_fid node true None;
     let processes := "m0conf/nodes/" +:+ fid_text node_fid +:+ "/processes" in
     d ← kv_get processes (Some true) None kv;
     sites_items ← lift (items_of d);
     found ← find_m (fun item =>
       named ← lift (has_key "name" item);
       if negb named then mret None
       else
         name ← lift (value_field "name" (Value item));
         if state_in name ["ios"] then
           p_fid ← lift (index_get 4 (py_split "/" (Key item)));
           process ← kv_get (processes +:+ "/" +:+ p_fid) (Some false) None kv;
           i ← lift (item_of process);
           state ← lift (value_field "state" (Value i));
           mret (if state_in state ["stopped"; "failed"; "offline"] then None else Some false)
         else mret None) sites_items;
     mret (default true found)).

Definition check_resource_status (resource_type : ObjT) (fid status : string) (kv : option nat)
    : M W (option bool) :=
  retry
    (if bool_decide (resource_type = NODE) then
       d ← kv_get ("m0conf/nodes/" +:+ fid +:+ "/processes") (Some true) None kv;
       children ← lift (items_of d);
       found ← find_m (fun item =>
         named ← lift (has_key "name" item);
         if negb named then mret None
         else
           name ← lift (value_field "name" (Value item));
           if negb (state_in name ["ios"; "confd"]) then mret None
           else
             p_fid ← lift (index_get 4 (py_split "/" (Key item)));
             process ← kv_get ("processes/" +:+ p_fid) (Some false) None kv;
             if negb (kv_truthy process) then mret (Some false)
             else
               i ← lift (item_of process);
               state ← lift (value_field "state" (Value i));
               mret (if String.eqb status "online"
                        && negb (state_in state ["M0_CONF_HA_PROCESS_STARTED"])
                     then Some false else None)) children;
       mret (Some (default true found))
     else mret None).

Definition drive_name_to_id (uid : string) : M W string :=
  node_items ← get_all_nodes_cached;
  mret (foldl (fun drive_id x =>
    if py_in "/disks/" (Key x) && py_in uid (Key x) then default "" (Value x) else drive_id)
    "" node_items).

Definition set_m0_disk_state (fid : string) (objstate : Z) (kv : option nat) : M W unit :=
  assert ((0 <=? objstate) && (objstate <? Z.of_nat (length ha_conf_obj_states))) ;;
  s ← lift (index_get (Z.to_nat objstate) ha_conf_obj_states);
  kv_put ("process/" +:+ fid) (dumps (JObj [("state", JStr s)])) None kv ;; mret tt.
End ConfTree.
