(* ===== verification/ProcStatus.v ===== *)
(** * ConsulUtil: processes, their health and their dynamic fids
      ([src/hax/hax/util.py])

    The states of the Motr processes in the KV store and in the memory of hax,
    the health derived from them and from Consul's checks, and the allocation of
    fids with a dynamic part. *)

From S2P Require Import Prelude PyStr Json HaxTypes Message World Delivery Cache ConsulStore.
From S2P Require Import Consul ConsulUtil ConfTree.

(** ** Tables *)

Definition objHealthToProcessEvent (health : ObjHealth) : outcome m0HaProcessEvent :=
  match health with
  | RECOVERING => Ret M0_CONF_HA_PROCESS_STARTED
  | OK => Ret M0_CONF_HA_PROCESS_DTM_RECOVERED
  | FAILED | OFFLINE | UNKNOWN | STOPPED => Ret M0_CONF_HA_PROCESS_STOPPED
  | REPAIR => Raise (KeyError "ObjHealth.REPAIR")
  | REPAIRED => Raise (KeyError "ObjHealth.REPAIRED")
  | REBALANCE => Raise (KeyError "ObjHealth.REBALANCE")
  end.

(** The arguments are the integers of the event: an [IntEnum] member and the
    integer it equals are the same dictionary key. *)
Definition processEventToObjHealth (proc_type proc_event : Z) : outcome ObjHealth :=
  let row (t : m0HaProcessType) (e : m0HaProcessEvent) :=
    (proc_type =? ptype_value t) && (proc_event =? event_value e) in
  if row M0_CONF_HA_PROCESS_M0MKFS M0_CONF_HA_PROCESS_STARTED then Ret OK
  else if row M0_CONF_HA_PROCESS_M0MKFS M0_CONF_HA_PROCESS_STOPPED then Ret FAILED
  else if row M0_CONF_HA_PROCESS_M0D M0_CONF_HA_PROCESS_STARTED then Ret RECOVERING
  else if row M0_CONF_HA_PROCESS_M0D M0_CONF_HA_PROCESS_DTM_RECOVERED then Ret OK
  else if row M0_CONF_HA_PROCESS_M0D M0_CONF_HA_PROCESS_STOPPED then Ret FAILED
  else if row M0_CONF_HA_PROCESS_OTHER M0_CONF_HA_PROCESS_STARTED then Ret RECOVERING
  else if row M0_CONF_HA_PROCESS_OTHER M0_CONF_HA_PROCESS_DTM_RECOVERED then Ret OK
  else if row M0_CONF_HA_PROCESS_OTHER M0_CONF_HA_PROCESS_STOPPED then Ret FAILED
  else Raise (KeyError "(proc_type, proc_event)").

(** [svc_to_motr_status_map]: the health of a process on its own node and as
    seen from another one, by Consul's check and the state in the KV store. *)
Definition svc_to_motr_status (consul_svc_status motr_proc_status : string)
    : outcome (ObjHealth * ObjHealth) :=
  let st := motr_proc_status in
  if String.eqb consul_svc_status "passing" then
    if String.eqb st "M0_CONF_HA_PROCESS_STARTING" then Ret (UNKNOWN, UNKNOWN)
    else if String.eqb st "M0_CONF_HA_PROCESS_STOPPING" then Ret (UNKNOWN, OFFLINE)
    else if String.eqb st "M0_CONF_HA_PROCESS_STARTED" then Ret (RECOVERING, RECOVERING)
    else if String.eqb st "M0_CONF_HA_PROCESS_DTM_RECOVERED" then Ret (OK, OK)
    else if String.eqb st "M0_CONF_HA_PROCESS_STOPPED" then Ret (UNKNOWN, UNKNOWN)
    else if String.eqb st "Unknown" then Ret (UNKNOWN, UNKNOWN)
    else Raise (KeyError st)
  else if String.eqb consul_svc_status "warning" then
    if existsb (String.eqb st)
         ["M0_CONF_HA_PROCESS_STOPPING"; "M0_CONF_HA_PROCESS_STARTED";
          "M0_CONF_HA_PROCESS_DTM_RECOVERED"; "M0_CONF_HA_PROCESS_STOPPED";
          "M0_CONF_HA_PROCESS_STARTING"; "Unknown"]
    then Ret (OFFLINE, OFFLINE)
    else Raise (KeyError st)
  else Raise (KeyError consul_svc_status).

(** [process_state_map] of [set_process_state]. *)
Definition process_state_map (state : ObjHealth) : outcome string :=
  match state with
  | OK => Ret "online"
  | FAILED => Ret "failed"
  | OFFLINE => Ret "offline"
  | UNKNOWN => Ret "unknown"
  | STOPPED => Ret "stopped"
  | RECOVERING => Ret "dtm_recovering"
  | REPAIR => Raise (KeyError "ObjHealth.REPAIR")
  | REPAIRED => Raise (KeyError "ObjHealth.REPAIRED")
  | REBALANCE => Raise (KeyError "ObjHealth.REBALANCE")
  end.

(** [to_ha_state_map] of [get_conf_obj_status_failvec]. *)
Definition failvec_state (obj_state : string) : outcome Z :=
  let s := py_lower obj_state in
  if String.eqb s "unknown" then Ret M0_NC_TRANSIENT
  else if String.eqb s "online" then Ret M0_NC_ONLINE
  else if String.eqb s "offline" then Ret M0_NC_TRANSIENT
  else if String.eqb s "failed" then Ret M0_NC_FAILED
  else if String.eqb s "dtm_recovering" then Ret M0_NC_DTM_RECOVERING
  else if String.eqb s "m0_conf_ha_process_starting" then Ret M0_NC_TRANSIENT
  else if String.eqb s "m0_conf_ha_process_started" then Ret M0_NC_DTM_RECOVERING
  else if String.eqb s "m0_conf_ha_process_stopping" then Ret M0_NC_TRANSIENT
  else if String.eqb s "m0_conf_ha_process_stopped" then Ret M0_NC_TRANSIENT
  else if String.eqb s "m0_conf_ha_process_dtm_recovered" then Ret M0_NC_ONLINE
  else Raise (KeyError s).

(** 'online', 'offline' or 'degraded' from the number of processes and of those
    that run. *)
Definition summary_state (total started : nat) : string :=
  if (total =? started)%nat then "online"
  else if (started =? 0)%nat then "offline"
  else "degraded".

Section ProcStatus.
Context {E : Type} `{ConsulApi E} `{Others E} `{Fuel}.
Notation W := (World E).
Notation retry := (repeat_if_fails (-1)).

(** *** States of processes *)

(** [{'state': ..., 'type': ...}] as stored for a process. *)
Definition proc_json (state ptype : string) : json :=
  JObj [("state", JStr state); ("type", JStr ptype)].

(** [MotrConsulProcInfo(val['state'], val['type'])] *)
Definition read_proc_info (d : kvdata) : M W MotrConsulProcInfo :=
  if kv_truthy d then
    i ← lift (item_of d);
    val ← lift (loads_value (Value i));
    s ← lift (jget "state" val);
    t ← lift (jget "type" val);
    mret (mkProcInfo (py_str s) (py_str t))
  else mret (mkProcInfo "Unknown" "Unknown").

Definition get_process_status (fid : Fid) (kv : option nat) : M W MotrConsulProcInfo :=
  uses_consul_cache "ConsulUtil.get_process_status" (key_of [fid_repr fid] [])
    (fun kv =>
       proc_base_fid ← lift (get_base_fid fid);
       status ← kv_get ("processes/" +:+ fid_repr proc_base_fid) None (Some true) kv;
       read_proc_info status) kv.

Definition get_process_status_local (fid : Fid) (kv : option nat) : M W MotrConsulProcInfo :=
  uses_consul_cache "ConsulUtil.get_process_status_local" (key_of [fid_repr fid] [])
    (fun kv =>
       proc_base_fid ← lift (get_base_fid fid);
       this_node ← get_local_nodename;
       status ← kv_get (this_node +:+ "/processes/" +:+ fid_repr proc_base_fid) None (Some true) kv;
       read_proc_info status) kv.

Definition get_svc_status (srv_fid : Fid) (kv : option nat) : M W string :=
  catch (i ← get_process_status srv_fid kv; mret (proc_status i))
    (fun _ => Some (mret "Unknown")).

Definition get_motr_processes_status : M W (list (string * string)) := gets motr_processes_status.

Definition set_motr_processes_status (fid status : string) (bAdd : bool) : M W unit :=
  modify (fun w =>
    if bool_decide (is_Some (dict_find fid (motr_processes_status w))) || bAdd
    then set_statuses (dict_set fid status (motr_processes_status w)) w
    else w).

(** [assert 0 <= event.chp_event < len(ha_process_events)], then the name. *)
Definition event_text (chp_event : Z) : outcome string :=
  if (0 <=? chp_event) && (chp_event <? Z.of_nat (length ha_process_events))
  then index_get (Z.to_nat chp_event) ha_process_events
  else Raise AssertionError.

Definition update_process_status (event : ConfHaProcess) : M W unit :=
  retry
    (state ← lift (event_text (chp_event event));
     hax_fid ← get_hax_fid None;
     event_type ← lift (if fid_eqb (chp_fid event) hax_fid
                        then Ret (ptype_name M0_CONF_HA_PROCESS_HA)
                        else t ← ptype_of_value (chp_type event); Ret (ptype_name t));
     kv_put ("processes/" +:+ fid_repr (chp_fid event)) (dumps (proc_json state event_type)) None None ;;
     set_motr_processes_status (fid_repr (chp_fid event)) state false).

Definition update_process_status_local (event : ConfHaProcess) : M W unit :=
  retry
    (state ← lift (event_text (chp_event event));
     t ← lift (ptype_of_value (chp_type event));
     this_node ← get_local_nodename;
     kv_put (this_node +:+ "/processes/" +:+ fid_repr (chp_fid event))
       (dumps (proc_json state (ptype_name t))) None None ;;
     mret tt).

Definition service_health_to_m0dstatus_update (proc_fid : Fid) (svc_health : ObjHealth) : M W unit :=
  ev ← lift (objHealthToProcessEvent svc_health);
  update_process_status
    (mkConfHaProcess (event_value ev) (ptype_value M0_CONF_HA_PROCESS_M0D) 0 proc_fid).

Definition is_confd_failed (proc_fid : Fid) : M W bool :=
  i ← get_process_status proc_fid None;
  mret (existsb (String.eqb (proc_status i))
    ["M0_CONF_HA_PROCESS_STOPPING"; "M0_CONF_HA_PROCESS_STOPPED"; "M0_CONF_HA_PROCESS_STARTING"]).

Definition set_process_state (process_fid : Fid) (state : ObjHealth) : M W unit :=
  retry
    (proc_base_fid ← lift (get_base_fid process_fid);
     node_items ← get_all_nodes_cached;
     for_each node_items (fun item =>
       match rx_match [RLit "m0conf/nodes/"; RStar; RLit ("/processes/" +:+ fid_repr proc_base_fid);
                       REnd] (Key item) with
       | None => mret tt
       | Some _ =>
           value ← lift (loads_value (Value item));
           s ← lift (process_state_map state);
           value' ← lift (jset "state" (JStr s) value);
           kv_put (Key item) (dumps value') None None ;; mret tt
       end)).

(** *** Health of a service *)

(** The loop of [get_service_health] over Consul's checks of the node. *)
Fixpoint service_health_loop (svc_id : Z) (node_data : list json) (kv : option nat) : M W ObjHealth :=
  match node_data with
  | [] => mret UNKNOWN
  | item :: rest =>
      sid ← lift (jget "ServiceID" item);
      if match sid with JStr s => String.eqb s (dec_str svc_id) | _ => false end then
        let pfid := create_process_fid svc_id in
        st ← lift (jget "Status" item);
        if state_in st ["critical"; "warning"] then mret OFFLINE
        else
          cns_status ← get_process_status pfid kv;
          svc_health ← lift (svc_to_motr_status (py_str st) (proc_status cns_status));
          local_node ← get_local_nodename;
          proc_node ← get_process_node pfid kv;
          mret (if String.eqb proc_node local_node then svc_health.1 else svc_health.2)
      else service_health_loop svc_id rest kv
  end.

(** One call of the decorated function. *)
Definition service_health (node : string) (svc_id : Z) (kv : option nat) : M W ObjHealth :=
  wrap_consul "Failed to communicate to Consul Agent"
    (node_data ← get_node_health_details node kv;
     s ← lift (first_status node_data);
     match s with
     | None => mret OFFLINE
     | Some node_status =>
         if String.eqb node_status "passing"
         then service_health_loop svc_id (default [] node_data) kv
         else mret OFFLINE
     end).

Definition get_service_health (node : string) (svc_id : Z) (kv : option nat) : M W ObjHealth :=
  retry (service_health node svc_id kv).

Definition get_process_current_status (proc_fid : Fid) : M W ObjHealth :=
  node ← get_process_node proc_fid None;
  get_service_health node (key proc_fid) None.

(** [motr_services] defaults to the io services. *)
Definition get_m0d_statuses (motr_services : list string) (kv : option nat)
    : M W (list (ServiceData * ObjHealth)) :=
  supports_consul_cache (fun kv =>
    let wanted := match motr_services with [] => ["ios"] | l => l end in
    names ← get_service_names;
    fold_m (fun result service_name =>
      if negb (existsb (String.eqb service_name) wanted) then mret result
      else
        data ← get_service_data_by_name service_name;
        l ← map_m (fun item =>
          node ← get_process_node (sd_fid item) kv;
          svc_health ← get_service_health node (key (sd_fid item)) kv;
          mret (item, svc_health)) data;
        mret (result ++ l)) [] names) kv.

Definition get_proc_fids_with_status (proc_names : list string) : M W (list (Fid * ObjHealth)) :=
  statuses ← get_m0d_statuses proc_names None;
  mret ((fun x => (sd_fid x.1, x.2)) <$> statuses).

Definition ensure_ioservices_running : M W (list bool) :=
  retry (statuses ← get_m0d_statuses [] None;
         mret ((fun v => bool_decide (v.2 = OK)) <$> statuses)).

Fixpoint all_started_loop (n : nat) (event : nat) : M W unit :=
  match n with
  | O => hang
  | S n' =>
      started ← ensure_ioservices_running;
      if forallb id started then mret tt
      else wait_for_event event ;; all_started_loop n' event
  end.

Definition ensure_motr_all_started (event : nat) : M W unit := retry (all_started_loop fuel event).

Definition m0ds_stopping : M W bool :=
  statuses ← get_m0d_statuses [] None;
  mret (forallb (fun v => bool_decide (v.2 = OFFLINE) || bool_decide (v.2 = STOPPED)) statuses).

(** *** State of an object as Motr asks for it *)

Definition get_proc_svc_conf_obj_status (obj_t : ObjT) (fidk : Z) (kv : option nat) : M W Z :=
  uses_consul_cache "ConsulUtil.get_proc_svc_conf_obj_status" (getter_key obj_t fidk)
    (fun kv =>
       pfid ← (if String.eqb (ObjT_name SERVICE) (ObjT_name obj_t)
               then get_service_process_fid (create_service_fid fidk)
               else mret (create_process_fid fidk));
       proc_node ← get_process_node pfid kv;
       proc_status ← get_service_health proc_node (key pfid) kv;
       hax_fid ← get_hax_fid kv;
       recovering_online ←
         (if bool_decide (proc_status = RECOVERING) then
            confd ← is_process_confd pfid;
            mret ((confd : bool) || fid_eqb pfid hax_fid)
          else mret false);
       mret (if (recovering_online : bool) then M0_NC_ONLINE else to_ha_note_status proc_status)) kv.

Definition get_conf_obj_status (obj_t : ObjT) (fidk : Z) (kv : option nat) : M W Z :=
  retry (uses_consul_cache "ConsulUtil.get_conf_obj_status" (getter_key obj_t fidk)
    (fun kv =>
       match obj_t with
       | PROCESS | SERVICE =>
           node_items ← get_all_nodes_cached;
           let keys := match obj_t with
                       | PROCESS => get_process_keys node_items fidk
                       | _ => get_service_keys node_items fidk end in
           match keys with
           | [k] =>
               node_val ← kv_get (node_key_of k) None None kv;
               i ← lift (item_of node_val);
               node_name ← lift (value_field "name" (Value i));
               get_node_health_status (py_str node_name) kv ;;
               get_proc_svc_conf_obj_status obj_t fidk kv
           | _ => raise (RuntimeError "XXX fidk")
           end
       | SDEV | DRIVE => get_sdev_state obj_t fidk kv
       | NODE => get_node_state obj_t fidk kv
       | ENCLOSURE => get_encl_state obj_t fidk kv
       | CONTROLLER => get_ctrl_state obj_t fidk kv
       | _ => mret M0_NC_ONLINE
       end) kv).

(** The value of the key [failvec] is bytes, which have no [get]. *)
Definition get_conf_obj_status_failvec (obj_fid : Fid) (kv : option nat) : M W Z :=
  retry (uses_consul_cache "ConsulUtil.get_conf_obj_status_failvec" (key_of [fid_repr obj_fid] [])
    (fun kv =>
       if container obj_fid =? ObjT_value PROCESS then
         status ← get_process_status obj_fid None;
         let obj_state := if String.eqb (proc_type status) (ptype_name M0_CONF_HA_PROCESS_M0D)
                          then proc_status status else "unknown" in
         confd ← (if String.eqb obj_state (event_name M0_CONF_HA_PROCESS_STARTED)
                  then is_process_confd obj_fid else mret false);
         if (confd : bool) then mret M0_NC_ONLINE else lift (failvec_state obj_state)
       else
         failvec_data ← kv_get "failvec" None None kv;
         i ← lift (item_of failvec_data);
         match Value i with
         | None => lift (failvec_state "online")
         | Some v => if String.eqb v "" then lift (failvec_state "online") else raise AttributeError
         end) kv).

(** *** State of a node from its processes *)

Definition get_process_based_node_state (node_fid : option Fid) : M W string :=
  retry
    (d ← kv_get "processes" (Some true) None None;
     proc_keys ← lift (items_of d);
     all_procs ← fold_m (fun procs proc =>
       fid ← lift (index_get 1 (py_split "/" (Key proc)));
       state ← lift (value_field "state" (Value proc));
       mret (dict_set fid state procs)) ([] : list (string * json)) proc_keys;
     nd ← kv_get ("m0conf/nodes/" +:+ fid_text node_fid +:+ "/processes") (Some true) None None;
     node_procs ← lift (items_of nd);
     let fids := omap (fun item =>
       group1 <$> rx_match [RLit "m0conf/"; RStar; RLit "/processes/"; RSeg; REnd] (Key item))
       node_procs in
     let running := List.filter (fun p_fid =>
       match dict_find p_fid all_procs with
       | None => false
       | Some st => state_in st [event_name M0_CONF_HA_PROCESS_STARTED;
                                 event_name M0_CONF_HA_PROCESS_DTM_RECOVERED]
       end) fids in
     mret (summary_state (length fids) (length running))).

Definition init_motr_processes_status : M W unit :=
  retry
    (local_node ← get_local_nodename;
     fid ← get_node_fid local_node false None;
     match fid with
     | None => raise (HAConsistencyException "node fid not available yet")
     | Some f =>
         d ← kv_get ("m0conf/nodes/" +:+ fid_repr f +:+ "/processes") (Some true) None None;
         children ← lift (items_of d);
         for_each children (fun item =>
           named ← lift (has_key "name" item);
           if negb named then mret tt
           else if negb (length (py_split "/" (Key item)) =? 5)%nat then mret tt
           else
             p_fid ← lift (index_get 4 (py_split "/" (Key item)));
             st ← lift (index_get 3 ha_process_events);
             set_motr_processes_status p_fid st true)
     end).

Definition get_local_node_status : M W string :=
  l ← get_motr_processes_status;
  mret (summary_state (length l)
    (length (List.filter (fun x => String.eqb x.2 "M0_CONF_HA_PROCESS_STARTED") l))).

Definition cleanup_node_process_states : M W unit :=
  retry (ok ← kv_delete_in_transaction [mkKeyDelete "processes/" true];
         if (ok : bool) then mret tt else raise (HAConsistencyException "KV deletion failed")).

Definition cleanup_process_restarts : M W unit :=
  retry (local_node ← get_local_nodename;
         ok ← kv_delete_in_transaction [mkKeyDelete (local_node +:+ "/process_restarts/") true];
         if (ok : bool) then mret tt else raise (HAConsistencyException "KV deletion failed")).

Definition restart_key (local_node : string) (proc_fid : Fid) : string :=
  local_node +:+ "/process_restarts/" +:+ fid_repr proc_fid.

Definition get_proc_restart_count (proc_fid : Fid) : M W Z :=
  retry (local_node ← get_local_nodename;
         d ← kv_get (restart_key local_node proc_fid) (Some false) (Some true) None;
         if kv_truthy d then
           i ← lift (item_of d);
           c ← lift (loads_value (Value i));
           lift (int_of c)
         else mret 0).

Definition set_proc_restart_count (proc_fid : Fid) (count : Z) : M W unit :=
  retry (local_node ← get_local_nodename;
         kv_put (restart_key local_node proc_fid) (dumps (JStr (dec_str count))) None None ;;
         mret tt).

(** *** Statistics *)

Definition update_fs_stats (data_str : string) : M W unit :=
  kv_put "stats/filesystem" data_str None None ;; mret tt.

Definition pver_bc_key (ios_fid : Fid) (p : PverBC) : string :=
  "ioservices/" +:+ fid_repr ios_fid +:+ "/pvers/" +:+ fid_repr (pver_fid p)
    +:+ "/users/" +:+ dec_str (user_id p).

Definition update_pver_bc (data : ByteCountStats) : M W unit :=
  for_each (pvers data) (fun p =>
    kv_put (pver_bc_key (proc_fid data) p)
      (dumps (JObj [("bc", JInt (byte_count p)); ("object_cnt", JInt (object_count p))])) None None ;;
    mret tt).

Definition pver_state_map : list (PverState * string) :=
  [(M0_CPS_HEALTHY, "healthy"); (M0_CPS_DEGRADED, "degraded"); (M0_CPS_CRITICAL, "critical");
   (M0_CPS_DAMAGED, "damaged")].

(** [if state in data: data[state] += bc else: data[state] = bc] *)
Fixpoint add_state (st : PverState) (bc : Z) (data : list (PverState * Z)) : list (PverState * Z) :=
  match data with
  | [] => [(st, bc)]
  | (s, n) :: rest => if bool_decide (s = st) then (s, n + bc) :: rest else (s, n) :: add_state st bc rest
  end.

Definition state_totals (pver_bc : list (string * Z)) (pver_state : list (string * PverInfo))
    : list (PverState * Z) :=
  foldl (fun data x => add_state (pi_state x.2) (default 0 (dict_find x.1 pver_bc)) data) [] pver_state.

(** [data.get(state, 0)] *)
Fixpoint state_get (st : PverState) (data : list (PverState * Z)) : Z :=
  match data with
  | [] => 0
  | (s, n) :: rest => if bool_decide (s = st) then n else state_get st rest
  end.

(** What is written for a state. *)
Definition bytes_in_state (st : PverState) (pver_bc : list (string * Z))
    (pver_state : list (string * PverInfo)) : Z := state_get st (state_totals pver_bc pver_state).

Definition update_bc_for_dg_category (pver_bc : list (string * Z))
    (pver_state : list (string * PverInfo)) : M W unit :=
  for_each pver_state_map (fun x =>
    kv_put ("bytecount/" +:+ x.2) (dumps (JInt (bytes_in_state x.1 pver_bc pver_state))) None None ;;
    mret tt).

(** *** Dynamic fids *)

(** [json.dumps({'owner': hax_fid})]: a [Fid] is not JSON serializable. *)
Definition dumps_owner (hax_fid : Fid) : outcome string := Raise TypeError.

Fixpoint put_until (n : nat) (k v : string) (cas : option Z) : M W unit :=
  match n with
  | O => hang
  | S n' => ok ← kv_put k v cas None; if (ok : bool) then mret tt else sleep ;; put_until n' k v cas
  end.

Fixpoint delete_until (n : nat) (keys : list KeyDelete) : M W unit :=
  match n with
  | O => hang
  | S n' => ok ← kv_delete_in_transaction keys;
            if (ok : bool) then mret tt else sleep ;; delete_until n' keys
  end.

Definition obj_dynamic_fidk_lock (objt : ObjT) : M W bool :=
  retry (hax_fid ← get_hax_fid None;
         value ← lift (dumps_owner hax_fid);
         catch (put_until fuel ("fidk_update_lock/" +:+ ObjT_name objt) value (Some 0) ;; mret true)
           (fun _ => Some (mret false))).

Definition obj_dynamic_fidk_unlock (objt : ObjT) : M W unit :=
  retry (catch (delete_until fuel [mkKeyDelete ("fidk_update_lock/" +:+ ObjT_name objt) true])
           (fun _ => Some (raise (RuntimeError "Unreachable")))).

Definition revoke_all_dynamic_fidk_lock_for (hax_fid : Fid) : M W unit :=
  retry (catch
    (d ← kv_get "fidk_update_lock" (Some true) (Some true) None;
     fidk_lock_items ← lift (items_of d);
     keys_to_del ← fold_m (fun keys item =>
       owner ← lift (value_field "owner" (Value item));
       s ← lift (need_str owner);
       owner_fid ← lift (fid_parse s);
       mret (if fid_eqb owner_fid hax_fid then keys ++ [mkKeyDelete (Key item) true] else keys))
       [] fidk_lock_items;
     delete_until fuel keys_to_del)
    (fun _ => Some (raise (RuntimeError "Unreachable")))).

(** [new_fidk] is unbound when the lock was not taken. *)
Definition get_obj_next_dynamic_fidk_lock (objt : ObjT) : M W Z :=
  retry
    (locked ← obj_dynamic_fidk_lock objt;
     if (locked : bool) then
       let k := "last_dynamic_fid_key/" +:+ py_lower (ObjT_name objt) in
       d ← kv_get k (Some false) None None;
       i ← lift (item_of d);
       j ← lift (loads_value (Value i));
       z ← lift (int_of j);
       let new_fidk := z + 1 in
       put_until fuel k (dumps (JStr (dec_str new_fidk))) None ;;
       obj_dynamic_fidk_unlock objt ;;
       mret new_fidk
     else raise NameError).

(** The fid of [alloc_next_obj_fid] for the next dynamic key. *)
Definition dynamic_fid (obj_fid : Fid) (next_fidk : Z) : outcome Fid :=
  objt ← FidTypeToObjT (container obj_fid);
  fid_mask ← ObjTMaskMap objt;
  Ret (mkFid (container obj_fid) (key obj_fid + ((key fid_mask * next_fidk) + next_fidk))).

Definition alloc_next_obj_fid (obj_fid : Fid) : M W Fid :=
  retry
    (objt ← lift (FidTypeToObjT (container obj_fid));
     next_fidk ← get_obj_next_dynamic_fidk_lock objt;
     new_obj_fid ← lift (dynamic_fid obj_fid next_fidk);
     base_fid ← lift (get_base_fid new_obj_fid);
     put_until fuel (fid_repr base_fid) (dumps (JStr (fid_repr new_obj_fid))) None ;;
     mret new_obj_fid).

Definition update_process_fid (proc_fid : Fid) : M W (list Fid) :=
  f ← alloc_next_obj_fid proc_fid;
  service_list ← get_services_by_parent_process proc_fid None;
  l ← map_m (fun svc => alloc_next_obj_fid (fwt_fid svc)) service_list;
  mret (f :: l).

Definition get_obj_full_fid (base_fid : Fid) : M W Fid :=
  retry
    (full_fid ← kv_get (fid_repr base_fid) (Some false) (Some true) None;
     match full_fid with
     | KVNone => mret base_fid
     | d =>
         i ← lift (item_of d);
         j ← lift (loads_value (Value i));
         s ← lift (need_str j);
         lift (fid_parse s)
     end).
End ProcStatus.
