(* ===== verification/Demo.v ===== *)
(** * A small cluster

    A concrete Consul server with one node, its hax, confd and io service, used
    by the witnesses. *)

From S2P Require Import Prelude PyStr Json HaxTypes Message World Cache ConsulStore Consul.

Section Demo.

Definition obj (l : list (string * string)) : string :=
  dumps (JObj ((fun x => (x.1, JStr x.2)) <$> l)).

Definition demo_service (name id : string) : json :=
  JObj [("Node", JStr "node1"); ("ServiceName", JStr name); ("ServiceID", JStr id);
        ("Address", JStr "10.0.0.1"); ("ServiceAddress", JStr "inet:tcp:10.0.0.1");
        ("ServicePort", JInt 22001); ("ServiceMeta", JObj [("transport_type", JStr "libfab")])].

Definition demo_check (id status : string) : json :=
  JObj [("ServiceID", JStr id); ("Status", JStr status)].

Definition node_path : string := "m0conf/nodes/0x6e00000000000001:0x3".
Definition ios_path : string := node_path +:+ "/processes/0x7200000000000001:0xa".
Definition ctrl_path : string :=
  "m0conf/sites/0x5300000000000001:0x1/racks/0x6100000000000001:0x2/encls/0x6500000000000001:0x4/ctrls/0x6300000000000001:0x5".

(** The state of the drive and of the process are parameters. *)
Definition cluster_kv (proc_state drive_state : string) : list (string * string) :=
  [("consul/node/node1", "node1");
   (node_path, obj [("name", "node1"); ("state", "M0_NC_UNKNOWN")]);
   (ios_path, obj [("name", "m0_server"); ("state", "offline")]);
   (ios_path +:+ "/services/0x7300000000000001:0xc", obj [("name", "ios"); ("state", "offline")]);
   (ios_path +:+ "/services/0x7300000000000001:0xc/sdevs/0x6400000000000001:0x18",
      obj [("path", "/dev/sdc"); ("state", drive_state)]);
   ("m0conf/nodes/node1/processes/9/services/rms", "13");
   (ctrl_path, obj [("state", "M0_NC_UNKNOWN")]);
   (ctrl_path +:+ "/drives/0x6b00000000000001:0x38", obj [("sdev", "0x6400000000000001:0x18")]);
   ("processes/0x7200000000000001:0xa",
      obj [("state", proc_state); ("type", "M0_CONF_HA_PROCESS_M0D")]);
   ("epoch", "5")].

Definition leader_entry : kvitem := mkKv "leader" (Some "node1") 100 (Some "session-1").

Definition cluster (proc_state drive_state check : string) : server :=
  let st := store_of (cluster_kv proc_state drive_state) in
  mkServer (mkStore (<["leader" := leader_entry]> (entries st)) 100) true
    [("hax", [demo_service "hax" "6"]); ("confd", [demo_service "confd" "9"]);
     ("ios", [demo_service "ios" "10"])]
    [("node1", [demo_check "" "passing"; demo_check "10" check])]
    [("session-1", JObj [("Node", JStr "node1")])]
    [] "node1" [mkMessageId 1 1].

Definition cluster_world (proc_state drive_state check : string) : World server :=
  world_init (cluster proc_state drive_state check) (Some "node1") 3.
End Demo.
