(* ===== verification/KvCache.v ===== *)
(** * Reads and writes through one cache ([src/hax/hax/consul/cache.py], [KVAdapter])

    The calls of [kv_get] and [kv_put] that share a cache answer, each of them, as the
    store would without one.  This rests on the text that identifies a call in the
    cache: the quoted key and the keyword arguments can be read back from it. *)

From S2P Require Import Prelude PyStr Json HaxTypes World Cache ConsulStore Consul Demo.

(** ** [repr] of a string can be read back *)
Definition all_ascii : list ascii := ascii_of_nat <$> seq 0 256.

Lemma all_ascii_in c : In c all_ascii.
Proof.
  apply list_elem_of_In, list_elem_of_fmap. exists (nat_of_ascii c). split.
  - by rewrite ascii_nat_embedding.
  - apply elem_of_seq. pose proof (nat_ascii_bounded c). lia.
Qed.

Definition quotes : list ascii := [ascii_of_nat 39; quote].

(** The escapes of two characters are not prefixes of each other, and none starts
    with the quote. *)
Definition escapes_ok (q : ascii) : bool :=
  forallb (fun c => negb (String.prefix (String q "") (repr_char q c))
    && forallb (fun d => negb (String.prefix (repr_char q c) (repr_char q d)) || Ascii.eqb c d) all_ascii)
    all_ascii.

Lemma escapes_checked : forallb escapes_ok quotes = true.
Proof. vm_compute. reflexivity. Qed.

Lemma escapes_prefix q c d : In q quotes ->
  String.prefix (repr_char q c) (repr_char q d) = true -> c = d.
Proof.
  intros Hq Hp. pose proof escapes_checked as Hc. rewrite forallb_forall in Hc.
  specialize (Hc q Hq). unfold escapes_ok in Hc. rewrite forallb_forall in Hc.
  specialize (Hc c (all_ascii_in c)). apply andb_true_iff in Hc as [_ Hc].
  rewrite forallb_forall in Hc. specialize (Hc d (all_ascii_in d)). rewrite Hp in Hc.
  by apply Ascii.eqb_eq.
Qed.

Lemma escapes_quote q c : In q quotes -> String.prefix (String q "") (repr_char q c) = false.
Proof.
  intros Hq. pose proof escapes_checked as Hc. rewrite forallb_forall in Hc.
  specialize (Hc q Hq). unfold escapes_ok in Hc. rewrite forallb_forall in Hc.
  specialize (Hc c (all_ascii_in c)). apply andb_true_iff in Hc as [Hc _].
  by apply negb_true_iff.
Qed.

Lemma append_prefix_cases s1 s2 r1 r2 : s1 +:+ r1 = s2 +:+ r2 ->
  String.prefix s1 s2 = true \/ String.prefix s2 s1 = true.
Proof.
  revert s2. induction s1 as [| c s1 IH]; intros [| d s2]; try (cbn; auto; fail).
  rewrite !append_cons. intros [= -> Hs]. cbn. destruct (ascii_dec d d); [by apply IH | done].
Qed.

Lemma append_inj_l s r1 r2 : s +:+ r1 = s +:+ r2 -> r1 = r2.
Proof. induction s as [| c s IH]; [done|]. rewrite !append_cons. intros [= Hs]. by apply IH. Qed.

Lemma append_empty s : s +:+ "" = s.
Proof. induction s as [| c s IH]; [done|]. exact (f_equal (String c) IH). Qed.

Definition escaped (q : ascii) (s : list ascii) : string := String.concat "" (List.map (repr_char q) s).

Lemma escaped_cons q c s : escaped q (c :: s) = repr_char q c +:+ escaped q s.
Proof.
  unfold escaped. cbn [List.map String.concat]. destruct (List.map (repr_char q) s); [| done].
  by rewrite append_empty.
Qed.

Lemma escaped_inj q s1 s2 r1 r2 : In q quotes ->
  escaped q s1 +:+ String q r1 = escaped q s2 +:+ String q r2 -> s1 = s2 /\ r1 = r2.
Proof.
  intros Hq.
  assert (Hne : forall c s r r', String q r = escaped q (c :: s) +:+ r' -> False).
  { intros c s r r'. rewrite escaped_cons, append_assoc. intros Heq.
    pose proof (escapes_quote q c Hq) as Hp. destruct (repr_char q c) as [| x t] eqn:Ex.
    - unfold repr_char in Ex. by repeat case_match.
    - rewrite append_cons in Heq. cbn in Hp. injection Heq as <- _.
      destruct (ascii_dec q q); [by destruct t | done]. }
  revert s2. induction s1 as [| c s1 IH]; intros [| d s2].
  - intros [= ->]. done.
  - intros Heq. by apply Hne in Heq.
  - intros Heq. symmetry in Heq. by apply Hne in Heq.
  - rewrite !escaped_cons, !append_assoc. intros Heq.
    assert (c = d) as <-.
    { destruct (append_prefix_cases _ _ _ _ Heq) as [Hp | Hp]; apply escapes_prefix in Hp; done. }
    apply append_inj_l in Heq. destruct (IH _ Heq) as [-> ->]. done.
Qed.

Lemma repr_str_inj a b x y : repr_str a +:+ x = repr_str b +:+ y -> a = b /\ x = y.
Proof.
  unfold repr_str. cbn zeta.
  set (qa := if _ && _ then quote else _). set (qb := if py_in _ b && _ then quote else _).
  assert (Hqa : In qa quotes) by (unfold qa; destruct (_ && _); cbn; auto).
  clearbody qa qb. rewrite !append_cons. intros [= <- Heq].
  rewrite !append_assoc, !append_cons, !append_nil in Heq.
  apply (escaped_inj qa _ _ _ _ Hqa) in Heq as [Hs ->]. split; [| done].
  rewrite <- (string_of_list_ascii_of_string a), <- (string_of_list_ascii_of_string b). by rewrite Hs.
Qed.

(** ** The text that identifies a call of [kv_get] *)
Definition kv_key (k : string) (r an : option bool) : string := key_of [repr_str k] (kv_get_kwargs r an).

Lemma kv_key_inj k r an k' r' an' : kv_key k r an = kv_key k' r' an' -> k = k' /\ r = r' /\ an = an'.
Proof.
  unfold kv_key, key_of. intros Heq%append_inj_l. apply repr_str_inj in Heq as [-> Heq].
  split; [done|]. clear k'.
  destruct r as [[] |], an as [[] |], r' as [[] |], an' as [[] |]; vm_compute in Heq; done.
Qed.

(** ** Sequences of calls *)
Inductive kv_call : Type :=
| Get (key : string) (recurse allow_null : option bool)
| Put (key data : string) (cas : option Z).

Inductive kv_answer : Type := Data (d : kvdata) | Written (b : bool).

Section Calls.
Context {E : Type} `{ConsulApi E} `{!ConsulLaws E}.
Notation W := (World E).

Definition run_call (kv_cache : option nat) (x : kv_call) : M W kv_answer :=
  match x with
  | Get key r an => d ← kv_get key r an kv_cache; mret (Data d)
  | Put key data cas => b ← kv_put key data cas kv_cache; mret (Written b)
  end.

(** The calls one after the other; an exception goes to the caller, which goes on with
    its next call. *)
Fixpoint run_calls (kv_cache : option nat) (calls : list kv_call) (w : W)
    : list (outcome kv_answer) * W :=
  match calls with
  | [] => ([], w)
  | x :: calls =>
      let '(o, w1) := run_call kv_cache x w in
      let '(os, w2) := run_calls kv_cache calls w1 in (o :: os, w2)
  end.

(** What the store itself answers. *)
Definition store_call (x : kv_call) (s : store) : outcome kv_answer * store :=
  match x with
  | Get key r an =>
      if String.eqb key "" then (Raise AssertionError, s)
      else (match (store_read key (default false r) s).2 with
            | KVNone => if default false an then Ret (Data KVNone)
                        else Raise (HAConsistencyException "Could not get data from Consul KV")
            | d => Ret (Data d)
            end, s)
  | Put key data cas =>
      if String.eqb key "" then (Raise AssertionError, s)
      else let '(b, s') := store_put key data cas s in (Ret (Written b), s')
  end.

Fixpoint store_calls (calls : list kv_call) (s : store) : list (outcome kv_answer) * store :=
  match calls with
  | [] => ([], s)
  | x :: calls =>
      let '(o, s1) := store_call x s in
      let '(os, s2) := store_calls calls s1 in (o :: os, s2)
  end.

(** Every value the cache holds for a call of [kv_get] is the answer of the store. *)
Definition cache_ok (c : nat) (w : W) : Prop := forall k r an v,
  cache_get c "KVAdapter.kv_get" (kv_key k r an) w = Some v ->
  k <> "" /\ exists d, v = to_py d /\ kv_get_outcome k r an (view (env w)) = Ret d.

Lemma kv_get_cached c k r an (w : W) : available (env w) = true -> cache_ok c w ->
  exists w', kv_get k r an (Some c) w
    = (if String.eqb k "" then Raise AssertionError else kv_get_outcome k r an (view (env w)), w')
    /\ env w' = env w /\ cache_ok c w'.
Proof.
  intros Ha Hok. unfold kv_get, uses_consul_cache. cbn [cache_or_new]. rewrite bind_mret, bind_gets.
  fold (kv_key k r an). destruct (cache_get c _ (kv_key k r an) w) as [v |] eqn:Eg.
  { destruct (Hok _ _ _ _ Eg) as (Hk & d & -> & Hd). exists w.
    change (Some (to_py d) ≫= of_py) with (of_py (to_py d) : option kvdata). rewrite of_to_py.
    destruct (String.eqb_spec k ""); [done|]. by rewrite Hd. }
  change (None ≫= of_py) with (None : option kvdata). cbv iota.
  destruct (String.eqb_spec k "") as [-> | Hk]; [by exists w|].
  pose proof (kv_get_body k r an w Ha Hk) as Hb. destruct (kv_get_outcome k r an (view (env w))) as [d | e |] eqn:Ed.
  - rewrite (bind_unfold_Ret _ _ _ _ _ Hb). eexists. split; [reflexivity|]. split; [done|].
    intros k' r' an' v. rewrite cache_get_put. case_decide as Hd; [| apply Hok].
    destruct Hd as (_ & _ & (-> & -> & ->)%kv_key_inj). intros [= <-]. split; [done|]. by exists d.
  - rewrite (bind_unfold_Raise _ _ _ _ _ Hb). by exists w.
  - unfold kv_get_outcome in Ed. by repeat case_match.
Qed.

Lemma kv_put_cached c k v cas (w : W) : available (env w) = true ->
  exists w', run_call (Some c) (Put k v cas) w = ((store_call (Put k v cas) (view (env w))).1, w')
    /\ available (env w') = true /\ view (env w') = (store_call (Put k v cas) (view (env w))).2
    /\ cache_ok c w'.
Proof.
  intros Ha. cbn [run_call store_call]. destruct (String.eqb_spec k "") as [-> | Hk].
  - exists (cache_clear c w). split_and!; [done | done | done |].
    intros k' r an v'. by rewrite cache_clear_get.
  - rewrite (bind_unfold_Ret _ _ _ _ _ (kv_put_ok k v cas (Some c) w Ha Hk)).
    destruct (store_put k v cas (view (env w))) as [b s'] eqn:Es. cbn [fst snd].
    eexists. split; [reflexivity|]. cbn [env set_env]. rewrite available_set, view_set.
    split_and!; [done | done |]. intros k' r an v' Hg.
    change (cache_get c "KVAdapter.kv_get" (kv_key k' r an) (cache_clear c w) = Some v') in Hg.
    by rewrite cache_clear_get in Hg.
Qed.

Lemma run_calls_exact c calls (w : W) : available (env w) = true -> cache_ok c w ->
  exists w', run_calls (Some c) calls w = ((store_calls calls (view (env w))).1, w')
    /\ view (env w') = (store_calls calls (view (env w))).2.
Proof.
  revert w. induction calls as [| x calls IH]; intros w Ha Hok; cbn [run_calls store_calls]; [by exists w|].
  assert (Hx : exists w1, run_call (Some c) x w = ((store_call x (view (env w))).1, w1)
    /\ available (env w1) = true /\ view (env w1) = (store_call x (view (env w))).2 /\ cache_ok c w1).
  { destruct x as [k r an | k v cas]; [| by apply kv_put_cached].
    destruct (kv_get_cached c k r an w Ha Hok) as (w1 & Hg & He & Hc).
    exists w1. rewrite He. cbn [run_call store_call]. split.
    - unfold mbind, M_bind. rewrite Hg. destruct (String.eqb k ""); [done|]. unfold kv_get_outcome.
      cbn [fst]. destruct (store_read _ _ _).2; [by destruct (default false an) | done | done].
    - by destruct (String.eqb k ""). }
  destruct Hx as (w1 & -> & Ha1 & Hv1 & Hc1). destruct (IH w1 Ha1 Hc1) as (w2 & -> & Hv2).
  rewrite Hv1 in *. destruct (store_call x (view (env w))) as [o s1]. cbn [fst snd] in *.
  exists w2. by destruct (store_calls calls s1).
Qed.
End Calls.

(** C40: a sequence of [kv_get] and [kv_put] calls that share a new cache answers, call by
    call and exceptions included, what the store answers without a cache: no value of
    another key or of another combination of keyword arguments is ever returned, and
    no value from before a write.  The server answers all the time and nobody else
    writes in between. *)
Theorem calls_through_cache_are_exact {E} `{ConsulApi E} `{!ConsulLaws E} calls (w : World E) :
  available (env w) = true ->
  exists w', run_calls (Some (next_cache w)) calls (new_cache w).2
      = ((store_calls calls (view (env w))).1, w')
    /\ view (env w') = (store_calls calls (view (env w))).2.
Proof.
  intros Ha. apply (run_calls_exact (next_cache w) calls (new_cache w).2 Ha).
  intros k r an v. unfold cache_get. cbn. by rewrite lookup_insert_eq.
Qed.

(** A key read twice, before and after a write, keys with quotes in them, a missing
    key. *)
Definition some_calls : list kv_call :=
  [Get "epoch" None None; Put "epoch" "6" None; Get "epoch" None None; Get "epoch" None None;
   Get "x', 'allow_null': True" None (Some true); Get "x" None (Some true); Get "x" None None;
   Get "epoch" (Some true) None].

Definition calls_world : World server := cluster_world "a" "online" "passing".

Lemma calls_through_cache_are_exact_witness :
  exists answers w', run_calls (Some 0%nat) some_calls (new_cache calls_world).2 = (answers, w')
    /\ (exists i, answers !! 0%nat = Some (Ret (Data (KVItem i))) /\ Value i = Some "5")
    /\ (exists i, answers !! 3%nat = Some (Ret (Data (KVItem i))) /\ Value i = Some "6")
    /\ answers !! 6%nat = Some (Raise (HAConsistencyException "Could not get data from Consul KV")).
Proof.
  destruct (calls_through_cache_are_exact some_calls calls_world) as (w' & Hr & _); [reflexivity|].
  exists (store_calls some_calls (view (env calls_world))).1, w'. split; [exact Hr|].
  split_and!; [eexists; split; vm_compute; reflexivity | eexists; split; vm_compute; reflexivity |
    vm_compute; reflexivity].
Defined.
