(* ===== verification/ProcProps.v ===== *)
(** * Correctness of ConsulUtil

    Round trips of the states kept in the KV store, soundness of the health
    reported for a process, protection of the drives under repair, arithmetic of
    the dynamic fids. *)

From S2P Require Import Prelude PyStr Json HaxTypes Message World Delivery Cache ConsulStore.
From S2P Require Import Consul ConsulUtil ConfTree ProcStatus Demo.

(** ** Pure parts *)
Section Pure.

Lemma land_dw z : Z.land z DW_F = z mod 2 ^ 32.
Proof. unfold DW_F. change 0xffffffff with (Z.ones 32). by rewrite Z.land_ones. Qed.

Lemma base_fid_process_or_service f t :
  container f = ObjT_value t -> t = PROCESS \/ t = SERVICE ->
  get_base_fid f = Ret (mkFid (container f) (key f mod 2 ^ 32)).
Proof.
  intros Hc Ht. unfold get_base_fid. rewrite Hc, FidTypeToObjT_value. cbn [mbind outcome_bind].
  destruct Ht as [-> | ->]; cbn [mbind outcome_bind ObjTMaskMap key]; by rewrite land_dw.
Qed.

(** Dynamic fids.  The fid allocated for the [n]-th restart of a process or
    service differs for different [n] and has the base fid of the object. *)
Theorem dynamic_fid_keeps_base f t n m g g' :
  container f = ObjT_value t -> t = PROCESS \/ t = SERVICE ->
  dynamic_fid f n = Ret g -> dynamic_fid f m = Ret g' ->
  get_base_fid g = get_base_fid f /\ (g = g' -> n = m).
Proof.
  intros Hc Ht Hg Hg'.
  assert (Hd : forall k, dynamic_fid f k = Ret (mkFid (container f) (key f + 2 ^ 32 * k))).
  { intros k. unfold dynamic_fid. rewrite Hc, FidTypeToObjT_value. cbn [mbind outcome_bind].
    destruct Ht as [-> | ->]; cbn [mbind outcome_bind ObjTMaskMap key];
      unfold DW_F; do 2 f_equal; lia. }
  rewrite Hd in Hg, Hg'. injection Hg as <-. injection Hg' as <-. split.
  - rewrite !(base_fid_process_or_service _ t) by done. cbn [container key]. do 2 f_equal.
    rewrite Z.mul_comm. by rewrite Z_mod_plus_full.
  - intros [= Heq]. lia.
Qed.

(** State codes.  The state text written for a device, a node or a
    controller is read back as the note state of the health that was set, except
    that a recovering drive is read as online. *)
Theorem device_states_read_back h s :
  (device_state_map h = Ret s ->
     drive_to_ha_state s = Ret (if bool_decide (h = RECOVERING) then M0_NC_ONLINE
                                else to_ha_note_status h))
  /\ (get_device_ha_state h = Ret s -> m0HaObjState_parse s = Ret (to_ha_note_status h)).
Proof. split; destruct h; intros [= <-]; reflexivity. Qed.

Lemma device_states_read_back_witness :
  drive_to_ha_state "repairing" = Ret M0_NC_REPAIR.
Proof. apply (device_states_read_back REPAIR "repairing"). reflexivity. Defined.

Lemma dynamic_fid_keeps_base_witness :
  get_base_fid (mkFid (ObjT_value PROCESS) (10 + 2 ^ 32 * 3)) = Ret (mkFid (ObjT_value PROCESS) 10).
Proof.
  destruct (dynamic_fid_keeps_base (mkFid (ObjT_value PROCESS) 10) PROCESS 3 3
    (mkFid (ObjT_value PROCESS) (10 + 2 ^ 32 * 3)) (mkFid (ObjT_value PROCESS) (10 + 2 ^ 32 * 3)))
    as [Hb _]; [reflexivity | by left | reflexivity | reflexivity |].
  rewrite Hb. reflexivity.
Defined.
End Pure.

(** ** Runs *)
Section Runs.
Context {E : Type} `{ConsulApi E} `{!ConsulLaws E} `{Others E} `{Fuel}.
Notation W := (World E).

(** A result of a retried call is the result of one of its calls. *)
Lemma repeat_loop_inv {A} n mx count (f : M W A) w a w' :
  repeat_loop n mx count f w = (Ret a, w') -> exists w1, f w1 = (Ret a, w').
Proof.
  revert count w. induction n as [| n IH]; intros count w; cbn; [done|].
  destruct (f w) as [r w1] eqn:Ef. destruct r as [b | e |]; [intros [= <- <-]; by exists w | | done].
  destruct e; try done. destruct (stopping w1); [done|]. destruct (_ && _); [done|].
  unfold sleep. rewrite bind_modify. apply IH.
Qed.

Lemma repeat_if_fails_inv {A} mx (f : M W A) w a w' :
  repeat_if_fails mx f w = (Ret a, w') -> exists w1, f w1 = (Ret a, w').
Proof. apply repeat_loop_inv. Qed.


Lemma lift_inv {A} (o : outcome A) (w : W) a w' : lift o w = (Ret a, w') -> o = Ret a /\ w' = w.
Proof. unfold lift. by intros [= -> <-]. Qed.

(** *** Health *)





(** *** Locating the node *)

Lemma get_local_nodename_env n (w : W) :
  hare_hax_node_name w = Some n -> n <> "" ->
  get_local_nodename w = (Ret (consul_to_local_nodename n), w).
Proof.
  intros Hn Hne. unfold get_local_nodename. apply wrap_consul_ret. rewrite bind_gets, Hn.
  by destruct (String.eqb_spec n "").
Qed.

(** *** Writing and reading back one key *)

(** A write without a cache, then a read without one. *)
Lemma put_then_get k v r an (w : W) :
  available (env w) = true -> k <> "" -> v <> "" -> default false r = false ->
  exists w1 w2 i, kv_put k v None None w = (Ret true, w1)
    /\ hare_hax_node_name w1 = hare_hax_node_name w /\ available (env w1) = true
    /\ motr_processes_status w1 = motr_processes_status w
    /\ (forall w1', env w1' = env w1 -> exists w2', kv_get k r an None w1' = (Ret (KVItem i), w2'))
    /\ kv_get k r an None w1 = (Ret (KVItem i), w2) /\ Value i = Some v.
Proof.
  intros Ha Hk Hv Hr. set (s := (store_put k v None (view (env w))).2).
  set (w1 := set_env (set_view s (env w)) w).
  set (i := new_entry k v (kv_index (view (env w)) + 1) (view (env w))).
  assert (Hget : forall w1', env w1' = env w1 ->
    exists w2', kv_get k r an None w1' = (Ret (KVItem i), w2')).
  { intros w1' He. destruct (kv_get_miss k r an None w1' (KVItem i)) as (w2 & Hg & _); [..| by exists w2].
    - rewrite He. cbn. by rewrite available_set.
    - done.
    - unfold kv_get_outcome, store_read. rewrite Hr, He. cbn. rewrite view_set. unfold s. cbn.
      unfold store_get. cbn. by rewrite lookup_insert_eq.
    - done. }
  destruct (Hget w1 eq_refl) as [w2 Hg].
  exists w1, w2, i. rewrite kv_put_ok by done. repeat split; try done.
  - cbn. by rewrite available_set.
  - cbn. by destruct (String.eqb_spec v "").
Qed.

Lemma dumps_nonempty j : dumps j <> "".
Proof.
  intros He. pose proof (dump_nonempty j) as Hl. unfold dumps in He.
  apply (f_equal list_ascii_of_string) in He. rewrite list_ascii_of_string_of_list_ascii in He.
  rewrite He in Hl. cbn in Hl. lia.
Qed.

(** *** Updates of drives *)

(** The updates a process event makes for the entries [items]: none for an entry with
    another key, none for a drive that is failed, repairing, repaired or rebalancing,
    and one for every other entry of the drive, which writes it back with the new state. *)
Inductive drive_updates (sdev_fid : Fid) (st : string) : list kvitem -> list PutKV -> Prop :=
| du_nil : drive_updates sdev_fid st [] []
| du_other item items ups :
    rx_match (sdev_regex sdev_fid) (Key item) = None ->
    drive_updates sdev_fid st items ups -> drive_updates sdev_fid st (item :: items) ups
| du_protected item items ups value old :
    is_Some (rx_match (sdev_regex sdev_fid) (Key item)) ->
    loads_value (Value item) = Ret value -> jget "state" value = Ret (JStr old) ->
    old ∈ ["failed"; "repairing"; "repaired"; "rebalancing"] ->
    drive_updates sdev_fid st items ups -> drive_updates sdev_fid st (item :: items) ups
| du_changed item items ups value old value' :
    is_Some (rx_match (sdev_regex sdev_fid) (Key item)) ->
    loads_value (Value item) = Ret value -> jget "state" value = Ret old ->
    (forall s, old = JStr s -> s ∉ ["failed"; "repairing"; "repaired"; "rebalancing"]) ->
    jset "state" (JStr st) value = Ret value' ->
    drive_updates sdev_fid st items ups ->
    drive_updates sdev_fid st (item :: items) (mkPutKV (Key item) (dumps value') :: ups).

Lemma protected_state_spec j :
  if protected_state j
  then exists s, j = JStr s /\ s ∈ ["failed"; "repairing"; "repaired"; "rebalancing"]
  else forall s, j = JStr s -> s ∉ ["failed"; "repairing"; "repaired"; "rebalancing"].
Proof.
  destruct j as [| | | s | |]; try (intros ? ?; discriminate). unfold protected_state, in_strings. cbn.
  repeat match goal with |- context [String.eqb s ?x] => destruct (String.eqb_spec s x) as [-> |] end;
    cbn; first [eexists; split; [reflexivity | set_solver] | intros ? [= <-]; set_solver].
Qed.

Lemma sdev_updates_run sdev_fid st items acc (w : W) r w' :
  fold_m (fun result sdev =>
      match rx_match (sdev_regex sdev_fid) (Key sdev) with
      | None => mret result
      | Some _ => u ← lift (sdev_update sdev st false); mret (result ++ u)
      end) acc items w = (Ret r, w') ->
  exists ups, r = acc ++ ups /\ drive_updates sdev_fid st items ups.
Proof.
  revert acc w. induction items as [| item items IH]; intros acc w; cbn [fold_m].
  { intros [= <- _]. exists []. rewrite app_nil_r. split; [done | constructor]. }
  intros (acc1 & w1 & Hs & (ups & -> & Hu)%IH)%bind_Ret.
  destruct (rx_match _ _) as [g |] eqn:Eg; [| injection Hs as <- _; exists ups; by split; [| constructor]].
  assert (Hm : is_Some (rx_match (sdev_regex sdev_fid) (Key item))) by eauto.
  apply bind_Ret in Hs as (u & w2 & [Hsu ->]%lift_inv & Hs). injection Hs as <- _.
  unfold sdev_update in Hsu. destruct (loads_value (Value item)) as [value | |] eqn:Ev; [| done | done].
  cbn [mbind outcome_bind] in Hsu. destruct (jget "state" value) as [old | |] eqn:Ej; [| done | done].
  cbn [mbind outcome_bind] in Hsu. pose proof (protected_state_spec old) as Hp.
  destruct (protected_state old).
  - injection Hsu as <-. destruct Hp as (s & -> & Hin). exists ups. rewrite app_nil_r.
    split; [done | by econstructor].
  - destruct (jset "state" (JStr st) value) as [value' | |] eqn:Es; [| done | done].
    injection Hsu as <-. eexists. rewrite <- app_assoc. split; [done | by econstructor].
Qed.



End Runs.


(** C38: the updates [get_sdev_state_update] returns for a process event are those of
    the entries this call has read: a drive that is failed, under repair, repaired or
    being rebalanced is left alone, and every other entry of the drive is written back
    with the new state and the rest of its description. *)
Theorem process_event_keeps_protected_drives {E} `{ConsulApi E} `{Others E} `{Fuel}
    sdev_fid st kv ups (w w' : World E) :
  get_sdev_state_update sdev_fid st false kv w = (Ret ups, w') ->
  exists n w1 c w2 items w3, attempts n (sdev_state_updates sdev_fid st false kv) w w1
    /\ cache_or_new kv w1 = (Ret c, w2) /\ get_all_nodes (Some c) w2 = (Ret items, w3)
    /\ drive_updates sdev_fid st items ups.
Proof.
  intros (n & w1 & Ha & Hr)%repeat_if_fails_run.
  apply bind_Ret in Hr as (c & w2 & Hc & Hr). apply bind_Ret in Hr as (items & w3 & Hi & Hr).
  apply sdev_updates_run in Hr as (ups' & -> & Hu). by exists n, w1, c, w2, items, w3.
Qed.


(** The restart counter reads back. *)
Theorem restart_count_round_trip {E} `{ConsulApi E} `{!ConsulLaws E} `{Others E} `{Fuel}
    f n node (w : World E) :
  hare_hax_node_name w = Some node -> node <> "" -> available (env w) = true -> fuel <> 0%nat ->
  exists w1 w2, set_proc_restart_count f n w = (Ret tt, w1)
    /\ get_proc_restart_count f w1 = (Ret n, w2).
Proof.
  intros Hn Hne Ha Hfuel. set (k := restart_key (consul_to_local_nodename node) f).
  assert (Hk : k <> "").
  { unfold k, restart_key. by destruct (consul_to_local_nodename node). }
  destruct (put_then_get k (dumps (JStr (dec_str n))) (Some false) (Some true) w)
    as (w1 & w2 & i & Hput & Hnode & Ha1 & _ & _ & Hget & Hv); [done | done | apply dumps_nonempty | done |].
  exists w1, w2. split.
  - apply repeat_if_fails_ret; [| done | done].
    rewrite (bind_unfold_Ret _ _ _ _ _ (get_local_nodename_env node w Hn Hne)). fold k.
    by rewrite (bind_unfold_Ret _ _ _ _ _ Hput).
  - apply repeat_if_fails_ret; [| done | done].
    rewrite (bind_unfold_Ret _ _ w1 (consul_to_local_nodename node) w1)
      by (apply get_local_nodename_env; by rewrite ?Hnode).
    fold k. rewrite (bind_unfold_Ret _ _ _ _ _ Hget). cbn [kv_truthy].
    unfold lift, mbind, M_bind. cbn [item_of]. rewrite Hv. cbn [loads_value].
    rewrite loads_dumps_wf by constructor. cbn [int_of]. by rewrite py_int_dec_str.
Qed.

(** After a DTM_RECOVERED event of a tracked process the local node is not
    reported online: [get_local_node_status] counts the STARTED processes only. *)
Theorem recovered_process_hides_online {E} `{ConsulApi E} `{Others E} f old (w : World E) :
  dict_find f (motr_processes_status w) = Some old ->
  exists s w', (set_motr_processes_status f "M0_CONF_HA_PROCESS_DTM_RECOVERED" false ;;
                get_local_node_status) w = (Ret s, w') /\ s <> "online".
Proof.
  intros Hf. unfold set_motr_processes_status. rewrite bind_modify.
  rewrite bool_decide_eq_true_2 by by eexists. cbn [orb].
  unfold get_local_node_status, get_motr_processes_status. rewrite bind_gets.
  eexists _, _. split; [reflexivity|]. cbn [motr_processes_status set_statuses].
  set (l := dict_set f _ _). unfold summary_state.
  assert (Hlt : (length (List.filter (fun x => String.eqb x.2 "M0_CONF_HA_PROCESS_STARTED") l)
    < length l)%nat).
  { pose proof (dict_find_set_eq f "M0_CONF_HA_PROCESS_DTM_RECOVERED" (motr_processes_status w)) as Hd.
    apply dict_find_elem in Hd. fold l in Hd. clearbody l. clear -Hd.
    induction l as [| x l IH]; [set_solver|]. cbn [List.filter length].
    pose proof (filter_length_le (fun x => String.eqb x.2 "M0_CONF_HA_PROCESS_STARTED") l).
    apply elem_of_cons in Hd as [<- | Hd]; [cbn; lia|]. specialize (IH Hd).
    destruct (String.eqb _ _); cbn; lia. }
  destruct (Nat.eqb_spec (length l)
    (length (List.filter (fun x => String.eqb x.2 "M0_CONF_HA_PROCESS_STARTED") l))); [lia|].
  by destruct (_ =? _)%nat.
Qed.

(** The lock for dynamic fids is never taken: its owner, a [Fid], cannot be
    written as JSON, so no call returns. *)
Theorem dynamic_fid_lock_never_returns {E} `{ConsulApi E} `{Others E} `{Fuel} objt b (w w' : World E) :
  obj_dynamic_fidk_lock objt w <> (Ret b, w').
Proof.
  intros (w1 & Hr)%repeat_if_fails_inv.
  apply bind_Ret in Hr as (f & w2 & _ & Hr). apply bind_Ret in Hr as (v & w3 & Hv & _).
  by apply lift_inv in Hv as [? _].
Qed.

(** ** Witnesses *)
Section Witnesses.
#[local] Existing Instances demo_fuel demo_others.

Definition recovered_world : World server :=
  cluster_world "M0_CONF_HA_PROCESS_DTM_RECOVERED" "failed" "passing".


(** The drive is failed in one cluster and online in the other. *)
Definition online_world : World server :=
  cluster_world "M0_CONF_HA_PROCESS_DTM_RECOVERED" "online" "passing".
Definition sdev24 : Fid := mkFid 0x6400000000000001 0x18.
Definition offline_updates (w : World server) := get_sdev_state_update sdev24 "offline" false None w.
Definition sdev24_update : PutKV :=
  mkPutKV (ios_path +:+ "/services/0x7300000000000001:0xc/sdevs/0x6400000000000001:0x18")
    (obj [("path", "/dev/sdc"); ("state", "offline")]).

Lemma process_event_keeps_protected_drives_witness :
  (exists c w1 w2 items w3, cache_or_new None w1 = (Ret c, w2)
    /\ get_all_nodes (Some c) w2 = (Ret items, w3) /\ drive_updates sdev24 "offline" items [])
  /\ exists c w1 w2 items w3, cache_or_new None w1 = (Ret c, w2)
    /\ get_all_nodes (Some c) w2 = (Ret items, w3)
    /\ drive_updates sdev24 "offline" items [sdev24_update].
Proof.
  split.
  - destruct (process_event_keeps_protected_drives sdev24 "offline" None [] recovered_world
      (offline_updates recovered_world).2) as (n & w1 & c & w2 & items & w3 & _ & Hc & Hi & Hu).
    + apply run_ret. vm_compute; reflexivity.
    + exists c, w1, w2, items, w3. exact (conj Hc (conj Hi Hu)).
  - destruct (process_event_keeps_protected_drives sdev24 "offline" None [sdev24_update] online_world
      (offline_updates online_world).2) as (n & w1 & c & w2 & items & w3 & _ & Hc & Hi & Hu).
    + apply run_ret. vm_compute; reflexivity.
    + exists c, w1, w2, items, w3. exact (conj Hc (conj Hi Hu)).
Defined.



Lemma restart_count_round_trip_witness :
  exists w1 w2, set_proc_restart_count (mkFid 1 2) 5 recovered_world = (Ret tt, w1)
    /\ get_proc_restart_count (mkFid 1 2) w1 = (Ret 5, w2).
Proof.
  apply (restart_count_round_trip (mkFid 1 2) 5 "node1" recovered_world);
    [reflexivity | discriminate | reflexivity | discriminate].
Defined.

Lemma recovered_process_hides_online_witness :
  exists s w', (set_motr_processes_status "p" "M0_CONF_HA_PROCESS_DTM_RECOVERED" false ;;
     get_local_node_status) (set_statuses [("p", "M0_CONF_HA_PROCESS_STARTED")] recovered_world)
    = (Ret s, w') /\ s <> "online".
Proof.
  apply (recovered_process_hides_online "p" "M0_CONF_HA_PROCESS_STARTED"
    (set_statuses [("p", "M0_CONF_HA_PROCESS_STARTED")] recovered_world)). reflexivity.
Defined.
End Witnesses.
