(* ===== verification/Frame.v ===== *)
(** * What a call leaves alone

    [keeps R m] states that a run of [m], whatever its outcome, relates the worlds
    before and after by [R].  [Framed R] holds when [R] allows what the Consul
    layer does to the process: answers of the environment, caches, the cached node
    items, the process statuses, and the other threads.  Every call
    of the Consul layer then keeps [R], by the hints of the database [keeps]. *)

From S2P Require Import Prelude PyStr Json HaxTypes World Cache Consul ConsulUtil ConfTree.
From S2P Require Import ProcStatus.

Definition keeps {E A} (R : relation (World E)) (m : M (World E) A) : Prop :=
  forall w, R w (m w).2.

Class Framed {E} `{Others E} (R : relation (World E)) : Prop := {
  framed_preorder :: PreOrder R;
  framed_env w e : R w (set_env e w);
  framed_caches w c n : R w (set_caches c n w);
  framed_nodes w l : R w (set_all_node_items l w);
  framed_statuses w l : R w (set_statuses l w);
  framed_others w : R w (others w) }.

Create HintDb keeps.
#[global] Hint Constants Opaque : keeps.

Section Monad.
Context {E : Type} `{Others E} `{Fuel} (R : relation (World E)) `{!Framed R}.
Notation W := (World E).

Lemma keeps_mret {A} (a : A) : keeps R (mret a).
Proof. intros w. reflexivity. Qed.
Lemma keeps_lift {A} (o : outcome A) : keeps R (lift o).
Proof. intros w. reflexivity. Qed.
Lemma keeps_raise {A} e : keeps R (raise (A := A) e).
Proof. intros w. reflexivity. Qed.
Lemma keeps_hang {A} : keeps R (hang (A := A)).
Proof. intros w. reflexivity. Qed.
Lemma keeps_gets {A} (f : W -> A) : keeps R (gets f).
Proof. intros w. reflexivity. Qed.
Lemma keeps_assert b : keeps R (assert b).
Proof. intros w. destruct b; reflexivity. Qed.
Lemma keeps_modify f : (forall w, R w (f w)) -> keeps R (modify f).
Proof. intros Hf w. apply Hf. Qed.
Lemma keeps_sleep : keeps R sleep.
Proof. intros w. apply framed_others. Qed.
Lemma keeps_on_env {A} (m : M E A) : keeps R (on_env m).
Proof. intros w. unfold on_env. destruct (m (env w)). apply framed_env. Qed.

Lemma keeps_bind {A B} (m : M W A) (k : A -> M W B) :
  keeps R m -> (forall a, keeps R (k a)) -> keeps R (m ≫= k).
Proof.
  intros Hm Hk w. unfold mbind, M_bind. pose proof (Hm w) as Hw.
  destruct (m w) as [[a | e |] w1]; [| done | done]. etransitivity; [exact Hw | apply Hk].
Qed.

Lemma keeps_catch {A} (m : M W A) h :
  keeps R m -> (forall e m', h e = Some m' -> keeps R m') -> keeps R (catch m h).
Proof.
  intros Hm Hh w. unfold catch. pose proof (Hm w) as Hw.
  destruct (m w) as [[a | e |] w1]; [done | | done].
  destruct (h e) eqn:Eh; [| done]. etransitivity; [exact Hw | by eapply Hh].
Qed.

Lemma keeps_fold_m {A S} (f : S -> A -> M W S) s l :
  (forall s x, keeps R (f s x)) -> keeps R (fold_m f s l).
Proof.
  intros Hf. revert s. induction l as [| x l IH]; intros s; cbn; [apply keeps_mret|].
  by apply keeps_bind.
Qed.

Lemma keeps_map_m {A B} (f : A -> M W B) l : (forall x, keeps R (f x)) -> keeps R (map_m f l).
Proof.
  intros Hf. induction l as [| x l IH]; cbn; [apply keeps_mret|].
  apply keeps_bind; [done|]. intros y. apply keeps_bind; [done|]. intros. apply keeps_mret.
Qed.

Lemma keeps_for_each {A} (l : list A) (f : A -> M W unit) :
  (forall x, keeps R (f x)) -> keeps R (for_each l f).
Proof.
  intros Hf. induction l as [| x l IH]; cbn; [apply keeps_mret|]. by apply keeps_bind.
Qed.

Lemma keeps_find_m {A B} (f : A -> M W (option B)) l :
  (forall x, keeps R (f x)) -> keeps R (find_m f l).
Proof.
  intros Hf. induction l as [| x l IH]; cbn; [apply keeps_mret|].
  apply keeps_bind; [done|]. intros [b |]; [apply keeps_mret | done].
Qed.

Lemma keeps_retry {A} mx (f : M W A) : keeps R f -> keeps R (repeat_if_fails mx f).
Proof.
  intros Hf. unfold repeat_if_fails. generalize 0. induction fuel as [| n IH]; intros c w; cbn.
  - reflexivity.
  - pose proof (Hf w) as Hw. destruct (f w) as [[a | e |] w1]; [done | | done].
    destruct e; try done. destruct (stopping w1); [done|]. destruct (_ && _); [done|].
    etransitivity; [exact Hw|]. apply keeps_bind; [apply keeps_sleep | intros; apply IH].
Qed.

Lemma keeps_wrap {A} msg (m : M W A) : keeps R m -> keeps R (wrap_consul msg m).
Proof.
  intros Hm. apply keeps_catch; [done|]. intros e m'. destruct (is_consul_error e); [|done].
  intros [= <-]. apply keeps_raise.
Qed.

Lemma keeps_new_cache : keeps R new_cache.
Proof. intros w. apply framed_caches. Qed.
Lemma keeps_cache_or_new kv : keeps R (cache_or_new kv).
Proof. destruct kv; [apply keeps_mret | apply keeps_new_cache]. Qed.

Lemma keeps_supports {A} (f : option nat -> M W A) kv :
  (forall kv, keeps R (f kv)) -> keeps R (supports_consul_cache f kv).
Proof. intros Hf. apply keeps_bind; [apply keeps_cache_or_new | done]. Qed.

Lemma keeps_uses {A} `{PyVal A} n a (f : option nat -> M W A) kv :
  (forall kv, keeps R (f kv)) -> keeps R (uses_consul_cache n a f kv).
Proof.
  intros Hf. apply keeps_bind; [apply keeps_cache_or_new|]. intros c.
  apply keeps_bind; [apply keeps_gets|]. intros h. destruct (h ≫= of_py); [apply keeps_mret|].
  apply keeps_bind; [done|]. intros v. apply keeps_bind; [| intros; apply keeps_mret].
  apply keeps_modify. intros w. apply framed_caches.
Qed.

Lemma keeps_invalidates {A} (f : M W A) kv : keeps R f -> keeps R (invalidates_consul_cache f kv).
Proof.
  intros Hf. destruct kv; [| done]. apply keeps_bind; [| done].
  apply keeps_modify. intros w. apply framed_caches.
Qed.
End Monad.

#[export] Hint Resolve keeps_mret keeps_lift keeps_raise keeps_hang keeps_gets keeps_assert
  keeps_sleep keeps_on_env : keeps.

(** Goes through the structure of a definition; a call is closed by a hint. *)
Ltac keeps_step :=
  match goal with
  | |- Framed _ => first [assumption | apply _]
  | |- _ = Some _ -> keeps _ _ => intros ?Hm; simplify_eq; repeat (case_match; simplify_eq)
  | |- forall _, _ => intro
  | |- keeps _ (fun w => (_, w)) => solve [intros ?w; reflexivity]
  | |- keeps _ (match ?x with _ => _ end) => destruct x
  | |- keeps _ (_ ≫= _) => apply keeps_bind
  | |- keeps _ (modify _) => apply keeps_modify; intros ?w; repeat case_match;
      first [reflexivity | apply framed_nodes | apply framed_statuses | apply framed_caches]
  | |- keeps _ (catch _ _) => apply keeps_catch
  | |- keeps _ (fold_m _ _ _) => apply keeps_fold_m
  | |- keeps _ (map_m _ _) => apply keeps_map_m
  | |- keeps _ (for_each _ _) => apply keeps_for_each
  | |- keeps _ (find_m _ _) => apply keeps_find_m
  | |- keeps _ (repeat_if_fails _ _) => apply keeps_retry
  | |- keeps _ (wrap_consul _ _) => apply keeps_wrap
  | |- keeps _ (supports_consul_cache _ _) => apply keeps_supports
  | |- keeps _ (uses_consul_cache _ _ _ _) => apply keeps_uses
  | |- keeps _ (invalidates_consul_cache _ _) => apply keeps_invalidates
  | |- keeps _ (let '(_, _) := ?p in _) => destruct p
  | |- keeps _ _ => solve [eauto 3 with keeps typeclass_instances]
  end.
Ltac keeps := intros; cbv zeta; repeat keeps_step.

Section ConsulLayer.
Context {E : Type} `{ConsulApi E} `{Others E} `{Fuel} (R : relation (World E)) `{!Framed R}.

Lemma keeps_wait_for_event event : keeps R (wait_for_event event).
Proof. unfold wait_for_event. keeps. Qed.
#[local] Hint Resolve keeps_wait_for_event : keeps.
Lemma keeps_kv_get_raw key recurse : keeps R (kv_get_raw key recurse).
Proof. unfold kv_get_raw. keeps. Qed.
#[local] Hint Resolve keeps_kv_get_raw : keeps.
Lemma keeps_kv_get key recurse allow_null kv_cache : keeps R (kv_get key recurse allow_null kv_cache).
Proof. unfold kv_get. keeps. Qed.
#[local] Hint Resolve keeps_kv_get : keeps.
Lemma keeps_kv_put key data cas kv_cache : keeps R (kv_put key data cas kv_cache).
Proof. unfold kv_put. keeps. Qed.
#[local] Hint Resolve keeps_kv_put : keeps.
Lemma keeps_txn_put ops message : keeps R (txn_put ops message).
Proof. unfold txn_put. keeps. Qed.
#[local] Hint Resolve keeps_txn_put : keeps.
Lemma keeps_kv_delete_in_transaction tx_payload : keeps R (kv_delete_in_transaction tx_payload).
Proof. unfold kv_delete_in_transaction. keeps. Qed.
#[local] Hint Resolve keeps_kv_delete_in_transaction : keeps.
Lemma keeps_get_service_names : keeps R get_service_names.
Proof. unfold get_service_names. keeps. Qed.
#[local] Hint Resolve keeps_get_service_names : keeps.
Lemma keeps_get_services svc_name : keeps R (get_services svc_name).
Proof. unfold get_services. keeps. Qed.
#[local] Hint Resolve keeps_get_services : keeps.
Lemma keeps_get_consul_node node : keeps R (get_consul_node node).
Proof. unfold get_consul_node. keeps. Qed.
#[local] Hint Resolve keeps_get_consul_node : keeps.
Lemma keeps_service_by_name hostname svc_name : keeps R (service_by_name hostname svc_name).
Proof. unfold service_by_name. keeps. Qed.
#[local] Hint Resolve keeps_service_by_name : keeps.
Lemma keeps_get_local_nodename : keeps R get_local_nodename.
Proof. unfold get_local_nodename. keeps. Qed.
#[local] Hint Resolve keeps_get_local_nodename : keeps.
Lemma keeps_local_service_by_name name kv : keeps R (local_service_by_name name kv).
Proof. unfold local_service_by_name. keeps. Qed.
#[local] Hint Resolve keeps_local_service_by_name : keeps.
Lemma keeps_get_hax_fid kv : keeps R (get_hax_fid kv).
Proof. unfold get_hax_fid. keeps. Qed.
#[local] Hint Resolve keeps_get_hax_fid : keeps.
Lemma keeps_service_data kv : keeps R (service_data kv).
Proof. unfold service_data. keeps. Qed.
#[local] Hint Resolve keeps_service_data : keeps.
Lemma keeps_get_leader_session_no_wait : keeps R get_leader_session_no_wait.
Proof. unfold get_leader_session_no_wait. keeps. Qed.
#[local] Hint Resolve keeps_get_leader_session_no_wait : keeps.
Lemma keeps_get_leader_session : keeps R get_leader_session.
Proof. unfold get_leader_session. keeps. Qed.
#[local] Hint Resolve keeps_get_leader_session : keeps.
Lemma keeps_get_session_node session_id : keeps R (get_session_node session_id).
Proof. unfold get_session_node. keeps. Qed.
#[local] Hint Resolve keeps_get_session_node : keeps.
Lemma keeps_get_rm_fid kv : keeps R (get_rm_fid kv).
Proof. unfold get_rm_fid. keeps. Qed.
#[local] Hint Resolve keeps_get_rm_fid : keeps.
Lemma keeps_get_hax_endpoint kv : keeps R (get_hax_endpoint kv).
Proof. unfold get_hax_endpoint. keeps. Qed.
#[local] Hint Resolve keeps_get_hax_endpoint : keeps.
Lemma keeps_get_all_nodes kv : keeps R (get_all_nodes kv).
Proof. unfold get_all_nodes. keeps. Qed.
#[local] Hint Resolve keeps_get_all_nodes : keeps.
Lemma keeps_get_all_nodes_cached : keeps R get_all_nodes_cached.
Proof. unfold get_all_nodes_cached. keeps. Qed.
#[local] Hint Resolve keeps_get_all_nodes_cached : keeps.
Lemma keeps_fid_to_endpoint proc_fid : keeps R (fid_to_endpoint proc_fid).
Proof. unfold fid_to_endpoint. keeps. Qed.
#[local] Hint Resolve keeps_fid_to_endpoint : keeps.
Lemma keeps_get_leader_node : keeps R get_leader_node.
Proof. unfold get_leader_node. keeps. Qed.
#[local] Hint Resolve keeps_get_leader_node : keeps.
Lemma keeps_am_i_rc : keeps R am_i_rc.
Proof. unfold am_i_rc. keeps. Qed.
#[local] Hint Resolve keeps_am_i_rc : keeps.
Lemma keeps_get_service_data_by_name name : keeps R (get_service_data_by_name name).
Proof. unfold get_service_data_by_name. keeps. Qed.
#[local] Hint Resolve keeps_get_service_data_by_name : keeps.
Lemma keeps_get_confd_list : keeps R get_confd_list.
Proof. unfold get_confd_list. keeps. Qed.
#[local] Hint Resolve keeps_get_confd_list : keeps.
Lemma keeps_is_process_confd proc_fid : keeps R (is_process_confd proc_fid).
Proof. unfold is_process_confd. keeps. Qed.
#[local] Hint Resolve keeps_is_process_confd : keeps.
Lemma keeps_get_services_by_parent_process process_fid kv : keeps R (get_services_by_parent_process process_fid kv).
Proof. unfold get_services_by_parent_process. keeps. Qed.
#[local] Hint Resolve keeps_get_services_by_parent_process : keeps.
Lemma keeps_get_node_health_details node kv : keeps R (get_node_health_details node kv).
Proof. unfold get_node_health_details. keeps. Qed.
#[local] Hint Resolve keeps_get_node_health_details : keeps.
Lemma keeps_get_node_health_status node kv : keeps R (get_node_health_status node kv).
Proof. unfold get_node_health_status. keeps. Qed.
#[local] Hint Resolve keeps_get_node_health_status : keeps.
Lemma keeps_get_node_fid node use_cache kv : keeps R (get_node_fid node use_cache kv).
Proof. unfold get_node_fid. keeps. Qed.
#[local] Hint Resolve keeps_get_node_fid : keeps.
Lemma keeps_get_node_name_by_fid node_fid kv : keeps R (get_node_name_by_fid node_fid kv).
Proof. unfold get_node_name_by_fid. keeps. Qed.
#[local] Hint Resolve keeps_get_node_name_by_fid : keeps.
Lemma keeps_get_process_node proc_fid kv : keeps R (get_process_node proc_fid kv).
Proof. unfold get_process_node. keeps. Qed.
#[local] Hint Resolve keeps_get_process_node : keeps.
Lemma keeps_is_proc_local pfid : keeps R (is_proc_local pfid).
Proof. unfold is_proc_local. keeps. Qed.
#[local] Hint Resolve keeps_is_proc_local : keeps.
Lemma keeps_get_service_process_fid svc_fid : keeps R (get_service_process_fid svc_fid).
Proof. unfold get_service_process_fid. keeps. Qed.
#[local] Hint Resolve keeps_get_service_process_fid : keeps.
Lemma keeps_get_all_sites kv : keeps R (get_all_sites kv).
Proof. unfold get_all_sites. keeps. Qed.
#[local] Hint Resolve keeps_get_all_sites : keeps.
Lemma keeps_site_items kv : keeps R (site_items kv).
Proof. unfold site_items. keeps. Qed.
#[local] Hint Resolve keeps_site_items : keeps.
Lemma keeps_get_node_encl_fid node kv : keeps R (get_node_encl_fid node kv).
Proof. unfold get_node_encl_fid. keeps. Qed.
#[local] Hint Resolve keeps_get_node_encl_fid : keeps.
Lemma keeps_get_node_ctrl_fids node kv : keeps R (get_node_ctrl_fids node kv).
Proof. unfold get_node_ctrl_fids. keeps. Qed.
#[local] Hint Resolve keeps_get_node_ctrl_fids : keeps.
Lemma keeps_set_node_state node_fid status kv : keeps R (set_node_state node_fid status kv).
Proof. unfold set_node_state. keeps. Qed.
#[local] Hint Resolve keeps_set_node_state : keeps.
Lemma keeps_set_encl_state encl_fid status kv : keeps R (set_encl_state encl_fid status kv).
Proof. unfold set_encl_state. keeps. Qed.
#[local] Hint Resolve keeps_set_encl_state : keeps.
Lemma keeps_get_ctrl_state_updates ctrl_fid status kv : keeps R (get_ctrl_state_updates ctrl_fid status kv).
Proof. unfold get_ctrl_state_updates. keeps. Qed.
#[local] Hint Resolve keeps_get_ctrl_state_updates : keeps.
Lemma keeps_state_of_first regex items : keeps R (state_of_first regex items).
Proof. unfold state_of_first. keeps. Qed.
#[local] Hint Resolve keeps_state_of_first : keeps.
Lemma keeps_get_ctrl_state obj_t fidk kv : keeps R (get_ctrl_state obj_t fidk kv).
Proof. unfold get_ctrl_state. keeps. Qed.
#[local] Hint Resolve keeps_get_ctrl_state : keeps.
Lemma keeps_get_encl_state obj_t fidk kv : keeps R (get_encl_state obj_t fidk kv).
Proof. unfold get_encl_state. keeps. Qed.
#[local] Hint Resolve keeps_get_encl_state : keeps.
Lemma keeps_get_node_state obj_t fidk kv : keeps R (get_node_state obj_t fidk kv).
Proof. unfold get_node_state. keeps. Qed.
#[local] Hint Resolve keeps_get_node_state : keeps.
Lemma keeps_drive_to_sdev_fid drive_fid kv : keeps R (drive_to_sdev_fid drive_fid kv).
Proof. unfold drive_to_sdev_fid. keeps. Qed.
#[local] Hint Resolve keeps_drive_to_sdev_fid : keeps.
Lemma keeps_sdev_to_drive_fid sdev_fid : keeps R (sdev_to_drive_fid sdev_fid).
Proof. unfold sdev_to_drive_fid. keeps. Qed.
#[local] Hint Resolve keeps_sdev_to_drive_fid : keeps.
Lemma keeps_get_disks_by_parent_process process_fid svc_fid : keeps R (get_disks_by_parent_process process_fid svc_fid).
Proof. unfold get_disks_by_parent_process. keeps. Qed.
#[local] Hint Resolve keeps_get_disks_by_parent_process : keeps.
Lemma keeps_get_sdev_state_update sdev_fid state device_event kv : keeps R (get_sdev_state_update sdev_fid state device_event kv).
Proof. unfold get_sdev_state_update, sdev_state_updates. keeps. Qed.
#[local] Hint Resolve keeps_get_sdev_state_update : keeps.
Lemma keeps_update_drive_state drive_fids status device_event kv : keeps R (update_drive_state drive_fids status device_event kv).
Proof. unfold update_drive_state. keeps. Qed.
#[local] Hint Resolve keeps_update_drive_state : keeps.
Lemma keeps_get_sdev_state obj_t fidk kv : keeps R (get_sdev_state obj_t fidk kv).
Proof. unfold get_sdev_state. keeps. Qed.
#[local] Hint Resolve keeps_get_sdev_state : keeps.
Lemma keeps_get_io_service_devices ioservice_fid kv : keeps R (get_io_service_devices ioservice_fid kv).
Proof. unfold get_io_service_devices. keeps. Qed.
#[local] Hint Resolve keeps_get_io_service_devices : keeps.
Lemma keeps_get_device_controller sdev_fid kv : keeps R (get_device_controller sdev_fid kv).
Proof. unfold get_device_controller. keeps. Qed.
#[local] Hint Resolve keeps_get_device_controller : keeps.
Lemma keeps_get_ioservice_ctrl_fid ioservice_fid kv : keeps R (get_ioservice_ctrl_fid ioservice_fid kv).
Proof. unfold get_ioservice_ctrl_fid. keeps. Qed.
#[local] Hint Resolve keeps_get_ioservice_ctrl_fid : keeps.
Lemma keeps_all_io_services_failed node kv : keeps R (all_io_services_failed node kv).
Proof. unfold all_io_services_failed. keeps. Qed.
#[local] Hint Resolve keeps_all_io_services_failed : keeps.
Lemma keeps_read_proc_info d : keeps R (read_proc_info d).
Proof. unfold read_proc_info. keeps. Qed.
#[local] Hint Resolve keeps_read_proc_info : keeps.
Lemma keeps_get_process_status fid kv : keeps R (get_process_status fid kv).
Proof. unfold get_process_status. keeps. Qed.
#[local] Hint Resolve keeps_get_process_status : keeps.
Lemma keeps_get_process_status_local fid kv : keeps R (get_process_status_local fid kv).
Proof. unfold get_process_status_local. keeps. Qed.
#[local] Hint Resolve keeps_get_process_status_local : keeps.
Lemma keeps_get_svc_status srv_fid kv : keeps R (get_svc_status srv_fid kv).
Proof. unfold get_svc_status. keeps. Qed.
#[local] Hint Resolve keeps_get_svc_status : keeps.
Lemma keeps_set_motr_processes_status fid status bAdd : keeps R (set_motr_processes_status fid status bAdd).
Proof. unfold set_motr_processes_status. keeps. Qed.
#[local] Hint Resolve keeps_set_motr_processes_status : keeps.
Lemma keeps_update_process_status event : keeps R (update_process_status event).
Proof. unfold update_process_status. keeps. Qed.
#[local] Hint Resolve keeps_update_process_status : keeps.
Lemma keeps_update_process_status_local event : keeps R (update_process_status_local event).
Proof. unfold update_process_status_local. keeps. Qed.
#[local] Hint Resolve keeps_update_process_status_local : keeps.
Lemma keeps_set_process_state process_fid state : keeps R (set_process_state process_fid state).
Proof. unfold set_process_state. keeps. Qed.
#[local] Hint Resolve keeps_set_process_state : keeps.
Lemma keeps_service_health_loop svc_id l kv : keeps R (service_health_loop svc_id l kv).
Proof. induction l as [| x l IH]; cbn [service_health_loop]; keeps. Qed.
#[local] Hint Resolve keeps_service_health_loop : keeps.
Lemma keeps_get_service_health node svc_id kv : keeps R (get_service_health node svc_id kv).
Proof. unfold get_service_health, service_health. keeps. Qed.
#[local] Hint Resolve keeps_get_service_health : keeps.
Lemma keeps_get_m0d_statuses motr_services kv : keeps R (get_m0d_statuses motr_services kv).
Proof. unfold get_m0d_statuses. keeps. Qed.
#[local] Hint Resolve keeps_get_m0d_statuses : keeps.
Lemma keeps_get_proc_fids_with_status proc_names : keeps R (get_proc_fids_with_status proc_names).
Proof. unfold get_proc_fids_with_status. keeps. Qed.
#[local] Hint Resolve keeps_get_proc_fids_with_status : keeps.
Lemma keeps_ensure_ioservices_running : keeps R ensure_ioservices_running.
Proof. unfold ensure_ioservices_running. keeps. Qed.
#[local] Hint Resolve keeps_ensure_ioservices_running : keeps.
Lemma keeps_m0ds_stopping : keeps R m0ds_stopping.
Proof. unfold m0ds_stopping. keeps. Qed.
#[local] Hint Resolve keeps_m0ds_stopping : keeps.
Lemma keeps_get_proc_svc_conf_obj_status obj_t fidk kv : keeps R (get_proc_svc_conf_obj_status obj_t fidk kv).
Proof. unfold get_proc_svc_conf_obj_status. keeps. Qed.
#[local] Hint Resolve keeps_get_proc_svc_conf_obj_status : keeps.
Lemma keeps_get_conf_obj_status obj_t fidk kv : keeps R (get_conf_obj_status obj_t fidk kv).
Proof. unfold get_conf_obj_status. keeps. Qed.
#[local] Hint Resolve keeps_get_conf_obj_status : keeps.
Lemma keeps_get_proc_restart_count proc_fid : keeps R (get_proc_restart_count proc_fid).
Proof. unfold get_proc_restart_count. keeps. Qed.
#[local] Hint Resolve keeps_get_proc_restart_count : keeps.
Lemma keeps_set_proc_restart_count proc_fid count : keeps R (set_proc_restart_count proc_fid count).
Proof. unfold set_proc_restart_count. keeps. Qed.
#[local] Hint Resolve keeps_set_proc_restart_count : keeps.
Lemma keeps_get_obj_full_fid base_fid : keeps R (get_obj_full_fid base_fid).
Proof. unfold get_obj_full_fid. keeps. Qed.
#[local] Hint Resolve keeps_get_obj_full_fid : keeps.
End ConsulLayer.

#[export] Hint Resolve
  keeps_get_node_health_status keeps_is_process_confd keeps_get_service_process_fid keeps_service_health_loop
  keeps_wait_for_event keeps_kv_get_raw
  keeps_kv_get keeps_kv_put keeps_txn_put keeps_kv_delete_in_transaction
  keeps_get_service_names keeps_get_services
  keeps_get_consul_node keeps_service_by_name
  keeps_get_local_nodename keeps_local_service_by_name keeps_get_hax_fid
  keeps_service_data keeps_get_leader_session_no_wait keeps_get_leader_session
  keeps_get_session_node keeps_get_rm_fid keeps_get_hax_endpoint keeps_get_all_nodes
  keeps_get_all_nodes_cached keeps_fid_to_endpoint keeps_get_leader_node keeps_am_i_rc
  keeps_get_service_data_by_name keeps_get_confd_list keeps_get_services_by_parent_process
  keeps_get_node_health_details keeps_get_node_fid keeps_get_node_name_by_fid
  keeps_get_process_node keeps_is_proc_local keeps_get_all_sites keeps_site_items
  keeps_get_node_encl_fid keeps_get_node_ctrl_fids keeps_set_node_state
  keeps_set_encl_state keeps_get_ctrl_state_updates keeps_state_of_first
  keeps_get_ctrl_state keeps_get_encl_state keeps_get_node_state keeps_drive_to_sdev_fid
  keeps_sdev_to_drive_fid keeps_get_disks_by_parent_process keeps_get_sdev_state_update
  keeps_update_drive_state keeps_get_sdev_state keeps_get_io_service_devices
  keeps_get_device_controller keeps_get_ioservice_ctrl_fid keeps_all_io_services_failed
  keeps_read_proc_info keeps_get_process_status keeps_get_process_status_local
  keeps_get_svc_status keeps_set_motr_processes_status keeps_update_process_status
  keeps_update_process_status_local keeps_set_process_state keeps_get_service_health
  keeps_get_m0d_statuses keeps_get_proc_fids_with_status keeps_ensure_ioservices_running
  keeps_m0ds_stopping keeps_get_proc_svc_conf_obj_status keeps_get_conf_obj_status
  keeps_get_proc_restart_count keeps_set_proc_restart_count keeps_get_obj_full_fid : keeps.
