(* ===== verification/Motr.v ===== *)
(** * The Motr link ([src/hax/hax/motr/__init__.py], [src/hax/hax/motr/rconfc.py])

    The [Motr] object: its start and stop, the callbacks of the C library, the
    reply to entrypoint requests, the broadcast of HA states and the requests
    sent through spiel.  Its attributes are the field [motr] of the world; a call
    of the C library is logged in [ffi_log].  [LOG] calls are left out. *)

From S2P Require Import Prelude PyStr Json HaxTypes Message LinkedList Planner Delivery World.
From S2P Require Import Cache Consul ConsulUtil ConfTree ProcStatus.

Definition MAX_MOTR_NVEC_UPDATE_SZ : nat := 1024.
Definition EAGAIN : Z := 11.

(** [DeliveryHerald.get_now_ts]: the clock. *)
Class Clock (E : Type) := get_now_ts : World E -> Z.

(** [repr(health)] *)
Definition ObjHealth_repr (h : ObjHealth) : string :=
  match h with
  | FAILED => "FAILED" | OK => "OK" | OFFLINE => "OFFLINE" | STOPPED => "STOPPED"
  | RECOVERING => "RECOVERING" | REPAIR => "REPAIR" | REPAIRED => "REPAIRED"
  | REBALANCE => "REBALANCE" | UNKNOWN => "UNKNOWN"
  end.

#[global] Instance PyVal_HaNoteStruct : PyVal HaNoteStruct.
Proof.
  refine (PyVal_inj (fun n => (f_container (no_id n), f_key (no_id n), no_state n))
    (fun '(c, k, s) => mkNote (mkFidStruct c k) s) _). by intros [[]].
Defined.

Section Motr.
Context {E : Type} `{ConsulApi E} `{MotrFfi E} `{Others E} `{Fuel} `{Clock E}.
Notation W := (World E).
Notation retry := (repeat_if_fails (-1)).

(** [@log_exception] *)
Definition log_exception (m : M W unit) : M W unit := catch m (fun _ => Some (mret tt)).

(** The identity of a new object. *)
Definition new_oid : M W nat := fun w =>
  (Ret (next_oid w), set_planner (work_planner w) (S (next_oid w)) w).

(** [self.planner.add_command(msg)] with a new message object. *)
Definition planner_add_command (msg : BaseMessage) : M W unit :=
  oid ← new_oid;
  modify (fun w => set_planner (add_command (mkCmd oid msg None) (work_planner w)) (next_oid w) w).

(** ** Delivery *)

(** An operation on the herald, under its lock. *)
Definition on_herald {A} (m : M Herald A) : M W A := fun w =>
  let '(r, h) := m (delivery w) in (r, set_delivery h (next_oid w) w).

Definition herald_notify_delivered (m : MessageId) : M W unit :=
  modify (fun w =>
    set_delivery (notify_delivered (get_now_ts w) m (delivery w)).1 (next_oid w) w).

(** The first critical section of a wait. *)
Definition herald_register (promise condition : nat) : M W bool := fun w =>
  let '(h, skip) := wait_begin (get_now_ts w) promise condition (delivery w) in
  (Ret skip, set_delivery h (next_oid w) w).

(** The two waits of [DeliveryHerald] on a new promise; blocking lets the other
    threads run. *)
Definition herald_begin (ids : list MessageId) : M W (nat * nat * bool) :=
  promise ← new_oid;
  condition ← new_oid;
  on_herald (modify (alloc_promise promise ids)) ;;
  skip_await ← herald_register promise condition;
  mret (promise, condition, skip_await).

Definition wait_for_any (ids : list MessageId) : M W unit :=
  x ← herald_begin ids;
  let '(promise, condition, skip_await) := x in
  (if (skip_await : bool) then mret tt else sleep) ;;
  on_herald (wait_any_end promise).

Fixpoint wait_all_loop (n : nat) (promise condition : nat) (skip_await : bool) : M W unit :=
  match n with
  | O => hang
  | S n' =>
      (if skip_await then mret tt else sleep) ;;
      again ← on_herald (wait_all_round promise condition);
      if (again : bool) then wait_all_loop n' promise condition false else mret tt
  end.

Definition wait_for_all (ids : list MessageId) : M W unit :=
  x ← herald_begin ids;
  let '(promise, condition, skip_await) := x in
  empty ← gets (fun w => promise_is_empty (promise_of promise (delivery w)));
  if (empty : bool) then mret tt else wait_all_loop fuel promise condition skip_await.

(** ** Start and stop *)
Definition motr_init : M W unit :=
  ctx ← on_env ffi_init_motr_api;
  modify (set_motr (mkMotr ctx false false None None)) ;;
  if ctx =? 0 then raise (RuntimeError "Cannot initialize Motr API") else mret tt.

Definition start (rpc_endpoint : string) (process ha_service : Fid) (profile : Profile) : M W unit :=
  modify (fun w => set_motr (mkMotr (ha_ctx (motr w)) (spiel_ready (motr w))
    (motr_is_stopping (motr w)) (Some process) (Some profile)) w) ;;
  rm_fid ← retry (get_rm_fid None);
  result ← ffi ffi_rc (FStart rpc_endpoint (to_c process) (to_c ha_service) (to_c rm_fid));
  if result =? 0 then mret tt
  else raise (RuntimeError
    "Cannot start m0_halon_interface.Please check Motr logs for more details.").

Definition start_rconfc : M W Z :=
  p ← gets (fun w => motr_profile (motr w));
  profile ← lift (match p with Some p => Ret p | None => Raise AttributeError end);
  result ← ffi ffi_rc (FStartRconfc (to_c (prof_fid profile)));
  if result =? 0 then mret result
  else raise (RuntimeError "Cannot start rconfc. Please check Motr logs for more details.").

Definition stop_rconfc : M W Z :=
  result ← ffi ffi_rc FStopRconfc;
  if result =? 0 then mret result
  else raise (RuntimeError "Cannot stop rconfc.Please check Motr logs for more details.").

Definition is_spiel_ready : M W bool := gets (fun w => spiel_ready (motr w)).

Definition set_spiel_ready (b : bool) : M W unit :=
  modify (fun w => set_motr (mkMotr (ha_ctx (motr w)) b (motr_is_stopping (motr w))
    (motr_process_fid (motr w)) (motr_profile (motr w))) w).

Definition notify_hax_stop : M W unit :=
  hax_fid ← get_hax_fid None;
  hax_endpoint ← get_hax_endpoint None;
  ids ← ffi ffi_ids (FHaxStop (to_c hax_fid) hax_endpoint);
  wait_for_all ids.

Definition stop : M W unit :=
  modify (fun w => set_motr (mkMotr (ha_ctx (motr w)) (spiel_ready (motr w)) true
    (motr_process_fid (motr w)) (motr_profile (motr w))) w) ;;
  notify_hax_stop ;;
  ready ← is_spiel_ready;
  (if (ready : bool) then stop_rconfc ;; mret tt else mret tt) ;;
  ffi ffi_rc FMotrStop ;; mret tt.

Definition fini : M W unit :=
  ffi ffi_rc FMotrFini ;;
  modify (fun w => set_motr (mkMotr 0 (spiel_ready (motr w)) (motr_is_stopping (motr w))
    (motr_process_fid (motr w)) (motr_profile (motr w))) w).

(** ** Callbacks of the C library *)
Definition entrypoint_request_cb (r : EntrypointFields) : M W unit :=
  log_exception
    (posted ← catch (if is_first_request r
                     then planner_add_command (FirstEntrypointRequest r) ;; mret true
                     else mret false)
                (fun _ => Some (mret false));
     if (posted : bool) then mret tt else planner_add_command (EntrypointRequest r)).

Definition process_event_cb (fid : Fid) (chp_event chp_type chp_pid : Z) : M W unit :=
  planner_add_command (ProcessEvent (mkConfHaProcess chp_event chp_type chp_pid fid)) ;;
  if chp_event =? event_value M0_CONF_HA_PROCESS_STOPPED then
    proc_ep ← fid_to_endpoint fid;
    match proc_ep with
    | Some ep => if String.eqb ep "" then mret tt else ffi ffi_rc (FHaxLinkStopped ep) ;; mret tt
    | None => mret tt
    end
  else mret tt.

Definition stob_ioq_event_cb (e : StobIoqFields) : M W unit :=
  planner_add_command (StobIoqError e).

Definition msg_delivered_cb (tag halink_ctx : Z) : M W unit :=
  herald_notify_delivered (mkMessageId halink_ctx tag).

Definition msg_not_delivered_cb (tag halink_ctx : Z) : M W unit :=
  herald_notify_delivered (mkMessageId halink_ctx tag).

Definition ha_nvec_get (hax_msg : Z) (nvec : list HaNote) : M W unit :=
  log_exception (planner_add_command (HaNvecGetEvent hax_msg nvec)).

Definition ha_nvec_set (hax_msg : Z) (nvec : list HaNote) : M W unit :=
  log_exception (planner_add_command (HaNvecSetEvent hax_msg nvec)).

(** ** Entrypoint *)

(** [int(len(confds) / 2 + 1)] *)
Definition confd_quorum (nr : nat) : Z := Z.of_nat nr / 2 + 1.

(** The address of the first confd on the node of the principal RM. *)
Definition rm_endpoint (principal_rm : option string) (confds : list ServiceData) : option string :=
  match principal_rm with
  | None => None
  | Some n => address <$> List.find (fun svc => String.eqb (sd_node svc) n) confds
  end.

Definition no_endpoint (rm_eps : option string) : bool :=
  match rm_eps with Some ep => String.eqb ep "" | None => true end.

(** The [try] block of [send_entrypoint_request_reply]: the data of the reply,
    or the value of [e_rc] when it raises 'No RM node found'. *)
Definition entrypoint_data : M W (Z + list ServiceData * Fid * Z * option string) :=
  stopping ← gets (fun w => motr_is_stopping (motr w));
  x ← (if (stopping : bool) then mret (None, [])
       else sess ← get_leader_session;
            principal_rm ← get_session_node sess;
            confds ← get_confd_list;
            mret (Some principal_rm, confds));
  let '(principal_rm, confds) := x in
  y ← (match confds with
       | [] => mret (mkFid 0 0, 0)
       | _ => rm_fid ← get_rm_fid None; mret (rm_fid, confd_quorum (length confds))
       end);
  let '(rm_fid, rc_quorum) := y in
  let rm_eps := rm_endpoint principal_rm confds in
  stopping ← gets (fun w => motr_is_stopping (motr w));
  if negb (bool_decide (confds = [])) && negb stopping && no_endpoint rm_eps then
    m0ds ← m0ds_stopping;
    mret (inl (if (m0ds : bool) then 0 else EAGAIN))
  else mret (inr (confds, rm_fid, rc_quorum, rm_eps)).

Definition send_entrypoint_request_reply (message : EntrypointFields) : M W unit :=
  data ← catch entrypoint_data (fun _ => Some (mret (inl EAGAIN)));
  match data with
  | inl e_rc =>
      sleep ;;
      ffi ffi_rc (FEntrypointReply (reply_context message) (req_id message) e_rc 0 [] [] 0
        (to_c (mkFid 0 0)) None) ;; mret tt
  | inr (confds, rm_fid, rc_quorum, rm_eps) =>
      ffi ffi_rc (FEntrypointReply (reply_context message) (req_id message) 0
        (Z.of_nat (length confds)) ((fun x => to_c (sd_fid x)) <$> confds) (address <$> confds)
        rc_quorum (to_c rm_fid) rm_eps) ;; mret tt
  end.

(** ** Notes for the objects a process or a node encloses *)
Definition write_updates (updates : list PutKV) (kv : option nat) : M W unit :=
  for_each updates (fun op => kv_put (put_key op) (put_value op) None kv ;; mret tt).

Definition is_mkfs (proc_fid : Fid) (kv : option nat) : M W bool :=
  uses_consul_cache "Motr._is_mkfs" (key_of [fid_repr proc_fid] [])
    (fun kv =>
       status ← get_process_status proc_fid kv;
       mret (String.eqb (proc_type status) (ptype_name M0_CONF_HA_PROCESS_M0MKFS))) kv.

Definition generate_sub_disks (note : HaNoteStruct) (services : list FidWithType)
    (update_kv : bool) (kv : option nat) : M W (list HaNoteStruct) :=
  supports_consul_cache (fun _ =>
    let new_state := no_state note in
    let proc_fid := from_struct (no_id note) in
    state ← (if new_state =? M0_NC_FAILED then mret OFFLINE
             else lift (ha_note_to_objhealth new_state));
    mkfs ← is_mkfs proc_fid None;
    let mkfs_down := mkfs && negb (bool_decide (state = OK)) in
    disk_list ← (if mkfs_down then mret []
                 else fold_m (fun disks svc =>
                        l ← get_disks_by_parent_process proc_fid (fwt_fid svc);
                        mret (disks ++ l)) [] services);
    (if negb (bool_decide (disk_list = [])) && (negb mkfs_down && update_kv)
     then update_drive_state disk_list state false None else mret tt) ;;
    map_m (fun drive_id =>
      dstate ← get_sdev_state DRIVE (key drive_id) None;
      mret (ha_note (to_c drive_id) dstate)) disk_list) kv.

Definition generate_sub_services (note : HaNoteStruct) (update_kv notify_devices : bool)
    (kv : option nat) : M W (list HaNoteStruct) :=
  supports_consul_cache (fun kv =>
    let new_state := no_state note in
    let fid := from_struct (no_id note) in
    service_list ← get_services_by_parent_process fid kv;
    service_notes ← map_m (fun x =>
      f ← get_obj_full_fid (fwt_fid x);
      mret (ha_note (to_c f) new_state)) service_list;
    if notify_devices then
      disk_notes ← generate_sub_disks note service_list update_kv None;
      mret (service_notes ++ disk_notes)
    else mret service_notes) kv.

(** A fid that is [None] has no [to_c]. *)
Definition add_node_state_by_fid (node_fid : option Fid) (new_state : ObjHealth)
    : M W (list HaNoteStruct) :=
  set_node_state node_fid new_state None ;;
  match node_fid with
  | Some f => mret [ha_note (to_c f) (to_ha_note_status new_state)]
  | None => raise AttributeError
  end.

(** [node or self.consul_util.get_node_name_by_fid(node_fid)]: a name, since
    [kv_get] raises when the key is missing. *)
Definition node_or_by_fid (node : option string) (node_fid : Fid) (kv : option nat) : M W string :=
  match node with
  | Some n => if String.eqb n "" then o ← get_node_name_by_fid node_fid kv; mret (default "" o)
              else mret n
  | None => o ← get_node_name_by_fid node_fid kv; mret (default "" o)
  end.

Definition encl_notes (encl_fid : option Fid) (state : Z) : list HaNoteStruct :=
  match encl_fid with Some f => [ha_note (to_c f) state] | None => [] end.

Definition get_update_encl_state (node_fid : Fid) (new_state : ObjHealth) (update_kv : bool)
    (node : option string) (kv : option nat) : M W (list HaNoteStruct) :=
  node ← node_or_by_fid node node_fid kv;
  encl_fid ← get_node_encl_fid node kv;
  (if update_kv then set_encl_state encl_fid new_state kv else mret tt) ;;
  mret (encl_notes encl_fid (to_ha_note_status new_state)).

Definition add_enclosing_devices_by_node (node_fid : Fid) (new_state : ObjHealth)
    (update_kv : bool) (kv : option nat) : M W (list HaNoteStruct) :=
  uses_consul_cache "Motr.add_enclosing_devices_by_node"
    (key_of [fid_repr node_fid; ObjHealth_repr new_state; py_bool update_kv] [])
    (fun kv =>
       node ← node_or_by_fid None node_fid kv;
       encl_fid ← get_node_encl_fid node kv;
       fids ← get_node_ctrl_fids node kv;
       let ctrl_fids := default [] fids in
       (if update_kv then set_encl_state encl_fid new_state kv else mret tt) ;;
       (if (bool_decide (new_state = FAILED) || bool_decide (new_state = OFFLINE))
           && negb (bool_decide (ctrl_fids = []))
        then updates ← fold_m (fun updates x =>
               u ← get_ctrl_state_updates x new_state kv; mret (updates ++ u)) [] ctrl_fids;
             if update_kv then write_updates updates kv else mret tt
        else mret tt) ;;
       ctrl_notes ← map_m (fun x =>
         ctrl_state ← get_ctrl_state CONTROLLER (key x) kv;
         mret (ha_note (to_c x) ctrl_state)) ctrl_fids;
       mret (encl_notes encl_fid (to_ha_note_status new_state) ++ ctrl_notes)) kv.

Definition is_node_failed (proc_note : HaNoteStruct) (kv : option nat) : M W bool :=
  supports_consul_cache (fun kv =>
    let proc_fid := from_struct (no_id proc_note) in
    assert (ObjT_value PROCESS =? container proc_fid) ;;
    node ← get_process_node proc_fid kv;
    all_io_services_failed node kv) kv.

(** The notes for the node and its enclosure. *)
Definition node_and_encl_notes (node_fid : option Fid) (new_state : ObjHealth) (update_kv : bool)
    (kv : option nat) : M W (list HaNoteStruct) :=
  node_notes ← add_node_state_by_fid node_fid new_state;
  f ← lift (match node_fid with Some f => Ret f | None => Raise AttributeError end);
  l ← get_update_encl_state f new_state update_kv None kv;
  mret (node_notes ++ l).

(** The cache key has the address of the note object, [note_oid]. *)
Definition notify_node_status_by_process (note_oid : nat) (proc_note : HaNoteStruct)
    (update_kv : bool) (kv : option nat) : M W (list HaNoteStruct) :=
  uses_consul_cache "Motr.notify_node_status_by_process"
    (key_of ["<hax.types.HaNoteStruct object at " +:+ dec_str (Z.of_nat note_oid) +:+ ">";
             py_bool update_kv] [])
    (fun kv =>
       new_state ← lift (ha_note_to_objhealth (no_state proc_note));
       let proc_fid := from_struct (no_id proc_note) in
       assert (ObjT_value PROCESS =? container proc_fid) ;;
       node ← get_process_node proc_fid kv;
       ctrl_fid ← get_ioservice_ctrl_fid proc_fid kv;
       x ← (match ctrl_fid with
            | Some f =>
                updates ← get_ctrl_state_updates f new_state kv;
                mret (updates, [ha_note (to_c f) (no_state proc_note)])
            | None => mret ([], [])
            end);
       let '(updates, ctrl_notes) := x in
       node_fid ← get_node_fid node true kv;
       node_notes ←
         (if bool_decide (new_state = OFFLINE) || bool_decide (new_state = FAILED) then
            failed ← is_node_failed proc_note kv;
            if (failed : bool) then node_and_encl_notes node_fid new_state update_kv kv else mret []
          else node_and_encl_notes node_fid new_state update_kv kv);
       (if update_kv then write_updates updates kv else mret tt) ;;
       mret (ctrl_notes ++ node_notes)) kv.

Definition get_ctrl_status (proc_note : HaNoteStruct) (kv : option nat)
    : M W (option (HaNoteStruct * list PutKV)) :=
  supports_consul_cache (fun kv =>
    let new_state := no_state proc_note in
    let proc_fid := from_struct (no_id proc_note) in
    assert (ObjT_value PROCESS =? container proc_fid) ;;
    ctrl_fid ← get_ioservice_ctrl_fid proc_fid kv;
    match ctrl_fid with
    | Some f =>
        st ← lift (ha_note_to_objhealth new_state);
        updates ← get_ctrl_state_updates f st kv;
        mret (Some (ha_note (to_c f) new_state, updates))
    | None => mret None
    end) kv.

(** ** Broadcast *)
Fixpoint ha_broadcast_loop (n : nat) (notes : list HaNoteStruct) (broadcast_hax_only : bool)
    (proc_skip_list : list string) (message_ids : list MessageId) (notes_sent : nat)
    : M W (list MessageId * nat) :=
  match notes, n with
  | [], _ => mret (message_ids, notes_sent)
  | _, O => hang
  | _, S n' =>
      let notes_to_send := take MAX_MOTR_NVEC_UPDATE_SZ notes in
      let len := length notes_to_send in
      ids ← (if broadcast_hax_only then
               hax_endpoint ← get_hax_endpoint None;
               ffi ffi_ids (FHaBroadcastHaxOnly notes_to_send (Z.of_nat len) hax_endpoint)
             else
               ffi ffi_ids (FHaBroadcast notes_to_send (Z.of_nat len) proc_skip_list
                 (Z.of_nat (length proc_skip_list))));
      ha_broadcast_loop n' (drop MAX_MOTR_NVEC_UPDATE_SZ notes) broadcast_hax_only
        proc_skip_list ids (notes_sent + len)
  end.

(** One round per note is enough: a round takes at least one note. *)
Definition ha_broadcast (notes : list HaNoteStruct) (broadcast_hax_only : bool)
    (proc_skip_list : list string) : M W (list MessageId) :=
  r ← ha_broadcast_loop (length notes) notes broadcast_hax_only proc_skip_list [] 0;
  assert (snd r =? length notes)%nat ;;
  mret (fst r).

Definition proc_fids_to_eps (proc_skip_list : list Fid) : M W (list string) :=
  fold_m (fun proc_eps proc_fid =>
    proc_ep ← fid_to_endpoint proc_fid;
    match proc_ep with
    | Some ep => mret (if String.eqb ep "" then proc_eps else proc_eps ++ [ep])
    | None => mret proc_eps
    end) [] proc_skip_list.

(** The keyword arguments of [broadcast_ha_states] but [kv_cache]. *)
Record bcast_args : Type := mkBcast {
  notify_devices : bool; update_kv : bool; broadcast_hax_only : bool;
  proc_skip : option (list Fid) }.

Definition bcast_default : bcast_args := mkBcast true true false None.

Definition update_process_tree (args : bcast_args) (hax_fid proc_fid : Fid) : M W bool :=
  if broadcast_hax_only args then mret false
  else mkfs ← is_mkfs proc_fid None;
       mret (negb mkfs && negb (fid_eqb proc_fid hax_fid)).

(** The body of the loop over [ha_states]. *)
Definition broadcast_state (args : bcast_args) (hax_fid : Fid) (kv : option nat)
    (notes : list HaNoteStruct) (st : HAState) : M W (list HaNoteStruct) :=
  if bool_decide (status st = UNKNOWN) then mret notes
  else
    let note := ha_note (to_c (fid st)) (to_ha_note_status (status st)) in
    note_oid ← new_oid;
    let notes := notes ++ [note] in
    let is_process := container (fid st) =? ObjT_value PROCESS in
    tree ← (if is_process then update_process_tree args hax_fid (fid st) else mret false);
    notes ← (if (tree : bool) then
               (if is_process && update_kv args
                then set_process_state (fid st) (status st) else mret tt) ;;
               l1 ← generate_sub_services note (update_kv args) (notify_devices args) kv;
               l2 ← notify_node_status_by_process note_oid note (update_kv args) kv;
               mret (notes ++ l1 ++ l2)
             else mret notes);
    if (container (fid st) =? ObjT_value DRIVE) && update_kv args then
      update_drive_state [fid st] (status st) true kv ;; mret notes
    else if container (fid st) =? ObjT_value NODE then
      (if update_kv args then set_node_state (Some (fid st)) (status st) kv else mret tt) ;;
      l ← add_enclosing_devices_by_node (fid st) (status st) (update_kv args) kv;
      mret (notes ++ l)
    else mret notes.

Definition broadcast_ha_states (ha_states : list HAState) (args : bcast_args) (kv : option nat)
    : M W (list MessageId) :=
  supports_consul_cache (fun kv =>
    hax_fid ← get_hax_fid None;
    proc_eps_skip ← (match proc_skip args with
                     | Some l => proc_fids_to_eps l
                     | None => mret []
                     end);
    notes ← fold_m (broadcast_state args hax_fid kv) [] ha_states;
    match notes with
    | [] => mret []
    | _ => ha_broadcast notes (broadcast_hax_only args) proc_eps_skip
    end) kv.

(** ** Note vectors *)

(** The body of the loop of [ha_nvec_get_reply]: the note with the state set. *)
Definition nvec_get_note (kv : option nat) (n : HaNote) : M W HaNoteStruct :=
  let fid := from_struct (no_id (note n)) in
  t ← lift (FidTypeToObjT (container fid));
  st ← get_conf_obj_status t (key fid) kv;
  mret (ha_note (no_id (note n)) st).

Definition ha_nvec_get_reply (hax_msg : Z) (nvec : list HaNote) (kv : option nat) : M W unit :=
  log_exception (supports_consul_cache (fun kv =>
    get_all_nodes None ;;
    notes ← map_m (nvec_get_note kv) nvec;
    ffi ffi_rc (FHaNvecReply hax_msg notes (Z.of_nat (length notes))) ;; mret tt) kv).

(** [bcast_ss] after the loop over [event.nvec]. *)
Definition nvec_set_states (nvec : list HaNote) : list HAState :=
  foldl (fun bcast_ss n =>
    let fid := from_struct (no_id (note n)) in
    let st := no_state (note n) in
    if (st =? M0_NC_REPAIRED) || (st =? M0_NC_ONLINE)
    then bcast_ss ++ [mkHAState fid (from_ha_note_state st)]
    else if st =? M0_NC_REPAIR
    then bcast_ss ++ [mkHAState fid (from_ha_note_state M0_NC_FAILED)]
    else if st =? M0_NC_REBALANCE
    then bcast_ss ++ [mkHAState fid (from_ha_note_state M0_NC_REPAIRED)]
    else bcast_ss) [] nvec.

Definition ha_nvec_set_process (nvec : list HaNote) : M W unit :=
  log_exception
    (get_all_nodes None ;;
     match nvec_set_states nvec with
     | [] => mret tt
     | bcast_ss => broadcast_ha_states bcast_ss bcast_default None ;; mret tt
     end).

(** ** Statistics *)
Definition get_filesystem_stats : M W FsStats :=
  stats ← on_env ffi_filesystem_stats_fetch;
  match stats with
  | Some s => mret s
  | None => raise (ConfdQuorumException "Confd quorum lost, filesystem statistics is unavailable")
  end.

Definition get_proc_bytecount (proc_fid : Fid) : M W ByteCountStats :=
  bytecount ← on_env (ffi_proc_bytecount_fetch (to_c proc_fid));
  match bytecount with
  | Some b => mret b
  | None => raise (BytecountException "Bytecount stats unavailable")
  end.

Definition get_pver_status (pver_fid : Fid) : M W PverInfo :=
  status ← on_env (ffi_pver_status_fetch (to_c pver_fid));
  match status with
  | Some s => mret s
  | None => raise (BytecountException "Pool version status unavailable")
  end.

Definition get_repair_status (pool_fid : Fid) : M W (list ReprebStatus) :=
  status ← on_env (ffi_repair_status (to_c pool_fid));
  match status with
  | Some s => mret s
  | None => raise (RepairRebalanceException "Repair status unavailable")
  end.

Definition get_rebalance_status (pool_fid : Fid) : M W (list ReprebStatus) :=
  status ← on_env (ffi_rebalance_status (to_c pool_fid));
  match status with
  | Some s => mret s
  | None => raise (RepairRebalanceException "rebalance status unavailable")
  end.

(** ** SNS operations

    The methods below differ in the function called and in the message. *)
Definition spiel_request (c : ffi_call) (name advice : string) : M W unit :=
  result ← ffi ffi_rc c;
  if result =? 0 then mret tt
  else raise (RepairRebalanceException
    ("Failed to send SPIEL request " +:+ String quote name +:+ String quote advice)).

Definition start_repair (pool_fid : Fid) : M W unit :=
  spiel_request (FStartRepair (to_c pool_fid)) "sns_repair_start"
    ", please check Motr logs for more details.".

Definition start_rebalance (pool_fid : Fid) : M W unit :=
  spiel_request (FStartRebalance (to_c pool_fid)) "sns_rebalance_start"
    ",please check Motr logs for more details.".

Definition stop_repair (pool_fid : Fid) : M W unit :=
  spiel_request (FStopRepair (to_c pool_fid)) "sns_repair_stop"
    ", please check Motr logs for more details.".

Definition stop_rebalance (pool_fid : Fid) : M W unit :=
  spiel_request (FStopRebalance (to_c pool_fid)) "sns_rebalance_stop"
    ",please check Motr logs for more details.".

Definition pause_repair (pool_fid : Fid) : M W unit :=
  spiel_request (FPauseRepair (to_c pool_fid)) "sns_repair_pause"
    ", please check Motr logs for more details.".

Definition pause_rebalance (pool_fid : Fid) : M W unit :=
  spiel_request (FPauseRebalance (to_c pool_fid)) "sns_rebalance_pause"
    ",please check Motr logs for more details.".

Definition resume_repair (pool_fid : Fid) : M W unit :=
  spiel_request (FResumeRepair (to_c pool_fid)) "sns_repair_resume"
    ",please check Motr logs for more details.".

Definition resume_rebalance (pool_fid : Fid) : M W unit :=
  spiel_request (FResumeRebalance (to_c pool_fid)) "sns_rebalance_resume"
    ",please check Motr logs for more details.".

(** ** The rconfc starter

    [rs_stopped] and [rs_event] name the attribute [stopped] and the event: each
    is set when its name is in [events_set]. *)
Record RconfcStarter : Type := mkRconfcStarter { rs_stopped : nat; rs_event : nat }.

Definition set_flag (f : nat) : M W unit :=
  modify (fun w => mkWorld (env w) (hare_hax_node_name w) (stopping w) (caches w) (next_cache w)
    (all_node_items w) (motr_processes_status w) (process_locks w) (work_planner w) (next_oid w)
    (delivery w) (reply_queues w) (motr w) (ffi_log w) (subscriber_list w)
    (subscriber_list_cached w) ({[f]} ∪ events_set w)).

Definition rconfc_stop (s : RconfcStarter) : M W unit :=
  set_flag (rs_stopped s) ;; set_flag (rs_event s).

Fixpoint rconfc_loop (n : nat) (s : RconfcStarter) : M W unit :=
  match n with
  | O => hang
  | S n' =>
      go ← gets (fun w => negb (bool_decide (rs_stopped s ∈ events_set w))
                          && negb (spiel_ready (motr w)));
      if (go : bool) then
        started ← ensure_ioservices_running;
        (if negb (forallb id started) then wait_for_event (rs_event s)
         else result ← start_rconfc;
              if result =? 0 then set_spiel_ready true else mret tt) ;;
        rconfc_loop n' s
      else mret tt
  end.

Definition rconfc_execute (s : RconfcStarter) : M W unit :=
  log_exception
    (catch (ensure_motr_all_started (rs_event s) ;; rconfc_loop fuel s)
       (fun _ => Some (mret tt))).
End Motr.
