(* ===== verification/MotrProps.v ===== *)
(** * Properties of the Motr link

    Every entrypoint request that is processed is answered once; a broadcast
    sends all its notes, in vectors Motr accepts; the states given are among
    them; a note vector is answered entry by entry.  [quiet w w'] says that no
    call of the C library was made: the calls of this thread are the log. *)

From S2P Require Import Prelude PyStr Json HaxTypes Message LinkedList Planner Delivery World.
From S2P Require Import Cache ConsulStore Consul ConsulUtil ConfTree ProcStatus Frame Motr Demo.

Definition quiet {E} (w w' : World E) : Prop := ffi_log w' = ffi_log w.

(** The log has the calls of the thread that is considered. *)
Definition quiet_others (E : Type) `{Others E} : Prop := forall w : World E, quiet w (others w).

(** The C library returns. *)
Definition ffi_rc_total (E : Type) `{MotrFfi E} : Prop :=
  forall c e, exists z e', ffi_rc c e = (Ret z, e').
Definition ffi_ids_total (E : Type) `{MotrFfi E} : Prop :=
  forall c e, exists ids e', ffi_ids c e = (Ret ids, e').

#[export] Instance quiet_preorder E : PreOrder (@quiet E).
Proof. split; unfold quiet; [done | congruence]. Qed.

Lemma quiet_framed {E} `{Others E} : quiet_others E -> Framed (@quiet E).
Proof. intros Ho. split; try done. apply _. Qed.

Section Entrypoint.
Context {E : Type} `{ConsulApi E} `{MotrFfi E} `{Others E} `{Fuel} `{Clock E}.
Notation W := (World E).

Lemma ffi_rc_ret (Ht : ffi_rc_total E) c (w : W) :
  exists z e, ffi ffi_rc c w = (Ret z, set_env e (set_ffi_log (ffi_log w ++ [c]) w)).
Proof.
  destruct (Ht c (env w)) as (z & e & He). exists z, e.
  unfold ffi. rewrite bind_modify. unfold on_env. cbn. by rewrite He.
Qed.

Lemma keeps_entrypoint_data `{!Framed (E := E) quiet} : keeps quiet entrypoint_data.
Proof. unfold entrypoint_data. keeps. Qed.

(** *** The confds of the catalog *)

(** The service instances of a Consul catalog as a table: one entry per service id,
    in the order of the first instances, with the data of the last instance. *)
Definition catalog_confds (services : list json) (confds : list ServiceData) : Prop :=
  exists ids data, mapM service_id services = Ret ids /\ mapM mkServiceData services = Ret data
    /\ confds = (foldl (fun d p => alist_set p.1 p.2 d) [] (zip ids data)).*2.

(** The loop of [get_service_data_by_name] builds that table. *)
Lemma service_table services (d r : list (Z * ServiceData)) (w w' : W) :
  fold_m (fun d svc => k ← lift (service_id svc); s ← lift (mkServiceData svc);
                       mret (alist_set k s d)) d services w = (Ret r, w') <->
  w' = w /\ exists ids data, mapM service_id services = Ret ids /\ mapM mkServiceData services = Ret data
    /\ r = foldl (fun d p => alist_set p.1 p.2 d) d (zip ids data).
Proof.
  set (f := fun (d : list (Z * ServiceData)) svc => _).
  assert (Hf : forall d svc w, f d svc w = (k ← service_id svc; x ← mkServiceData svc; Ret (alist_set k x d), w)).
  { intros d' svc v. unfold f, mbind, M_bind, lift, outcome_bind.
    destruct (service_id svc); [| done | done]. by destruct (mkServiceData svc). }
  clearbody f. revert d. induction services as [| svc l IH]; intros d; cbn [fold_m].
  { split; [intros [= <- <-]; by eauto 10 | intros (-> & ids & data & [= <-] & [= <-] & ->); done]. }
  unfold mbind at 1, M_bind. rewrite Hf. cbn [mapM mbind outcome_bind].
  destruct (service_id svc) as [k | e |]; cbn [mbind outcome_bind];
    [| split; [done | by intros (_ & ? & ? & ? & _)]..].
  destruct (mkServiceData svc) as [x | e |]; cbn [mbind outcome_bind];
    [| split; [done | by intros (_ & ? & ? & _ & ? & _)]..].
  rewrite IH. split.
  - intros (-> & ids & data & -> & -> & ->). split; [done|]. by exists (k :: ids), (x :: data).
  - intros (-> & ids & data & Hi & Hd & ->). split; [done|].
    destruct (mapM service_id l) as [ids' | |]; try done. destruct (mapM mkServiceData l) as [data' | |]; try done.
    injection Hi as <-. injection Hd as <-. by exists ids', data'.
Qed.

Lemma get_services_ret name (w : W) l w' :
  get_services name w = (Ret l, w') <->
  exists e, consul_catalog_service name (env w) = (Ret l, e) /\ w' = set_env e w.
Proof.
  unfold get_services, wrap_consul, catch, on_env.
  destruct (consul_catalog_service name (env w)) as [[x | e |] e1].
  - split; [intros [= -> <-]; by eauto | intros (e2 & [= -> ->] & ->); done].
  - split; [by destruct (is_consul_error e) | by intros (? & ? & _)].
  - split; [done | by intros (? & ? & _)].
Qed.

Lemma get_confd_list_ret (w : W) confds w' :
  get_confd_list w = (Ret confds, w') <->
  exists services e, consul_catalog_service "confd" (env w) = (Ret services, e) /\ w' = set_env e w
    /\ catalog_confds services confds.
Proof.
  unfold get_confd_list, get_service_data_by_name. split.
  - intros Hr. apply bind_Ret in Hr as (services & w1 & (e & Hc & ->)%get_services_ret & Hr).
    apply bind_Ret in Hr as (d & w2 & [-> (ids & data & Hi & Hd & ->)]%service_table & Hr).
    injection Hr as <- <-. exists services, e. split_and!; [done | done | by exists ids, data].
  - intros (services & e & Hc & -> & ids & data & Hi & Hd & ->).
    rewrite (bind_unfold_Ret _ _ w services (set_env e w)) by (apply get_services_ret; eauto).
    by rewrite (bind_unfold_Ret _ _ _ _ _ (proj2 (service_table services [] _ _ _)
      (conj eq_refl (ex_intro _ ids (ex_intro _ data (conj Hi (conj Hd eq_refl))))))).
Qed.

(** *** What is collected for a reply *)

(** The reads of this run succeed and there is a usable RM.  While Motr is stopping
    nothing is read; otherwise the leader's session, its node, the confds in the
    catalog and the RM's fid are read one after the other, each in the world the
    one before left. *)
Definition collected (w : W) (confds : list ServiceData) (rm_fid : Fid) (rm_eps : option string)
    (w' : W) : Prop :=
  if motr_is_stopping (motr w)
  then confds = [] /\ rm_fid = mkFid 0 0 /\ rm_eps = None /\ w' = w
  else exists sess w1 principal w2 services e,
    get_leader_session w = (Ret sess, w1)
    /\ get_session_node sess w1 = (Ret principal, w2)
    /\ consul_catalog_service "confd" (env w2) = (Ret services, e)
    /\ catalog_confds services confds
    /\ if bool_decide (confds = [])
       then rm_fid = mkFid 0 0 /\ rm_eps = None /\ w' = set_env e w2
       else get_rm_fid None (set_env e w2) = (Ret rm_fid, w')
         /\ rm_eps = address <$> List.find (fun svc => String.eqb (sd_node svc) principal) confds
         /\ (motr_is_stopping (motr w') = true \/ exists ep, rm_eps = Some ep /\ ep <> "").

(** More than half of the confds. *)
Definition majority (nr q : Z) : Prop := if nr =? 0 then q = 0 else nr < 2 * q <= nr + 2.

Lemma confd_quorum_majority {A} (l : list A) :
  majority (Z.of_nat (length l)) (if bool_decide (l = []) then 0 else confd_quorum (length l)).
Proof.
  unfold majority, confd_quorum. destruct l as [| x l]; [done|]. rewrite bool_decide_eq_false_2 by done.
  set (n := Z.of_nat (length (x :: l))). assert (1 <= n) by (unfold n; cbn; lia).
  destruct (Z.eqb_spec n 0); [lia|]. pose proof (Z.div_mod n 2). pose proof (Z.mod_pos_bound n 2). lia.
Qed.

Lemma no_endpoint_false o : no_endpoint o = false <-> exists ep, o = Some ep /\ ep <> "".
Proof.
  unfold no_endpoint. destruct o as [ep |]; [| by split; [| intros (? & ? & _)]].
  destruct (String.eqb_spec ep "") as [-> | Hne].
  - split; [done | by intros (? & [= <-] & ?)].
  - split; [by eauto | done].
Qed.

Lemma rm_endpoint_nil principal : rm_endpoint principal [] = None.
Proof. by destruct principal. Qed.

(** The part of [entrypoint_data] after the list of confds. *)
Lemma entrypoint_data_confds (w w2 : W) principal confds q rm_fid rm_eps w' :
  motr_is_stopping (motr w) = false ->
  (sess ← get_leader_session; principal_rm ← get_session_node sess; confds ← get_confd_list;
   mret (Some principal_rm, confds)) w = (Ret (Some principal, confds), w2) ->
  entrypoint_data w = (Ret (inr (confds, rm_fid, q, rm_eps)), w') <->
  q = (if bool_decide (confds = []) then 0 else confd_quorum (length confds)) /\
  if bool_decide (confds = [])
  then rm_fid = mkFid 0 0 /\ rm_eps = None /\ w' = w2
  else get_rm_fid None w2 = (Ret rm_fid, w')
    /\ rm_eps = address <$> List.find (fun svc => String.eqb (sd_node svc) principal) confds
    /\ (motr_is_stopping (motr w') = true \/ exists ep, rm_eps = Some ep /\ ep <> "").
Proof.
  intros Hs Hr. unfold entrypoint_data. rewrite bind_gets, Hs, (bind_unfold_Ret _ _ _ _ _ Hr).
  destruct confds as [| c l].
  - rewrite bind_mret, bind_gets. cbn [rm_endpoint List.find fmap option_fmap option_map]. cbn. split.
    + by intros [= <- <- <- <-].
    + by intros (-> & -> & -> & ->).
  - rewrite bool_decide_eq_false_2 by done.
    destruct (get_rm_fid None w2) as [[f | e |] w3] eqn:Ef.
    + rewrite (bind_unfold_Ret _ _ w2 (f, confd_quorum (length (c :: l))) w3)
        by (by rewrite (bind_unfold_Ret _ _ _ _ _ Ef)).
      rewrite bind_gets. cbn [negb andb].
      change (rm_endpoint (Some principal) (c :: l))
        with (address <$> List.find (fun svc => String.eqb (sd_node svc) principal) (c :: l)).
      set (ep := address <$> _). destruct (motr_is_stopping (motr w3)) eqn:Es; cbn [negb andb].
      * split; [intros [= <- <- <- <-]; by auto 10 | by intros (-> & [= -> ->] & -> & _)].
      * destruct (no_endpoint ep) eqn:En.
        -- split.
           ++ intros Hd. apply bind_Ret in Hd as (? & ? & _ & Hd). done.
           ++ intros (_ & [= -> ->] & -> & [? | Hep%no_endpoint_false]); [congruence|]. by rewrite Hep in En.
        -- apply no_endpoint_false in En.
           split; [intros [= <- <- <- <-]; by auto 10 | by intros (-> & [= -> ->] & -> & _)].
    + rewrite (bind_unfold_Raise _ _ w2 e w3) by (by rewrite (bind_unfold_Raise _ _ _ _ _ Ef)).
      split; [done | by intros (_ & ? & _)].
    + rewrite (bind_unfold_Hang _ _ w2 w3) by (by rewrite (bind_unfold_Hang _ _ _ _ Ef)).
      split; [done | by intros (_ & ? & _)].
Qed.

(** [entrypoint_data] returns the data of a full reply just when the data can be
    collected. *)
Lemma entrypoint_data_collects (w w' : W) confds q rm_fid rm_eps :
  entrypoint_data w = (Ret (inr (confds, rm_fid, q, rm_eps)), w') <->
  collected w confds rm_fid rm_eps w'
  /\ q = (if bool_decide (confds = []) then 0 else confd_quorum (length confds)).
Proof.
  unfold collected. destruct (motr_is_stopping (motr w)) eqn:Hs.
  { unfold entrypoint_data. rewrite bind_gets, Hs, bind_mret, bind_mret, bind_gets. cbn.
    split; [by intros [= <- <- <- <-] | by intros ((-> & -> & -> & ->) & ->)]. }
  split.
  - intros Hd. pose proof Hd as Hd0. unfold entrypoint_data in Hd. rewrite bind_gets, Hs in Hd.
    apply bind_Ret in Hd as ([o l] & w2 & Hr & Hd). pose proof Hr as Hr0.
    apply bind_Ret in Hr as (sess & w3 & H1' & Hr). apply bind_Ret in Hr as (principal & w4 & H2' & Hr).
    apply bind_Ret in Hr as (l' & w5 & H3' & Hr). injection Hr as <- <- <-.
    assert (l' = confds) as ->.
    { apply bind_Ret in Hd as ([f q'] & w6 & _ & Hd). rewrite bind_gets in Hd.
      destruct (_ && _ && _); [by apply bind_Ret in Hd as (? & ? & _ & ?) | by injection Hd]. }
    apply (entrypoint_data_confds w w5 principal) in Hd0 as [-> Hd0]; [| done | done].
    split; [| done]. apply get_confd_list_ret in H3' as (services & e & Hc & -> & Hcat). by eauto 15.
  - intros [(sess & w1 & principal & w2 & services & e & H1' & H2' & Hc & Hcat & Hrest) ->].
    apply (entrypoint_data_confds w (set_env e w2) principal); [done | | done].
    rewrite (bind_unfold_Ret _ _ _ _ _ H1'), (bind_unfold_Ret _ _ _ _ _ H2').
    by rewrite (bind_unfold_Ret _ _ w2 confds (set_env e w2)) by (apply get_confd_list_ret; eauto 10).
Qed.

Lemma entrypoint_data_error (w w' : W) rc : entrypoint_data w = (Ret (inl rc), w') -> rc = 0 \/ rc = EAGAIN.
Proof.
  unfold entrypoint_data. rewrite bind_gets. intros Hd.
  apply bind_Ret in Hd as ([principal confds] & w2 & _ & Hd).
  apply bind_Ret in Hd as ([rm_fid q] & w3 & Hq & Hd).
  rewrite bind_gets in Hd. destruct (_ && _ && _); [| done].
  apply bind_Ret in Hd as (b & w4 & _ & Hd). injection Hd as <- <-. destruct b; [by left | by right].
Qed.

(** The reply with the data collected, and the one that reports a failure. *)
Definition full_reply (message : EntrypointFields) (confds : list ServiceData) (q : Z) (rm_fid : Fid)
    (rm_eps : option string) : ffi_call :=
  FEntrypointReply (reply_context message) (req_id message) 0 (Z.of_nat (length confds))
    ((fun x => to_c (sd_fid x)) <$> confds) (address <$> confds) q (to_c rm_fid) rm_eps.

Definition error_reply (message : EntrypointFields) (rc : Z) : ffi_call :=
  FEntrypointReply (reply_context message) (req_id message) rc 0 [] [] 0 (to_c (mkFid 0 0)) None.

(** The answer that this run owes to [message]: with the data, when they can be
    collected, and with an error code otherwise. *)
Definition answers (message : EntrypointFields) (w : W) (c : ffi_call) : Prop :=
  (exists confds rm_fid rm_eps w' q, collected w confds rm_fid rm_eps w'
     /\ majority (Z.of_nat (length confds)) q /\ c = full_reply message confds q rm_fid rm_eps)
  \/ ((forall confds rm_fid rm_eps w', ~ collected w confds rm_fid rm_eps w')
      /\ exists rc, (rc = 0 \/ rc = EAGAIN) /\ c = error_reply message rc).
End Entrypoint.

(** C4: an entrypoint request is answered exactly once, with its context and id, or the
    reads of Consul never end and it is not answered at all, which cannot happen while
    Motr is stopping.  The answer has every confd the catalog lists in this run, in
    the order of the catalog, with its fid and address, a quorum of more than half of
    them, the fid of the RM, and the address of the first confd on the node of the
    leader; only when these data cannot be collected does it have an error code and no
    confd. *)
Theorem entrypoint_replied_once {E} `{ConsulApi E} `{MotrFfi E} `{Others E} `{Fuel} `{Clock E}
    message (w : World E) :
  quiet_others E -> ffi_rc_total E ->
  exists o w', send_entrypoint_request_reply message w = (o, w')
    /\ (o = Ret tt /\ (exists c, ffi_log w' = ffi_log w ++ [c] /\ answers message w c)
        \/ o = Hang /\ ffi_log w' = ffi_log w /\ (entrypoint_data w).1 = Hang
           /\ motr_is_stopping (motr w) = false).
Proof.
  intros Ho Ht. pose proof (quiet_framed Ho) as Hf.
  pose proof (keeps_entrypoint_data w) as Hk. unfold send_entrypoint_request_reply.
  destruct (entrypoint_data w) as [d w1] eqn:Ed. cbn in Hk.
  assert (Herr : forall rc, catch entrypoint_data (fun _ => Some (mret (inl EAGAIN))) w = (Ret (inl rc), w1) ->
    (rc = 0 \/ rc = EAGAIN) -> (forall x, d <> Ret (inr x)) ->
    exists o w', send_entrypoint_request_reply message w = (o, w')
    /\ (o = Ret tt /\ (exists c, ffi_log w' = ffi_log w ++ [c] /\ answers message w c)
        \/ o = Hang /\ ffi_log w' = ffi_log w /\ d = Hang /\ motr_is_stopping (motr w) = false)).
  { intros rc Hc Hrc Hd. unfold send_entrypoint_request_reply. rewrite (bind_unfold_Ret _ _ _ _ _ Hc).
    unfold sleep. rewrite bind_modify.
    edestruct (ffi_rc_ret Ht) as (z & e & Hr). rewrite (bind_unfold_Ret _ _ _ _ _ Hr).
    eexists _, _. split; [reflexivity|]. left. split; [done|]. eexists. split.
    - cbn. by rewrite (Ho w1), Hk.
    - right. split; [| by eauto]. intros confds rm eps w' Hcol.
      pose proof (proj2 (entrypoint_data_collects w w' confds _ rm eps) (conj Hcol eq_refl)) as He.
      rewrite Ed in He. injection He as -> _. by eapply Hd. }
  destruct d as [[rc | [[[confds rm] q] eps]] | ex |].
  - apply (Herr rc); [by unfold catch; rewrite Ed | by eapply entrypoint_data_error | done].
  - unfold catch. rewrite (bind_unfold_Ret _ _ w (inr (confds, rm, q, eps)) w1) by (by rewrite Ed).
    edestruct (ffi_rc_ret Ht) as (z & e & Hr). rewrite (bind_unfold_Ret _ _ _ _ _ Hr).
    eexists _, _. split; [reflexivity|]. left. split; [done|]. eexists. split; [cbn; by rewrite Hk|].
    apply entrypoint_data_collects in Ed as [Hcol ->]. left. eexists confds, rm, eps, w1, _.
    split; [done|]. split; [apply confd_quorum_majority | done].
  - apply (Herr EAGAIN); [by unfold catch; rewrite Ed | by right | done].
  - eexists Hang, w1. split; [by apply bind_unfold_Hang; unfold catch; rewrite Ed|].
    right. split_and!; [done | done | done |].
    destruct (motr_is_stopping (motr w)) eqn:Hs; [| done].
    pose proof (proj2 (entrypoint_data_collects w w [] 0 (mkFid 0 0) None)) as Hc.
    rewrite Ed in Hc. unfold collected in Hc. rewrite Hs in Hc. by specialize (Hc (conj (conj eq_refl (conj eq_refl (conj eq_refl eq_refl))) eq_refl)).
Qed.

(** ** Broadcast *)
Section Broadcast.
Context {E : Type} `{ConsulApi E} `{MotrFfi E} `{Others E} `{Fuel} `{Clock E}.
Notation W := (World E).
Implicit Types notes : list HaNoteStruct.

(** The call for one vector of notes. *)
Definition bcast_call (skip : list string) (notes : list HaNoteStruct) : ffi_call :=
  FHaBroadcast notes (Z.of_nat (length notes)) skip (Z.of_nat (length skip)).

(** Vectors that make up [notes], each of a size Motr accepts. *)
Definition vectors_of (notes : list HaNoteStruct) (chunks : list (list HaNoteStruct)) : Prop :=
  concat chunks = notes
  /\ Forall (fun c => (1 <= length c <= MAX_MOTR_NVEC_UPDATE_SZ)%nat) chunks.

Lemma vectors_cons notes chunks : notes <> [] ->
  vectors_of (drop MAX_MOTR_NVEC_UPDATE_SZ notes) chunks ->
  vectors_of notes (take MAX_MOTR_NVEC_UPDATE_SZ notes :: chunks).
Proof.
  intros Hne [Hc Hf]. split; [cbn [concat]; by rewrite Hc, take_drop|].
  constructor; [| done]. rewrite length_take. destruct notes; [done|].
  unfold MAX_MOTR_NVEC_UPDATE_SZ. cbn [length]. lia.
Qed.

Lemma ffi_ids_ret (Ht : ffi_ids_total E) c (w : W) :
  exists ids e, ffi_ids c (env w) = (Ret ids, e)
    /\ ffi ffi_ids c w = (Ret ids, set_env e (set_ffi_log (ffi_log w ++ [c]) w)).
Proof.
  destruct (Ht c (env w)) as (ids & e & He). exists ids, e. split; [done|].
  unfold ffi. rewrite bind_modify. unfold on_env. cbn. by rewrite He.
Qed.

(** The ids returned are those of the last call. *)
Definition last_answer (skip : list string) (chunks : list (list HaNoteStruct)) (ids0 ids : list MessageId)
    (e' : E) : Prop :=
  match last chunks with
  | None => ids = ids0
  | Some c => exists e, ffi_ids (bcast_call skip c) e = (Ret ids, e')
  end.

Lemma ha_broadcast_loop_spec (Ht : ffi_ids_total E) n notes skip ids0 sent (w : W) :
  (length notes <= n)%nat ->
  exists ids chunks w',
    ha_broadcast_loop n notes false skip ids0 sent w = (Ret (ids, (sent + length notes)%nat), w')
    /\ ffi_log w' = ffi_log w ++ (bcast_call skip <$> chunks)
    /\ vectors_of notes chunks /\ last_answer skip chunks ids0 ids (env w').
Proof.
  revert notes ids0 sent w. induction n as [| n IH]; intros notes ids0 sent w Hn;
    destruct notes as [| x notes];
    try (exists ids0, [], w; cbn; rewrite Nat.add_0_r, app_nil_r; repeat split; constructor);
    [cbn in Hn; lia|].
  remember (x :: notes) as l eqn:El.
  destruct (ffi_ids_ret Ht (bcast_call skip (take MAX_MOTR_NVEC_UPDATE_SZ l)) w)
    as (ids1 & e & He & Hr).
  edestruct (IH (drop MAX_MOTR_NVEC_UPDATE_SZ l) ids1
    (sent + length (take MAX_MOTR_NVEC_UPDATE_SZ l))%nat) as (ids & chunks & w' & Hl & Hlog & Hv & Hid).
  { rewrite length_drop. unfold MAX_MOTR_NVEC_UPDATE_SZ. subst l. cbn in *. lia. }
  exists ids, (take MAX_MOTR_NVEC_UPDATE_SZ l :: chunks), w'. split_and!.
  - subst l. cbn [ha_broadcast_loop]. unfold bcast_call in Hr.
    rewrite (bind_unfold_Ret _ _ _ _ _ Hr), Hl. do 2 f_equal.
    rewrite <- Nat.add_assoc, <- length_app, take_drop. done.
  - rewrite Hlog. cbn. by rewrite <- app_assoc.
  - apply vectors_cons; [by subst l | done].
  - unfold last_answer in *. destruct chunks as [| c chunks].
    2: { rewrite last_cons_cons. destruct (last (c :: chunks)) eqn:El'; [exact Hid|].
         by apply last_None in El'. }
    cbn in Hid |- *. subst ids. destruct Hv as [Hv _]. cbn [concat] in Hv.
    rewrite <- Hv in Hl. exists (env w).
    destruct n; apply (f_equal snd) in Hl; cbn in Hl; subst w'; exact He.
Qed.
End Broadcast.

(** A broadcast over ha_link sends all its notes, in order, in vectors of 1 to 1024
    notes, and returns the message ids of the last vector only. *)
Theorem broadcast_sends_every_note {E} `{ConsulApi E} `{MotrFfi E} `{Others E} `{Fuel}
    (notes : list HaNoteStruct) skip (w : World E) :
  ffi_ids_total E ->
  exists ids chunks w', ha_broadcast notes false skip w = (Ret ids, w')
    /\ ffi_log w' = ffi_log w ++ (bcast_call skip <$> chunks)
    /\ vectors_of notes chunks /\ last_answer skip chunks [] ids (env w').
Proof.
  intros Ht. destruct (ha_broadcast_loop_spec Ht (length notes) notes skip [] 0 w)
    as (ids & chunks & w' & Hl & Hlog & Hv & Hid); [done|].
  exists ids, chunks, w'. split; [| done]. unfold ha_broadcast.
  rewrite (bind_unfold_Ret _ _ _ _ _ Hl). cbn [snd fst]. by rewrite Nat.eqb_refl.
Qed.

(** ** The states that are reported *)
Section Reported.
Context {E : Type} `{ConsulApi E} `{MotrFfi E} `{Others E} `{Fuel} `{Clock E}.
Context `{!Framed (E := E) quiet}.
Notation W := (World E).

Lemma keeps_new_oid : keeps (E := E) quiet new_oid.
Proof. intros w. reflexivity. Qed.
#[local] Hint Resolve keeps_new_oid : keeps.
Lemma keeps_write_updates updates kv : keeps quiet (write_updates updates kv).
Proof. unfold write_updates. keeps. Qed.
#[local] Hint Resolve keeps_write_updates : keeps.
Lemma keeps_is_mkfs f kv : keeps quiet (is_mkfs f kv).
Proof. unfold is_mkfs. keeps. Qed.
#[local] Hint Resolve keeps_is_mkfs : keeps.
Lemma keeps_generate_sub_disks note services update_kv kv :
  keeps quiet (generate_sub_disks note services update_kv kv).
Proof. unfold generate_sub_disks. keeps. Qed.
#[local] Hint Resolve keeps_generate_sub_disks : keeps.
Lemma keeps_generate_sub_services note update_kv notify_devices kv :
  keeps quiet (generate_sub_services note update_kv notify_devices kv).
Proof. unfold generate_sub_services. keeps. Qed.
#[local] Hint Resolve keeps_generate_sub_services : keeps.
Lemma keeps_node_or_by_fid node f kv : keeps quiet (node_or_by_fid node f kv).
Proof. unfold node_or_by_fid. keeps. Qed.
#[local] Hint Resolve keeps_node_or_by_fid : keeps.
Lemma keeps_get_update_encl_state f s update_kv node kv :
  keeps quiet (get_update_encl_state f s update_kv node kv).
Proof. unfold get_update_encl_state. keeps. Qed.
#[local] Hint Resolve keeps_get_update_encl_state : keeps.
Lemma keeps_add_enclosing f s update_kv kv :
  keeps quiet (add_enclosing_devices_by_node f s update_kv kv).
Proof. unfold add_enclosing_devices_by_node. keeps. Qed.
#[local] Hint Resolve keeps_add_enclosing : keeps.
Lemma keeps_is_node_failed note kv : keeps quiet (is_node_failed note kv).
Proof. unfold is_node_failed. keeps. Qed.
#[local] Hint Resolve keeps_is_node_failed : keeps.
Lemma keeps_notify_node_status oid note update_kv kv :
  keeps quiet (notify_node_status_by_process oid note update_kv kv).
Proof. unfold notify_node_status_by_process, node_and_encl_notes, add_node_state_by_fid. keeps. Qed.
#[local] Hint Resolve keeps_notify_node_status : keeps.
Lemma keeps_broadcast_state args hax kv notes st :
  keeps quiet (broadcast_state args hax kv notes st).
Proof. unfold broadcast_state, update_process_tree. keeps. Qed.
Lemma keeps_proc_fids_to_eps l : keeps quiet (proc_fids_to_eps l).
Proof. unfold proc_fids_to_eps. keeps. Qed.
End Reported.

Section States.
Context {E : Type} `{ConsulApi E} `{MotrFfi E} `{Others E} `{Fuel} `{Clock E}.
Notation W := (World E).

(** The notes of the given states; an UNKNOWN state is not reported. *)
Definition state_notes (ha_states : list HAState) : list HaNoteStruct :=
  (fun st => ha_note (to_c (fid st)) (to_ha_note_status (status st)))
    <$> filter (fun st => status st <> UNKNOWN) ha_states.

(** The loop over the states adds the note of each state, and the rest after it. *)
Lemma broadcast_state_adds args hax kv notes st (w w' : W) notes' :
  broadcast_state args hax kv notes st w = (Ret notes', w') ->
  exists l, notes' = notes ++ state_notes [st] ++ l.
Proof.
  unfold broadcast_state, state_notes. rewrite filter_cons, filter_nil.
  case_bool_decide as Hu.
  { intros [= <- _]. exists []. rewrite decide_False by naive_solver. by rewrite app_nil_r. }
  rewrite decide_True by done. cbn [fmap list_fmap].
  intros Hr. apply bind_Ret in Hr as (oid & w1 & _ & Hr).
  apply bind_Ret in Hr as (tree & w2 & _ & Hr).
  apply bind_Ret in Hr as (notes1 & w3 & Hn & Hr).
  assert (exists l1, notes1 = notes ++ [ha_note (to_c (fid st)) (to_ha_note_status (status st))] ++ l1)
    as [l1 ->].
  { destruct tree; [| injection Hn as <- _; exists []; by rewrite app_nil_r].
    apply bind_Ret in Hn as (? & ? & _ & Hn). apply bind_Ret in Hn as (l1 & ? & _ & Hn).
    apply bind_Ret in Hn as (l2 & ? & _ & Hn). injection Hn as <- _.
    exists (l1 ++ l2). by rewrite <- !app_assoc. }
  destruct (_ && _).
  { apply bind_Ret in Hr as (? & ? & _ & Hr). injection Hr as <- _. by exists l1. }
  destruct (_ =? _); [| injection Hr as <- _; by exists l1].
  apply bind_Ret in Hr as (? & ? & _ & Hr). apply bind_Ret in Hr as (l & ? & _ & Hr).
  injection Hr as <- _. exists (l1 ++ l). by rewrite <- !app_assoc.
Qed.

Lemma broadcast_states_add args hax kv states notes (w w' : W) notes' :
  fold_m (broadcast_state args hax kv) notes states w = (Ret notes', w') ->
  exists l, notes' = notes ++ l /\ state_notes states `sublist_of` l
    /\ (Forall (fun st => status st = UNKNOWN) states -> l = []).
Proof.
  revert notes w. induction states as [| st states IH]; intros notes w; cbn [fold_m].
  { intros [= <- _]. exists []. rewrite app_nil_r. by repeat constructor. }
  intros Hr. apply bind_Ret in Hr as (notes1 & w1 & Hst & Hr).
  assert (Hu : status st = UNKNOWN -> notes1 = notes).
  { intros Hu. unfold broadcast_state in Hst. rewrite bool_decide_eq_true_2 in Hst by done.
    by injection Hst. }
  destruct (broadcast_state_adds _ _ _ _ _ _ _ _ Hst) as [l1 ->].
  destruct (IH _ _ Hr) as (l & -> & Hs & Hun).
  exists ((state_notes [st] ++ l1) ++ l). split_and!.
  - by rewrite !app_assoc.
  - replace (state_notes (st :: states)) with (state_notes [st] ++ state_notes states).
    + apply sublist_app; [by apply sublist_inserts_r | done].
    + unfold state_notes. rewrite <- fmap_app. f_equal. change (st :: states) with ([st] ++ states).
      by rewrite filter_app.
  - intros Hf. apply Forall_cons in Hf as [Hu1 Hf]. rewrite Hun by done. rewrite app_nil_r.
    apply (app_inv_head notes). by rewrite Hu, app_nil_r.
Qed.
End States.

(** C12: whenever [broadcast_ha_states] returns, the notes it sent over ha_link, in vectors
    of at most 1024, contain the note of every given state in the order given, an UNKNOWN
    state apart; when all the states are UNKNOWN nothing is sent and no id is returned. *)
Theorem broadcast_reports_states {E} `{ConsulApi E} `{MotrFfi E} `{Others E} `{Fuel} `{Clock E}
    states args kv (w w' : World E) ids :
  quiet_others E -> ffi_ids_total E -> broadcast_hax_only args = false ->
  broadcast_ha_states states args kv w = (Ret ids, w') ->
  exists skip chunks, ffi_log w' = ffi_log w ++ (bcast_call skip <$> chunks)
    /\ Forall (fun c => (1 <= length c <= MAX_MOTR_NVEC_UPDATE_SZ)%nat) chunks
    /\ state_notes states `sublist_of` concat chunks
    /\ (Forall (fun st => status st = UNKNOWN) states -> chunks = [] /\ ids = []).
Proof.
  intros Ho Ht Hh Hr. pose proof (quiet_framed Ho) as Hf.
  apply bind_Ret in Hr as (c & w1 & Ec & Hr). pose proof (keeps_cache_or_new quiet kv w) as K1.
  apply bind_Ret in Hr as (hax & w2 & Eh & Hr). pose proof (keeps_get_hax_fid quiet None w1) as K2.
  apply bind_Ret in Hr as (skip & w3 & Es & Hr).
  assert (K3 : quiet w2 w3).
  { destruct (proc_skip args) as [l |]; [| by injection Es as _ <-].
    pose proof (keeps_proc_fids_to_eps l w2) as K. by rewrite Es in K. }
  apply bind_Ret in Hr as (notes & w4 & En & Hr).
  pose proof (keeps_fold_m quiet (broadcast_state args hax (Some c)) [] states
    (fun s x => keeps_broadcast_state args hax (Some c) s x) w3) as K4.
  rewrite Ec in K1. rewrite Eh in K2. rewrite En in K4. cbn in K1, K2, K4. unfold quiet in *.
  assert (Hlog : ffi_log w4 = ffi_log w) by congruence.
  destruct (broadcast_states_add _ _ _ _ _ _ _ _ En) as (l & -> & Hs & Hu). cbn [app] in *.
  destruct l as [| x l].
  - injection Hr as <- <-. exists skip, []. cbn. rewrite app_nil_r. by split_and!.
  - rewrite Hh in Hr. destruct (ha_broadcast_loop_spec Ht (length (x :: l)) (x :: l) skip [] 0 w4)
      as (ids' & chunks & w5 & Hl & Hlog5 & [Hc Hv] & _); [done|].
    unfold ha_broadcast in Hr. rewrite (bind_unfold_Ret _ _ _ _ _ Hl) in Hr.
    cbn [snd fst] in Hr. rewrite Nat.eqb_refl in Hr. injection Hr as _ <-.
    exists skip, chunks. rewrite Hlog5, Hlog, Hc. split_and!; [done.. |].
    intros Hf'. by specialize (Hu Hf').
Qed.

(** ** Note vectors *)
Section Nvec.
Context {E : Type} `{ConsulApi E} `{MotrFfi E} `{Others E} `{Fuel} `{Clock E}.
Notation W := (World E).

Lemma nvec_get_note_id kv n (w w' : W) x :
  nvec_get_note kv n w = (Ret x, w') -> no_id x = no_id (note n).
Proof.
  intros Hr. apply bind_Ret in Hr as (t & w1 & _ & Hr). apply bind_Ret in Hr as (st & w2 & _ & Hr).
  by injection Hr as <- _.
Qed.

(** A list comprehension returns the results in order, or fails at one element. *)
Lemma map_m_cases {A B} (f : A -> M W B) l w o w' : map_m f l w = (o, w') ->
  match o with
  | Ret ys => Forall2 (fun x y => exists w1 w2, f x w1 = (Ret y, w2)) l ys
  | Raise e => exists x w1 w2, x ∈ l /\ f x w1 = (Raise e, w2)
  | Hang => True
  end.
Proof.
  revert w o w'. induction l as [| x l IH]; intros w o w'; cbn [map_m].
  { intros [= <- _]. constructor. }
  unfold mbind, M_bind. destruct (f x w) as [[y | e |] w1] eqn:Ef.
  - destruct (map_m f l w1) as [o1 w2] eqn:El. specialize (IH _ _ _ El).
    destruct o1 as [ys | e |]; intros [= <- _]; [| | done].
    + constructor; [by eauto | done].
    + destruct IH as (x' & ? & ? & Hx & ?). exists x'. eexists _, _. split; [by right | done].
  - intros [= <- _]. exists x. eexists _, _. split; [by left | done].
  - by intros [= <- _].
Qed.
End Nvec.

(** A note vector Motr asks about is answered once, with one note per entry in order
    and for the same objects; it stays unanswered only when the nodes or the state of one
    of the objects cannot be read.  The call itself never raises. *)
Theorem nvec_get_answered {E} `{ConsulApi E} `{MotrFfi E} `{Others E} `{Fuel} `{Clock E}
    hax_msg nvec kv (w w' : World E) o :
  quiet_others E -> ffi_rc_total E ->
  ha_nvec_get_reply hax_msg nvec kv w = (o, w') -> o <> Hang ->
  o = Ret tt
  /\ ((exists notes, ffi_log w' = ffi_log w ++ [FHaNvecReply hax_msg notes (Z.of_nat (length nvec))]
         /\ no_id <$> notes = (fun n => no_id (note n)) <$> nvec)
      \/ (ffi_log w' = ffi_log w
          /\ exists e w1 w2, get_all_nodes None w1 = (Raise e, w2)
             \/ exists n kv', n ∈ nvec /\ nvec_get_note kv' n w1 = (Raise e, w2))).
Proof.
  intros Ho Ht Hr Hn. pose proof (quiet_framed Ho) as Hf.
  unfold ha_nvec_get_reply, log_exception, catch, supports_consul_cache in Hr.
  pose proof (keeps_cache_or_new quiet kv w) as K1.
  destruct (cache_or_new kv w) as [oc w1] eqn:Ec.
  assert (exists c, oc = Ret c) as [c ->] by (destruct kv; by injection Ec; eauto).
  rewrite (bind_unfold_Ret _ _ _ _ _ Ec) in Hr.
  pose proof (keeps_get_all_nodes quiet None w1) as K2.
  destruct (get_all_nodes None w1) as [on w2] eqn:En.
  pose proof (keeps_map_m quiet (nvec_get_note (Some c)) nvec) as K3.
  specialize (K3 ltac:(unfold nvec_get_note; keeps) w2).
  unfold quiet in *. cbn in K1, K2.
  destruct on as [items | e |].
  2: { rewrite (bind_unfold_Raise _ _ _ _ _ En) in Hr. injection Hr as <- <-. split; [done|].
       right. split; [congruence|]. exists e, w1, w2. by left. }
  2: { rewrite (bind_unfold_Hang _ _ _ _ En) in Hr. by injection Hr as <- _. }
  rewrite (bind_unfold_Ret _ _ _ _ _ En) in Hr.
  destruct (map_m (nvec_get_note (Some c)) nvec w2) as [om w3] eqn:Em. cbn in K3.
  pose proof (map_m_cases _ _ _ _ _ Em) as Hm. destruct om as [notes | e |].
  - rewrite (bind_unfold_Ret _ _ _ _ _ Em) in Hr.
    edestruct (ffi_rc_ret Ht) as (z & e & Hz). rewrite (bind_unfold_Ret _ _ _ _ _ Hz) in Hr.
    injection Hr as <- <-. split; [done|]. left. exists notes. split.
    + cbn. rewrite <- (Forall2_length _ _ _ Hm). congruence.
    + clear -Hm. induction Hm as [| n x nvec notes (w1 & w2 & Hx) _ IH]; [done|].
      cbn. by rewrite (nvec_get_note_id _ _ _ _ _ Hx), IH.
  - rewrite (bind_unfold_Raise _ _ _ _ _ Em) in Hr. injection Hr as <- <-. split; [done|].
    right. split; [congruence|]. destruct Hm as (n & ? & ? & Hin & Hx).
    eexists _, _, _. right. by exists n, (Some c).
  - rewrite (bind_unfold_Hang _ _ _ _ Em) in Hr. by injection Hr as <- _.
Qed.

(** The state an object is moved to when Motr reports [st]: a finished repair or
    rebalance is kept, an unfinished one is rolled back. *)
Definition rolled_back (st : Z) : option Z :=
  if (st =? M0_NC_REPAIRED) || (st =? M0_NC_ONLINE) then Some st
  else if st =? M0_NC_REPAIR then Some M0_NC_FAILED
  else if st =? M0_NC_REBALANCE then Some M0_NC_REPAIRED
  else None.

Definition u64_note (n : HaNote) : Prop :=
  u64 (f_container (no_id (note n))) /\ u64 (f_key (no_id (note n))).

Lemma to_c_from_struct s : u64 (f_container s) -> u64 (f_key s) -> to_c (from_struct s) = s.
Proof. destruct s as [c k]. unfold u64, to_c, c_uint64. cbn. intros. by rewrite !Z.mod_small. Qed.

Lemma state_notes_app l1 l2 : state_notes (l1 ++ l2) = state_notes l1 ++ state_notes l2.
Proof. unfold state_notes. by rewrite filter_app, fmap_app. Qed.

Lemma state_notes_one s st : u64 (f_container s) -> u64 (f_key s) -> st <> UNKNOWN ->
  state_notes [mkHAState (from_struct s) st] = [ha_note s (to_ha_note_status st)].
Proof.
  intros Hc Hk Hu. unfold state_notes. rewrite filter_cons_True by done. cbn [fmap list_fmap fid status].
  by rewrite to_c_from_struct.
Qed.

(** The states broadcast for a note vector Motr sets are, entry by entry and for the same
    objects, the repaired and online ones unchanged, FAILED for an unfinished repair and
    REPAIRED for an unfinished rebalance; any other entry is left out. *)
Theorem nvec_set_rolls_back nvec : Forall u64_note nvec ->
  state_notes (nvec_set_states nvec)
  = omap (fun n => ha_note (no_id (note n)) <$> rolled_back (no_state (note n))) nvec.
Proof.
  induction nvec as [| n nvec IH] using rev_ind; [done|].
  intros [Hf Hn]%Forall_app. apply Forall_singleton in Hn as [Hc Hk].
  rewrite omap_app, <- IH by done. unfold nvec_set_states. rewrite foldl_app. cbn [foldl].
  fold (nvec_set_states nvec). cbn [omap list_omap]. unfold rolled_back.
  destruct (_ || _) eqn:E1.
  - rewrite state_notes_app. f_equal.
    apply orb_prop in E1 as [E1%Z.eqb_eq | E1%Z.eqb_eq]; rewrite E1; by apply state_notes_one.
  - destruct (_ =? M0_NC_REPAIR); [rewrite state_notes_app; f_equal; by apply state_notes_one|].
    destruct (_ =? M0_NC_REBALANCE); [| by rewrite app_nil_r].
    rewrite state_notes_app. f_equal. by apply state_notes_one.
Qed.

(** ** Witnesses *)
Section Witnesses.
#[local] Instance wit_fuel : Fuel := demo_fuel.
#[local] Instance wit_others : Others server := demo_others.
#[local] Instance wit_clock : Clock server := fun _ => 0.

Definition motr_world : World server := cluster_world "M0_CONF_HA_PROCESS_STARTED" "online" "passing".
Definition ios_fid : Fid := mkFid 0x7200000000000001 10.
Definition request : EntrypointFields :=
  mkEntrypoint 7 (mkUint128 1 2) "inet:tcp:10.0.0.1" ios_fid "rev" 1 true.

Lemma server_quiet : quiet_others server.
Proof. done. Qed.
Lemma server_rc_total : ffi_rc_total server.
Proof. intros c e. by exists 0, e. Qed.
Lemma server_ids_total : ffi_ids_total server.
Proof. intros c e. by exists (srv_ffi_ids e), e. Qed.

Lemma entrypoint_replied_once_witness :
  (send_entrypoint_request_reply request motr_world).1 = Ret tt
  /\ exists w' c, send_entrypoint_request_reply request motr_world = (Ret tt, w')
    /\ ffi_log w' = [c] /\ answers request motr_world c.
Proof.
  assert (Hr : (send_entrypoint_request_reply request motr_world).1 = Ret tt) by (vm_compute; reflexivity).
  split; [exact Hr|].
  destruct (entrypoint_replied_once request motr_world server_quiet server_rc_total)
    as (o & w' & Ho & [(-> & c & Hl & Ha) | (-> & _)]).
  - exists w', c. split; [exact Ho|]. split; [exact Hl | exact Ha].
  - rewrite Ho in Hr. discriminate Hr.
Defined.

Lemma broadcast_sends_every_note_witness :
  exists ids chunks w', ha_broadcast [mkNote (mkFidStruct 1 2) 1] false [] motr_world = (Ret ids, w')
    /\ ffi_log w' = ffi_log motr_world ++ (bcast_call [] <$> chunks)
    /\ vectors_of [mkNote (mkFidStruct 1 2) 1] chunks
    /\ last_answer [] chunks [] ids (env w').
Proof. apply broadcast_sends_every_note. exact server_ids_total. Defined.

Definition reported : list HAState := [mkHAState ios_fid OFFLINE; mkHAState (mkFid 1 1) UNKNOWN].

Lemma broadcast_reports_states_witness :
  (broadcast_ha_states reported bcast_default None motr_world).1 = Ret [mkMessageId 1 1]
  /\ exists chunks, ffi_log (broadcast_ha_states reported bcast_default None motr_world).2
       = chunks /\ chunks <> [].
Proof.
  assert (Hr : (broadcast_ha_states reported bcast_default None motr_world).1
               = Ret [mkMessageId 1 1]) by (vm_compute; reflexivity).
  split; [exact Hr|].
  destruct (broadcast_reports_states reported bcast_default None motr_world _ _ server_quiet
    server_ids_total eq_refl (run_ret _ _ _ Hr)) as (skip & chunks & -> & _ & Hs & _).
  eexists. split; [reflexivity|]. destruct chunks; [| done].
  apply sublist_nil_r in Hs. discriminate.
Defined.

Lemma nvec_get_answered_witness :
  (ha_nvec_get_reply 5 [mkHaNote "process" (mkNote (mkFidStruct 0x7200000000000001 10) 0)] None
     motr_world).1 = Ret tt.
Proof.
  refine (proj1 (nvec_get_answered 5 _ None motr_world _ _ server_quiet server_rc_total
    (surjective_pairing _) _)).
  vm_compute. discriminate.
Defined.

Lemma nvec_set_rolls_back_witness :
  state_notes (nvec_set_states [mkHaNote "d" (mkNote (mkFidStruct 1 2) M0_NC_REPAIR)])
  = [mkNote (mkFidStruct 1 2) M0_NC_FAILED].
Proof.
  rewrite nvec_set_rolls_back; [reflexivity|]. repeat constructor; cbn; lia.
Defined.
End Witnesses.
