(* ===== verification/HaEvents.v ===== *)
(** * HA events ([src/hax/hax/ha/])

    The producer side: a [Resource] turned into a health event and sent to the
    interfaces subscribed to ([ha.py], [event/], [resource/], [message_type/],
    [message_interface.py]), the subscriptions ([utils.py]); the consumer side:
    the thread that polls HA events and its handler of node events ([thread.py],
    [handler/node.py]).  [CortxUtils] is the interface of the package cortx.utils:
    configuration, health events and the message bus. *)

From S2P Require Import Prelude PyStr Json HaxTypes Message LinkedList Planner Delivery World.
From S2P Require Import Cache Consul ConsulUtil ConfTree ProcStatus Motr.

Class CortxUtils (E : Type) := {
  cortx_importable : bool;                                  (* no ImportError *)
  conf_machine_id : M E string;                             (* str(Conf.machine_id) *)
  conf_load : string -> M E unit;                           (* Conf.load('cortx_conf', path) *)
  conf_get : string -> M E (option string);                 (* Conf.get('cortx_conf', key) *)
  bus_init : list (option string) -> M E unit;              (* MessageBus.init *)
  bus_list_message_types : M E (list string);
  bus_register_message_type : string -> Z -> M E unit;
  producer_new : string -> M E unit;                        (* MessageProducer(message_type=...) *)
  producer_send : string -> json -> M E unit;               (* message type, event *)
  consumer_new : string -> string -> M E unit;              (* MessageConsumer: group, topic *)
  consumer_receive : M E (option string);
  consumer_ack : M E unit;
  health_attr : string -> string;                           (* HealthAttr.<name>.value *)
  health_event_json : list (string * json) -> json -> json; (* HealthEvent, specific info; .json *)
}.

(** [resource.type] has one class, [Node]. *)
Record Resource : Type := mkResource { res_id : string; res_name : string; res_status : string }.

Definition NOT_DEFINED : string := "NOT_DEFINED".

(** [HaUtils.resource_types], [HaUtils.interface_types]. *)
Definition resource_types : list string := ["node"].
Definition interface_types : list string := ["health_message"].

Definition TOPIC_HEALTH : string := "cortx_health_events".

(** The text of an exception. *)
Definition exn_text (e : exn) : string :=
  match e with
  | HAConsistencyException m | ConfdQuorumException m | RepairRebalanceException m
  | BytecountException m | RuntimeError m | OtherException m | KeyError m | MissingKeyError m => m
  | _ => ""
  end.

(** [s in l] for a parsed value [l]. *)
Definition str_in (s : string) (l : json) : outcome bool :=
  match l with
  | JArr xs => Ret (in_strings s xs)
  | JStr t => Ret (py_in s t)
  | JObj kvs => Ret (bool_decide (is_Some (dict_find s kvs)))
  | _ => Raise TypeError
  end.

(** [l.append(x)] and [l.remove(x)]. *)
Definition py_append (x : string) (l : json) : outcome json :=
  match l with JArr xs => Ret (JArr (xs ++ [JStr x])) | _ => Raise AttributeError end.
Definition py_remove (x : string) (l : json) : outcome json :=
  match l with
  | JArr xs =>
      Ret (JArr (remove_first (fun j => match j with JStr t => String.eqb t x | _ => false end) xs))
  | _ => Raise AttributeError
  end.

(** [Event]: a message of the event manager. *)
Record Event : Type := mkEvent {
  ev_version : json; ev_resource_status : json; ev_event_id : json; ev_resource_type : json;
  ev_cluster_id : json; ev_site_id : json; ev_rack_id : json; ev_storageset_id : json;
  ev_node_id : json; ev_resource_id : json; ev_timestamp : json }.

(** [MessageBusInterface._parse] *)
Definition parse_event (message : string) : outcome Event :=
  data ← loads message;
  payload ← jget "payload" data;
  header ← jget "header" data;
  version ← jget "version" header;
  resource_status ← jget "resource_status" payload;
  event_id ← jget "event_id" header;
  resource_type ← jget "resource_type" payload;
  cluster_id ← jget "cluster_id" payload;
  site_id ← jget "site_id" payload;
  rack_id ← jget "rack_id" payload;
  storageset_id ← jget "storageset_id" payload;
  node_id ← jget "node_id" payload;
  resource_id ← jget "resource_id" payload;
  timestamp ← jget "timestamp" header;
  Ret (mkEvent version resource_status event_id resource_type cluster_id site_id rack_id
         storageset_id node_id resource_id timestamp).

(** [status_map.get(status, ObjHealth.UNKNOWN)] *)
Definition get_status_by_text (status : json) : outcome ObjHealth :=
  match status with
  | JStr s => Ret (if String.eqb s "online" then OK
                   else if String.eqb s "offline" then OFFLINE
                   else if String.eqb s "failed" then FAILED else UNKNOWN)
  | JArr _ | JObj _ => Raise TypeError
  | _ => Ret UNKNOWN
  end.

Section HaEvents.
Context {E : Type} `{ConsulApi E} `{CortxUtils E} `{Others E} `{Fuel}.
Notation W := (World E).

(** ** Events *)

(** [Node.create_event] and [HaEvent.__init__]: the payload of the event. *)
Definition node_event_payload (r : Resource) : list (string * json) :=
  foldl (fun d '(a, v) => dict_set (health_attr a) v d) []
    [("SOURCE", JStr "hare"); ("CLUSTER_ID", JStr NOT_DEFINED); ("SITE_ID", JStr NOT_DEFINED);
     ("RACK_ID", JStr NOT_DEFINED); ("STORAGESET_ID", JStr NOT_DEFINED);
     ("NODE_ID", JStr (res_id r)); ("RESOURCE_TYPE", JStr "node");
     ("RESOURCE_ID", JStr (res_id r)); ("RESOURCE_STATUS", JStr (res_status r));
     ("SPECIFIC_INFO", JObj [("generation_id", JStr (res_name r))])].

Definition create_event (r : Resource) : outcome json :=
  let payload := node_event_payload r in
  specific_info ← dict_get "specific_info" (dict_find "specific_info" payload);
  Ret (health_event_json payload specific_info).

(** ** Subscriptions *)
Definition subscription (resource_type : string) : M W kvdata :=
  kv_get ("events/subscription/" +:+ resource_type) None (Some true) None.

Definition get_subscribers (resource_type : option string) : M W json :=
  cached ← gets subscriber_list_cached;
  if (cached : bool) then gets subscriber_list
  else
    l ← (match resource_type with
         | Some t =>
             if String.eqb t "" then mret (JArr [])
             else subscribers ← subscription t;
                  i ← lift (item_of subscribers);
                  lift (loads_value (Value i))
         | None =>
             l ← fold_m (fun l t =>
               subscribers ← subscription t;
               if kv_truthy subscribers then
                 i ← lift (item_of subscribers);
                 j ← lift (loads_value (Value i));
                 mret (l ++ [j])
               else mret l) [] resource_types;
             mret (JArr l)
         end);
    modify (set_subscribers l true) ;; mret l.

(** [HaUtils(consul_util)] *)
Definition ha_utils_init : M W unit := get_subscribers None ;; mret tt.

(** The loops of [event_subscribe] and [event_unsubscribe] differ in how the
    list is changed. *)
Definition subscription_loop (invalid_type : string) (change : string -> json -> outcome json)
    (data : list (string * json)) : M W unit :=
  for_each data (fun '(item, v) =>
    if negb (existsb (String.eqb item) resource_types)
    then raise (OtherException (invalid_type +:+ item +:+ ")"))
    else
      match v with
      | JStr iface =>
          if negb (existsb (String.eqb iface) interface_types)
          then raise (OtherException ("Invalid interface type(" +:+ iface +:+ ")"))
          else
            subscriber ← subscription item;
            l ← (if kv_truthy subscriber then
                   i ← lift (item_of subscriber); lift (loads_value (Value i))
                 else mret (JArr []));
            l' ← lift (change iface l);
            kv_put ("events/subscription/" +:+ item) (dumps l') None None ;;
            cached ← gets subscriber_list_cached;
            modify (set_subscribers l' cached)
      | _ => raise (OtherException ("Invalid interface type(" +:+ py_str v +:+ ")"))
      end).

Definition event_subscribe (data : list (string * json)) : M W unit :=
  subscription_loop "Invalid resource type("
    (fun iface l => there ← str_in iface l; if (there : bool) then Ret l else py_append iface l) data.

Definition event_unsubscribe (data : list (string * json)) : M W unit :=
  subscription_loop "Invalid reource type("
    (fun iface l => there ← str_in iface l; if (there : bool) then py_remove iface l else Ret l) data.

(** ** Message bus *)
Definition initialize_bus : M W unit :=
  configpath ← get_configpath true;
  match configpath with
  | Some path =>
      if String.eqb path "" then
        raise (OtherException "initialize_bus skipped as configpath not found")
      else
        on_env (conf_load path) ;;
        n ← on_env (conf_get "cortx>external>kafka>num_endpoints");
        num_kafka ← lift (match n with Some s => py_int 10 s | None => Raise TypeError end);
        endpoints ← map_m (fun i =>
          on_env (conf_get ("cortx>external>kafka>endpoints[" +:+ dec_str (Z.of_nat i) +:+ "]")))
          (seq 0 (Z.to_nat num_kafka));
        on_env (bus_init endpoints)
  | None => raise (OtherException "initialize_bus skipped as configpath not found")
  end.

Definition register_message_type (message_type : string) : M W unit :=
  catch (types ← on_env bus_list_message_types;
         if existsb (String.eqb message_type) types then mret tt
         else on_env (bus_register_message_type message_type 1))
    (fun e => if py_in "TOPIC_ALREADY_EXISTS" (exn_text e) then Some (mret tt) else None).

Definition create_producer (message_type : string) : M W unit :=
  register_message_type message_type ;; on_env (producer_new message_type).

(** [HealthMessage.send]: one topic. *)
Definition health_message_send (event : json) : M W unit :=
  initialize_bus ;; create_producer TOPIC_HEALTH ;; on_env (producer_send TOPIC_HEALTH event).

(** [InterfaceMapping[interface]()]: a list is not hashable. *)
Definition interface_lookup (interface : json) : outcome unit :=
  match interface with
  | JStr s => if String.eqb s "health_message" then Ret tt else Raise (KeyError s)
  | JArr _ | JObj _ => Raise TypeError
  | _ => Raise (KeyError (py_str interface))
  end.

(** [NodeEvent.send] with [HaEvent.get_subscribers]. *)
Definition node_event_send (event : json) : M W unit :=
  ha_utils_init ;;
  subscribers ← get_subscribers (Some "node");
  l ← lift (jiter subscribers);
  for_each l (fun interface => lift (interface_lookup interface) ;; health_message_send event).

(** ** Producer *)
Definition send_event (res : Resource) : M W unit :=
  event ← lift (create_event res); node_event_send event.

(** [check_and_send(parent_resource_type=ObjT.NODE, ...)] *)
Definition check_and_send (fid : Fid) (resource_status : string) : M W unit :=
  s ← get_local_node_status;
  go ← (if String.eqb s resource_status then is_proc_local fid else mret false);
  if (go : bool) then
    resource_name ← get_process_node fid None;
    resource_id ← on_env conf_machine_id;
    send_event (mkResource resource_id resource_name resource_status)
  else mret tt.

(** [status == OFFLINE and am_i_rc() or is_proc_local(fid)] *)
Definition generate_event_for_process (ha_state : HAState) : M W (option Resource) :=
  rc ← (if bool_decide (status ha_state = OFFLINE) then am_i_rc else mret false);
  go ← (if (rc : bool) then mret true else is_proc_local (fid ha_state));
  if (go : bool) then
    node_name ← get_process_node (fid ha_state) None;
    node_fid ← get_node_fid node_name true None;
    state ← get_process_based_node_state node_fid;
    resource_id ← get_machineid_by_nodename node_name false None;
    match resource_id with
    | Some i => mret (if String.eqb i "" then None else Some (mkResource i node_name state))
    | None => mret None
    end
  else mret None.

Definition ha_broadcast_events (ha_states : list HAState) : M W unit :=
  for_each ha_states (fun st =>
    if container (fid st) =? ObjT_value PROCESS then
      resource ← generate_event_for_process st;
      match resource with
      | Some r => catch (send_event r) (fun _ => Some (mret tt))
      | None => mret tt
      end
    else mret tt).

(** ** Consumer *)
Definition create_listener : M W unit :=
  host ← get_local_nodename;
  initialize_bus ;;
  on_env (consumer_new ("hare_" +:+ host) "ha_event_hare").

(** [get_next_message(timeout)] *)
Definition get_next_message : M W (option Event) :=
  message ← catch (on_env consumer_receive) (fun _ => Some (mret None));
  match message with
  | Some m => e ← lift (parse_event m); mret (Some e)
  | None => mret None
  end.

(** [NodeEventHandler.handle] *)
Definition node_handle (msg : Event) : M W unit :=
  node_name ← get_node_name_by_machineid (py_str (ev_resource_id msg)) true None;
  match node_name with
  | None => mret tt
  | Some name =>
      if String.eqb name "" then mret tt
      else
        node_fid ← get_node_fid name true None;
        match node_fid with
        | None => mret tt
        | Some f =>
            h ← lift (get_status_by_text (ev_resource_status msg));
            planner_add_command (BroadcastHAStates [mkHAState f h] None)
        end
  end.

(** [EventPollingThread._process]; any exception is logged. *)
Definition process_ha_event (message : Event) : M W unit :=
  catch (match ev_resource_type message with
         | JStr t => if String.eqb t "node" then node_handle message else mret tt
         | JArr _ | JObj _ => raise TypeError
         | _ => mret tt
         end)
    (fun _ => Some (mret tt)).

(** [stopped] is the name of the attribute in [events_set]. *)
Fixpoint handle_next_messages (n : nat) (stopped : nat) : M W unit :=
  match n with
  | O => hang
  | S n' =>
      stop ← gets (fun w => bool_decide (stopped ∈ events_set w));
      if (stop : bool) then mret tt
      else
        msg ← get_next_message;
        match msg with
        | None => mret tt
        | Some m => process_ha_event m ;; on_env consumer_ack ;; handle_next_messages n' stopped
        end
  end.

Fixpoint polling_loop (n : nat) (stopped event : nat) : M W unit :=
  match n with
  | O => hang
  | S n' =>
      stop ← gets (fun w => bool_decide (stopped ∈ events_set w));
      if (stop : bool) then mret tt
      else handle_next_messages fuel stopped ;; wait_for_event event ;; polling_loop n' stopped event
  end.

(** [EventPollingThread._execute] *)
Definition polling_execute (stopped event : nat) : M W unit :=
  catch (create_listener ;; polling_loop fuel stopped event) (fun _ => Some (mret tt)).
End HaEvents.
