(* ===== verification/HaSimulator.v ===== *)
(** * The simulator of HA events ([src/ha-simulator/prod_consumer.py])

    A tool that sends events of nodes over the message bus to hax and can read them
    back.  [SimBus] is what it uses of the package cortx.utils; [SimQueue] is the
    queue of messages that is behind it.  What the tool prints is the value that
    the model returns. *)

From S2P Require Import Prelude PyStr Json HaxTypes Message LinkedList Planner Delivery World.
From S2P Require Import Cache ConsulStore Consul ConsulUtil ConfTree ProcStatus Demo ProcProps Motr HaEvents.

(** ** Events *)
Definition ACTION_EVENT_VERSION : string := "2.0".

Record myEvent : Type := mkMyEvent {
  me_version : json; me_event_type : json; me_event_id : json; me_resource_type : json;
  me_cluster_id : json; me_site_id : json; me_rack_id : json; me_storageset_id : json;
  me_node_id : json; me_resource_id : json; me_timestamp : json; me_specific_info : json }.

(** [myEvent.__init__]; [host_id] is not kept. *)
Definition myEvent_init (event_id event_type site_id rack_id cluster_id storageset_id node_id host_id
    resource_type timestamp resource_id specific_info : json) : myEvent :=
  mkMyEvent (JStr ACTION_EVENT_VERSION) event_type event_id resource_type cluster_id site_id rack_id
    storageset_id node_id resource_id timestamp specific_info.

Definition event_dict (e : myEvent) : list (string * json) :=
  [("version", me_version e); ("event_type", me_event_type e); ("event_id", me_event_id e);
   ("resource_type", me_resource_type e); ("cluster_id", me_cluster_id e); ("site_id", me_site_id e);
   ("rack_id", me_rack_id e); ("storageset_id", me_storageset_id e); ("node_id", me_node_id e);
   ("resource_id", me_resource_id e); ("timestamp", me_timestamp e);
   ("event_specific_info", me_specific_info e)].

Definition get_json_msg (e : myEvent) : string := dumps (JObj (event_dict e)).

(** ** The message bus *)
Class SimBus (E : Type) := {
  sim_register : string -> Z -> M E unit;       (* MessageBusAdmin.register_message_type *)
  sim_producer : string -> M E unit;            (* MessageProducer(message_type=...) *)
  sim_send : string -> list string -> M E unit; (* MessageProducer.send *)
  sim_consumer : string -> M E unit;            (* MessageConsumer(message_types=[...]) *)
  sim_receive : M E (option string);            (* MessageConsumer.receive *)
}.

(** What [send_event] accepts. *)
Inductive sent : Type := SEvent (e : myEvent) | SOther (j : json).

Section Simulator.
Context {E : Type} `{SimBus E}.

(** [EventProducer.__init__] *)
Definition EventProducer_init (topic : string) : M E unit :=
  catch (sim_register topic 1) (fun _ => Some (mret tt)) ;;
  sim_producer topic.

(** [EventProducer.send_event] *)
Definition sim_send_event (topic : string) (event : sent) : M E unit :=
  let event_to_send := match event with SEvent e => get_json_msg e | SOther j => dumps j end in
  sim_send topic [event_to_send].

(** [EventConsumer.receive_events]: the events that are printed. *)
Fixpoint receive_events (n : nat) : M E (list json) :=
  match n with
  | O => hang
  | S n' =>
      message ← catch (sim_receive) (fun _ => Some (mret None));
      match message with
      | Some m =>
          if String.eqb m "" then mret []
          else data ← lift (loads m); rest ← receive_events n'; mret (data :: rest)
      | None => mret []
      end
  end.

Definition message_topic : string := "ha_event_hare".

(** The event that [main] sends, with its type. *)
Definition node_event (event_type : string) : myEvent :=
  myEvent_init (JStr "event_id") (JStr event_type) (JStr "1") (JStr "1") (JStr "1") (JStr "1")
    (JStr "storage-node3") (JStr "storage-node3") (JStr "node") (JStr "16215009572")
    (JStr "e0cc8319be24430d9c3b34035892a669") (JObj [("namespace", JStr "cortx")]).

Definition sim_main (n : nat) : M E (list json) :=
  EventProducer_init message_topic ;;
  sim_send_event message_topic (SEvent (node_event "failed")) ;;
  sim_send_event message_topic (SEvent (node_event "online")) ;;
  sim_consumer message_topic ;;
  receive_events n.
End Simulator.

(** The bus delivers every message once, in the order of sending; [receive] on an
    empty queue answers nothing. *)
Class SimQueue (E : Type) `{SimBus E} := {
  pending : E -> list string;
  register_law topic n e : exists r e', sim_register topic n e = (r, e') /\ r <> Hang /\ pending e' = pending e;
  producer_law topic e : exists e', sim_producer topic e = (Ret tt, e') /\ pending e' = pending e;
  send_law topic ms e : exists e', sim_send topic ms e = (Ret tt, e') /\ pending e' = pending e ++ ms;
  consumer_law topic e : exists e', sim_consumer topic e = (Ret tt, e') /\ pending e' = pending e;
  receive_law e : exists e', sim_receive e = (Ret (hd_error (pending e)), e') /\ pending e' = List.tl (pending e) }.

(** The fields of an event are values of JSON. *)
Definition plain_event (e : myEvent) : Prop := Forall (fun kv => wf_json kv.2) (event_dict e).

Lemma event_wf e : plain_event e -> wf_json (JObj (event_dict e)).
Proof. intros He. constructor; [| done]. apply (bool_decide_unpack _). reflexivity. Qed.


Lemma node_event_plain t : plain_event (node_event t).
Proof.
  unfold plain_event, node_event, myEvent_init, event_dict. cbn.
  repeat constructor; cbn; try by apply (bool_decide_unpack _).
Qed.

(** ** The tool reads back what it sent *)
Section Queue.
Context {E : Type} `{SimQueue E}.

Lemma receive_all (js : list json) n e :
  Forall wf_json js -> pending e = dumps <$> js -> (length js < n)%nat ->
  exists e', receive_events n e = (Ret js, e') /\ pending e' = [].
Proof.
  intros Hwf. revert n e. induction Hwf as [| j js Hj Hwf IH]; intros n e He Hn.
  - destruct n as [| n]; [cbn in Hn; lia|]. destruct (receive_law e) as (e' & Er & Ep). rewrite He in Er, Ep. exists e'.
    split; [| done]. cbn [receive_events]. unfold mbind, M_bind, catch. by rewrite Er.
  - destruct n as [| n]; [cbn in Hn; lia|]. destruct (receive_law e) as (e' & Er & Ep). rewrite He in Er, Ep. cbn in Er, Ep.
    destruct (IH n e' Ep) as (e2 & E2 & P2); [cbn in Hn; lia|]. exists e2. split; [| done].
    cbn [receive_events]. rewrite (bind_unfold_Ret _ _ e (Some (dumps j)) e') by (unfold catch; by rewrite Er).
    destruct (String.eqb_spec (dumps j) "") as [Ed | _]; [by destruct (dumps_nonempty j)|].
    rewrite (loads_dumps_wf j Hj). rewrite (bind_unfold_Ret _ _ e' j e') by done.
    by rewrite (bind_unfold_Ret _ _ _ _ _ E2).
Qed.

(** The simulator ends, with nothing left on the topic: it prints the events
    that were on the topic before, then the two events of its own that it sent, as
    they were before they were turned into text. *)
Theorem simulator_reads_back js n e :
  Forall wf_json js -> pending e = dumps <$> js -> (length js + 2 < n)%nat ->
  exists e', sim_main n e =
      (Ret (js ++ [JObj (event_dict (node_event "failed")); JObj (event_dict (node_event "online"))]), e') /\
    pending e' = [].
Proof.
  intros Hjs He Hn. unfold sim_main, EventProducer_init, sim_send_event.
  destruct (register_law message_topic 1 e) as (r & e1 & R1 & Hr & P1).
  destruct (producer_law message_topic e1) as (e2 & R2 & P2).
  destruct (send_law message_topic [get_json_msg (node_event "failed")] e2) as (e3 & R3 & P3).
  destruct (send_law message_topic [get_json_msg (node_event "online")] e3) as (e4 & R4 & P4).
  destruct (consumer_law message_topic e4) as (e5 & R5 & P5).
  destruct (receive_all (js ++ [JObj (event_dict (node_event "failed")); JObj (event_dict (node_event "online"))]) n e5)
    as (e6 & R6 & P6).
  { apply Forall_app. split; [done|].
    apply Forall_cons; split; [| apply Forall_singleton]; apply event_wf, node_event_plain. }
  { rewrite P5, P4, P3, P2, P1, He, fmap_app, <- app_assoc. done. }
  { rewrite length_app. cbn. lia. }
  exists e6. split; [| done].
  assert (Rc : catch (sim_register message_topic 1) (fun _ => Some (mret tt)) e = (Ret tt, e1)).
  { unfold catch. rewrite R1. by destruct r as [[] | |]. }
  rewrite (bind_unfold_Ret _ _ e tt e2) by (by rewrite (bind_unfold_Ret _ _ _ _ _ Rc)).
  rewrite (bind_unfold_Ret _ _ _ _ _ R3), (bind_unfold_Ret _ _ _ _ _ R4), (bind_unfold_Ret _ _ _ _ _ R5). exact R6.
Qed.
End Queue.

(** ** Hax on the other end of the topic *)


Section Listener.
Context {E : Type} `{ConsulApi E} `{CortxUtils E} `{Others E} `{Fuel}.
Notation W := (World E).







End Listener.

(** ** Witnesses *)
Section Witnesses.

(** A bus that is a list of messages, on which the topic is registered already *)
#[local] Instance list_bus : SimBus (list string) := {|
  sim_register _ _ := raise (OtherException "TOPIC_ALREADY_EXISTS"); sim_producer _ := mret tt;
  sim_send _ ms := modify (fun q => q ++ ms); sim_consumer _ := mret tt;
  sim_receive q := (Ret (hd_error q), List.tl q) |}.

#[local] Instance list_queue : SimQueue (list string).
Proof.
  refine {| pending := fun q => q |}.
  - intros topic n q. by exists (Raise (OtherException "TOPIC_ALREADY_EXISTS")), q.
  - intros topic q. by exists q.
  - intros topic ms q. by exists (q ++ ms).
  - intros topic q. by exists q.
  - intros q. by exists (List.tl q).
Defined.

Lemma simulator_reads_back_witness :
  exists q, sim_main 5 [dumps (JStr "old")] =
      (Ret [JStr "old"; JObj (event_dict (node_event "failed")); JObj (event_dict (node_event "online"))], q) /\
    q = [].
Proof.
  destruct (simulator_reads_back [JStr "old"] 5 [dumps (JStr "old")]) as (q & Eq & Pq);
    [by repeat constructor | done | cbn; lia|].
  exists q. split; [exact Eq | exact Pq].
Defined.

#[local] Instance sim_fuel : Fuel := demo_fuel.
#[local] Instance sim_others : Others server := demo_others.

(** The messages of the bus are kept with the members of the server; [null] for a time at which
    there is none. *)
Definition pop_message : M server (option string) := fun s =>
  match srv_members s with
  | j :: rest =>
      (Ret (match j with JStr m => Some m | _ => None end),
       mkServer (srv_store s) (srv_up s) (srv_catalog s) (srv_health s) (srv_sessions s) rest
         (srv_node_name s) (srv_ffi_ids s))
  | [] => (Ret None, s)
  end.

#[local] Instance sim_cortx : CortxUtils server := {|
  cortx_importable := true; conf_machine_id := mret "1"; conf_load _ := mret tt;
  conf_get _ := mret (Some "0"); bus_init _ := mret tt; bus_list_message_types := mret [];
  bus_register_message_type _ _ := mret tt; producer_new _ := mret tt; producer_send _ _ := mret tt;
  consumer_new _ _ := mret tt; consumer_receive := pop_message;
  consumer_ack := mret tt; health_attr s := s; health_event_json p _ := JObj p |}.





End Witnesses.
