(* ===== verification/Handler.v ===== *)
(** * The consumer threads ([src/hax/hax/handler.py])

    [ConsumerThread]: the worker that takes commands from the planner and carries
    them out.  [worker_round] is one turn of the loop of [_do_work],
    [handle_message] the chain of [isinstance] tests.  [DateTime] is
    [str(datetime.datetime.now())]. *)

From S2P Require Import Prelude PyStr Json HaxTypes Message LinkedList Planner Delivery World.
From S2P Require Import Cache Consul Queue ConsulUtil ConfTree ProcStatus Motr HaEvents.

Class DateTime (E : Type) := now_text : World E -> string.

(** [l[i]] *)
Definition py_index {A} (i : Z) (l : list A) : outcome A :=
  if 0 <=? i then index_get (Z.to_nat i) l
  else if 0 <=? i + Z.of_nat (length l) then index_get (Z.to_nat (i + Z.of_nat (length l))) l
  else Raise IndexError.

(** [proc_Health_to_status.get(health)] *)
Definition proc_Health_to_status (h : ObjHealth) : option m0HaProcessEvent :=
  match h with
  | OFFLINE | FAILED => Some M0_CONF_HA_PROCESS_STOPPED
  | OK => Some M0_CONF_HA_PROCESS_DTM_RECOVERED
  | RECOVERING => Some M0_CONF_HA_PROCESS_STARTED
  | _ => None
  end.

Definition with_event (e : m0HaProcessEvent) (ev : ConfHaProcess) : ConfHaProcess :=
  mkConfHaProcess (event_value e) (chp_type ev) (chp_pid ev) (chp_fid ev).

Section Handler.
Context {E : Type} `{ConsulApi E} `{MotrFfi E} `{CortxUtils E} `{Others E} `{Fuel} `{Clock E}
  `{DateTime E}.
Notation W := (World E).
Notation retry := (repeat_if_fails (-1)).

(** ** Process events *)
Definition broadcast_process_state (event : ConfHaProcess) : M W unit :=
  hax_fid ← get_hax_fid None;
  event_type ← lift (if fid_eqb (chp_fid event) hax_fid
                     then Ret (ptype_name M0_CONF_HA_PROCESS_HA)
                     else t ← ptype_of_value (chp_type event); Ret (ptype_name t));
  state ← lift (py_index (chp_event event) ha_process_events);
  let payload := dumps (JObj [("fid", JStr (fid_repr (chp_fid event))); ("state", JStr state);
                              ("type", JStr event_type)]) in
  now_time ← gets now_text;
  publish BQPublisher now_time "PROCESS-STATE-UPDATE" payload ;; mret tt.

Definition is_event (event : ConfHaProcess) (e : m0HaProcessEvent) : bool :=
  chp_event event =? event_value e.
Definition is_type (event : ConfHaProcess) (t : m0HaProcessType) : bool :=
  chp_type event =? ptype_value t.

(** The first part of [_update_process_status]: the health to broadcast, if any,
    and the event object after its [chp_event] may have been overwritten. *)
Definition event_health (event : ConfHaProcess) : M W (ConfHaProcess * option ObjHealth) :=
  if is_event event M0_CONF_HA_PROCESS_DTM_RECOVERED
     || is_event event M0_CONF_HA_PROCESS_STARTED || is_event event M0_CONF_HA_PROCESS_STOPPED then
    svc_status ← lift (processEventToObjHealth (chp_type event) (chp_event event));
    confd ← (if is_event event M0_CONF_HA_PROCESS_STARTED && is_type event M0_CONF_HA_PROCESS_M0D
             then is_process_confd (chp_fid event) else mret false);
    online ← (if (confd : bool) then mret true
              else hax_fid ← get_hax_fid None; mret (fid_eqb (chp_fid event) hax_fid));
    if (online : bool)
    then mret (with_event M0_CONF_HA_PROCESS_DTM_RECOVERED event, Some OK)
    else mret (event, Some svc_status)
  else mret (event, None).

(** [ConsulUtil()]: an object of its own, with no node items cached. *)
Definition with_new_consul_util (m : M W unit) : M W unit :=
  saved ← gets all_node_items;
  modify (set_all_node_items []) ;;
  try_finally m (modify (set_all_node_items saved)).

Definition report_node_online (fid : Fid) : M W unit :=
  catch (if cortx_importable then with_new_consul_util (check_and_send fid "online") else mret tt)
    (fun _ => Some (mret tt)).

(** The rest of [_update_process_status]. *)
Definition apply_event (event : ConfHaProcess) (svc_status : option ObjHealth) : M W unit :=
  (match svc_status with
   | Some h =>
       broadcast_hax_only ← (if is_type event M0_CONF_HA_PROCESS_M0MKFS then mret true
                             else hax_fid ← get_hax_fid None;
                                  mret (fid_eqb (chp_fid event) hax_fid));
       broadcast_ha_states [mkHAState (chp_fid event) h]
         (mkBcast true true broadcast_hax_only None) None ;; mret tt
   | None => mret tt
   end) ;;
  process_group_lock (chp_fid event) ;;
  update_process_status event ;;
  (if is_type event M0_CONF_HA_PROCESS_M0MKFS then mret tt else broadcast_process_state event) ;;
  process_group_unlock (chp_fid event) ;;
  if is_event event M0_CONF_HA_PROCESS_DTM_RECOVERED then report_node_online (chp_fid event)
  else mret tt.

(** [_update_process_status] is retried with the event object as the failed
    attempt left it. *)
Fixpoint update_process_status_loop (n : nat) (event : ConfHaProcess) : M W unit :=
  match n with
  | O => hang
  | S n' => fun w =>
      let failed (ev : ConfHaProcess) (m : string) (w1 : W) :=
        if stopping w1 then (Raise (HAConsistencyException m), w1)
        else (sleep ;; update_process_status_loop n' ev) w1 in
      match event_health event w with
      | (Ret (ev, svc_status), w1) =>
          match apply_event ev svc_status w1 with
          | (Raise (HAConsistencyException m), w2) => failed ev m w2
          | r => r
          end
      | (Raise (HAConsistencyException m), w1) => failed event m w1
      | (Raise e, w1) => (Raise e, w1)
      | (Hang, w1) => (Hang, w1)
      end
  end.

Definition handle_process_event (event : ConfHaProcess) : M W unit :=
  update_process_status_loop fuel event.

(** ** Failures reported by Consul *)

(** Records the new status and lets the other nodes know. *)
Definition record_failure (proc_status_remote : MotrConsulProcInfo) (proc_status : m0HaProcessEvent)
    (proc_type : m0HaProcessType) (state : HAState) (current_status : ObjHealth)
    : M W (list HAState) :=
  if String.eqb (Consul.proc_status proc_status_remote) (event_name proc_status) then mret []
  else
    let proc_event := mkConfHaProcess (event_value proc_status) (ptype_value proc_type) 0 (fid state) in
    update_process_status proc_event ;;
    broadcast_process_state proc_event ;;
    mret [mkHAState (fid state) current_status].

(** The branches that end in the last [process_group_unlock]: the states reported, or
    [None] where the code has unlocked the group and goes on with the next state.
    [proc_type == M0_CONF_HA_PROCESS_HA] compares a string with an [IntEnum]: it is
    false, and no dynamic fids are revoked. *)
Definition failure_reports (am_rc : bool) (state : HAState) (proc_status_remote : MotrConsulProcInfo)
    (proc_status : m0HaProcessEvent) (proc_type : m0HaProcessType) (current_status : ObjHealth)
    : M W (option (list HAState)) :=
  local ← is_proc_local (fid state);
  if (local : bool) then
    l ← record_failure proc_status_remote proc_status proc_type state current_status;
    mret (Some l)
  else if am_rc then
    proc_node_status ← get_proc_node_health (fid state);
    if bool_decide (proc_node_status = OK) then process_group_unlock (fid state) ;; mret None
    else
      l ← record_failure proc_status_remote proc_status proc_type state current_status;
      mret (Some l)
  else mret (Some []).

(** The body for a process once its group is locked, with each of the calls that
    unlock it. *)
Definition process_failure (am_rc : bool) (acc : list HAState) (state : HAState)
    : M W (list HAState) :=
  current_status ← get_process_current_status (fid state);
  if negb (bool_decide (current_status = OFFLINE) || bool_decide (current_status = FAILED))
  then process_group_unlock (fid state) ;; mret acc
  else
    proc_status_remote ← get_process_status (fid state) None;
    if existsb (String.eqb (proc_type proc_status_remote))
         ["Unknown"; ptype_name M0_CONF_HA_PROCESS_M0MKFS]
    then process_group_unlock (fid state) ;; mret acc
    else
      proc_type ← lift (ptype_str_to_Enum (proc_type proc_status_remote));
      match proc_Health_to_status current_status with
      | None => process_group_unlock (fid state) ;; mret acc
      | Some proc_status =>
          reports ← failure_reports am_rc state proc_status_remote proc_status proc_type current_status;
          match reports with
          | None => mret acc
          | Some l => process_group_unlock (fid state) ;; mret (acc ++ l)
          end
      end.

(** One state of the loop with the [except] clause around it.  An exception can
    only come from a statement after [process_group_fid = state.fid], so the clause
    unlocks the group of this state. *)
Definition failure_state (self_fid : Fid) (am_rc : bool) (acc : list HAState) (state : HAState)
    : M W (list HAState) :=
  if container (fid state) =? ObjT_value PROCESS then
    if fid_eqb (fid state) self_fid then mret acc
    else
      catch (process_group_lock (fid state) ;; process_failure am_rc acc state)
        (fun _ => Some (process_group_unlock (fid state) ;;
                        raise (HAConsistencyException "failed to process ha states")))
  else mret (acc ++ [state]).

(** One call of the decorated function; before the loop [process_group_fid] is
    [None] and nothing is unlocked. *)
Definition process_failures (ha_states : list HAState) : M W (list HAState) :=
  x ← catch (self_fid ← get_hax_fid None; rc ← am_i_rc; mret (self_fid, rc))
         (fun _ => Some (raise (HAConsistencyException "failed to process ha states")));
  fold_m (failure_state (fst x) (snd x)) [] ha_states.

Definition update_process_failure (ha_states : list HAState) : M W (list HAState) :=
  retry (process_failures ha_states).

(** ** Entrypoint requests of a process that (re)starts *)
Definition restart_notify (req : EntrypointFields) : M W unit :=
  restart_count ← get_proc_restart_count (process_fid req);
  hax_fid ← get_hax_fid None;
  server ← (if fid_eqb (process_fid req) hax_fid then mret false
            else client ← is_proc_client (process_fid req); mret (negb client));
  (if (server : bool) && (restart_count >? 1) then
     let proc_event := mkConfHaProcess (event_value M0_CONF_HA_PROCESS_STOPPED)
                         (ptype_value M0_CONF_HA_PROCESS_M0D) 0 (process_fid req) in
     update_process_status proc_event ;;
     broadcast_process_state proc_event ;;
     ids ← broadcast_ha_states [mkHAState (process_fid req) FAILED]
             (mkBcast true true false (Some [process_fid req])) None;
     catch (wait_for_all ids) (fun e => match e with NotDelivered => Some (mret tt) | _ => None end)
   else mret tt) ;;
  set_proc_restart_count (process_fid req) (restart_count + 1).

(** ** Commands *)
Definition reply_put (q : queue_id) (r : reply_item) : M W unit :=
  modify (fun w => set_replies (<[q := default [] (reply_queues w !! q) ++ [r]]> (reply_queues w)) w).

(** [motr.broadcast_ha_states(states, update_kv=False)] for states that may be
    [None]: the attribute access on the first [None] raises. *)
Fixpoint before_none (states : list (option HAState)) : list HAState :=
  match states with
  | Some st :: l => st :: before_none l
  | _ => []
  end.

Definition broadcast_optional (states : list (option HAState)) : M W unit :=
  let args := mkBcast true false false None in
  match mapM id states with
  | Some l => broadcast_ha_states l args None ;; mret tt
  | None =>
      supports_consul_cache (fun kv =>
        hax_fid ← get_hax_fid None;
        fold_m (broadcast_state args hax_fid kv) [] (before_none states) ;;
        raise AttributeError) None
  end.

Definition handle_process_ha_event (f : Fid) (ptype : m0HaProcessType)
    (states : list (option HAState)) : M W unit :=
  local ← is_proc_local f;
  if (local : bool) then mret tt
  else
    broadcast_optional states ;;
    first ← lift (index_get 0 states);
    st ← lift (match first with Some st => Ret st | None => Raise AttributeError end);
    ev ← lift (objHealthToProcessEvent (status st));
    update_process_status_local (mkConfHaProcess (event_value ev) (ptype_value ptype) 0 f).

Definition handle_broadcast (states : list HAState) (reply_to : option queue_id) : M W unit :=
  ha_states ← update_process_failure states;
  result ← broadcast_ha_states ha_states bcast_default None;
  (if cortx_importable then ha_broadcast_events ha_states else mret tt) ;;
  match reply_to with Some q => reply_put q (ReplyIds result) | None => mret tt end.

(** The chain of [isinstance] tests of [_do_work].  [eq_publisher.publish] is
    called with two of its three arguments. *)
Definition handle_message (item : BaseMessage) : M W unit :=
  match item with
  | FirstEntrypointRequest r => restart_notify r ;; send_entrypoint_request_reply r
  | EntrypointRequest r => send_entrypoint_request_reply r
  | ProcessEvent evt => handle_process_event evt
  | ProcessHaEvent f ptype states => handle_process_ha_event f ptype states
  | HaNvecGetEvent hax_msg nvec => retry (ha_nvec_get_reply hax_msg nvec None)
  | HaNvecSetEvent _ nvec => retry (ha_nvec_set_process nvec)
  | BroadcastHAStates states reply_to => handle_broadcast states reply_to
  | StobIoqError _ => raise TypeError
  | SnsRepairStatus f q => st ← get_repair_status f; reply_put q (ReplyStatus st)
  | SnsRebalanceStatus f q => st ← get_rebalance_status f; reply_put q (ReplyStatus st)
  | SnsRebalanceStart f => start_rebalance f
  | SnsRebalanceStop f => stop_rebalance f
  | SnsRebalancePause f => pause_rebalance f
  | SnsRebalanceResume f => resume_rebalance f
  | SnsRepairStart f => start_repair f
  | SnsRepairStop f => stop_repair f
  | SnsRepairPause f => pause_repair f
  | SnsRepairResume f => resume_repair f
  | Die => raise StopIteration
  | SnsDiskAttach _ | SnsDiskDetach _ => mret tt
  end.

(** [planner.get_next_command()] blocks while no command is allowed. *)
Fixpoint planner_get_next_command (n : nat) : M W Cmd := fun w =>
  let '(c, wp) := next_cmd (next_oid w) (work_planner w) in
  match c, n with
  | Some cmd, _ => (Ret cmd, set_planner wp (S (next_oid w)) w)
  | None, O => (Hang, w)
  | None, S n' => planner_get_next_command n' (others (set_planner wp (next_oid w) w))
  end.

Definition planner_notify_finished (item : Cmd) : M W unit :=
  modify (fun w => set_planner (notify_finished item (work_planner w)).1 (next_oid w) w).

(** One turn of the loop: whether the thread goes on.  [except Exception] does not
    match [SystemExit]; no call made for a message raises it, and [catch] does not
    tell it apart. *)
Definition worker_round : M W bool :=
  item ← planner_get_next_command fuel;
  try_finally
    (catch (handle_message (cmd_msg item) ;; mret true)
       (fun e => match e with StopIteration => Some (mret false) | _ => Some (mret true) end))
    (planner_notify_finished item).

Fixpoint worker_loop (n : nat) : M W unit :=
  match n with
  | O => hang
  | S n' => more ← worker_round; if (more : bool) then worker_loop n' else mret tt
  end.

Definition do_work (n : nat) (idx : Z) : M W unit :=
  worker_loop n ;; if idx =? 0 then stop else mret tt.
End Handler.
