(* ===== verification/HandlerProps.v ===== *)
(** * Properties of the consumer threads

    A worker survives every exception and reports each command as finished; the
    process locks are balanced where failures are handled; only confirmed failures
    of processes this hax answers for are passed on. *)

From S2P Require Import Prelude PyStr Json HaxTypes Message LinkedList Planner Delivery World.
From S2P Require Import Cache ConsulStore Consul Queue ConsulUtil ConfTree ProcStatus Demo.
From S2P Require Import ProcProps Frame Motr HaEvents Handler.

(** ** The worker loop *)

(** C5: a turn of a worker never raises: it blocks, or it takes one command from the
    planner, carries it out, whatever exception that raises, and reports this command,
    once, as finished; after a [Die] the thread leaves its loop. *)
Theorem worker_round_finishes_its_command {E} `{ConsulApi E} `{MotrFfi E} `{CortxUtils E}
    `{Others E} `{Fuel} `{Clock E} `{DateTime E} (w w' : World E) o :
  worker_round w = (o, w') -> o <> Hang ->
  exists cmd w1 r w2 more, planner_get_next_command fuel w = (Ret cmd, w1)
    /\ handle_message (cmd_msg cmd) w1 = (r, w2) /\ r <> Hang
    /\ w' = set_planner (notify_finished cmd (work_planner w2)).1 (next_oid w2) w2
    /\ o = Ret more /\ (cmd_msg cmd = Die -> more = false)
    /\ (more = true -> r <> Raise StopIteration).
Proof.
  intros Hr Hn. unfold worker_round in Hr.
  assert (Hget : forall n v e v', planner_get_next_command n v <> (Raise e, v')).
  { induction n as [| n IH]; intros v e v'; cbn; destruct (next_cmd _ _) as [[c |] wp]; try done. }
  destruct (planner_get_next_command fuel w) as [[cmd | e |] w1] eqn:Eg.
  2: by destruct (Hget _ _ _ _ Eg).
  2: { rewrite (bind_unfold_Hang _ _ _ _ Eg) in Hr. by injection Hr as <- _. }
  rewrite (bind_unfold_Ret _ _ _ _ _ Eg) in Hr. unfold try_finally, catch in Hr.
  destruct (handle_message (cmd_msg cmd) w1) as [r w2] eqn:Eh.
  exists cmd, w1, r, w2. destruct r as [u | e |].
  - rewrite (bind_unfold_Ret _ _ _ _ _ Eh) in Hr. injection Hr as <- <-. exists true.
    split_and!; try done. intros Hd. rewrite Hd in Eh. discriminate.
  - rewrite (bind_unfold_Raise _ _ _ _ _ Eh) in Hr.
    exists (match e with StopIteration => false | _ => true end).
    split_and!; try done.
    + destruct e; by injection Hr as _ <-.
    + destruct e; by injection Hr as <- _.
    + intros Hd. rewrite Hd in Eh. by injection Eh as <- _.
    + by destruct e.
  - rewrite (bind_unfold_Hang _ _ _ _ Eh) in Hr. by injection Hr as <- _.
Qed.

(** ** Frames *)
Section HandlerFrame.
Context {E : Type} `{ConsulApi E} `{MotrFfi E} `{CortxUtils E} `{Others E} `{Fuel} `{Clock E}
  `{DateTime E} (R : relation (World E)) `{!Framed R}.

Lemma keeps_publish p t ty payload : keeps R (publish p t ty payload).
Proof.
  unfold publish. apply keeps_retry; [done|]. apply keeps_bind; [done | apply keeps_lift; done |].
  intros j. induction fuel as [| n IH]; cbn [publish_loop]; [apply keeps_hang; done|].
  unfold publish_read, publish_write, kv_put_in_transaction. keeps.
Qed.
#[local] Hint Resolve keeps_publish : keeps.
Lemma keeps_broadcast_process_state event : keeps R (broadcast_process_state event).
Proof. unfold broadcast_process_state. keeps. Qed.
#[local] Hint Resolve keeps_broadcast_process_state : keeps.
Lemma keeps_get_process_current_status f : keeps R (get_process_current_status f).
Proof. unfold get_process_current_status. keeps. Qed.
#[local] Hint Resolve keeps_get_process_current_status : keeps.
Lemma keeps_get_proc_node_health f : keeps R (get_proc_node_health f).
Proof. unfold get_proc_node_health. keeps. Qed.
#[local] Hint Resolve keeps_get_proc_node_health : keeps.
Lemma keeps_record_failure i s t st h : keeps R (record_failure i s t st h).
Proof. unfold record_failure. keeps. Qed.
#[local] Hint Resolve keeps_record_failure : keeps.
End HandlerFrame.

(** ** Locks *)
Definition same_locks {E} (w w' : World E) : Prop := process_locks w' = process_locks w.

(** No other thread takes a lock of a process group. *)
Definition idle_others (E : Type) `{Others E} : Prop := forall w : World E, same_locks w (others w).

#[export] Instance same_locks_preorder E : PreOrder (@same_locks E).
Proof. split; unfold same_locks; [done | congruence]. Qed.

Lemma locks_framed {E} `{Others E} : idle_others E -> Framed (@same_locks E).
Proof. intros Ho. split; try done. apply _. Qed.

Section Locks.
Context {E : Type} `{ConsulApi E} `{MotrFfi E} `{CortxUtils E} `{Others E} `{Fuel} `{Clock E}
  `{DateTime E}.
Context (Hidle : idle_others E).
Notation W := (World E).

(** A call that comes back leaves the locks as they were. *)
Definition balanced {A} (m : M W A) : Prop :=
  forall w o w', m w = (o, w') -> o <> Hang -> same_locks w w'.

Lemma keeps_balanced {A} (m : M W A) : keeps same_locks m -> balanced m.
Proof. intros Hm w o w' Hr _. pose proof (Hm w) as K. by rewrite Hr in K. Qed.

Lemma balanced_bind {A B} (m : M W A) (k : A -> M W B) :
  balanced m -> (forall a, balanced (k a)) -> balanced (m ≫= k).
Proof.
  intros Hm Hk w o w' Hr Hn. unfold mbind, M_bind in Hr.
  destruct (m w) as [[a | e |] w1] eqn:Em.
  - etransitivity; [by eapply Hm | by eapply Hk].
  - injection Hr as <- <-. by eapply Hm.
  - by injection Hr as <- <-.
Qed.

Lemma balanced_fold_m {A S} (f : S -> A -> M W S) s l :
  (forall s x, balanced (f s x)) -> balanced (fold_m f s l).
Proof.
  intros Hf. revert s. induction l as [| x l IH]; intros s; cbn [fold_m].
  - intros w o w' [= _ <-] _. reflexivity.
  - by apply balanced_bind.
Qed.

Lemma balanced_retry {A} mx (f : M W A) : balanced f -> balanced (repeat_if_fails mx f).
Proof.
  intros Hf. unfold repeat_if_fails. generalize 0.
  induction fuel as [| n IH]; intros c w o w' Hr Hn; cbn in Hr; [by injection Hr as <- _|].
  destruct (f w) as [r w1] eqn:Ef.
  destruct r as [a | e |]; [by injection Hr as <- <-; eapply Hf | | by injection Hr as <- _].
  assert (Hw : same_locks w w1) by (by eapply Hf).
  destruct e; try (by injection Hr as _ <-). destruct (stopping w1); [by injection Hr as _ <-|].
  destruct (_ && _); [by injection Hr as _ <-|].
  etransitivity; [exact Hw|]. unfold sleep in Hr. rewrite bind_modify in Hr.
  etransitivity; [apply Hidle | by eapply IH].
Qed.

Lemma acquire_inv n g (w w' : W) o : acquire n g w = (o, w') -> o <> Hang ->
  (o = Ret tt /\ process_locks w !! g = Some false
     /\ process_locks w' = <[g := true]> (process_locks w))
  \/ (o = Raise IndexError /\ same_locks w w').
Proof.
  revert w. induction n as [| n IH]; intros w; cbn [acquire];
    (destruct (process_locks w !! g) as [[]|] eqn:Eg; intros Hr Hn;
     [| injection Hr as <- <-; by left | injection Hr as <- <-; by right]).
  - by injection Hr as <- _.
  - destruct (IH _ Hr Hn) as [(-> & Hg & Hw) | [-> Hw]].
    + rewrite (Hidle w) in Hg. congruence.
    + right. split; [done|]. unfold same_locks in *. by rewrite Hw, (Hidle w).
Qed.

(** The lock of the group [g] is held, by this thread; [L] are the locks without it. *)
Definition holds (f : Fid) (g : nat) (L : list bool) (w : W) : Prop :=
  process_locks w = <[g := true]> L /\ L !! g = Some false /\ group_of f w = Ret g.

(** [m], started with the lock held, has released it when it returns and still
    holds it when it raises. *)
Definition releases {A} (f : Fid) (m : M W A) : Prop := forall g L w o w',
  holds f g L w -> m w = (o, w') ->
  match o with
  | Ret _ => process_locks w' = L
  | Raise _ => holds f g L w'
  | Hang => True
  end.

Lemma holds_same f g L w w' : same_locks w w' -> holds f g L w -> holds f g L w'.
Proof.
  unfold same_locks, holds, group_of. intros ->. by intros (-> & ? & ?).
Qed.

Lemma unlock_runs f g L (w : W) : holds f g L w ->
  process_group_unlock f w = (Ret tt, set_locks L w).
Proof.
  intros (Hl & Hg & Hgr). unfold process_group_unlock, mbind, M_bind. rewrite Hgr.
  unfold release. rewrite Hl, list_lookup_insert_eq by (by eapply lookup_lt_Some).
  do 2 f_equal. by rewrite list_insert_insert_eq, list_insert_id.
Qed.

(** Work that leaves the locks alone, then a computation that releases. *)
Lemma releases_bind {A B} f (m : M W A) (k : A -> M W B) :
  keeps same_locks m -> (forall a, releases f (k a)) -> releases f (m ≫= k).
Proof.
  intros Hm Hk g L w o w' Hw Hr. pose proof (Hm w) as K. unfold mbind, M_bind in Hr.
  destruct (m w) as [[a | e |] w1]; cbn in K.
  - eapply (Hk a); [by eapply holds_same | exact Hr].
  - injection Hr as <- <-. by eapply holds_same.
  - by injection Hr as <- <-.
Qed.

Lemma releases_unlock {A} f (a : A) : releases f (process_group_unlock f ;; mret a).
Proof.
  intros g L w o w' Hw Hr. rewrite (bind_unfold_Ret _ _ _ _ _ (unlock_runs _ _ _ _ Hw)) in Hr.
  by injection Hr as <- <-.
Qed.

(** The two ways the last part of the body ends. *)
Definition releases_some {A} (f : Fid) (m : M W (option A)) : Prop := forall g L w o w',
  holds f g L w -> m w = (o, w') ->
  match o with
  | Ret None => process_locks w' = L
  | Ret (Some _) | Raise _ => holds f g L w'
  | Hang => True
  end.

Lemma releases_some_bind {A B} f (m : M W A) (k : A -> M W (option B)) :
  keeps same_locks m -> (forall a, releases_some f (k a)) -> releases_some f (m ≫= k).
Proof.
  intros Hm Hk g L w o w' Hw Hr. pose proof (Hm w) as K. unfold mbind, M_bind in Hr.
  destruct (m w) as [[a | e |] w1]; cbn in K.
  - eapply (Hk a); [by eapply holds_same | exact Hr].
  - injection Hr as <- <-. by eapply holds_same.
  - by injection Hr as <- <-.
Qed.

Lemma failure_reports_locks `{!Framed (E := E) same_locks} rc st i ev t h :
  releases_some (fid st) (failure_reports rc st i ev t h).
Proof.
  assert (Hrec : releases_some (fid st) (l ← record_failure i ev t st h; mret (Some l))).
  { apply releases_some_bind; [by apply keeps_record_failure|].
    intros l g L w o w' Hw [= <- <-]. exact Hw. }
  unfold failure_reports. apply releases_some_bind; [keeps|]. intros [].
  - exact Hrec.
  - destruct rc; [| intros g L w o w' Hw [= <- <-]; exact Hw].
    apply releases_some_bind; [by apply keeps_get_proc_node_health|]. intros n.
    case_bool_decide; [| exact Hrec]. intros g L w o w' Hw Hr.
    rewrite (bind_unfold_Ret _ _ _ _ _ (unlock_runs _ _ _ _ Hw)) in Hr. by injection Hr as <- <-.
Qed.

Lemma process_failure_releases `{!Framed (E := E) same_locks} rc acc st :
  releases (fid st) (process_failure rc acc st).
Proof.
  unfold process_failure. apply releases_bind; [by apply keeps_get_process_current_status|]. intros h.
  destruct (negb _); [apply releases_unlock|].
  apply releases_bind; [keeps|]. intros i. destruct (existsb _ _); [apply releases_unlock|].
  apply releases_bind; [keeps|]. intros t.
  destruct (proc_Health_to_status h) as [ev |]; [| apply releases_unlock].
  intros g L w o w' Hw Hr. pose proof (failure_reports_locks rc st i ev t h g L w) as K.
  unfold mbind at 1, M_bind at 1 in Hr. destruct (failure_reports _ _ _ _ _ _ w) as [[[l |] | e |] w1];
    specialize (K _ _ Hw eq_refl); cbn in K.
  - by apply (releases_unlock (fid st) (acc ++ l) g L w1).
  - by injection Hr as <- <-.
  - by injection Hr as <- <-.
  - by injection Hr as <- <-.
Qed.

Lemma failure_state_balanced `{!Framed (E := E) same_locks} self rc acc st :
  balanced (failure_state self rc acc st).
Proof.
  unfold failure_state. destruct (_ =? _); [| apply keeps_balanced; keeps].
  destruct (fid_eqb _ _); [apply keeps_balanced; keeps|].
  intros w o w' Hr Hn. unfold process_group_lock, catch in Hr.
  unfold mbind in Hr at 1 2. unfold M_bind in Hr at 1 2.
  destruct (group_of (fid st) w) as [g | e |] eqn:Eg.
  2, 3: unfold process_group_unlock, mbind, M_bind in Hr; rewrite ?Eg in Hr;
    injection Hr as <- <-; done.
  destruct (acquire fuel g w) as [oa w1] eqn:Ea.
  assert (Hna : oa <> Hang) by (intros ->; by injection Hr as <- _).
  destruct (acquire_inv _ _ _ _ _ Ea Hna) as [(-> & Hg & Hw1) | [-> Hw1]].
  - assert (Hh : holds (fid st) g (process_locks w) w1).
    { split_and!; [done | done |]. unfold group_of in *. by rewrite Hw1, length_insert. }
    pose proof (process_failure_releases rc acc st g (process_locks w) w1) as K.
    destruct (process_failure rc acc st w1) as [[l | e |] w2]; specialize (K _ _ Hh eq_refl); cbn in K.
    + by injection Hr as _ <-.
    + rewrite (bind_unfold_Ret _ _ _ _ _ (unlock_runs _ _ _ _ K)) in Hr. by injection Hr as _ <-.
    + by injection Hr as <- _.
  - assert (Hun : process_group_unlock (fid st) w1 = (Raise IndexError, w1)).
    { unfold process_group_unlock, mbind, M_bind.
      assert (group_of (fid st) w1 = Ret g) as ->.
      { unfold group_of in *. by rewrite Hw1. }
      unfold release. assert (process_locks w1 !! g = None) as ->; [| done].
      clear -Ea. revert w Ea. induction fuel as [| n IH]; intros w; cbn [acquire];
        destruct (process_locks w !! g) as [[]|] eqn:E1; try done; [by intros [= <-] | apply IH | by intros [= <-]]. }
    rewrite (bind_unfold_Raise _ _ _ _ _ Hun) in Hr. by injection Hr as _ <-.
Qed.
End Locks.

(** C6: however [update_process_failure] ends, with its result or with an exception, every
    process lock it took has been released: on each of the five paths through the
    body of the loop and in the [except] clause. *)
Theorem failure_locks_balanced {E} `{ConsulApi E} `{MotrFfi E} `{CortxUtils E} `{Others E} `{Fuel}
    `{Clock E} `{DateTime E} ha_states (w w' : World E) o :
  idle_others E -> update_process_failure ha_states w = (o, w') -> o <> Hang ->
  process_locks w' = process_locks w.
Proof.
  intros Hi. pose proof (locks_framed Hi) as Hf. apply (balanced_retry Hi).
  apply balanced_bind; [apply keeps_balanced; keeps|]. intros x.
  apply balanced_fold_m. intros acc st. by apply failure_state_balanced.
Qed.

(** ** What is reported *)
Section Confirmed.
Context {E : Type} `{ConsulApi E} `{MotrFfi E} `{CortxUtils E} `{Others E} `{Fuel} `{Clock E}
  `{DateTime E}.
Notation W := (World E).

Definition is_process (st : HAState) : bool := container (fid st) =? ObjT_value PROCESS.

(** This hax answers for the process: read in the world [w], the process runs on this
    node, or else this is the RC and the node of the process, read next, is not alive. *)
Definition answers_for (rc : bool) (f : Fid) (w : W) : Prop :=
  exists b w1, is_proc_local f w = (Ret b, w1)
    /\ (b = true \/ rc = true /\ exists n w2, get_proc_node_health f w1 = (Ret n, w2) /\ n <> OK).

(** A failure of the process that is to be passed on: the health [h] is a failure,
    the entry of the KV store, read in the world [w], is of a process of a known type
    other than mkfs and does not say yet that it is stopped, and this hax answers for
    the process. *)
Definition confirmed (rc : bool) (f : Fid) (h : ObjHealth) (w : W) : Prop :=
  (h = OFFLINE \/ h = FAILED) /\
  exists info w1, get_process_status f None w = (Ret info, w1)
    /\ proc_type info <> "Unknown" /\ proc_type info <> "M0_CONF_HA_PROCESS_M0MKFS"
    /\ proc_status info <> "M0_CONF_HA_PROCESS_STOPPED"
    /\ answers_for rc f w1.

(** What one given state contributes, in the world in which the loop comes to it. *)
Definition contributes (self : Fid) (rc : bool) (st : HAState) (w : W) (o : list HAState) : Prop :=
  if is_process st then
    if fid_eqb (fid st) self then o = []
    else exists w0 h w1, process_group_lock (fid st) w = (Ret tt, w0)
      /\ get_process_current_status (fid st) w0 = (Ret h, w1)
      /\ (o = [] /\ ~ confirmed rc (fid st) h w1
          \/ o = [mkHAState (fid st) h] /\ confirmed rc (fid st) h w1)
  else o = [st].

(** The loop over the states, from world to world. *)
Inductive loop_run (self : Fid) (rc : bool) : W -> list HAState -> list HAState -> W -> Prop :=
| loop_nil w : loop_run self rc w [] [] w
| loop_cons w st w1 states w' o out :
    failure_state self rc [] st w = (Ret o, w1) -> contributes self rc st w o ->
    loop_run self rc w1 states out w' ->
    loop_run self rc w (st :: states) (o ++ out) w'.

Lemma record_failure_ret i s t st h (w w' : W) l :
  record_failure i s t st h w = (Ret l, w') ->
  l = if String.eqb (proc_status i) (event_name s) then [] else [mkHAState (fid st) h].
Proof.
  unfold record_failure. destruct (String.eqb _ _); [by intros [= <- _]|].
  intros (? & ? & _ & Hr)%bind_Ret. apply bind_Ret in Hr as (? & ? & _ & Hr).
  by injection Hr as <- _.
Qed.

(** The last part of the body: what it reports, and whether this hax answers. *)
Lemma failure_reports_ret rc st i s t h (w w' : W) r :
  failure_reports rc st i s t h w = (Ret r, w') ->
  default [] r = [] /\ ~ answers_for rc (fid st) w
  \/ answers_for rc (fid st) w
     /\ default [] r = (if String.eqb (proc_status i) (event_name s) then [] else [mkHAState (fid st) h]).
Proof.
  unfold failure_reports. intros Hr. apply bind_Ret in Hr as (b & w1 & Hb & Hr).
  assert (Hiff : answers_for rc (fid st) w <-> b = true \/ rc = true
    /\ exists n w2, get_proc_node_health (fid st) w1 = (Ret n, w2) /\ n <> OK).
  { split; [intros (b' & w1' & Hb' & Ha); rewrite Hb in Hb'; by injection Hb' as <- <- | by eexists _, _]. }
  rewrite !Hiff. destruct b.
  { apply bind_Ret in Hr as (l & w2 & Hl & Hr). injection Hr as <- _.
    apply record_failure_ret in Hl. right. eauto. }
  destruct rc; [| injection Hr as <- _; left; naive_solver].
  apply bind_Ret in Hr as (n & w2 & Hn & Hr). case_bool_decide as En.
  - apply bind_Ret in Hr as (? & ? & _ & Hr). injection Hr as <- _. left. split; [done|].
    intros [| (_ & n' & w2' & Hn' & Hok)]; [done|]. rewrite Hn in Hn'. by injection Hn' as <- _.
  - apply bind_Ret in Hr as (l & w3 & Hl & Hr). injection Hr as <- _.
    apply record_failure_ret in Hl. right. split; [| done]. right. split; [done|]. by exists n, w2.
Qed.

Lemma process_failure_ret rc acc st (w w' : W) l :
  process_failure rc acc st w = (Ret l, w') ->
  exists h w1 o, get_process_current_status (fid st) w = (Ret h, w1) /\ l = acc ++ o
    /\ (o = [] /\ ~ confirmed rc (fid st) h w1
        \/ o = [mkHAState (fid st) h] /\ confirmed rc (fid st) h w1).
Proof.
  intros Hr. apply bind_Ret in Hr as (h & w1 & Hh & Hr).
  assert (Hskip : forall v, (process_group_unlock (fid st) ;; mret acc) v = (Ret l, w') -> l = acc ++ []).
  { intros v (? & ? & _ & [= -> _])%bind_Ret. by rewrite app_nil_r. }
  destruct (negb _) eqn:Eh.
  { exists h, w1, []. split_and!; [done | by eapply Hskip | left; split; [done|]].
    intros [[-> | ->] _]; discriminate Eh. }
  assert (Hst : h = OFFLINE \/ h = FAILED) by (by destruct h; auto).
  apply bind_Ret in Hr as (i & w2 & Hi & Hr).
  assert (Hconf : confirmed rc (fid st) h w1 <-> proc_type i <> "Unknown"
     /\ proc_type i <> "M0_CONF_HA_PROCESS_M0MKFS"
    /\ proc_status i <> "M0_CONF_HA_PROCESS_STOPPED" /\ answers_for rc (fid st) w2).
  { split; [intros (_ & i' & w2' & Hi' & Hc); rewrite Hi in Hi'; by injection Hi' as <- <-|].
    intros Hc. split; [done|]. by exists i, w2. }
  destruct (existsb _ _) eqn:Et.
  { exists h, w1, []. split_and!; [done | by eapply Hskip | left; split; [done|]]. rewrite Hconf.
    intros (Hu & Hm & _). apply existsb_exists in Et as (x & Hx & Ex%String.eqb_eq).
    destruct Hx as [<- | [<- | []]]; done. }
  assert (H12 : proc_type i <> "Unknown" /\ proc_type i <> "M0_CONF_HA_PROCESS_M0MKFS").
  { split; intros Ei; by rewrite Ei in Et. }
  apply bind_Ret in Hr as (t & w3 & [_ ->]%lift_inv & Hr).
  assert (Hs : proc_Health_to_status h = Some M0_CONF_HA_PROCESS_STOPPED) by (by destruct Hst as [-> | ->]).
  rewrite Hs in Hr. apply bind_Ret in Hr as (r & w4 & Hrep & Hr).
  exists h, w1, (default [] r). split; [done|]. split.
  { destruct r as [o |]; [apply bind_Ret in Hr as (? & ? & _ & Hr) |]; injection Hr as <- _; [done|].
    by rewrite app_nil_r. }
  rewrite Hconf. destruct (failure_reports_ret _ _ _ _ _ _ _ _ _ Hrep) as [[-> Hn] | [Ha ->]]; [by left; naive_solver|].
  cbn [event_name]. destruct (String.eqb_spec (proc_status i) "M0_CONF_HA_PROCESS_STOPPED");
    [left; naive_solver | right; naive_solver].
Qed.

(** The states reported so far play no part in what the next one does. *)
Definition out_map {A B} (f : A -> B) (o : outcome A) : outcome B :=
  match o with Ret a => Ret (f a) | Raise e => Raise e | Hang => Hang end.

Definition same_but {A B} (f : A -> B) (m' : M W B) (m : M W A) : Prop :=
  forall w, m' w = (out_map f (m w).1, (m w).2).

Lemma same_but_bind {A B C} (f : B -> C) (m : M W A) (k' : A -> M W C) (k : A -> M W B) :
  (forall a, same_but f (k' a) (k a)) -> same_but f (m ≫= k') (m ≫= k).
Proof. intros Hk w. unfold mbind, M_bind. destruct (m w) as [[a | e |] w1]; [apply Hk | done | done]. Qed.

Lemma process_failure_acc rc acc st :
  same_but (app acc) (process_failure rc acc st) (process_failure rc [] st).
Proof.
  assert (Hskip : same_but (app acc) (process_group_unlock (fid st) ;; mret acc)
    (process_group_unlock (fid st) ;; mret [])).
  { apply same_but_bind. intros [] w. cbn. by rewrite app_nil_r. }
  unfold process_failure. apply same_but_bind. intros h. destruct (negb _); [exact Hskip|].
  apply same_but_bind. intros i. destruct (existsb _ _); [exact Hskip|].
  apply same_but_bind. intros t. destruct (proc_Health_to_status h); [| exact Hskip].
  apply same_but_bind. intros [l |]; [by apply same_but_bind|]. intros w. cbn. by rewrite app_nil_r.
Qed.

Lemma failure_state_acc self rc acc st (w w' : W) l :
  failure_state self rc acc st w = (Ret l, w') ->
  exists o, l = acc ++ o /\ failure_state self rc [] st w = (Ret o, w').
Proof.
  unfold failure_state. destruct (_ =? _); [| intros [= <- <-]; by eexists].
  destruct (fid_eqb _ _); [intros [= <- <-]; exists []; by rewrite app_nil_r|].
  pose proof (process_failure_acc rc acc st) as Hpf.
  unfold catch. intros Hr. destruct (process_group_lock (fid st) w) as [[[] | e |] w1] eqn:El.
  - rewrite (bind_unfold_Ret _ _ _ _ _ El) in Hr. rewrite (bind_unfold_Ret _ _ _ _ _ El).
    rewrite Hpf in Hr.
    destruct (process_failure rc [] st w1) as [[o | e |] w2]; cbn in Hr; [| | done].
    + injection Hr as <- <-. by eexists.
    + by apply bind_Ret in Hr as (? & ? & _ & Hr).
  - rewrite (bind_unfold_Raise _ _ _ _ _ El) in Hr. by apply bind_Ret in Hr as (? & ? & _ & Hr).
  - by rewrite (bind_unfold_Hang _ _ _ _ El) in Hr.
Qed.

Lemma failure_state_contributes self rc st (w w' : W) o :
  failure_state self rc [] st w = (Ret o, w') -> contributes self rc st w o.
Proof.
  unfold failure_state, contributes, is_process. destruct (_ =? _); [| by intros [= <- _]].
  destruct (fid_eqb _ _); [by intros [= <- _]|]. unfold catch. intros Hr.
  destruct (process_group_lock (fid st) w) as [[[] | e |] w1] eqn:El.
  - rewrite (bind_unfold_Ret _ _ _ _ _ El) in Hr.
    destruct (process_failure rc [] st w1) as [[o' | e |] w2] eqn:Ef; [| | done].
    + injection Hr as -> _. destruct (process_failure_ret _ _ _ _ _ _ Ef) as (h & v & o' & Hh & -> & Hc).
      by exists w1, h, v.
    + by apply bind_Ret in Hr as (? & ? & _ & Hr).
  - rewrite (bind_unfold_Raise _ _ _ _ _ El) in Hr. by apply bind_Ret in Hr as (? & ? & _ & Hr).
  - by rewrite (bind_unfold_Hang _ _ _ _ El) in Hr.
Qed.

Lemma failure_states_run self rc acc states (w w' : W) l :
  fold_m (failure_state self rc) acc states w = (Ret l, w') ->
  exists out, l = acc ++ out /\ loop_run self rc w states out w'.
Proof.
  revert acc w. induction states as [| st states IH]; intros acc w; cbn [fold_m].
  { intros [= <- <-]. exists []. rewrite app_nil_r. split; [done | constructor]. }
  intros (acc1 & w1 & Hst & Hr)%bind_Ret. apply failure_state_acc in Hst as (o & -> & Hst).
  destruct (IH _ _ Hr) as (out & -> & Hrun). exists (o ++ out). rewrite app_assoc. split; [done|].
  econstructor; [exact Hst | by eapply failure_state_contributes | exact Hrun].
Qed.
End Confirmed.

(** C37: when [update_process_failure] returns, after [n] attempts that were given up, the
    list it returns was built by one pass over the given states in order: a state that
    is not of a process is passed on as it is; one of a process, other than this hax,
    is replaced by the health read again at its turn when that is a failure this pass
    has confirmed, and is dropped otherwise. *)
Theorem only_confirmed_failures_reported {E} `{ConsulApi E} `{MotrFfi E} `{CortxUtils E}
    `{Others E} `{Fuel} `{Clock E} `{DateTime E} ha_states l (w w' : World E) :
  update_process_failure ha_states w = (Ret l, w') ->
  exists n v self v1 rc v2, attempts n (process_failures ha_states) w v
    /\ get_hax_fid None v = (Ret self, v1) /\ am_i_rc v1 = (Ret rc, v2)
    /\ loop_run self rc v2 ha_states l w'.
Proof.
  intros Hr. apply repeat_if_fails_run in Hr as (n & v & Ha & Hi).
  apply bind_Ret in Hi as ([self rc] & v2 & Hx & Hi). unfold catch in Hx.
  match type of Hx with match ?m with _ => _ end = _ => destruct m as [[a | e |] w3] eqn:Em end; try done.
  injection Hx as -> ->. apply bind_Ret in Em as (sf & v1 & Hsf & Em).
  apply bind_Ret in Em as (b & w5 & Hb & Em). injection Em as <- <- <-.
  destruct (failure_states_run _ _ _ _ _ _ _ Hi) as (out & -> & Hrun).
  by exists n, v, sf, v1, b, w5.
Qed.

Lemma acquire_held {E} `{Others E} n g (w : World E) : idle_others E ->
  process_locks w !! g = Some true -> (acquire n g w).1 = Hang.
Proof.
  intros Hi. revert w. induction n as [| n IH]; intros w Hl; cbn; rewrite Hl; [done|].
  apply IH. by rewrite (Hi w).
Qed.

(** An event whose code is none of the five known ones raises while the lock of its process
    group is held and leaves it held: every later event of a process of the group
    blocks for ever. *)
Theorem unknown_event_leaks_lock {E} `{ConsulApi E} `{MotrFfi E} `{CortxUtils E} `{Others E} `{Fuel}
    `{Clock E} `{DateTime E} ev g (w : World E) :
  fuel <> 0%nat -> (chp_event ev < 0 \/ 5 <= chp_event ev) ->
  group_of (chp_fid ev) w = Ret g -> process_locks w !! g = Some false ->
  exists w', handle_process_event ev w = (Raise AssertionError, w')
    /\ (idle_others E -> forall f, group_of f w = Ret g -> (process_group_lock f w').1 = Hang).
Proof.
  intros Hfuel Hout Hg Hl.
  assert (Hev : event_text (chp_event ev) = Raise AssertionError).
  { unfold event_text. destruct (_ && _) eqn:Eb; [| done].
    change (Z.of_nat (length ha_process_events)) with 5 in Eb.
    apply andb_true_iff in Eb as [?%Z.leb_le ?%Z.ltb_lt]. lia. }
  assert (Hh : event_health ev w = (Ret (ev, None), w)).
  { unfold event_health, is_event. cbn [event_value]. by rewrite !(proj2 (Z.eqb_neq _ _)) by lia. }
  set (w1 := set_locks (<[g := true]> (process_locks w)) w).
  assert (Hlk : process_group_lock (chp_fid ev) w = (Ret tt, w1)).
  { unfold process_group_lock, mbind, M_bind. rewrite Hg. by destruct fuel; cbn; rewrite Hl. }
  assert (Hup : update_process_status ev w1 = (Raise AssertionError, w1)).
  { unfold update_process_status, repeat_if_fails. destruct fuel; [done|]. cbn.
    unfold mbind, M_bind, lift. by rewrite Hev. }
  exists w1. split.
  - unfold handle_process_event. destruct fuel as [| n]; [done|]. cbn [update_process_status_loop].
    rewrite Hh. unfold apply_event. rewrite bind_mret, (bind_unfold_Ret _ _ _ _ _ Hlk).
    by rewrite (bind_unfold_Raise _ _ _ _ _ Hup).
  - intros Hi f Hf. unfold process_group_lock, mbind, M_bind.
    assert (group_of f w1 = Ret g) as ->.
    { unfold group_of in *. cbn. by rewrite length_insert. }
    assert (Hheld : process_locks w1 !! g = Some true).
    { cbn. apply list_lookup_insert_eq. by eapply lookup_lt_Some. }
    pose proof (acquire_held fuel g w1 Hi Hheld) as Ha. by destruct (acquire fuel g w1) as [[] ?].
Qed.

(** ** Witnesses *)
Section Witnesses.
#[local] Instance wit_fuel : Fuel := demo_fuel.
#[local] Instance wit_others : Others server := demo_others.
#[local] Instance wit_clock : Clock server := fun _ => 0.
#[local] Instance wit_date : DateTime server := fun _ => "now".

(** No cortx.utils on the node. *)
#[local] Instance wit_cortx : CortxUtils server := {|
  cortx_importable := false; conf_machine_id := mret "1"; conf_load _ := mret tt;
  conf_get _ := mret None; bus_init _ := mret tt; bus_list_message_types := mret [];
  bus_register_message_type _ _ := mret tt; producer_new _ := mret tt; producer_send _ _ := mret tt;
  consumer_new _ _ := mret tt; consumer_receive := mret None; consumer_ack := mret tt;
  health_attr s := s; health_event_json p _ := JObj p |}.

Definition worker_world : World server :=
  cluster_world "M0_CONF_HA_PROCESS_STARTED" "online" "critical".
Definition ios_failed : HAState := mkHAState (mkFid 0x7200000000000001 10) OFFLINE.

Definition queued : World server :=
  set_planner (add_command (mkCmd 0 (SnsRepairStart (mkFid 1 1)) None) planner_init) 1 worker_world.

Lemma worker_round_finishes_its_command_witness :
  exists cmd w1 r w2, planner_get_next_command fuel queued = (Ret cmd, w1)
    /\ handle_message (cmd_msg cmd) w1 = (r, w2) /\ cmd_msg cmd = SnsRepairStart (mkFid 1 1).
Proof.
  destruct (worker_round_finishes_its_command queued (worker_round queued).2 (worker_round queued).1)
    as (cmd & w1 & r & w2 & more & Hg & Hh & _); [apply surjective_pairing | vm_compute; discriminate|].
  exists cmd, w1, r, w2. split_and!; [done | done |].
  assert (Hc : (planner_get_next_command fuel queued).1 = Ret cmd) by (by rewrite Hg).
  vm_compute in Hc. by injection Hc as <-.
Defined.

Lemma failure_locks_balanced_witness :
  process_locks (update_process_failure [ios_failed] worker_world).2 = process_locks worker_world.
Proof.
  apply (failure_locks_balanced [ios_failed] worker_world _
    (update_process_failure [ios_failed] worker_world).1);
    [done | apply surjective_pairing | vm_compute; discriminate].
Defined.

(** A node is passed on as it is, this hax is dropped, and an ios whose check is critical is
    passed on with the health that is read. *)
Definition given_states : list HAState :=
  [mkHAState (mkFid 0x6e00000000000001 3) OK; mkHAState (mkFid 0x7200000000000001 6) OFFLINE; ios_failed].
Definition given_run := update_process_failure given_states worker_world.

Lemma only_confirmed_failures_reported_witness :
  exists self rc v v1 v2, get_hax_fid None v = (Ret self, v1) /\ am_i_rc v1 = (Ret rc, v2)
    /\ loop_run self rc v2 given_states
         [mkHAState (mkFid 0x6e00000000000001 3) OK; ios_failed] given_run.2.
Proof.
  assert (Hr : given_run.1 = Ret [mkHAState (mkFid 0x6e00000000000001 3) OK; ios_failed])
    by (vm_compute; reflexivity).
  destruct (only_confirmed_failures_reported given_states _ worker_world _ (run_ret _ _ _ Hr))
    as (n & v & self & v1 & rc & v2 & _ & Hs & Hrc & Hl).
  exists self, rc, v, v1, v2. exact (conj Hs (conj Hrc Hl)).
Defined.

Lemma unknown_event_leaks_lock_witness :
  exists w', handle_process_event (mkConfHaProcess 9 3 0 (mkFid 1 4)) worker_world
    = (Raise AssertionError, w') /\ (process_group_lock (mkFid 1 7) w').1 = Hang.
Proof.
  destruct (unknown_event_leaks_lock (mkConfHaProcess 9 3 0 (mkFid 1 4)) 1 worker_world)
    as (w' & Hw & Hl); [discriminate | right; cbn; lia | reflexivity | reflexivity |].
  exists w'. split; [exact Hw|]. by apply (Hl ltac:(done)).
Defined.
End Witnesses.
