(* ===== verification/BqProcessor.v ===== *)
(** * The broadcast queue processor ([src/hax/hax/queue/__init__.py], [confobjutil.py])

    What a hax does with a message of the broadcast queue: device states and IO
    errors are broadcast and their delivery awaited, SNS operations and process
    states become commands of the planner. *)

From S2P Require Import Prelude PyStr Json HaxTypes Message LinkedList Planner Delivery World.
From S2P Require Import Cache Consul Queue ConsulUtil ConfTree ProcStatus Motr.

(** [hastate_to_objstate[s]] *)
Definition hastate_to_objstate (state : json) : outcome ObjHealth :=
  match state with
  | JStr s =>
      if String.eqb s "online" then Ret OK
      else if String.eqb s "failed" then Ret FAILED
      else if String.eqb s "offline" then Ret OFFLINE
      else if String.eqb s "repair" then Ret REPAIR
      else if String.eqb s "repaired" then Ret REPAIRED
      else if String.eqb s "rebalance" then Ret REBALANCE
      else Raise (KeyError s)
  | JArr _ | JObj _ => Raise TypeError
  | _ => Raise (KeyError (py_str state))
  end.

(** [msg_factory] of [handle_sns_op] and of [process_sns_operation]. *)
Definition sns_message (op_name : string) : option (Fid -> BaseMessage) :=
  if String.eqb op_name "rebalance-start" then Some SnsRebalanceStart
  else if String.eqb op_name "rebalance-stop" then Some SnsRebalanceStop
  else if String.eqb op_name "rebalance-pause" then Some SnsRebalancePause
  else if String.eqb op_name "rebalance-resume" then Some SnsRebalanceResume
  else if String.eqb op_name "repair-start" then Some SnsRepairStart
  else if String.eqb op_name "repair-stop" then Some SnsRepairStop
  else if String.eqb op_name "repair-pause" then Some SnsRepairPause
  else if String.eqb op_name "repair-resume" then Some SnsRepairResume
  else if String.eqb op_name "disk-attach" then Some SnsDiskAttach
  else if String.eqb op_name "disk-detach" then Some SnsDiskDetach
  else None.

(** [Fid.parse(data[k])] *)
Definition fid_field (k : string) (data : json) : outcome Fid :=
  v ← jget k data; s ← need_str v; fid_parse s.

(** [getattr(m0HaProcessEvent, name)], [getattr(m0HaProcessType, name)]: the
    members of the enum. *)
Definition event_attr (name : json) : outcome m0HaProcessEvent :=
  match name with
  | JStr s => match List.find (fun e => String.eqb (event_name e) s) event_all with
              | Some e => Ret e | None => Raise AttributeError end
  | _ => Raise TypeError
  end.
Definition ptype_attr (name : json) : outcome m0HaProcessType :=
  match name with
  | JStr s => match List.find (fun t => String.eqb (ptype_name t) s) ptype_all with
              | Some t => Ret t | None => Raise AttributeError end
  | _ => Raise TypeError
  end.

Section BqProcessor.
Context {E : Type} `{ConsulApi E} `{Others E} `{Fuel} `{Clock E}.
Notation W := (World E).

(** [q.get()] blocks until an item is put. *)
Fixpoint reply_get (n : nat) (q : queue_id) : M W reply_item := fun w =>
  match default [] (reply_queues w !! q), n with
  | r :: rest, _ => (Ret r, set_replies (<[q := rest]> (reply_queues w)) w)
  | [], O => (Hang, w)
  | [], S n' => reply_get n' q (others w)
  end.

(** Posts the states with a new reply queue and waits for a delivery. *)
Definition broadcast_and_wait (states : list HAState) : M W unit :=
  q ← new_oid;
  planner_add_command (BroadcastHAStates states (Some q)) ;;
  r ← reply_get fuel q;
  match r with
  | ReplyIds ids => wait_for_any ids
  | ReplyStatus _ => raise TypeError
  end.

(** [_get_ha_state()] *)
Definition payload_ha_state (payload : json) : outcome (option HAState) :=
  match (f ← fid_field "fid" payload;
         s ← jget "state" payload;
         e ← event_attr s;
         Ret (mkHAState f (event_to_svchealth e))) with
  | Ret st => Ret (Some st)
  | Raise (KeyError _) | Raise AttributeError => Ret None
  | Raise e => Raise e
  | Hang => Hang
  end.

Definition handle_process_state_update (payload : json) : M W unit :=
  hastate ← lift (payload_ha_state payload);
  lift (jget "fid" payload) ;; lift (jget "state" payload) ;;
  ty ← lift (jget "type" payload);
  f ← lift (fid_field "fid" payload);
  t ← lift (ptype_attr ty);
  planner_add_command (ProcessHaEvent f t [hastate]).

Definition to_ha_state (objinfo : json) : M W (option HAState) :=
  catch (node ← lift (jget "node" objinfo);
         device ← lift (jget "device" objinfo);
         n ← lift (need_str node);
         d ← lift (need_str device);
         sdev_fid ← node_to_drive_fid n d;
         s ← lift (jget "state" objinfo);
         h ← lift (hastate_to_objstate s);
         mret (Some (mkHAState sdev_fid h)))
    (fun e => match e with KeyError _ => Some (mret None) | _ => None end).

Definition handle_device_state_set (payload : json) : M W unit :=
  hastate ← to_ha_state payload;
  match hastate with
  | None => mret tt
  | Some st => broadcast_and_wait [st]
  end.

(** An unknown operation is logged and then looked up in the factory. *)
Definition handle_sns_op (payload : json) : M W unit :=
  op ← lift (jget "op_name" payload);
  op_name ← lift (match op with
                  | JStr s => Ret s
                  | JArr _ | JObj _ => Raise TypeError
                  | _ => Raise (KeyError (py_str op)) end);
  a_type ← lift (dict_get op_name (sns_message op_name));
  f ← lift (fid_field "fid" payload);
  planner_add_command (a_type f).

Definition handle_ioq_stob_error (payload : json) : M W unit :=
  f ← lift (fid_field "conf_sdev" payload);
  if is_null f then mret tt else broadcast_and_wait [mkHAState f FAILED].

Definition payload_process (msg : string) : M W unit :=
  match loads msg with
  | Raise JSONDecodeError => mret tt
  | o =>
      data ← lift o;
      payload ← lift (jget "payload" data);
      msg_type ← lift (jget "message_type" data);
      match msg_type with
      | JStr s =>
          if String.eqb s "M0_HA_MSG_NVEC" then handle_device_state_set payload
          else if String.eqb s "SNS_OP" then handle_sns_op payload
          else if String.eqb s "STOB_IOQ_ERROR" then handle_ioq_stob_error payload
          else if String.eqb s "PROCESS-STATE-UPDATE" then handle_process_state_update payload
          else mret tt
      | JArr _ | JObj _ => raise TypeError
      | _ => mret tt
      end
  end.

(** A message that cannot be processed is skipped. *)
Definition bq_process (message : Z * string) : M W unit :=
  catch (payload_process (snd message)) (fun _ => Some (mret tt)).
End BqProcessor.
