(* ===== verification/Server.v ===== *)
(** * The HTTP server ([src/hax/hax/server.py])

    The handlers of the requests hax serves, as functions of the parsed body (or
    of the error of parsing it), and the middleware that turns exceptions into
    responses.  [ServerRunner], its routes and the handlers that run a script are in
    [HaxMain]. *)

From S2P Require Import Prelude PyStr Json HaxTypes Message LinkedList Planner Delivery World.
From S2P Require Import Cache Consul Queue ConsulUtil ConfTree ProcStatus Motr HaEvents.
From S2P Require Import BqProcessor.

(** A response: 200, with or without text, the JSON of a status list, or an
    error with its code and reason. *)
Inductive response : Type :=
| RespOk
| RespText (text : string)
| RespStatus (l : list ReprebStatus)
| RespError (code : Z) (reason : string).

(** [check.get(k)] *)
Definition get_field (k : string) (j : json) : outcome json := jget_or k JNull j.

(** The loop over [node['Checks']]: the status is carried from one check to the
    next. *)
Fixpoint checks_to_states (svc_status : ObjHealth) (checks : list json) : outcome (list HAState) :=
  match checks with
  | [] => Ret []
  | check :: rest =>
      s ← get_field "Status" check;
      let svc_status := match s with
                        | JStr t => if String.eqb t "passing" then svc_status else OFFLINE
                        | _ => OFFLINE end in
      svc_id ← get_field "ServiceID" check;
      l ← (if truthy svc_id then
             k ← int_of svc_id;
             Ret [mkHAState (create_process_fid k) svc_status]
           else Ret []);
      l' ← checks_to_states svc_status rest;
      Ret (l ++ l')
  end.

Fixpoint nodes_to_states (nodes : list json) : outcome (list HAState) :=
  match nodes with
  | [] => Ret []
  | node :: rest =>
      c ← jget "Checks" node;
      checks ← jiter c;
      l ← checks_to_states OK checks;
      l' ← nodes_to_states rest;
      Ret (l ++ l')
  end.

Definition to_ha_states (data : json) : outcome (list HAState) :=
  if truthy data then nodes ← jiter data; nodes_to_states nodes else Ret [].

(** [proc_state_to_objhealth] *)
Definition proc_state_to_objhealth (s : string) : outcome ObjHealth :=
  if String.eqb s "M0_CONF_HA_PROCESS_STARTING" then Ret OFFLINE
  else if String.eqb s "M0_CONF_HA_PROCESS_STARTED" then Ret RECOVERING
  else if String.eqb s "M0_CONF_HA_PROCESS_DTM_RECOVERED" then Ret OK
  else if String.eqb s "M0_CONF_HA_PROCESS_STOPPING" then Ret OFFLINE
  else if String.eqb s "M0_CONF_HA_PROCESS_STOPPED" then Ret OFFLINE
  else Raise (KeyError s).

Section Server.
Context {E : Type} `{ConsulApi E} `{CortxUtils E} `{Others E} `{Fuel} `{Clock E}.
Notation W := (World E).

(** [await request.json()] *)
Definition request_json (body : string) : M W json := lift (loads body).

Definition process_ha_states (body : string) : M W response :=
  data ← request_json body;
  states ← lift (to_ha_states data);
  planner_add_command (BroadcastHAStates states None) ;;
  mret RespOk.

Definition process_sns_operation (op_name body : string) : M W response :=
  match sns_message op_name with
  | None => raise HTTPNotFound
  | Some a_type =>
      data ← request_json body;
      f ← lift (fid_field "fid" data);
      planner_add_command (a_type f) ;;
      mret RespOk
  end.

(** [queue.get(timeout=10)] raises [queue.Empty]. *)
Definition get_sns_status (repair : bool) (pool_fid : string) : M W response :=
  queue ← new_oid;
  f ← lift (fid_parse pool_fid);
  planner_add_command (if repair then SnsRepairStatus f queue else SnsRebalanceStatus f queue) ;;
  sleep ;;
  q ← gets (fun w => default [] (reply_queues w !! queue));
  match q with
  | ReplyStatus l :: rest =>
      modify (fun w => set_replies (<[queue := rest]> (reply_queues w)) w) ;; mret (RespStatus l)
  | ReplyIds _ :: _ => raise TypeError
  | [] => raise (OtherException "Empty")
  end.

(** The loop of [process_bq_update]: every message processed is marked as read. *)
Definition process_messages (o : OffsetStorage) (messages : list (Z * string)) : M W unit :=
  for_each messages (fun '(i, msg) => bq_process (i, msg) ;; mark_last_read o i).

Definition process_bq_update (o : OffsetStorage) (body : string) : M W response :=
  data ← request_json body;
  messages ← (match jiter data with
              | Ret l => prepare o l
              | _ => get_last_read_epoch o ;; raise TypeError
              end);
  process_messages o messages ;;
  mret RespOk.

(** The function [fn] of [process_state_update]. *)
Definition state_update_fn (data : json) : M W unit :=
  v ← lift (jget "Value" data);
  vs ← lift (need_str v);
  text ← lift (b64decode vs);
  proc_status ← lift (loads text);
  k ← lift (jget "Key" data);
  ks ← lift (need_str k);
  fs ← lift (index_get 1 (py_split "/" ks));
  proc_fid ← lift (fid_parse fs);
  proc_state ← lift (jget "state" proc_status);
  proc_type ← lift (jget "type" proc_status);
  if negb (state_in proc_type ["M0_CONF_HA_PROCESS_M0MKFS"])
     && state_in proc_state ["M0_CONF_HA_PROCESS_STARTED"; "M0_CONF_HA_PROCESS_DTM_RECOVERED";
                             "M0_CONF_HA_PROCESS_STOPPED"] then
    s ← lift (need_str proc_state);
    h ← lift (proc_state_to_objhealth s);
    planner_add_command (BroadcastHAStates [mkHAState proc_fid h] None)
  else mret tt.

Definition process_state_update (body : string) : M W response :=
  data ← request_json body;
  catch (state_update_fn data) (fun _ => Some (mret tt)) ;;
  mret RespOk.

(** The two subscription handlers; the data must be an object. *)
Definition subscription_handle (error : string) (f : list (string * json) -> M W unit) (body : string)
    : M W response :=
  data ← request_json body;
  catch (ha_utils_init ;;
         kvs ← lift (match data with JObj l => Ret l | _ => Raise AttributeError end);
         f kvs ;; mret RespOk)
    (fun e => Some (mret (RespText (error +:+ exn_text e)))).

Definition event_subscription_handle : string -> M W response :=
  subscription_handle "Event subscribe error: " event_subscribe.
Definition event_unsubscription_handle : string -> M W response :=
  subscription_handle "Event unsubscribe error: " event_unsubscribe.

(** The middleware: aiohttp's own errors pass ([HTTPNotFound]). *)
Definition encode_exception (handler : M W response) : M W response :=
  catch handler (fun e =>
    match e with
    | HTTPNotFound => None
    | JSONDecodeError | KeyError _ => Some (mret (RespError 400 "Bad JSON provided"))
    | _ => Some (mret (RespError 500 "Unexpected error has happened"))
    end).

(** The [finally] block of [ServerRunner.run], without the joins: the threads to
    stop are given by the flags their [stop] sets. *)
Definition server_finally (threads : list (list nat)) : M W unit :=
  modify (set_stopping true) ;;
  modify (fun w => set_planner (shutdown (work_planner w)) (next_oid w) w) ;;
  for_each threads (fun flags => for_each flags set_flag).
End Server.
