(* ===== verification/ServerProps.v ===== *)
(** * Properties of the server

    A message of the broadcast queue is not taken twice; the states derived from
    Consul's checks; the subscriptions. *)

From Stdlib Require Import Sorting.Sorted.
From S2P Require Import Prelude PyStr Json HaxTypes Message LinkedList Planner Delivery World.
From S2P Require Import Cache ConsulStore Consul Queue ConsulUtil ConfTree ProcStatus ProcProps.
From S2P Require Import Demo Motr HaEvents BqProcessor Server.

(** ** The offset of the inbox *)
Section Offset.
Context {E : Type} `{ConsulApi E} `{!ConsulLaws E} `{Others E} `{Fuel} `{Clock E}.
Notation W := (World E).
Implicit Types w : World E.

Definition offset_key (o : OffsetStorage) : string := get_key_by_node (key_prefix o) (os_node_name o).

Lemma offset_key_nonempty o : offset_key o <> "".
Proof.
  unfold offset_key, get_key_by_node. destruct (key_prefix o); [done|]. by rewrite append_cons.
Qed.

(** The epoch the store has for the consumer, -1 when there is none. *)
Definition offset_of (d : kvdata) : outcome Z :=
  match d with
  | KVItem i => match Value i with Some v => py_int 10 v | None => Ret (-1) end
  | _ => Ret (-1)
  end.
Definition stored_offset (o : OffsetStorage) (off : Z) (e : E) : Prop :=
  available e = true /\ offset_of (store_read (offset_key o) false (view e)).2 = Ret off.

Lemma kv_get_outcome_null k s : kv_get_outcome k None (Some true) s = Ret (store_read k false s).2.
Proof.
  unfold kv_get_outcome. change (default false None) with false. by destruct (store_read k false s).2.
Qed.

Lemma kv_get_available k w d w' :
  k <> "" -> kv_get k None (Some true) None w = (Ret d, w') ->
  available (env w) = true /\ env w' = env w /\ d = (store_read k false (view (env w))).2.
Proof.
  intros Hk Hg. destruct (available (env w)) eqn:Ha.
  - destruct (kv_get_miss k None (Some true) None w (store_read k false (view (env w))).2)
      as (w1 & Hg1 & He); [done | done | apply kv_get_outcome_null | done |].
    rewrite Hg1 in Hg. by injection Hg as <- <-.
  - exfalso. unfold kv_get, uses_consul_cache, cache_or_new in Hg.
    apply bind_Ret in Hg as (c & w1 & Hc & Hg). injection Hc as <- <-.
    rewrite bind_gets in Hg. unfold cache_get in Hg. cbn in Hg. rewrite lookup_insert_eq in Hg.
    cbn in Hg. apply bind_Ret in Hg as (v & w2 & Hv & _). apply bind_Ret in Hv as (x & w3 & Hx & _).
    unfold kv_get_raw, assert in Hx. destruct (String.eqb_spec k ""); [done|]. cbn in Hx.
    unfold mbind, M_bind, mret, M_ret, wrap_consul, catch, on_env in Hx. cbn in Hx.
    by rewrite law_get_down in Hx by done.
Qed.

Lemma get_last_read_stored o off w w' :
  get_last_read_epoch o w = (Ret off, w') -> stored_offset o off (env w').
Proof.
  intros [w1 Hr]%repeat_if_fails_inv. apply bind_Ret in Hr as (d & w2 & Hg & Hr).
  apply kv_get_available in Hg as (Ha & He & ->); [| apply offset_key_nonempty].
  fold (offset_key o) in Hr.
  assert (env w' = env w1
    /\ offset_of (store_read (offset_key o) false (view (env w1))).2 = Ret off) as [Hw Hoff].
  { unfold store_read in *. destruct (store_get (offset_key o) (view (env w1))) as [i |]; cbn in Hr |- *.
    - apply bind_Ret in Hr as (j & w3 & [Hj ->]%lift_inv & Hr). injection Hj as <-.
      destruct (Value i); [apply lift_inv in Hr as [-> ->] | injection Hr as <- <-]; done.
    - by injection Hr as <- <-. }
  split; by rewrite Hw.
Qed.

Lemma stored_get_last_read o off w : fuel <> 0%nat ->
  stored_offset o off (env w) ->
  exists w', get_last_read_epoch o w = (Ret off, w').
Proof.
  intros Hf [Ha Ho].
  destruct (kv_get_miss (offset_key o) None (Some true) None w
    (store_read (offset_key o) false (view (env w))).2) as (w1 & Hg & He);
    [done | apply offset_key_nonempty | apply kv_get_outcome_null | done |].
  exists w1. apply repeat_if_fails_ret; [| done | done].
  fold (offset_key o). rewrite (bind_unfold_Ret _ _ _ _ _ Hg).
  unfold store_read in *. destruct (store_get (offset_key o) (view (env w))) as [i |]; cbn in Ho |- *.
  - unfold mbind, M_bind, lift. destruct (Value i); [by rewrite Ho | by injection Ho as <-].
  - by injection Ho as <-.
Qed.

Lemma dec_str_nonempty i : dec_str i <> "".
Proof. intros He. pose proof (py_int_dec_str i) as Hp. by rewrite He in Hp. Qed.

Lemma mark_last_read_stored o i w w' :
  mark_last_read o i w = (Ret tt, w') -> stored_offset o i (env w').
Proof.
  intros [w1 Hr]%repeat_if_fails_inv. apply bind_Ret in Hr as (b & w2 & Hp & Hr).
  injection Hr as <-. fold (offset_key o) in Hp.
  destruct (available (env w1)) eqn:Ha.
  - rewrite kv_put_ok in Hp by (done || apply offset_key_nonempty). injection Hp as _ <-.
    split; [cbn; by rewrite available_set|]. cbn. rewrite view_set.
    unfold store_read. cbn. unfold bump, store_get. cbn. rewrite lookup_insert_eq. cbn.
    destruct (String.eqb_spec (dec_str i) "") as [He | _]; [by apply dec_str_nonempty in He|].
    apply py_int_dec_str.
  - exfalso. unfold kv_put, invalidates_consul_cache, assert in Hp.
    pose proof (offset_key_nonempty o). destruct (String.eqb_spec (offset_key o) ""); [done|]. cbn in Hp.
    unfold mbind, M_bind, mret, M_ret, wrap_consul, catch, on_env in Hp.
    by rewrite law_put_down in Hp by done.
Qed.

(** Processing returns only after the last message was marked. *)
Lemma process_messages_last o messages x w w' :
  process_messages o (messages ++ [x]) w = (Ret tt, w') -> stored_offset o (fst x) (env w').
Proof.
  revert w. induction messages as [| [i m] messages IH]; intros w Hr; cbn in Hr.
  - destruct x as [i m]. apply bind_Ret in Hr as ([] & w1 & Hr & Hr2). injection Hr2 as <-.
    apply bind_Ret in Hr as (? & w2 & _ & Hm). by apply mark_last_read_stored in Hm.
  - apply bind_Ret in Hr as (? & w1 & _ & Hr). by apply IH in Hr.
Qed.

Lemma prepare_inv o raw w w' msgs : prepare o raw w = (Ret msgs, w') ->
  exists off l, get_last_read_epoch o w = (Ret off, w')
    /\ Forall2 (fun j m => to_tuple j = Ret m) raw l
    /\ msgs = List.filter (fun x => fst x >? off) (sort_msgs l).
Proof.
  intros Hr. apply bind_Ret in Hr as (off & w1 & Hoff & Hr).
  apply bind_Ret in Hr as (l & w2 & Hl & Hr). injection Hr as <- <-.
  assert (Forall2 (fun j m => to_tuple j = Ret m) raw l /\ w2 = w1) as [Hf ->].
  { clear Hoff. revert w1 l Hl. induction raw as [| j raw IH]; intros w1 l; cbn [map_m].
    - by intros [= <- <-].
    - intros Hl. apply bind_Ret in Hl as (m & w3 & [Hm ->]%lift_inv & Hl).
      apply bind_Ret in Hl as (ms & w4 & Hms & Hl). injection Hl as <- <-.
      destruct (IH _ _ Hms) as [Hf ->]. by split; [constructor|]. }
  by exists off, l.
Qed.

Lemma sorted_last_max (l : list (Z * string)) x :
  StronglySorted epoch_le (l ++ [x]) -> Forall (fun y => fst y <= fst x) (l ++ [x]).
Proof.
  induction l as [| y l IH]; cbn; intros Hs; [by repeat constructor|].
  apply StronglySorted_inv in Hs as [Hs Hy]. constructor; [| by apply IH].
  rewrite Forall_app in Hy. destruct Hy as [_ Hx]. by apply (Forall_singleton (epoch_le y) x) in Hx.
Qed.

(** Nothing is above the last epoch. *)
Lemma prepare_nothing o raw l off w : fuel <> 0%nat ->
  stored_offset o off (env w) -> Forall2 (fun j m => to_tuple j = Ret m) raw l ->
  List.filter (fun x => fst x >? off) (sort_msgs l) = [] ->
  (prepare o raw w).1 = Ret [].
Proof.
  intros Hf Hs Hl Hnil. destruct (stored_get_last_read o off w Hf Hs) as [w1 Hg].
  unfold prepare. rewrite (bind_unfold_Ret _ _ _ _ _ Hg).
  assert (Hmap : map_m (fun item => lift (to_tuple item)) raw w1 = (Ret l, w1)).
  { clear -Hl. induction Hl as [| j m raw l Hj _ IH]; [done|]. cbn [map_m].
    rewrite (bind_unfold_Ret _ _ w1 m w1) by (unfold lift; by rewrite Hj).
    by rewrite (bind_unfold_Ret _ _ _ _ _ IH). }
  rewrite (bind_unfold_Ret _ _ _ _ _ Hmap). cbn. by rewrite Hnil.
Qed.
End Offset.

(** C31: a message of the broadcast queue is taken once: when a request that posts an inbox has
    been served, no message of that inbox is selected again, whatever processing its
    messages did. *)
Theorem inbox_is_read_once {E} `{ConsulApi E} `{!ConsulLaws E} `{Others E} `{Fuel} `{Clock E}
    o body raw (w w' : World E) :
  fuel <> 0%nat -> loads body = Ret (JArr raw) ->
  process_bq_update o body w = (Ret RespOk, w') ->
  (prepare o raw w').1 = Ret [].
Proof.
  intros Hf Hb Hr. apply bind_Ret in Hr as (data & w1 & [Hd ->]%lift_inv & Hr).
  rewrite Hb in Hd. injection Hd as <-. apply bind_Ret in Hr as (msgs & w2 & Hp & Hr).
  apply bind_Ret in Hr as ([] & w3 & Hm & Hr). injection Hr as <-.
  apply prepare_inv in Hp as (off & l & Hoff & Hl & ->).
  remember (List.filter (fun x => fst x >? off) (sort_msgs l)) as sel eqn:Ef. symmetry in Ef.
  destruct sel as [| y ys _] using rev_ind.
  - injection Hm as <-. apply (prepare_nothing o raw l off); try done. by eapply get_last_read_stored.
  - apply process_messages_last in Hm as Hs.
    apply (prepare_nothing o raw l (fst y)); try done.
    assert (Hmax : Forall (fun z => fst z <= fst y) (ys ++ [y])).
    { apply sorted_last_max. rewrite <- Ef. apply sorted_filter, sort_msgs_sorted. }
    assert (Hy : off < fst y).
    { assert (y ∈ List.filter (fun x => fst x >? off) (sort_msgs l)) as Hin by (rewrite Ef; set_solver).
      apply list_elem_of_In, filter_In in Hin as [_ Hgt]. by apply Z.gtb_lt in Hgt. }
    rewrite <- Ef in Hmax. clear -Hmax Hy.
    induction (sort_msgs l) as [| z zs IH]; [done|]. cbn [List.filter] in *.
    destruct (Z.gtb_spec (fst z) off).
    + apply Forall_cons in Hmax as [Hz Hmax]. destruct (Z.gtb_spec (fst z) (fst y)); [lia | auto].
    + destruct (Z.gtb_spec (fst z) (fst y)); [lia | auto].
Qed.

(** ** States from Consul's checks *)

(** A check of a service and a node as Consul posts them. *)
Definition check_json (c : string * Z) : json :=
  JObj [("Status", JStr (fst c)); ("ServiceID", JStr (dec_str (snd c)))].
Definition node_json (checks : list (string * Z)) : json :=
  JObj [("Checks", JArr (check_json <$> checks))].

(** The state of each service of a node: OK when its check and every check
    before it pass. *)
Definition node_states (checks : list (string * Z)) : list HAState :=
  imap (fun i c => mkHAState (create_process_fid (snd c))
    (if forallb (fun c => String.eqb (fst c) "passing") (take (S i) checks) then OK else OFFLINE))
    checks.

Lemma check_status c : get_field "Status" (check_json c) = Ret (JStr (fst c)).
Proof. done. Qed.
Lemma check_service_id c : get_field "ServiceID" (check_json c) = Ret (JStr (dec_str (snd c))).
Proof. done. Qed.

Lemma checks_to_states_spec before checks :
  checks_to_states (if forallb (fun c => String.eqb (fst c) "passing") before then OK else OFFLINE)
    (check_json <$> checks)
  = Ret (imap (fun i c => mkHAState (create_process_fid (snd c))
      (if forallb (fun c => String.eqb (fst c) "passing") (before ++ take (S i) checks)
       then OK else OFFLINE)) checks).
Proof.
  revert before. induction checks as [| [st id] checks IH]; intros before; [done|].
  change (check_json <$> (st, id) :: checks) with (check_json (st, id) :: (check_json <$> checks)).
  cbn [checks_to_states]. rewrite check_status, check_service_id. cbn [mbind outcome_bind fst snd].
  cbn [truthy]. destruct (String.eqb_spec (dec_str id) "") as [He | _]; [by apply dec_str_nonempty in He|].
  cbn [negb]. cbn [int_of]. rewrite py_int_dec_str. cbn [mbind outcome_bind].
  replace (if String.eqb st "passing" then _ else OFFLINE)
    with (if forallb (fun c => String.eqb (fst c) "passing") (before ++ [(st, id)]) then OK else OFFLINE).
  2: { rewrite forallb_app. cbn. rewrite andb_true_r.
       destruct (forallb _ before), (String.eqb st "passing"); done. }
  rewrite IH. cbn [mbind outcome_bind imap app take]. do 2 f_equal.
  apply imap_ext. intros i [st' id'] _. cbn [fst snd take compose].
  by rewrite <- app_assoc.
Qed.

Lemma node_checks n : jget "Checks" (node_json n) = Ret (JArr (check_json <$> n)).
Proof. done. Qed.

(** Every check of a service gives one state, in the order posted and node by node; a service
    is reported OK exactly when its check passes and all the checks listed before it
    on its node pass: a failed check takes down every later service of the node. *)
Theorem check_states_carry_over nodes :
  to_ha_states (JArr (node_json <$> nodes)) = Ret (concat (node_states <$> nodes)).
Proof.
  destruct nodes as [| n nodes]; [done|]. unfold to_ha_states.
  change (truthy (JArr (node_json <$> n :: nodes))) with true. cbv iota.
  change (jiter (JArr (node_json <$> n :: nodes))) with (Ret (node_json <$> n :: nodes)).
  cbn [mbind outcome_bind]. generalize (n :: nodes). clear n nodes.
  intros l. induction l as [| n l IH]; [done|].
  change (node_json <$> n :: l) with (node_json n :: (node_json <$> l)).
  cbn [nodes_to_states]. rewrite node_checks. cbn [mbind outcome_bind jiter].
  rewrite (checks_to_states_spec [] n : checks_to_states OK (check_json <$> n) = _).
  cbn [mbind outcome_bind]. by rewrite IH.
Qed.

(** ** Subscriptions *)
Section Subscriptions.
Context {E : Type} `{ConsulApi E} `{!ConsulLaws E} `{CortxUtils E} `{Others E} `{Fuel} `{Clock E}.
Notation W := (World E).
Implicit Types w : World E.

Definition node_topic : string := "events/subscription/node".

(** The store has [l] as the interfaces subscribed to node events. *)
Definition subscribed (l : list string) (e : E) : Prop :=
  available e = true /\ exists i, store_get node_topic (view e) = Some i
    /\ Value i = Some (dumps (JArr (JStr <$> l))).

Lemma wf_strings l : wf_json (JArr (JStr <$> l)).
Proof. constructor. apply Forall_fmap, Forall_true. intros s. constructor. Qed.

Lemma subscription_read l w : subscribed l (env w) ->
  exists i w', subscription "node" w = (Ret (KVItem i), w') /\ core w' = core w
    /\ loads_value (Value i) = Ret (JArr (JStr <$> l)).
Proof.
  intros (Ha & i & Hi & Hv). exists i.
  destruct (kv_get_miss_core node_topic None (Some true) None w (KVItem i)) as (w' & Hg & Hc);
    [done | done | | done |].
  { rewrite kv_get_outcome_null. unfold store_read. by rewrite Hi. }
  exists w'. split; [exact Hg|]. split; [done|]. rewrite Hv. cbn [loads_value]. apply loads_dumps_wf, wf_strings.
Qed.

Lemma subscription_written l w : available (env w) = true ->
  exists w', kv_put node_topic (dumps (JArr (JStr <$> l))) None None w = (Ret true, w')
    /\ subscribed l (env w').
Proof.
  intros Ha. unfold subscribed. pose proof (dumps_nonempty (JArr (JStr <$> l))) as Hd.
  generalize dependent (dumps (JArr (JStr <$> l))). intros d Hd. rewrite kv_put_ok by done.
  eexists. split; [reflexivity|]. split; [cbn; by rewrite available_set|]. cbn. rewrite view_set.
  unfold bump, store_get. cbn. rewrite lookup_insert_eq. eexists. split; [reflexivity|]. cbn.
  by destruct (String.eqb_spec d "").
Qed.

(** One turn of the loop that changes the list from [l] to [l']. *)
Lemma subscription_changed msg change l l' w :
  subscribed l (env w) ->
  change "health_message" (JArr (JStr <$> l)) = Ret (JArr (JStr <$> l')) ->
  exists w', subscription_loop msg change [("node", JStr "health_message")] w = (Ret tt, w')
    /\ subscribed l' (env w').
Proof.
  intros Hs Hc. destruct (subscription_read l w Hs) as (i & w1 & Hr & Hco & Hv).
  assert (Ha : available (env w1) = true) by (rewrite (core_env _ _ Hco); apply Hs).
  destruct (subscription_written l' w1 Ha) as (w2 & Hp & Hs2).
  exists (set_subscribers (JArr (JStr <$> l')) (subscriber_list_cached w2) w2). split; [| exact Hs2].
  unfold subscription_loop. cbn [for_each existsb resource_types interface_types].
  change (String.eqb "node" "node") with true.
  change (String.eqb "health_message" "health_message") with true. cbn [negb orb].
  erewrite bind_unfold_Ret; [reflexivity|]. cbn [fst snd].
  rewrite (bind_unfold_Ret _ _ _ _ _ Hr). cbn [kv_truthy item_of].
  rewrite (bind_unfold_Ret _ _ w1 (JArr (JStr <$> l)) w1).
  2: { unfold mbind, M_bind, lift. by rewrite Hv. }
  rewrite (bind_unfold_Ret _ _ w1 (JArr (JStr <$> l')) w1) by (unfold lift; by rewrite Hc).
  change ("events/subscription/" +:+ "node") with node_topic.
  rewrite (bind_unfold_Ret _ _ _ _ _ Hp). by rewrite bind_gets.
Qed.

Lemma in_strings_spec s l : in_strings s (JStr <$> l) = bool_decide (s ∈ l).
Proof.
  induction l as [| t l IH]; [done|].
  change (in_strings s (JStr <$> t :: l)) with (String.eqb s t || in_strings s (JStr <$> l)).
  rewrite IH. destruct (String.eqb_spec s t) as [-> |]; repeat case_bool_decide; set_solver.
Qed.

Lemma remove_appended s l : s ∉ l ->
  remove_first (fun j => match j with JStr t => String.eqb t s | _ => false end)
    (JStr <$> (l ++ [s])) = JStr <$> l.
Proof.
  induction l as [| t l IH]; intros Hs; cbn; [by rewrite String.eqb_refl|].
  destruct (String.eqb_spec t s) as [-> |]; [set_solver|].
  by rewrite IH by set_solver.
Qed.
End Subscriptions.

(** Subscribing an interface that is not subscribed yet adds it to the stored list, subscribing
    it again leaves the list as it is, and unsubscribing restores the former list. *)
Theorem subscribe_round_trip {E} `{ConsulApi E} `{!ConsulLaws E} `{Others E} `{Fuel}
    l (w : World E) :
  subscribed l (env w) -> "health_message" ∉ l ->
  let data := [("node", JStr "health_message")] in
  exists w1 w2 w3, event_subscribe data w = (Ret tt, w1) /\ subscribed (l ++ ["health_message"]) (env w1)
    /\ event_subscribe data w1 = (Ret tt, w2) /\ subscribed (l ++ ["health_message"]) (env w2)
    /\ event_unsubscribe data w2 = (Ret tt, w3) /\ subscribed l (env w3).
Proof.
  intros Hs Hn data.
  assert (Hin : forall l, str_in "health_message" (JArr (JStr <$> l))
    = Ret (bool_decide ("health_message" ∈ l))) by (intros; cbn; by rewrite in_strings_spec).
  destruct (subscription_changed "Invalid resource type("
    (fun iface l => there ← str_in iface l; if (there : bool) then Ret l else py_append iface l)
    l (l ++ ["health_message"]) w Hs) as (w1 & Hr1 & Hs1).
  { rewrite Hin. rewrite bool_decide_eq_false_2 by done. cbn. by rewrite fmap_app. }
  destruct (subscription_changed "Invalid resource type("
    (fun iface l => there ← str_in iface l; if (there : bool) then Ret l else py_append iface l)
    (l ++ ["health_message"]) (l ++ ["health_message"]) w1 Hs1) as (w2 & Hr2 & Hs2).
  { rewrite Hin. by rewrite bool_decide_eq_true_2 by set_solver. }
  destruct (subscription_changed "Invalid reource type("
    (fun iface l => there ← str_in iface l; if (there : bool) then py_remove iface l else Ret l)
    (l ++ ["health_message"]) l w2 Hs2) as (w3 & Hr3 & Hs3).
  { rewrite Hin. rewrite bool_decide_eq_true_2 by set_solver. cbn [mbind outcome_bind py_remove].
    by rewrite remove_appended. }
  by exists w1, w2, w3.
Qed.

(** In a process that has not served a subscription request, sending a node event raises
    TypeError, whatever interfaces the store has: the list cached on first use is a
    list of lists, and its element is looked up as an interface name. *)
Theorem stored_subscription_not_usable {E} `{ConsulApi E} `{!ConsulLaws E} `{CortxUtils E}
    `{Others E} `{Fuel} `{Clock E} l event (w : World E) :
  subscribed l (env w) -> subscriber_list_cached w = false ->
  exists w', node_event_send event w = (Raise TypeError, w').
Proof.
  intros Hs Hc. destruct (subscription_read l w Hs) as (i & w1 & Hr & Hco & Hv).
  set (nested := JArr [JArr (JStr <$> l)]).
  assert (Hget : get_subscribers None w = (Ret nested, set_subscribers nested true w1)).
  { unfold get_subscribers. rewrite bind_gets, Hc. cbn [fold_m resource_types].
    rewrite (bind_unfold_Ret _ _ w nested w1); [done|].
    rewrite (bind_unfold_Ret _ _ w [JArr (JStr <$> l)] w1); [done|].
    rewrite (bind_unfold_Ret _ _ w [JArr (JStr <$> l)] w1); [done|].
    rewrite (bind_unfold_Ret _ _ _ _ _ Hr). cbn [kv_truthy item_of].
    unfold mbind, M_bind, lift. by rewrite Hv. }
  exists (set_subscribers nested true w1). unfold node_event_send, ha_utils_init.
  rewrite (bind_unfold_Ret _ _ w tt (set_subscribers nested true w1)).
  2: { by rewrite (bind_unfold_Ret _ _ _ _ _ Hget). }
  done.
Qed.

(** ** Witnesses *)
Section Witnesses.
#[local] Instance wit_fuel : Fuel := demo_fuel.
#[local] Instance wit_others : Others server := demo_others.
#[local] Instance wit_clock : Clock server := fun _ => 0.
#[local] Instance wit_cortx : CortxUtils server := {|
  cortx_importable := true; conf_machine_id := mret "1"; conf_load _ := mret tt;
  conf_get _ := mret None; bus_init _ := mret tt; bus_list_message_types := mret [];
  bus_register_message_type _ _ := mret tt; producer_new _ := mret tt; producer_send _ _ := mret tt;
  consumer_new _ _ := mret tt; consumer_receive := mret None; consumer_ack := mret tt;
  health_attr s := s; health_event_json p _ := JObj p |}.

Definition storage : OffsetStorage := mkOffset "node1" "bq-delivered".
Definition posted : list json := [watch_entry "bq/10" "no json"; watch_entry "bq/9" "no json"].
Definition inbox_body : string := dumps (JArr posted).
Definition inbox_world : World server := world_init (server_of []) None 3.

Lemma inbox_is_read_once_witness :
  (prepare storage posted inbox_world).1 = Ret [(9, "no json"); (10, "no json")]
  /\ (prepare storage posted (process_bq_update storage inbox_body inbox_world).2).1 = Ret [].
Proof.
  split; [vm_compute; reflexivity|].
  apply (inbox_is_read_once storage inbox_body posted inbox_world);
    [discriminate | vm_compute; reflexivity | apply run_ret; vm_compute; reflexivity].
Defined.

Definition subscribed_world : World server :=
  world_init (server_of [(node_topic, dumps (JArr []))]) None 3.

Lemma subscribed_world_ok : subscribed [] (env subscribed_world).
Proof. split; [reflexivity|]. eexists. split; vm_compute; reflexivity. Qed.

Lemma subscribe_round_trip_witness :
  exists w1, event_subscribe [("node", JStr "health_message")] subscribed_world = (Ret tt, w1)
    /\ subscribed ["health_message"] (env w1).
Proof.
  destruct (subscribe_round_trip [] subscribed_world subscribed_world_ok ltac:(set_solver))
    as (w1 & _ & _ & Hr & Hs & _).
  by exists w1.
Defined.

Lemma stored_subscription_not_usable_witness :
  exists w', node_event_send JNull subscribed_world = (Raise TypeError, w').
Proof.
  apply (stored_subscription_not_usable [] JNull subscribed_world);
    [exact subscribed_world_ok | reflexivity].
Defined.
End Witnesses.
