(* ===== verification/PyFloat.v ===== *)
(** * Python's true division of integers

    [a / b] on [int]s is the quotient rounded to the nearest binary64 number,
    ties to even.  A finite float is [fm * 2 ^ fe]; [math.ceil] and [math.floor]
    are exact on it.  The quotient is exact enough for both as long as the two
    integers fit 53 bits. *)

From S2P Require Import Prelude.

Record float64 : Type := mkFloat { fm : Z; fe : Z }.

(** The exponent of the quotient: [2 ^ flog2 a b <= a / b < 2 ^ (flog2 a b + 1)]. *)
Definition flog2 (a b : Z) : Z :=
  let d := Z.log2 a - Z.log2 b in
  if b * 2 ^ Z.max d 0 <=? a * 2 ^ Z.max (- d) 0 then d else d - 1.

(** [num / den] to the nearest integer, ties to even. *)
Definition round_even (num den : Z) : Z :=
  let q := num / den in
  let r := num mod den in
  if 2 * r <? den then q
  else if den <? 2 * r then q + 1
  else if Z.even q then q else q + 1.

(** The quotient of two positive integers: 53 bits, fewer below [2 ^ -1022]. *)
Definition fdiv_pos (a b : Z) : float64 :=
  let e := Z.max (flog2 a b - 52) (-1074) in
  mkFloat (round_even (a * 2 ^ Z.max (- e) 0) (b * 2 ^ Z.max e 0)) e.

(** [a / b] *)
Definition py_truediv (a b : Z) : outcome float64 :=
  if b =? 0 then Raise (OtherException "ZeroDivisionError")
  else if a =? 0 then Ret (mkFloat 0 0)
  else
    let f := fdiv_pos (Z.abs a) (Z.abs b) in
    if 2 ^ 1024 <=? fm f * 2 ^ Z.max (fe f) 0 then Raise (OtherException "OverflowError")
    else Ret (mkFloat (Z.sgn a * Z.sgn b * fm f) (fe f)).

(** [math.floor(x)] and [math.ceil(x)] *)
Definition py_floor (x : float64) : Z :=
  if 0 <=? fe x then fm x * 2 ^ fe x else fm x / 2 ^ (- fe x).
Definition py_ceil (x : float64) : Z :=
  if 0 <=? fe x then fm x * 2 ^ fe x else - ((- fm x) / 2 ^ (- fe x)).

(** The exact quotient rounded up. *)
Definition ceil_div (a b : Z) : Z := - ((- a) / b).

Lemma ceil_div_spec a b : 0 < b -> b * (ceil_div a b - 1) < a <= b * ceil_div a b.
Proof.
  intros Hb. unfold ceil_div. pose proof (Z.div_mod (- a) b ltac:(lia)).
  pose proof (Z.mod_pos_bound (- a) b Hb). nia.
Qed.

Lemma ceil_div_unique a b c : 0 < b -> b * (c - 1) < a <= b * c -> ceil_div a b = c.
Proof. intros Hb Hc. pose proof (ceil_div_spec a b Hb). nia. Qed.

Lemma ceil_div_mult a b : 0 < b -> ceil_div (b * a) b = a.
Proof. intros Hb. apply ceil_div_unique; nia. Qed.

(** ** The exponent *)
Lemma pow2_pos n : 0 < 2 ^ Z.max n 0.
Proof. apply Z.pow_pos_nonneg; lia. Qed.

Lemma flog2_le a b : 0 < a -> 0 < b ->
  b * 2 ^ Z.max (flog2 a b) 0 <= a * 2 ^ Z.max (- flog2 a b) 0.
Proof.
  intros Ha Hb. unfold flog2. destruct (Z.leb_spec (b * 2 ^ Z.max (Z.log2 a - Z.log2 b) 0)
    (a * 2 ^ Z.max (- (Z.log2 a - Z.log2 b)) 0)); [done|].
  pose proof (Z.log2_spec a Ha) as [La _]. pose proof (Z.log2_spec b Hb) as [_ Lb].
  set (d := Z.log2 a - Z.log2 b) in *.
  pose proof (Z.log2_nonneg a). pose proof (Z.log2_nonneg b).
  rewrite <- Z.add_1_r in Lb.
  destruct (Z.le_gt_cases 1 d).
  - rewrite (Z.max_l (d - 1)), (Z.max_r (- (d - 1))), Z.pow_0_r by lia.
    assert (E : 2 ^ (Z.log2 b + 1) * 2 ^ (d - 1) = 2 ^ Z.log2 a)
      by (rewrite <- Z.pow_add_r by lia; f_equal; lia).
    pose proof (Z.pow_pos_nonneg 2 (d - 1) ltac:(lia) ltac:(lia)). nia.
  - rewrite (Z.max_r (d - 1)), (Z.max_l (- (d - 1))), Z.pow_0_r by lia.
    assert (E : 2 ^ Z.log2 a * 2 ^ (- (d - 1)) = 2 ^ (Z.log2 b + 1))
      by (rewrite <- Z.pow_add_r by lia; f_equal; lia).
    pose proof (Z.pow_pos_nonneg 2 (- (d - 1)) ltac:(lia) ltac:(lia)). nia.
Qed.

Lemma flog2_range a b n : 0 < a < 2 ^ n -> 0 < b -> 0 <= n -> flog2 a b < n.
Proof.
  intros Ha Hb Hn. pose proof (flog2_le a b ltac:(lia) Hb) as H.
  destruct (Z.lt_ge_cases (flog2 a b) n) as [|Hge]; [done|].
  rewrite (Z.max_l (flog2 a b)), (Z.max_r (- flog2 a b)), Z.pow_0_r in H by lia.
  pose proof (Z.pow_le_mono_r 2 n (flog2 a b) ltac:(lia) Hge). nia.
Qed.

Lemma flog2_lower a b n : 0 < a -> 0 < b <= 2 ^ n -> 0 <= n -> - n - 1 <= flog2 a b.
Proof.
  intros Ha Hb Hn. unfold flog2.
  pose proof (Z.log2_nonneg a). pose proof (Z.log2_le_mono b (2 ^ n) ltac:(lia)).
  rewrite Z.log2_pow2 in * by lia. destruct (_ <=? _); lia.
Qed.

(** ** Rounding in the range of exact integers *)

(** With [s] the scale, the quotient is [num / b] for [num = a * 2 ^ s] and the
    distance to an integer is more than half a unit in the last place. *)
Lemma fdiv_scale a b :
  0 < a < 2 ^ 53 -> 0 < b <= 2 ^ 53 ->
  exists s, 0 <= s <= 106 /\ fdiv_pos a b = mkFloat (round_even (a * 2 ^ s) b) (- s) /\ b < 2 ^ (s + 1).
Proof.
  intros Ha Hb. pose proof (flog2_range a b 53 Ha ltac:(lia) ltac:(lia)) as Hk.
  pose proof (flog2_lower a b 53 ltac:(lia) Hb ltac:(lia)) as Hk'.
  pose proof (flog2_le a b ltac:(lia) ltac:(lia)) as Hle.
  exists (52 - flog2 a b). split; [lia|]. set (k := flog2 a b) in *. split.
  - unfold fdiv_pos. fold k. rewrite !(Z.max_l (k - 52)), (Z.max_r (k - 52) 0),
      (Z.max_l (- (k - 52))), Z.pow_0_r, Z.mul_1_r by lia.
    do 2 f_equal; [f_equal; f_equal; lia | lia].
  - replace (52 - k + 1) with (53 - k) by lia. destruct (Z.le_gt_cases 0 k).
    + rewrite (Z.max_l k), (Z.max_r (- k)), Z.pow_0_r in Hle by lia.
      assert (E : 2 ^ 53 = 2 ^ (53 - k) * 2 ^ k) by (rewrite <- Z.pow_add_r by lia; f_equal; lia).
      pose proof (Z.pow_pos_nonneg 2 k ltac:(lia) ltac:(lia)). nia.
    + rewrite (Z.max_r k), (Z.max_l (- k)), Z.pow_0_r in Hle by lia.
      rewrite Z.sub_opp_r || replace (53 - k) with (53 + - k) by lia.
      rewrite Z.pow_add_r by lia. pose proof (Z.pow_pos_nonneg 2 (- k) ltac:(lia) ltac:(lia)). nia.
Qed.

Lemma round_even_exact q den : 0 < den -> round_even (q * den) den = q.
Proof.
  intros Hd. unfold round_even. rewrite Z.div_mul, Z.mod_mul by lia.
  by destruct (Z.ltb_spec (2 * 0) den); [|lia].
Qed.

(** The rounded quotient stays strictly between the integers around it. *)
Lemma round_even_between a b s :
  0 < b < 2 ^ (s + 1) -> 0 <= s -> a mod b <> 0 ->
  (a / b) * 2 ^ s < round_even (a * 2 ^ s) b < (a / b + 1) * 2 ^ s.
Proof.
  intros Hb Hs Hr.
  pose proof (Z.div_mod a b ltac:(lia)) as Ea. pose proof (Z.mod_pos_bound a b ltac:(lia)).
  set (n := a / b) in *. set (r := a mod b) in *.
  pose proof (Z.pow_pos_nonneg 2 s ltac:(lia) Hs) as Hp. rewrite Z.pow_add_r in Hb by lia.
  unfold round_even. pose proof (Z.div_mod (a * 2 ^ s) b ltac:(lia)) as Eq.
  pose proof (Z.mod_pos_bound (a * 2 ^ s) b ltac:(lia)).
  set (q := a * 2 ^ s / b) in *. set (m := (a * 2 ^ s) mod b) in *. set (p := 2 ^ s) in *.
  change (2 ^ 1) with 2 in Hb.
  assert (Hq : n * p <= q < (n + 1) * p) by nia.
  assert (Hlo : q = n * p -> m = r * p) by nia.
  assert (Hhi : q = (n + 1) * p - 1 -> m = b - (b - r) * p) by nia.
  assert (Hrp : p <= r * p) by nia. assert (Hbp : p <= (b - r) * p) by nia.
  destruct (Z.ltb_spec (2 * m) b); [| destruct (Z.ltb_spec b (2 * m)); [| destruct (Z.even q)]];
    destruct (Z.eq_dec q (n * p)); destruct (Z.eq_dec q ((n + 1) * p - 1)); lia.
Qed.

Section Exact.
Context (a b : Z) (Ha : 0 <= a < 2 ^ 53) (Hb : 0 < b <= 2 ^ 53).

(** What [a / b] is: either the exact integer quotient or a number strictly
    between the two integers around the quotient. *)
Lemma truediv_cases : exists f s, py_truediv a b = Ret f /\ 0 <= s /\ fe f = - s /\
  ((a mod b = 0 /\ fm f = (a / b) * 2 ^ s)
   \/ (a mod b <> 0 /\ (a / b) * 2 ^ s < fm f < (a / b + 1) * 2 ^ s)).
Proof using Ha Hb.
  unfold py_truediv. destruct (Z.eqb_spec b 0); [lia|]. destruct (Z.eqb_spec a 0) as [-> |].
  { exists (mkFloat 0 0), 0. rewrite Z.mod_0_l, Z.div_0_l by lia. cbn. auto with lia. }
  destruct (fdiv_scale a b ltac:(lia) Hb) as (s & Hs & Ef & Hlt).
  rewrite (Z.abs_eq a), (Z.abs_eq b), (Z.sgn_pos a), (Z.sgn_pos b) by lia.
  rewrite Ef. cbn [fm fe]. rewrite (Z.max_r (- s) 0), Z.pow_0_r, Z.mul_1_r by lia.
  pose proof (Z.pow_pos_nonneg 2 s ltac:(lia) (proj1 Hs)) as Hp.
  pose proof (Z.pow_le_mono_r 2 s 106 ltac:(lia) (proj2 Hs)).
  assert (Hdiv : 0 <= a / b < 2 ^ 53)
    by (split; [apply Z.div_pos; lia | apply Z.div_lt_upper_bound; nia]).
  assert (Hbig : 2 ^ 53 * 2 ^ 106 < 2 ^ 1024) by (vm_compute; reflexivity).
  destruct (Z.eq_dec (a mod b) 0) as [E0 | E0].
  - pose proof (Z.div_mod a b ltac:(lia)) as Ea. rewrite E0, Z.add_0_r in Ea.
    assert (Er : round_even (a * 2 ^ s) b = a / b * 2 ^ s).
    { rewrite Ea at 1. replace (b * (a / b) * 2 ^ s) with (a / b * 2 ^ s * b) by lia.
      apply round_even_exact. lia. }
    rewrite Er in *. destruct (Z.leb_spec (2 ^ 1024) (a / b * 2 ^ s)); [nia|].
    eexists _, s. split; [done|]. cbn. split_and!; [lia | done |]. left. split; [done | lia].
  - pose proof (round_even_between a b s ltac:(lia) ltac:(lia) E0).
    destruct (Z.leb_spec (2 ^ 1024) (round_even (a * 2 ^ s) b)); [nia|].
    eexists _, s. split; [done|]. cbn. split_and!; [lia | done |]. right. split; [done | lia].
Qed.

Lemma float_floor_div : exists f, py_truediv a b = Ret f /\ py_floor f = a / b.
Proof using Ha Hb.
  destruct truediv_cases as (f & s & Ef & Hs & Efe & Hf). exists f. split; [done|].
  unfold py_floor. rewrite Efe, Z.opp_involutive.
  pose proof (Z.pow_pos_nonneg 2 s ltac:(lia) Hs) as Hp.
  assert (Hq : fm f / 2 ^ s = a / b).
  { symmetry. apply (Z.div_unique _ _ _ (fm f - 2 ^ s * (a / b))); [left|]; lia. }
  destruct (Z.leb_spec 0 (- s)); [| done].
  replace s with 0 in * by lia. change (2 ^ 0) with 1 in *. rewrite Z.div_1_r in Hq. cbn. lia.
Qed.

Lemma float_ceil_div : exists f, py_truediv a b = Ret f /\ py_ceil f = ceil_div a b.
Proof using Ha Hb.
  destruct truediv_cases as (f & s & Ef & Hs & Efe & Hf). exists f. split; [done|].
  unfold py_ceil. rewrite Efe, Z.opp_involutive.
  pose proof (Z.pow_pos_nonneg 2 s ltac:(lia) Hs) as Hp.
  pose proof (Z.div_mod a b ltac:(lia)) as Ea. pose proof (Z.mod_pos_bound a b ltac:(lia)).
  assert (Hq : ceil_div (fm f) (2 ^ s) = ceil_div a b).
  { destruct Hf as [[E0 E] | [E0 E]].
    - rewrite E, Z.mul_comm, ceil_div_mult by done. symmetry. apply ceil_div_unique; nia.
    - rewrite (ceil_div_unique a b (a / b + 1)) by nia. apply ceil_div_unique; nia. }
  destruct (Z.leb_spec 0 (- s)); [| exact Hq].
  rewrite <- Hq. replace s with 0 in * by lia. change (- 0) with 0. change (2 ^ 0) with 1.
  symmetry. apply ceil_div_unique; lia.
Qed.
End Exact.
