(* ===== verification/ByteCount.v ===== *)
(** * The statistics threads ([src/hax/hax/bytecount.py], [src/hax/hax/filestats.py])

    [ByteCountUpdater] collects, on the node of the RC, the byte counts of the io
    services per pool version and writes the totals per state of the pool
    versions; [FsStatsUpdater] writes the file system statistics.  The flag
    [stopped] and the [Event] of a thread are members of [events_set]. *)

From S2P Require Import Prelude PyStr PyFloat Json HaxTypes Message Delivery World.
From S2P Require Import Cache ConsulStore Consul ConsulUtil ConfTree ProcStatus Motr.

Record Updater : Type := mkUpdater { up_stopped : nat; up_event : nat }.

(** [datetime.datetime.now()] as [timestamp()] prints in JSON and as [isoformat()]. *)
Class WallClock (E : Type) := wall_clock : World E -> string * string.

(** ** Byte counts per pool version *)

(** The regular expression [^ioservices\/.*\/pvers\/([^/]+)] *)
Definition pver_regex : list rx := [RLit "ioservices/"; RStar; RLit "/pvers/"; RSeg].

(** A byte count in the JSON value of a key. *)
Definition need_int (j : json) : outcome Z :=
  match j with
  | JInt z => Ret z
  | JBool b => Ret (if b then 1 else 0)
  | _ => Raise TypeError
  end.

(** [pver_bc[pver_fid] += byte_count], or the first count of a pool version. *)
Definition add_count (pver_bc : list (string * Z)) (fid : string) (n : Z) : list (string * Z) :=
  match dict_find fid pver_bc with
  | Some m => dict_set fid (m + n) pver_bc
  | None => dict_set fid n pver_bc
  end.

(** The count an entry of the KV store contributes, if its key matches. *)
Definition pver_entry (item : kvitem) : outcome (option (string * Z)) :=
  match rx_match pver_regex (Key item) with
  | None => Ret None
  | Some gs =>
      text ← decode_value (Value item);
      value ← loads text;
      bc ← jget "bc" value;
      n ← need_int bc;
      Ret (Some (group1 gs, n))
  end.

(** [_get_parity_buffers] *)
Definition get_parity_buffers (bc : Z) (state : PverInfo) : outcome Z :=
  let tot_units := data_units state + parity_units state in
  q ← py_truediv bc tot_units;
  Ret (py_ceil q * parity_units state).

Fixpoint map_o {A B} (f : A -> outcome B) (l : list A) : outcome (list B) :=
  match l with
  | [] => Ret []
  | x :: l' => y ← f x; ys ← map_o f l'; Ret (y :: ys)
  end.

(** The entries of [bc_without_parity]. *)
Definition without_parity (pver_state : list (string * PverInfo)) (x : string * Z)
    : outcome (string * Z) :=
  info ← dict_get x.1 (dict_find x.1 pver_state);
  parity ← get_parity_buffers x.2 info;
  Ret (x.1, x.2 - parity).

Section ByteCount.
Context {E : Type} `{ConsulApi E} `{MotrFfi E} `{Others E} `{Fuel} `{Clock E} `{WallClock E}.
Notation W := (World E).

Definition ioservice_items : M W (list kvitem) :=
  items ← kv_get "ioservices/" (Some true) None None;
  match items with
  | KVList l => mret l
  | KVNone => mret []
  | KVItem _ => raise TypeError
  end.

(** [_get_pver_with_pver_status] *)
Definition get_pver_with_pver_status : M W (list (string * PverInfo)) :=
  items ← ioservice_items;
  fold_m (fun pver_items k =>
    p_ver ← lift (index_get 3 (py_split "/" (Key k)));
    match dict_find p_ver pver_items with
    | Some _ => mret pver_items
    | None =>
        fid ← lift (fid_parse p_ver);
        pver_info ← get_pver_status fid;
        mret (dict_set p_ver pver_info pver_items)
    end) [] items.

(** [_calculate_bc_per_pver] *)
Definition calculate_bc_per_pver (pver_state : list (string * PverInfo)) : M W (list (string * Z)) :=
  items ← ioservice_items;
  pver_bc ← fold_m (fun pver_bc pver =>
    e ← lift (pver_entry pver);
    match e with
    | Some (fid, n) => mret (add_count pver_bc fid n)
    | None => mret pver_bc
    end) [] items;
  lift (map_o (without_parity pver_state) pver_bc).

(** The body of the inner [try]: what the io services report, then the totals. *)
Definition update_byte_counts (processes : list (Fid * ObjHealth)) : M W bool :=
  for_each processes (fun x =>
    if bool_decide (x.2 = OK) then
      byte_count ← get_proc_bytecount x.1;
      update_pver_bc byte_count
    else mret tt) ;;
  pver_items ← get_pver_with_pver_status;
  match pver_items with
  | [] => mret false
  | _ =>
      pver_bc ← calculate_bc_per_pver pver_items;
      update_bc_for_dg_category pver_bc pver_items ;;
      mret true
  end.

(** One turn of the loop of [ByteCountUpdater._execute]; [false] from
    [update_byte_counts] is its [continue], which skips the wait. *)
Definition byte_count_round (u : Updater) : M W unit :=
  rc ← am_i_rc;
  if negb rc then wait_for_event (up_event u)
  else
    ready ← is_spiel_ready;
    if negb ready then wait_for_event (up_event u)
    else
      processes ← get_proc_fids_with_status ["ios"];
      match processes with
      | [] => mret tt
      | _ =>
          wait ← catch (update_byte_counts processes)
            (fun e => match e with
                      | HAConsistencyException _ | BytecountException _ => Some (mret true)
                      | _ => None
                      end);
          if (wait : bool) then wait_for_event (up_event u) else mret tt
      end.

Fixpoint updater_loop (n : nat) (u : Updater) (round : M W unit) : M W unit :=
  match n with
  | O => hang
  | S n' =>
      stop ← gets (fun w => bool_decide (up_stopped u ∈ events_set w));
      if (stop : bool) then mret tt else round ;; updater_loop n' u round
  end.

(** [stop] *)
Definition updater_stop (u : Updater) : M W unit :=
  set_flag (up_stopped u) ;; set_flag (up_event u).

(** [ByteCountUpdater._execute]: every exception ends the thread quietly. *)
Definition byte_count_execute (u : Updater) : M W unit :=
  log_exception (catch (updater_loop fuel u (byte_count_round u)) (fun _ => Some (mret tt))).

(** ** File system statistics *)

(** [simplejson.dumps(FsStatsWithTime(...))]: named tuples print as objects;
    the time stamp is a float and its text is the clock's. *)
Definition fs_stats_text (s : FsStats) (timestamp date : string) : string :=
  let stats := JObj [("fs_free_seg", JInt (fs_free_seg s)); ("fs_total_seg", JInt (fs_total_seg s));
                     ("fs_free_disk", JInt (fs_free_disk s)); ("fs_avail_disk", JInt (fs_avail_disk s));
                     ("fs_total_disk", JInt (fs_total_disk s)); ("fs_svc_total", JInt (fs_svc_total s));
                     ("fs_svc_replied", JInt (fs_svc_replied s))] in
  "{" +:+ dumps (JStr "stats") +:+ ": " +:+ dumps stats +:+ ", " +:+ dumps (JStr "timestamp") +:+ ": "
    +:+ timestamp +:+ ", " +:+ dumps (JStr "date") +:+ ": " +:+ dumps (JStr date) +:+ "}".

Definition fs_stats_round (u : Updater) : M W unit :=
  rc ← am_i_rc;
  if negb rc then wait_for_event (up_event u)
  else
    ready ← is_spiel_ready;
    running ← (if (ready : bool) then l ← ensure_ioservices_running; mret (forallb id l)
               else mret false);
    if negb running then wait_for_event (up_event u)
    else
      stats ← get_filesystem_stats;
      now ← gets wall_clock;
      catch (update_fs_stats (fs_stats_text stats now.1 now.2))
        (fun e => match e with HAConsistencyException _ => Some (mret tt) | _ => None end) ;;
      wait_for_event (up_event u).

(** [FsStatsUpdater._execute] *)
Definition fs_stats_execute (u : Updater) : M W unit :=
  log_exception (catch (updater_loop fuel u (fs_stats_round u)) (fun _ => Some (mret tt))).
End ByteCount.

(** ** Properties *)

Definition sum_z (l : list Z) : Z := foldr Z.add 0 l.

(** The bytes a list of counts has for a pool version. *)
Definition bytes_of (p : string) (counts : list (string * Z)) : Z :=
  sum_z (snd <$> List.filter (fun x => String.eqb x.1 p) counts).

Lemma sum_z_app l k : sum_z (l ++ k) = sum_z l + sum_z k.
Proof. unfold sum_z. induction l; cbn; lia. Qed.

Lemma map_o_Forall2 {A B} (f : A -> outcome B) l k :
  map_o f l = Ret k -> Forall2 (fun x y => f x = Ret y) l k.
Proof.
  revert k. induction l as [| x l IH]; cbn; intros k; [intros [= <-]; constructor|].
  unfold mbind, outcome_bind. destruct (f x) eqn:Ex; [| done | done].
  destruct (map_o f l) eqn:El; [| done | done]. intros [= <-]. constructor; auto.
Qed.

(** *** Counting *)
Lemma bytes_of_snoc p counts x :
  bytes_of p (counts ++ [x]) = bytes_of p counts + (if String.eqb x.1 p then x.2 else 0).
Proof.
  unfold bytes_of. rewrite List.filter_app, fmap_app, sum_z_app. cbn.
  destruct (String.eqb x.1 p); unfold sum_z; cbn; lia.
Qed.

(** A dict of totals for a list of counts. *)
Definition totals (counts d : list (string * Z)) : Prop :=
  NoDup (dict_keys d) /\ (forall p, p ∈ dict_keys d <-> p ∈ counts.*1)
  /\ forall p n, dict_find p d = Some n -> n = bytes_of p counts.

Lemma dict_find_keys {A} p (d : list (string * A)) : p ∈ dict_keys d <-> is_Some (dict_find p d).
Proof.
  unfold dict_keys. induction d as [| [k v] d IH]; cbn.
  - split; [set_solver | by intros [? ?]].
  - destruct (String.eqb_spec p k) as [-> |]; [split; [by eexists | set_solver]|].
    rewrite <- IH. set_solver.
Qed.

Lemma dict_find_elem_NoDup {A} p (x : A) d :
  NoDup (dict_keys d) -> (p, x) ∈ d -> dict_find p d = Some x.
Proof.
  unfold dict_keys. induction d as [| [k y] d IH]; cbn; [set_solver|]. intros [Hn Hnd]%NoDup_cons Hin.
  destruct (String.eqb_spec p k) as [-> |]; [| apply IH; set_solver].
  apply elem_of_cons in Hin as [[= ->] | Hin]; [done|].
  destruct Hn. apply list_elem_of_fmap. by exists (k, x).
Qed.

Lemma dict_set_keys {A} p (v : A) d :
  dict_keys (dict_set p v d) = if decide (p ∈ dict_keys d) then dict_keys d else dict_keys d ++ [p].
Proof.
  destruct (decide (p ∈ dict_keys d)) as [Hin | Hin].
  - revert Hin. unfold dict_keys. induction d as [| [k x] d IH]; cbn; [set_solver|]. intros Hin.
    destruct (String.eqb_spec p k) as [-> |]; cbn; [done|]. rewrite IH; [done | set_solver].
  - rewrite dict_set_fresh by done. unfold dict_keys. by rewrite fmap_app.
Qed.

Lemma dict_set_NoDup {A} p (v : A) d : NoDup (dict_keys d) -> NoDup (dict_keys (dict_set p v d)).
Proof.
  intros Hd. rewrite dict_set_keys. destruct (decide _); [done|].
  apply NoDup_app. split; [done|]. split; [set_solver | apply NoDup_singleton].
Qed.

Lemma add_count_totals counts d p n :
  totals counts d -> totals (counts ++ [(p, n)]) (add_count d p n).
Proof.
  intros (Hnd & Hk & Hv). unfold add_count, totals.
  assert (Hset : forall m, dict_keys (dict_set p m d) ⊆ p :: dict_keys d
                           /\ p :: dict_keys d ⊆ dict_keys (dict_set p m d)).
  { intros m. rewrite dict_set_keys. destruct (decide _); set_solver. }
  assert (Hnew : dict_find p d = None -> bytes_of p counts = 0).
  { intros Hnone. unfold bytes_of. assert (Hp : p ∉ counts.*1)
      by (rewrite <- Hk, dict_find_keys, Hnone; by intros []).
    clear -Hp. induction counts as [| x counts IH]; [done|]. cbn in *.
    destruct (String.eqb_spec x.1 p); [set_solver|]. apply IH. set_solver. }
  set (m := match dict_find p d with Some m => m + n | None => n end).
  replace (match dict_find p d with Some m => dict_set p (m + n) d | None => dict_set p n d end)
    with (dict_set p m d) by (unfold m; by destruct (dict_find p d)).
  split_and!.
  - by apply dict_set_NoDup.
  - intros q. rewrite fmap_app. cbn. specialize (Hset m). specialize (Hk q). set_solver.
  - intros q k. rewrite bytes_of_snoc. cbn. destruct (String.eqb_spec p q) as [<- |].
    + rewrite dict_find_set_eq. intros [= <-]. unfold m.
      destruct (dict_find p d) as [m0 |] eqn:Ed; [by rewrite (Hv _ _ Ed) | rewrite Hnew by done; lia].
    + rewrite dict_find_set_ne by done. intros Hq. rewrite (Hv _ _ Hq). lia.
Qed.

Lemma foldl_totals l : forall counts d, totals counts d ->
  totals (counts ++ l) (foldl (fun d x => add_count d x.1 x.2) d l).
Proof.
  induction l as [| [p n] l IH]; intros counts d Hd; cbn; [by rewrite app_nil_r|].
  replace (counts ++ (p, n) :: l) with ((counts ++ [(p, n)]) ++ l) by by rewrite <- app_assoc.
  by apply IH, add_count_totals.
Qed.

Lemma totals_nil : totals [] [].
Proof. split_and!; [constructor | done | done]. Qed.

Section ByteCountProps.
Context {E : Type} `{ConsulApi E} `{MotrFfi E} `{Others E} `{Fuel} `{Clock E}.
Implicit Types w : World E.

(** The loop over the entries is the fold over the counts they contribute. *)
Lemma count_loop items : forall acc w r w',
  fold_m (fun pver_bc pver =>
    e ← lift (pver_entry pver);
    match e with
    | Some (fid, n) => mret (add_count pver_bc fid n)
    | None => mret pver_bc
    end) acc items w = (Ret r, w') ->
  w' = w /\ exists es, map_o pver_entry items = Ret es
    /\ r = foldl (fun d x => add_count d x.1 x.2) acc (omap id es).
Proof.
  induction items as [| i items IH]; intros acc w r w'; cbn.
  { intros [= <- <-]. split; [done|]. by exists []. }
  unfold mbind at 1 2, M_bind, lift. destruct (pver_entry i) as [x | |] eqn:Ei; [| done | done].
  destruct x as [[p n] |]; intros Hrun; apply IH in Hrun as (-> & es & Hes & ->);
    (split; [done|]); rewrite Hes; cbn; by eexists.
Qed.

(** What [calculate_bc_per_pver] returns, entry by entry. *)
Lemma calculate_run pver_state w w' res :
  calculate_bc_per_pver pver_state w = (Ret res, w') ->
  exists items es d, ioservice_items w = (Ret items, w') /\ map_o pver_entry items = Ret es
    /\ totals (omap id es) d /\ Forall2 (fun x y => without_parity pver_state x = Ret y) d res.
Proof.
  intros Hrun. unfold calculate_bc_per_pver in Hrun. inv_run Hrun. inv_run Hrun.
  apply count_loop in Hrun1 as (-> & es & Hes & ->).
  unfold lift in Hrun. injection Hrun as Hmap <-.
  eexists _, es, _. split; [exact Hrun0|]. split; [done|].
  split; [| by apply map_o_Forall2]. apply (foldl_totals _ []). apply totals_nil.
Qed.

Lemma without_parity_key ps x y : without_parity ps x = Ret y ->
  y.1 = x.1 /\ exists info, dict_find x.1 ps = Some info
    /\ get_parity_buffers x.2 info = Ret (x.2 - y.2).
Proof.
  unfold without_parity, dict_get, mbind, outcome_bind.
  destruct (dict_find x.1 ps) as [info |]; [| done].
  destruct (get_parity_buffers x.2 info) as [p | |] eqn:Ep; [| done | done].
  intros [= <-]. cbn. split; [done|]. exists info. split; [done|]. rewrite Ep. f_equal. lia.
Qed.

Lemma without_parity_keys ps d res :
  Forall2 (fun x y => without_parity ps x = Ret y) d res -> dict_keys res = dict_keys d.
Proof.
  unfold dict_keys. induction 1 as [| x y d res Hx _ IH]; [done|]. cbn.
  by destruct (without_parity_key _ _ _ Hx) as [-> _]; rewrite IH.
Qed.

(** The byte count of every pool version that has an entry in the KV store is reported once;
    it is the sum of the counts of its entries less the share of the parity units. *)
Theorem byte_counts_by_pver pver_state w w' res :
  calculate_bc_per_pver pver_state w = (Ret res, w') ->
  exists items es, ioservice_items w = (Ret items, w') /\ map_o pver_entry items = Ret es
    /\ NoDup (dict_keys res) /\ (forall p, p ∈ dict_keys res <-> p ∈ (omap id es).*1)
    /\ forall p n, (p, n) ∈ res -> exists info, dict_find p pver_state = Some info
         /\ get_parity_buffers (bytes_of p (omap id es)) info = Ret (bytes_of p (omap id es) - n).
Proof.
  intros (items & es & d & Hi & Hes & (Hnd & Hk & Hv) & Hall)%calculate_run.
  exists items, es. pose proof (without_parity_keys _ _ _ Hall) as Ekeys.
  rewrite Ekeys. split_and!; [done | done | done | done |]. intros p n Hin.
  apply list_elem_of_lookup_1 in Hin as [j Hj].
  destruct (Forall2_lookup_r _ _ _ _ _ Hall Hj) as ([q m] & Hq & Hw).
  destruct (without_parity_key _ _ _ Hw) as (Eq & info & Hf & Hp). cbn in *. subst q.
  exists info. split; [done|]. rewrite <- (Hv p m); [done|].
  by eapply dict_find_elem_NoDup, list_elem_of_lookup_2.
Qed.

(** *** Totals per state *)
Lemma pver_status_NoDup w w' ps : get_pver_with_pver_status w = (Ret ps, w') -> NoDup (dict_keys ps).
Proof.
  intros Hrun. unfold get_pver_with_pver_status in Hrun. inv_run Hrun. clear Hrun0.
  assert (Hnil : NoDup (dict_keys ([] : list (string * PverInfo)))) by constructor.
  revert w0 Hnil Hrun. generalize ([] : list (string * PverInfo)).
  induction a as [| k items IH]; intros acc w0 Hacc; cbn; [by intros [= <- _]|]. intros Hrun.
  inv_run Hrun. apply IH in Hrun; [done|]. inv_run Hrun0. destruct (dict_find a0 acc).
  - by injection Hrun0 as <- _.
  - inv_run Hrun0. inv_run Hrun0. injection Hrun0 as <- _. by apply dict_set_NoDup.
Qed.

Definition bytes_in (d : list (string * Z)) (l : list (string * PverInfo)) : Z :=
  sum_z ((fun x => default 0 (dict_find x.1 d)) <$> l).

Lemma bytes_in_cons d f x ps :
  bytes_in d (List.filter f (x :: ps))
  = (if f x then default 0 (dict_find x.1 d) else 0) + bytes_in d (List.filter f ps).
Proof. cbn. by destruct (f x). Qed.

Lemma add_state_get st s bc data :
  state_get st (add_state s bc data) = state_get st data + (if bool_decide (s = st) then bc else 0).
Proof.
  induction data as [| [s' n] data IH]; cbn; [case_bool_decide; lia|].
  destruct (bool_decide (s' = s)) eqn:Es; [apply bool_decide_eq_true in Es as -> |]; cbn;
    repeat case_bool_decide; simplify_eq; rewrite ?IH; lia.
Qed.

(** The loop that accumulates per state computes the sums. *)
Lemma bytes_in_state_sum st d ps :
  bytes_in_state st d ps = bytes_in d (List.filter (fun x => bool_decide (pi_state x.2 = st)) ps).
Proof.
  assert (Hgen : forall data, state_get st (foldl (fun data x =>
      add_state (pi_state x.2) (default 0 (dict_find x.1 d)) data) data ps)
    = state_get st data + bytes_in d (List.filter (fun x => bool_decide (pi_state x.2 = st)) ps)).
  { induction ps as [| x ps IH]; intros data; cbn [foldl]; [cbn; lia|].
    rewrite IH, add_state_get, bytes_in_cons. lia. }
  apply (Hgen []).
Qed.

Lemma bytes_in_states d ps :
  sum_z ((fun x => bytes_in_state x.1 d ps) <$> pver_state_map) = bytes_in d ps.
Proof.
  unfold sum_z, pver_state_map. cbn [fmap list_fmap foldr fst]. rewrite !bytes_in_state_sum.
  induction ps as [| x ps IH]; [done|]. rewrite !bytes_in_cons.
  change (bytes_in d (x :: ps)) with (default 0 (dict_find x.1 d) + bytes_in d ps).
  rewrite <- IH. generalize (default 0 (dict_find x.1 d)) as v. intros v.
  destruct (pi_state x.2); repeat (case_bool_decide; try congruence); lia.
Qed.

Lemma bytes_in_all d : forall ps, NoDup (dict_keys d) -> NoDup (dict_keys ps) ->
  dict_keys d ⊆ dict_keys ps -> bytes_in d ps = sum_z d.*2.
Proof.
  induction d as [| [p n] d IH]; intros ps Hd Hps Hsub.
  { clear. induction ps as [| x ps IH]; [done|]. exact IH. }
  cbn in Hd. apply NoDup_cons in Hd as [Hp Hd].
  assert (Hin : p ∈ dict_keys ps) by (apply Hsub; left).
  unfold dict_keys in Hin. apply list_elem_of_fmap in Hin as ([p' info] & E1 & Hin). cbn in E1. subst p'.
  apply list_elem_of_split in Hin as (l1 & l2 & ->).
  change (sum_z ((p, n) :: d).*2) with (n + sum_z d.*2).
  unfold dict_keys in Hps, Hsub, Hp. rewrite fmap_app in Hps, Hsub. cbn in Hps, Hsub.
  assert (Hnot : p ∉ l1.*1 ++ l2.*1).
  { apply NoDup_app in Hps as (? & Hdis & [? ?]%NoDup_cons). set_solver. }
  rewrite <- (IH (l1 ++ l2)).
  - unfold bytes_in. rewrite !fmap_app, !sum_z_app. cbn. rewrite String.eqb_refl. cbn.
    assert (Eq : forall l, p ∉ l.*1 ->
      sum_z ((fun x : string * PverInfo =>
        default 0 (if String.eqb x.1 p then Some n else dict_find x.1 d)) <$> l)
      = sum_z ((fun x => default 0 (dict_find x.1 d)) <$> l)).
    { clear. intros l Hl. f_equal. apply list_fmap_ext. intros i x Hx.
      apply list_elem_of_lookup_2 in Hx. destruct (String.eqb_spec x.1 p) as [<- |]; [| done].
      destruct Hl. by apply list_elem_of_fmap_2. }
    rewrite !Eq by set_solver. lia.
  - done.
  - unfold dict_keys. rewrite fmap_app. apply NoDup_app in Hps as (? & ? & [? ?]%NoDup_cons).
    apply NoDup_app. set_solver.
  - unfold dict_keys. rewrite fmap_app. intros q Hq. specialize (Hsub q). set_solver.
Qed.

(** C21: no byte is lost or counted twice: the four totals [update_bc_for_dg_category] writes
    add up to the byte counts of all the pool versions. *)
Theorem category_totals_add_up ps res w w1 w2 w3 :
  get_pver_with_pver_status w = (Ret ps, w1) ->
  calculate_bc_per_pver ps w2 = (Ret res, w3) ->
  sum_z ((fun x => bytes_in_state x.1 res ps) <$> pver_state_map) = sum_z res.*2.
Proof.
  intros Hps%pver_status_NoDup (items & es & d & _ & _ & (Hnd & _) & Hall)%calculate_run.
  pose proof (without_parity_keys _ _ _ Hall) as Ekeys.
  rewrite bytes_in_states. apply bytes_in_all; [by rewrite Ekeys | done |].
  rewrite Ekeys. intros p. unfold dict_keys at 1.
  intros ([q m] & -> & Hin)%list_elem_of_fmap. apply list_elem_of_lookup_1 in Hin as [j Hj].
  destruct (Forall2_lookup_l _ _ _ _ _ Hall Hj) as (y & _ & Hw).
  destruct (without_parity_key _ _ _ Hw) as (_ & info & Hf & _).
  apply dict_find_keys. by exists info.
Qed.
End ByteCountProps.

(** C22: the parity share is computed exactly, although by a floating-point division, for counts
    below 2^53: it is the number of bytes per unit, rounded up, times the parity units.  The
    count left for the data is below the data units' share of the total by
    less than one byte per parity unit. *)
Theorem parity_share_exact bc info :
  0 <= bc < 2 ^ 53 -> 0 <= data_units info -> 0 <= parity_units info ->
  0 < data_units info + parity_units info <= 2 ^ 53 ->
  let t := data_units info + parity_units info in
  exists parity, get_parity_buffers bc info = Ret parity
    /\ parity = parity_units info * ceil_div bc t
    /\ bc * data_units info - parity_units info * (t - 1) <= (bc - parity) * t <= bc * data_units info.
Proof.
  intros Hbc Hd Hp Ht t. unfold get_parity_buffers.
  destruct (float_ceil_div bc t Hbc Ht) as (f & Ef & Ec). fold t. rewrite Ef. cbn.
  eexists. split; [done|]. rewrite Ec. pose proof (ceil_div_spec bc t ltac:(lia)).
  split; [lia|]. subst t. nia.
Qed.

Lemma parity_share_exact_witness :
  exists parity, get_parity_buffers 4097 (mkPverInfo (mkFid 0 0) M0_CPS_HEALTHY 4 2 10 4096) = Ret parity
    /\ parity = 2 * ceil_div 4097 6
    /\ 4097 * 4 - 2 * (6 - 1) <= (4097 - parity) * 6 <= 4097 * 4.
Proof. apply (parity_share_exact 4097 (mkPverInfo (mkFid 0 0) M0_CPS_HEALTHY 4 2 10 4096)); cbn; lia. Defined.

(** The share of the parity can exceed the count itself. *)
Example parity_share_above_count :
  get_parity_buffers 1 (mkPverInfo (mkFid 0 0) M0_CPS_HEALTHY 1 2 3 0) = Ret 2.
Proof. reflexivity. Qed.

(** Above 2^53 the quotient is rounded: one unit per byte, and a byte is lost. *)
Example parity_share_rounded :
  get_parity_buffers (2 ^ 53 + 1) (mkPverInfo (mkFid 0 0) M0_CPS_HEALTHY 0 1 1 0) = Ret (2 ^ 53).
Proof. vm_compute. reflexivity. Qed.

(** ** Two io services and two pool versions *)
Definition bc_kv : list (string * string) :=
  let key ios pver := "ioservices/0x7200000000000001:" +:+ ios +:+ "/pvers/0x7600000000000001:"
                        +:+ pver +:+ "/users/1" in
  let value n := dumps (JObj [("bc", JInt n); ("object_cnt", JInt 1)]) in
  [(key "0x20" "0x6", value 4096); (key "0x20" "0x7", value 10); (key "0x21" "0x6", value 1)].

Definition bc_world : World server := world_init (server_of bc_kv) (Some "node1") 3.

Definition bc_states : list (string * PverInfo) :=
  [("0x7600000000000001:0x6", mkPverInfo (mkFid 0x7600000000000001 6) M0_CPS_HEALTHY 4 2 10 4096);
   ("0x7600000000000001:0x7", mkPverInfo (mkFid 0x7600000000000001 7) M0_CPS_DEGRADED 4 2 10 4096)].

(** Motr knows the two pool versions. *)
Definition bc_ffi : MotrFfi server := {|
  ffi_init_motr_api := mret 1;
  ffi_rc _ := mret 0;
  ffi_ids _ := mret [];
  ffi_filesystem_stats_fetch := mret None;
  ffi_proc_bytecount_fetch _ := mret None;
  ffi_pver_status_fetch f :=
    mret (snd <$> List.find (fun x => fid_eqb (pi_fid x.2) (from_struct f)) bc_states);
  ffi_repair_status _ := mret None;
  ffi_rebalance_status _ := mret None;
|}.

Definition bc_result : list (string * Z) :=
  [("0x7600000000000001:0x6", 2731); ("0x7600000000000001:0x7", 6)].

Lemma byte_counts_by_pver_witness :
  exists items es, ioservice_items bc_world = (Ret items, (calculate_bc_per_pver bc_states bc_world).2)
    /\ map_o pver_entry items = Ret es /\ NoDup (dict_keys bc_result)
    /\ (forall p, p ∈ dict_keys bc_result <-> p ∈ (omap id es).*1)
    /\ forall p n, (p, n) ∈ bc_result -> exists info, dict_find p bc_states = Some info
         /\ get_parity_buffers (bytes_of p (omap id es)) info = Ret (bytes_of p (omap id es) - n).
Proof. apply byte_counts_by_pver. apply run_ret. vm_compute. reflexivity. Defined.

Lemma category_totals_add_up_witness :
  sum_z ((fun x => bytes_in_state x.1 bc_result bc_states) <$> pver_state_map) = sum_z bc_result.*2.
Proof.
  eapply (@category_totals_add_up server _ bc_ffi bc_states bc_result bc_world _ bc_world);
    apply run_ret; vm_compute; reflexivity.
Defined.
