(* ===== verification/Dhall.v ===== *)
(** * The Dhall text of the cluster description

    The classes of [src/provisioning/miniprov/hare_mp/types.py] print themselves
    as Dhall expressions: [term] is the part of the syntax they use and [print]
    their [__str__] methods.  [parse] reads the text back, and [check] is the type
    check against the types that [hare_mp/dhall/gencdf.dhall] declares for it. *)

From S2P Require Import Prelude PyStr Json.

(** [TWord] is a number, a truth value or a name; [TNone] and [TNil] carry the
    text of a type. *)
Inductive term : Type :=
| TText (s : string)
| TWord (s : string)
| TNone (ty : string)
| TSome (t : term)
| TList (l : list term)
| TNil (ty : string)
| TRec (l : list (string * term)).

Section TermInd.
Context (P : term -> Prop).
Context (Ptext : forall s, P (TText s)) (Pword : forall s, P (TWord s))
  (Pnone : forall c, P (TNone c)) (Psome : forall t, P t -> P (TSome t))
  (Plist : forall l, Forall P l -> P (TList l)) (Pnil : forall c, P (TNil c))
  (Prec : forall l, Forall (fun x => P x.2) l -> P (TRec l)).

(** Induction that reaches the elements of lists and records. *)
Fixpoint term_induction (t : term) : P t :=
  match t with
  | TText s => Ptext s
  | TWord s => Pword s
  | TNone c => Pnone c
  | TSome t => Psome t (term_induction t)
  | TList l => Plist l
      ((fix go l := match l return Forall P l with
        | [] => Forall_nil_2 _
        | x :: l' => Forall_cons_2 _ _ _ (term_induction x) (go l')
        end) l)
  | TNil c => Pnil c
  | TRec l => Prec l
      ((fix go l := match l return Forall (fun x => P x.2) l with
        | [] => Forall_nil_2 _
        | x :: l' => Forall_cons_2 _ _ _ (term_induction x.2) (go l')
        end) l)
  end.
End TermInd.

(** ** Printing *)

(** [', '.join(...)] *)
Fixpoint join_chars (l : list (list ascii)) : list ascii :=
  match l with
  | [] => []
  | [x] => x
  | x :: l' => x ++ chars ", " ++ join_chars l'
  end.

Fixpoint print (t : term) : list ascii :=
  match t with
  | TText s => quote :: chars s ++ [quote]
  | TWord s => chars s
  | TNone c => chars "None (" ++ chars c ++ chars ")"
  | TSome t => chars "Some (" ++ print t ++ chars ")"
  | TList l => chars "[" ++ join_chars (List.map print l) ++ chars "]"
  | TNil c => chars "[] : " ++ chars c
  | TRec l =>
      chars "{ " ++ join_chars (List.map (fun x => chars x.1 ++ chars " = " ++ print x.2) l)
        ++ chars " }"
  end.

Definition print_str (t : term) : string := string_of_list_ascii (print t).

(** ** Reading back *)
Definition word_char (c : ascii) : bool :=
  let n := nat_of_ascii c in
  ((48 <=? n) && (n <=? 57) || (65 <=? n) && (n <=? 90) || (97 <=? n) && (n <=? 122)
   || (n =? 46) || (n =? 95) || (n =? 45))%nat.

Fixpoint span (ok : ascii -> bool) (l : list ascii) : list ascii * list ascii :=
  match l with
  | c :: l' => if ok c then let '(a, b) := span ok l' in (c :: a, b) else ([], l)
  | [] => ([], [])
  end.

(** Words separated by single spaces. *)
Fixpoint span_type (l : list ascii) : list ascii * list ascii :=
  match l with
  | c :: l' =>
      if word_char c || (Ascii.eqb c " " && match l' with d :: _ => word_char d | [] => false end)
      then let '(a, b) := span_type l' in (c :: a, b) else ([], l)
  | [] => ([], [])
  end.

Definition text_char (c : ascii) : bool :=
  negb (Ascii.eqb c quote || Ascii.eqb c "\" || Ascii.eqb c "$").

Definition str (l : list ascii) : string := string_of_list_ascii l.

Definition strip (p : string) (l : list ascii) : option (list ascii) := strip_lit (chars p) l.

Fixpoint parse (fuel : nat) (l : list ascii) : option (term * list ascii) :=
  match fuel with
  | O => None
  | S f =>
      match l with
      | c :: r =>
          if Ascii.eqb c quote then
            let '(s, r1) := span text_char r in
            match r1 with
            | q :: r2 => if Ascii.eqb q quote then Some (TText (str s), r2) else None
            | [] => None
            end
          else if Ascii.eqb c "{" then
            match strip " " r with
            | Some r1 => '(l, r2) ← parse_fields f r1; Some (TRec l, r2)
            | None => None
            end
          else if Ascii.eqb c "[" then
            match strip "] : " r with
            | Some r1 => let '(ty, r2) := span_type r1 in Some (TNil (str ty), r2)
            | None => '(l, r2) ← parse_items f r; Some (TList l, r2)
            end
          else
            let '(w, r1) := span word_char l in
            match w, strip " (" r1 with
            | [], _ => None
            | _, None => Some (TWord (str w), r1)
            | _, Some r2 =>
                if String.eqb (str w) "None" then
                  let '(ty, r3) := span_type r2 in
                  r4 ← strip ")" r3; Some (TNone (str ty), r4)
                else if String.eqb (str w) "Some" then
                  '(t, r3) ← parse f r2; r4 ← strip ")" r3; Some (TSome t, r4)
                else None
            end
      | [] => None
      end
  end
with parse_items (fuel : nat) (l : list ascii) : option (list term * list ascii) :=
  match fuel with
  | O => None
  | S f =>
      '(t, r) ← parse f l;
      match strip ", " r with
      | Some r1 => '(ts, r2) ← parse_items f r1; Some (t :: ts, r2)
      | None => r1 ← strip "]" r; Some ([t], r1)
      end
  end
with parse_fields (fuel : nat) (l : list ascii) : option (list (string * term) * list ascii) :=
  match fuel with
  | O => None
  | S f =>
      let '(k, r0) := span word_char l in
      r ← strip " = " r0;
      '(t, r1) ← parse f r;
      match strip ", " r1 with
      | Some r2 => '(ts, r3) ← parse_fields f r2; Some ((str k, t) :: ts, r3)
      | None => r2 ← strip " }" r1; Some ([(str k, t)], r2)
      end
  end.

Definition read_back (s : string) : option term :=
  match parse (S (String.length s)) (chars s) with
  | Some (t, []) => Some t
  | _ => None
  end.

(** ** Types *)
Inductive ty : Type :=
| TyText | TyNatural | TyBool | TyDouble
| TyUnion (names : list string)
| TyOptional (t : ty)
| TyList (t : ty)
| TyRecord (l : list (string * ty)).

Definition is_natural (s : string) : bool :=
  match chars s with [] => false | l => forallb rx_digit l end.

Definition is_double (s : string) : bool :=
  match py_split "." s with
  | [a; b] => is_natural a && is_natural b
  | _ => false
  end.

(** [let] bindings of [gencdf.dhall] and the types of [cfgen/dhall/types/] it uses. *)
Definition Protocol_ty : ty := TyUnion ["P.tcp"; "P.o2ib"].
Definition PoolType_ty : ty := TyUnion ["T.PoolType.sns"; "T.PoolType.dix"; "T.PoolType.md"].
Definition Disk_ty : ty :=
  TyRecord [("path", TyOptional TyText); ("size", TyOptional TyNatural);
            ("blksize", TyOptional TyNatural)].
Definition IODisks_ty : ty :=
  TyRecord [("meta_data", TyOptional TyText); ("data", TyList Disk_ty); ("log", TyList Disk_ty)].
Definition M0ServerDesc_ty : ty :=
  TyRecord [("runs_confd", TyOptional TyBool); ("io_disks", IODisks_ty)].
Definition M0ClientDesc_ty : ty := TyRecord [("name", TyText); ("instances", TyNatural)].
Definition Port_ty : ty := TyRecord [("name", TyText); ("port", TyNatural)].
Definition NetworkPorts_ty : ty :=
  TyRecord [("hax", TyOptional TyNatural); ("hax_http", TyOptional TyNatural);
            ("m0_server", TyOptional (TyList Port_ty)); ("m0_client_s3", TyOptional TyNatural);
            ("m0_client_other", TyOptional (TyList Port_ty))].
Definition NodeInfo_ty : ty :=
  TyRecord [("hostname", TyText); ("node_group", TyOptional TyText);
            ("machine_id", TyOptional TyText); ("processorcount", TyOptional TyNatural);
            ("memorysize_mb", TyOptional TyDouble); ("data_iface", TyText);
            ("data_iface_ip_addr", TyOptional TyText); ("data_iface_type", TyOptional Protocol_ty);
            ("transport_type", TyText); ("m0_servers", TyOptional (TyList M0ServerDesc_ty));
            ("m0_clients", TyOptional (TyList M0ClientDesc_ty));
            ("ports_info", TyOptional NetworkPorts_ty)].
Definition DiskRef_ty : ty := TyRecord [("path", TyText); ("node", TyOptional TyText)].
Definition AllowedFailures_ty : ty :=
  TyRecord [("site", TyNatural); ("rack", TyNatural); ("encl", TyNatural); ("ctrl", TyNatural);
            ("disk", TyNatural)].
Definition PoolInfo_ty : ty :=
  TyRecord [("name", TyText); ("disk_refs", TyOptional (TyList DiskRef_ty));
            ("data_units", TyNatural); ("parity_units", TyNatural);
            ("spare_units", TyOptional TyNatural); ("type", PoolType_ty);
            ("allowed_failures", TyOptional AllowedFailures_ty)].
Definition ProfileInfo_ty : ty := TyRecord [("name", TyText); ("pools", TyList TyText)].
Definition FdmiFilterDesc_ty : ty :=
  TyRecord [("name", TyText); ("node", TyText); ("client_index", TyNatural);
            ("substrings", TyList TyText)].
Definition ClusterInfo_ty : ty :=
  TyRecord [("create_aux", TyOptional TyBool); ("generate_formulaic_pvers", TyOptional TyBool);
            ("node_info", TyList NodeInfo_ty); ("pool_info", TyList PoolInfo_ty);
            ("profile_info", TyList ProfileInfo_ty);
            ("fdmi_filter_info", TyOptional (TyList FdmiFilterDesc_ty))].

(** The type expressions the code writes. *)
Definition type_exprs : list (string * ty) :=
  [("Text", TyText); ("Natural", TyNatural); ("Bool", TyBool); ("Double", TyDouble);
   ("P", Protocol_ty); ("List Text", TyList TyText); ("List Disk", TyList Disk_ty);
   ("List DiskRef", TyList DiskRef_ty); ("AllowedFailures", AllowedFailures_ty);
   ("List ServerPort", TyList Port_ty); ("List ClientPort", TyList Port_ty);
   ("T.NetworkPorts", NetworkPorts_ty); ("List M0ServerDesc", TyList M0ServerDesc_ty);
   ("List M0ClientDesc", TyList M0ClientDesc_ty); ("List NodeInfo", TyList NodeInfo_ty);
   ("List PoolInfo", TyList PoolInfo_ty); ("List ProfileInfo", TyList ProfileInfo_ty);
   ("List T.FdmiFilterDesc", TyList FdmiFilterDesc_ty)].

#[global] Instance ty_eq_dec : EqDecision ty.
Proof.
  refine (fix go (a b : ty) : {a = b} + {a <> b} := _).
  assert (Hl : forall l k : list (string * ty), {l = k} + {l <> k}).
  { fix gol 1. intros [| [x a1] l] [| [y b1] k]; [by left | by right | by right |].
    destruct (String.string_dec x y) as [-> |]; [| right; congruence].
    destruct (go a1 b1) as [-> |]; [| right; congruence].
    destruct (gol l k) as [-> |]; [by left | right; congruence]. }
  destruct a as [| | | | n1 | a1 | a1 | l1], b as [| | | | n2 | b1 | b1 | l2];
    try (by left); try (by right).
  - destruct (decide (n1 = n2)) as [-> |]; [by left | right; congruence].
  - destruct (go a1 b1) as [-> |]; [by left | right; congruence].
  - destruct (go a1 b1) as [-> |]; [by left | right; congruence].
  - destruct (Hl l1 l2) as [-> |]; [by left | right; congruence].
Defined.

(** The type check; the fields of a record come in the order of its type. *)
Fixpoint check (t : term) (a : ty) : bool :=
  match t, a with
  | TText _, TyText => true
  | TWord w, TyNatural => is_natural w
  | TWord w, TyBool => String.eqb w "True" || String.eqb w "False"
  | TWord w, TyDouble => is_double w
  | TWord w, TyUnion names => existsb (String.eqb w) names
  | TNone c, TyOptional b => bool_decide (dict_find c type_exprs = Some b)
  | TSome t, TyOptional b => check t b
  | TNil c, TyList _ => bool_decide (dict_find c type_exprs = Some a)
  | TList l, TyList b => forallb (fun x => check x b) l
  | TRec l, TyRecord fs =>
      (fix go l fs := match l, fs with
       | [], [] => true
       | (k, x) :: l', (k', b) :: fs' => String.eqb k k' && check x b && go l' fs'
       | _, _ => false
       end) l fs
  | _, _ => false
  end.

(** ** The round trip *)

(** A type expression: words with single spaces between them. *)
Fixpoint type_ok (l : list ascii) : bool :=
  match l with
  | [] => true
  | c :: l' =>
      (word_char c || (Ascii.eqb c " " && match l' with d :: _ => word_char d | [] => false end))
      && type_ok l'
  end.

Definition word_ok (l : list ascii) : bool :=
  match l with [] => false | _ => forallb word_char l end.

Fixpoint wf_term (t : term) : bool :=
  match t with
  | TText s => forallb text_char (chars s)
  | TWord s => word_ok (chars s)
  | TNone c | TNil c => type_ok (chars c)
  | TSome t => wf_term t
  | TList l => match l with [] => false | _ => forallb wf_term l end
  | TRec l =>
      match l with [] => false | _ => forallb (fun x => word_ok (chars x.1) && wf_term x.2) l end
  end.

(** What may come after an expression. *)
Definition follows (r : list ascii) : bool :=
  match r with
  | [] => true
  | [c] => existsb (Ascii.eqb c) [")"; ","; "]"]%char
  | c :: d :: _ => existsb (Ascii.eqb c) [")"; ","; "]"]%char || (Ascii.eqb c " " && Ascii.eqb d "}")
  end.

Fixpoint size (t : term) : nat :=
  match t with
  | TSome t => S (size t)
  | TList l => S (foldr (fun x n => S (size x + n)) 0 l)%nat
  | TRec l => S (foldr (fun x n => S (size x.2 + n)) 0 l)%nat
  | _ => 1
  end.

Lemma chars_str l : chars (str l) = l.
Proof. apply list_ascii_of_string_of_list_ascii. Qed.

Lemma str_of_chars s : str (chars s) = s.
Proof. apply string_of_list_ascii_of_string. Qed.

Lemma span_app ok l r :
  forallb ok l = true -> match r with c :: _ => ok c = false | [] => True end ->
  span ok (l ++ r) = (l, r).
Proof.
  intros Hl Hr. induction l as [| c l IH]; cbn.
  - destruct r as [| c r]; [done|]. cbn. by rewrite Hr.
  - cbn in Hl. apply andb_prop in Hl as [-> Hl]. by rewrite IH.
Qed.

Lemma follows_head r : follows r = true ->
  match r with
  | c :: r' => word_char c = false
      /\ (Ascii.eqb c " " && match r' with d :: _ => word_char d | [] => false end) = false
  | [] => True
  end.
Proof.
  destruct r as [| c r]; [done|]. intros H.
  assert (Hc : c = ")"%char \/ c = ","%char \/ c = "]"%char
               \/ (c = " "%char /\ exists r', r = "}"%char :: r')).
  { destruct r as [| d r]; cbn in H;
      destruct (Ascii.eqb_spec c ")"); [auto | | auto |];
      destruct (Ascii.eqb_spec c ","); [auto | | auto |];
      destruct (Ascii.eqb_spec c "]"); [auto | | auto |]; cbn in H; [done|].
    apply andb_prop in H as [H1%Ascii.eqb_eq H2%Ascii.eqb_eq]. subst. right. right. right.
    split; [done | by eexists]. }
  destruct Hc as [-> | [-> | [-> | [-> [r' ->]]]]]; done.
Qed.

Lemma span_type_app l r : type_ok l = true -> follows r = true -> span_type (l ++ r) = (l, r).
Proof.
  intros Hl Hr%follows_head. induction l as [| c l IH].
  - destruct r as [| c r]; [done|]. cbn. destruct Hr as [-> ->]. done.
  - cbn in Hl |- *. apply andb_prop in Hl as [Hc Hl]. rewrite IH by done.
    assert (E : word_char c || (Ascii.eqb c " "
              && match l ++ r with d :: _ => word_char d | [] => false end) = true).
    { destruct l as [| d l]; [| done]. cbn in Hc. rewrite andb_false_r, orb_false_r in Hc.
      by rewrite Hc. }
    by rewrite E.
Qed.

Lemma strip_app p r : strip p (chars p ++ r) = Some r.
Proof.
  unfold strip. induction (chars p) as [| c l IH]; [done|]. cbn. by rewrite Ascii.eqb_refl.
Qed.

Lemma follows_strip r : follows r = true -> strip " (" r = None.
Proof.
  intros Hf. destruct r as [| c [| d r]]; [done | |]; unfold strip; cbn in *.
  - by destruct c as [[] [] [] [] [] [] [] []].
  - destruct (Ascii.eqb_spec " "%char c) as [<- |]; [| by destruct c as [[] [] [] [] [] [] [] []]].
    cbn in Hf. apply Ascii.eqb_eq in Hf as ->. done.
Qed.

Lemma text_app s r : forallb text_char (chars s) = true ->
  span text_char (chars s ++ quote :: r) = (chars s, quote :: r).
Proof. intros Hs. by apply span_app. Qed.

Lemma word_app l r : forallb word_char l = true -> follows r = true -> span word_char (l ++ r) = (l, r).
Proof.
  intros Hl Hr%follows_head. apply span_app; [done|]. destruct r; [done | apply Hr].
Qed.

(** The first character of a word is none of the brackets. *)
Lemma word_head c l : forallb word_char (c :: l) = true ->
  Ascii.eqb c quote = false /\ Ascii.eqb c "{" = false /\ Ascii.eqb c "[" = false.
Proof.
  cbn. intros [Hc _]%andb_prop. by destruct c as [[] [] [] [] [] [] [] []].
Qed.

Definition reads (t : term) : Prop := forall fuel r,
  (size t <= fuel)%nat -> follows r = true -> parse fuel (print t ++ r) = Some (t, r).

Lemma read_word s : word_ok (chars s) = true -> reads (TWord s).
Proof.
  intros Hw fuel r Hf Hr. destruct fuel as [| f]; [cbn in Hf; lia|]. cbn [print].
  destruct (chars s) as [| c l] eqn:Es; [done|]. cbn in Hw.
  destruct (word_head c l Hw) as (E1 & E2 & E3). cbn [app parse]. rewrite E1, E2, E3.
  change (c :: l ++ r) with ((c :: l) ++ r). rewrite word_app, follows_strip by done.
  by rewrite <- Es, str_of_chars.
Qed.

(** The two keywords. *)
Lemma parse_none f x :
  parse (S f) (chars "None (" ++ x)
  = let '(ty, r3) := span_type x in r4 ← strip ")" r3; Some (TNone (str ty), r4).
Proof. reflexivity. Qed.

Lemma parse_some f x :
  parse (S f) (chars "Some (" ++ x)
  = '(t, r3) ← parse f x; r4 ← strip ")" r3; Some (TSome t, r4).
Proof. reflexivity. Qed.

Lemma parse_nil f x :
  parse (S f) (chars "[] : " ++ x) = let '(ty, r2) := span_type x in Some (TNil (str ty), r2).
Proof. reflexivity. Qed.

Lemma parse_text f x :
  parse (S f) (quote :: x)
  = let '(s, r1) := span text_char x in
    match r1 with
    | q :: r2 => if Ascii.eqb q quote then Some (TText (str s), r2) else None
    | [] => None
    end.
Proof. reflexivity. Qed.

Lemma parse_list f x : strip "] : " x = None ->
  parse (S f) (chars "[" ++ x) = '(l, r2) ← parse_items f x; Some (TList l, r2).
Proof. intros E. cbn -[strip]. by rewrite E. Qed.

Lemma parse_rec f x :
  parse (S f) (chars "{ " ++ x) = '(l, r2) ← parse_fields f x; Some (TRec l, r2).
Proof. reflexivity. Qed.

Lemma read_none c : type_ok (chars c) = true -> reads (TNone c).
Proof.
  intros Hc fuel r Hf Hr. destruct fuel as [| f]; [cbn in Hf; lia|].
  cbn [print]. rewrite <- !app_assoc, parse_none, span_type_app; [| done | by destruct r].
  rewrite strip_app. cbn. by rewrite str_of_chars.
Qed.

Lemma read_nil c : type_ok (chars c) = true -> reads (TNil c).
Proof.
  intros Hc fuel r Hf Hr. destruct fuel as [| f]; [cbn in Hf; lia|].
  cbn [print]. rewrite <- !app_assoc, parse_nil, span_type_app by done. by rewrite str_of_chars.
Qed.

Lemma read_some t : reads t -> reads (TSome t).
Proof.
  intros Ht fuel r Hf Hr. destruct fuel as [| f]; [cbn in Hf; lia|]. cbn in Hf.
  cbn [print]. rewrite <- !app_assoc, parse_some, (Ht f (chars ")" ++ r)); [| lia | by destruct r].
  cbn [mbind option_bind]. by rewrite strip_app.
Qed.

Lemma read_text s : forallb text_char (chars s) = true -> reads (TText s).
Proof.
  intros Hs fuel r Hf Hr. destruct fuel as [| f]; [cbn in Hf; lia|].
  cbn [print app]. rewrite <- app_assoc, parse_text. cbn [app]. rewrite text_app by done.
  rewrite Ascii.eqb_refl. by rewrite str_of_chars.
Qed.

(** No printed expression starts like the end of a list. *)
Lemma print_head t : wf_term t = true -> exists c l, print t = c :: l /\ c <> "]"%char.
Proof.
  destruct t as [s | s | c | t | l | c | l]; cbn; intros Hw; try by eexists _, _.
  destruct (chars s) as [| c l]; [done|]. exists c, l. split; [done|]. intros ->.
  by apply andb_prop in Hw as [? _].
Qed.

Lemma strip_head c p x l : p <> c -> strip (String p x) (c :: l) = None.
Proof. unfold strip. cbn. by destruct (Ascii.eqb_spec p c). Qed.

Lemma join_cons {A} (f : A -> list ascii) x y l :
  join_chars (List.map f (x :: y :: l)) = f x ++ chars ", " ++ join_chars (List.map f (y :: l)).
Proof. reflexivity. Qed.

Lemma read_items l : forall fuel r, l <> [] -> Forall reads l -> Forall (fun t => wf_term t = true) l ->
  (foldr (fun x n => S (size x + n)) 0 l <= fuel)%nat ->
  parse_items fuel (join_chars (List.map print l) ++ chars "]" ++ r) = Some (l, r).
Proof.
  induction l as [| t l IH]; intros fuel r Hne Hall Hwf Hf; [done|].
  apply Forall_cons in Hall as [Ht Hall]. apply Forall_cons in Hwf as [Hw Hwf].
  destruct fuel as [| f]; [cbn in Hf; lia|]. cbn in Hf. destruct l as [| u l].
  - cbn [List.map join_chars]. cbn [parse_items]. rewrite (Ht f (chars "]" ++ r)); [| lia | by destruct r].
    cbn [mbind option_bind]. rewrite strip_app. done.
  - rewrite join_cons, <- !app_assoc. cbn [parse_items].
    rewrite (Ht f (chars ", " ++ join_chars (List.map print (u :: l)) ++ chars "]" ++ r));
      [| lia | done].
    cbn [mbind option_bind]. rewrite strip_app.
    rewrite IH; [done | done | done | done | lia].
Qed.

Lemma read_list l : l <> [] -> Forall reads l -> Forall (fun t => wf_term t = true) l -> reads (TList l).
Proof.
  intros Hne Hall Hwf fuel r Hf Hr. destruct fuel as [| f]; [cbn in Hf; lia|]. cbn in Hf.
  cbn [print]. rewrite <- !app_assoc, parse_list.
  - rewrite read_items; [done | done | done | done | lia].
  - destruct l as [| t l]; [done|]. apply Forall_cons in Hwf as [Hw _].
    destruct (print_head t Hw) as (c & k & Ep & Hc).
    assert (Ej : exists k', join_chars (List.map print (t :: l)) = c :: k').
    { destruct l; cbn; rewrite Ep; by eexists. }
    destruct Ej as [k' ->]. by apply strip_head.
Qed.

Lemma word_ok_all l : word_ok l = true -> forallb word_char l = true.
Proof. by destruct l. Qed.

Lemma read_fields l : forall fuel r, l <> [] -> Forall (fun x => reads x.2) l ->
  Forall (fun x => word_ok (chars x.1) = true) l ->
  (foldr (fun x n => S (size x.2 + n)) 0 l <= fuel)%nat ->
  parse_fields fuel (join_chars (List.map (fun x => chars x.1 ++ chars " = " ++ print x.2) l)
                       ++ chars " }" ++ r) = Some (l, r).
Proof.
  induction l as [| [k t] l IH]; intros fuel r Hne Hall Hwf Hf; [done|].
  apply Forall_cons in Hall as [Ht Hall]. apply Forall_cons in Hwf as [Hw Hwf].
  destruct fuel as [| f]; [cbn in Hf; lia|]. cbn in Hf, Ht.
  assert (Hk : forallb word_char (chars k) = true) by (by apply word_ok_all).
  destruct l as [| u l].
  - cbn [List.map join_chars fst snd]. cbn [parse_fields]. rewrite <- !app_assoc.
    rewrite (span_app _ (chars k)) by (exact Hk || reflexivity). rewrite strip_app. cbn [mbind option_bind].
    rewrite (Ht f (chars " }" ++ r)); [| lia | done]. cbn [mbind option_bind]. rewrite strip_app.
    cbn -[str]. by rewrite str_of_chars.
  - rewrite join_cons. cbn [parse_fields fst snd]. rewrite <- !app_assoc.
    rewrite (span_app _ (chars k)) by (exact Hk || reflexivity). rewrite strip_app. cbn [mbind option_bind].
    rewrite (Ht f); [| lia | done]. cbn [mbind option_bind]. rewrite strip_app.
    rewrite (IH f r); [| done | done | done | lia]. cbn [mbind option_bind]. by rewrite str_of_chars.
Qed.

Lemma read_rec l : l <> [] -> Forall (fun x => reads x.2) l ->
  Forall (fun x => word_ok (chars x.1) = true) l -> reads (TRec l).
Proof.
  intros Hne Hall Hwf fuel r Hf Hr. destruct fuel as [| f]; [cbn in Hf; lia|]. cbn in Hf.
  cbn [print]. rewrite <- !app_assoc, parse_rec, read_fields; [done | done | done | done | lia].
Qed.

Lemma wf_reads t : wf_term t = true -> reads t.
Proof.
  induction t as [s | s | c | t IH | l IH | c | l IH] using term_induction; cbn; intros Hw.
  - by apply read_text.
  - by apply read_word.
  - by apply read_none.
  - by apply read_some, IH.
  - assert (Hne : l <> []) by by destruct l.
    assert (Hall : Forall (fun t => wf_term t = true) l)
      by (apply Forall_forall; intros x Hx; apply list_elem_of_In in Hx;
          apply (proj1 (forallb_forall wf_term l)); [by destruct l | done]).
    apply read_list; [done | | done]. rewrite Forall_forall in IH, Hall |- *. auto.
  - by apply read_nil.
  - assert (Hne : l <> []) by by destruct l.
    assert (Hall : forall x, x ∈ l -> word_ok (chars x.1) = true /\ wf_term x.2 = true).
    { intros x Hx%list_elem_of_In. apply andb_prop.
      apply (proj1 (forallb_forall (fun x => word_ok (chars x.1) && wf_term x.2) l));
        [by destruct l | done]. }
    rewrite Forall_forall in IH.
    apply read_rec; [done | |]; apply Forall_forall; intros x Hx; destruct (Hall x Hx); auto.
Qed.

(** Each expression is at least as long as its parse needs steps. *)
Lemma join_length {A} (f : A -> list ascii) (g : A -> nat) l : l <> [] ->
  Forall (fun x => (g x <= length (f x))%nat) l ->
  (foldr (fun x n => S (g x + n)) 0 l <= length (join_chars (List.map f l)) + 1)%nat.
Proof.
  intros _. induction 1 as [| x l Hx Hl IH]; [cbn; lia|]. destruct l as [| y l].
  - cbn. lia.
  - rewrite join_cons, !length_app. cbn [foldr] in *. cbn [length chars list_ascii_of_string]. lia.
Qed.

Lemma size_length t : wf_term t = true -> (size t <= length (print t))%nat.
Proof.
  induction t as [s | s | c | t IH | l IH | c | l IH] using term_induction; cbn; intros Hw;
    rewrite ?length_app; try lia.
  - destruct (chars s); [done | cbn; lia].
  - specialize (IH Hw). cbn. lia.
  - assert (Hne : l <> []) by by destruct l.
    assert (Hall : Forall (fun x => (size x <= length (print x))%nat) l).
    { rewrite Forall_forall in IH |- *. intros x Hx. apply IH; [done|]. apply list_elem_of_In in Hx.
      apply (proj1 (forallb_forall wf_term l)); [by destruct l | done]. }
    pose proof (join_length print size l Hne Hall). cbn. lia.
  - assert (Hne : l <> []) by by destruct l.
    assert (Hall : Forall (fun x : string * term =>
      (size x.2 <= length (chars x.1 ++ chars " = " ++ print x.2))%nat) l).
    { rewrite Forall_forall in IH |- *. intros x Hx. rewrite !length_app.
      enough (size x.2 <= length (print x.2))%nat by lia. apply IH; [done|].
      apply list_elem_of_In in Hx.
      assert (Hx2 := proj1 (forallb_forall (fun x => word_ok (chars x.1) && wf_term x.2) l)
        ltac:(by destruct l) x Hx). cbn in Hx2. by apply andb_prop in Hx2 as [_ ?]. }
    pose proof (join_length (fun x => chars x.1 ++ chars " = " ++ print x.2)
      (fun x => size x.2) l Hne Hall). cbn in *. lia.
Qed.

Lemma length_chars s : length (chars s) = String.length s.
Proof. unfold chars. induction s as [| c s IH]; cbn; [done | by rewrite IH]. Qed.

(** Reading inverts printing. *)
Lemma parse_print t : wf_term t = true -> read_back (print_str t) = Some t.
Proof.
  intros Hw. unfold read_back, print_str. fold (str (print t)).
  rewrite <- length_chars, chars_str. pose proof (size_length t Hw).
  rewrite <- (app_nil_r (print t)) at 2. rewrite (wf_reads t Hw); [done | lia | done].
Qed.
