(* ===== verification/CdfTypes.v ===== *)
(** * The classes of the cluster description
      ([src/provisioning/miniprov/hare_mp/types.py])

    One record per dataclass and, per record, the Dhall expression its [__str__]
    prints ([Maybe], [DList], [Text] and [DhallTuple] define them).  [..._ok] says
    that the type annotations written by the code and the values at the leaves
    fit the type declared for the record in [gencdf.dhall]; [ok_checks] lemmas
    derive the syntax and type check. *)

From S2P Require Import Prelude PyStr Json HaxTypes Message Delivery World Dhall.

Record Maybe (A : Type) : Type := mkMaybe { m_value : option A; m_comment : string }.
Arguments mkMaybe {A}. Arguments m_value {A}. Arguments m_comment {A}.

Record DList (A : Type) : Type := mkDList { d_value : list A; d_comment : string }.
Arguments mkDList {A}. Arguments d_value {A}. Arguments d_comment {A}.

Inductive Protocol : Type := o2ib | tcp.
Inductive PoolType : Type := sns | dix | md.

#[global] Instance PoolType_eq_dec : EqDecision PoolType.
Proof. solve_decision. Defined.

Record M0ClientDesc : Type := mkClient { cl_name : string; instances : Z }.
Record Disk : Type := mkDisk { dk_path : Maybe string; dk_size : Maybe json; blksize : Maybe json }.
Record DisksDesc : Type := mkDisks { meta_data : Maybe string; dd_data : DList Disk; dd_log : DList Disk }.
Record M0ServerDesc : Type := mkServerDesc { runs_confd : Maybe bool; io_disks : DisksDesc }.
Record ClientPort : Type := mkClientPort { cp_name : string; cp_port : Z }.
Record ServerPort : Type := mkServerPort { sp_name : string; sp_port : Z }.
Record NetworkPorts : Type := mkPorts {
  np_hax : Maybe Z; hax_http : Maybe Z; m0_server : Maybe (DList ServerPort);
  m0_client_s3 : Maybe Z; m0_client_other : Maybe (DList ClientPort) }.
Record NodeDesc : Type := mkNodeDesc {
  hostname : string; node_group : Maybe string; machine_id : Maybe string;
  processorcount : Maybe json; memorysize_mb : Maybe json; data_iface : string;
  data_iface_ip_addr : Maybe string; data_iface_type : Maybe Protocol; transport_type : string;
  m0_servers : Maybe (DList M0ServerDesc); m0_clients : Maybe (DList M0ClientDesc);
  ports_info : Maybe NetworkPorts }.
Record DiskRef : Type := mkDiskRef { dr_path : string; dr_node : Maybe string }.
Record AllowedFailures : Type := mkAllowed { af_site : Z; af_rack : Z; af_encl : Z; af_ctrl : Z; af_disk : Z }.
Record PoolDesc : Type := mkPoolDesc {
  pd_name : string; disk_refs : Maybe (DList DiskRef); pd_data_units : Z; pd_parity_units : Z;
  spare_units : Maybe Z; pd_type : PoolType; allowed_failures : Maybe AllowedFailures }.
Record ProfileDesc : Type := mkProfileDesc { pf_name : string; pf_pools : DList string }.
Record FdmiFilterDesc : Type := mkFdmi {
  client_index : Z; ff_name : string; ff_node : string; ff_substrings : DList string }.
Record ClusterDesc : Type := mkCluster {
  create_aux : Maybe json; generate_formulaic_pvers : Maybe bool; node_info : DList NodeDesc;
  pool_info : DList PoolDesc; profile_info : DList ProfileDesc;
  fdmi_filter_info : Maybe (list FdmiFilterDesc) }.
Record Layout : Type := mkLayout { lay_data : Z; lay_parity : Z; lay_spare : Z }.

(** ** [__str__] *)
Definition Text_str (s : string) : term := TText s.
Definition int_str (z : Z) : term := TWord (dec_str z).
Definition bool_str (b : bool) : term := TWord (if b then "True" else "False").
Definition any_str (j : json) : term := TWord (py_str j).
Definition Protocol_str (p : Protocol) : term := TWord (match p with o2ib => "P.o2ib" | tcp => "P.tcp" end).
Definition PoolType_str (p : PoolType) : term :=
  TWord (match p with sns => "T.PoolType.sns" | dix => "T.PoolType.dix" | md => "T.PoolType.md" end).

Section Str.
Context {A : Type} (f : A -> term).
Definition Maybe_str (m : Maybe A) : term :=
  match m_value m with
  | None => TNone (m_comment m)
  | Some a => TSome (f a)
  end.
Definition DList_str (l : DList A) : term :=
  match d_value l with
  | [] => TNil (d_comment l)
  | v => TList (f <$> v)
  end.
End Str.

Definition M0ClientDesc_str (c : M0ClientDesc) : term :=
  TRec [("name", Text_str (cl_name c)); ("instances", int_str (instances c))].
Definition Disk_str (d : Disk) : term :=
  TRec [("path", Maybe_str Text_str (dk_path d)); ("size", Maybe_str any_str (dk_size d));
        ("blksize", Maybe_str any_str (blksize d))].
Definition DisksDesc_str (d : DisksDesc) : term :=
  TRec [("meta_data", Maybe_str Text_str (meta_data d)); ("data", DList_str Disk_str (dd_data d));
        ("log", DList_str Disk_str (dd_log d))].
Definition M0ServerDesc_str (s : M0ServerDesc) : term :=
  TRec [("runs_confd", Maybe_str bool_str (runs_confd s)); ("io_disks", DisksDesc_str (io_disks s))].
Definition ClientPort_str (p : ClientPort) : term :=
  TRec [("name", Text_str (cp_name p)); ("port", int_str (cp_port p))].
Definition ServerPort_str (p : ServerPort) : term :=
  TRec [("name", Text_str (sp_name p)); ("port", int_str (sp_port p))].
Definition NetworkPorts_str (p : NetworkPorts) : term :=
  TRec [("hax", Maybe_str int_str (np_hax p)); ("hax_http", Maybe_str int_str (hax_http p));
        ("m0_server", Maybe_str (DList_str ServerPort_str) (m0_server p));
        ("m0_client_s3", Maybe_str int_str (m0_client_s3 p));
        ("m0_client_other", Maybe_str (DList_str ClientPort_str) (m0_client_other p))].
Definition NodeDesc_str (n : NodeDesc) : term :=
  TRec [("hostname", Text_str (hostname n)); ("node_group", Maybe_str Text_str (node_group n));
        ("machine_id", Maybe_str Text_str (machine_id n));
        ("processorcount", Maybe_str any_str (processorcount n));
        ("memorysize_mb", Maybe_str any_str (memorysize_mb n)); ("data_iface", Text_str (data_iface n));
        ("data_iface_ip_addr", Maybe_str Text_str (data_iface_ip_addr n));
        ("data_iface_type", Maybe_str Protocol_str (data_iface_type n));
        ("transport_type", Text_str (transport_type n));
        ("m0_servers", Maybe_str (DList_str M0ServerDesc_str) (m0_servers n));
        ("m0_clients", Maybe_str (DList_str M0ClientDesc_str) (m0_clients n));
        ("ports_info", Maybe_str NetworkPorts_str (ports_info n))].
Definition DiskRef_str (d : DiskRef) : term :=
  TRec [("path", Text_str (dr_path d)); ("node", Maybe_str Text_str (dr_node d))].
Definition AllowedFailures_str (a : AllowedFailures) : term :=
  TRec [("site", int_str (af_site a)); ("rack", int_str (af_rack a)); ("encl", int_str (af_encl a));
        ("ctrl", int_str (af_ctrl a)); ("disk", int_str (af_disk a))].
Definition PoolDesc_str (p : PoolDesc) : term :=
  TRec [("name", Text_str (pd_name p)); ("disk_refs", Maybe_str (DList_str DiskRef_str) (disk_refs p));
        ("data_units", int_str (pd_data_units p)); ("parity_units", int_str (pd_parity_units p));
        ("spare_units", Maybe_str int_str (spare_units p)); ("type", PoolType_str (pd_type p));
        ("allowed_failures", Maybe_str AllowedFailures_str (allowed_failures p))].
Definition ProfileDesc_str (p : ProfileDesc) : term :=
  TRec [("name", Text_str (pf_name p)); ("pools", DList_str Text_str (pf_pools p))].
Definition FdmiFilterDesc_str (f : FdmiFilterDesc) : term :=
  TRec [("client_index", int_str (client_index f)); ("name", Text_str (ff_name f));
        ("node", Text_str (ff_node f)); ("substrings", DList_str Text_str (ff_substrings f))].

(** A plain list of filters would print as a Python list, with the same brackets;
    an empty one as [[]], which is not Dhall. *)
Definition ClusterDesc_str (c : ClusterDesc) : term :=
  TRec [("create_aux", Maybe_str any_str (create_aux c));
        ("generate_formulaic_pvers", Maybe_str bool_str (generate_formulaic_pvers c));
        ("node_info", DList_str NodeDesc_str (node_info c));
        ("pool_info", DList_str PoolDesc_str (pool_info c));
        ("profile_info", DList_str ProfileDesc_str (profile_info c));
        ("fdmi_filter_info", Maybe_str (fun l => TList (FdmiFilterDesc_str <$> l)) (fdmi_filter_info c))].

(** [str(ClusterDesc(...))] *)
Definition cluster_text (c : ClusterDesc) : string := print_str (ClusterDesc_str c).

(** ** Descriptions that fit their types *)
Definition text_ok (s : string) : Prop := forallb text_char (chars s) = true.
Definition nat_ok (z : Z) : Prop := 0 <= z.
Definition natural_ok (j : json) : Prop := is_natural (py_str j) = true.
Definition double_ok (j : json) : Prop := is_double (py_str j) = true.
Definition truth_ok (j : json) : Prop := exists b, j = JBool b.

Definition maybe_ok {A} (c : string) (P : A -> Prop) (m : Maybe A) : Prop :=
  m_comment m = c /\ forall a, m_value m = Some a -> P a.
Definition dlist_ok {A} (c : string) (P : A -> Prop) (l : DList A) : Prop :=
  d_comment l = c /\ Forall P (d_value l).

Definition client_ok (c : M0ClientDesc) : Prop := text_ok (cl_name c) /\ nat_ok (instances c).
Definition disk_ok (d : Disk) : Prop :=
  maybe_ok "Text" text_ok (dk_path d) /\ maybe_ok "Natural" natural_ok (dk_size d)
  /\ maybe_ok "Natural" natural_ok (blksize d).
Definition disks_ok (d : DisksDesc) : Prop :=
  maybe_ok "Text" text_ok (meta_data d) /\ dlist_ok "List Disk" disk_ok (dd_data d)
  /\ dlist_ok "List Disk" disk_ok (dd_log d).
Definition server_ok (s : M0ServerDesc) : Prop :=
  maybe_ok "Bool" (fun _ => True) (runs_confd s) /\ disks_ok (io_disks s).
Definition client_port_ok (p : ClientPort) : Prop := text_ok (cp_name p) /\ nat_ok (cp_port p).
Definition server_port_ok (p : ServerPort) : Prop := text_ok (sp_name p) /\ nat_ok (sp_port p).
Definition ports_ok (p : NetworkPorts) : Prop :=
  maybe_ok "Natural" nat_ok (np_hax p) /\ maybe_ok "Natural" nat_ok (hax_http p)
  /\ maybe_ok "List ServerPort" (dlist_ok "List ServerPort" server_port_ok) (m0_server p)
  /\ maybe_ok "Natural" nat_ok (m0_client_s3 p)
  /\ maybe_ok "List ClientPort" (dlist_ok "List ClientPort" client_port_ok) (m0_client_other p).
Definition node_ok (n : NodeDesc) : Prop :=
  text_ok (hostname n) /\ maybe_ok "Text" text_ok (node_group n)
  /\ maybe_ok "Text" text_ok (machine_id n) /\ maybe_ok "Natural" natural_ok (processorcount n)
  /\ maybe_ok "Double" double_ok (memorysize_mb n) /\ text_ok (data_iface n)
  /\ maybe_ok "Text" text_ok (data_iface_ip_addr n) /\ maybe_ok "P" (fun _ => True) (data_iface_type n)
  /\ text_ok (transport_type n)
  /\ maybe_ok "List M0ServerDesc" (dlist_ok "List M0ServerDesc" server_ok) (m0_servers n)
  /\ maybe_ok "List M0ClientDesc" (dlist_ok "List M0ClientDesc" client_ok) (m0_clients n)
  /\ maybe_ok "T.NetworkPorts" ports_ok (ports_info n).
Definition disk_ref_ok (d : DiskRef) : Prop := text_ok (dr_path d) /\ maybe_ok "Text" text_ok (dr_node d).
Definition allowed_ok (a : AllowedFailures) : Prop :=
  nat_ok (af_site a) /\ nat_ok (af_rack a) /\ nat_ok (af_encl a) /\ nat_ok (af_ctrl a)
  /\ nat_ok (af_disk a).
Definition pool_ok (p : PoolDesc) : Prop :=
  text_ok (pd_name p) /\ maybe_ok "List DiskRef" (dlist_ok "List DiskRef" disk_ref_ok) (disk_refs p)
  /\ nat_ok (pd_data_units p) /\ nat_ok (pd_parity_units p)
  /\ maybe_ok "Natural" nat_ok (spare_units p)
  /\ maybe_ok "AllowedFailures" allowed_ok (allowed_failures p).
Definition profile_ok (p : ProfileDesc) : Prop :=
  text_ok (pf_name p) /\ dlist_ok "List Text" text_ok (pf_pools p).
Definition cluster_ok (c : ClusterDesc) : Prop :=
  maybe_ok "Bool" truth_ok (create_aux c) /\ maybe_ok "Bool" (fun _ => True) (generate_formulaic_pvers c)
  /\ dlist_ok "List NodeInfo" node_ok (node_info c) /\ dlist_ok "List PoolInfo" pool_ok (pool_info c)
  /\ dlist_ok "List ProfileInfo" profile_ok (profile_info c)
  /\ maybe_ok "List T.FdmiFilterDesc" (fun _ => False) (fdmi_filter_info c).

(** A term that reads back and has the type. *)
Definition typed (a : ty) (t : term) : Prop := wf_term t = true /\ check t a = true.

Lemma rx_digit_word c : rx_digit c = true -> word_char c = true.
Proof. unfold rx_digit, word_char. intros ->. done. Qed.

Lemma forallb_impl {A} (f g : A -> bool) l :
  (forall x, f x = true -> g x = true) -> forallb f l = true -> forallb g l = true.
Proof.
  intros Hfg. induction l as [| x l IH]; [done|]. cbn. intros [Hx Hl]%andb_prop.
  rewrite (Hfg x Hx). auto.
Qed.

Lemma is_natural_word s : is_natural s = true -> word_ok (chars s) = true.
Proof.
  unfold is_natural, word_ok. destruct (chars s); [done|]. apply forallb_impl, rx_digit_word.
Qed.

Lemma digit_char_digit d : 0 <= d < 10 -> rx_digit (digit_char d) = true.
Proof.
  intros Hd. assert (Hc : d = 0 \/ d = 1 \/ d = 2 \/ d = 3 \/ d = 4 \/ d = 5 \/ d = 6 \/ d = 7
    \/ d = 8 \/ d = 9) by lia. by destruct_or! Hc; subst d.
Qed.

Lemma dec_str_natural z : 0 <= z -> is_natural (dec_str z) = true.
Proof.
  intros Hz. unfold is_natural, chars, dec_str. destruct (Z.ltb_spec z 0); [lia|].
  rewrite nat_str_digits. pose proof (to_digits_range (digits_fuel z) 10 z ltac:(lia) Hz) as Hr.
  destruct (to_digits (digits_fuel z) 10 z) as [| d ds] eqn:E; [by apply to_digits_nonempty in E|].
  change (forallb rx_digit (digit_char <$> d :: ds) = true). clear E.
  induction Hr as [| x l Hx _ IH]; [done|]. cbn. rewrite digit_char_digit by done. exact IH.
Qed.

(** ** The leaves *)
Lemma typed_text s : text_ok s -> typed TyText (Text_str s).
Proof. by split. Qed.

Lemma typed_int z : nat_ok z -> typed TyNatural (int_str z).
Proof. intros Hz%dec_str_natural. split; [by apply is_natural_word | done]. Qed.

Lemma typed_natural j : natural_ok j -> typed TyNatural (any_str j).
Proof. intros Hj. split; [by apply is_natural_word | done]. Qed.

Lemma typed_bool b : typed TyBool (bool_str b).
Proof. by destruct b. Qed.

Lemma typed_truth j : truth_ok j -> typed TyBool (any_str j).
Proof. by intros [[] ->]. Qed.

Lemma typed_protocol p : typed Protocol_ty (Protocol_str p).
Proof. by destruct p. Qed.

Lemma typed_pool_type p : typed PoolType_ty (PoolType_str p).
Proof. by destruct p. Qed.

Lemma concat_head sep a h t :
  String.concat sep (String a h :: t) = String a (String.concat sep (h :: t)).
Proof. by destruct t. Qed.

Lemma py_split_cons c s : exists h t, py_split c s = h :: t.
Proof. destruct s as [| a s]; cbn; [by eexists _, _|]. repeat case_match; by eexists _, _. Qed.

Lemma split_concat c s : String.concat (String c "") (py_split c s) = s.
Proof.
  induction s as [| a s IH]; [done|]. cbn. destruct (py_split_cons c s) as (h & t & E).
  rewrite E in *. destruct (Ascii.eqb_spec a c) as [-> |].
  - change (String c (String.concat (String c "") (h :: t)) = String c s). by rewrite IH.
  - by rewrite concat_head, IH.
Qed.

Lemma word_ok_dot a b : word_ok a = true -> word_ok b = true -> word_ok (a ++ "."%char :: b) = true.
Proof.
  intros Ha%word_ok_all Hb%word_ok_all. unfold word_ok.
  destruct (a ++ "."%char :: b) eqn:E; [by destruct a|]. rewrite <- E, forallb_app, Ha. exact Hb.
Qed.

Lemma typed_double j : double_ok j -> typed TyDouble (any_str j).
Proof.
  intros Hj. split; [| done]. unfold double_ok, is_double in Hj. cbn.
  pose proof (split_concat "." (py_str j)) as Ec.
  destruct (py_split "." (py_str j)) as [| a [| b [| ? ?]]]; try done.
  apply andb_prop in Hj as [Ha%is_natural_word Hb%is_natural_word]. cbn in Ec. rewrite <- Ec.
  unfold chars. rewrite list_ascii_of_string_app. cbn. by apply word_ok_dot.
Qed.

(** ** The containers *)
Lemma typed_maybe {A} (f : A -> term) a c P m :
  maybe_ok c P m -> (forall x, P x -> typed a (f x)) ->
  type_ok (chars c) = true -> dict_find c type_exprs = Some a ->
  typed (TyOptional a) (Maybe_str f m).
Proof.
  intros [<- Hm] Hf Hc Hd. unfold Maybe_str. destruct (m_value m) as [x |].
  - destruct (Hf x (Hm x eq_refl)). by split.
  - split; [done|]. cbn. by apply bool_decide_eq_true.
Qed.

Lemma typed_dlist {A} (f : A -> term) a c P l :
  dlist_ok c P l -> (forall x, P x -> typed a (f x)) ->
  type_ok (chars c) = true -> dict_find c type_exprs = Some (TyList a) ->
  typed (TyList a) (DList_str f l).
Proof.
  intros [<- Hl] Hf Hc Hd. unfold DList_str. destruct (d_value l) as [| x v].
  - split; [done|]. cbn. by apply bool_decide_eq_true.
  - assert (Hall : forall k, Forall P k ->
      forallb wf_term (f <$> k) = true /\ forallb (fun x => check x a) (f <$> k) = true).
    { induction 1 as [| y k Hy _ [IH1 IH2]]; [done|]. destruct (Hf y Hy) as [H1 H2].
      cbn. rewrite H1, H2. done. }
    destruct (Hall (x :: v) Hl) as [H1 H2]. by split.
Qed.

Lemma typed_rec l fs :
  l <> [] -> Forall2 (fun x y => x.1 = y.1 /\ word_ok (chars x.1) = true /\ typed y.2 x.2) l fs ->
  typed (TyRecord fs) (TRec l).
Proof.
  intros Hne Hall. split.
  - change (match l with [] => false | _ => forallb (fun x => word_ok (chars x.1) && wf_term x.2) l
            end = true).
    destruct l as [| x l]; [done|]. clear Hne. revert Hall. generalize (x :: l) fs. clear.
    intros l fs.
    induction 1 as [| x y l fs (_ & Hw & Ht & _) _ IH]; [done|].
    cbn [forallb]. by rewrite Hw, Ht, IH.
  - cbn. clear Hne. induction Hall as [| [k x] [k' b] l fs (Hk & _ & _ & Hx) _ IH]; [done|].
    cbn in *. subst k'. by rewrite String.eqb_refl, Hx.
Qed.

(** Splits a record into its fields. *)
Ltac typed_record :=
  apply typed_rec; [done|]; repeat (apply List.Forall2_cons || apply List.Forall2_nil);
  split_and!; try done; cbn [fst snd].

Create HintDb typed.
#[export] Hint Resolve typed_text typed_int typed_natural typed_bool typed_truth typed_protocol
  typed_pool_type typed_double : typed.

(** A field that is a [Maybe] or a [DList]. *)
Ltac typed_field :=
  match goal with
  | |- typed (TyOptional _) (Maybe_str _ _) =>
      eapply typed_maybe; [eassumption | intros; typed_field | done | done]
  | |- typed (TyList _) (DList_str _ _) =>
      eapply typed_dlist; [eassumption | intros; typed_field | done | done]
  | |- _ => eauto with typed
  end.

Lemma typed_client c : client_ok c -> typed M0ClientDesc_ty (M0ClientDesc_str c).
Proof. intros (? & ?). typed_record; typed_field. Qed.
Lemma typed_disk d : disk_ok d -> typed Disk_ty (Disk_str d).
Proof. intros (? & ? & ?). typed_record; typed_field. Qed.
#[export] Hint Resolve typed_client typed_disk : typed.
Lemma typed_disks d : disks_ok d -> typed IODisks_ty (DisksDesc_str d).
Proof. intros (? & ? & ?). typed_record; typed_field. Qed.
#[export] Hint Resolve typed_disks : typed.
Lemma typed_server s : server_ok s -> typed M0ServerDesc_ty (M0ServerDesc_str s).
Proof. intros (? & ?). typed_record; typed_field. Qed.
Lemma typed_client_port p : client_port_ok p -> typed Port_ty (ClientPort_str p).
Proof. intros (? & ?). typed_record; typed_field. Qed.
Lemma typed_server_port p : server_port_ok p -> typed Port_ty (ServerPort_str p).
Proof. intros (? & ?). typed_record; typed_field. Qed.
#[export] Hint Resolve typed_server typed_client_port typed_server_port : typed.
Lemma typed_ports p : ports_ok p -> typed NetworkPorts_ty (NetworkPorts_str p).
Proof. intros (? & ? & ? & ? & ?). typed_record; typed_field. Qed.
#[export] Hint Resolve typed_ports : typed.
Lemma typed_node n : node_ok n -> typed NodeInfo_ty (NodeDesc_str n).
Proof. intros (? & ? & ? & ? & ? & ? & ? & ? & ? & ? & ? & ?). typed_record; typed_field. Qed.
Lemma typed_disk_ref d : disk_ref_ok d -> typed DiskRef_ty (DiskRef_str d).
Proof. intros (? & ?). typed_record; typed_field. Qed.
Lemma typed_allowed a : allowed_ok a -> typed AllowedFailures_ty (AllowedFailures_str a).
Proof. intros (? & ? & ? & ? & ?). typed_record; typed_field. Qed.
#[export] Hint Resolve typed_node typed_disk_ref typed_allowed : typed.
Lemma typed_pool p : pool_ok p -> typed PoolInfo_ty (PoolDesc_str p).
Proof. intros (? & ? & ? & ? & ? & ?). typed_record; typed_field. Qed.
Lemma typed_profile p : profile_ok p -> typed ProfileInfo_ty (ProfileDesc_str p).
Proof. intros (? & ?). typed_record; typed_field. Qed.
#[export] Hint Resolve typed_pool typed_profile : typed.

(** A description whose leaves are well formed prints as an expression of the
    type [ClusterInfo], and the text determines the description's expression. *)
Lemma typed_cluster c : cluster_ok c -> typed ClusterInfo_ty (ClusterDesc_str c).
Proof.
  intros (? & ? & ? & ? & ? & ?). typed_record; typed_field.
  match goal with H : (fun _ => False) _ |- _ => destruct H end.
Qed.
