(* ===== verification/Exec.v ===== *)
(** * Programs and files of the host ([src/hax/helper/exec.py])

    [Host] is the part of the operating system the provisioning code calls:
    [subprocess.Popen], [os.system], files and directories.  The rest is the
    executor of [helper/exec.py]: chains of programs connected by pipes, and the
    converters of their output. *)

From S2P Require Import Prelude PyStr Json HaxTypes Message LinkedList Planner Delivery World.

(** The environment variables handed to a program; [None] inherits them. *)
Notation environ := (option (list (string * string))).

(** A running process is named by its handle.  [popen] raises
    [FileNotFoundError] when there is no such program. *)
Class Host (E : Type) := {
  popen : list string -> option nat -> environ -> M E nat;           (* command, stdin, env *)
  proc_close_stdout : nat -> M E unit;
  proc_communicate : nat -> option string -> option Z -> M E (Z * string * string);
  os_system : string -> M E Z;
  os_getenv : string -> M E (option string);
  sys_path : M E (list string);
  path_exists : string -> M E bool;
  path_isdir : string -> M E bool;
  os_makedirs : string -> M E unit;
  os_listdir : string -> M E (list string);
  read_file : string -> M E string;
  write_file : string -> string -> M E unit;
  copy_file : string -> string -> M E unit;
  copy_tree : string -> string -> M E unit;
  device_size : string -> M E Z;                                     (* f.seek(0, SEEK_END) *)
  device_blksize : string -> M E Z;                                  (* os.stat(path).st_blksize *)
}.

(** ** Commands *)

(** [Program(cmd, stdin)] *)
Inductive Program : Type := mkProgram (cmd : list string) (stdin : option Program).

Definition prog_cmd (p : Program) : list string := let 'mkProgram c _ := p in c.
Definition prog_stdin (p : Program) : option Program := let 'mkProgram _ s := p in s.

Definition program (cmd : list string) : Program := mkProgram cmd None.

(** [self | other] sets [other.stdin]. *)
Definition prog_or (self other : Program) : Program := mkProgram (prog_cmd other) (Some self).

(** The list [get_previous] builds, first program of the pipe first. *)
Fixpoint proc_list (p : Program) : list Program :=
  match p with
  | mkProgram c None => [p]
  | mkProgram c (Some q) => proc_list q ++ [p]
  end.

(** ** Converters *)
Definition lf : ascii := ascii_of_nat 10.
Definition lf_str : string := String lf "".

Fixpoint as_is (in_value : string) : string :=
  match in_value with
  | EmptyString => EmptyString
  | String c EmptyString => if Ascii.eqb c lf then EmptyString else in_value
  | String c s => String c (as_is s)
  end.

(** [s.splitlines()]: line boundaries of the ASCII range; ["\r\n"] is one. *)
Definition is_break (c : ascii) : bool :=
  let n := nat_of_ascii c in
  ((10 <=? n) && (n <=? 13))%nat || ((28 <=? n) && (n <=? 30))%nat.

Fixpoint split_lines (l : list ascii) (cur : list ascii) : list (list ascii) :=
  match l with
  | [] => match cur with [] => [] | _ => [rev cur] end
  | c :: l' =>
      if is_break c then
        rev cur ::
          match l' with
          | d :: l'' =>
              if (nat_of_ascii c =? 13)%nat && (nat_of_ascii d =? 10)%nat
              then split_lines l'' [] else split_lines l' []
          | [] => split_lines l' []
          end
      else split_lines l' (c :: cur)
  end.

Definition splitlines (s : string) : list string :=
  string_of_list_ascii <$> split_lines (chars s) [].

Definition rx_word (c : ascii) : bool := negb (is_space c).

(** The regular expression of [two_columns]: white space, a word (group 1), white
    space (at least one character), a word (group 2), the end. *)
Definition columns_regex (line : list ascii) : option (string * string) :=
  m ← greedy is_space
        (greedy rx_word
          (greedy1 is_space
            (greedy rx_word (fun r => if at_end r then Some tt else None)))) line;
  let '(_, (w1, (_, (w2, _)))) := m in
  Some (string_of_list_ascii w1, string_of_list_ascii w2).

Definition two_columns (in_value : string) : list (string * string) :=
  (fun line => default ("", "") (columns_regex (chars line))) <$> splitlines in_value.

(** ** Executor *)
Section Executor.
Context {E : Type} `{Host E}.
Notation W := (World E).

(** One turn of the loop that starts the programs. *)
Definition start_program (e : environ) (prev : option nat) (p : Program) : M W (option nat) :=
  proc ← catch (on_env (popen (prog_cmd p) prev e)) (fun x =>
           match x with
           | FileNotFoundError _ => Some (raise (CliException "Failed to run" (-1)))
           | _ => None
           end);
  match prev with Some h => on_env (proc_close_stdout h) | None => mret tt end ;;
  mret (Some proc).

Definition run_ex {T} (p : Program) (converter : string -> T) (e : environ) (timeout : option Z)
    (input : option string) : M W T :=
  last ← fold_m (start_program e) None (proc_list p);
  match last with
  | None => raise (UnboundLocalError "proc")
  | Some proc =>
      '(code, out, err) ← on_env (proc_communicate proc input timeout);
      if code =? 0 then mret (converter out) else raise (CliException err code)
  end.

Definition exec_run (p : Program) (e : environ) : M W string := run_ex p as_is e None None.

(** [execute(cmd, env)] of [hare_mp/utils.py]. *)
Definition execute (cmd : list string) (e : environ) : M W string := exec_run (program cmd) e.
End Executor.

(** ** Lemmas *)

(** The output of a program that prints pairs of words, one pair a line. *)
Definition columns_text (l : list (string * string)) : string :=
  String.concat "" ((fun '(a, b) => a +:+ " " +:+ b +:+ lf_str) <$> l).

Definition plain_word (s : string) : Prop := Forall (fun c => rx_word c = true) (chars s).

Lemma space_not_word c : rx_word c = true -> is_space c = false.
Proof. unfold rx_word. by destruct (is_space c). Qed.

Lemma break_space c : is_break c = true -> is_space c = true.
Proof.
  unfold is_break, is_space. rewrite !orb_true_iff, !andb_true_iff, !Nat.leb_le. lia.
Qed.

Lemma greedy_all {A} ok (k : list ascii -> option A) l r x :
  Forall (fun c => ok c = true) l ->
  match r with [] => True | c :: _ => ok c = false end ->
  k r = Some x -> greedy ok k (l ++ r) = Some (l, x).
Proof.
  intros Hl Hr Hk. induction Hl as [| c l Hc _ IH]; cbn.
  - destruct r as [| c r]; cbn; [by rewrite Hk | by rewrite Hr, Hk].
  - by rewrite Hc, IH.
Qed.

Lemma columns_regex_pair a b :
  plain_word a -> plain_word b -> a <> "" ->
  columns_regex (chars a ++ " "%char :: chars b) = Some (a, b).
Proof.
  intros Ha Hb Hne. unfold columns_regex.
  assert (E : greedy is_space (greedy rx_word (greedy1 is_space (greedy rx_word
      (fun r => if at_end r then Some tt else None)))) (chars a ++ " "%char :: chars b)
    = Some ([], (chars a, ([" "%char], (chars b, tt))))).
  { eapply (greedy_all is_space _ []); [done | |].
    - destruct a as [| c a]; [done|]. cbn. apply space_not_word. by inversion Ha.
    - apply greedy_all; [done | done |]. cbn [greedy1].
      change (is_space " ") with true. cbn iota.
      rewrite (greedy_all is_space _ [] (chars b) (chars b, tt)); [done | done | |].
      + destruct b as [| c b]; [done|]. cbn. apply space_not_word. by inversion Hb.
      + rewrite <- (app_nil_r (chars b)) at 1. by apply greedy_all. }
  rewrite E. cbn. unfold chars. by rewrite !string_of_list_ascii_of_string.
Qed.

Lemma split_lines_line l r cur :
  Forall (fun c => is_break c = false) l ->
  split_lines (l ++ lf :: r) cur = (rev cur ++ l) :: split_lines r [].
Proof.
  intros Hl. revert cur. induction Hl as [| c l Hc _ IH]; intros cur.
  - cbn. rewrite app_nil_r. destruct r; done.
  - cbn [app split_lines]. rewrite Hc, IH. cbn. by rewrite <- app_assoc.
Qed.

Lemma word_no_break s : plain_word s -> Forall (fun c => is_break c = false) (chars s).
Proof.
  intros Hs. eapply Forall_impl; [exact Hs|]. intros c Hc. cbn in Hc.
  destruct (is_break c) eqn:Eb; [| done]. apply break_space in Eb. unfold rx_word in Hc.
  by rewrite Eb in Hc.
Qed.

Lemma append_nil_r (s : string) : s +:+ "" = s.
Proof. induction s as [| c s IH]; [done|]. rewrite append_cons. by rewrite IH. Qed.

Lemma concat_cons x l : String.concat "" (x :: l) = x +:+ String.concat "" l.
Proof. destruct l; [by rewrite append_nil_r | done]. Qed.

(** What a program prints in two columns is what [two_columns] reads. *)
Lemma two_columns_text l :
  Forall (fun x => plain_word x.1 /\ plain_word x.2 /\ x.1 <> "") l ->
  two_columns (columns_text l) = l.
Proof.
  induction 1 as [| [a b] l (Ha & Hb & Hne) _ IH]; [done|]. cbn in Ha, Hb, Hne.
  unfold two_columns, splitlines, columns_text in *. cbn [fmap list_fmap].
  rewrite concat_cons. unfold chars. rewrite !append_assoc, !list_ascii_of_string_app.
  change (list_ascii_of_string a) with (chars a). change (list_ascii_of_string b) with (chars b).
  match goal with |- context [split_lines (_ ++ ?t) _] =>
    change t with ((" "%char :: chars b) ++ lf :: chars (columns_text l)) end.
  rewrite app_assoc, split_lines_line.
  - cbn [rev fmap list_fmap app]. rewrite <- IH at 2. f_equal.
    unfold chars at 1. rewrite list_ascii_of_string_of_list_ascii.
    by rewrite columns_regex_pair.
  - apply Forall_app. split; [by apply word_no_break|]. constructor; [done | by apply word_no_break].
Qed.
