(* ===== verification/HareCov.v ===== *)
(** * Coverage of the unit tests ([src/utils/hare_cov/hare_coverage.py])

    The scanner that finds the directories of tests, the strategies for Python and
    for C and their executor.  A directory is the tree of the directories below it,
    in the order in which the operating system lists them; links are not modelled.
    Programs and files are those of the class [Host]; logging is left out.  The
    small program [src/hax/helper/ping.py] is at the end. *)

From S2P Require Import Prelude PyStr Json HaxTypes Message LinkedList Planner Delivery World Exec.

(** ** Directories *)
Inductive Dir : Type := mkDir (subs : list (string * Dir)).
Definition dir_subs (t : Dir) : list (string * Dir) := let 'mkDir subs := t in subs.

Fixpoint height (t : Dir) : nat :=
  match t with mkDir subs => foldr (fun nd h => Nat.max (S (height nd.2)) h) 0%nat subs end.

Lemma dir_induction (P : Dir -> Prop) :
  (forall subs, Forall (fun nd => P nd.2) subs -> P (mkDir subs)) -> forall t, P t.
Proof.
  intros H. fix IH 1. intros [subs]. apply H. induction subs as [| [n d] subs IHs]; constructor; [apply IH | exact IHs].
Qed.

Definition sep : string := "/".

Fixpoint ends_with_sep (s : string) : bool :=
  match s with
  | EmptyString => false
  | String c EmptyString => Ascii.eqb c "/"
  | String _ s' => ends_with_sep s'
  end.

(** [os.path.join(top, name)] of a relative name *)
Definition path_join (top name : string) : string :=
  if String.eqb top "" || ends_with_sep top then top +:+ name else top +:+ sep +:+ name.

(** [os.walk(top)]: directories with what is below them, from the top down *)
Fixpoint walk (top : string) (t : Dir) : list (string * list (string * Dir)) :=
  match t with
  | mkDir subs => (top, subs) :: concat ((fun nd => walk (path_join top nd.1) nd.2) <$> subs)
  end.

(** ** [DirectoryScanner] *)

(** [s.split()] *)
Fixpoint split_space (l cur : list ascii) : list (list ascii) :=
  match l with
  | [] => match cur with [] => [] | _ => [rev cur] end
  | c :: l' =>
      if is_space c then match cur with [] => split_space l' [] | _ => rev cur :: split_space l' [] end
      else split_space l' (c :: cur)
  end.
Definition py_words (s : string) : list string := string_of_list_ascii <$> split_space (chars s) [].

Record DirectoryScanner : Type := mkScanner { ds_callback : string -> bool; ds_inc_kwargs : list string }.

(** [DirectoryScanner.__init__]: without a callback the comparator is used. *)
Definition comparator (pattern dir_name : string) : bool := String.eqb dir_name pattern.
Definition scanner (pattern : string) (callback : option (string -> bool)) (include : string) : DirectoryScanner :=
  mkScanner (default (comparator pattern) callback) (py_words include).
Definition default_include : string := "miniprov" +:+ sep +:+ "test hax" +:+ sep +:+ "test".

Section Scan.
Context (s : DirectoryScanner).

Definition omit_dir (dir_name : string) : bool := negb (existsb (fun word => py_in word dir_name) (ds_inc_kwargs s)).

(** The body of the inner loop; [search] is the recursive call. *)
Definition scan_dir (search : string -> Dir -> option (list string)) (sub_dir : string)
    (result_list : list string) (nd : string * Dir) : option (list string) :=
  let directory_path := sub_dir +:+ sep +:+ nd.1 in
  if omit_dir directory_path then Some result_list
  else
    found ← search directory_path nd.2;
    let result1 := result_list ++ List.filter (fun ele => negb (bool_decide (ele ∈ result_list))) found in
    Some (if ds_callback s nd.1
          then if bool_decide (directory_path ∈ result1) then result1 else result1 ++ [directory_path]
          else result1).

(** A [for] loop *)
Fixpoint fold_opt {A B} (f : B -> A -> option B) (b : B) (l : list A) : option B :=
  match l with [] => Some b | x :: l' => b' ← f b x; fold_opt f b' l' end.

(** [None]: the recursion is deeper than [fuel]. *)
Fixpoint search_dir (fuel : nat) (dir_path : string) (t : Dir) : option (list string) :=
  match fuel with
  | O => None
  | S n => fold_opt (fun r level => fold_opt (scan_dir (search_dir n) level.1) r level.2) [] (walk dir_path t)
  end.

(** ** What is found *)

(** The paths and names of the directories below [base] *)
Fixpoint dirs_below (base : string) (t : Dir) : list (string * string) :=
  match t with
  | mkDir subs => concat ((fun nd => (base +:+ sep +:+ nd.1, nd.1) :: dirs_below (path_join base nd.1) nd.2) <$> subs)
  end.

Definition wanted (p name : string) : Prop := omit_dir p = false /\ ds_callback s name = true.

(** Names are not empty and do not end with a separator. *)
Inductive well_named : Dir -> Prop :=
| named_dir subs : Forall (fun nd => nd.1 <> "" /\ ends_with_sep nd.1 = false /\ well_named nd.2) subs -> well_named (mkDir subs).

(** The path to start from does not end with a separator, or nothing right below it
    is included. *)
Definition start_ok (base : string) (t : Dir) : Prop :=
  base <> "" /\
  (ends_with_sep base = false \/ Forall (fun nd => omit_dir (base +:+ sep +:+ nd.1) = true) (dir_subs t)).

(** What the two loops run over *)
Definition visits (base : string) (t : Dir) : list (string * (string * Dir)) :=
  concat ((fun level : string * list (string * Dir) => (fun nd => (level.1, nd)) <$> level.2) <$> walk base t).

Lemma append_nonempty a b : b <> "" -> a +:+ b <> "".
Proof. by destruct a. Qed.

Lemma ends_with_sep_app a b : b <> "" -> ends_with_sep (a +:+ b) = ends_with_sep b.
Proof.
  intros Hb. induction a as [| c a IH]; [done|].
  change (String c a +:+ b) with (String c (a +:+ b)). pose proof (append_nonempty a b Hb).
  cbn [ends_with_sep]. by destruct (a +:+ b).
Qed.

Lemma path_join_plain top name : top <> "" -> ends_with_sep top = false -> path_join top name = top +:+ sep +:+ name.
Proof. intros H1 H2. unfold path_join. rewrite H2. by destruct (String.eqb_spec top ""). Qed.

Lemma path_join_fine top name :
  name <> "" -> ends_with_sep name = false -> path_join top name <> "" /\ ends_with_sep (path_join top name) = false.
Proof.
  intros H1 H2. unfold path_join. case_match; split; rewrite ?ends_with_sep_app; try done; by repeat apply append_nonempty.
Qed.

Lemma visits_unfold base subs :
  visits base (mkDir subs) = ((fun nd => (base, nd)) <$> subs) ++ concat ((fun nd => visits (path_join base nd.1) nd.2) <$> subs).
Proof.
  unfold visits. cbn. f_equal. induction subs as [| nd subs IH]; [done|]. cbn. rewrite fmap_app, concat_app. by rewrite IH.
Qed.

Lemma elem_of_concat_fmap {A B} (f : A -> list B) l y : y ∈ concat (f <$> l) <-> exists x, x ∈ l /\ y ∈ f x.
Proof.
  rewrite list_elem_of_In, in_concat. split.
  - intros (ys & Hys%list_elem_of_In & Hy%list_elem_of_In). apply list_elem_of_fmap in Hys as (x & -> & Hx). eauto.
  - intros (x & Hx & Hy). exists (f x). split; apply list_elem_of_In; [by apply list_elem_of_fmap_2 | done].
Qed.

Lemma visits_elem base subs sub nd :
  (sub, nd) ∈ visits base (mkDir subs) <->
  sub = base /\ nd ∈ subs \/ exists nd', nd' ∈ subs /\ (sub, nd) ∈ visits (path_join base nd'.1) nd'.2.
Proof.
  rewrite visits_unfold, elem_of_app, elem_of_concat_fmap, list_elem_of_fmap. split.
  - intros [(nd' & [= -> ->] & H) | H]; auto.
  - intros [[-> H] | H]; [left; eauto | by right].
Qed.

Lemma below_elem base subs p name :
  (p, name) ∈ dirs_below base (mkDir subs) <->
  exists nd, nd ∈ subs /\ ((p = base +:+ sep +:+ nd.1 /\ name = nd.1) \/ (p, name) ∈ dirs_below (path_join base nd.1) nd.2).
Proof.
  cbn [dirs_below]. rewrite elem_of_concat_fmap. split; intros (nd & H1 & H2); exists nd; (split; [done|]).
  - apply elem_of_cons in H2 as [[= -> ->] | H2]; auto.
  - apply elem_of_cons. destruct H2 as [[-> ->] | H2]; auto.
Qed.

(** Every directory below is visited, and what is visited is below. *)
Lemma below_visited t : forall base p name,
  (p, name) ∈ dirs_below base t <-> exists sub d, (sub, (name, d)) ∈ visits base t /\ p = sub +:+ sep +:+ name.
Proof.
  induction t as [subs IH] using dir_induction. rewrite Forall_forall in IH. intros base p name. rewrite below_elem. split.
  - intros ([n d] & Hnd & [[-> ->] | H]); cbn in *.
    + exists base, d. split; [apply visits_elem; by left | done].
    + apply (IH _ Hnd) in H as (sub & d' & H & ->). exists sub, d'. split; [apply visits_elem; right; eauto | done].
  - intros (sub & d & [[-> H] | (nd & Hnd & H)]%visits_elem & ->).
    + exists (name, d). auto.
    + exists nd. split; [done|]. right. apply (IH _ Hnd). eauto.
Qed.

Lemma below_trans t : forall base sub nd p name,
  (sub, nd) ∈ visits base t -> (p, name) ∈ dirs_below (path_join sub nd.1) nd.2 -> (p, name) ∈ dirs_below base t.
Proof.
  induction t as [subs IH] using dir_induction. rewrite Forall_forall in IH. intros base sub nd p name Hv Hp.
  apply below_elem. apply visits_elem in Hv as [[-> H] | (nd' & Hnd' & H)]; [exists nd; auto|].
  exists nd'. split; [done|]. right. by eapply (IH _ Hnd').
Qed.

(** A visited directory is smaller, has a good name, and its parent's path has no
    separator at the end unless it is the start. *)
Lemma visits_inv t : well_named t -> forall base sub nd, (sub, nd) ∈ visits base t ->
  (height nd.2 < height t)%nat /\ well_named nd.2 /\ nd.1 <> "" /\ ends_with_sep nd.1 = false /\
  ((sub = base /\ nd ∈ dir_subs t) \/ (sub <> "" /\ ends_with_sep sub = false)).
Proof.
  induction t as [subs IH] using dir_induction. intros Hn base sub nd Hv. inversion Hn as [? Hs]; subst.
  rewrite Forall_forall in IH, Hs.
  assert (Hh : forall nd', nd' ∈ subs -> (height nd'.2 < height (mkDir subs))%nat).
  { intros nd' Hin. cbn. clear -Hin. induction subs as [| x subs IHs]; [by apply elem_of_nil in Hin|]. cbn.
    apply elem_of_cons in Hin as [-> | Hin]; [lia | specialize (IHs Hin); lia]. }
  apply visits_elem in Hv as [[-> H] | (nd' & Hnd' & H)].
  - destruct (Hs _ H) as (H1 & H2 & H3). split_and!; auto.
  - destruct (Hs _ Hnd') as (H1 & H2 & H3). destruct (IH _ Hnd' H3 _ _ _ H) as (A & B & C & D & F).
    split_and!; try done; [specialize (Hh _ Hnd'); lia|]. right. destruct F as [[-> _] | F]; [by apply path_join_fine | done].
Qed.

(** The two loops as one *)
Lemma loops_one n base t r :
  fold_opt (fun r level => fold_opt (scan_dir (search_dir n) level.1) r level.2) r (walk base t) =
  fold_opt (fun r v => scan_dir (search_dir n) v.1 r v.2) r (visits base t).
Proof.
  unfold visits. generalize (walk base t) as levels. intros levels. revert r.
  induction levels as [| [sub subs] levels IH]; intros r; [done|]. cbn. revert r.
  induction subs as [| nd subs IHs]; intros r; cbn; [apply IH|].
  destruct (scan_dir _ _ _ _) as [r' |]; cbn; [apply IHs | done].
Qed.

(** What one directory adds, given what the recursive call finds *)
Definition adds_found (n : nat) (v : string * (string * Dir)) (p : string) : Prop :=
  omit_dir (v.1 +:+ sep +:+ v.2.1) = false /\
  ((exists f, search_dir n (v.1 +:+ sep +:+ v.2.1) v.2.2 = Some f /\ p ∈ f) \/
   (p = v.1 +:+ sep +:+ v.2.1 /\ ds_callback s v.2.1 = true)).

Lemma scan_dir_spec n v r :
  NoDup r ->
  (omit_dir (v.1 +:+ sep +:+ v.2.1) = false -> exists f, search_dir n (v.1 +:+ sep +:+ v.2.1) v.2.2 = Some f /\ NoDup f) ->
  exists r', scan_dir (search_dir n) v.1 r v.2 = Some r' /\ NoDup r' /\ forall p, p ∈ r' <-> p ∈ r \/ adds_found n v p.
Proof.
  intros Hr Hf. unfold scan_dir, adds_found. destruct (omit_dir _) eqn:Eo.
  { exists r. split_and!; [done | done | naive_solver]. }
  destruct (Hf eq_refl) as (f & Ef & Nf). rewrite Ef. cbn [mbind option_bind].
  set (r1 := r ++ List.filter (fun ele => negb (bool_decide (ele ∈ r))) f).
  assert (H1 : forall p, p ∈ r1 <-> p ∈ r \/ p ∈ f).
  { intros p. unfold r1. rewrite elem_of_app, (list_elem_of_In (List.filter _ _)), filter_In, <- list_elem_of_In, negb_true_iff, bool_decide_eq_false.
    destruct (decide (p ∈ r)); naive_solver. }
  assert (N1 : NoDup r1).
  { unfold r1. apply NoDup_app. split_and!; [done | |].
    - intros p Hp Hp'. rewrite list_elem_of_In, filter_In, negb_true_iff, bool_decide_eq_false in Hp'. tauto.
    - apply NoDup_ListNoDup, List.NoDup_filter, NoDup_ListNoDup, Nf. }
  destruct (ds_callback s v.2.1) eqn:Ec; [case_bool_decide as Hin|]; (eexists; split_and!; [reflexivity | |]).
  - done.
  - intros p. rewrite H1. split; [intros [? | ?]; [by left | right; split; [done | left; eauto]]|].
    intros [? | (_ & [(f' & [= <-] & ?) | [-> _]])]; [by left | by right | by apply H1].
  - apply NoDup_app. split_and!; [done | intros p Hp ->%list_elem_of_singleton; done | apply NoDup_singleton].
  - intros p. rewrite elem_of_app, list_elem_of_singleton, H1. naive_solver.
  - done.
  - intros p. rewrite H1. naive_solver.
Qed.

Lemma scan_loop n vs r :
  NoDup r ->
  Forall (fun v => omit_dir (v.1 +:+ sep +:+ v.2.1) = false ->
    exists f, search_dir n (v.1 +:+ sep +:+ v.2.1) v.2.2 = Some f /\ NoDup f) vs ->
  exists r', fold_opt (fun r v => scan_dir (search_dir n) v.1 r v.2) r vs = Some r' /\ NoDup r' /\
    forall p, p ∈ r' <-> p ∈ r \/ exists v, v ∈ vs /\ adds_found n v p.
Proof.
  intros Hr Hvs. revert r Hr. induction Hvs as [| v vs Hv Hvs IH]; intros r Hr; cbn.
  - exists r. split_and!; [done | done |]. intros p. split; [auto|]. intros [? | (v & ?%elem_of_nil & _)]; done.
  - destruct (scan_dir_spec n v r Hr Hv) as (r1 & E1 & N1 & H1). rewrite E1. cbn.
    destruct (IH r1 N1) as (r2 & E2 & N2 & H2). exists r2. split_and!; [done | done |].
    intros p. rewrite H2, H1. setoid_rewrite elem_of_cons. naive_solver.
Qed.

Lemma search_dir_spec n : forall base t, well_named t -> (height t < n)%nat -> start_ok base t ->
  exists r, search_dir n base t = Some r /\ NoDup r /\
    forall p, p ∈ r <-> exists name, (p, name) ∈ dirs_below base t /\ wanted p name.
Proof.
  induction n as [| n IH]; intros base t Hn Hh [Hb Hst]; [lia|]. cbn [search_dir]. rewrite loops_one.
  assert (Hrec : forall v, v ∈ visits base t -> omit_dir (v.1 +:+ sep +:+ v.2.1) = false ->
    path_join v.1 v.2.1 = v.1 +:+ sep +:+ v.2.1 /\
    exists f, search_dir n (v.1 +:+ sep +:+ v.2.1) v.2.2 = Some f /\ NoDup f /\
      forall p, p ∈ f <-> exists name, (p, name) ∈ dirs_below (v.1 +:+ sep +:+ v.2.1) v.2.2 /\ wanted p name).
  { intros [sub nd] Hv Ho. cbn in *. destruct (visits_inv t Hn _ _ _ Hv) as (H1 & H2 & H3 & H4 & H5).
    assert (Hs : sub <> "" /\ ends_with_sep sub = false).
    { destruct H5 as [[-> Hin] | H5]; [| done]. split; [done|]. destruct Hst as [| Hall]; [done|].
      rewrite Forall_forall in Hall. by rewrite (Hall _ Hin) in Ho. }
    destruct Hs. split; [by apply path_join_plain|]. apply IH; [done | lia |]. split; [by repeat apply append_nonempty|]. left.
    by rewrite !ends_with_sep_app by (by repeat apply append_nonempty). }
  destruct (scan_loop n (visits base t) []) as (r & Er & Nr & Hr); [constructor | |].
  { apply Forall_forall. intros v Hv Ho. destruct (Hrec v Hv Ho) as (_ & f & Ef & Nf & _). eauto. }
  exists r. split_and!; [done | done |]. intros p. rewrite Hr. split.
  - intros [?%elem_of_nil | ([sub [name d]] & Hv & Ho & Hc)]; [done|]. cbn in *.
    destruct (Hrec _ Hv Ho) as (Ej & f & Ef & _ & Hf). cbn in *. destruct Hc as [(f' & Ef' & Hp) | [-> Hc]].
    + rewrite Ef in Ef'. injection Ef' as <-. apply Hf in Hp as (m & Hm & Hw). exists m. split; [| done].
      eapply below_trans; [exact Hv|]. cbn. by rewrite Ej.
    + exists name. split; [apply below_visited; eauto | by split].
  - intros (name & (sub & d & Hv & ->)%below_visited & Ho & Hc). right. exists (sub, (name, d)). split; [done|].
    split; [done|]. by right.
Qed.
End Scan.

(** ** [Utility] *)

(** What is before the first occurrence of [sub] *)
Fixpoint text_before (sub s : string) : option string :=
  if String.prefix sub s then Some ""
  else match s with EmptyString => None | String c s' => String c <$> text_before sub s' end.

(** The operations of the abstract class [Strategy] *)
Record Strategy (E : Type) : Type := mkStrategy {
  st_cleanup : M (World E) unit; st_run_ut : M (World E) unit;
  st_run_coverage : M (World E) unit; st_check_report : M (World E) unit }.
Arguments mkStrategy {E}. Arguments st_cleanup {E}. Arguments st_run_ut {E}.
Arguments st_run_coverage {E}. Arguments st_check_report {E}.

(** The attributes of [PythonCoverage] *)
Record PythonCoverage : Type := mkPythonCoverage {
  cov_report_type : string; src_tst_map : list (string * string); abs_path : string;
  report_dir : string; report : string }.

Definition source_test_map_hare : list (string * string) :=
  [("hax/hax", "hax/test/"); ("provisioning/miniprov/hare_mp", "provisioning/miniprov/test/")].

(** The command for the entry of the map at an index *)
Definition coverage_command (c : PythonCoverage) (index : nat) (st : string * string) : string :=
  "pytest --cov=" +:+ abs_path c +:+ st.1 +:+ " --cov-report=" +:+ cov_report_type c +:+ ":" +:+ report c +:+
  (match index with O => " " | _ => " --cov-append " end) +:+ abs_path c +:+ st.2.

(** [script] is [path.realpath(__file__)], [cwd] is [getcwd()], [root] the tree of
    directories at the home path. *)
Section Tool.
Context {E : Type} `{Host E} (script cwd : string) (root : Dir).
Notation W := (World E).

Definition run_cmd (command : string) : M W string :=
  process ← on_env (popen (py_words command) None None);
  '(code, out, err) ← on_env (proc_communicate process None None);
  if code =? 0 then mret out
  else raise (OtherException ("Command '" +:+ command +:+ "' exited with error code " +:+ dec_str code +:+ "." +:+
                lf_str +:+ "Command output: " +:+ err)).

Definition is_file_system_node_exist (dir_path : string) : M W bool := on_env (path_exists dir_path).

Definition get_abs_hare_home_path : M W string :=
  match text_before ("utils" +:+ sep +:+ "hare_cov" +:+ sep +:+ "hare_coverage.py") script with
  | Some p => mret p
  | None => raise (SystemExit 1)
  end.

(** ** The strategies *)
Definition PythonCoverage_init (report_type : string) : M W PythonCoverage :=
  p ← get_abs_hare_home_path;
  let dir := p +:+ "hare_coverage_report" in
  mret (mkPythonCoverage report_type source_test_map_hare p dir
          (dir +:+ sep +:+ (if String.eqb report_type "html" then "html_report" else "coverage.xml"))).

Definition py_cleanup (c : PythonCoverage) : M W unit :=
  catch (there ← is_file_system_node_exist (report_dir c);
         if (there : bool) then run_cmd ("rm -rf " +:+ report_dir c) ;; mret tt else mret tt)
    (fun e => match e with SystemExit _ => None | _ => Some (mret tt) end).

Definition py_run_ut (c : PythonCoverage) : M W unit :=
  dirs ← match search_dir (scanner "test" None default_include) (S (height root)) (abs_path c) root with
         | Some l => mret l | None => hang
         end;
  for_each dirs (fun test_dir_path => run_cmd ("pytest " +:+ test_dir_path) ;; mret tt).

Definition py_run_coverage (c : PythonCoverage) : M W unit :=
  for_each (zip (seq 0 (length (src_tst_map c))) (src_tst_map c))
    (fun ist => run_cmd (coverage_command c ist.1 ist.2) ;; mret tt).

Definition py_check_report (c : PythonCoverage) : M W unit :=
  there ← is_file_system_node_exist (report c);
  if (there : bool) then run_cmd "coverage report" ;; mret tt
  else raise (OtherException ("Failed to generate the Coverage report. Please check error logs at '" +:+ cwd +:+ sep
                +:+ "coverage.log'")).

Definition python_strategy (report_type : string) : M W (Strategy E) :=
  c ← PythonCoverage_init report_type;
  mret (mkStrategy (py_cleanup c) (py_run_ut c) (py_run_coverage c) (py_check_report c)).

(** [CCoverage]: every method passes. *)
Definition c_strategy (report_type : string) : M W (Strategy E) :=
  mret (mkStrategy (mret tt) (mret tt) (mret tt) (mret tt)).

(** [Executor(cls, report_type).execute()] *)
Definition executor (cls : string -> M W (Strategy E)) (report_type : string) : M W unit :=
  s ← cls report_type;
  st_cleanup s ;; st_run_ut s ;; st_run_coverage s ;; st_check_report s.

Definition cov_main : M W unit := executor python_strategy "xml" ;; executor c_strategy "xml".
End Tool.

(** ** Theorems *)

(** C27: [DirectoryScanner.search_dir] comes to its end, although it both recurses
    into directories and walks through the trees below them: with fuel above the
    depth of the tree it returns, and what it returns are the paths of exactly the
    directories below that the callback accepts and whose path contains one of the
    words to include, each once. *)
Theorem search_dir_exact s base t fuel :
  well_named t -> (height t < fuel)%nat -> start_ok s base t ->
  exists r, search_dir s fuel base t = Some r /\ NoDup r /\
    forall p, p ∈ r <-> exists name, (p, name) ∈ dirs_below base t /\ wanted s p name.
Proof. intros Hn Hf Hs. by apply search_dir_spec. Qed.

(** The directories of this repository that matter *)
Definition demo_src : Dir :=
  let leaf := mkDir [] in
  mkDir [("cfgen", mkDir [("test", leaf)]);
         ("hax", mkDir [("hax", mkDir [("motr", leaf)]); ("test", mkDir [("integration", mkDir [("test", leaf)])])]);
         ("provisioning", mkDir [("miniprov", mkDir [("hare_mp", leaf); ("test", leaf)])])].
Definition cov_found : list string :=
  ["/hare/src/hax/test/integration/test"; "/hare/src/hax/test"; "/hare/src/provisioning/miniprov/test"].
Definition demo_scanner : DirectoryScanner := scanner "test" None default_include.

Lemma search_dir_exact_witness :
  search_dir demo_scanner 6 "/hare/src/" demo_src = Some cov_found /\ NoDup cov_found.
Proof.
  destruct (search_dir_exact demo_scanner "/hare/src/" demo_src 6) as (r & Er & Nr & _).
  - repeat first [done | constructor].
  - cbn. lia.
  - split; [done|]. right. by repeat constructor.
  - vm_compute in Er. injection Er as <-. split; [by vm_compute | exact Nr].
Defined.

(** With an included word in the path of the sources and the separator at its end, the same
    directory is found under two paths. *)
Example trailing_separator_finds_twice :
  search_dir demo_scanner 6 "/hax/test/src/" (mkDir [("a", mkDir [("test", mkDir [])])]) =
    Some ["/hax/test/src//a/test"; "/hax/test/src/a/test"].
Proof. reflexivity. Qed.

(** A path with a space is passed as two arguments. *)
Example space_splits_argument : py_words "pytest /my src/hax/test" = ["pytest"; "/my"; "src/hax/test"].
Proof. reflexivity. Qed.

(** ** [helper/ping.py] *)
Section Ping.
Context {E : Type} (tcpping : string -> string -> Z -> M E bool).

(** [sys.exit] raises, and is not an [Exception]. *)
Definition ping_main (argv : list string) : M E unit :=
  catch (hostname ← lift (index_get 1 argv);
         port ← lift (index_get 2 argv);
         b ← tcpping hostname port 10;
         if (b : bool) then raise (SystemExit 0) else mret tt)
    (fun e => match e with SystemExit _ => None | _ => Some (raise (SystemExit 1)) end) ;;
  raise (SystemExit 1).

(** The program always exits, with [0] only after an answer. *)
Lemma ping_status argv e :
  (forall h p t e, (tcpping h p t e).1 <> Hang) ->
  exists code, (ping_main argv e).1 = Raise (SystemExit code) /\
    (code = 0 -> exists h p, argv !! 1%nat = Some h /\ argv !! 2%nat = Some p /\
       ((tcpping h p 10 e).1 = Ret true \/ (tcpping h p 10 e).1 = Raise (SystemExit 0))).
Proof.
  intros Hh. unfold ping_main, catch, mbind, M_bind, lift, index_get.
  destruct (argv !! 1%nat) as [h |] eqn:E1; [| by exists 1].
  destruct (argv !! 2%nat) as [p |] eqn:E2; [| by exists 1].
  specialize (Hh h p 10 e). destruct (tcpping h p 10 e) as [[[] | [] |] e'] eqn:Et; cbn in *; try done;
    try (by exists 1).
  - exists 0. split; [done|]. intros _. exists h, p. rewrite Et. auto.
  - exists code. split; [done|]. intros ->. exists h, p. rewrite Et. auto.
Qed.
End Ping.
