(* ===== verification/ConfStore.v ===== *)
(** * The configuration the provisioner reads
      ([src/provisioning/miniprov/hare_mp/store.py], [validator.py])

    [Conf] of [cortx.utils] is the interface [ConfApi]; a missing value is
    [JNull].  [ConfLaws] says that reading the configuration does not change it:
    the theorems are proved against it. *)

From S2P Require Import Prelude PyStr Json HaxTypes Message LinkedList Planner Delivery World.

Class ConfApi (E : Type) := {
  conf_load : string -> M E unit;                                  (* Conf.load(index, url) *)
  conf_get : string -> M E json;                                   (* Conf.get(index, key) *)
  conf_search : string -> string -> option string -> M E (list string);
  conf_machine_id : M E (option string);                           (* Conf.machine_id *)
  socket_gethostname : M E string;
}.

(** The constants of [cortx.utils.cortx.Const] the code uses. *)
Class CortxConst := { SERVICE_MOTR_IO : string; COMPONENT_MOTR : string }.

(** [range(n)] *)
Definition py_range (n : Z) : list Z := Z.of_nat <$> seq 0 (Z.to_nat n).

(** [x == s] for a parsed value [x]. *)
Definition json_is (s : string) (j : json) : bool :=
  match j with JStr t => String.eqb t s | _ => false end.

(** [for x in v] *)
Definition json_iter (j : json) : outcome (list json) :=
  match j with
  | JArr l => Ret l
  | JObj l => Ret (JStr <$> dict_keys l)
  | JStr s => Ret ((fun c => JStr (String c "")) <$> chars s)
  | _ => Raise TypeError
  end.

(** [v[0]] *)
Definition json_first (j : json) : outcome json :=
  match j with
  | JArr (x :: _) => Ret x
  | JStr (String c _) => Ret (JStr (String c ""))
  | JArr [] | JStr EmptyString => Raise IndexError
  | JObj _ => Raise (KeyError "0")
  | _ => Raise TypeError
  end.

(** [m in s] *)
Definition in_text (m : json) (s : string) : outcome bool :=
  match m with JStr t => Ret (py_in t s) | _ => Raise TypeError end.

(** The keys of the configuration. *)
Definition set_key (i : Z) (rest : string) : string :=
  "cluster>storage_set[" +:+ dec_str i +:+ "]" +:+ rest.
Definition set_node_key (i j : Z) : string := set_key i (">nodes[" +:+ dec_str j +:+ "]").
Definition node_key (machine_id rest : string) : string := "node>" +:+ machine_id +:+ ">" +:+ rest.

Section Store.
Context {E : Type} `{ConfApi E} `{CortxConst}.
Notation W := (World E).

(** [ConfStoreProvider(url)] *)
Definition ConfStoreProvider (url : string) : M W unit := on_env (conf_load url).

(** [ValueProvider.get] over [ConfStoreProvider._raw_get]. *)
Definition provider_get (key : string) (allow_null : bool) : M W json :=
  ret ← on_env (conf_get key);
  match ret with
  | JNull => if allow_null then mret JNull else raise (MissingKeyError key)
  | _ => mret ret
  end.

(** [int(self.get(key))] *)
Definition get_int (key : string) : M W Z := v ← provider_get key false; lift (int_of v).

Definition search_val (parent_key search_key : string) (val : option string) : M W (list string) :=
  on_env (conf_search parent_key search_key val).

(** The loops that collect the nodes of the storage sets. *)
Definition set_machines (i : Z) : M W (list json) :=
  num_nodes ← get_int (set_key i ">num_nodes");
  map_m (fun j => provider_get (set_node_key i j) false) (py_range num_nodes).

Definition all_machines : M W (list json) :=
  num_storage_sets ← get_int "cluster>num_storage_set";
  fold_m (fun machines i => l ← set_machines i; mret (machines ++ l)) [] (py_range num_storage_sets).

(** One turn of the loop over [machines]. *)
Definition keep_machine (values : list string) (nodes : list string) (machine_id : json)
    : M W (list string) :=
  result ← map_m (fun val => lift (in_text machine_id val)) values;
  if existsb (fun b : bool => b) result then mret (nodes ++ [py_str machine_id]) else mret nodes.

Definition get_machine_ids_for_attribute (attr_type : string) (name : option string)
    : M W (list string) :=
  machines ← all_machines;
  values ← search_val "node" attr_type name;
  fold_m (keep_machine values) [] machines.

Definition service_types : list (string * string) :=
  [("motr_client", "motr"); ("rgw_s3", "rgw"); ("agent", "csm")].

Definition get_machine_ids_for_service (service_type : string) : M W (list string) :=
  if String.eqb service_type "io" then get_machine_ids_for_attribute "num_cvg" None
  else get_machine_ids_for_attribute "name"
         (Some (default "None" (dict_find service_type service_types))).

Definition get_hostnames_for_service (service_type : string) : M W (list json) :=
  machines ← get_machine_ids_for_service service_type;
  map_m (fun machine_id => provider_get (node_key machine_id "hostname") false) machines.

Definition get_machine_ids_for_component (comp_type : string) : M W (list string) :=
  get_machine_ids_for_attribute "name" (Some comp_type).

Definition get_machine_id : M W string :=
  machine_id ← on_env conf_machine_id;
  match machine_id with
  | Some m => if String.eqb m "" then raise (RuntimeError "Machine-id is not found.") else mret m
  | None => raise (RuntimeError "Machine-id is not found.")
  end.

Definition get_cluster_id : M W json :=
  machine_id ← get_machine_id; provider_get (node_key machine_id "cluster_id") false.

(** [x == y] on parsed values. *)
Fixpoint json_eqb (x y : json) : bool :=
  match x, y with
  | JNull, JNull => true
  | JBool a, JBool b => Bool.eqb a b
  | JInt a, JInt b => a =? b
  | JBool a, JInt b => (if a then 1 else 0) =? b
  | JInt a, JBool b => a =? (if b then 1 else 0)
  | JStr a, JStr b => String.eqb a b
  | JArr a, JArr b =>
      (fix go (l m : list json) : bool :=
         match l, m with
         | [], [] => true
         | u :: l', v :: m' => json_eqb u v && go l' m'
         | _, _ => false
         end) a b
  | JObj a, JObj b =>
      (length a =? length b)%nat &&
      (fix go (l : list (string * json)) : bool :=
         match l with
         | [] => true
         | (k, u) :: l' =>
             match dict_find k b with Some v => json_eqb u v | None => false end && go l'
         end) a
  | _, _ => false
  end.

(** The two loops of [get_storage_set_index]: [inl] when one returned. *)
Definition index_step (storage_set_id : json) (s : Z + Z) (storage_set : json) : M W (Z + Z) :=
  match s with
  | inl i => mret (inl i)
  | inr i =>
      name ← lift (jget "name" storage_set);
      if json_eqb name storage_set_id then mret (inl i) else mret (inr (i + 1))
  end.

Definition get_storage_set_index : M W Z :=
  machine_id ← get_machine_id;
  storage_set_id ← provider_get (node_key machine_id "storage_set") false;
  num ← get_int "cluster>num_storage_set";
  r ← fold_m (fun (s : Z + Z) j =>
        match s with
        | inl i => mret (inl i)
        | inr _ =>
            v ← provider_get (set_key j "") false;
            l ← lift (json_iter v);
            fold_m (index_step storage_set_id) s l
        end) (inr 0) (py_range num);
  match r with
  | inl i => mret i
  | inr _ => raise (RuntimeError "No storage set found. Is ConfStore data valid?")
  end.

Definition get_data_nodes : M W (list string) := get_machine_ids_for_service SERVICE_MOTR_IO.

(** ** Validator *)
Definition is_local_machine_id_valid (machine_id : string) : M W bool :=
  hostname ← provider_get (node_key machine_id "hostname") false;
  local ← on_env socket_gethostname;
  mret (json_is local hostname).

Definition validator_machine_id : M W string :=
  machine_id ← get_machine_id;
  ok ← is_local_machine_id_valid machine_id;
  if (ok : bool) then mret machine_id else raise (RuntimeError "invalid machine id").

Definition is_first_node_in_storage_set : M W bool :=
  machine_id ← validator_machine_id;
  storage_set_id ← get_storage_set_index;
  server_nodes ← provider_get (set_key storage_set_id ">nodes") false;
  first ← lift (json_first server_nodes);
  mret (json_is machine_id first).

Definition is_first_node_in_cluster : M W bool :=
  machine_id ← validator_machine_id;
  server_nodes ← provider_get (set_key 0 ">nodes") false;
  first ← lift (json_first server_nodes);
  mret (json_is machine_id first).
End Store.

(** ** Reading the configuration *)
Class ConfLaws (E : Type) `{ConfApi E} := {
  conf_of : E -> string -> json;
  found_of : E -> string -> string -> option string -> list string;
  machine_of : E -> option string;
  law_conf_get k e : conf_get k e = (Ret (conf_of e k), e);
  law_conf_search p k v e : conf_search p k v e = (Ret (found_of e p k v), e);
  law_conf_machine e : conf_machine_id e = (Ret (machine_of e), e);
}.

Section StoreProps.
Context {E : Type} `{ConfLaws E} `{CortxConst}.
Notation W := (World E).

Lemma on_env_pure {A} (m : M E A) (w : W) r : m (env w) = (r, env w) -> on_env m w = (r, w).
Proof. unfold on_env. intros ->. by destruct w. Qed.

Lemma provider_get_ok key an (w : W) v :
  conf_of (env w) key = v -> v <> JNull -> provider_get key an w = (Ret v, w).
Proof.
  intros Hv Hn. unfold provider_get.
  rewrite (bind_unfold_Ret _ _ w v w); [by destruct v|].
  apply on_env_pure. by rewrite law_conf_get, Hv.
Qed.

Lemma get_int_ok key (w : W) v z :
  conf_of (env w) key = v -> int_of v = Ret z -> get_int key w = (Ret z, w).
Proof.
  intros Hv Hz. unfold get_int. assert (v <> JNull) by (by intros ->).
  rewrite (bind_unfold_Ret _ _ w v w); [| by apply provider_get_ok].
  unfold lift. by rewrite Hz.
Qed.

Lemma map_m_pure {A B} (f : A -> M W B) (g : A -> B) l (w : W) :
  (forall x, x ∈ l -> f x w = (Ret (g x), w)) -> map_m f l w = (Ret (g <$> l), w).
Proof.
  induction l as [| x l IH]; intros Hf; [done|]. cbn [map_m].
  rewrite (bind_unfold_Ret _ _ _ _ _ (Hf x ltac:(set_solver))).
  rewrite (bind_unfold_Ret _ _ _ _ _ (IH ltac:(set_solver))). done.
Qed.

Lemma fold_m_pure {A S} (f : S -> A -> M W S) (g : S -> A -> S) l s (w : W) :
  (forall s x, x ∈ l -> f s x w = (Ret (g s x), w)) -> fold_m f s l w = (Ret (foldl g s l), w).
Proof.
  revert s. induction l as [| x l IH]; intros s Hf; [done|]. cbn [fold_m].
  rewrite (bind_unfold_Ret _ _ _ _ _ (Hf s x ltac:(set_solver))).
  apply IH. set_solver.
Qed.

Lemma elem_py_range z n : z ∈ py_range n <-> 0 <= z < n.
Proof.
  unfold py_range. rewrite list_elem_of_fmap. setoid_rewrite elem_of_seq. split.
  - intros (k & -> & Hk). lia.
  - intros Hz. exists (Z.to_nat z). lia.
Qed.

Lemma fmap_range {A} (f : Z -> A) l :
  (forall i x, l !! i = Some x -> f (Z.of_nat i) = x) -> f <$> py_range (Z.of_nat (length l)) = l.
Proof.
  intros Hf. unfold py_range. rewrite Nat2Z.id, <- list_fmap_compose.
  apply list_eq. intros i. rewrite list_lookup_fmap. destruct (l !! i) as [x |] eqn:El.
  - rewrite lookup_seq_lt by (by eapply lookup_lt_Some). cbn. by rewrite (Hf i x El).
  - rewrite lookup_seq_ge by (by apply lookup_ge_None_1). done.
Qed.

(** The configuration lists the storage sets [sets]. *)
Definition describes_sets (e : E) (sets : list (list string)) : Prop :=
  int_of (conf_of e "cluster>num_storage_set") = Ret (Z.of_nat (length sets))
  /\ forall i nodes, sets !! i = Some nodes ->
       int_of (conf_of e (set_key (Z.of_nat i) ">num_nodes")) = Ret (Z.of_nat (length nodes))
       /\ forall j m, nodes !! j = Some m ->
            conf_of e (set_node_key (Z.of_nat i) (Z.of_nat j)) = JStr m.

Lemma set_machines_ok (w : W) sets i nodes :
  describes_sets (env w) sets -> sets !! i = Some nodes ->
  set_machines (Z.of_nat i) w = (Ret (JStr <$> nodes), w).
Proof.
  intros [_ Hs] Hi. destruct (Hs i nodes Hi) as [Hn Hm]. unfold set_machines.
  rewrite (bind_unfold_Ret _ _ _ _ _ (get_int_ok _ _ _ _ eq_refl Hn)).
  rewrite (map_m_pure _ (fun j => conf_of (env w) (set_node_key (Z.of_nat i) j))).
  - rewrite <- (length_fmap JStr nodes), (fmap_range _ (JStr <$> nodes)); [done|].
    intros j x. rewrite list_lookup_fmap. destruct (nodes !! j) as [m |] eqn:Ej; [| done].
    intros [= <-]. by apply Hm.
  - intros j [Hj0 Hj1]%elem_py_range.
    destruct (lookup_lt_is_Some_2 nodes (Z.to_nat j)) as [m Ej]; [lia|].
    pose proof (Hm _ _ Ej) as Hc. rewrite Z2Nat.id in Hc by lia.
    rewrite Hc. by apply provider_get_ok.
Qed.

Lemma all_machines_ok (w : W) sets :
  describes_sets (env w) sets -> all_machines w = (Ret (JStr <$> concat sets), w).
Proof.
  intros Hd. unfold all_machines.
  rewrite (bind_unfold_Ret _ _ _ _ _ (get_int_ok _ _ _ _ eq_refl (proj1 Hd))).
  rewrite (fold_m_pure _ (fun ms i => ms ++ (JStr <$> default [] (sets !! Z.to_nat i)))).
  - f_equal. f_equal. unfold py_range. rewrite Nat2Z.id.
    assert (Hfold : forall k (acc : list json), (k <= length sets)%nat ->
      foldl (fun ms i => ms ++ (JStr <$> default [] (sets !! Z.to_nat i))) acc
        (Z.of_nat <$> seq 0 k) = acc ++ (JStr <$> concat (take k sets))).
    { induction k as [| k IH]; intros acc Hk; [by rewrite app_nil_r|].
      rewrite seq_S, fmap_app, foldl_app, IH by lia. cbn. rewrite Nat2Z.id.
      destruct (lookup_lt_is_Some_2 sets k) as [x Ex]; [lia|].
      rewrite Ex, (take_S_r _ _ _ Ex), concat_app, fmap_app, <- app_assoc. cbn.
      by rewrite app_nil_r. }
    rewrite Hfold by lia. by rewrite take_ge by lia.
  - intros ms i [Hi0 Hi1]%elem_py_range.
    destruct (lookup_lt_is_Some_2 sets (Z.to_nat i)) as [nodes En]; [lia|]. rewrite En.
    pose proof (set_machines_ok w sets _ nodes Hd En) as Hm. rewrite Z2Nat.id in Hm by lia.
    by rewrite (bind_unfold_Ret _ _ _ _ _ Hm).
Qed.

(** Whether some path found by the search contains the machine id. *)
Definition mentioned (values : list string) (m : string) : bool := existsb (py_in m) values.

Lemma keep_machine_ok values nodes m (w : W) :
  keep_machine values nodes (JStr m) w =
  (Ret (if mentioned values m then nodes ++ [m] else nodes), w).
Proof.
  unfold keep_machine. rewrite (bind_unfold_Ret _ _ w (py_in m <$> values) w).
  - unfold mentioned. replace (existsb (fun b : bool => b) (py_in m <$> values))
      with (existsb (py_in m) values); [by destruct (existsb _ _)|].
    induction values as [| v l IH]; [done|]. cbn. by rewrite IH.
  - by apply map_m_pure.
Qed.

Lemma machine_ids_ok (w : W) sets attr name :
  describes_sets (env w) sets ->
  get_machine_ids_for_attribute attr name w =
  (Ret (filter (fun m => mentioned (found_of (env w) "node" attr name) m = true) (concat sets)), w).
Proof.
  intros Hd. unfold get_machine_ids_for_attribute.
  rewrite (bind_unfold_Ret _ _ _ _ _ (all_machines_ok w sets Hd)).
  rewrite (bind_unfold_Ret _ _ w (found_of (env w) "node" attr name) w);
    [| by apply on_env_pure, law_conf_search].
  generalize (found_of (env w) "node" attr name) (concat sets). intros values ms. clear.
  assert (Hk : forall acc, fold_m (keep_machine values) acc (JStr <$> ms) w
    = (Ret (acc ++ filter (fun m => mentioned values m = true) ms), w)); [| apply (Hk [])].
  induction ms as [| m ms IH]; intros acc; [by rewrite app_nil_r|]. cbn [fmap list_fmap fold_m].
  rewrite (bind_unfold_Ret _ _ _ _ _ (keep_machine_ok values acc m w)), IH, filter_cons.
  destruct (mentioned values m); cbn; [| done]. by rewrite <- app_assoc.
Qed.
End StoreProps.
