(* ===== verification/MpUtils.v ===== *)
(** * Utilities of the mini-provisioner
      ([src/provisioning/miniprov/hare_mp/utils.py])

    Host names, node facts and drives shared through the Consul KV, membership of
    components and services, and the files copied to the node.  [urlsplit] and
    its accessors follow CPython 3.6, the version the package is built for. *)

From S2P Require Import Prelude PyStr Json HaxTypes Message LinkedList Planner Delivery World.
From S2P Require Import Cache ConsulStore Consul Dhall CdfTypes Exec ConfStore.

(** ** [str] methods and [urlparse] *)

(** [s.lstrip(c)] and [s.strip(c)] for one character. *)
Fixpoint lstrip_l (c : ascii) (l : list ascii) : list ascii :=
  match l with
  | a :: l' => if Ascii.eqb a c then lstrip_l c l' else l
  | [] => []
  end.
Definition lstrip (c : ascii) (s : string) : string := string_of_list_ascii (lstrip_l c (chars s)).
Definition strip_c (c : ascii) (s : string) : string :=
  string_of_list_ascii (rev (lstrip_l c (rev (lstrip_l c (chars s))))).

Record Url : Type := mkUrl { scheme : string; netloc : string }.

Definition scheme_char (c : ascii) : bool :=
  let n := nat_of_ascii c in
  ((97 <=? n) && (n <=? 122))%nat || ((65 <=? n) && (n <=? 90))%nat || rx_digit c
  || Ascii.eqb c "+" || Ascii.eqb c "-" || Ascii.eqb c ".".

(** [rest] is a port number: the text before the colon is not a scheme. *)
Definition port_like (rest : string) : bool :=
  match chars rest with [] => false | l => forallb rx_digit l end.

Fixpoint until_delim (l : list ascii) : list ascii :=
  match l with
  | [] => []
  | c :: l' =>
      if Ascii.eqb c "/" || Ascii.eqb c "?" || Ascii.eqb c "#" then [] else c :: until_delim l'
  end.

Definition split_scheme (url : string) : string * string :=
  match py_split1 ":" url with
  | [pre; rest] =>
      if String.eqb pre "http" then (pre, rest)
      else if negb (String.eqb pre "") && forallb scheme_char (chars pre) && negb (port_like rest)
      then (py_lower pre, rest) else ("", url)
  | _ => ("", url)
  end.

Definition urlparse (url : string) : outcome Url :=
  let '(sch, rest) := split_scheme url in
  let loc := match chars rest with
             | a :: b :: l => if Ascii.eqb a "/" && Ascii.eqb b "/" then until_delim l else []
             | _ => []
             end in
  let n := string_of_list_ascii loc in
  if xorb (py_in "[" n) (py_in "]" n) then Raise ValueError else Ret (mkUrl sch n).

(** [netloc.rpartition('@')[2]], then the host and the text of the port. *)
Definition hostinfo (u : Url) : string * string :=
  let info := py_last (py_split "@" (netloc u)) in
  match py_split1 "[" info with
  | [_; bracketed] =>
      match py_split1 "]" bracketed with
      | [host; tail] => (host, match py_split1 ":" tail with [_; p] => p | _ => "" end)
      | _ => (bracketed, "")
      end
  | _ =>
      match py_split1 ":" info with
      | [host; p] => (host, p)
      | _ => (info, "")
      end
  end.

Definition url_hostname (u : Url) : option string :=
  let h := fst (hostinfo u) in if String.eqb h "" then None else Some (py_lower h).

Definition url_port (u : Url) : outcome (option Z) :=
  let p := snd (hostinfo u) in
  if String.eqb p "" then Ret None
  else z ← py_int 10 p;
       if (0 <=? z) && (z <=? 65535) then Ret (Some z) else Raise ValueError.

(** [urlparse(v)] of a configuration value. *)
Definition parse_url (v : json) : outcome Url := s ← need_str v; urlparse s.

(** The keys of one cylinder volume group. *)
Definition cvg_key (machine_id : string) (cvg : Z) (rest : string) : string :=
  node_key machine_id ("cvg[" +:+ dec_str cvg +:+ "]>devices>" +:+ rest).
Definition component_key (machine_id : string) (i : Z) (rest : string) : string :=
  node_key machine_id ("components[" +:+ dec_str i +:+ "]>" +:+ rest).

Definition LOG_DIR_EXT : string := "/hare/log/".

Section Utils.
Context {E : Type} `{ConsulApi E} `{ConfApi E} `{CortxConst} `{Host E} `{Others E} `{Fuel}.
Notation W := (World E).

Definition get_hostname (machine_id : string) : M W json :=
  hostname ← provider_get (node_key machine_id "network>data>private_fqdn") true;
  if truthy hostname then mret hostname else provider_get (node_key machine_id "hostname") false.

Definition get_local_hostname : M W json := machine_id ← get_machine_id; get_hostname machine_id.

Definition save_node_facts : M W bool :=
  repeat_if_fails (-1)
    (hostname ← get_local_hostname;
     node_facts ← execute ["facter"; "--json"; "processorcount"; "memorysize_mb"] None;
     kv_put (py_str hostname +:+ "/facts") node_facts None None).

(** The loop of [get_node_facts] and of [get_drive_info_from_consul]: read the
    entry [key] and parse its value; [TypeError] goes back to the test of the
    loop, which looks at the entry and not at the value. *)
Fixpoint read_loop (n : nat) (key : string) (data : kvdata) (val : json) : M W json :=
  if kv_truthy data then mret val else
  match n with
  | O => hang
  | S n' => fun w =>
      match kv_get key None None None w with
      | (Ret d, w1) =>
          match (i ← item_of d; loads_value (Value i)) with
          | Ret v => read_loop n' key d v w1
          | Raise TypeError => (sleep ;; read_loop n' key d val) w1
          | Raise e => (Raise e, w1)
          | Hang => (Hang, w1)
          end
      | (Raise TypeError, w1) => (sleep ;; read_loop n' key data val) w1
      | (Raise e, w1) => (Raise e, w1)
      | (Hang, w1) => (Hang, w1)
      end
  end.

Definition get_node_facts : M W json :=
  repeat_if_fails (-1)
    (hostname ← get_local_hostname;
     read_loop fuel (py_str hostname +:+ "/facts") KVNone JNull).

(** [Text(v)]: the text it prints. *)
Definition text_of (v : json) : string := py_str v.

Definition get_data_devices (machine_id : string) (cvg : Z) : M W (DList string) :=
  num_data ← get_int (cvg_key machine_id cvg "num_data");
  l ← map_m (fun i => v ← provider_get (cvg_key machine_id cvg ("data[" +:+ dec_str i +:+ "]")) false;
               mret (text_of v)) (py_range num_data);
  mret (mkDList l "List Text").

Definition get_log_devices (machine_id : string) (cvg : Z) : M W (DList string) :=
  v ← provider_get (cvg_key machine_id cvg "log") true;
  l ← (if truthy v then lift (json_iter v) else mret []);
  mret (mkDList (text_of <$> l) "List Text").

Definition get_drive_info_form_os (path : string) : M W Disk :=
  drive_size ← on_env (device_size path);
  st_blksize ← on_env (device_blksize path);
  mret (mkDisk (mkMaybe (Some path) "Text") (mkMaybe (Some (JInt drive_size)) "Natural")
          (mkMaybe (Some (JInt st_blksize)) "Natural")).

(** [disk.size.get()], [int(...)] of it. *)
Definition maybe_int (m : Maybe json) : outcome Z := int_of (default JNull (m_value m)).
Definition maybe_text (m : Maybe string) : outcome string :=
  match m_value m with Some s => Ret s | None => Raise AttributeError end.

Definition save_drive_info (path : string) : M W bool :=
  repeat_if_fails (-1)
    (disk ← get_drive_info_form_os path;
     hostname ← get_local_hostname;
     p ← lift (maybe_text (dk_path disk));
     size ← lift (maybe_int (dk_size disk));
     bs ← lift (maybe_int (blksize disk));
     let drive_info := dumps (JObj [("path", JStr p); ("size", JInt size); ("blksize", JInt bs)]) in
     let disk_key := strip_c "/" path in
     kv_put (py_str hostname +:+ "/drives/" +:+ disk_key) drive_info None None).

Definition save_log_path : M W bool :=
  repeat_if_fails (-1)
    (hostname ← get_local_hostname;
     machine_id ← get_machine_id;
     log_key ← provider_get "cortx>common>storage>log" false;
     log_s ← lift (match log_key with JStr s => Ret s | _ => Raise TypeError end);
     kv_put (py_str hostname +:+ "/log_path") (log_s +:+ LOG_DIR_EXT +:+ machine_id) None None).

Definition is_component (machine_id name : string) : M W bool :=
  num_comp ← get_int (node_key machine_id "num_components");
  fold_m (fun (found : bool) i =>
    if found then mret true else
    comp_name ← provider_get (component_key machine_id i "name") false;
    mret (json_is name comp_name)) false (py_range num_comp).

(** The loop over the services of one component, left at the first match. *)
Definition service_loop (machine_id svc_name : string) (i num_svc : Z) : M W bool :=
  fold_m (fun (hit : bool) j =>
    if hit then mret true else
    service ← provider_get (component_key machine_id i ("services[" +:+ dec_str j +:+ "]")) false;
    mret (json_is svc_name service)) false (py_range num_svc).

Definition is_service (machine_id svc_name : string) : M W bool :=
  num_comp ← get_int (node_key machine_id "num_components");
  fold_m (fun (found : bool) i =>
    num_svc ← provider_get (component_key machine_id i "num_services") true;
    if truthy num_svc then
      n ← lift (int_of num_svc);
      hit ← service_loop machine_id svc_name i n;
      mret (found || hit)
    else mret found) false (py_range num_comp).

Definition is_component_and_service (machine_id comp_name svc_name : string) : M W bool :=
  c ← is_component machine_id comp_name;
  if (c : bool) then is_service machine_id svc_name else mret false.

Definition is_component_or_service (machine_id name : string) : M W bool :=
  c ← is_component machine_id name;
  if (c : bool) then mret true else is_service machine_id name.

Definition is_motr_io_present (machine_id : string) : M W bool :=
  is_component_and_service machine_id COMPONENT_MOTR SERVICE_MOTR_IO.

Definition save_drives_info : M W unit :=
  machine_id ← get_machine_id;
  io ← is_motr_io_present machine_id;
  if (io : bool) then
    num_cvg ← get_int (node_key machine_id "num_cvg");
    for_each (py_range num_cvg) (fun cvg =>
      data_devs ← get_data_devices machine_id cvg;
      for_each (d_value data_devs) (fun dev_path => save_drive_info dev_path ;; mret tt) ;;
      log_devs ← get_log_devices machine_id cvg;
      for_each (d_value log_devs) (fun dev_path => save_drive_info dev_path ;; mret tt))
  else mret tt.

(** [json.loads(str(path)).lstrip(os.sep)] *)
Definition disk_path_of (path : string) : outcome string :=
  v ← loads (String quote path +:+ String quote "");
  s ← need_str v;
  Ret (lstrip "/" s).

Definition get_drive_info_from_consul (path machine_id : string) : M W Disk :=
  repeat_if_fails (-1)
    (hostname ← get_hostname machine_id;
     disk_path ← lift (disk_path_of path);
     drive_info ← read_loop fuel (py_str hostname +:+ "/drives/" +:+ disk_path) KVNone JNull;
     size ← lift (jget "size" drive_info);
     bs ← lift (jget "blksize" drive_info);
     mret (mkDisk (mkMaybe (Some path) "Text")
             (mkMaybe (match size with JNull => None | _ => Some size end) "Natural")
             (mkMaybe (match bs with JNull => None | _ => Some bs end) "Natural"))).

Definition get_data_drives_info_for (cvg : Z) (machine_id : string) : M W (DList Disk) :=
  data_devs ← get_data_devices machine_id cvg;
  l ← map_m (fun dev_path => get_drive_info_from_consul dev_path machine_id) (d_value data_devs);
  mret (mkDList l "List Disk").

Definition get_log_drives_info_for (cvg : Z) (machine_id : string) : M W (DList Disk) :=
  data_devs ← get_log_devices machine_id cvg;
  l ← map_m (fun dev_path => get_drive_info_from_consul dev_path machine_id) (d_value data_devs);
  mret (mkDList l "List Disk").

(** The entries of [consul-kv.json]. *)
Definition read_kv_file (conf_dir_path : string) : M W (list json) :=
  text ← on_env (read_file (conf_dir_path +:+ "/consul-kv.json"));
  data ← lift (loads text);
  lift (json_iter data).

Definition import_item (item : json) : M W unit :=
  item_data ← lift (loads (dumps item));
  key ← lift (jget "key" item_data);
  value ← lift (jget "value" item_data);
  kv_put (py_str key) (py_str value) None None ;; mret tt.

Definition import_kv (conf_dir_path : string) : M W unit :=
  data ← read_kv_file conf_dir_path; for_each data import_item.

(** The loop that looks for the entry [m0_client_types]. *)
Fixpoint find_client_types (data : list json) : outcome json :=
  match data with
  | [] => Raise (UnboundLocalError "m0_client_types")
  | item :: data' =>
      item_data ← loads (dumps item);
      key ← jget "key" item_data;
      if json_is "m0_client_types" key then jget "value" item_data else find_client_types data'
  end.

Definition copy_conf_files (conf_dir_path : string) : M W unit :=
  machine_id ← get_machine_id;
  global ← provider_get "cortx>common>storage>local" false;
  let global_config_path := py_str global in
  let dest_motr := global_config_path +:+ "/motr/sysconfig/" +:+ machine_id in
  on_env (os_makedirs dest_motr) ;;
  node_name ← execute ["/opt/seagate/cortx/hare/libexec/node-name"; "--conf-dir"; conf_dir_path] None;
  on_env (copy_tree (conf_dir_path +:+ "/sysconfig/motr/" +:+ node_name) dest_motr) ;;
  data ← read_kv_file conf_dir_path;
  m0_client_types ← lift (find_client_types data);
  types_s ← lift (match m0_client_types with JStr s => Ret s | _ => Raise TypeError end);
  types ← lift (loads types_s);
  l ← lift (json_iter types);
  for_each l (fun client_type =>
    let src := conf_dir_path +:+ "/sysconfig/" +:+ py_str client_type +:+ "/" +:+ node_name in
    let dest := global_config_path +:+ "/" +:+ py_str client_type +:+ "/sysconfig/" +:+ machine_id in
    on_env (os_makedirs dest) ;; on_env (copy_tree src dest)) ;;
  on_env (copy_file (conf_dir_path +:+ "/confd.xc") (dest_motr +:+ "/confd.xc")).

Definition copy_consul_files (conf_dir_path mode : string) : M W unit :=
  on_env (copy_file
    (conf_dir_path +:+ "/consul-" +:+ mode +:+ "-conf/consul-" +:+ mode +:+ "-conf.json")
    (conf_dir_path +:+ "/consul/config/consul-" +:+ mode +:+ "-conf.json")).

Definition get_transport_type : M W json :=
  transport_type ← provider_get "cortx>motr>transport_type" true;
  match transport_type with JNull => mret (JStr "libfab") | _ => mret transport_type end.

Definition save_config_path (path : string) : M W bool :=
  repeat_if_fails (-1) (kv_put "config_path" path None None).

Definition is_http (s : string) : bool := String.eqb s "http" || String.eqb s "https".

Definition hax_endpoint_key (i : Z) : string := "cortx>hare>hax>endpoints[" +:+ dec_str i +:+ "]".

(** The loop over the endpoints of hax, left at the first HTTP one. *)
Definition ssl_protocol : M W string :=
  num_ep ← get_int "cortx>hare>hax>num_endpoints";
  p ← fold_m (fun (p : option string) i =>
        match p with
        | Some _ => mret p
        | None =>
            url ← provider_get (hax_endpoint_key i) false;
            u ← lift (parse_url url);
            mret (if is_http (scheme u) then Some (scheme u) else None)
        end) None (py_range num_ep);
  mret (default "http" p).

Definition save_ssl_config : M W bool :=
  repeat_if_fails (-1)
    (http_protocol ← ssl_protocol;
     cert_path ← provider_get "cortx>common>security>ssl_certificate" false;
     kv_put "ssl/hax"
       (dumps (JObj [("http_protocol", JStr http_protocol); ("cert_path", cert_path);
                     ("key_path", cert_path)])) None None).

Definition get_node_group (machine_id : string) (allow_null : option bool) : M W (option string) :=
  repeat_if_fails (-1)
    (node_group ← kv_get ("conf/node>" +:+ machine_id +:+ ">node_group") None
                    (Some (default false allow_null)) None;
     if kv_truthy node_group then
       i ← lift (item_of node_group); s ← lift (decode_value (Value i)); mret (Some s)
     else mret None).
End Utils.
