(* ===== verification/Cdf.v ===== *)
(** * Generation of the cluster description
      ([src/provisioning/miniprov/hare_mp/cdf.py])

    [CdfGenerator]: nodes, pools and profiles are read from the configuration and
    from what the nodes saved in the Consul KV, put into the records of
    [CdfTypes], printed, substituted into [gencdf.dhall] ([CdfResource] gives its
    text) and handed to the programs [dhall] and [dhall-to-yaml]. *)

From S2P Require Import Prelude PyStr Json HaxTypes Message LinkedList Planner Delivery World.
From S2P Require Import Cache ConsulStore Consul PyFloat Dhall CdfTypes Exec ConfStore MpUtils.

Definition DHALL_PATH : string := "/opt/seagate/cortx/hare/share/cfgen/dhall".
Definition DHALL_EXE : string := "/opt/seagate/cortx/hare/bin/dhall".
Definition DHALL_TO_YAML_EXE : string := "/opt/seagate/cortx/hare/bin/dhall-to-yaml".

(** [pkg_resources.resource_string('hare_mp', 'dhall/gencdf.dhall')] *)
Class CdfResource (E : Type) := resource_string : M E string.

Record PoolHandle : Type := mkHandle { ph_cluster_id : json; ph_pool_type : string; ph_storage_ndx : Z }.

Definition PoolType_of (s : string) : outcome PoolType :=
  if String.eqb s "sns" then Ret sns else if String.eqb s "dix" then Ret dix
  else if String.eqb s "md" then Ret md else Raise (KeyError s).

Definition Protocol_of (s : string) : outcome Protocol :=
  if String.eqb s "o2ib" then Ret o2ib else if String.eqb s "tcp" then Ret tcp
  else Raise (KeyError s).

(** ** [string.Template.substitute] *)
Definition ident_start (c : ascii) : bool :=
  let n := nat_of_ascii (lower_char c) in ((97 <=? n) && (n <=? 122))%nat || Ascii.eqb c underscore.
Definition ident_char (c : ascii) : bool := ident_start c || rx_digit c.

Fixpoint take_ident (l : list ascii) : list ascii * list ascii :=
  match l with
  | c :: l' => if ident_char c then let '(i, r) := take_ident l' in (c :: i, r) else ([], l)
  | [] => ([], [])
  end.

Fixpoint substitute (n : nat) (mapping : list (string * string)) (l : list ascii)
    : outcome (list ascii) :=
  match n with
  | O => Hang
  | S n' =>
      match l with
      | [] => Ret []
      | c :: l' =>
          if negb (Ascii.eqb c "$") then r ← substitute n' mapping l'; Ret (c :: r)
          else
            match l' with
            | [] => Raise ValueError
            | d :: l'' =>
                if Ascii.eqb d "$" then r ← substitute n' mapping l''; Ret (c :: r)
                else if ident_start d then
                  let '(i, rest) := take_ident l' in
                  v ← dict_get (string_of_list_ascii i) (dict_find (string_of_list_ascii i) mapping);
                  r ← substitute n' mapping rest; Ret (chars v ++ r)
                else if Ascii.eqb d "{" then
                  match l'' with
                  | e :: _ =>
                      if ident_start e then
                        match take_ident l'' with
                        | (i, b :: rest) =>
                            if Ascii.eqb b "}" then
                              v ← dict_get (string_of_list_ascii i)
                                    (dict_find (string_of_list_ascii i) mapping);
                              r ← substitute n' mapping rest; Ret (chars v ++ r)
                            else Raise ValueError
                        | (_, []) => Raise ValueError
                        end
                      else Raise ValueError
                  | [] => Raise ValueError
                  end
                else Raise ValueError
            end
      end
  end.

(** Each call consumes a character, so the length is fuel enough. *)
Definition template_substitute (mapping : list (string * string)) (s : string) : outcome string :=
  l ← substitute (S (length (chars s))) mapping (chars s); Ret (string_of_list_ascii l).

Definition client_key (i : Z) (rest : string) : string :=
  "cortx>motr>clients[" +:+ dec_str i +:+ "]>" +:+ rest.

(** [if machine not in machines: machines.append(machine)] *)
Definition append_new (machines : list string) (machine : string) : list string :=
  if bool_decide (machine ∈ machines) then machines else machines ++ [machine].

(** A [Maybe] of a parsed value: [None] prints as absent. *)
Definition maybe_json (v : json) (c : string) : Maybe json :=
  mkMaybe (match v with JNull => None | _ => Some v end) c.

(** [int(port)] *)
Definition int_port (p : option Z) : outcome Z :=
  match p with Some z => Ret z | None => Raise TypeError end.

(** [parsed.hostname == hostname] *)
Definition host_is (u : Url) (hostname : json) : bool :=
  match url_hostname u with Some h => json_is h hostname | None => json_eqb JNull hostname end.

Section Cdf.
Context {E : Type} `{ConsulApi E} `{ConfApi E} `{CortxConst} `{Host E} `{CdfResource E}.
Context `{Others E} `{Fuel}.
Notation W := (World E).

Definition get_dhall_path : M W string :=
  ok ← on_env (path_exists DHALL_PATH);
  if (ok : bool) then mret DHALL_PATH else raise (RuntimeError "CFGEN Dhall types not found").

Definition gencdf : M W string := on_env resource_string.

Definition cdf_cluster_id : M W json := provider_get "cluster>id" false.

(** ** Pools *)
Definition get_pool_property (pool : PoolHandle) (prop_name : string) : M W Z :=
  get_int (set_key (ph_storage_ndx pool)
             (">durability>" +:+ ph_pool_type pool +:+ ">" +:+ prop_name)).

Definition get_layout (pool : PoolHandle) : M W Layout :=
  data ← get_pool_property pool "data";
  spare ← get_pool_property pool "spare";
  parity ← get_pool_property pool "parity";
  mret (mkLayout data parity spare).

Definition cvg_devices (node prop_name : string) (i : Z) : M W (list json) :=
  prop_num ← get_int (cvg_key node i ("num_" +:+ prop_name));
  map_m (fun j => provider_get (cvg_key node i (prop_name +:+ "[" +:+ dec_str j +:+ "]")) false)
    (py_range prop_num).

Definition get_devices (pool : PoolHandle) (node : string) : M W (list json) :=
  cvg_num ← get_int (node_key node "num_cvg");
  let prop_name := if String.eqb (ph_pool_type pool) "dix" then "metadata" else "data" in
  fold_m (fun devs i => l ← cvg_devices node prop_name i; mret (devs ++ l)) [] (py_range cvg_num).

Definition validate_pool (pool : PoolHandle) : M W unit :=
  layout ← get_layout pool;
  _storage_set_name ← provider_get (set_key (ph_storage_ndx pool) ">name") false;
  data_nodes ← get_machine_ids_for_service SERVICE_MOTR_IO;
  data_devices_count ← fold_m (fun n node => l ← get_devices pool node;
                                mret (n + Z.of_nat (length l))) 0 data_nodes;
  let min_width := lay_data layout + lay_parity layout + lay_spare layout in
  if negb (data_devices_count =? 0) && (data_devices_count <? min_width)
  then raise (RuntimeError "Invalid storage set configuration") else mret tt.

(** The arithmetic of [_calculate_allowed_failure]. *)
Definition allowed_of (layout : Layout) (node_count cvg_per_node : Z) : outcome AllowedFailures :=
  let total_unit := lay_data layout + lay_parity layout + lay_spare layout in
  if total_unit =? 0 then Raise (RuntimeError "All layout parameters are 0")
  else
    per_node ← py_truediv total_unit node_count;
    enc_failure_allowed_FP ← py_truediv (lay_parity layout) (py_ceil per_node);
    let enc_failure_allowed := py_floor enc_failure_allowed_FP in
    let temp := cvg_per_node * enc_failure_allowed in
    let ctrl_failure_allowed := Z.min temp (lay_parity layout) in
    Ret (mkAllowed 0 0 enc_failure_allowed ctrl_failure_allowed (lay_parity layout)).

Definition calculate_allowed_failure (layout : Layout) : M W AllowedFailures :=
  _machine_id ← get_machine_id;
  data_nodes ← get_machine_ids_for_service SERVICE_MOTR_IO;
  machine_id ← lift (index_get 0 data_nodes);
  cvg_per_node ← get_int (node_key machine_id "num_cvg");
  lift (allowed_of layout (Z.of_nat (length data_nodes)) cvg_per_node).

(** The devices of one node as [DiskRef]s; the host name is looked up for each. *)
Definition node_disk_refs (pool : PoolHandle) (node : string) : M W (list DiskRef) :=
  devices ← get_devices pool node;
  map_m (fun device => hostname ← get_hostname node;
           mret (mkDiskRef (text_of device) (mkMaybe (Some (text_of hostname)) "Text"))) devices.

Definition add_pool (pool : PoolHandle) (out_list : list PoolDesc) : M W (list PoolDesc) :=
  layout ← get_layout pool;
  storage_set_name ← provider_get (set_key (ph_storage_ndx pool) ">name") false;
  let pool_name := py_str storage_set_name +:+ "__" +:+ ph_pool_type pool in
  allowed_failure ← calculate_allowed_failure layout;
  data_nodes ← get_machine_ids_for_service SERVICE_MOTR_IO;
  refs ← fold_m (fun acc node => l ← node_disk_refs pool node; mret (acc ++ l)) [] data_nodes;
  type ← lift (PoolType_of (ph_pool_type pool));
  mret (out_list ++
    [mkPoolDesc pool_name (mkMaybe (Some (mkDList refs "List DiskRef")) "List DiskRef")
       (lay_data layout) (lay_parity layout) (mkMaybe (Some (lay_spare layout)) "Natural") type
       (mkMaybe (Some allowed_failure) "AllowedFailures")]).

Definition create_pool_descriptions : M W (list PoolDesc) :=
  cluster_id ← cdf_cluster_id;
  num_storage_set ← get_int "cluster>num_storage_set";
  fold_m (fun pools i =>
    fold_m (fun pools pool_type =>
      let handle := mkHandle cluster_id pool_type i in
      validate_pool handle ;; add_pool handle pools) pools ["sns"; "dix"])
    [] (py_range num_storage_set).

Definition create_profile_descriptions (pool_desc : list PoolDesc) : list ProfileDesc :=
  [mkProfileDesc "Profile_the_pool" (mkDList (pd_name <$> pool_desc) "List Text")].

Definition create_fdmi_filter_descriptions (nodes : list NodeDesc) : Maybe (list FdmiFilterDesc) :=
  mkMaybe None "List T.FdmiFilterDesc".

(** ** Ports *)
Definition hax_ports (hostname : json) : M W (option Z * option Z) :=
  num_ep ← get_int "cortx>hare>hax>num_endpoints";
  fold_m (fun '(hax, http) i =>
    url ← provider_get (hax_endpoint_key i) false;
    u ← lift (parse_url url);
    if is_http (scheme u) then p ← lift (url_port u); mret (hax, p)
    else if host_is u hostname then p ← lift (url_port u); mret (p, http)
    else mret (hax, http)) (None, None) (py_range num_ep).

Definition server_port_of (hostname : json) (server : string) : M W ServerPort :=
  num_ep ← get_int ("cortx>motr>" +:+ server +:+ ">num_endpoints");
  port ← fold_m (fun port i =>
           url ← provider_get ("cortx>motr>" +:+ server +:+ ">endpoints[" +:+ dec_str i +:+ "]") false;
           u ← lift (parse_url url);
           if host_is u hostname then lift (url_port u) else mret port)
         (Some 0) (py_range num_ep);
  p ← lift (int_port port);
  mret (mkServerPort server p).

(** The endpoints of one client. *)
Definition client_ports (hostname : json) (i : Z) : M W (list ClientPort) :=
  num_endpoints ← provider_get (client_key i "num_endpoints") true;
  if truthy num_endpoints then
    n ← lift (int_of num_endpoints);
    fold_m (fun ports j =>
      url ← provider_get (client_key i ("endpoints[" +:+ dec_str j +:+ "]")) false;
      u ← lift (parse_url url);
      if host_is u hostname then
        port ← lift (url_port u);
        client_name ← provider_get (client_key i "name") false;
        p ← lift (int_port port);
        mret (ports ++ [mkClientPort (text_of client_name) p])
      else mret ports) [] (py_range n)
  else mret [].

(** The fields of [NetworkPorts] in their order: [hax], [hax_http] (nothing),
    [m0_server], [m0_client_s3] (nothing), [m0_client_other]. *)
Definition create_ports_descriptions (hostname : json) : M W NetworkPorts :=
  '(hax, http) ← hax_ports hostname;
  m0server_ports ← map_m (server_port_of hostname) ["confd"; "ios"];
  num_clients ← get_int "cortx>motr>num_clients";
  m0client_ports ← fold_m (fun acc i => l ← client_ports hostname i; mret (acc ++ l)) []
                     (py_range num_clients);
  mret (mkPorts (mkMaybe hax "Natural") (mkMaybe http "Natural")
          (mkMaybe (Some (mkDList m0server_ports "List ServerPort")) "List ServerPort")
          (mkMaybe None "Natural")
          (mkMaybe (Some (mkDList m0client_ports "List ClientPort")) "List ClientPort")).

(** ** Nodes *)
Definition get_iface (machine_id : string) : M W json :=
  ifaces ← provider_get (node_key machine_id "network>data>private_interfaces") true;
  if truthy ifaces then lift (json_first ifaces) else mret (JStr "dummy").

(** One endpoint of [_get_iface_type]: the protocol when it is the node's. *)
Definition endpoint_protocol (hostname endpoint : json) : outcome (option string) :=
  s ← need_str endpoint;
  let key := py_split ":" s in
  k0 ← index_get 0 key;
  if is_http k0 then Ret None
  else
    k1 ← index_get 1 key;
    host ← index_get 2 (py_split "/" k1);
    Ret (if json_is host hostname then Some k0 else None).

Definition get_iface_type (machine_id : string) : M W (option Protocol) :=
  num_ep ← get_int "cortx>hare>hax>num_endpoints";
  hostname ← get_hostname machine_id;
  proto ← fold_m (fun (proto : option string) i =>
            match proto with
            | Some _ => mret proto
            | None =>
                endpoint ← provider_get (hax_endpoint_key i) false;
                lift (endpoint_protocol hostname endpoint)
            end) None (py_range num_ep);
  match proto with
  | None => mret None
  | Some p => x ← lift (Protocol_of p); mret (Some x)
  end.

Definition get_metadata_device (machine_id : string) (cvg : Z) : M W string :=
  v ← provider_get (cvg_key machine_id cvg "metadata[0]") false; mret (text_of v).

Definition get_m0d_per_cvg (machine_id : string) (cvg : Z) : Z := 1.

(** The generator [_get_node_clients], consumed by the caller. *)
Definition get_node_clients (machine_id : string) : M W (list M0ClientDesc) :=
  num_clients ← get_int "cortx>motr>num_clients";
  fold_m (fun acc i =>
    no_instances ← get_int (client_key i "num_instances");
    if 0 <? no_instances then
      v ← provider_get (client_key i "name") false;
      let name := py_str v in
      here ← is_component_or_service machine_id name;
      mret (if here : bool then acc ++ [mkClient name no_instances] else acc)
    else mret acc) [] (py_range num_clients).

(** The entry of one IO service. *)
Definition io_server (machine_id : string) (cvg : Z) : M W M0ServerDesc :=
  data ← get_data_drives_info_for cvg machine_id;
  meta_data ← get_metadata_device machine_id cvg;
  log ← get_log_drives_info_for cvg machine_id;
  mret (mkServerDesc (mkMaybe (Some false) "Bool")
          (mkDisks (mkMaybe (Some meta_data) "Text") data log)).

Definition confd_server : M0ServerDesc :=
  mkServerDesc (mkMaybe (Some true) "Bool")
    (mkDisks (mkMaybe None "Text") (mkDList [] "List Disk") (mkDList [] "List Disk")).

Definition node_servers (machine_id : string) : M W (DList M0ServerDesc) :=
  num_cvg ← get_int (node_key machine_id "num_cvg");
  l ← fold_m (fun acc cvg =>
        s ← map_m (fun _ => io_server machine_id cvg) (py_range (get_m0d_per_cvg machine_id cvg));
        mret (acc ++ s)) [] (py_range num_cvg);
  mret (mkDList (l ++ [confd_server]) "List M0ServerDesc").

Definition create_node (machine_id : string) (is_node_group_supported : bool) : M W NodeDesc :=
  hostname ← get_hostname machine_id;
  iface ← get_iface machine_id;
  io ← is_motr_io_present machine_id;
  '(node_group, servers) ←
    (if io : bool then
       g ← (if is_node_group_supported then get_node_group machine_id None else mret None);
       s ← node_servers machine_id;
       mret (g, Some s)
     else mret (None, None));
  clients ← get_node_clients machine_id;
  let m0_clients := match clients with [] => None | _ => Some (mkDList clients "List M0ClientDesc") end in
  node_facts ← get_node_facts;
  network_ports ← create_ports_descriptions hostname;
  processorcount ← lift (jget "processorcount" node_facts);
  memorysize_mb ← lift (jget "memorysize_mb" node_facts);
  iface_type ← get_iface_type machine_id;
  transport ← get_transport_type;
  mret (mkNodeDesc (text_of hostname) (mkMaybe (Some (default "None" node_group)) "Text")
          (mkMaybe (Some machine_id) "Text") (maybe_json processorcount "Natural")
          (maybe_json memorysize_mb "Double") (text_of iface)
          (mkMaybe (Some (text_of hostname)) "Text") (mkMaybe iface_type "P") (text_of transport)
          (mkMaybe servers "List M0ServerDesc") (mkMaybe m0_clients "List M0ClientDesc")
          (mkMaybe (Some network_ports) "T.NetworkPorts")).

(** The pods that run a client. *)
Definition client_machine_ids : M W (list string) :=
  num_clients ← get_int "cortx>motr>num_clients";
  fold_m (fun acc i =>
    n ← get_int (client_key i "num_instances");
    if 0 <? n then
      v ← provider_get (client_key i "name") false;
      let name := py_str v in
      l1 ← get_machine_ids_for_service name;
      l2 ← get_machine_ids_for_component name;
      mret (acc ++ l1 ++ l2)
    else mret acc) [] (py_range num_clients).

(** The machines described, in the order of the description. *)
Definition node_machine_ids : M W (list string) :=
  machines ← get_machine_ids_for_service SERVICE_MOTR_IO;
  client_machines ← client_machine_ids;
  mret (foldl append_new machines client_machines).

Definition create_node_descriptions : M W (list NodeDesc) :=
  machines ← node_machine_ids;
  me ← get_machine_id;
  local_node_group ← get_node_group me (Some true);
  let is_node_group_supported :=
    match local_node_group with Some g => negb (String.eqb g "") | None => false end in
  map_m (fun machine => create_node machine is_node_group_supported) machines.

(** ** The description *)
Definition cluster_desc : M W ClusterDesc :=
  nodes ← create_node_descriptions;
  pools ← create_pool_descriptions;
  let profiles := create_profile_descriptions pools in
  let fdmi_filters := create_fdmi_filter_descriptions nodes in
  aux ← provider_get "cluster>create_aux" true;
  let create_aux := match aux with JNull => JBool false | _ => aux end in
  mret (mkCluster (mkMaybe (Some create_aux) "Bool") (mkMaybe (Some false) "Bool")
          (mkDList nodes "List NodeInfo") (mkDList pools "List PoolInfo")
          (mkDList profiles "List ProfileInfo") fdmi_filters).

Definition get_cdf_dhall : M W string :=
  dhall_path ← get_dhall_path;
  c ← cluster_desc;
  let params_text := cluster_text c in
  text ← gencdf;
  lift (template_substitute [("path", dhall_path); ("params", params_text)] text).

(** [S.Popen([exe], ...)] fed with [input]. *)
Definition run_filter (exe input message : string) : M W string :=
  p ← on_env (popen [exe] None None);
  '(code, out, err) ← on_env (proc_communicate p (Some input) None);
  if code =? 0 then mret out else raise (RuntimeError message).

Definition cdf_generate : M W string :=
  g ← get_cdf_dhall;
  dhall_out ← run_filter DHALL_EXE g "dhall binary failed";
  run_filter DHALL_TO_YAML_EXE dhall_out "dhall-to-yaml binary failed".
End Cdf.
