(* ===== verification/Site.v ===== *)
(** * A small site

    A concrete environment of the provisioner used by the witnesses: a Consul
    server, a configuration of one data node and one client node, the output of
    the programs it runs, and its files. *)

From S2P Require Import Prelude PyStr Json HaxTypes Message LinkedList Planner Delivery World.
From S2P Require Import Cache ConsulStore Consul Exec ConfStore.

Record site : Type := mkSite {
  st_server : server;
  st_conf : list (string * json);
  st_found : list (string * list string);
  st_machine : option string;
  st_hostname : string;
  st_outputs : list (string * (Z * string));      (* command line -> exit code, output *)
  st_devices : list (string * (Z * Z));
  st_files : list (string * string);
  st_started : list string }.                     (* the command lines run, by handle *)

Definition set_server (s : server) (e : site) : site :=
  mkSite s (st_conf e) (st_found e) (st_machine e) (st_hostname e) (st_outputs e) (st_devices e)
    (st_files e) (st_started e).
Definition set_files (l : list (string * string)) (e : site) : site :=
  mkSite (st_server e) (st_conf e) (st_found e) (st_machine e) (st_hostname e) (st_outputs e)
    (st_devices e) l (st_started e).
Definition set_started (l : list string) (e : site) : site :=
  mkSite (st_server e) (st_conf e) (st_found e) (st_machine e) (st_hostname e) (st_outputs e)
    (st_devices e) (st_files e) l.

Definition on_server {A} (m : M server A) : M site A := fun e =>
  let '(r, s) := m (st_server e) in (r, set_server s e).

#[export] Instance site_consul : ConsulApi site := {|
  consul_kv_get k r := on_server (consul_kv_get k r);
  consul_kv_put k v c := on_server (consul_kv_put k v c);
  consul_txn_put ops := on_server (consul_txn_put ops);
  consul_catalog_nodes := on_server consul_catalog_nodes;
  consul_catalog_services := on_server consul_catalog_services;
  consul_catalog_service n := on_server (consul_catalog_service n);
  consul_agent_self := on_server consul_agent_self;
  consul_agent_members := on_server consul_agent_members;
  consul_agent_force_leave n := on_server (consul_agent_force_leave n);
  consul_session_destroy i := on_server (consul_session_destroy i);
  consul_session_info i := on_server (consul_session_info i);
  consul_health_node n := on_server (consul_health_node n);
|}.

#[export] Instance site_consul_laws : ConsulLaws site.
Proof.
  refine {| view e := srv_store (st_server e);
            set_view s e := set_server (set_store s (st_server e)) e;
            available e := srv_up (st_server e) |}; try done.
  - by intros [[] ? ? ? ? ? ? ? ?].
  - intros k r e Ha. unfold consul_kv_get, site_consul, on_server, consul_kv_get, server_api, if_up.
    rewrite Ha. by destruct e.
  - intros k v c e Ha. cbn. unfold on_server. cbn. rewrite Ha. by destruct (store_put _ _ _ _).
  - intros ops e Ha. cbn. unfold on_server. cbn. rewrite Ha.
    destruct (store_txn _ _); [done|]. by destruct e.
  - intros k r e Ha. cbn. unfold on_server, if_up. cbn. rewrite Ha. by destruct e.
  - intros k v c e Ha. cbn. unfold on_server. cbn. rewrite Ha. by destruct e.
  - intros ops e Ha. cbn. unfold on_server. cbn. rewrite Ha. by destruct e.
Defined.

Definition site_get (e : site) (k : string) : json := default JNull (dict_find k (st_conf e)).
Definition site_found (e : site) (p k : string) (v : option string) : list string :=
  default [] (dict_find (k +:+ "=" +:+ default "" v) (st_found e)).

#[export] Instance site_conf : ConfApi site := {|
  conf_load _ := mret tt;
  conf_get k e := (Ret (site_get e k), e);
  conf_search p k v e := (Ret (site_found e p k v), e);
  conf_machine_id e := (Ret (st_machine e), e);
  socket_gethostname e := (Ret (st_hostname e), e);
|}.

#[export] Instance site_conf_laws : ConfLaws site.
Proof. by refine {| conf_of := site_get; found_of := site_found; machine_of := st_machine |}. Defined.

#[export] Instance site_const : CortxConst := {| SERVICE_MOTR_IO := "io"; COMPONENT_MOTR := "motr" |}.

Definition command (cmd : list string) : string := py_join " " cmd.

#[export] Instance site_host : Host site := {|
  popen cmd _ _ e :=
    match dict_find (command cmd) (st_outputs e) with
    | Some _ => (Ret (length (st_started e)), set_started (st_started e ++ [command cmd]) e)
    | None => (Raise (FileNotFoundError (command cmd)), e)
    end;
  proc_close_stdout _ := mret tt;
  proc_communicate h _ _ e :=
    match st_started e !! h ≫= (fun c => dict_find c (st_outputs e)) with
    | Some (code, out) => (Ret (code, out, ""), e)
    | None => (Raise ValueError, e)
    end;
  os_system s e := (Ret (from_option fst 0 (dict_find s (st_outputs e))),
                    set_started (st_started e ++ [s]) e);
  os_getenv _ := mret None;
  sys_path := mret [];
  path_exists p e := (Ret (bool_decide (is_Some (dict_find p (st_files e)))), e);
  path_isdir _ := mret true;
  os_makedirs _ := mret tt;
  os_listdir _ := mret [];
  read_file p e :=
    match dict_find p (st_files e) with
    | Some s => (Ret s, e)
    | None => (Raise (FileNotFoundError p), e)
    end;
  write_file p s e := (Ret tt, set_files (dict_set p s (st_files e)) e);
  copy_file _ _ := mret tt;
  copy_tree _ _ := mret tt;
  device_size p e := (Ret (from_option fst 0 (dict_find p (st_devices e))), e);
  device_blksize p e := (Ret (from_option snd 0 (dict_find p (st_devices e))), e);
|}.

#[export] Instance site_others : Others site := fun w => w.

(** ** One data node and one client node *)
Definition demo_conf : list (string * json) :=
  [("cluster>id", JStr "c1"); ("cluster>num_storage_set", JInt 1);
   ("cluster>storage_set[0]>name", JStr "set1"); ("cluster>storage_set[0]>num_nodes", JInt 2);
   ("cluster>storage_set[0]>nodes[0]", JStr "m1"); ("cluster>storage_set[0]>nodes[1]", JStr "m2");
   ("cluster>storage_set[0]>nodes", JArr [JStr "m1"; JStr "m2"]);
   ("cluster>storage_set[0]>durability>sns>data", JStr "1");
   ("cluster>storage_set[0]>durability>sns>parity", JStr "0");
   ("cluster>storage_set[0]>durability>sns>spare", JStr "0");
   ("cluster>storage_set[0]>durability>dix>data", JInt 1);
   ("cluster>storage_set[0]>durability>dix>parity", JInt 0);
   ("cluster>storage_set[0]>durability>dix>spare", JInt 0);
   ("node>m1>hostname", JStr "data1"); ("node>m1>num_cvg", JInt 1);
   ("node>m1>cvg[0]>devices>num_data", JInt 1);
   ("node>m1>cvg[0]>devices>data[0]", JStr "/dev/sdb");
   ("node>m1>cvg[0]>devices>num_metadata", JInt 1);
   ("node>m1>cvg[0]>devices>metadata[0]", JStr "/dev/sda");
   ("node>m1>num_components", JInt 1); ("node>m1>components[0]>name", JStr "motr");
   ("node>m1>components[0]>num_services", JInt 1); ("node>m1>components[0]>services[0]", JStr "io");
   ("node>m2>hostname", JStr "client1"); ("node>m2>num_components", JInt 1);
   ("node>m2>components[0]>name", JStr "other");
   ("cortx>motr>num_clients", JInt 1); ("cortx>motr>clients[0]>name", JStr "other");
   ("cortx>motr>clients[0]>num_instances", JInt 1);
   ("cortx>hare>hax>num_endpoints", JInt 2);
   ("cortx>hare>hax>endpoints[0]", JStr "tcp://data1:22001");
   ("cortx>hare>hax>endpoints[1]", JStr "https://data1:22003");
   ("cortx>motr>confd>num_endpoints", JInt 1);
   ("cortx>motr>confd>endpoints[0]", JStr "tcp://data1:21001");
   ("cortx>motr>ios>num_endpoints", JInt 1);
   ("cortx>motr>ios>endpoints[0]", JStr "tcp://data1:21002");
   ("cortx>common>storage>local", JStr "/etc/cortx"); ("cortx>common>storage>log", JStr "/var/log");
   ("cortx>external>consul>num_endpoints", JInt 1);
   ("cortx>external>consul>endpoints[0]", JStr "tcp://consul:8301")].

Definition demo_found : list (string * list string) :=
  [("num_cvg=", ["node>m1>num_cvg"]); ("name=other", ["node>m2>components[0]>name"])].

Definition demo_drives : list (string * string) :=
  [("data1/facts",
    dumps (JObj [("processorcount", JInt 4); ("memorysize_mb", JStr "7812.50")]));
   ("data1/drives/dev/sdb",
    dumps (JObj [("path", JStr "/dev/sdb"); ("size", JInt 1000); ("blksize", JInt 4096)]))].

Definition demo_site (kv : list (string * string)) (me : string) : site :=
  mkSite (server_of kv) demo_conf demo_found (Some me) "data1" [] [("/dev/sdb", (1000, 4096))] [] [].

Definition site_world (kv : list (string * string)) (me : string) : World site :=
  world_init (demo_site kv me) None 3.
