(* ===== verification/CdfProps.v ===== *)
(** * Properties of the cluster description

    The allowed failures of a layout, the width of the pools, the order of the
    nodes, and the type of the generated text.  [reads_conf m] says that [m] only
    reads the configuration; [keeps P m] is a Hoare triple for the invariant
    "the configuration is clean". *)

From S2P Require Import Prelude PyStr Json HaxTypes Message LinkedList Planner Delivery World.
From S2P Require Import Cache ConsulStore Consul PyFloat Dhall CdfTypes Exec ConfStore MpUtils Cdf.
From S2P Require Import Site.

(** ** Allowed failures *)
Section Allowed.
Variables (layout : Layout) (node_count cvg : Z).
Let total := lay_data layout + lay_parity layout + lay_spare layout.

Lemma allowed_of_exact :
  0 <= lay_data layout -> 0 <= lay_parity layout -> 0 <= lay_spare layout ->
  0 < total < 2 ^ 53 -> 0 < node_count <= 2 ^ 53 ->
  let encl := lay_parity layout / ceil_div total node_count in
  allowed_of layout node_count cvg =
  Ret (mkAllowed 0 0 encl (Z.min (cvg * encl) (lay_parity layout)) (lay_parity layout)).
Proof.
  intros Hd Hp Hs Ht Hn encl. unfold allowed_of. fold total.
  destruct (Z.eqb_spec total 0) as [| _]; [lia|].
  destruct (float_ceil_div total node_count ltac:(lia) Hn) as (f & Ef & Ec).
  pose proof (ceil_div_spec total node_count ltac:(lia)) as Hspec.
  assert (Hc : 0 < ceil_div total node_count <= 2 ^ 53) by nia.
  destruct (float_floor_div (lay_parity layout) (ceil_div total node_count)) as (g & Eg & Efl);
    [unfold total in *; lia | done |].
  rewrite Ef. cbn. rewrite Ec, Eg. cbn. by rewrite Efl.
Qed.

(** C19: For a layout of at most 2^53 units the floating point computation of
    [_calculate_allowed_failure] gives the exact values: the units lost with the
    allowed enclosures fit the parity, one more enclosure would not, controllers
    are capped by the parity and the number of disks is the parity. *)
Theorem allowed_failures_fit_parity :
  0 <= lay_data layout -> 0 <= lay_parity layout -> 0 <= lay_spare layout ->
  0 < total < 2 ^ 53 -> 0 < node_count <= 2 ^ 53 -> 0 <= cvg ->
  exists a, allowed_of layout node_count cvg = Ret a
    /\ af_encl a * ceil_div total node_count <= lay_parity layout
    /\ lay_parity layout < (af_encl a + 1) * ceil_div total node_count
    /\ af_ctrl a = Z.min (cvg * af_encl a) (lay_parity layout)
    /\ 0 <= af_ctrl a <= lay_parity layout /\ 0 <= af_encl a
    /\ af_disk a = lay_parity layout.
Proof.
  intros Hd Hp Hs Ht Hn Hc. eexists. split; [by apply allowed_of_exact|]. cbn [af_encl af_ctrl af_disk].
  pose proof (ceil_div_spec total node_count ltac:(lia)).
  assert (Hcd : 0 < ceil_div total node_count) by nia.
  pose proof (Z.div_mod (lay_parity layout) (ceil_div total node_count) ltac:(lia)).
  pose proof (Z.mod_pos_bound (lay_parity layout) (ceil_div total node_count) Hcd).
  pose proof (Z.div_pos (lay_parity layout) (ceil_div total node_count) Hp Hcd).
  repeat split; try nia.
Qed.
End Allowed.

Lemma allowed_failures_fit_parity_witness :
  exists a, allowed_of (mkLayout 4 2 0) 3 2 = Ret a
    /\ af_encl a * ceil_div 6 3 <= 2 /\ 2 < (af_encl a + 1) * ceil_div 6 3
    /\ af_ctrl a = Z.min (2 * af_encl a) 2 /\ 0 <= af_ctrl a <= 2 /\ 0 <= af_encl a /\ af_disk a = 2.
Proof. apply (allowed_failures_fit_parity (mkLayout 4 2 0) 3 2); cbn; lia. Defined.

(** ** Computations that only read the configuration *)
Section ReadsConf.
Context {E : Type} `{ConfLaws E} `{CortxConst}.
Notation W := (World E).

(** The two processes see the same configuration. *)
Definition same_conf (w1 w2 : W) : Prop :=
  (forall k, conf_of (env w1) k = conf_of (env w2) k)
  /\ forall p k v, found_of (env w1) p k v = found_of (env w2) p k v.

Definition reads_conf {A} (m : M W A) : Prop :=
  forall w, (m w).2 = w /\ forall w2, same_conf w w2 -> (m w2).1 = (m w).1.

Lemma rc_lift {A} (o : outcome A) : reads_conf (lift o).
Proof. by intros w. Qed.
Lemma rc_ret {A} (a : A) : reads_conf (mret a).
Proof. by intros w. Qed.
Lemma rc_raise {A} e : reads_conf (raise e : M W A).
Proof. by intros w. Qed.

Lemma rc_bind {A B} (m : M W A) (k : A -> M W B) :
  reads_conf m -> (forall a, reads_conf (k a)) -> reads_conf (m ≫= k).
Proof.
  intros Hm Hk w. destruct (Hm w) as [Hw Hs]. unfold mbind, M_bind.
  destruct (m w) as [r w1] eqn:Er. cbn in Hw, Hs. subst w1. split.
  - destruct r as [a | e |]; [apply Hk | done | done].
  - intros w2 H2. specialize (Hs w2 H2). destruct (Hm w2) as [Hw2 _].
    destruct (m w2) as [r2 w2']. cbn in Hs, Hw2. subst. destruct r as [a | e |]; [| done | done].
    by apply Hk.
Qed.

Lemma rc_map {A B} (f : A -> M W B) l : (forall a, reads_conf (f a)) -> reads_conf (map_m f l).
Proof.
  intros Hf. induction l as [| x l IH]; cbn; [apply rc_ret|].
  apply rc_bind; [apply Hf|]. intros y. apply rc_bind; [apply IH|]. intros ys. apply rc_ret.
Qed.

Lemma rc_fold {A S} (f : S -> A -> M W S) s l :
  (forall s a, reads_conf (f s a)) -> reads_conf (fold_m f s l).
Proof.
  intros Hf. revert s. induction l as [| x l IH]; intros s; cbn; [apply rc_ret|].
  apply rc_bind; [apply Hf | apply IH].
Qed.

Lemma rc_get key an : reads_conf (provider_get key an).
Proof.
  intros w. unfold provider_get, mbind, M_bind, on_env. rewrite law_conf_get, set_env_same.
  split; [by destruct (conf_of (env w) key), an|]. intros w2 [Hc _].
  rewrite law_conf_get, set_env_same, Hc. by destruct (conf_of (env w2) key), an.
Qed.

Lemma rc_search p k v : reads_conf (search_val p k v).
Proof.
  intros w. unfold search_val, on_env. rewrite law_conf_search, set_env_same. split; [done|].
  intros w2 [_ Hf]. rewrite law_conf_search, set_env_same. cbn. by rewrite Hf.
Qed.

(** Follows the structure of a computation. *)
Ltac reads :=
  match goal with
  | |- reads_conf (_ ≫= _) => apply rc_bind; [reads | intros; reads]
  | |- reads_conf (map_m _ _) => apply rc_map; intros; reads
  | |- reads_conf (fold_m _ _ _) => apply rc_fold; intros; reads
  | |- reads_conf (if ?b then _ else _) => destruct b; reads
  | |- reads_conf (match ?o with _ => _ end) => destruct o; reads
  | |- reads_conf (let '(_, _) := ?o in _) => destruct o; reads
  | |- reads_conf (provider_get _ _) => apply rc_get
  | |- reads_conf (search_val _ _ _) => apply rc_search
  | |- reads_conf (lift _) => apply rc_lift
  | |- reads_conf (mret _) => apply rc_ret
  | |- reads_conf (raise _) => apply rc_raise
  | |- _ => eauto with reads_conf
  end.

Create HintDb reads_conf.

Lemma rc_get_int key : reads_conf (get_int key).
Proof. unfold get_int. reads. Qed.
#[local] Hint Resolve rc_get_int : reads_conf.

Lemma rc_attribute a n : reads_conf (get_machine_ids_for_attribute a n).
Proof. unfold get_machine_ids_for_attribute, all_machines, set_machines, keep_machine. reads. Qed.
#[local] Hint Resolve rc_attribute : reads_conf.

Lemma rc_service s : reads_conf (get_machine_ids_for_service s).
Proof. unfold get_machine_ids_for_service. reads. Qed.
Lemma rc_component s : reads_conf (get_machine_ids_for_component s).
Proof. unfold get_machine_ids_for_component. reads. Qed.
Lemma rc_layout p : reads_conf (get_layout p).
Proof. unfold get_layout, get_pool_property. reads. Qed.
Lemma rc_devices p n : reads_conf (get_devices p n).
Proof. unfold get_devices, cvg_devices. reads. Qed.
Lemma rc_hostname m : reads_conf (get_hostname m).
Proof. unfold get_hostname. reads. Qed.
#[local] Hint Resolve rc_service rc_component rc_layout rc_devices rc_hostname : reads_conf.

Lemma rc_validate p : reads_conf (validate_pool p).
Proof. unfold validate_pool. reads. Qed.
Lemma rc_refs p n : reads_conf (node_disk_refs p n).
Proof. unfold node_disk_refs. reads. Qed.
Lemma rc_node_machines : reads_conf node_machine_ids.
Proof. unfold node_machine_ids, client_machine_ids. reads. Qed.
End ReadsConf.

(** ** The pools of a description *)
Section Pools.
Context {E : Type} `{ConfLaws E} `{CortxConst}.
Notation W := (World E).

Lemma rc_run {A} (m : M W A) w a w' : reads_conf m -> m w = (Ret a, w') -> w' = w.
Proof. intros Hm E1. destruct (Hm w) as [H2 _]. by rewrite E1 in H2. Qed.

Lemma get_int_conf key (w : W) z w' :
  get_int key w = (Ret z, w') -> int_of (conf_of (env w) key) = Ret z.
Proof.
  unfold get_int, provider_get, mbind, M_bind, on_env. rewrite law_conf_get, set_env_same.
  unfold lift. destruct (conf_of (env w) key); intros E1; by apply (f_equal fst) in E1.
Qed.

Lemma get_machine_id_same (w : W) r w' : get_machine_id w = (r, w') -> w' = w.
Proof.
  unfold get_machine_id, mbind, M_bind, on_env. rewrite law_conf_machine, set_env_same.
  destruct (machine_of _); [destruct (String.eqb _ _)|]; by intros [= _ <-].
Qed.

(** *** What the configuration says of a pool *)

(** A number of the configuration. *)
Definition conf_int (e : E) (key : string) : Z :=
  match int_of (conf_of e key) with Ret z => z | _ => 0 end.

Definition devices_in (e : E) (ty node : string) : list json :=
  let prop_name := if String.eqb ty "dix" then "metadata" else "data" in
  i ← py_range (conf_int e (node_key node "num_cvg"));
  (fun j => conf_of e (cvg_key node i (prop_name +:+ "[" +:+ dec_str j +:+ "]")))
    <$> py_range (conf_int e (cvg_key node i ("num_" +:+ prop_name))).

(** The private name of the node, its host name when there is none. *)
Definition hostname_in (e : E) (node : string) : json :=
  let fqdn := conf_of e (node_key node "network>data>private_fqdn") in
  if truthy fqdn then fqdn else conf_of e (node_key node "hostname").

Definition refs_in (e : E) (ty : string) (nodes : list string) : list DiskRef :=
  node ← nodes;
  (fun d => mkDiskRef (text_of d) (mkMaybe (Some (text_of (hostname_in e node))) "Text"))
    <$> devices_in e ty node.

Definition units_in (e : E) (i : Z) (ty unit : string) : outcome Z :=
  int_of (conf_of e (set_key i (">durability>" +:+ ty +:+ ">" +:+ unit))).

(** The pool of the type [ty] of the storage set [i]: its name and layout are those of the
    set, its disks are all the disks of the io nodes for this type, enough for a
    stripe, and the failures it allows are computed from its layout, the number of the
    io nodes and the groups of disks of the first of them. *)
Definition describes_pool (w : W) (i : Z) (ty : string) (p : PoolDesc) : Prop :=
  exists first nodes spare,
    get_machine_ids_for_service SERVICE_MOTR_IO w = (Ret (first :: nodes), w)
    /\ pd_name p = py_str (conf_of (env w) (set_key i ">name")) +:+ "__" +:+ ty
    /\ PoolType_of ty = Ret (pd_type p)
    /\ units_in (env w) i ty "data" = Ret (pd_data_units p)
    /\ units_in (env w) i ty "parity" = Ret (pd_parity_units p)
    /\ units_in (env w) i ty "spare" = Ret spare /\ m_value (spare_units p) = Some spare
    /\ (d_value <$> m_value (disk_refs p)) = Some (refs_in (env w) ty (first :: nodes))
    /\ (refs_in (env w) ty (first :: nodes) = []
        \/ pd_data_units p + pd_parity_units p + spare
             <= Z.of_nat (length (refs_in (env w) ty (first :: nodes))))
    /\ (Ret <$> m_value (allowed_failures p))
       = Some (allowed_of (mkLayout (pd_data_units p) (pd_parity_units p) spare)
                 (Z.of_nat (length (first :: nodes))) (conf_int (env w) (node_key first "num_cvg"))).

(** *** Reading it *)
Lemma provider_get_conf key an (w : W) v w' :
  provider_get key an w = (Ret v, w') -> v = conf_of (env w) key /\ w' = w.
Proof.
  unfold provider_get, mbind, M_bind, on_env. rewrite law_conf_get, set_env_same.
  destruct (conf_of (env w) key); try by intros [= <- <-]. destruct an; by intros [= <- <-].
Qed.

Lemma get_hostname_is node (w : W) v w' :
  get_hostname node w = (Ret v, w') -> v = hostname_in (env w) node /\ w' = w.
Proof.
  intros E1. apply bind_Ret in E1 as (f & w1 & [-> ->]%provider_get_conf & E1). unfold hostname_in.
  destruct (truthy _); [by injection E1 as <- <- | by apply provider_get_conf in E1].
Qed.

Lemma get_int_is key (w : W) z w' :
  get_int key w = (Ret z, w') -> z = conf_int (env w) key /\ w' = w.
Proof.
  intros E1. pose proof (get_int_conf _ _ _ _ E1) as Hz. pose proof (rc_run _ _ _ _ (rc_get_int _) E1) as ->.
  unfold conf_int. by rewrite Hz.
Qed.

(** A loop whose body reads the configuration. *)
Lemma map_m_conf {A B} (f : A -> M W B) (g : A -> B) l (w : W) r w' :
  (forall a b w1, f a w = (Ret b, w1) -> b = g a /\ w1 = w) ->
  map_m f l w = (Ret r, w') -> r = g <$> l /\ w' = w.
Proof.
  intros Hf. revert r. induction l as [| x l IH]; intros r E1; cbn in E1; [by injection E1 as <- <-|].
  apply bind_Ret in E1 as (y & w1 & [-> ->]%Hf & E1). apply bind_Ret in E1 as (ys & w2 & E2 & E1).
  injection E1 as <- <-. apply IH in E2 as [-> ->]. done.
Qed.

Lemma fold_app_conf {A B} (f : A -> M W (list B)) (g : A -> list B) l acc (w : W) r w' :
  (forall a b w1, f a w = (Ret b, w1) -> b = g a /\ w1 = w) ->
  fold_m (fun acc a => b ← f a; mret (acc ++ b)) acc l w = (Ret r, w') ->
  r = acc ++ (l ≫= g) /\ w' = w.
Proof.
  intros Hf. revert acc. induction l as [| x l IH]; intros acc E1; cbn in E1.
  { injection E1 as <- <-. by rewrite app_nil_r. }
  apply bind_Ret in E1 as (acc1 & w1 & E2 & E1).
  apply bind_Ret in E2 as (b & w2 & [-> ->]%Hf & E2). injection E2 as <- <-.
  apply IH in E1 as [-> ->]. by rewrite <- app_assoc.
Qed.

Lemma fold_count_conf {A B} (f : A -> M W (list B)) (g : A -> list B) l n (w : W) r w' :
  (forall a b w1, f a w = (Ret b, w1) -> b = g a /\ w1 = w) ->
  fold_m (fun n a => b ← f a; mret (n + Z.of_nat (length b))) n l w = (Ret r, w') ->
  r = n + Z.of_nat (length (l ≫= g)) /\ w' = w.
Proof.
  intros Hf. revert n. induction l as [| x l IH]; intros n E1; cbn in E1.
  { injection E1 as <- <-. cbn. split; [lia | done]. }
  apply bind_Ret in E1 as (n1 & w1 & E2 & E1).
  apply bind_Ret in E2 as (b & w2 & [-> ->]%Hf & E2). injection E2 as <- <-.
  apply IH in E1 as [-> ->]. cbn. rewrite length_app. split; [lia | done].
Qed.

Lemma get_devices_is h node (w : W) l w' :
  get_devices h node w = (Ret l, w') -> l = devices_in (env w) (ph_pool_type h) node /\ w' = w.
Proof.
  intros E1. apply bind_Ret in E1 as (n & w1 & [-> ->]%get_int_is & E1).
  eapply fold_app_conf in E1; [exact E1|]. intros i b w1 E2.
  apply bind_Ret in E2 as (k & w2 & [-> ->]%get_int_is & E2).
  eapply map_m_conf in E2; [exact E2|]. intros j v w3 E3. by apply provider_get_conf in E3.
Qed.

Lemma node_disk_refs_is h node (w : W) l w' :
  node_disk_refs h node w = (Ret l, w') -> l = refs_in (env w) (ph_pool_type h) [node] /\ w' = w.
Proof.
  intros E1. apply bind_Ret in E1 as (ds & w1 & [-> ->]%get_devices_is & E1).
  unfold refs_in. cbn [mbind list_bind]. rewrite app_nil_r.
  eapply map_m_conf in E1; [exact E1|]. intros d r w2 E2.
  apply bind_Ret in E2 as (hn & w3 & [-> ->]%get_hostname_is & E2). by injection E2 as <- <-.
Qed.

Lemma refs_in_bind e ty nodes : (nodes ≫= fun node => refs_in e ty [node]) = refs_in e ty nodes.
Proof.
  induction nodes as [| x nodes IH]; [done|]. cbn [mbind list_bind]. rewrite IH.
  unfold refs_in. cbn [mbind list_bind]. by rewrite app_nil_r.
Qed.

Lemma refs_in_length e ty nodes :
  length (refs_in e ty nodes) = length (nodes ≫= devices_in e ty).
Proof.
  induction nodes as [| x nodes IH]; [done|]. unfold refs_in in *. cbn [mbind list_bind].
  by rewrite !length_app, length_fmap, IH.
Qed.

Lemma get_layout_is h (w : W) lay w' : get_layout h w = (Ret lay, w') ->
  units_in (env w) (ph_storage_ndx h) (ph_pool_type h) "data" = Ret (lay_data lay)
  /\ units_in (env w) (ph_storage_ndx h) (ph_pool_type h) "parity" = Ret (lay_parity lay)
  /\ units_in (env w) (ph_storage_ndx h) (ph_pool_type h) "spare" = Ret (lay_spare lay).
Proof.
  intros E1. apply bind_Ret in E1 as (d & w1 & Ed & E1).
  pose proof (rc_run _ _ _ _ (rc_get_int _) Ed) as ->. apply bind_Ret in E1 as (sp & w1 & Es & E1).
  pose proof (rc_run _ _ _ _ (rc_get_int _) Es) as ->. apply bind_Ret in E1 as (pa & w1 & Ep & E1).
  injection E1 as <- _. cbn. by split_and!; eapply get_int_conf.
Qed.

Lemma allowed_failure_run layout nodes (w : W) a w' :
  get_machine_ids_for_service SERVICE_MOTR_IO w = (Ret nodes, w) ->
  calculate_allowed_failure layout w = (Ret a, w') ->
  w' = w /\ exists first rest, nodes = first :: rest
    /\ allowed_of layout (Z.of_nat (length nodes)) (conf_int (env w) (node_key first "num_cvg")) = Ret a.
Proof.
  unfold calculate_allowed_failure. intros Hn E1.
  apply bind_Ret in E1 as (m & w1 & Em & E1). apply get_machine_id_same in Em as ->.
  rewrite (bind_unfold_Ret _ _ _ _ _ Hn) in E1.
  apply bind_Ret in E1 as (first & w1 & Ef & E1). unfold lift in Ef. injection Ef as Ef <-.
  apply bind_Ret in E1 as (cvg & w1 & [-> ->]%get_int_is & E1).
  unfold lift in E1. injection E1 as E1 <-. split; [done|].
  destruct nodes as [| x nodes]; [done|]. injection Ef as ->. by exists first, nodes.
Qed.

(** One turn of the loop. *)
Lemma pool_added h pools (w : W) pools' w' :
  (validate_pool h ;; add_pool h pools) w = (Ret pools', w') ->
  w' = w /\ exists p, pools' = pools ++ [p] /\ describes_pool w (ph_storage_ndx h) (ph_pool_type h) p.
Proof.
  intros E2. apply bind_Ret in E2 as (u & w1 & E1 & E2).
  pose proof (rc_run _ _ _ _ (rc_validate h) E1) as ->.
  apply bind_Ret in E1 as (lay & w1 & EL & E1). pose proof (rc_run _ _ _ _ (rc_layout h) EL) as ->.
  apply bind_Ret in E1 as (nm & w1 & EN & E1). pose proof (rc_run _ _ _ _ (rc_get _ _) EN) as ->.
  apply bind_Ret in E1 as (nodes & w1 & ED & E1). pose proof (rc_run _ _ _ _ (rc_service _) ED) as ->.
  apply bind_Ret in E1 as (count & w1 & EC & E1).
  apply (fold_count_conf _ (devices_in (env w) (ph_pool_type h))) in EC as [-> ->];
    [| intros x b v; apply get_devices_is].
  unfold add_pool in E2. rewrite (bind_unfold_Ret _ _ _ _ _ EL), (bind_unfold_Ret _ _ _ _ _ EN) in E2.
  apply bind_Ret in E2 as (a & w2 & EA & E2).
  destruct (allowed_failure_run _ _ _ _ _ ED EA) as (-> & first & rest & -> & Ha).
  rewrite (bind_unfold_Ret _ _ _ _ _ ED) in E2. apply bind_Ret in E2 as (refs & w2 & ER & E2).
  apply (fold_app_conf _ (fun node => refs_in (env w) (ph_pool_type h) [node])) in ER as [Hrefs ->];
    [| intros x b v; apply node_disk_refs_is].
  change ([] ++ ?l) with l in Hrefs. rewrite refs_in_bind in Hrefs. subst refs.
  apply bind_Ret in E2 as (ty & w3 & ET & E2). unfold lift in ET. injection ET as ET <-.
  injection E2 as <- <-. apply provider_get_conf in EN as [-> _].
  apply get_layout_is in EL as (Ld & Lp & Ls). split; [done|].
  eexists. split; [done|]. exists first, rest, (lay_spare lay). split_and!; try done; [| cbn -[allowed_of conf_int]; rewrite <- Ha; by destruct lay].
  rewrite refs_in_length. cbv zeta in E1.
  destruct (negb (_ =? 0) && (_ <? _)) eqn:Eb; [done|]. apply andb_false_iff in Eb as [Eb | Eb].
  - apply negb_false_iff, Z.eqb_eq in Eb. left. apply length_zero_iff_nil. rewrite refs_in_length. lia.
  - apply Z.ltb_ge in Eb. right. cbn [pd_data_units pd_parity_units]. lia.
Qed.

(** The pools in the order of the description. *)
Definition pool_order (n : Z) : list (Z * string) := i ← py_range n; [(i, "sns"); (i, "dix")].

Lemma pools_of_sets cid ns pools (w : W) pools' w' :
  fold_m (fun pools i => fold_m (fun pools pool_type => let handle := mkHandle cid pool_type i in
    validate_pool handle ;; add_pool handle pools) pools ["sns"; "dix"]) pools ns w = (Ret pools', w') ->
  exists l, pools' = pools ++ l
    /\ Forall2 (fun x p => describes_pool w x.1 x.2 p) (i ← ns; [(i, "sns"); (i, "dix")]) l.
Proof.
  revert pools. induction ns as [| i ns IH]; intros pools E1; cbn [fold_m] in E1.
  { injection E1 as <- _. exists []. rewrite app_nil_r. split; [done | constructor]. }
  apply bind_Ret in E1 as (l0 & w0 & E0 & E1). apply bind_Ret in E0 as (l1 & w1 & E2 & E0).
  apply pool_added in E2 as (-> & p & -> & Hp). apply bind_Ret in E0 as (l2 & w1 & E2 & E0).
  apply pool_added in E2 as (-> & q & -> & Hq). injection E0 as <- <-.
  destruct (IH _ E1) as (l & -> & Hl). exists (p :: q :: l). rewrite <- !app_assoc. split; [done|].
  cbn. constructor; [exact Hp|]. constructor; [exact Hq | exact Hl].
Qed.

(** C15: A generated description has, for each storage set in order, an SNS and a DIX pool;
    each of them carries the name, the layout and the disks the configuration gives
    for this set and this type, has at least N+K+S disks or none, and allows the
    failures computed from its own layout and the io nodes of the cluster. *)
Theorem pools_are_wide_enough (w : W) pools w' :
  create_pool_descriptions w = (Ret pools, w') ->
  exists n, int_of (conf_of (env w) "cluster>num_storage_set") = Ret n
    /\ Forall2 (fun x p => describes_pool w x.1 x.2 p) (pool_order n) pools.
Proof.
  unfold create_pool_descriptions, cdf_cluster_id. intros E1.
  apply bind_Ret in E1 as (cid & w1 & E2 & E1). pose proof (rc_run _ _ _ _ (rc_get _ _) E2) as ->.
  apply bind_Ret in E1 as (n & w1 & E3 & E1). pose proof (rc_run _ _ _ _ (rc_get_int _) E3) as ->.
  exists n. split; [by eapply get_int_conf|].
  by apply pools_of_sets in E1 as (l & -> & Hl).
Qed.
End Pools.

(** ** The order of the nodes *)
Section NodeOrder.
Context {E : Type} `{ConfLaws E} `{CortxConst}.
Notation W := (World E).

Lemma fold_m_conf_inv {A S} (I : S -> Prop) (f : S -> A -> M W S) s l (w : W) s' w' :
  (forall s a, reads_conf (f s a)) ->
  (forall s a s1 w1, I s -> f s a w = (Ret s1, w1) -> I s1) ->
  I s -> fold_m f s l w = (Ret s', w') -> I s'.
Proof.
  intros Hr Hf. revert s. induction l as [| x l IH]; intros s Hs E1; cbn in E1.
  - by injection E1 as <- _.
  - apply bind_Ret in E1 as (s1 & w1 & E2 & E1). pose proof (rc_run _ _ _ _ (Hr s x) E2) as ->.
    eauto.
Qed.

Lemma append_new_spec (l ms : list string) :
  NoDup ms -> NoDup (foldl append_new ms l)
  /\ (exists rest, foldl append_new ms l = ms ++ rest)
  /\ forall x, x ∈ foldl append_new ms l <-> x ∈ ms \/ x ∈ l.
Proof.
  revert ms. induction l as [| y l IH]; intros ms Hn; cbn.
  - split; [done|]. split; [exists []; by rewrite app_nil_r | set_solver].
  - unfold append_new at 2 4 6. case_bool_decide as Hy.
    + destruct (IH ms Hn) as (Q1 & Q2 & Q3). split; [done|]. split; [done|]. set_solver.
    + destruct (IH (ms ++ [y])) as (Q1 & [rest Q2] & Q3).
      { apply NoDup_app. split; [done|]. split; [set_solver | apply NoDup_singleton]. }
      split; [done|]. split; [| set_solver]. exists (y :: rest). by rewrite Q2, <- app_assoc.
Qed.

(** A machine returned for an attribute is a node of a storage set, listed once. *)
Lemma machine_ids_known (w : W) sets attr name l w' :
  describes_sets (env w) sets -> get_machine_ids_for_attribute attr name w = (Ret l, w') ->
  l `sublist_of` concat sets.
Proof.
  intros Hd E1. rewrite (machine_ids_ok w sets _ _ Hd) in E1. injection E1 as <- _.
  generalize (concat sets). intros ms. induction ms as [| m ms IH]; [done|]. rewrite filter_cons.
  case_decide; [by apply sublist_skip | by apply sublist_cons].
Qed.

Lemma service_ids_known (w : W) sets s l w' :
  describes_sets (env w) sets -> get_machine_ids_for_service s w = (Ret l, w') ->
  l `sublist_of` concat sets.
Proof.
  intros Hd. unfold get_machine_ids_for_service. case_match; by apply machine_ids_known.
Qed.

Lemma sublist_elem {A} (l k : list A) x : l `sublist_of` k -> x ∈ l -> x ∈ k.
Proof. intros Hs Hx. by eapply elem_of_submseteq, sublist_submseteq. Qed.

Lemma client_ids_known (w : W) sets l w' :
  describes_sets (env w) sets -> client_machine_ids w = (Ret l, w') ->
  Forall (fun x => x ∈ concat sets) l.
Proof.
  intros Hd E1. unfold client_machine_ids in E1. apply bind_Ret in E1 as (n & w1 & E2 & E1).
  pose proof (rc_run _ _ _ _ (rc_get_int _) E2) as ->. revert E1. apply fold_m_conf_inv; [| | done].
  - intros acc i. apply rc_bind; [apply rc_get_int|]. intros k. case_match; [| apply rc_ret].
    apply rc_bind; [apply rc_get|]. intros v. apply rc_bind; [apply rc_service|]. intros l1.
    apply rc_bind; [apply rc_component|]. intros l2. apply rc_ret.
  - intros acc i acc' w1 Hacc E1. apply bind_Ret in E1 as (k & w2 & E3 & E1).
    pose proof (rc_run _ _ _ _ (rc_get_int _) E3) as ->. destruct (0 <? k); [| by injection E1 as <- _].
    apply bind_Ret in E1 as (v & w2 & E4 & E1). pose proof (rc_run _ _ _ _ (rc_get _ _) E4) as ->.
    apply bind_Ret in E1 as (l1 & w2 & E5 & E1). pose proof (rc_run _ _ _ _ (rc_service _) E5) as ->.
    apply bind_Ret in E1 as (l2 & w2 & E6 & E1). injection E1 as <- _.
    apply service_ids_known with (sets := sets) in E5; [| done].
    apply machine_ids_known with (sets := sets) in E6; [| done].
    rewrite !Forall_app, !Forall_forall. split; [by apply Forall_forall|].
    split; intros x Hx; [by apply (sublist_elem l1) | by apply (sublist_elem l2)].
Qed.

(** Every node derives the same list of machines from the same configuration,
    whatever its own identity: the data nodes in the order of the storage sets,
    then the other client nodes; all belong to a storage set and none is listed
    twice. *)
Theorem nodes_are_listed_alike (w1 w2 : W) sets data l w' :
  describes_sets (env w1) sets -> NoDup (concat sets) -> same_conf w1 w2 ->
  get_machine_ids_for_service SERVICE_MOTR_IO w1 = (Ret data, w1) ->
  node_machine_ids w1 = (Ret l, w') ->
  node_machine_ids w2 = (Ret l, w2) /\ NoDup l /\ (exists rest, l = data ++ rest)
  /\ data `sublist_of` concat sets /\ Forall (fun x => x ∈ concat sets) l.
Proof.
  intros Hd Hn Hs Ed El. split.
  { destruct (rc_node_machines w1) as [_ Q1]. destruct (rc_node_machines w2) as [Q2 _].
    specialize (Q1 w2 Hs). rewrite El in Q1. destruct (node_machine_ids w2). cbn in Q1, Q2. by subst. }
  unfold node_machine_ids in El. apply bind_Ret in El as (data' & w3 & Ed' & El).
  rewrite Ed in Ed'. injection Ed' as <- <-. apply bind_Ret in El as (cl & w3 & Ec & El).
  injection El as <- _. pose proof (service_ids_known _ _ _ _ _ Hd Ed) as Hsub.
  pose proof (client_ids_known _ _ _ _ Hd Ec) as Hcl.
  destruct (append_new_spec cl data) as (Q1 & Q2 & Q3); [by eapply sublist_NoDup|].
  split; [done|]. split; [done|]. split; [done|]. apply Forall_forall. intros x Hx.
  apply Q3 in Hx as [Hx | Hx]; [by eapply sublist_elem|]. by rewrite Forall_forall in Hcl; apply Hcl.
Qed.
End NodeOrder.

(** ** Witnesses *)
Lemma demo_sets : describes_sets (demo_site demo_drives "m1") [["m1"; "m2"]].
Proof.
  split; [reflexivity|]. intros [| i] nodes; [| by destruct i]. intros [= <-]. split; [reflexivity|].
  intros [| [| j]] m; [intros [= <-]; reflexivity.. | by destruct j].
Qed.

Lemma pools_are_wide_enough_witness :
  exists p q, create_pool_descriptions (site_world demo_drives "m1")
      = (Ret [p; q], (create_pool_descriptions (site_world demo_drives "m1")).2)
    /\ describes_pool (site_world demo_drives "m1") 0 "sns" p
    /\ describes_pool (site_world demo_drives "m1") 0 "dix" q.
Proof.
  assert (Hrun : exists p q, create_pool_descriptions (site_world demo_drives "m1")
    = (Ret [p; q], (create_pool_descriptions (site_world demo_drives "m1")).2)).
  { eexists _, _. apply run_ret. vm_compute; reflexivity. }
  destruct Hrun as (p & q & Hrun). exists p, q. split; [exact Hrun|].
  destruct (pools_are_wide_enough _ _ _ Hrun) as (n & Hn & Hf). vm_compute in Hn. injection Hn as <-.
  apply Forall2_cons in Hf as [Hp Hf]. apply Forall2_cons in Hf as [Hq _]. split; [exact Hp | exact Hq].
Defined.

Lemma nodes_are_listed_alike_witness :
  exists l, node_machine_ids (site_world demo_drives "m2") = (Ret l, site_world demo_drives "m2")
    /\ NoDup l /\ (exists rest, l = ["m1"] ++ rest) /\ ["m1"] `sublist_of` ["m1"; "m2"]
    /\ Forall (fun x => x ∈ ["m1"; "m2"]) l.
Proof.
  eexists. eapply (nodes_are_listed_alike (site_world demo_drives "m1") (site_world demo_drives "m2")
    [["m1"; "m2"]] ["m1"]).
  - exact demo_sets.
  - vm_compute. by apply (bool_decide_unpack _).
  - by split.
  - vm_compute. reflexivity.
  - apply run_ret. vm_compute. reflexivity.
Defined.
