(* ===== verification/CdfTyped.v ===== *)
(** * The generated description is well typed

    [WellFormed] states what the generator relies on: the values of the
    configuration print as Dhall text and count nothing negative, and what the
    nodes saved in the KV are numbers where numbers are expected.  [keeps P m] is
    a Hoare triple: from a well-formed site [m] ends in one, and what it returns
    satisfies [P].  Composed along [cluster_desc], the triples show that the
    description fits the types of [gencdf.dhall]. *)

From S2P Require Import Prelude PyStr Json HaxTypes Message LinkedList Planner Delivery World.
From S2P Require Import Cache ConsulStore Consul PyFloat Dhall CdfTypes Exec ConfStore MpUtils Cdf.
From S2P Require Import Site.

Definition clean_text (j : json) : Prop := text_ok (py_str j).

Definition clean_value (v : json) : Prop :=
  clean_text v /\ (forall z, int_of v = Ret z -> 0 <= z)
  /\ forall l, json_iter v = Ret l -> Forall clean_text l.

(** An entry of the KV under [key]: node groups are texts, the fields of facts
    and drives are numbers. *)
Definition clean_item (key : string) (i : kvitem) : Prop :=
  (forall s, String.prefix "conf/" key = true -> Value i = Some s -> text_ok s)
  /\ forall j f x, loads_value (Value i) = Ret j -> jget f j = Ret x -> x <> JNull ->
       (f ∈ ["size"; "blksize"; "processorcount"] -> natural_ok x)
       /\ (f = "memorysize_mb" -> double_ok x).

Class WellFormed (E : Type) `{ConsulApi E} `{ConfApi E} `{!ConfLaws E} `{Others E} := {
  wf_site : E -> Prop;
  wf_conf e k : wf_site e -> clean_value (conf_of e k);
  wf_aux e : wf_site e -> conf_of e "cluster>create_aux" = JNull
             \/ truth_ok (conf_of e "cluster>create_aux");
  wf_kv_get k r e res e' : wf_site e -> consul_kv_get k r e = (res, e') ->
    wf_site e' /\ forall n i, res = Ret (n, KVItem i) -> clean_item k i;
  wf_others w : wf_site (env w) -> wf_site (env (others w));
}.

Lemma clean_first v x : clean_value v -> json_first v = Ret x -> clean_text x.
Proof.
  intros (_ & _ & Hi). destruct v as [| | | s | l | l]; try done; cbn in *.
  - destruct s as [| c s]; [done|]. intros [= <-]. specialize (Hi _ eq_refl). by inversion Hi.
  - destruct l as [| y l]; [done|]. intros [= <-]. specialize (Hi _ eq_refl). by inversion Hi.
Qed.

Section Keeps.
Context {E : Type} `{ConsulApi E} `{ConfApi E} `{!ConfLaws E} `{Others E} `{!WellFormed E}.
Context `{CortxConst} `{Fuel}.
Notation W := (World E).

Definition keeps {A} (P : A -> Prop) (m : M W A) : Prop :=
  forall w r w', wf_site (env w) -> m w = (r, w') ->
    wf_site (env w') /\ forall a, r = Ret a -> P a.

Lemma k_ret {A} (P : A -> Prop) a : P a -> keeps P (mret a).
Proof. intros Ha w r w' Hw [= <- <-]. split; [done|]. by intros ? [= <-]. Qed.
Lemma k_raise {A} (P : A -> Prop) e : keeps P (raise e).
Proof. by intros w r w' Hw [= <- <-]. Qed.
Lemma k_hang {A} (P : A -> Prop) : keeps P hang.
Proof. by intros w r w' Hw [= <- <-]. Qed.
Lemma k_lift {A} (P : A -> Prop) (o : outcome A) : (forall a, o = Ret a -> P a) -> keeps P (lift o).
Proof. intros Ho w r w' Hw [= <- <-]. done. Qed.

Lemma k_bind {A B} (P : A -> Prop) (Q : B -> Prop) (m : M W A) (k : A -> M W B) :
  keeps P m -> (forall a, P a -> keeps Q (k a)) -> keeps Q (m ≫= k).
Proof.
  intros Hm Hk w r w' Hw Er. unfold mbind, M_bind in Er. destruct (m w) as [r1 w1] eqn:E1.
  destruct (Hm _ _ _ Hw E1) as [Hw1 Hp]. destruct r1 as [a | e |].
  - by apply (Hk a (Hp a eq_refl) w1).
  - by injection Er as <- <-.
  - by injection Er as <- <-.
Qed.

Lemma k_weaken {A} (P Q : A -> Prop) (m : M W A) : (forall a, P a -> Q a) -> keeps P m -> keeps Q m.
Proof. intros Hpq Hm w r w' Hw Er. destruct (Hm _ _ _ Hw Er). split; [done|]. auto. Qed.

Lemma k_map {A B} (P : B -> Prop) (f : A -> M W B) l :
  (forall a, a ∈ l -> keeps P (f a)) -> keeps (Forall P) (map_m f l).
Proof.
  induction l as [| x l IH]; intros Hf; cbn; [by apply k_ret|].
  eapply k_bind; [apply Hf; set_solver|]. intros y Hy.
  eapply k_bind; [apply IH; set_solver|]. intros ys Hys. apply k_ret. by constructor.
Qed.

Lemma k_fold {A S} (P : S -> Prop) (f : S -> A -> M W S) s l :
  P s -> (forall s a, P s -> a ∈ l -> keeps P (f s a)) -> keeps P (fold_m f s l).
Proof.
  revert s. induction l as [| x l IH]; intros s Hs Hf; cbn; [by apply k_ret|].
  eapply k_bind; [apply Hf; set_solver|]. intros s1 Hs1. apply IH; [done|]. set_solver.
Qed.

Lemma k_get key an : keeps (fun v => clean_value v /\ (an = false -> v <> JNull)) (provider_get key an).
Proof.
  intros w r w' Hw. unfold provider_get, mbind, M_bind, on_env. rewrite law_conf_get, set_env_same.
  pose proof (wf_conf _ key Hw) as Hc.
  destruct (conf_of (env w) key) eqn:Ev, an; intros [= <- <-]; (split; [done|]);
    by intros ? [= <-].
Qed.

Lemma k_int key : keeps (fun z => 0 <= z) (get_int key).
Proof. eapply k_bind; [apply k_get|]. intros v [(_ & Hz & _) _]. by apply k_lift. Qed.

Lemma k_search p k v : keeps (fun _ => True) (search_val p k v).
Proof.
  intros w r w' Hw. unfold search_val, on_env. rewrite law_conf_search, set_env_same.
  by intros [= <- <-].
Qed.

Lemma k_machine_id : keeps (fun _ => True) get_machine_id.
Proof.
  intros w r w' Hw. unfold get_machine_id, mbind, M_bind, on_env. rewrite law_conf_machine, set_env_same.
  destruct (machine_of _); [case_match|]; by intros [= <- <-].
Qed.

Lemma k_kv_get k r an : keeps (fun d => forall i, d = KVItem i -> clean_item k i) (kv_get k r an None).
Proof.
  intros w res w' Hw. unfold kv_get, uses_consul_cache. cbn [cache_or_new].
  rewrite (bind_unfold_Ret _ _ w (next_cache w) (new_cache w).2) by done. rewrite bind_gets.
  replace (cache_get _ _ _ (new_cache w).2) with (@None json)
    by (unfold cache_get; cbn; by rewrite lookup_insert_eq).
  cbn [mbind option_bind]. change (wf_site (env (new_cache w).2)) in Hw.
  revert Hw. generalize (new_cache w).2. intros v Hv Er.
  unfold kv_get_raw, assert, wrap_consul, catch, on_env, mbind, M_bind, mret, M_ret in Er.
  destruct (negb _); cbn in Er; [| by injection Er as <- <-].
  destruct (consul_kv_get k (default false r) (env v)) as [o e'] eqn:Eo.
  destruct (wf_kv_get _ _ _ _ _ Hv Eo) as [He Hi]. cbn in Er.
  destruct o as [[n d] | x |]; cbn in Er.
  - destruct d as [| i | l]; cbn in Er.
    + destruct an as [[]|]; cbn in Er; injection Er as <- <-; (split; [done | naive_solver]).
    + injection Er as <- <-. split; [done | naive_solver].
    + injection Er as <- <-. split; [done | naive_solver].
  - destruct (is_consul_error x); by injection Er as <- <-.
  - by injection Er as <- <-.
Qed.

Lemma k_sleep : keeps (fun _ => True) (sleep : M W unit).
Proof. intros w r w' Hw [= <- <-]. split; [by apply wf_others | done]. Qed.

Lemma k_repeat {A} (P : A -> Prop) mx (m : M W A) : keeps P m -> keeps P (repeat_if_fails mx m).
Proof.
  intros Hm. unfold repeat_if_fails. generalize 0. generalize (fuel : nat).
  intros n. induction n as [| n IH]; intros c; cbn; [apply k_hang|]. intros w r w' Hw Er.
  destruct (m w) as [o w1] eqn:E1. destruct (Hm _ _ _ Hw E1) as [Hw1 Hp].
  destruct o as [a | e |]; [by injection Er as <- <- | | by injection Er as <- <-].
  destruct e; try (by injection Er as <- <-).
  destruct (stopping w1); [by injection Er as <- <-|]. destruct (_ && _); [by injection Er as <- <-|].
  refine (k_bind (fun _ => True) P _ _ k_sleep _ w1 r w' Hw1 Er). intros _ _. apply IH.
Qed.

(** What [read_loop] returns is [None] or the value of a clean entry. *)
Definition clean_loaded (key : string) (j : json) : Prop :=
  j = JNull \/ exists i, clean_item key i /\ loads_value (Value i) = Ret j.

Lemma k_read_loop n key d val :
  clean_loaded key val -> keeps (clean_loaded key) (read_loop n key d val).
Proof.
  revert d val. induction n as [| n IH]; intros d val Hv; cbn [read_loop];
    (destruct (kv_truthy d); [by apply k_ret|]); [apply k_hang|].
  intros w r w' Hw Er. destruct (kv_get key None None None w) as [o w1] eqn:E1.
  destruct (k_kv_get key None None _ _ _ Hw E1) as [Hw1 Hp].
  assert (Hsl : forall d', keeps (clean_loaded key) (sleep ;; read_loop n key d' val)).
  { intros d'. eapply k_bind; [apply k_sleep|]. intros _ _. by apply IH. }
  destruct o as [x | e |].
  - destruct (i ← item_of x; loads_value (Value i)) as [v | e |] eqn:El.
    + refine (IH x v _ w1 r w' Hw1 Er). right. destruct x as [| i | l]; try done.
      exists i. split; [by apply (Hp _ eq_refl) | done].
    + destruct e; try (by injection Er as <- <-). by apply (Hsl x w1).
    + by injection Er as <- <-.
  - destruct e; try (by injection Er as <- <-). by apply (Hsl d w1).
  - by injection Er as <- <-.
Qed.
End Keeps.

(** ** The parts of the description *)
Section Parts.
Context {E : Type} `{ConsulApi E} `{ConfApi E} `{!ConfLaws E} `{Others E} `{!WellFormed E}.
Context `{CortxConst} `{Fuel}.
Notation W := (World E).

(** Steps through a bind with a known triple for its first part. *)
Tactic Notation "step" uconstr(lem) "as" simple_intropattern(x) simple_intropattern(p) :=
  eapply k_bind; [eapply lem | intros x p].

Lemma k_true {A} (P : A -> Prop) (m : M W A) : keeps P m -> keeps (fun _ => True) m.
Proof. by apply k_weaken. Qed.
Lemma k_text key : keeps clean_text (provider_get key false).
Proof. eapply k_weaken; [| apply k_get]. by intros v [[] _]. Qed.

Lemma k_attribute a n : keeps (Forall text_ok) (get_machine_ids_for_attribute a n).
Proof.
  unfold get_machine_ids_for_attribute.
  eapply (k_bind (Forall clean_text)).
  { unfold all_machines. step k_int as num _. apply k_fold; [done|]. intros ms i Hms _.
    eapply (k_bind (Forall clean_text)).
    - unfold set_machines. step k_int as k _. apply k_map. intros j _. apply k_text.
    - intros l Hl. apply k_ret. by apply Forall_app. }
  intros ms Hms. step k_search as values _. apply k_fold; [done|]. intros nodes m Hn Hm.
  unfold keep_machine. eapply (k_bind (fun _ => True)).
  - eapply k_true, k_map. intros v _. by apply (k_lift (fun _ => True)).
  - intros res _. case_match; apply k_ret; [| done]. apply Forall_app. split; [done|].
    constructor; [| done]. rewrite Forall_forall in Hms. by apply Hms.
Qed.

Lemma k_service s : keeps (Forall text_ok) (get_machine_ids_for_service s).
Proof. unfold get_machine_ids_for_service. case_match; apply k_attribute. Qed.

Lemma k_hostname m : keeps clean_text (get_hostname m).
Proof.
  unfold get_hostname. step k_get as h [[Hh _] _]. case_match; [by apply k_ret | apply k_text].
Qed.

Lemma k_node_list : keeps (Forall text_ok) node_machine_ids.
Proof.
  unfold node_machine_ids. step k_service as ms Hms. eapply (k_bind (Forall text_ok)).
  - unfold client_machine_ids. step k_int as n _. apply k_fold; [done|]. intros acc i Hacc _.
    step k_int as k _. case_match; [| by apply k_ret]. step k_text as v _.
    step k_service as l1 H1'. step k_attribute as l2 H2'. apply k_ret. by rewrite !Forall_app.
  - intros cl Hcl. apply k_ret. revert ms Hms. induction Hcl as [| x l Hx _ IH]; intros ms Hms; [done|].
    cbn. apply IH. unfold append_new. case_bool_decide; [done|].
    apply Forall_app. by repeat constructor.
Qed.

(** *** Drives *)
Lemma k_data_devices m c : keeps (dlist_ok "List Text" text_ok) (get_data_devices m c).
Proof.
  unfold get_data_devices. step k_int as n _. eapply (k_bind (Forall text_ok)).
  - apply k_map. intros i _. step k_text as v Hv. by apply k_ret.
  - intros l Hl. by apply k_ret.
Qed.

Lemma k_log_devices m c : keeps (dlist_ok "List Text" text_ok) (get_log_devices m c).
Proof.
  unfold get_log_devices. step k_get as v [(_ & _ & Hv) _]. eapply (k_bind (Forall clean_text)).
  - case_match; [by apply k_lift | by apply k_ret].
  - intros l Hl. apply k_ret. split; [done|]. by apply Forall_fmap.
Qed.

Lemma json_null (x : json) : x = JNull \/ x <> JNull.
Proof. destruct x; auto. Qed.

(** A number field of a loaded value. *)
Lemma loaded_natural key j f x :
  clean_loaded key j -> jget f j = Ret x -> f ∈ ["size"; "blksize"; "processorcount"] ->
  x = JNull \/ natural_ok x.
Proof.
  intros [-> | (i & [_ Hc] & Hl)] Hx Hf; [done|]. destruct (json_null x); [by left | right].
  by eapply (Hc j f x).
Qed.
Lemma loaded_double key j x :
  clean_loaded key j -> jget "memorysize_mb" j = Ret x -> x = JNull \/ double_ok x.
Proof.
  intros [-> | (i & [_ Hc] & Hl)] Hx; [done|]. destruct (json_null x); [by left | right].
  by eapply (Hc j _ x).
Qed.

Lemma maybe_json_ok P c x : x = JNull \/ P x -> maybe_ok c P (maybe_json x c).
Proof.
  intros Hx. split; [done|]. intros a. destruct Hx as [-> | Hx]; [done|].
  unfold maybe_json. cbn. destruct x; [done | ..]; by intros [= <-].
Qed.

Lemma k_drive_info path m : text_ok path -> keeps disk_ok (get_drive_info_from_consul path m).
Proof.
  intros Hp. apply k_repeat. step k_hostname as h _.
  eapply (k_bind (fun _ => True)); [by apply k_lift|]. intros dp _.
  eapply k_bind; [apply k_read_loop; by left|]. intros j Hj.
  eapply (k_bind (fun x => x = JNull \/ natural_ok x)).
  { apply k_lift. intros x Hx. eapply loaded_natural; [done | done | set_solver]. }
  intros size Hs. eapply (k_bind (fun x => x = JNull \/ natural_ok x)).
  { apply k_lift. intros x Hx. eapply loaded_natural; [done | done | set_solver]. }
  intros bs Hb. apply k_ret. split; [split; [done|]; by intros ? [= <-]|].
  split; by apply maybe_json_ok.
Qed.

Lemma k_drives (devs : M W (DList string)) m :
  keeps (dlist_ok "List Text" text_ok) devs ->
  keeps (dlist_ok "List Disk" disk_ok)
    (data_devs ← devs;
     l ← map_m (fun p => get_drive_info_from_consul p m) (d_value data_devs);
     mret (mkDList l "List Disk")).
Proof.
  intros Hd. eapply k_bind; [exact Hd|]. intros ds [_ Hds]. eapply (k_bind (Forall disk_ok)).
  - apply k_map. intros p Hp. apply k_drive_info. rewrite Forall_forall in Hds. by apply Hds.
  - intros l Hl. by apply k_ret.
Qed.

Lemma k_servers m : keeps (dlist_ok "List M0ServerDesc" server_ok) (node_servers m).
Proof.
  unfold node_servers. step k_int as n _. eapply (k_bind (Forall server_ok)).
  - apply k_fold; [done|]. intros acc cvg Hacc _. eapply (k_bind (Forall server_ok)).
    + apply k_map. intros _ _. unfold io_server.
      eapply k_bind; [apply k_drives, k_data_devices|]. intros data Hd.
      eapply (k_bind text_ok).
      { unfold get_metadata_device. step k_text as v Hv. by apply k_ret. }
      intros meta Hm. eapply k_bind; [apply k_drives, k_log_devices|]. intros log Hl.
      apply k_ret. split; [done|]. split; [split; [done|]; by intros ? [= <-] | done].
    + intros s Hs. apply k_ret. by apply Forall_app.
  - intros l Hl. apply k_ret. split; [done|]. apply Forall_app. split; [done|]. by repeat constructor.
Qed.
(** *** Ports *)
Lemma url_port_range u p : url_port u = Ret p -> forall z, p = Some z -> 0 <= z.
Proof.
  unfold url_port. case_match; [by intros [= <-]|]. cbn. destruct (py_int 10 _) as [k | |]; [| done | done].
  cbn. destruct (_ && _) eqn:Eb; [| done]. apply andb_prop in Eb as [Eb _]. apply Z.leb_le in Eb.
  by intros [= <-] z [= <-].
Qed.

Definition port_ok (p : option Z) : Prop := forall z, p = Some z -> 0 <= z.

Lemma k_url_port u : keeps port_ok (lift (url_port u) : M W (option Z)).
Proof. apply k_lift. intros p Hp. exact (url_port_range u p Hp). Qed.
Lemma k_parse_url v : keeps (fun _ => True) (lift (parse_url v) : M W Url).
Proof. by apply k_lift. Qed.
Lemma k_int_port p : port_ok p -> keeps (fun z => 0 <= z) (lift (int_port p) : M W Z).
Proof. intros Hp. apply k_lift. destruct p as [z |]; [| done]. intros ? [= <-]. by apply Hp. Qed.

Lemma k_hax_ports h : keeps (fun p => port_ok p.1 /\ port_ok p.2) (hax_ports h).
Proof.
  unfold hax_ports. step k_int as n _. apply k_fold; [done|]. intros [hax http] i [Hh Ht] _.
  step k_text as url _. step k_parse_url as u _.
  case_match; [| case_match; [| by apply k_ret]]; step k_url_port as p Hp; by apply k_ret.
Qed.

Lemma k_server_port h s : text_ok s -> keeps server_port_ok (server_port_of h s).
Proof.
  intros Hs. unfold server_port_of. step k_int as n _. eapply (k_bind port_ok).
  - apply k_fold; [by intros z [= <-]|]. intros p i Hp _. step k_text as url _.
    step k_parse_url as u _. case_match; [apply k_url_port | by apply k_ret].
  - intros p Hp. eapply k_bind; [by apply k_int_port|]. intros z Hz. by apply k_ret.
Qed.

Lemma k_client_ports h i : keeps (Forall client_port_ok) (client_ports h i).
Proof.
  unfold client_ports. step k_get as ne [(_ & Hz & _) _]. case_match; [| by apply k_ret].
  eapply (k_bind (fun _ => True)); [by apply k_lift|]. intros n _. apply k_fold; [done|].
  intros ports j Hports _. step k_text as url _. step k_parse_url as u _.
  case_match; [| by apply k_ret]. step k_url_port as port Hport. step k_text as nm Hnm.
  eapply k_bind; [by apply k_int_port|]. intros p Hp. apply k_ret. apply Forall_app. by repeat constructor.
Qed.

Lemma k_ports h : keeps ports_ok (create_ports_descriptions h).
Proof.
  unfold create_ports_descriptions. step k_hax_ports as [hax http] [Hh Ht].
  eapply (k_bind (Forall server_port_ok)).
  { apply k_map. intros s Hs. apply k_server_port.
    by apply elem_of_cons in Hs as [-> | ->%list_elem_of_singleton]. }
  intros sp Hsp. step k_int as n _. eapply (k_bind (Forall client_port_ok)).
  { apply k_fold; [done|]. intros acc i Hacc _. step k_client_ports as l Hl. apply k_ret.
    by apply Forall_app. }
  intros cp Hcp. apply k_ret. split_and!; (split; [done|]); try done; by intros ? [= <-].
Qed.

(** *** Clients, groups and interfaces *)
Lemma k_component m n : keeps (fun _ => True) (is_component m n).
Proof.
  unfold is_component. step k_int as k _. apply k_fold; [done|]. intros f i _ _.
  case_match; [by apply k_ret|]. step k_text as v _. by apply k_ret.
Qed.
Lemma k_is_service m n : keeps (fun _ => True) (is_service m n).
Proof.
  unfold is_service. step k_int as k _. apply k_fold; [done|]. intros f i _ _.
  step k_get as v _. case_match; [| by apply k_ret]. eapply (k_bind (fun _ => True)); [by apply k_lift|].
  intros z _. eapply (k_bind (fun _ => True)); [| intros hit _; by apply k_ret].
  unfold service_loop. apply k_fold; [done|]. intros hit j _ _. case_match; [by apply k_ret|].
  step k_text as s _. by apply k_ret.
Qed.

Lemma k_clients m : keeps (Forall client_ok) (get_node_clients m).
Proof.
  unfold get_node_clients. step k_int as n _. apply k_fold; [done|]. intros acc i Hacc _.
  step k_int as k Hk. case_match; [| by apply k_ret]. step k_text as v Hv.
  eapply (k_bind (fun _ => True)).
  - unfold is_component_or_service. step k_component as c _. case_match; [by apply k_ret | apply k_is_service].
  - intros here _. apply k_ret. case_match; [| done]. apply Forall_app. by repeat constructor.
Qed.

Lemma k_node_group m an :
  keeps (fun g => forall s, g = Some s -> text_ok s) (get_node_group m an).
Proof.
  apply k_repeat. eapply k_bind; [apply k_kv_get|]. intros d Hd. case_match; [| by apply k_ret].
  destruct d as [| i | l].
  - eapply (k_bind (fun _ => False)); [by apply k_lift | by intros ? []].
  - eapply (k_bind (fun x => x = i)); [apply k_lift; by intros ? [= <-]|]. intros ? ->.
    destruct (Hd i eq_refl) as [Ht _]. eapply (k_bind text_ok).
    + apply k_lift. intros s. unfold decode_value. destruct (Value i); [| done].
      intros [= <-]. by apply Ht.
    + intros s Hs. apply k_ret. by intros ? [= <-].
  - eapply (k_bind (fun _ => False)); [by apply k_lift | by intros ? []].
Qed.

Lemma k_facts : keeps (fun j => exists key, clean_loaded key j) get_node_facts.
Proof.
  apply k_repeat. unfold get_local_hostname. eapply (k_bind clean_text).
  - step k_machine_id as me _. apply k_hostname.
  - intros h _. eapply k_weaken; [| apply k_read_loop; by left]. intros j Hj. by eexists.
Qed.

Lemma k_iface_type m : keeps (fun _ => True) (get_iface_type m).
Proof.
  unfold get_iface_type. step k_int as n _. step k_hostname as h _. eapply (k_bind (fun _ => True)).
  - apply k_fold; [done|]. intros p i _ _. case_match; [by apply k_ret|]. step k_text as e _.
    by apply k_lift.
  - intros p _. case_match; [| by apply k_ret]. eapply (k_bind (fun _ => True)); [by apply k_lift|].
    intros x _. by apply k_ret.
Qed.

Lemma k_node m sup : text_ok m -> keeps node_ok (create_node m sup).
Proof.
  intros Hm. unfold create_node. step k_hostname as h Hh. eapply (k_bind clean_text).
  { unfold get_iface. step k_get as v [Hv _]. case_match; [| by apply k_ret].
    apply k_lift. intros x. by apply clean_first. }
  intros iface Hi. eapply (k_bind (fun _ => True)).
  { unfold is_motr_io_present, is_component_and_service. step k_component as c _.
    case_match; [apply k_is_service | by apply k_ret]. }
  intros io _. eapply (k_bind (fun p => (forall s, p.1 = Some s -> text_ok s)
    /\ forall s, p.2 = Some s -> dlist_ok "List M0ServerDesc" server_ok s)).
  { case_match; [| by apply k_ret]. eapply (k_bind (fun g => forall s, g = Some s -> text_ok s)).
    - case_match; [apply k_node_group | by apply k_ret].
    - intros g Hg. step k_servers as s Hs. apply k_ret. split; [done|]. by intros ? [= <-]. }
  intros [g servers] [Hg Hs]. cbn in Hg, Hs. step k_clients as cl Hcl. step k_facts as j [key Hj].
  step k_ports as np Hnp.
  eapply k_bind; [apply k_lift; intros x Hx; eapply (loaded_natural key j _ x Hj Hx); set_solver|].
  intros pc Hpc. eapply k_bind; [apply k_lift; intros x; apply (loaded_double key j x Hj)|].
  intros mem Hmem. step k_iface_type as it _. eapply (k_bind clean_text).
  { unfold get_transport_type. step k_get as t [[Ht _] _]. case_match; by apply k_ret. }
  intros tr Htr. apply k_ret. unfold node_ok. cbn. split_and!; try done; try (by apply maybe_json_ok);
    (split; [done|]); intros a Ha; cbn in Ha; try done; try (by injection Ha as <-).
  - injection Ha as <-. destruct g as [s |]; [by apply Hg | done].
  - destruct cl as [| c cl]; [done|]. by injection Ha as <-.
Qed.
(** *** Pools *)
Lemma round_even_nonneg a b : 0 <= a -> 0 < b -> 0 <= round_even a b.
Proof.
  intros Ha Hb. unfold round_even. pose proof (Z.div_pos a b Ha Hb). repeat case_match; lia.
Qed.

Lemma truediv_nonneg a b f : 0 <= a -> 0 <= b -> py_truediv a b = Ret f -> 0 <= fm f.
Proof.
  intros Ha Hb. unfold py_truediv. case_match; [done|]. case_match; [by intros [= <-]|].
  case_match; [done|]. intros [= <-]. cbn [fm].
  apply Z.eqb_neq in H4, H5. rewrite !Z.sgn_pos, Z.mul_1_l by lia.
  unfold fdiv_pos. cbn [fm]. apply round_even_nonneg; [| pose proof (pow2_pos (Z.max (flog2 (Z.abs a) (Z.abs b) - 52) (-1074))); nia].
  pose proof (pow2_pos (- Z.max (flog2 (Z.abs a) (Z.abs b) - 52) (-1074))). nia.
Qed.

Lemma floor_nonneg f : 0 <= fm f -> 0 <= py_floor f.
Proof.
  intros Hf. unfold py_floor. case_match.
  - pose proof (Z.pow_nonneg 2 (fe f)). nia.
  - apply Z.div_pos; [done|]. apply Z.leb_gt in H4. apply Z.pow_pos_nonneg; lia.
Qed.
Lemma ceil_nonneg f : 0 <= fm f -> 0 <= py_ceil f.
Proof.
  intros Hf. unfold py_ceil. case_match.
  - pose proof (Z.pow_nonneg 2 (fe f)). nia.
  - apply Z.leb_gt in H4. pose proof (Z.pow_pos_nonneg 2 (- fe f) ltac:(lia) ltac:(lia)).
    pose proof (Z.div_le_mono (- fm f) 0 (2 ^ (- fe f)) ltac:(lia) ltac:(lia)) as Hd.
    rewrite Z.div_0_l in Hd by lia. lia.
Qed.

Definition layout_ok (l : Layout) : Prop := 0 <= lay_data l /\ 0 <= lay_parity l /\ 0 <= lay_spare l.

Lemma allowed_of_ok l n c a :
  layout_ok l -> 0 <= n -> 0 <= c -> allowed_of l n c = Ret a -> allowed_ok a.
Proof.
  intros (Hd & Hp & Hs) Hn Hc. unfold allowed_of. case_match; [done|].
  destruct (py_truediv (_ + _ + _) n) as [f | |] eqn:Ef; cbn; [| done | done].
  destruct (py_truediv (lay_parity l) _) as [g | |] eqn:Eg; cbn; [| done | done].
  pose proof (truediv_nonneg (lay_data l + lay_parity l + lay_spare l) n f ltac:(lia) Hn Ef) as Hf%ceil_nonneg.
  pose proof (truediv_nonneg _ _ _ Hp Hf Eg) as Hg%floor_nonneg.
  intros [= <-]. unfold allowed_ok, nat_ok. cbn. split_and!; try done.
  apply Z.min_glb; [by apply Z.mul_nonneg_nonneg | done].
Qed.

Lemma k_layout p : keeps layout_ok (get_layout p).
Proof.
  unfold get_layout, get_pool_property. step k_int as d Hd. step k_int as s Hs. step k_int as q Hq.
  by apply k_ret.
Qed.

Lemma k_devices p n : keeps (Forall clean_text) (get_devices p n).
Proof.
  unfold get_devices. step k_int as c _. apply k_fold; [done|]. intros devs i Hdevs _.
  eapply (k_bind (Forall clean_text)).
  - unfold cvg_devices. step k_int as k _. apply k_map. intros j _. apply k_text.
  - intros l Hl. apply k_ret. by apply Forall_app.
Qed.

Lemma k_validate p : keeps (fun _ => True) (validate_pool p).
Proof.
  unfold validate_pool. step k_layout as l _. step k_text as nm _. step k_service as nodes _.
  eapply (k_bind (fun _ => True)).
  - apply k_fold; [done|]. intros c node _ _. step k_devices as d _. by apply k_ret.
  - intros c _. case_match; [apply k_raise | by apply k_ret].
Qed.

Lemma text_ok_app a b : text_ok a -> text_ok b -> text_ok (a +:+ b).
Proof.
  unfold text_ok, chars. intros Ha Hb. by rewrite list_ascii_of_string_app, forallb_app, Ha, Hb.
Qed.

Lemma k_add_pool p out : text_ok (ph_pool_type p) -> Forall pool_ok out -> keeps (Forall pool_ok) (add_pool p out).
Proof.
  intros Ht Hout. unfold add_pool. step k_layout as l Hl. step k_text as nm Hnm.
  eapply (k_bind allowed_ok).
  { unfold calculate_allowed_failure. step k_machine_id as me _. step k_service as nodes _.
    eapply (k_bind (fun _ => True)); [by apply k_lift|]. intros m _. step k_int as c Hc.
    apply k_lift. intros a. apply allowed_of_ok; [done | lia | done]. }
  intros a Ha. step k_service as nodes _. eapply (k_bind (Forall disk_ref_ok)).
  { apply k_fold; [done|]. intros acc node Hacc _. eapply (k_bind (Forall disk_ref_ok)).
    - unfold node_disk_refs. step k_devices as ds Hds. apply k_map. intros d Hd.
      step k_hostname as h Hh. apply k_ret. split; [| split; [done|]; by intros ? [= <-]].
      rewrite Forall_forall in Hds. by apply Hds.
    - intros r Hr. apply k_ret. by apply Forall_app. }
  intros refs Hrefs. eapply (k_bind (fun _ => True)); [by apply k_lift|]. intros ty _.
  apply k_ret. apply Forall_app. split; [done|]. constructor; [| done]. destruct Hl as (? & ? & ?).
  split_and!; cbn; try done; [by repeat apply text_ok_app | ..];
    (split; [done|]); intros ? [= <-]; done.
Qed.

Lemma k_pools : keeps (Forall pool_ok) create_pool_descriptions.
Proof.
  unfold create_pool_descriptions, cdf_cluster_id. step k_text as cid _. step k_int as n _.
  apply k_fold; [done|]. intros pools i Hp _. apply k_fold; [done|]. intros pools1 t Hp1 Ht.
  step k_validate as u _. apply k_add_pool; [| done].
  by apply elem_of_cons in Ht as [-> | ->%list_elem_of_singleton].
Qed.

Lemma k_nodes : keeps (Forall node_ok) create_node_descriptions.
Proof.
  unfold create_node_descriptions. step k_node_list as ms Hms. step k_machine_id as me _.
  step k_node_group as g _. apply k_map. intros m Hm. apply k_node.
  rewrite Forall_forall in Hms. by apply Hms.
Qed.

Lemma k_aux : keeps (fun v => v = JNull \/ truth_ok v) (provider_get "cluster>create_aux" true).
Proof.
  intros w r w' Hw. unfold provider_get, mbind, M_bind, on_env. rewrite law_conf_get, set_env_same.
  pose proof (wf_aux _ Hw) as Ha.
  destruct (conf_of (env w) _) eqn:Ev; intros [= <- <-]; (split; [done|]); by intros ? [= <-].
Qed.

Lemma k_cluster : keeps cluster_ok cluster_desc.
Proof.
  unfold cluster_desc. step k_nodes as nodes Hn. step k_pools as pools Hp.
  step k_aux as aux Haux. apply k_ret. unfold cluster_ok. cbn. split_and!; try done.
  - split; [done|]. intros a [= <-]. destruct Haux as [-> | [b ->]]; by eexists.
  - split; [done|]. constructor; [| done]. split; [done|]. split; [done|]. cbn.
    apply Forall_fmap. eapply Forall_impl; [exact Hp|]. by intros p (? & _).
Qed.
End Parts.

(** C14: From a well-formed site the generated parameters are a Dhall expression:
    the text reads back as the printed description and has the type
    [ClusterInfo] that [gencdf.dhall] declares for it. *)
Theorem generated_description_has_type {E : Type} `{ConsulApi E} `{ConfApi E} `{!ConfLaws E}
    `{Others E} `{!WellFormed E} `{CortxConst} `{Fuel} (w : World E) c w' :
  wf_site (env w) -> cluster_desc w = (Ret c, w') ->
  read_back (cluster_text c) = Some (ClusterDesc_str c)
  /\ check (ClusterDesc_str c) ClusterInfo_ty = true.
Proof.
  intros Hw Ec. destruct (k_cluster _ _ _ Hw Ec) as [_ Hc].
  destruct (typed_cluster c (Hc c eq_refl)) as [H1' H2']. split; [by apply parse_print | done].
Qed.

(** ** Witness *)

(** Boolean checks of the conditions on the configuration and on the KV. *)
Definition clean_valueb (v : json) : bool :=
  forallb text_char (chars (py_str v))
  && match int_of v with Ret z => 0 <=? z | _ => true end
  && match json_iter v with
     | Ret l => forallb (fun x => forallb text_char (chars (py_str x))) l
     | _ => true
     end.

Lemma clean_valueb_ok v : clean_valueb v = true -> clean_value v.
Proof.
  unfold clean_valueb. intros [[Ht Hi]%andb_prop Hl]%andb_prop. split; [done|]. split.
  - intros z Ez. rewrite Ez in Hi. by apply Z.leb_le.
  - intros l El. rewrite El in Hl. apply Forall_forall. intros x Hx.
    apply list_elem_of_In in Hx. by apply (proj1 (forallb_forall _ _) Hl).
Qed.

Definition clean_field (f : string) (x : json) : bool :=
  match x with
  | JNull => true
  | _ => if bool_decide (f ∈ ["size"; "blksize"; "processorcount"]) then is_natural (py_str x)
         else if String.eqb f "memorysize_mb" then is_double (py_str x) else true
  end.

Definition clean_itemb (i : kvitem) : bool :=
  negb (String.prefix "conf/" (Key i))
  && match loads_value (Value i) with
     | Ret (JObj l) => forallb (fun '(f, x) => clean_field f x) l
     | _ => true
     end.

Lemma clean_itemb_ok i : clean_itemb i = true -> clean_item (Key i) i.
Proof.
  unfold clean_itemb. intros [Hp Hl]%andb_prop. split.
  - intros s Hk. rewrite Hk in Hp. done.
  - intros j f x Ej Ef Hx. rewrite Ej in Hl. destruct j as [| | | | | l]; try done. cbn in Ef.
    destruct (dict_find f l) as [y |] eqn:Ed; [| done]. injection Ef as ->.
    apply dict_find_elem, list_elem_of_In in Ed.
    pose proof (proj1 (forallb_forall _ _) Hl _ Ed) as Hc. cbn in Hc. unfold clean_field in Hc.
    destruct x; [done | ..]; (split; [intros Hf; by rewrite bool_decide_true in Hc | intros ->; by cbn in Hc]).
Qed.

Definition demo_env (e : site) : Prop := e = demo_site demo_drives "m1".

Lemma demo_conf_clean k : clean_value (site_get (demo_site demo_drives "m1") k).
Proof.
  apply clean_valueb_ok. unfold site_get. cbn [st_conf demo_site].
  destruct (dict_find k demo_conf) as [v |] eqn:Ek; [| reflexivity].
  apply dict_find_elem, list_elem_of_In in Ek.
  assert (Hall : forallb (fun x => clean_valueb x.2) demo_conf = true) by (vm_compute; reflexivity).
  exact (proj1 (forallb_forall _ _) Hall _ Ek).
Qed.

Lemma demo_kv_clean k i :
  store_get k (store_of demo_drives) = Some i -> clean_item k i.
Proof.
  assert (Hall : forallb (fun x => clean_itemb x.2 && String.eqb x.1 (Key x.2))
    (map_to_list (entries (store_of demo_drives))) = true) by (vm_compute; reflexivity).
  intros Hi. unfold store_get in Hi. apply elem_of_map_to_list, list_elem_of_In in Hi.
  pose proof (proj1 (forallb_forall _ _) Hall _ Hi) as [Hc Hk]%andb_prop. cbn in Hc, Hk.
  apply String.eqb_eq in Hk as ->. by apply clean_itemb_ok.
Qed.

#[local] Instance demo_wf : WellFormed site.
Proof.
  refine {| wf_site := demo_env |}.
  - intros e k ->. apply demo_conf_clean.
  - intros e ->. by left.
  - intros k r e res e' -> [= <- <-]. split; [done|]. intros n i. unfold store_read. cbn.
    destruct r; [by destruct (store_list _ _)|].
    destruct (store_get k _) eqn:Ek; [| done]. intros [= _ <-]. by apply demo_kv_clean.
  - by intros w Hw.
Defined.

Lemma generated_description_has_type_witness :
  exists c, read_back (cluster_text c) = Some (ClusterDesc_str c)
    /\ check (ClusterDesc_str c) ClusterInfo_ty = true /\ length (d_value (node_info c)) = 2%nat.
Proof.
  pose (f := 10%nat : Fuel).
  assert (Hrun : exists c, cluster_desc (site_world demo_drives "m1")
    = (Ret c, (cluster_desc (site_world demo_drives "m1")).2) /\ length (d_value (node_info c)) = 2%nat).
  { eexists. split; [apply run_ret; vm_compute; reflexivity | reflexivity]. }
  destruct Hrun as (c & Hrun & Hlen).
  assert (Hw : wf_site (WellFormed := demo_wf) (env (site_world demo_drives "m1"))) by reflexivity.
  destruct (generated_description_has_type (site_world demo_drives "m1") c _ Hw Hrun) as [Hr Hc].
  exists c. split; [exact Hr|]. split; [exact Hc | exact Hlen].
Defined.
