(* ===== verification/MpProps.v ===== *)
(** * Properties of the provisioner's utilities

    What a node saves about its drives is what every node reads; the retry loops
    of the readers, and the import of the configuration into the KV. *)

From S2P Require Import Prelude PyStr Json HaxTypes Message LinkedList Planner Delivery World.
From S2P Require Import Cache ConsulStore Consul PyFloat Dhall CdfTypes Exec ConfStore MpUtils Cdf.
From S2P Require Import Site CdfProps.

(** ** Strings *)

(** Characters JSON does not escape. *)
Definition plain (s : string) : Prop := Forall (fun c => esc_char c = [c]) (chars s).

Lemma plain_chars s : plain s -> list_ascii_of_string s ≫= esc_char = list_ascii_of_string s.
Proof.
  unfold plain, chars. generalize (list_ascii_of_string s). clear.
  induction 1 as [| c l Hc _ IH]; [done|]. cbn. by rewrite Hc, IH.
Qed.

(** [json.loads(str(Text(s)))] gives [s] back. *)
Lemma loads_text s : plain s -> loads (String quote s +:+ String quote "") = Ret (JStr s).
Proof.
  intros Hs. rewrite <- (loads_dumps_wf (JStr s)) by constructor. f_equal.
  unfold dumps. cbn [dump]. unfold str_chars. rewrite plain_chars by done.
  change (String quote s +:+ String quote "") with (String quote (s +:+ String quote "")).
  cbn [string_of_list_ascii]. f_equal.
  rewrite <- (string_of_list_ascii_of_string (s +:+ String quote "")).
  f_equal. apply list_ascii_of_string_app.
Qed.

Lemma lstrip_l_app c l x : x <> c -> lstrip_l c (l ++ [x]) = lstrip_l c l ++ [x] \/ lstrip_l c (l ++ [x]) = [x].
Proof.
  intros Hx. induction l as [| a l IH]; cbn.
  - destruct (Ascii.eqb_spec x c); [done | by left].
  - destruct (Ascii.eqb_spec a c); [exact IH | by left].
Qed.

(** Without a slash at the end, [strip] and [lstrip] agree. *)
Lemma strip_lstrip c s l x : chars s = l ++ [x] -> x <> c -> strip_c c s = lstrip c s.
Proof.
  intros Es Hx. unfold strip_c, lstrip. rewrite Es. f_equal.
  assert (Hr : forall k, rev (lstrip_l c (rev (k ++ [x]))) = k ++ [x]).
  { intros k. rewrite rev_app_distr. cbn. destruct (Ascii.eqb_spec x c); [done|].
    cbn. by rewrite rev_involutive. }
  destruct (lstrip_l_app c l x Hx) as [-> | ->]; [apply Hr | apply (Hr [])].
Qed.

Section Drives.
Context {E : Type} `{ConsulApi E} `{!ConsulLaws E} `{ConfApi E} `{!ConfLaws E} `{Host E}.
Context `{CortxConst} `{Others E} `{Fuel}.
Notation W := (World E).

(** The configuration is not in the part of the KV the utilities write. *)
Hypothesis conf_set_view : forall s e k, conf_of (set_view s e) k = conf_of e k.
Hypothesis found_set_view : forall s e p k v, found_of (set_view s e) p k v = found_of e p k v.

Lemma hostname_stable m (w w2 : W) h :
  get_hostname m w = (Ret h, w) -> same_conf w w2 -> get_hostname m w2 = (Ret h, w2).
Proof using Type.
  intros Eh Hs. destruct (rc_hostname m w) as [_ Q]. destruct (rc_hostname m w2) as [Q2 _].
  specialize (Q w2 Hs). rewrite Eh in Q. destruct (get_hostname m w2). cbn in Q, Q2. by subst.
Qed.

Lemma bind_Ret_same {A B} (m : M W A) (k : A -> M W B) w a r :
  m w = (Ret a, w) -> k a w = r -> (m ≫= k) w = r.
Proof using Type. intros Em <-. by apply bind_unfold_Ret. Qed.

(** A stored entry is parsed at the first attempt. *)
Lemma read_loop_ok n key (w : W) i v :
  available (env w) = true -> key <> "" -> store_get key (view (env w)) = Some i ->
  loads_value (Value i) = Ret v ->
  exists w', read_loop (S n) key KVNone JNull w = (Ret v, w') /\ env w' = env w.
Proof using ConsulLaws0.
  intros Ha Hk Hi Hl. destruct (kv_get_miss key None None None w (KVItem i)) as (w1 & Eg & Ee);
    [done | done | | done |].
  { unfold kv_get_outcome, store_read. cbn. by rewrite Hi. }
  exists w1. split; [| done]. cbn [read_loop kv_truthy]. rewrite Eg. cbn [item_of mbind outcome_bind].
  rewrite Hl. by destruct n.
Qed.

Definition drive_json (path : string) (size bs : Z) : json :=
  JObj [("path", JStr path); ("size", JInt size); ("blksize", JInt bs)].

Lemma drive_json_loads path size bs : loads (dumps (drive_json path size bs)) = Ret (drive_json path size bs).
Proof using Type.
  apply loads_dumps_wf. constructor; [| by repeat constructor].
  by apply (bool_decide_unpack _).
Qed.

Definition drive_key (h path : string) : string := h +:+ "/drives/" +:+ path.

Lemma save_drive_info_ok path me h size bs (w : W) :
  available (env w) = true -> fuel <> 0%nat -> machine_of (env w) = Some me -> me <> "" ->
  get_hostname me w = (Ret (JStr h), w) ->
  device_size path (env w) = (Ret size, env w) -> device_blksize path (env w) = (Ret bs, env w) ->
  save_drive_info path w =
  (Ret true, set_env (set_view (bump (store_set (drive_key h (strip_c "/" path))
     (dumps (drive_json path size bs)) (view (env w)))) (env w)) w).
Proof using ConsulLaws0 ConfLaws0.
  intros Ha Hf Hme Hne Hh Hs Hb. apply repeat_if_fails_ret; [| done | done].
  eapply bind_Ret_same.
  { unfold get_drive_info_form_os. eapply bind_Ret_same; [by apply on_env_pure|].
    eapply bind_Ret_same; [by apply on_env_pure|]. reflexivity. }
  eapply bind_Ret_same.
  { unfold get_local_hostname, get_machine_id. eapply bind_Ret_same; [| exact Hh].
    eapply bind_Ret_same; [apply on_env_pure; by rewrite law_conf_machine, Hme|].
    cbn. destruct (String.eqb_spec me ""); done. }
  do 3 (eapply bind_Ret_same; [reflexivity|]). cbv zeta. cbn [py_str].
  rewrite kv_put_ok; [| done | by destruct h].
  reflexivity.
Qed.

(** What [_save_drive_info] stores for a device of a node is what
    [get_drive_info_from_consul] then returns for the same path and node: the
    path, the size and the block size of the device. *)
Theorem drive_info_round_trip path me h size bs (w : W) l x :
  available (env w) = true -> fuel <> 0%nat -> machine_of (env w) = Some me -> me <> "" ->
  get_hostname me w = (Ret (JStr h), w) ->
  device_size path (env w) = (Ret size, env w) -> device_blksize path (env w) = (Ret bs, env w) ->
  plain path -> chars path = l ++ [x] -> x <> "/"%char ->
  exists w1 w2, save_drive_info path w = (Ret true, w1)
    /\ get_drive_info_from_consul path me w1 =
       (Ret (mkDisk (mkMaybe (Some path) "Text") (mkMaybe (Some (JInt size)) "Natural")
               (mkMaybe (Some (JInt bs)) "Natural")), w2).
Proof using conf_set_view found_set_view ConsulLaws0.
  intros Ha Hf Hme Hne Hh Hs Hb Hp Hx Hx'. eexists _. rewrite (save_drive_info_ok _ _ _ _ _ _ Ha Hf Hme Hne Hh Hs Hb).
  set (st := bump _). set (w1 := set_env (set_view st (env w)) w).
  assert (Hsame : same_conf w w1) by (split; [by intros; cbn; rewrite conf_set_view | by intros; cbn; rewrite found_set_view]).
  set (key := drive_key h (strip_c "/" path)) in *.
  destruct fuel as [| n] eqn:Ef; [done|].
  destruct (read_loop_ok n key w1 (new_entry key (dumps (drive_json path size bs)) (kv_index (view (env w)) + 1)
    (view (env w))) (drive_json path size bs)) as (w2 & El & Ee).
  - cbn. by rewrite available_set.
  - unfold key, drive_key. by destruct h.
  - cbn. rewrite view_set. apply store_set_get.
  - unfold new_entry, loads_value. cbn [Value].
    destruct (String.eqb_spec (dumps (drive_json path size bs)) "") as [Ed |]; [done|].
    apply drive_json_loads.
  - exists w2. split; [done|]. apply repeat_if_fails_ret; [| done | by rewrite Ef].
    eapply bind_Ret_same; [by apply (hostname_stable me w w1)|].
    eapply (bind_Ret_same _ _ _ (lstrip "/" path)).
    { unfold lift, disk_path_of. by rewrite loads_text. }
    rewrite <- (strip_lstrip "/" path l x Hx Hx'), Ef.
    rewrite (bind_unfold_Ret _ _ _ _ _ El). reflexivity.
Qed.
End Drives.

(** ** Entries without a value *)
Section Empty.
Context {E : Type} `{ConsulApi E} `{!ConsulLaws E} `{Others E} `{Fuel}.
Notation W := (World E).

(** The test of the retry loop looks at the entry, so an entry whose value is
    empty ends the loop after one attempt, with [None]. *)
Lemma empty_entry_not_retried n key (w : W) i :
  available (env w) = true -> key <> "" -> store_get key (view (env w)) = Some i -> Value i = None ->
  (read_loop (S n) key KVNone JNull w).1 = Ret JNull.
Proof.
  intros Ha Hk Hi Hv. destruct (kv_get_miss key None None None w (KVItem i)) as (w1 & Eg & Ee);
    [done | done | | done |].
  { unfold kv_get_outcome, store_read. cbn. by rewrite Hi. }
  cbn [read_loop kv_truthy]. rewrite Eg. cbn [item_of mbind outcome_bind]. rewrite Hv.
  cbn [loads_value]. unfold sleep. rewrite bind_modify. by destruct n.
Qed.
End Empty.

(** ** Importing the configuration *)
Section ImportKv.
Context {E : Type} `{ConsulApi E} `{!ConsulLaws E} `{Host E} `{Others E} `{Fuel}.
Notation W := (World E).

Definition kv_item_json (x : string * string) : json :=
  JObj [("key", JStr x.1); ("value", JStr x.2)].

Definition import_store (s : store) (kvs : list (string * string)) : store :=
  foldl (fun s x => bump (store_set x.1 x.2 s)) s kvs.

Lemma import_item_ok x (w : W) :
  available (env w) = true -> x.1 <> "" ->
  import_item (kv_item_json x) w =
  (Ret tt, set_env (set_view (bump (store_set x.1 x.2 (view (env w)))) (env w)) w).
Proof.
  intros Ha Hk. unfold import_item. eapply bind_Ret_same.
  { unfold lift. rewrite loads_dumps_wf; [reflexivity|]. constructor; [| by repeat constructor].
    by apply (bool_decide_unpack _). }
  do 2 (eapply bind_Ret_same; [reflexivity|]).
  by rewrite (bind_unfold_Ret _ _ _ _ _ (kv_put_ok x.1 x.2 None None w Ha Hk)).
Qed.

Lemma import_items_ok kvs (w : W) :
  available (env w) = true -> Forall (fun x => x.1 <> "") kvs ->
  exists w', for_each (kv_item_json <$> kvs) import_item w = (Ret tt, w')
    /\ view (env w') = import_store (view (env w)) kvs /\ available (env w') = true.
Proof.
  intros Ha Hk. revert w Ha. induction Hk as [| x kvs Hx _ IH]; intros w Ha; [by exists w|].
  cbn [fmap list_fmap for_each].
  rewrite (bind_unfold_Ret _ _ _ _ _ (import_item_ok x w Ha Hx)).
  destruct (IH (set_env (set_view (bump (store_set x.1 x.2 (view (env w)))) (env w)) w)) as (w' & E1 & E2 & E3).
  - cbn. by rewrite available_set.
  - exists w'. split; [done|]. split; [| done]. rewrite E2. cbn. by rewrite view_set.
Qed.

Lemma import_store_other s kvs k :
  k ∉ kvs.*1 -> store_get k (import_store s kvs) = store_get k s.
Proof.
  revert s. induction kvs as [| [a b] kvs IH]; intros s Hk; [done|]. cbn.
  rewrite IH by set_solver. apply (store_set_get_ne a k b s). set_solver.
Qed.

Lemma import_store_get s kvs k v :
  NoDup kvs.*1 -> (k, v) ∈ kvs -> v <> "" ->
  exists i, store_get k (import_store s kvs) = Some i /\ Value i = Some v /\ Key i = k.
Proof.
  revert s. induction kvs as [| [a b] kvs IH]; intros s Hn Hk Hv; [set_solver|].
  cbn in Hn. apply NoDup_cons in Hn as [Hna Hn]. apply elem_of_cons in Hk as [[= -> ->] | Hk].
  - cbn. rewrite import_store_other by done. eexists. split; [apply (store_set_get a b s)|].
    cbn. by destruct (String.eqb_spec b "").
  - cbn. by apply IH.
Qed.

(** [import_kv] puts the entries of [consul-kv.json] into the KV: every key of
    the file reads its value, and the keys that are not in the file are left. *)
Theorem import_kv_stores_file dir text kvs (w : W) :
  available (env w) = true ->
  read_file (dir +:+ "/consul-kv.json") (env w) = (Ret text, env w) ->
  loads text = Ret (JArr (kv_item_json <$> kvs)) ->
  NoDup kvs.*1 -> Forall (fun x => x.1 <> "") kvs ->
  exists w', import_kv dir w = (Ret tt, w')
    /\ (forall k v, (k, v) ∈ kvs -> v <> "" ->
          exists i, store_get k (view (env w')) = Some i /\ Value i = Some v)
    /\ forall k, k ∉ kvs.*1 -> store_get k (view (env w')) = store_get k (view (env w)).
Proof.
  intros Ha Hr Hl Hn Hk. destruct (import_items_ok kvs w Ha Hk) as (w' & E1 & E2 & _).
  exists w'. split.
  - unfold import_kv, read_kv_file. eapply bind_Ret_same; [| exact E1].
    eapply bind_Ret_same; [by apply on_env_pure|].
    eapply bind_Ret_same; [unfold lift; by rewrite Hl|]. reflexivity.
  - rewrite E2. split; [| intros k; apply import_store_other].
    intros k v Hkv Hv. destruct (import_store_get (view (env w)) kvs k v Hn Hkv Hv) as (i & ? & ? & _).
    by exists i.
Qed.
End ImportKv.

(** ** Witnesses *)
Section Witnesses.
#[local] Instance mp_fuel : Fuel := 10%nat.

Lemma drive_info_round_trip_witness :
  exists w1 w2, save_drive_info "/dev/sdb" (site_world [] "m1") = (Ret true, w1)
    /\ get_drive_info_from_consul "/dev/sdb" "m1" w1 =
       (Ret (mkDisk (mkMaybe (Some "/dev/sdb") "Text") (mkMaybe (Some (JInt 1000)) "Natural")
               (mkMaybe (Some (JInt 4096)) "Natural")), w2).
Proof.
  eapply (drive_info_round_trip (E := site) ltac:(done) ltac:(done) "/dev/sdb" "m1" "data1" 1000 4096
    (site_world [] "m1") (chars "/dev/sd") "b"%char); try reflexivity; try done.
  by repeat constructor.
Defined.

(** A path with a slash at its end is saved under one key and read under another. *)
Example trailing_slash_not_found :
  let w1 := (save_drive_info "/dev/sdb/" (site_world [] "m1")).2 in
  (get_drive_info_from_consul "/dev/sdb/" "m1" w1).1 = Hang.
Proof. vm_compute. reflexivity. Qed.

Definition kv_file_text : string :=
  dumps (JArr [kv_item_json ("epoch", "1"); kv_item_json ("m0conf/x", "2")]).

Definition file_world : World site :=
  world_init (set_files [("/conf/consul-kv.json", kv_file_text)] (demo_site [("leader", "a")] "m1")) None 3.

Lemma import_kv_stores_file_witness :
  exists w', import_kv "/conf" file_world = (Ret tt, w')
    /\ (forall k v, (k, v) ∈ [("epoch", "1"); ("m0conf/x", "2")] -> v <> "" ->
          exists i, store_get k (view (env w')) = Some i /\ Value i = Some v)
    /\ forall k, k ∉ [("epoch", "1"); ("m0conf/x", "2")].*1 ->
         store_get k (view (env w')) = store_get k (view (env file_world)).
Proof.
  apply (import_kv_stores_file "/conf" kv_file_text [("epoch", "1"); ("m0conf/x", "2")] file_world);
    try reflexivity.
  - by apply (bool_decide_unpack _).
  - by repeat constructor.
Defined.
End Witnesses.
