(* ===== verification/Sysconf.v ===== *)
(** * Generation of the system configuration
      ([src/hax/helper/generate_sysconf.py], [update_conf.py])

    [SysProvider] is what [KVFile] and [ConsulKV] promise to [Generator]; the two
    classes are its two values.  The regular expressions contain the names of
    nodes and services as they are: in such a name a dot matches any character.
    Names with other special characters of regular expressions are outside the
    model. *)

From S2P Require Import Prelude PyStr Json HaxTypes Message LinkedList Planner Delivery World.
From S2P Require Import Cache ConsulStore Consul Exec.

(** ** Patterns made of names *)

(** The rest of [s] after a match of the pattern [p] at its start. *)
Fixpoint pat_match (p s : list ascii) : option (list ascii) :=
  match p, s with
  | [], _ => Some s
  | a :: p', b :: s' =>
      if Ascii.eqb a b || (Ascii.eqb a "." && rx_any b) then pat_match p' s' else None
  | _ :: _, [] => None
  end.

(** [re.match(prefix, s)]: nothing is asked of the rest of [s]. *)
Definition prefix_match (p s : string) : bool := bool_decide (is_Some (pat_match (chars p) (chars s))).

Definition node_prefix (node : string) : string := "m0conf/nodes/" +:+ node +:+ "/processes/".

(** The regular expression of [get_service_ids]: the key of the process. *)
Definition service_regex (node svc_name key : string) : option string :=
  r ← pat_match (chars (node_prefix node)) (chars key);
  m ← greedy1 rx_digit (fun r' =>
        r'' ← pat_match (chars ("/services/" +:+ svc_name)) r';
        if at_end r'' then Some tt else None) r;
  Some (string_of_list_ascii (fst m)).

(** ** The providers *)
Record SysProvider (W : Type) : Type := mkProvider {
  get_service_ids : string -> M W (list string);
  get_service_ep : string -> M W (option string);
  get_ios_meta_data : string -> M W (option string);
  get_profile_fid : M W (option string) }.
Arguments get_service_ids {W}. Arguments get_service_ep {W}.
Arguments get_ios_meta_data {W}. Arguments get_profile_fid {W}.

Definition ep_key (node proc_id : string) : string := node_prefix node +:+ proc_id +:+ "/endpoint".
Definition meta_key (node proc_id : string) : string := node_prefix node +:+ proc_id +:+ "/meta_data".

Section Providers.
Context {E : Type} `{ConsulApi E} `{Host E} `{Others E} `{Fuel}.
Notation W := (World E).

(** *** KVFile *)
Definition kv_read_file (kv_file : string) : M W (list json) :=
  text ← on_env (read_file kv_file); data ← lift (loads text);
  lift (match data with JArr l => Ret l | _ => Raise TypeError end).

Definition entry_key (item : json) : outcome string :=
  k ← jget "key" item; match k with JStr s => Ret s | _ => Raise TypeError end.

Fixpoint file_service_ids (node svc_name : string) (kv_data : list json) : outcome (list string) :=
  match kv_data with
  | [] => Ret []
  | item :: l =>
      k ← entry_key item;
      rest ← file_service_ids node svc_name l;
      Ret (match service_regex node svc_name k with Some g => g :: rest | None => rest end)
  end.

(** The value of the first entry whose key matches. *)
Fixpoint file_find (pattern : string) (kv_data : list json) : outcome (option string) :=
  match kv_data with
  | [] => Ret None
  | item :: l =>
      k ← entry_key item;
      if prefix_match pattern k then v ← jget "value" item; Ret (Some (py_str v))
      else file_find pattern l
  end.

Fixpoint file_profile (kv_data : list json) : outcome (option string) :=
  match kv_data with
  | [] => Ret None
  | item :: l =>
      k ← entry_key item;
      if prefix_match "m0conf/profiles/" k then Ret (Some (py_last (py_split "/" k))) else file_profile l
  end.

Definition KVFile (kv_data : list json) (node : string) : SysProvider W :=
  mkProvider W (fun svc_name => lift (file_service_ids node svc_name kv_data))
    (fun proc_id => lift (file_find (ep_key node proc_id) kv_data))
    (fun proc_id => lift (file_find (meta_key node proc_id) kv_data))
    (lift (file_profile kv_data)).

(** *** ConsulKV *)
Definition consul_service_ids (node svc_name : string) : M W (list string) :=
  repeat_if_fails (-1)
    (node_items ← kv_get "m0conf/nodes" (Some true) None None;
     l ← lift (items_of node_items);
     mret (omap (fun i => service_regex node svc_name (Key i)) l)).

(** [key = kv_get(...); if key: return key['Value'].decode(...)] *)
Definition consul_value (key : string) : M W (option string) :=
  repeat_if_fails (-1)
    (d ← kv_get key None None None;
     if kv_truthy d then i ← lift (item_of d); v ← lift (decode_value (Value i)); mret (Some v)
     else mret None).

(** [keys=True] gives the keys of what [recurse=True] gives. *)
Definition consul_profile : M W (option string) :=
  repeat_if_fails (-1)
    (d ← kv_get "m0conf/profiles/" (Some true) None None;
     l ← lift (items_of d);
     assert (negb (bool_decide (length l = 0%nat))) ;;
     k ← lift (index_get 0 (Key <$> l));
     mret (Some (py_last (py_split "/" k)))).

Definition ConsulKV (node : string) : SysProvider W :=
  mkProvider W (consul_service_ids node) (fun proc_id => consul_value (ep_key node proc_id))
    (fun proc_id => consul_value (meta_key node proc_id)) consul_profile.

(** ** Generator *)
Record Generator : Type := mkGenerator {
  provider : SysProvider W; gen_node : string; hare_conf_dir : string; sysconf_dir : string }.

Definition make_generator (node conf_dir : string) (kv_file : option string) : M W Generator :=
  p ← match kv_file with
      | Some f => if String.eqb f "" then mret (ConsulKV node)
                  else data ← kv_read_file f; mret (KVFile data node)
      | None => mret (ConsulKV node)
      end;
  ok ← on_env (path_isdir conf_dir);
  if (ok : bool) then mret (mkGenerator p node (conf_dir +:+ "/") "sysconfig/")
  else raise (FileNotFoundError conf_dir).

Variable g : Generator.

(** [os.path.dirname] *)
Definition dirname (path : string) : string :=
  py_join "/" (take (length (py_split "/" path) - 1) (py_split "/" path)).

Definition gen_write_file (filepath contents : string) : M W unit :=
  on_env (os_makedirs (dirname filepath)) ;; on_env (write_file filepath contents).

(** [f'{x}'] of an [Optional[str]]. *)
Definition opt_text (o : option string) : string := default "None" o.

(** [Fid(ObjT.PROCESS.value, int(svc_id))] *)
Definition process_fid (svc_id : string) : outcome Fid :=
  k ← py_int 10 svc_id; Ret (mk_fid PROCESS k).

Definition sq (s : string) : string := "'" +:+ s +:+ "'".
Definition line (name value : string) : string := name +:+ "=" +:+ value +:+ lf_str.

Definition confd_contents (ep : option string) (hax_ep : string) (fid : Fid) (dir : string) : string :=
  line "MOTR_M0D_EP" (sq (opt_text ep)) +:+ line "MOTR_HA_EP" (sq hax_ep)
  +:+ line "MOTR_PROCESS_FID" (sq (fid_repr fid)) +:+ line "MOTR_CONF_XC" (sq (dir +:+ "/confd.xc")).

Definition generate_confd (svc_id hax_ep motr_conf_dir : string) : M W unit :=
  fid ← lift (process_fid svc_id);
  ep ← get_service_ep (provider g) svc_id;
  gen_write_file (motr_conf_dir +:+ sysconf_dir g +:+ "m0d-" +:+ fid_repr fid)
    (confd_contents ep hax_ep fid motr_conf_dir).

Definition ios_contents (ep meta_data : option string) (hax_ep : string) (fid : Fid) : string :=
  line "MOTR_M0D_EP" (sq (opt_text ep)) +:+ line "MOTR_HA_EP" (sq hax_ep)
  +:+ line "MOTR_PROCESS_FID" (sq (fid_repr fid))
  +:+ match meta_data with
      | Some m => if String.eqb m "" then "" else line "MOTR_BE_SEG_PATH" m
      | None => ""
      end.

Definition generate_ios (svc_id hax_ep motr_conf_dir : string) : M W unit :=
  fid ← lift (process_fid svc_id);
  ep ← get_service_ep (provider g) svc_id;
  meta_data ← get_ios_meta_data (provider g) svc_id;
  gen_write_file (motr_conf_dir +:+ sysconf_dir g +:+ "m0d-" +:+ fid_repr fid)
    (ios_contents ep meta_data hax_ep fid).

Definition s3_contents (profile ep : option string) (hax_ep : string) (fid : Fid) (s3_port : Z) : string :=
  line "MOTR_PROFILE_FID" (opt_text profile) +:+ line "MOTR_S3SERVER_EP" (sq (opt_text ep))
  +:+ line "MOTR_HA_EP" (sq hax_ep) +:+ line "MOTR_PROCESS_FID" (sq (fid_repr fid))
  +:+ line "MOTR_S3SERVER_PORT" (dec_str s3_port).

Definition generate_s3 (svc_id hax_ep : string) (s3_port : Z) (s3_conf_dir : string) : M W unit :=
  profile_fid ← get_profile_fid (provider g);
  fid ← lift (process_fid svc_id);
  ep ← get_service_ep (provider g) svc_id;
  gen_write_file (s3_conf_dir +:+ sysconf_dir g +:+ "s3server-" +:+ fid_repr fid)
    (s3_contents profile_fid ep hax_ep fid s3_port).

(** The dict of [get_all_svc_ids]. *)
Record SvcIds : Type := mkIds {
  HAX_ID : list string; CONFD_IDs : list string; IOS_IDs : list string; S3_IDs : list string }.

Definition get_all_svc_ids : M W SvcIds :=
  hax ← get_service_ids (provider g) "ha";
  if bool_decide (hax = []) then raise (RuntimeError "Cannot get information about Hax")
  else
    confd ← get_service_ids (provider g) "confd";
    ios ← get_service_ids (provider g) "ios";
    s3 ← get_service_ids (provider g) "m0_client_s3";
    mret (mkIds hax confd ios s3).

(** [ep = get_service_ep(...); if not ep: raise RuntimeError(message)] *)
Definition need_ep (svc_id message : string) : M W string :=
  ep ← get_service_ep (provider g) svc_id;
  match ep with
  | Some s => if String.eqb s "" then raise (RuntimeError message) else mret s
  | None => raise (RuntimeError message)
  end.

Definition generate_sysconfig (motr_conf_dir s3_conf_dir : string) : M W unit :=
  IDs ← get_all_svc_ids;
  h ← lift (index_get 0 (HAX_ID IDs));
  hax_ep ← need_ep h "Cannot get hax endpoint.";
  for_each (CONFD_IDs IDs) (fun x => generate_confd x hax_ep (motr_conf_dir +:+ "/")) ;;
  for_each (IOS_IDs IDs) (fun x => generate_ios x hax_ep (motr_conf_dir +:+ "/")) ;;
  fold_m (fun s3_port x => generate_s3 x hax_ep s3_port (s3_conf_dir +:+ "/") ;; mret (s3_port + 1))
    28071 (S3_IDs IDs) ;;
  mret tt.

(** ** The services of the Consul agent *)
Definition get_service_ipaddr (ep : string) : string := default "" (py_split "@" ep !! 0%nat).

(** [ep.rsplit('@', 1)]: without an [@] the whole text is the only piece. *)
Definition rsplit1 (s : string) : list string :=
  let l := py_split "@" s in
  match length l with
  | O | S O => l
  | S n => [py_join "@" (take n l); py_last l]
  end.

Definition get_service_addr (ep : string) : string := default "" (rsplit1 ep !! 0%nat).
Definition get_service_port (ep : string) : outcome Z :=
  p ← index_get 1 (rsplit1 ep); py_int 10 p.

Record Service : Type := mkService {
  svc_id_ : string; svc_name_ : string; svc_address : string; svc_port : Z; svc_checks : list json }.

(** [checks['args']] for the service [name]. *)
Definition check_args (name svc_id : string) : outcome (list string) :=
  let base := ["/opt/seagate/cortx/hare/libexec/check-service"] in
  if String.eqb name "hax" then Ret (base ++ ["--hax"])
  else if String.eqb name "confd" || String.eqb name "ios" then
    fid ← process_fid svc_id; Ret (base ++ ["--fid"; fid_repr fid])
  else if String.eqb name "s3service" then
    fid ← process_fid svc_id; Ret (base ++ ["--svc"; "s3server@" +:+ fid_repr fid])
  else Ret base.

Definition prepare_svc (svc_id name : string) : M W Service :=
  ep ← need_ep svc_id "Cannot get service endpoint.";
  port ← lift (get_service_port ep);
  args ← lift (check_args name svc_id);
  mret (mkService svc_id name (get_service_addr ep) port
          [JObj [("args", JArr (JStr <$> args)); ("interval", JStr "1s"); ("status", JStr "warning")]]).

(** [simplejson] writes a [NamedTuple] as an object. *)
Definition service_json (s : Service) : json :=
  JObj [("id", JStr (svc_id_ s)); ("name", JStr (svc_name_ s)); ("address", JStr (svc_address s));
        ("port", JInt (svc_port s)); ("checks", JArr (svc_checks s))].

(** [simplejson.dumps(j, indent=2)] *)
Fixpoint indent (n : nat) : string := match n with O => "" | S m => "  " +:+ indent m end.
Fixpoint dumps_indent (n : nat) (j : json) : string :=
  match j with
  | JArr (x :: l) =>
      "[" +:+ lf_str +:+ indent (S n)
        +:+ String.concat ("," +:+ lf_str +:+ indent (S n)) (List.map (dumps_indent (S n)) (x :: l))
        +:+ lf_str +:+ indent n +:+ "]"
  | JObj (x :: l) =>
      "{" +:+ lf_str +:+ indent (S n)
        +:+ String.concat ("," +:+ lf_str +:+ indent (S n))
              (List.map (fun '(k, v) => dumps (JStr k) +:+ ": " +:+ dumps_indent (S n) v) (x :: l))
        +:+ lf_str +:+ indent n +:+ "}"
  | _ => dumps j
  end.

Definition append_svcs_to_file (svcs : list Service) (conf_file : string) : M W unit :=
  text ← on_env (read_file conf_file);
  data ← lift (loads text);
  data' ← lift (jset "services" (JArr (service_json <$> svcs)) data);
  gen_write_file conf_file (dumps_indent 0 data').

(** [re.sub(r'(https?://)localhost', rf'\g<1>{ipaddr}', text)] *)
Fixpoint sub_localhost (n : nat) (ipaddr l : list ascii) : list ascii :=
  match n with
  | O => l
  | S n' =>
      match l with
      | [] => []
      | c :: l' =>
          match strip_lit (chars "http://localhost") l with
          | Some r => chars "http://" ++ ipaddr ++ sub_localhost n' ipaddr r
          | None =>
              match strip_lit (chars "https://localhost") l with
              | Some r => chars "https://" ++ ipaddr ++ sub_localhost n' ipaddr r
              | None => c :: sub_localhost n' ipaddr l'
              end
          end
      end
  end.

Definition replace_localhost (ipaddr text : string) : string :=
  string_of_list_ascii (sub_localhost (length (chars text)) (chars ipaddr) (chars text)).

(** The file is kept as [.bak] and rewritten line by line; no match spans lines. *)
Definition append_ipaddr_to_file (hax_ep conf_file : string) : M W unit :=
  let ipaddr := get_service_ipaddr hax_ep in
  text ← on_env (read_file conf_file);
  on_env (write_file (conf_file +:+ ".bak") text) ;;
  on_env (write_file conf_file (replace_localhost ipaddr text)).

Definition update_consul_conf : M W unit :=
  IDs ← get_all_svc_ids;
  let mode := match CONFD_IDs IDs with [] => "client" | _ => "server" end in
  let conf_file := hare_conf_dir g +:+ "/consul-" +:+ mode +:+ "-conf/consul-" +:+ mode +:+ "-conf.json" in
  hax ← map_m (fun x => prepare_svc x "hax") (HAX_ID IDs);
  confd ← map_m (fun x => prepare_svc x "confd") (CONFD_IDs IDs);
  ios ← map_m (fun x => prepare_svc x "ios") (IOS_IDs IDs);
  s3 ← map_m (fun x => prepare_svc x "s3service") (S3_IDs IDs);
  append_svcs_to_file (hax ++ confd ++ ios ++ s3) conf_file ;;
  h ← lift (index_get 0 (HAX_ID IDs));
  ep ← need_ep h "Cannot get hax endpoint.";
  append_ipaddr_to_file ep conf_file.

Definition get_svc_fids (svc_name : string) : M W (list string) :=
  IDs ← get_all_svc_ids;
  l ← lift (dict_get svc_name (dict_find svc_name
              [("hax", HAX_ID IDs); ("confd", CONFD_IDs IDs); ("ios", IOS_IDs IDs); ("s3", S3_IDs IDs)]));
  map_m (fun x => fid ← lift (process_fid x); mret (fid_repr fid)) l.
End Providers.
Arguments mkGenerator {E}. Arguments provider {E}. Arguments gen_node {E}.
Arguments hare_conf_dir {E}. Arguments sysconf_dir {E}.

(** ** [update_conf.main] *)
Record ConfOpts : Type := mkConfOpts {
  o_node : string; o_hare_conf_dir : string; o_motr_conf_dir : option string;
  o_s3_conf_dir : option string; o_kv_file : option string; o_fid : option string }.

Section UpdateConf.
Context {E : Type} `{ConsulApi E} `{Host E} `{Others E} `{Fuel}.
Notation W := (World E).

Definition nonempty (o : option string) : option string :=
  match o with Some s => if String.eqb s "" then None else Some s | None => None end.

(** [main]: the fids it prints, or [None] after the files are written; every
    exception ends the process with code -1. *)
Definition update_conf_main (opts : ConfOpts) : M W (option (list string)) :=
  catch
    (generator ← make_generator (o_node opts) (o_hare_conf_dir opts) (o_kv_file opts);
     match nonempty (o_fid opts) with
     | Some f => l ← get_svc_fids generator f; mret (Some l)
     | None =>
         match nonempty (o_motr_conf_dir opts), nonempty (o_s3_conf_dir opts) with
         | Some m, Some s =>
             generate_sysconfig generator m s ;; update_consul_conf generator ;; mret None
         | _, _ => raise (OtherException "--motr-conf-dir and --s3-conf-dir are required")
         end
     end)
    (fun _ => Some (raise (SystemExit (-1)))).
End UpdateConf.
