(* ===== verification/SysconfProps.v ===== *)
(** * Properties of the system configuration

    The two providers agree on what the KV file and the KV hold; endpoints split
    into address and port; what the rewriting of [localhost] gives. *)

From S2P Require Import Prelude PyStr Json HaxTypes Message LinkedList Planner Delivery World.
From S2P Require Import Cache ConsulStore Consul Dhall CdfTypes Exec ConfStore MpUtils Cdf Site CdfProps.
From S2P Require Import MpProps Sysconf.

(** ** Endpoints *)
Lemma py_split_app c s t : py_split c (s +:+ String c t) = py_split c s ++ py_split c t.
Proof.
  induction s as [| a s IH].
  - change ("" +:+ String c t) with (String c t). cbn [py_split]. by rewrite Ascii.eqb_refl.
  - rewrite append_cons. cbn [py_split]. rewrite IH. destruct (Ascii.eqb a c); [done|].
    by destruct (py_split_cons c s) as (h & l & ->).
Qed.

Lemma dec_str_no_at p : no_char "@" (dec_str p).
Proof.
  assert (Hn : forall n, 0 <= n -> no_char "@" (nat_str 10 n)).
  { intros n Hn. pose proof (dec_str_natural n Hn) as Hd. unfold dec_str in Hd.
    destruct (Z.ltb_spec n 0); [lia|]. unfold is_natural in Hd. unfold no_char, chars in *.
    destruct (list_ascii_of_string (nat_str 10 n)) as [| a l]; [done|].
    apply Forall_forall. intros x Hx ->. apply list_elem_of_In in Hx.
    by apply (proj1 (forallb_forall _ _) Hd) in Hx. }
  unfold dec_str. destruct (Z.ltb_spec p 0); [| by apply Hn].
  change (no_char "@" ("-" +:+ nat_str 10 (- p))).
  apply no_char_app. split; [by repeat constructor | apply Hn; lia].
Qed.

(** An endpoint [addr@port] gives back its address and its port, whatever the
    address contains. *)
Theorem endpoint_splits addr port :
  let ep := addr +:+ "@" +:+ dec_str port in
  get_service_addr ep = addr /\ get_service_port ep = Ret port.
Proof.
  intros ep. assert (Es : rsplit1 ep = [addr; dec_str port]).
  { unfold rsplit1, ep. change ("@" +:+ dec_str port) with (String "@" (dec_str port)).
    rewrite py_split_app, (py_split_no_sep _ (dec_str port)) by apply dec_str_no_at.
    rewrite length_app. cbn [length]. destruct (py_split_cons "@" addr) as (h & l & El).
    rewrite El. cbn [length Nat.add]. rewrite Nat.add_comm. cbn [Nat.add].
    change (S (length l)) with (length (h :: l)). rewrite take_app_length. f_equal.
    - rewrite <- El. apply (split_concat "@" addr).
    - unfold py_last. by rewrite last_snoc. }
  unfold get_service_addr, get_service_port. rewrite Es. split; [done|]. apply py_int_dec_str.
Qed.

(** ** The providers agree *)
Lemma pat_match_literal p s r :
  Forall (fun c => c <> "."%char) p -> pat_match p s = Some r -> s = p ++ r.
Proof.
  intros Hp. revert s. induction Hp as [| a p Ha _ IH]; intros s; cbn; [by intros [= ->]|].
  destruct s as [| b s]; [done|]. destruct (Ascii.eqb_spec a b) as [-> |]; cbn.
  - intros Hs%IH. by rewrite Hs.
  - destruct (Ascii.eqb_spec a "."); [done|]. done.
Qed.

Lemma pat_match_app p q s r :
  pat_match (p ++ q) s = Some r -> exists r', pat_match p s = Some r' /\ pat_match q r' = Some r.
Proof.
  revert s. induction p as [| a p IH]; intros s; cbn; [intros Hq; by exists s|].
  destruct s as [| b s]; [done|]. case_match; [apply IH | done].
Qed.

Lemma prefix_of_chars p s r : chars s = chars p ++ r -> String.prefix p s = true.
Proof.
  revert s. induction p as [| a p IH]; intros [| b s]; cbn; try done.
  intros [= -> Hs]. destruct (ascii_dec a a); [| done]. by apply IH.
Qed.

(** A key of a service is one of a node. *)
Lemma service_regex_prefix node svc k g :
  service_regex node svc k = Some g -> String.prefix "m0conf/nodes" k = true.
Proof.
  unfold service_regex. destruct (pat_match _ (chars k)) as [r |] eqn:Er; [| done]. intros _.
  unfold node_prefix, chars in Er. rewrite list_ascii_of_string_app in Er.
  change (list_ascii_of_string "m0conf/nodes/") with (chars "m0conf/nodes" ++ ["/"%char]) in Er.
  rewrite <- app_assoc in Er. apply pat_match_app in Er as (r' & Er & _).
  apply pat_match_literal in Er; [by eapply prefix_of_chars | by repeat constructor].
Qed.

Lemma omap_filter {A B} (f : A -> option B) (P : A -> bool) l :
  (forall x b, f x = Some b -> P x = true) -> omap f (List.filter P l) = omap f l.
Proof.
  intros Hf. induction l as [| x l IH]; [done|]. cbn. destruct (P x) eqn:Ep; cbn; rewrite IH; [done|].
  destruct (f x) eqn:Ef; [| done]. by apply Hf in Ef; rewrite Ep in Ef.
Qed.

#[local] Instance omap_perm {A B} (f : A -> option B) :
  Proper ((≡ₚ) ==> (≡ₚ)) (omap f : list A -> list B).
Proof.
  induction 1 as [| x l k _ IH | x y l | l k m _ IH1 _ IH2]; cbn.
  - done.
  - destruct (f x); by rewrite IH.
  - destruct (f x), (f y); try done. apply Permutation_swap.
  - by rewrite IH1.
Qed.

Section Agree.
Context {E : Type} `{ConsulApi E} `{!ConsulLaws E} `{Host E} `{Others E} `{Fuel}.
Notation W := (World E).

(** The KV holds the entries of the file, and under [m0conf/nodes] nothing else. *)
Definition holds_file (s : store) (kvs : list (string * string)) : Prop :=
  (forall k v, (k, v) ∈ kvs -> exists i, entries s !! k = Some i /\ Value i = Some v)
  /\ (forall k i, entries s !! k = Some i -> Key i = k)
  /\ (forall k i, entries s !! k = Some i -> String.prefix "m0conf/nodes" k = true -> k ∈ kvs.*1).

Lemma file_ids_omap node svc kvs :
  file_service_ids node svc (kv_item_json <$> kvs) = Ret (omap (service_regex node svc) kvs.*1).
Proof.
  induction kvs as [| [k v] kvs IH]; [done|]. cbn [fmap list_fmap file_service_ids]. rewrite IH.
  cbn. by destruct (service_regex node svc k).
Qed.

Lemma NoDup_filter_b {A} (P : A -> bool) (l : list A) : NoDup l -> NoDup (List.filter P l).
Proof.
  induction 1 as [| x l Hx _ IH]; [constructor|]. cbn. destruct (P x); [| done].
  constructor; [| done]. rewrite list_elem_of_In, filter_In, <- list_elem_of_In. by intros [].
Qed.

Lemma fmap_filter_b {A B} (f : A -> B) (P : B -> bool) l :
  List.filter P (f <$> l) = f <$> List.filter (fun x => P (f x)) l.
Proof. induction l as [| x l IH]; [done|]. cbn. destruct (P (f x)); cbn; by rewrite IH. Qed.

(** The keys of the entries under the prefix are those of the file. *)
Lemma held_keys s kvs :
  NoDup kvs.*1 -> holds_file s kvs ->
  Key <$> store_list "m0conf/nodes" s ≡ₚ List.filter (String.prefix "m0conf/nodes") kvs.*1.
Proof.
  intros Hn (Hin & Hkey & Honly). rewrite (store_list_perm "m0conf/nodes" s), <- fmap_filter_b.
  assert (Hk : Key <$> (map_to_list (entries s)).*2 = (map_to_list (entries s)).*1).
  { rewrite <- list_fmap_compose. apply list_fmap_ext. intros n [k i] Hl. cbn.
    apply Hkey, elem_of_map_to_list. by eapply list_elem_of_lookup_2. }
  rewrite Hk. apply NoDup_Permutation; [apply NoDup_filter_b, NoDup_fst_map_to_list | by apply NoDup_filter_b |].
  intros k. rewrite !list_elem_of_In, !filter_In, <- !list_elem_of_In. split.
  - intros [([k' i] & -> & Hl%elem_of_map_to_list)%list_elem_of_fmap Hp]. split; [by eapply Honly | done].
  - intros [([k' v] & -> & Hl)%list_elem_of_fmap Hp]. split; [| done].
    destruct (Hin _ _ Hl) as (i & Hi & _). apply list_elem_of_fmap. exists (k', i).
    split; [done|]. by apply elem_of_map_to_list.
Qed.

Lemma omap_key {B} (f : string -> option B) (l : list kvitem) :
  omap (fun i => f (Key i)) l = omap f (Key <$> l).
Proof. induction l as [| x l IH]; [done|]. cbn. by rewrite IH. Qed.

Lemma file_find_unique pat kvs k v :
  NoDup kvs.*1 -> (k, v) ∈ kvs -> prefix_match pat k = true ->
  (forall k', k' ∈ kvs.*1 -> prefix_match pat k' = true -> k' = k) ->
  file_find pat (kv_item_json <$> kvs) = Ret (Some v).
Proof.
  induction kvs as [| [a b] kvs IH]; intros Hn Hk Hp Hu; [set_solver|].
  cbn [fmap list_fmap file_find]. apply NoDup_cons in Hn as [Hna Hn]. cbn.
  destruct (prefix_match pat a) eqn:Ea.
  - assert (a = k) as -> by (apply Hu; set_solver). cbn.
    apply elem_of_cons in Hk as [[= ->] | Hk]; [done|].
    destruct Hna. apply list_elem_of_fmap. by exists (k, v).
  - apply elem_of_cons in Hk as [[= -> ->] | Hk]; [by rewrite Hp in Ea|].
    apply IH; [done | done | done|]. intros k' Hk'. apply Hu. set_solver.
Qed.

Lemma prefix_match_self k : prefix_match k k = true.
Proof.
  unfold prefix_match. apply bool_decide_eq_true. generalize (chars k). clear.
  induction l as [| a l IH]; [by exists []|]. cbn. by rewrite Ascii.eqb_refl.
Qed.

(** C34: Reading the configuration from the KV file and reading it from the Consul
    KV it was imported into are equivalent: the same processes run each service
    (in the order of the file or of the keys), and a process has the same
    endpoint, when no other key starts with the key of the endpoint. *)
Theorem providers_agree node kvs (w : W) :
  available (env w) = true -> fuel <> 0%nat -> NoDup kvs.*1 ->
  holds_file (view (env w)) kvs ->
  (exists k, k ∈ kvs.*1 /\ String.prefix "m0conf/nodes" k = true) ->
  (forall svc, exists l1 l2 w2,
     get_service_ids (KVFile (kv_item_json <$> kvs) node) svc w = (Ret l1, w)
     /\ get_service_ids (ConsulKV node) svc w = (Ret l2, w2) /\ l1 ≡ₚ l2)
  /\ forall id v, (ep_key node id, v) ∈ kvs ->
       (forall k, k ∈ kvs.*1 -> prefix_match (ep_key node id) k = true -> k = ep_key node id) ->
       get_service_ep (KVFile (kv_item_json <$> kvs) node) id w = (Ret (Some v), w)
       /\ exists w2, get_service_ep (ConsulKV node) id w = (Ret (Some v), w2).
Proof.
  intros Ha Hf Hn Hh (k0 & Hk0 & Hp0). pose proof (held_keys _ _ Hn Hh) as Hkeys. split.
  - intros svc. destruct (kv_get_miss "m0conf/nodes" (Some true) None None w
      (KVList (store_list "m0conf/nodes" (view (env w))))) as (w1 & Eg & _); [done | done | | done |].
    { unfold kv_get_outcome, store_read. cbn.
      destruct (store_list "m0conf/nodes" (view (env w))) eqn:El; [| done].
      symmetry in Hkeys. apply Permutation_nil_r in Hkeys.
      assert (Hin : k0 ∈ List.filter (String.prefix "m0conf/nodes") kvs.*1)
        by (by rewrite list_elem_of_In, filter_In, <- list_elem_of_In).
      rewrite Hkeys in Hin. set_solver. }
    eexists _, _, w1. split; [cbn; unfold lift; by rewrite file_ids_omap|]. split.
    + apply repeat_if_fails_ret; [| done | done].
      rewrite (bind_unfold_Ret _ _ _ _ _ Eg). reflexivity.
    + rewrite (omap_key (service_regex node svc)), Hkeys, omap_filter; [done|].
      intros x b. apply service_regex_prefix.
  - intros id v Hv Hu. split.
    + cbn. unfold lift. rewrite (file_find_unique _ _ _ v Hn Hv); [done | apply prefix_match_self | done].
    + destruct Hh as (Hin & _). destruct (Hin _ _ Hv) as (i & Hi & Hval).
      destruct (kv_get_miss (ep_key node id) None None None w (KVItem i)) as (w1 & Eg & _);
        [done | done | | done |].
      { unfold kv_get_outcome, store_read, store_get. cbn [default]. by rewrite Hi. }
      exists w1. apply repeat_if_fails_ret; [| done | done].
      rewrite (bind_unfold_Ret _ _ _ _ _ Eg). cbn. unfold lift, decode_value. run. by rewrite Hval.
Qed.
End Agree.

(** ** Witness *)
Section Witness.
#[local] Instance sys_fuel : Fuel := 10%nat.

Definition sys_kvs : list (string * string) :=
  [("m0conf/nodes/n1/processes/9/services/confd", "10");
   ("m0conf/nodes/n1/processes/9/endpoint", "inet:tcp:10.0.0.1@21001");
   ("m0conf/nodes/n1/processes/6/services/ha", "7");
   ("m0conf/nodes/n1/processes/6/endpoint", "inet:tcp:10.0.0.1@22001"); ("epoch", "1")].

Lemma sys_holds : holds_file (view (env (site_world sys_kvs "m1"))) sys_kvs.
Proof.
  assert (Hall : forallb (fun x => String.eqb (Key x.2) x.1 && existsb (String.eqb x.1) sys_kvs.*1)
    (map_to_list (entries (store_of sys_kvs))) = true) by (vm_compute; reflexivity).
  assert (Hget : forall k i, entries (store_of sys_kvs) !! k = Some i -> Key i = k /\ k ∈ sys_kvs.*1).
  { intros k i Hi%elem_of_map_to_list%list_elem_of_In.
    pose proof (proj1 (forallb_forall _ _) Hall _ Hi) as [Hk Hin]%andb_prop.
    apply String.eqb_eq in Hk. apply existsb_exists in Hin as (y & Hy & Ey%String.eqb_eq).
    split; [exact Hk|]. apply list_elem_of_In. cbn [fst] in Ey. rewrite Ey. exact Hy. }
  split; [| split; intros; by eapply Hget].
  assert (Hv : Forall (fun x => x.2 <> "") sys_kvs) by (repeat constructor; discriminate).
  rewrite Forall_forall in Hv. intros k v Hkv.
  destruct (import_store_get (mkStore ∅ 0) sys_kvs k v) as (i & Hi & Hval & _);
    [by apply (bool_decide_unpack _) | exact Hkv | exact (Hv _ Hkv) |].
  exists i. exact (conj Hi Hval).
Qed.

Lemma providers_agree_witness :
  (forall svc, exists l1 l2 w2,
     get_service_ids (KVFile (kv_item_json <$> sys_kvs) "n1") svc (site_world sys_kvs "m1")
       = (Ret l1, site_world sys_kvs "m1")
     /\ get_service_ids (ConsulKV "n1") svc (site_world sys_kvs "m1") = (Ret l2, w2) /\ l1 ≡ₚ l2)
  /\ forall id v, (ep_key "n1" id, v) ∈ sys_kvs ->
       (forall k, k ∈ sys_kvs.*1 -> prefix_match (ep_key "n1" id) k = true -> k = ep_key "n1" id) ->
       get_service_ep (KVFile (kv_item_json <$> sys_kvs) "n1") id (site_world sys_kvs "m1")
         = (Ret (Some v), site_world sys_kvs "m1")
       /\ exists w2, get_service_ep (ConsulKV "n1") id (site_world sys_kvs "m1") = (Ret (Some v), w2).
Proof.
  apply (providers_agree "n1" sys_kvs (site_world sys_kvs "m1")).
  - reflexivity.
  - unfold fuel, sys_fuel. lia.
  - by apply (bool_decide_unpack _).
  - apply sys_holds.
  - exists "m0conf/nodes/n1/processes/9/services/confd". split; [| reflexivity].
    by apply (bool_decide_unpack _).
Defined.

Example service_ids_of_n1 :
  (get_service_ids (ConsulKV "n1") "ha" (site_world sys_kvs "m1")).1 = Ret ["6"].
Proof. vm_compute. reflexivity. Qed.
End Witness.

(** ** Observations *)

(** A dot in the name of a node matches any character: the processes of another
    node are taken for its own. *)
Example dotted_node_name :
  service_regex "srv.a" "ios" "m0conf/nodes/srv-a/processes/12/services/ios" = Some "12".
Proof. vm_compute. reflexivity. Qed.

(** For an endpoint of the form the comments of the code give, the text before
    the [@] is not a host name, and [localhost] is replaced by it. *)
Example localhost_replaced_by_endpoint :
  replace_localhost (get_service_ipaddr "inet:tcp:10.230.246.59@3001") "https://localhost:8008/watcher"
  = "https://inet:tcp:10.230.246.59:8008/watcher".
Proof. vm_compute. reflexivity. Qed.

(** The port of an LNet endpoint is not a number. *)
Example lnet_endpoint_has_no_port : get_service_port "192.168.1.1@tcp:12345:2:101" = Raise ValueError.
Proof. vm_compute. reflexivity. Qed.
