(* ===== verification/Configure.v ===== *)
(** * The [configure] command ([src/hax/helper/configure.py])

    [ConfGenerator]: runs [cfgen], the pipe that makes [confd.xc], finds the name
    of the local node and configures the Consul agent.  The command line parser
    and logging are not modelled. *)

From S2P Require Import Prelude PyStr Json HaxTypes Message LinkedList Planner Delivery World.
From S2P Require Import Cache ConsulStore Consul Exec ConfStore Site.

Record AppCtx : Type := mkAppCtx {
  cdf_path : string; conf_dir : string; log_dir : string; log_file : string;
  consul_server : bool; uuid : option string; transport : string }.

Definition servers_selector : string :=
  ".servers[] | " +:+ String quote "\(.node_name) \(.ipaddr)" +:+ String quote "".
Definition nodes_selector : string :=
  "(.servers + .clients)[] | " +:+ String quote "\(.node_name) \(.ipaddr)" +:+ String quote "".

(** The loop of [_update_consul_conf] over the data nodes. *)
Definition join_peers_opt (node_name : string) (data_nodes : list (string * string)) : list string :=
  foldl (fun opts '(node, ip) => if String.eqb node node_name then opts else opts ++ ["--join"; ip])
    [] data_nodes.

Definition find_join_ip (node_name : string) (nodes : list (string * string)) : option string :=
  snd <$> List.find (fun '(node, _) => String.eqb node node_name) nodes.

Definition mk_consul_env_cmd (c : AppCtx) (join_ip : string) (peers : list string) : list string :=
  ["mk-consul-env"; "--bind"; join_ip] ++ peers
  ++ ["--extra-options"; "-ui -bootstrap-expect 1"; "--conf-dir"; conf_dir c]
  ++ ["--mode"; if consul_server c then "server" else "client"].

Definition update_consul_conf_cmd (c : AppCtx) (transport : string) : list string :=
  ["update-consul-conf"; "--conf-dir"; conf_dir c; "--xprt"; transport; "--kv-file";
   conf_dir c +:+ "/consul-kv.json"; "--log-dir"; log_dir c]
  ++ (if consul_server c then ["--server"] else [])
  ++ match uuid c with
     | Some u => if String.eqb u "" then [] else ["--uuid"; u]
     | None => []
     end.

Section Configure.
Context {E : Type} `{Host E} (c : AppCtx).
Notation W := (World E).

Definition get_pythonic_env : M W (list (string * string)) :=
  path ← on_env (os_getenv "PATH");
  path ← lift (dict_get "PATH" path);
  sys ← on_env sys_path;
  py ← on_env (os_getenv "PYTHONPATH");
  let py_path := py_join ":" sys in
  let py_path := match py with Some v => v +:+ ":" +:+ py_path | None => py_path end in
  mret [("PATH", py_join ":" ["/opt/seagate/cortx/hare/bin"; "/opt/seagate/cortx/hare/libexec"; path]);
        ("PYTHONPATH", py_path)].

Definition get_nodes_ex (consul_agents_file jq_selector : string) : M W (list (string * string)) :=
  run_ex (program ["jq"; "-r"; jq_selector; consul_agents_file]) two_columns None None None.

Definition get_data_nodes_of (f : string) : M W (list (string * string)) := get_nodes_ex f servers_selector.
Definition get_nodes (f : string) : M W (list (string * string)) := get_nodes_ex f nodes_selector.

Definition is_localhost (hostname : string) : M W bool :=
  if String.eqb hostname "localhost" || String.eqb hostname "127.0.0.1" then mret true else
  h ← exec_run (program ["hostname"]) None;
  if String.eqb hostname h then mret true else
  f ← exec_run (program ["hostname"; "--fqdn"]) None;
  if String.eqb hostname f then mret true else
  all_ips ← exec_run (program ["hostname"; "-I"]) None;
  if py_in hostname all_ips then mret true else
  ok ← on_env (path_exists "/etc/salt/minion_id");
  if negb ok then mret false else
  text ← on_env (read_file "/etc/salt/minion_id");
  mret (String.eqb hostname (string_of_list_ascii (strip_space (chars text)))).

Definition create_node_name (consul_agents_file : string) : M W string :=
  nodes ← get_nodes consul_agents_file;
  r ← fold_m (fun (r : option string) '(node, _) =>
        match r with
        | Some _ => mret r
        | None =>
            local ← is_localhost node;
            if (local : bool) then
              on_env (write_file (conf_dir c +:+ "/node-name") node) ;; mret (Some node)
            else mret None
        end) None nodes;
  match r with
  | Some node => mret node
  | None => raise (RuntimeError "Failed to find the current node inthe node list")
  end.

Definition conf_update_consul (node_name transport : string) : M W unit :=
  let cns_file := conf_dir c +:+ "/consul-agents.json" in
  nodes ← get_nodes cns_file;
  join_ip ← lift (match find_join_ip node_name nodes with
                  | Some ip => Ret ip
                  | None => Raise (RuntimeError "Logic error: node_name not found")
                  end);
  data_nodes ← get_data_nodes_of cns_file;
  e1 ← get_pythonic_env;
  exec_run (program (mk_consul_env_cmd c join_ip (join_peers_opt node_name data_nodes))) (Some e1) ;;
  e2 ← get_pythonic_env;
  exec_run (program (update_consul_conf_cmd c transport)) (Some e2) ;;
  mret tt.

Definition conf_generate : M W unit :=
  e ← get_pythonic_env;
  exec_run (program ["cfgen"; "-o"; conf_dir c; "-v"; "-l"; log_dir c; "--log-file"; log_file c;
                     cdf_path c]) (Some e) ;;
  xcode ← exec_run (prog_or (prog_or (program ["cat"; conf_dir c +:+ "/confd.dhall"])
                                     (program ["dhall"; "text"]))
                            (program ["m0confgen"])) (Some e);
  on_env (write_file (conf_dir c +:+ "/confd.xc") xcode) ;;
  node_name ← create_node_name (conf_dir c +:+ "/consul-agents.json");
  conf_update_consul node_name (transport c).

(** [main]: the exit code of the process. *)
Definition configure_main : M W Z :=
  catch (conf_generate ;; mret 0) (fun e =>
    match e with
    | CliException _ code => Some (mret code)
    | SystemExit _ => None
    | _ => Some (mret 1)
    end).
End Configure.

(** ** Properties *)
Lemma join_peers_spec node_name data_nodes :
  join_peers_opt node_name data_nodes =
  concat ((fun x => ["--join"; x.2]) <$> List.filter (fun x => negb (String.eqb x.1 node_name)) data_nodes).
Proof.
  unfold join_peers_opt.
  assert (Hacc : forall acc, foldl (fun opts '(node, ip) =>
      if String.eqb node node_name then opts else opts ++ ["--join"; ip]) acc data_nodes
    = acc ++ concat ((fun x => ["--join"; x.2]) <$>
        List.filter (fun x => negb (String.eqb x.1 node_name)) data_nodes)); [| apply (Hacc [])].
  induction data_nodes as [| [n ip] l IH]; intros acc; cbn; [by rewrite app_nil_r|].
  rewrite IH. destruct (String.eqb n node_name); cbn; [done|]. by rewrite <- app_assoc.
Qed.

Section NodeName.
Context {E : Type} `{Host E} (c : AppCtx).
Notation W := (World E).

(** What a program prints in two columns, run as a single command. *)
Lemma run_columns cmd (w w1 w2 : W) h l :
  popen cmd None None (env w) = (Ret h, env w1) -> set_env (env w1) w = w1 ->
  proc_communicate h None None (env w1) = (Ret (0, columns_text l, ""), env w2) ->
  set_env (env w2) w1 = w2 ->
  Forall (fun x => plain_word x.1 /\ plain_word x.2 /\ x.1 <> "") l ->
  run_ex (program cmd) two_columns None None None w = (Ret l, w2).
Proof.
  intros Hp H1 Hc H2 Hl. unfold run_ex. cbn [program proc_list fold_m]. unfold start_program.
  run. unfold on_env. cbn. rewrite Hp, H1. cbn. rewrite Hc, H2. cbn. by rewrite two_columns_text.
Qed.

(** The peers given to [mk-consul-env] are the data nodes that [jq] lists, without
    the local node, in the order of the list, for every list of names and
    addresses without white space. *)
Theorem configure_reads_peers node_name f (w w1 w2 : W) h l :
  popen ["jq"; "-r"; servers_selector; f] None None (env w) = (Ret h, env w1) ->
  set_env (env w1) w = w1 ->
  proc_communicate h None None (env w1) = (Ret (0, columns_text l, ""), env w2) ->
  set_env (env w2) w1 = w2 ->
  Forall (fun x => plain_word x.1 /\ plain_word x.2 /\ x.1 <> "") l ->
  exists nodes, get_data_nodes_of f w = (Ret nodes, w2)
    /\ join_peers_opt node_name nodes =
       concat ((fun x => ["--join"; x.2]) <$> List.filter (fun x => negb (String.eqb x.1 node_name)) l).
Proof.
  intros Hp H1 Hc H2 Hl. exists l. split; [| apply join_peers_spec].
  by apply (run_columns _ w w1 w2 h l Hp H1 Hc H2).
Qed.
End NodeName.

(** ** Witness and observation *)
Definition conf_site (outputs : list (string * (Z * string))) : site :=
  mkSite (server_of []) [] [] None "h" outputs [] [] [].

Definition jq_outputs : list (string * (Z * string)) :=
  [(command ["jq"; "-r"; servers_selector; "a.json"],
    (0, columns_text [("n1", "10.0.0.1"); ("n2", "10.0.0.2")]))].

Lemma configure_reads_peers_witness :
  exists nodes w2, get_data_nodes_of "a.json" (world_init (conf_site jq_outputs) None 3) = (Ret nodes, w2)
    /\ join_peers_opt "n1" nodes = ["--join"; "10.0.0.2"].
Proof.
  pose (w := world_init (conf_site jq_outputs) None 3).
  pose (w1 := (on_env (popen ["jq"; "-r"; servers_selector; "a.json"] None None) w).2).
  destruct (configure_reads_peers "n1" "a.json" w w1 w1 0 [("n1", "10.0.0.1"); ("n2", "10.0.0.2")])
    as (nodes & E1 & E2).
  - vm_compute. reflexivity.
  - reflexivity.
  - vm_compute. reflexivity.
  - reflexivity.
  - by repeat constructor.
  - exists nodes, w1. split; [exact E1 | exact E2].
Defined.

(** [all_ips.find(hostname)] accepts an address that is the beginning of a local
    one: the first node of the list is taken for the local one. *)
Definition ip_outputs : list (string * (Z * string)) :=
  [(command ["jq"; "-r"; nodes_selector; "/c/consul-agents.json"],
    (0, columns_text [("10.0.0.1", "10.0.0.1"); ("10.0.0.12", "10.0.0.12")]));
   ("hostname", (0, "host12" +:+ lf_str)); ("hostname --fqdn", (0, "host12.local" +:+ lf_str));
   ("hostname -I", (0, "10.0.0.12 " +:+ lf_str))].

Example address_prefix_taken_for_local :
  (create_node_name (mkAppCtx "" "/c" "" "" true None "libfab") "/c/consul-agents.json"
     (world_init (conf_site ip_outputs) None 3)).1 = Ret "10.0.0.1".
Proof. vm_compute. reflexivity. Qed.
