(* ===== verification/Starters.v ===== *)
(** * The threads and the unit file of the provisioner
      ([consul_starter.py], [hax_starter.py], [systemd.py] of [hare_mp])

    A starter runs its program until it ends, then sets the event the main thread
    waits for and the attribute [hare_stop] of the shared [Utils] object.
    [Starters] is what the code uses of [threading] and [subprocess]. *)

From S2P Require Import Prelude PyStr Json HaxTypes Message LinkedList Planner Delivery World.
From S2P Require Import Cache ConsulStore Consul Exec Motr.

(** A thread object and the process it runs are named by handles. *)
Class Starters (E : Type) := {
  starter_start : list string -> M E nat;          (* Thread.start() of a new starter *)
  starter_process : nat -> M E (option nat);       (* its attribute [process] *)
  starter_join : nat -> M E unit;
  proc_terminate : nat -> M E unit;
  proc_kill : nat -> M E unit;
  open_log : string -> M E unit;                   (* RotatingFileHandler(log_file) *)
  set_hare_stop : M E unit;                        (* self.hare_stop = True *)
  get_hare_stop : M E (option bool);               (* [None]: no such attribute *)
}.

Section Starters.
Context {E : Type} `{Host E} `{Starters E} `{Others E} `{Fuel}.
Notation W := (World E).

Definition stop_hare : M W unit := on_env set_hare_stop.

Definition is_hare_stopping : M W bool :=
  b ← on_env get_hare_stop;
  match b with Some v => mret v | None => raise AttributeError end.

(** [Popen] returns at once: the exit code is not known, nothing is raised. *)
Definition execute_no_communicate (cmd : list string) (e : environ) : M W nat :=
  on_env (popen cmd None e).

(** [except Exception: pass] *)
Definition ignore_errors (m : M W unit) : M W unit := catch m (fun _ => Some (mret tt)).

(** [stop] of the two classes. *)
Definition consul_stop (starter : nat) : M W unit :=
  ignore_errors (p ← on_env (starter_process starter);
                 match p with Some h => on_env (proc_terminate h) | None => mret tt end).
Definition hax_stop (starter : nat) : M W unit :=
  ignore_errors (p ← on_env (starter_process starter);
                 match p with Some h => on_env (proc_kill h) | None => mret tt end).

(** One turn of [while restart]: [inl] the process that ended, or [inr] the
    attribute [process] for the next turn. *)
Definition starter_turn (cmd : list string) (e : environ) (process : option nat)
    : W -> (nat + option nat) * W + (outcome unit * W) := fun w =>
  match (match process with Some h => on_env (proc_terminate h) | None => mret tt end) w with
  | (Ret _, w1) =>
      match execute_no_communicate cmd e w1 with
      | (Ret h, w2) =>
          match on_env (proc_communicate h None None) w2 with
          | (Ret _, w3) => inl (inl h, w3)
          | (Raise _, w3) => inl (inr (Some h), w3)
          | (Hang, w3) => inr (Hang, w3)
          end
      | (Raise _, w2) => inl (inr process, w2)
      | (Hang, w2) => inr (Hang, w2)
      end
  | (Raise _, w1) => inl (inr process, w1)
  | (Hang, w1) => inr (Hang, w1)
  end.

Fixpoint starter_loop (n : nat) (cmd : list string) (e : environ) (process : option nat) : M W unit :=
  match n with
  | O => hang
  | S n' => fun w =>
      match starter_turn cmd e process w with
      | inl (inl _, w1) => (Ret tt, w1)
      | inl (inr p, w1) => starter_loop n' cmd e p w1
      | inr r => r
      end
  end.

(** [_execute]: errors are logged; at the end the event is set first, then the
    attribute. *)
Definition starter_execute (log_file : string) (cmd : M W (list string * environ)) (stop_event : nat)
    : M W unit :=
  try_finally
    (ignore_errors (on_env (open_log log_file) ;;
                    '(c, e) ← cmd;
                    starter_loop fuel c e None))
    (set_flag stop_event ;; stop_hare).

Record ConsulArgs : Type := mkConsulArgs {
  ca_log_dir : string; ca_data_dir : string; ca_config_dir : string; ca_node_name : string;
  ca_node_id : string; ca_peers : list string; ca_bind_addr : string }.

Definition consul_cmd (a : ConsulArgs) : list string :=
  ["consul"; "agent"; "-bind=" +:+ ca_bind_addr a; "-advertise=" +:+ ca_bind_addr a;
   "-client=127.0.0.1 " +:+ ca_bind_addr a; "-datacenter=dc1"; "-data-dir=" +:+ ca_data_dir a;
   "-enable-script-checks"; "-config-dir=" +:+ ca_config_dir a; "-node=" +:+ ca_node_name a;
   "-node-id=" +:+ ca_node_id a; "-domain=consul"]
  ++ ((fun peer => "-retry-join=" +:+ peer) <$> ca_peers a).

Definition consul_execute (a : ConsulArgs) (stop_event : nat) : M W unit :=
  starter_execute (ca_log_dir a +:+ "/hare-consul.log") (mret (consul_cmd a, None)) stop_event.

Definition hax_environ : M W (list string * environ) :=
  path ← on_env (os_getenv "PATH");
  sys ← on_env sys_path;
  mret (["hax"],
        Some [("PYTHONPATH", py_join ":" sys);
              ("PATH", default "" path +:+ ":/opt/seagate/cortx/hare/bin"
                         +:+ ":/opt/seagate/cortx/hare/libexec");
              ("LC_ALL", "en_US.utf-8"); ("LANG", "en_US.utf-8")]).

Definition hax_execute (log_dir : string) (stop_event : nat) : M W unit :=
  starter_execute (log_dir +:+ "/hare-hax.log") hax_environ stop_event.
End Starters.

(** ** The unit file *)
Definition restart_line (line : string) : bool :=
  bool_decide (is_Some (strip_lit (chars "Restart=") (drop_space (chars line)))).

(** [HaxUnitTransformer.transform] *)
Definition transform (contents : list string) : list string :=
  (fun line => if restart_line line
               then "# " +:+ line +:+ " # - Added by Hare Mini Provisioner" else line) <$> contents.

(** [f.readlines()]: the lines keep their newline. *)
Fixpoint read_lines (l cur : list ascii) : list string :=
  match l with
  | [] => match cur with [] => [] | _ => [string_of_list_ascii (rev cur)] end
  | c :: l' =>
      if Ascii.eqb c lf then string_of_list_ascii (rev (c :: cur)) :: read_lines l' []
      else read_lines l' (c :: cur)
  end.

(** The text [update_hax_unit] writes for the text it reads. *)
Definition unit_text (text : string) : string := py_join lf_str (transform (read_lines (chars text) [])).

Lemma commented_not_restart line : restart_line ("# " +:+ line) = false.
Proof. reflexivity. Qed.

(** Transforming the lines twice is transforming them once. *)
Lemma transform_idempotent contents : transform (transform contents) = transform contents.
Proof.
  unfold transform. rewrite <- list_fmap_compose. apply list_fmap_ext. intros i line _. cbn.
  destruct (restart_line line) eqn:El; [| by rewrite El].
  by rewrite (commented_not_restart (line +:+ " # - Added by Hare Mini Provisioner")).
Qed.

(** The newlines kept by [readlines] are joined by further ones: every line of the
    unit file is followed by an empty one, and the annotation of a commented line
    is a line of its own. *)
Example unit_text_doubles_newlines :
  unit_text ("[Service]" +:+ lf_str +:+ "Restart=always" +:+ lf_str +:+ "User=hare" +:+ lf_str)
  = "[Service]" +:+ lf_str +:+ lf_str +:+ "# Restart=always" +:+ lf_str
    +:+ " # - Added by Hare Mini Provisioner" +:+ lf_str +:+ "User=hare" +:+ lf_str.
Proof. vm_compute. reflexivity. Qed.

(** ** What a starter signals *)
Section StarterProps.
Context {E : Type} `{Host E} `{Starters E} `{Others E} `{Fuel}.
Notation W := (World E).

Lemma starter_loop_outcome n cmd e p (w : W) r w' :
  starter_loop n cmd e p w = (r, w') -> r = Ret tt \/ r = Hang.
Proof.
  revert p w. induction n as [| n IH]; intros p w; cbn; [intros [= <- _]; by right|].
  unfold starter_turn. repeat case_match; intros Er; simplify_eq; eauto.
Qed.

(** [try: ... except Exception: ... finally: f] for an [f] that does not fail. *)
Lemma ignore_finally (P : W -> Prop) (m f : M W unit) (w : W) r w' :
  (forall v, exists v', f v = (Ret tt, v') /\ P v') ->
  try_finally (ignore_errors m) f w = (r, w') -> r <> Hang -> r = Ret tt /\ P w'.
Proof.
  intros Hf. unfold try_finally, ignore_errors, catch. destruct (m w) as [o w1].
  destruct (Hf w1) as (w2 & E2 & Hp). destruct o as [[] | x |].
  - rewrite E2. by intros [= <- <-] _.
  - cbn. unfold mret, M_ret. rewrite E2. by intros [= <- <-] _.
  - by intros [= <- _].
Qed.

(** However a starter ends, the event the main thread waits for is set, and
    no exception leaves the thread: if it ends, it ends normally. *)
Theorem starter_always_signals log_file cmd ev (w : W) r w' :
  (forall e, exists e', set_hare_stop e = (Ret tt, e')) ->
  starter_execute log_file cmd ev w = (r, w') -> r <> Hang ->
  r = Ret tt /\ ev ∈ events_set w'.
Proof.
  intros Hs. apply (ignore_finally (fun v => ev ∈ events_set v)). intros v. unfold stop_hare, set_flag, on_env. run.
  destruct (Hs (env v)) as [e' ->]. eexists. split; [reflexivity|]. cbn. set_solver.
Qed.

(** A program that cannot be started is tried again at once, for ever. *)
Lemma starter_spins n cmd e (w : W) :
  (forall en, exists x, popen cmd None e en = (Raise x, en)) ->
  (starter_loop n cmd e None w).1 = Hang.
Proof.
  intros Hp. revert w. induction n as [| n IH]; intros w; [done|]. cbn. unfold starter_turn. run.
  unfold execute_no_communicate, on_env. destruct (Hp (env w)) as [x ->]. cbn. apply IH.
Qed.
End StarterProps.

(** ** The end of the main thread

    [start_hax_and_consul_without_systemd] waits for the event and then reads
    [hare_stop]; a starter sets the event and then [hare_stop], which no
    constructor initialises.  The interleavings of the two threads: *)
Inductive starter_pc : Type := SRunning | SEventSet | SDone.
Inductive main_pc : Type := MWaiting | MWoken | MStopping | MReturned | MAttributeError.

Record stop_state : Type := mkStop {
  ss_event : bool; ss_hare_stop : option bool; ss_starter : starter_pc; ss_main : main_pc }.

Inductive stop_step : stop_state -> stop_state -> Prop :=
| step_event b h m : stop_step (mkStop b h SRunning m) (mkStop true h SEventSet m)
| step_flag b h m : stop_step (mkStop b h SEventSet m) (mkStop b (Some true) SDone m)
| step_wake h s : stop_step (mkStop true h s MWaiting) (mkStop true h s MWoken)
| step_read b h s : stop_step (mkStop b h s MWoken)
    (mkStop b h s (match h with
                   | None => MAttributeError
                   | Some true => MStopping
                   | Some false => MReturned
                   end)).

Definition stop_init : stop_state := mkStop false None SRunning MWaiting.

(** The event is set before the attribute exists, and the main thread moves only
    once the event is set. *)
Definition stop_inv (s : stop_state) : Prop :=
  (ss_starter s = SRunning -> ss_event s = false /\ ss_hare_stop s = None /\ ss_main s = MWaiting)
  /\ (ss_starter s = SEventSet -> ss_hare_stop s = None)
  /\ (ss_starter s = SDone -> ss_hare_stop s = Some true)
  /\ ss_main s <> MReturned.

Lemma stop_inv_reachable s : rtc stop_step stop_init s -> stop_inv s.
Proof.
  intros Hs. refine (rtc_ind_r (fun s => stop_inv s) stop_init _ _ s Hs); [by unfold stop_inv|].
  intros x y _ Hstep (H1 & H2 & H3 & H4). destruct Hstep as [b h m | b h m | h sp | b h sp];
    unfold stop_inv; cbn in *.
  - split_and!; try done. intros _. by apply H1.
  - by split_and!.
  - split_and!; try done. intros ->. by destruct (H1 eq_refl).
  - split_and!; try done.
    + intros ->. by destruct (H1 eq_refl) as (_ & _ & ?).
    + destruct sp; [by destruct (H1 eq_refl) as (_ & -> & _) | by rewrite H2 | by rewrite H3].
Qed.

(** The main thread can read [hare_stop] before the starter has set it: the
    state in which it fails with [AttributeError], so that neither Consul nor
    hax is stopped, is reachable; the failing read happens exactly between the
    two statements of the starter. *)
Theorem stop_race :
  (exists s, rtc stop_step stop_init s /\ ss_main s = MAttributeError)
  /\ forall s s', rtc stop_step stop_init s -> stop_step s s' ->
       ss_main s <> MAttributeError -> ss_main s' = MAttributeError -> ss_starter s = SEventSet.
Proof.
  split.
  - exists (mkStop true None SEventSet MAttributeError). split; [| done].
    eapply rtc_l; [apply (step_event false None MWaiting)|].
    eapply rtc_l; [apply step_wake|]. eapply rtc_l; [apply step_read | done].
  - intros s s' Hr Hstep Hn Hm. pose proof (stop_inv_reachable s Hr) as (H1 & H2 & H3 & _).
    destruct Hstep as [b h m | b h m | h sp | b h sp]; cbn in *; try done.
    destruct sp; [| done |].
    + by destruct (H1 eq_refl) as (_ & _ & ?).
    + by rewrite (H3 eq_refl) in Hm.
Qed.
