(* ===== verification/Provision.v ===== *)
(** * The commands of the mini-provisioner
      ([src/provisioning/miniprov/hare_mp/main.py])

    The phases [post_install], [prepare], [config], [init], [start], [test],
    [reset], [cleanup] and [support_bundle].  [ProvApi] is what they use of
    [psutil], [uuid], [socket], [subprocess.run] and [yaml].  Commands started in
    parallel are run one after the other; the texts of the errors that are
    wrapped in a [RuntimeError] are left out. *)

From S2P Require Import Prelude PyStr Json HaxTypes Message LinkedList Planner Delivery World.
From S2P Require Import Cache ConsulStore Consul ConsulUtil ConfTree ProcStatus Motr Dhall CdfTypes.
From S2P Require Import Exec ConfStore MpUtils Cdf Sysconf Starters.

Class ProvApi (E : Type) := {
  process_names : M E (list string);                 (* psutil.process_iter() *)
  uuid4 : M E string;
  gethostbyname : string -> M E string;
  subprocess_run : list string -> M E (Z * string);  (* check=True raises on failure *)
  yaml_load : string -> outcome json;
}.

(** The parsed command line. *)
Record Args : Type := mkArgs {
  a_config : string; a_file : option string; a_systemd : bool; a_pre_factory : bool;
  a_configure_logrotate : bool; a_bundle : option string; a_target : option string }.

Definition CONF_DIR_EXT : string := "/hare/config/".
Definition LOG_FILE : string := "setup.log".

(** [s.replace(old, new)] for a non-empty [old]. *)
Fixpoint replace_l (n : nat) (old new l : list ascii) : list ascii :=
  match n with
  | O => l
  | S n' =>
      match l with
      | [] => []
      | c :: l' =>
          match strip_lit old l with
          | Some r => new ++ replace_l n' old new r
          | None => c :: replace_l n' old new l'
          end
      end
  end.
Definition py_replace (old new s : string) : string :=
  string_of_list_ascii (replace_l (length (chars s)) (chars old) (chars new) (chars s)).

(** [s + t] where [s] must be a text. *)
Definition concat_text (v : json) : outcome string :=
  match v with JStr s => Ret s | _ => Raise TypeError end.

(** ** The services of [hctl status] *)

(** The statuses 'started' of each service of a node, by name. *)
Definition node_services (node : json) : outcome (list (string * json)) :=
  svcs ← jget "svcs" node;
  l ← json_iter svcs;
  foldl (fun acc service =>
    d ← acc;
    name ← jget "name" service;
    let n := py_str name in
    let have := default [] (match dict_find n d with Some (JArr x) => Some x | _ => None end) in
    status ← jget "status" service;
    Ret (dict_set n (JArr (if json_is "started" status then have ++ [status] else have)) d))
    (Ret []) l.

Definition list2dict (nodes_data_hctl : list json) : outcome (list (string * json)) :=
  foldl (fun acc node =>
    d ← acc;
    info ← node_services node;
    name ← jget "name" node;
    Ret (dict_set (py_str name) (JObj info) d)) (Ret []) nodes_data_hctl.

(** [node_info_dict[node['hostname']][svc]] *)
Definition statuses_of (d : list (string * json)) (node : json) (svc : string) : outcome (list json) :=
  h ← jget "hostname" node;
  let host := py_str h in
  n ← dict_get host (dict_find host d); v ← jget svc n; json_iter v.

(** The loop over the servers of a node: [inl] the value returned, or [inr] the
    number of io services seen. *)
Definition server_status (d : list (string * json)) (node : json) (acc : outcome (Z + nat)) (m0d : json)
    : outcome (Z + nat) :=
  r ← acc;
  match r with
  | inl rc => Ret (inl rc)
  | inr ios_cnt =>
      keys ← jkeys m0d;
      bad ← (if bool_decide ("runs_confd" ∈ keys)
             then l ← statuses_of d node "confd"; x ← index_get 0 l; Ret (negb (json_is "started" x))
             else Ret false);
      if (bad : bool) then Ret (inl (-1)) else
      disks ← jget2 "io_disks" "data" m0d;
      if truthy disks then
        l ← statuses_of d node "ioservice";
        x ← index_get ios_cnt l;
        if json_is "started" x then Ret (inr (S ios_cnt)) else Ret (inl (-1))
      else Ret (inr ios_cnt)
  end.

Definition node_status (d : list (string * json)) (acc : outcome (option Z)) (node : json)
    : outcome (option Z) :=
  r ← acc;
  match r with
  | Some rc => Ret (Some rc)
  | None =>
      s3 ← jget2 "m0_clients" "s3" node;
      s3_cnt ← int_of s3;
      m0ds ← jget_or "m0_servers" (JArr []) node;
      l ← json_iter m0ds;
      res ← foldl (server_status d node) (Ret (inr 0%nat)) l;
      match res with
      | inl rc => Ret (Some rc)
      | inr _ =>
          if s3_cnt =? 0 then Ret None
          else s ← statuses_of d node "s3server";
               if Z.of_nat (length s) =? s3_cnt then Ret None else Ret (Some (-1))
      end
  end.

Definition cluster_status (cluster_desc cluster_info : json) : outcome Z :=
  nodes ← jget "nodes" cluster_info;
  nodes_l ← json_iter nodes;
  d ← list2dict nodes_l;
  descs ← jget "nodes" cluster_desc;
  descs_l ← json_iter descs;
  r ← foldl (node_status d) (Ret None) descs_l;
  Ret (default 0 r).

Definition nr_services_of (cluster_info : json) : outcome Z :=
  nodes ← jget "nodes" cluster_info;
  l ← json_iter nodes;
  n ← foldl (fun acc node =>
        k ← acc;
        svcs ← jget "svcs" node;
        sl ← json_iter svcs;
        foldl (fun acc svc =>
          k ← acc;
          name ← jget "name" svc;
          Ret (if json_is "confd" name || json_is "ioservice" name || json_is "s3server" name
               then k + 1 else k)) (Ret k) sl) (Ret 0) l;
  Ret (n + 1).

Definition str2bool (v : json) : outcome bool :=
  match v with
  | JBool b => Ret b
  | JStr s =>
      if bool_decide (py_lower s ∈ ["yes"; "true"; "t"; "1"]) then Ret true
      else if bool_decide (py_lower s ∈ ["no"; "false"; "f"; "0"]) then Ret false
      else Raise (OtherException "Boolean value expected.")
  | _ => Raise AttributeError
  end.

Definition provision_keys : list KeyDelete :=
  [mkKeyDelete "epoch" false; mkKeyDelete "eq-epoch" false; mkKeyDelete "last_fidk" false;
   mkKeyDelete "leader" false; mkKeyDelete "m0conf/" true; mkKeyDelete "processes/" true;
   mkKeyDelete "stats/" true; mkKeyDelete "mkfs/" true; mkKeyDelete "bytecount/" true;
   mkKeyDelete "config_path" false; mkKeyDelete "failvec" false; mkKeyDelete "m0_client_types" true].

Section Provision.
Context {E : Type} `{ConsulApi E} `{ConfApi E} `{CortxConst} `{Host E} `{CdfResource E}.
Context `{Starters E} `{ProvApi E} `{Others E} `{Fuel}.
Notation W := (World E).

(** [except Exception] around a value. *)
Definition or_else {A} (m : M W A) (dflt : A) : M W A := catch m (fun _ => Some (mret dflt)).
(** [except Exception as error: raise RuntimeError(...)] *)
Definition wrap_error {A} (message : string) (m : M W A) : M W A :=
  catch m (fun _ => Some (raise (RuntimeError message))).

(** [while not m: sleep(...)] *)
Fixpoint wait_until (n : nat) (m : M W bool) : M W unit :=
  match n with
  | O => hang
  | S n' => done ← m; if (done : bool) then mret tt else sleep ;; wait_until n' m
  end.

(** ** Directories and logs *)
Definition get_log_dir (url : string) : M W string :=
  ConfStoreProvider url ;;
  machine_id ← get_machine_id;
  log_path ← provider_get "cortx>common>storage>log" false;
  s ← lift (concat_text log_path);
  mret (s +:+ LOG_DIR_EXT +:+ machine_id).

Definition get_config_dir (url : string) : M W string :=
  ConfStoreProvider url ;;
  machine_id ← get_machine_id;
  config_path ← provider_get "cortx>common>storage>local" false;
  s ← lift (concat_text config_path);
  mret (s +:+ CONF_DIR_EXT +:+ "/" +:+ machine_id).

Definition is_cluster_running : M W bool :=
  rc ← on_env (os_system "hctl status >/dev/null"); mret (rc =? 0).

Fixpoint shutdown_loop (n : nat) : M W unit :=
  match n with
  | O => hang
  | S n' =>
      up ← is_cluster_running;
      if (up : bool) then on_env (os_system "hctl shutdown --skip-consul-stop") ;; shutdown_loop n'
      else mret tt
  end.
Definition shutdown_cluster : M W unit := shutdown_loop fuel.

Definition create_logger_directory (log_dir : string) : M W unit :=
  ok ← on_env (path_isdir log_dir);
  if (ok : bool) then mret tt
  else catch (on_env (os_makedirs log_dir)) (fun _ =>
         Some (shutdown_cluster ;; raise (RuntimeError "Failed to create log directory "))).

Definition setup_logging (url : string) : M W unit :=
  ConfStoreProvider url ;;
  machine_id ← get_machine_id;
  log_path ← provider_get "cortx>common>storage>log" false;
  s ← lift (concat_text log_path);
  create_logger_directory (s +:+ LOG_DIR_EXT +:+ machine_id +:+ "/hare_deployment/").

Definition get_data_from_provisioner_cli (method output_format : string) : M W json :=
  r ← or_else ('(rc, out) ← on_env (subprocess_run ["provisioner"; method; "--out=" +:+ output_format]);
               mret (Some (rc, out))) None;
  match r with
  | None => mret (JStr "unknown")
  | Some (rc, res) =>
      if negb (rc =? 0) then mret (JStr "unknown")
      else if String.eqb res "" then mret (JStr "unknown")
      else v ← lift (loads res); lift (jget "ret" v)
  end.

Definition get_server_type (url : string) : M W string :=
  or_else (ConfStoreProvider url ;;
           server_type ← provider_get "cortx>common>setup_type" false;
           mret (if json_is "HW" server_type then "physical" else "virtual")) "unknown".

Definition is_mkfs_required (url : string) : M W bool :=
  or_else (ConfStoreProvider url ;; machine_id ← get_machine_id; is_motr_io_present machine_id) false.

Definition write_logrotate (template url : string) : M W unit :=
  content ← on_env (read_file ("/opt/seagate/cortx/hare/conf/logrotate/" +:+ template));
  log_dir ← get_log_dir url;
  on_env (write_file "/etc/logrotate.d/hare" (py_replace "TMP_LOG_PATH" log_dir content)).

Definition logrotate_generic (url : string) : M W unit := or_else (write_logrotate "hare" url) tt.

Definition logrotate (url : string) : M W unit :=
  or_else (server_type ← get_server_type url;
           if String.eqb server_type "unknown" then mret tt else write_logrotate server_type url) tt.

Definition ensure_dir (dir : string) : M W unit :=
  ok ← on_env (path_exists dir); if (ok : bool) then mret tt else on_env (os_makedirs dir).

Definition create_consul_namespace (hare_local_dir : string) : M W unit :=
  ensure_dir (hare_local_dir +:+ "/consul/log") ;;
  ensure_dir (hare_local_dir +:+ "/consul/data") ;;
  ensure_dir (hare_local_dir +:+ "/consul/config").

Definition has_process_started (proc_name : string) : M W bool :=
  names ← on_env process_names;
  mret (existsb (fun n => py_in (py_lower proc_name) (py_lower n)) names).
Definition has_process_stopped (proc_name : string) : M W bool :=
  b ← has_process_started proc_name; mret (negb b).

(** ** Consul and hax *)
Definition save_consul_node_name (consul_nodename : string) (hostname : json) : M W bool :=
  repeat_if_fails (-1) (kv_put ("consul/node/" +:+ py_str hostname) consul_nodename None None).

(** The tcp endpoints of Consul without their scheme. *)
Definition consul_peers (num_ep : Z) : M W (list string) :=
  fold_m (fun peers i =>
    endpoint ← provider_get ("cortx>external>consul>endpoints[" +:+ dec_str i +:+ "]") false;
    s ← lift (need_str endpoint);
    let key := py_split "/" s in
    mret (if String.eqb (default "" (key !! 0%nat)) "tcp:" then peers ++ [py_join "/" (drop 2 key)]
          else peers)) [] (py_range num_ep).

Definition start_consul (hare_local_dir hare_log_dir url : string) : M W nat :=
  ConfStoreProvider url ;;
  node_id ← on_env uuid4;
  num_ep ← get_int "cortx>external>consul>num_endpoints";
  hostname ← get_local_hostname;
  peers ← consul_peers num_ep;
  bind_addr ← on_env (gethostbyname (py_str hostname));
  h ← lift (concat_text hostname);
  let consul_nodename := h +:+ ":" +:+ string_of_list_ascii (take 8 (chars node_id)) in
  starter ← on_env (starter_start (consul_cmd (mkConsulArgs hare_log_dir
    (hare_local_dir +:+ "/consul/data") (hare_local_dir +:+ "/consul/config") consul_nodename
    node_id peers bind_addr)));
  save_consul_node_name consul_nodename hostname ;;
  mret starter.

Definition stop_consul (starter : nat) : M W bool :=
  or_else (consul_stop starter ;; on_env (starter_join starter) ;; mret true) false.
Definition stop_consul_blocking (starter : nat) : M W unit := wait_until fuel (stop_consul starter).

Definition start_hax (hare_local_dir hare_log_dir : string) : M W nat :=
  ensure_dir hare_local_dir ;; ensure_dir hare_log_dir ;; on_env (starter_start ["hax"]).

Definition stop_hax (starter : nat) : M W bool :=
  or_else (hax_stop starter ;; on_env (starter_join starter) ;; mret true) false.
Definition stop_hax_blocking (starter : nat) : M W unit := wait_until fuel (stop_hax starter).

(** ** Phases *)
Definition checkRpm (rpm_name : string) : M W unit :=
  rpm_list ← on_env (popen ["rpm"; "-qa"] None None);
  rpm_search ← on_env (popen ["grep"; "-q"; rpm_name] (Some rpm_list) None);
  '(code, _, _) ← on_env (proc_communicate rpm_search None None);
  if code =? 0 then mret tt else raise (RuntimeError "rpm is missing").

Definition post_install (args : Args) : M W unit :=
  for_each ["cortx-motr"; "consul"; "cortx-hare"; "cortx-py-utils"] checkRpm ;;
  if a_configure_logrotate args then logrotate_generic (a_config args) else mret tt.

Definition enable_hare_consul_agent : M W unit :=
  execute ["systemctl"; "enable"; "hare-consul-agent"] None ;; mret tt.
Definition disable_hare_consul_agent : M W unit :=
  execute ["systemctl"; "disable"; "hare-consul-agent"] None ;; mret tt.

Definition prepare (args : Args) : M W unit :=
  let url := a_config args in
  ConfStoreProvider url ;;
  conf_dir ← get_config_dir url;
  log_dir ← get_log_dir url;
  create_consul_namespace conf_dir ;;
  consul_starter ← start_consul conf_dir log_dir url;
  save_ssl_config ;;
  save_config_path url ;;
  save_log_path ;;
  save_node_facts ;;
  save_drives_info ;;
  or_else (sess ← get_leader_session_no_wait; destroy_session sess) tt ;;
  stop_consul_blocking consul_starter.

Definition get_hare_motr_s3_processes : M W (list (string * list Fid)) :=
  nodes ← get_node_names;
  fold_m (fun processes node => l ← get_node_hare_motr_s3_fids node; mret (dict_set node l processes))
    [] nodes.

Definition bootstrap_cluster (path_to_cdf : string) (domkfs : bool) : M W Z :=
  on_env (os_system (if domkfs then "hctl bootstrap --mkfs " +:+ path_to_cdf
                     else "hctl bootstrap " +:+ path_to_cdf)).

(** The state of one process: [None] goes on, [Some false] ends the test. *)
Definition process_started (node : string) (proc_fid : Fid) : M W bool :=
  proc_state ← kv_get (node +:+ "/processes/" +:+ fid_repr proc_fid) (Some true) (Some true) None;
  if kv_truthy proc_state then
    l ← lift (items_of proc_state);
    i ← lift (index_get 0 l);
    s ← lift (decode_value (Value i));
    v ← lift (loads s);
    state ← lift (jget "state" v);
    mret (json_is "M0_CONF_HA_PROCESS_STARTED" state || json_is "M0_CONF_HA_PROCESS_DTM_RECOVERED" state)
  else mret false.

Definition all_services_started (processes : list (string * list Fid)) : M W bool :=
  repeat_if_fails (-1)
    (match processes with
     | [] => mret false
     | _ =>
         fold_m (fun (ok : bool) '(node, fids) =>
           fold_m (fun (ok : bool) f => if ok then process_started node f else mret false) ok fids)
           true processes
     end).

Fixpoint some_processes (n : nat) : M W (list (string * list Fid)) :=
  match n with
  | O => hang
  | S n' => p ← get_hare_motr_s3_processes; match p with [] => some_processes n' | _ => mret p end
  end.

Definition wait_for_cluster_start (url : string) : M W unit :=
  processes ← some_processes fuel; wait_until fuel (all_services_started processes).

Definition cdf_of (args : Args) : M W string :=
  match a_file args with
  | Some f => mret f
  | None => d ← get_config_dir (a_config args); mret (d +:+ "/cluster.yaml")
  end.

(** [if not is_cluster_running() and bootstrap_cluster(...): raise] *)
Definition ensure_bootstrapped (path_to_cdf : string) (domkfs : bool) : M W unit :=
  up ← is_cluster_running;
  if (up : bool) then mret tt
  else rc ← bootstrap_cluster path_to_cdf domkfs;
       if rc =? 0 then mret tt else raise (RuntimeError "Failed to bootstrap the cluster").

Definition init_with_bootstrap (args : Args) : M W unit :=
  ConfStoreProvider (a_config args) ;;
  disable_hare_consul_agent ;;
  first ← is_first_node_in_cluster;
  (if (first : bool) then
     path_to_cdf ← cdf_of args;
     ensure_bootstrapped path_to_cdf true ;;
     wait_for_cluster_start (a_config args) ;;
     shutdown_cluster
   else mret tt) ;;
  enable_hare_consul_agent.

Definition start_hax_with_systemd : M W unit := execute ["systemctl"; "start"; "hare-hax"] None ;; mret tt.
Definition start_crond : M W unit := execute ["/usr/sbin/crond"; "start"] None ;; mret tt.

(** [Event.wait()] *)
Fixpoint event_wait (n : nat) (ev : nat) : M W unit := fun w =>
  if bool_decide (ev ∈ events_set w) then (Ret tt, w)
  else match n with O => (Hang, w) | S n' => event_wait n' ev (others w) end.

Definition start_hax_and_consul_without_systemd (url : string) (ev : nat) : M W unit :=
  conf_dir ← get_config_dir url;
  log_dir ← get_log_dir url;
  consul_starter ← start_consul conf_dir log_dir url;
  hax_starter ← start_hax conf_dir log_dir;
  event_wait fuel ev ;;
  stop ← is_hare_stopping;
  if (stop : bool) then stop_consul_blocking consul_starter ;; stop_hax_blocking hax_starter
  else mret tt.

Definition start (args : Args) (ev : nat) : M W unit :=
  ConfStoreProvider (a_config args) ;;
  logrotate_generic (a_config args) ;;
  start_crond ;;
  if a_systemd args then start_hax_with_systemd
  else start_hax_and_consul_without_systemd (a_config args) ev.

(** *** init *)
Record ProcessStartInfo : Type := mkStartInfo { ps_cmd : list string; ps_hostname : string; ps_fid : string }.

Definition start_mkfs (proc_to_start : ProcessStartInfo) : M W Z :=
  or_else (execute (ps_cmd proc_to_start) None ;; mret 0) (-1).

Definition start_mkfs_parallel (hostname hare_config_dir : string) : M W unit :=
  let src := hare_config_dir +:+ "/sysconfig/motr/" +:+ hostname in
  files ← on_env (os_listdir src);
  for_each files (fun f => on_env (copy_file (src +:+ "/" +:+ f) "/etc/sysconfig/")) ;;
  generator ← make_generator hostname hare_config_dir (Some (hare_config_dir +:+ "/consul-kv.json"));
  cmd_list ← fold_m (fun acc svc =>
    svc_fids ← get_svc_fids generator svc;
    mret (acc ++ ((fun fid => mkStartInfo ["/usr/libexec/cortx-motr/motr-mkfs"; fid; "--conf"]
                                hostname fid) <$> svc_fids))) [] ["confd"; "ios"];
  ret_values ← map_m start_mkfs cmd_list;
  if forallb (fun rc => rc =? 0) ret_values then mret tt
  else raise (RuntimeError "One or more mkfs processes failed to start. ").

Definition mkfs_key (node : json) : string := "mkfs_done/" +:+ py_str node.

Definition is_mkfs_done_on_all_nodes (nodes : list json) : M W bool :=
  repeat_if_fails (-1)
    (fold_m (fun (ok : bool) node =>
       if ok then d ← kv_get (mkfs_key node) (Some true) (Some true) None; mret (kv_truthy d)
       else mret false) true nodes).

(** A transaction that deletes one tree; its failure is logged. *)
Definition delete_tree (name : string) : M W unit :=
  kv_delete_in_transaction [mkKeyDelete name true] ;; mret tt.

Definition cleanup_mkfs_state : M W unit :=
  repeat_if_fails (-1) (hostname ← get_local_hostname; delete_tree (mkfs_key hostname)).

Definition set_mkfs_done_for (node : json) : M W bool :=
  repeat_if_fails (-1) (kv_put (mkfs_key node) "true" None None).

(** The mkfs of this node, when it is needed; [hax] is the starter started for it. *)
Definition init_mkfs (hostname : json) (config_dir : string) (hax : option nat) : M W unit :=
  match hax with
  | None => mret tt
  | Some _ =>
      cleanup_mkfs_state ;;
      start_mkfs_parallel (py_str hostname) config_dir ;;
      set_mkfs_done_for hostname ;;
      mret tt
  end.

(** The loop that waits for the other nodes. *)
Definition mkfs_barrier : M W unit :=
  data_nodes ← get_hostnames_for_service SERVICE_MOTR_IO;
  wait_until fuel (is_mkfs_done_on_all_nodes data_nodes).

Definition all_ioservices : M W bool :=
  l ← ensure_ioservices_running; mret (forallb (fun b : bool => b) l).

(** [if is_mkfs_required(url): stop_hax_blocking(hax_starter) else: ...] *)
Definition init_finish (url : string) (consul : nat) (hax : option nat) : M W unit :=
  req ← is_mkfs_required url;
  (if (req : bool) then
     match hax with
     | Some h => stop_hax_blocking h
     | None => raise (UnboundLocalError "hax_starter")
     end
   else wait_until fuel all_ioservices) ;;
  stop_consul_blocking consul.

(** The [except] clause tests the local variables [hax_starter] and
    [consul_starter]: one that was never assigned raises. *)
Definition init_handler {A} (consul hax : option nat) : M W A :=
  match hax with
  | None => raise (UnboundLocalError "hax_starter")
  | Some h =>
      stop_hax_blocking h ;;
      match consul with
      | None => raise (UnboundLocalError "consul_starter")
      | Some c => stop_consul_blocking c ;; raise (RuntimeError "Error while initializing cluster ")
      end
  end.

(** The statements up to the start of Consul, and the start of hax on a node that
    needs mkfs. *)
Definition init_consul (url : string) : M W (string * string * nat) :=
  catch (ConfStoreProvider url ;;
         config_dir ← get_config_dir url;
         log_dir ← get_log_dir url;
         c ← start_consul config_dir log_dir url;
         mret (config_dir, log_dir, c))
    (fun _ => Some (init_handler None None)).

Definition init_hax (url config_dir log_dir : string) (consul : nat) : M W (json * option nat) :=
  catch (hostname ← get_local_hostname;
         req ← is_mkfs_required url;
         if (req : bool) then h ← start_hax config_dir log_dir; mret (hostname, Some h)
         else mret (hostname, None))
    (fun _ => Some (init_handler (Some consul) None)).

Definition init (args : Args) : M W unit :=
  let url := a_config args in
  '(config_dir, log_dir, consul) ← init_consul url;
  '(hostname, hax) ← init_hax url config_dir log_dir consul;
  catch (init_mkfs hostname config_dir hax ;; mkfs_barrier ;; init_finish url consul hax)
    (fun _ => Some (init_handler (Some consul) hax)).

(** *** test, reset *)
Definition check_cluster_status (path_to_cdf : string) : M W Z :=
  text ← on_env (read_file path_to_cdf);
  cluster_desc ← lift (yaml_load text);
  out ← execute ["hctl"; "status"; "--json"] None;
  cluster_info ← lift (loads out);
  lift (cluster_status cluster_desc cluster_info).

Definition nr_services : M W Z :=
  out ← execute ["hctl"; "status"; "--json"] None; v ← lift (loads out); lift (nr_services_of v).

Definition test (args : Args) : M W unit :=
  try_finally
    (ConfStoreProvider (a_config args) ;;
     first ← is_first_node_in_cluster;
     if (first : bool) then
       path_to_cdf ← cdf_of args;
       ensure_bootstrapped path_to_cdf false ;;
       cluster_status ← check_cluster_status path_to_cdf;
       wait_for_cluster_start (a_config args) ;;
       if cluster_status =? 0 then mret tt else raise (RuntimeError "Cluster status reports failure :")
     else mret tt)
    shutdown_cluster.

Definition test_IVT (args : Args) : M W unit :=
  path_to_cdf ← cdf_of args;
  up ← is_cluster_running;
  if (up : bool) then
    cluster_status ← check_cluster_status path_to_cdf;
    if cluster_status =? 0 then mret tt else raise (RuntimeError "Cluster status reports failure : ")
  else raise (RuntimeError "Cluster is not running. ").

Definition reset (args : Args) : M W unit := wrap_error "Error during reset" (init args).

(** *** cleanup *)
Definition cleanup_node_facts : M W unit :=
  repeat_if_fails (-1) (hostname ← get_local_hostname; delete_tree (py_str hostname +:+ "/facts")).
Definition cleanup_disks_info : M W unit :=
  repeat_if_fails (-1) (hostname ← get_local_hostname; delete_tree (py_str hostname +:+ "/drives")).

Definition kv_cleanup (url : string) : M W unit :=
  ConfStoreProvider url ;;
  cleanup_disks_info ;;
  cleanup_node_facts ;;
  up ← is_cluster_running;
  (if (up : bool) then shutdown_cluster else mret tt) ;;
  ok ← kv_delete_in_transaction provision_keys;
  if (ok : bool) then mret tt else raise (RuntimeError "Error during key delete in transaction").

Definition sh (cmd : string) : M W unit := on_env (os_system cmd) ;; mret tt.

Definition logs_cleanup (url : string) : M W unit :=
  wrap_error "Error during logs cleanup" (d ← get_log_dir url; sh ("rm -f " +:+ d +:+ "/*")).
Definition config_cleanup (url : string) : M W unit :=
  wrap_error "Error during config cleanup" (d ← get_config_dir url; sh ("rm -rf " +:+ d +:+ "/*")).
Definition deployment_logs_cleanup (url : string) : M W unit :=
  wrap_error "Error during deployment log cleanup"
    (d ← get_log_dir url; sh ("rm -rf " +:+ d +:+ "hare_deployment")).
Definition motr_cleanup : M W unit :=
  wrap_error "Error during motr cleanup"
    (sh "rm -rf /var/motr/hax" ;;
     sh "rm -rf /etc/sysconfig/m0d-0x7200000000000001*" ;;
     sh "rm -rf /etc/sysconfig/s3server-0x7200000000000001*").
Definition pre_factory (url : string) : M W unit := deployment_logs_cleanup url ;; motr_cleanup.

Definition cleanup (args : Args) : M W unit :=
  wrap_error "Error during cleanup"
    (kv_cleanup (a_config args) ;;
     logs_cleanup (a_config args) ;;
     config_cleanup (a_config args) ;;
     if a_pre_factory args then pre_factory (a_config args) else mret tt).

Definition generate_support_bundle (args : Args) : M W unit :=
  wrap_error "Error while generating support bundle"
    (log_dir ← get_log_dir (a_config args);
     conf_dir ← get_config_dir (a_config args);
     execute (["hctl"; "reportbug"]
       ++ match a_bundle args with Some b => ["-b"; b] | None => [] end
       ++ match a_target args with Some t => ["-t"; t] | None => [] end
       ++ ["-l"; log_dir; "-c"; conf_dir]) None ;;
     mret tt).

(** *** config *)
Definition generate_cdf (url : string) : M W string := ConfStoreProvider url ;; cdf_generate.

Definition save (filename contents : string) : M W unit :=
  on_env (os_makedirs (dirname filename)) ;; on_env (write_file filename contents).

Definition is_kv_imported : M W bool :=
  repeat_if_fails (-1)
    (wrap_error "Failed to get leader key"
       (leader ← kv_get "leader" None (Some true) None; mret (kv_truthy leader))).

Definition generate_config (url path_to_cdf : string) : M W unit :=
  ConfStoreProvider url ;;
  conf_dir ← get_config_dir url;
  path ← on_env (os_getenv "PATH");
  sys ← on_env sys_path;
  transport_type ← get_transport_type;
  log_dir ← get_log_dir url;
  me ← get_machine_id;
  locale_info ← execute ["locale"; "-a"] None;
  let path' := match path with
               | Some p => if String.eqb p "" then Some p else Some (p +:+ ":/opt/seagate/cortx/hare/bin/")
               | None => None
               end in
  p ← lift (match path' with Some p => Ret p | None => Raise TypeError end);
  let env0 := [("PYTHONPATH", py_join ":" sys); ("PATH", p)] in
  let env1 := if py_in "en_US.utf-8" locale_info || py_in "en_US.utf8" locale_info
              then env0 ++ [("LC_ALL", "en_US.utf-8"); ("LANG", "en_US.utf-8")] else env0 in
  execute ["configure"; "-c"; conf_dir; path_to_cdf; "--transport"; py_str transport_type;
           "--log-dir"; log_dir; "--log-file"; LOG_FILE; "--uuid"; me] (Some env1) ;;
  copy_conf_files conf_dir ;;
  copy_consul_files conf_dir "client" ;;
  imported ← is_kv_imported;
  if (imported : bool) then mret tt else import_kv conf_dir.

Definition update_hax_unit (filename : string) : M W unit :=
  wrap_error "Failed to update hax systemd unit: "
    (text ← on_env (read_file filename); save filename (unit_text text)).

Definition config (args : Args) : M W unit :=
  let url := a_config args in
  let failed {A} := raise (A := A) (RuntimeError "Error performing configuration ") in
  consul_starter ←
    catch (ConfStoreProvider url ;;
           conf_dir ← get_config_dir url;
           log_dir ← get_log_dir url;
           start_consul conf_dir log_dir url) (fun _ => Some failed);
  catch (filename ← cdf_of args;
         cdf ← generate_cdf url;
         save filename cdf ;;
         update_hax_unit "/usr/lib/systemd/system/hare-hax.service" ;;
         generate_config url filename ;;
         stop_consul_blocking consul_starter)
    (fun _ => Some (stop_consul_blocking consul_starter ;; failed)).

(** ** The command line *)
Inductive mp_command : Type :=
| CPostInstall | CConfig | CInit | CStart | CTest | CSupportBundle | CReset | CCleanup | CPrepare
| CUpgrade.

Definition run_command (c : mp_command) (args : Args) (ev : nat) : M W unit :=
  match c with
  | CPostInstall => post_install args
  | CConfig => config args
  | CInit => init args
  | CStart => start args ev
  | CTest => test_IVT args
  | CSupportBundle => generate_support_bundle args
  | CReset => reset args
  | CCleanup => cleanup args
  | CPrepare => prepare args
  | CUpgrade => mret tt
  end.

(** [main]: the exit code.  Without a subcommand the parsed arguments have no
    attribute [config], and [check_parsed_command] is not reached. *)
Definition mp_main (c : option mp_command) (args : Args) (ev : nat) : M W Z :=
  catch (match c with
         | Some c' => setup_logging (a_config args) ;; run_command c' args ev
         | None => raise AttributeError
         end ;;
         mret 0)
    (fun _ => Some (mret 1)).
End Provision.
