(* ===== verification/ProvisionProps.v ===== *)
(** * Properties of the phases of the provisioner

    The barrier of [init], the keys [cleanup] removes, and what the error paths
    of the phases do. *)

From S2P Require Import Prelude PyStr Json HaxTypes Message LinkedList Planner Delivery World.
From S2P Require Import Cache ConsulStore Consul ConsulUtil ConfTree ProcStatus Motr Dhall CdfTypes.
From S2P Require Import Exec ConfStore MpUtils Cdf Site CdfProps MpProps Sysconf Starters Provision.

Section Barrier.
Context {E : Type} `{ConsulApi E} `{!ConsulLaws E} `{ConfApi E} `{CortxConst} `{Host E} `{CdfResource E}.
Context `{Starters E} `{ProvApi E} `{Others E} `{Fuel}.
Notation W := (World E).

(** A call without a cache runs the body on a new one. *)
Lemma kv_get_fresh k r an (w : W) d w' :
  kv_get k r an None w = (Ret d, w') ->
  exists w1, (data ← kv_get_raw k (default false r);
              match snd data with
              | KVNone => if default false an then mret KVNone
                          else raise (HAConsistencyException "Could not get data from Consul KV")
              | d => mret d
              end) (new_cache w).2 = (Ret d, w1) /\ env w' = env w1.
Proof using Type.
  unfold kv_get, uses_consul_cache. cbn [cache_or_new].
  rewrite (bind_unfold_Ret _ _ w (next_cache w) (new_cache w).2) by done. rewrite bind_gets.
  replace (cache_get _ _ _ (new_cache w).2) with (@None json)
    by (unfold cache_get; cbn; by rewrite lookup_insert_eq).
  cbn [mbind option_bind]. intros Eg. apply bind_Ret in Eg as (x & w1 & Eb & Eg).
  injection Eg as -> <-. by exists w1.
Qed.

(** A successful read is one of the server's answers and leaves it as it is. *)
Lemma kv_get_Ret k r an (w : W) d w' :
  kv_get k r an None w = (Ret d, w') ->
  env w' = env w /\ kv_get_outcome k r an (view (env w)) = Ret d.
Proof using ConsulLaws0.
  intros (w1 & Eb & ->)%kv_get_fresh. change (env w) with (env (new_cache w).2).
  revert Eb. generalize (new_cache w).2. intros v Eb.
  destruct (decide (k = "")) as [-> | Hk]; [done|]. destruct (available (env v)) eqn:Ha.
  - rewrite kv_get_body in Eb by done. by injection Eb as -> <-.
  - apply bind_Ret in Eb as (y & w2 & Eg & _). unfold kv_get_raw, wrap_consul, catch, on_env in Eg.
    apply bind_Ret in Eg as (u & w3 & E3 & Eg). unfold assert in E3.
    destruct (negb _); [| done]. injection E3 as _ <-. by rewrite law_get_down in Eg.
Qed.

Lemma recursive_hit k (s : store) d :
  kv_get_outcome k (Some true) (Some true) s = Ret d -> kv_truthy d = true ->
  exists k' i, entries s !! k' = Some i /\ String.prefix k (Key i) = true.
Proof using Type.
  unfold kv_get_outcome, store_read. cbn. destruct (store_list k s) as [| i l] eqn:El; cbn.
  - by intros [= <-].
  - intros _ _. assert (Hi : i ∈ store_list k s) by (rewrite El; set_solver).
    apply store_list_elem in Hi as [Hp [k' Hk']]. eauto.
Qed.

(** The KV has a key that starts with the key of the node: its own mark, or that of a node
    whose name is longer ([mkfs_of_longer_name]). *)
Definition mkfs_done_in (s : store) (node : json) : Prop :=
  exists k i, entries s !! k = Some i /\ String.prefix (mkfs_key node) (Key i) = true.

Lemma done_fold nodes (ok : bool) (w : W) w' :
  fold_m (fun (ok : bool) node =>
    if ok then d ← kv_get (mkfs_key node) (Some true) (Some true) None; mret (kv_truthy d)
    else mret false) ok nodes w = (Ret true, w') ->
  ok = true /\ env w' = env w /\ Forall (mkfs_done_in (view (env w'))) nodes.
Proof using ConsulLaws0.
  revert ok w. induction nodes as [| node nodes IH]; intros ok w Ef; cbn [fold_m] in Ef.
  - injection Ef as -> <-. done.
  - apply bind_Ret in Ef as (ok1 & w1 & E1 & Ef). apply IH in Ef as (-> & He & Hf).
    destruct ok; [| done]. split; [done|]. apply bind_Ret in E1 as (d & w2 & Eg & E1).
    injection E1 as Ht <-. apply kv_get_Ret in Eg as [He2 Eo].
    rewrite He. split; [done|]. rewrite He in Hf. constructor; [| done].
    rewrite He2. by eapply recursive_hit.
Qed.

(** A call that is repeated returns what its last attempt returned. *)
Lemma repeat_loop_last {A} n mx c (f : M W A) (w : W) a w' :
  repeat_loop n mx c f w = (Ret a, w') -> exists v, f v = (Ret a, w').
Proof using Type.
  revert c w. induction n as [| n IH]; intros c w; cbn; [done|].
  destruct (f w) as [[x | e |] w1] eqn:Ef; [by intros [= -> ->]; exists w | | done].
  destruct e; try done. destruct (stopping w1); [done|]. destruct (_ && _); [done|].
  unfold sleep. rewrite bind_modify. apply IH.
Qed.

Lemma mkfs_all_done nodes (w : W) w' :
  is_mkfs_done_on_all_nodes nodes w = (Ret true, w') -> Forall (mkfs_done_in (view (env w'))) nodes.
Proof using ConsulLaws0.
  intros (v & Ev)%repeat_loop_last. by apply done_fold in Ev as (_ & _ & Hf).
Qed.

Lemma wait_until_done n (m : M W bool) (w : W) w' :
  wait_until n m w = (Ret tt, w') -> exists v, m v = (Ret true, w').
Proof using Type.
  revert w. induction n as [| n IH]; intros w Ew; cbn in Ew; [done|].
  apply bind_Ret in Ew as (b & w1 & E1 & Ew). destruct b; [injection Ew as <-; by exists w|].
  unfold sleep in Ew. rewrite bind_modify in Ew. by apply IH in Ew.
Qed.

Lemma catch_Ret {A} (m : M W A) h (w : W) a w' :
  (forall e m', h e = Some m' -> forall v, (m' v).1 <> Ret a) ->
  catch m h w = (Ret a, w') -> m w = (Ret a, w').
Proof using Type.
  intros Hh. unfold catch. destruct (m w) as [[x | e |] w1]; [done | | done].
  destruct (h e) as [m' |] eqn:Ee; [| done]. intros Em. destruct (Hh e m' Ee w1). by rewrite Em.
Qed.

Lemma init_handler_fails {A} consul hax (w : W) (a : A) : (init_handler consul hax w).1 <> Ret a.
Proof using Type.
  unfold init_handler. destruct hax as [h |]; [| done]. unfold mbind, M_bind.
  destruct (stop_hax_blocking h w) as [[] w1]; [| done | done]. destruct consul as [c |]; [| done].
  by destruct (stop_consul_blocking c w1) as [[] w2].
Qed.

(** [init] returns only by way of the barrier: Consul and hax are started, this node runs its
    mkfs, the data nodes are read from the configuration, and the services are
    stopped from a state in which the KV holds, for every data node, an entry whose key
    starts with [mkfs_done/] and its name. *)
Lemma init_waits_for_mkfs_entries args (w : W) w' :
  init args w = (Ret tt, w') ->
  exists cd ld consul hostname hax nodes v1 v2 v3 v4 v5,
    init_consul (a_config args) w = (Ret (cd, ld, consul), v1)
    /\ init_hax (a_config args) cd ld consul v1 = (Ret (hostname, hax), v2)
    /\ init_mkfs hostname cd hax v2 = (Ret tt, v3)
    /\ get_hostnames_for_service SERVICE_MOTR_IO v3 = (Ret nodes, v4)
    /\ Forall (mkfs_done_in (view (env v5))) nodes
    /\ init_finish (a_config args) consul hax v5 = (Ret tt, w').
Proof using ConsulLaws0.
  unfold init. intros Ei. apply bind_Ret in Ei as ([[cd ld] consul] & v1 & E1 & Ei).
  apply bind_Ret in Ei as ([hostname hax] & v2 & E2 & Ei).
  apply catch_Ret in Ei; [| intros e m' [= <-] v; apply init_handler_fails].
  apply bind_Ret in Ei as ([] & v3 & E3 & Ei). apply bind_Ret in Ei as ([] & v5 & Eb & E5).
  unfold mkfs_barrier in Eb. apply bind_Ret in Eb as (nodes & v4 & En & Eb).
  apply wait_until_done in Eb as (v & Ev). apply mkfs_all_done in Ev.
  by exists cd, ld, consul, hostname, hax, nodes, v1, v2, v3, v4, v5.
Qed.
End Barrier.

(** ** What cleanup removes *)
Definition covers (d : KeyDelete) (k : string) : Prop :=
  if kd_recurse d then String.prefix (kd_name d) k = true else k = kd_name d.

#[local] Instance covers_dec d k : Decision (covers d k).
Proof. unfold covers. destruct (kd_recurse d); apply _. Defined.

Lemma delete_step d s :
  exists s', txn_step (delete_payload d) s = Some s'
    /\ forall k, store_get k s' = None \/ (store_get k s' = store_get k s /\ ~ covers d k).
Proof.
  unfold delete_payload, covers. destruct (kd_recurse d) eqn:Er; eexists; (split; [reflexivity|]).
  - intros k. unfold store_get. cbn. rewrite map_lookup_filter.
    destruct (entries s !! k) as [i |]; cbn; [| by left]. case_guard as Hg; cbn; [| by left].
    right. split; [done|]. cbn in Hg. by rewrite Hg.
  - intros k. unfold store_get. cbn. destruct (decide (k = kd_name d)) as [-> |].
    + left. apply lookup_delete_eq.
    + right. by rewrite lookup_delete_ne.
Qed.

(** An uncovered key keeps its entry. *)
Lemma delete_keeps d s s' k :
  txn_step (delete_payload d) s = Some s' -> ~ covers d k -> store_get k s' = store_get k s.
Proof.
  unfold delete_payload, covers. destruct (kd_recurse d); intros [= <-] Hk; unfold store_get; cbn.
  - rewrite map_lookup_filter. destruct (entries s !! k) as [i |]; [| done]. cbn.
    case_guard as Hg; [done|]. cbn in Hg. destruct Hk. by destruct (String.prefix _ _).
  - by rewrite lookup_delete_ne.
Qed.

Lemma delete_all ds s :
  exists s', foldl (fun o op => o ≫= txn_step op) (Some s) (delete_payload <$> ds) = Some s'
    /\ (forall d k, d ∈ ds -> covers d k -> store_get k s' = None)
    /\ forall k, (forall d, d ∈ ds -> ~ covers d k) -> store_get k s' = store_get k s.
Proof.
  revert s. induction ds as [| d ds IH]; intros s.
  - exists s. split; [done|]. split; [set_solver | done].
  - destruct (delete_step d s) as (s1 & E1 & H1). destruct (IH s1) as (s2 & E2 & Hgone & Hkept).
    exists s2. cbn [fmap list_fmap foldl]. cbn [mbind option_bind]. rewrite E1. split; [done|]. split.
    + intros d' k [-> | Hd]%elem_of_cons Hc; [| by eapply Hgone].
      destruct (decide (Exists (fun d0 => covers d0 k) ds)) as [(d0 & Hd0 & Hc0)%Exists_exists | Hn].
      * by eapply Hgone.
      * rewrite Hkept; [by destruct (H1 k) as [| []]|]. intros d0 Hd0 Hc0. apply Hn, Exists_exists. eauto.
    + intros k Hk. rewrite Hkept by set_solver. eapply delete_keeps; [exact E1 | set_solver].
Qed.

Section Cleanup.
Context {E : Type} `{ConsulApi E} `{!ConsulLaws E} `{ConfApi E} `{CortxConst} `{Host E}.
Context `{Others E} `{Fuel}.
Notation W := (World E).

(** A delete transaction that reports success, in the world [v] in which it was tried for
    the last time, has removed exactly the keys it names. *)
Lemma delete_transaction_ok ds (w : W) w' :
  kv_delete_in_transaction ds w = (Ret true, w') ->
  exists n v s, attempts n (txn_put (delete_payload <$> ds) "Failed to delete key(s) from KV") w v
    /\ view (env w') = bump s
    /\ (forall d k, d ∈ ds -> covers d k -> store_get k s = None)
    /\ forall k, (forall d, d ∈ ds -> ~ covers d k) -> store_get k s = store_get k (view (env v)).
Proof using ConsulLaws0.
  intros (n & v & Hn & Ev)%repeat_if_fails_run. unfold txn_put, catch in Ev.
  destruct (available (env v)) eqn:Ha.
  - destruct (delete_all ds (view (env v))) as (s & Es & Hgone & Hkept).
    assert (Er : on_env (consul_txn_put (delete_payload <$> ds)) v
      = (Ret tt, set_env (set_view (bump s) (env v)) v)).
    { unfold on_env. rewrite law_txn by done. unfold store_txn. by rewrite Es. }
    rewrite (bind_unfold_Ret _ _ _ _ _ Er) in Ev. injection Ev as <-.
    exists n, v, s. split; [done|]. split; [cbn; by rewrite view_set | done].
  - rewrite (bind_unfold_Raise _ _ v ConsulException v) in Ev; [done|].
    apply on_env_pure. by rewrite law_txn_down.
Qed.





(** No key of [provision_keys] covers the state of mkfs: the transaction of
    [kv_cleanup] deletes the tree [mkfs/] and leaves the entries [mkfs_done/...]. *)
Lemma cleanup_keeps_mkfs_state ds node (w : W) w' :
  ds = provision_keys -> kv_delete_in_transaction ds w = (Ret true, w') ->
  exists v, store_get (mkfs_key node) (view (env w')) = store_get (mkfs_key node) (view (env v)).
Proof using ConsulLaws0.
  intros -> (n & v & s & _ & -> & _ & Hkept)%delete_transaction_ok. exists v. apply (Hkept (mkfs_key node)).
  intros d Hd. repeat (apply elem_of_cons in Hd as [-> | Hd]; [done|]). by apply not_elem_of_nil in Hd.
Qed.

Lemma kv_get_down k r an (w : W) :
  available (env w) = false -> k <> "" ->
  kv_get k r an None w = (Raise (HAConsistencyException "Could not access Consul KV"), (new_cache w).2).
Proof using ConsulLaws0.
  intros Ha Hk. unfold kv_get, uses_consul_cache. cbn [cache_or_new].
  rewrite (bind_unfold_Ret _ _ w (next_cache w) (new_cache w).2) by done. rewrite bind_gets.
  replace (cache_get _ _ _ (new_cache w).2) with (@None json)
    by (unfold cache_get; cbn; by rewrite lookup_insert_eq).
  cbn [mbind option_bind]. apply bind_unfold_Raise, bind_unfold_Raise. unfold kv_get_raw, assert.
  destruct (String.eqb_spec k ""); [done|]. cbn [negb]. rewrite bind_mret.
  eapply wrap_consul_error; [apply on_env_pure; by apply law_get_down | done].
Qed.

(** The handler of [is_kv_imported] hides the exception [repeat_if_fails] waits
    for: when Consul does not answer, the first failure is final. *)
Lemma is_kv_imported_not_retried (w : W) :
  available (env w) = false -> fuel <> 0%nat ->
  (is_kv_imported w).1 = Raise (RuntimeError "Failed to get leader key").
Proof using ConsulLaws0.
  intros Ha Hf. unfold is_kv_imported, wrap_error. erewrite repeat_if_fails_ret; [reflexivity | | done | done].
  unfold catch. by rewrite (bind_unfold_Raise _ _ _ _ _ (kv_get_down "leader" None (Some true) w Ha ltac:(done))).
Qed.
End Cleanup.

(** ** Witnesses *)
Section Witnesses.
#[local] Instance prov_fuel : Fuel := 10%nat.
#[local] Instance site_resource : CdfResource site := mret "".
#[local] Instance site_starters : Starters site := {|
  starter_start cmd e := (Ret 0%nat, set_started (st_started e ++ [command cmd]) e);
  starter_process _ := mret None;
  starter_join _ := mret tt;
  proc_terminate _ := mret tt;
  proc_kill _ := mret tt;
  open_log _ := mret tt;
  set_hare_stop := mret tt;
  get_hare_stop := mret (Some true) |}.
#[local] Instance site_prov : ProvApi site := {|
  process_names := mret [];
  uuid4 := mret "01234567-89ab";
  gethostbyname _ := mret "10.0.0.1";
  subprocess_run _ := mret (0, "");
  yaml_load _ := Ret JNull |}.

Definition demo_args : Args := mkArgs "yaml:///c" None false false false None None.

(** [init] on the client node, once the data node is done. *)
Lemma init_waits_for_mkfs_entries_witness :
  exists w' v3 v4 v5, init demo_args (site_world [("mkfs_done/data1", "true")] "m2") = (Ret tt, w')
    /\ exists nodes, get_hostnames_for_service SERVICE_MOTR_IO v3 = (Ret nodes, v4)
    /\ Forall (mkfs_done_in (view (env v5))) nodes.
Proof.
  assert (Hrun : init demo_args (site_world [("mkfs_done/data1", "true")] "m2")
    = (Ret tt, (init demo_args (site_world [("mkfs_done/data1", "true")] "m2")).2))
    by (apply run_ret; vm_compute; reflexivity).
  destruct (init_waits_for_mkfs_entries _ _ _ Hrun)
    as (cd & ld & consul & hostname & hax & nodes & v1 & v2 & v3 & v4 & v5 & _ & _ & _ & En & Hd & _).
  eexists _, v3, v4, v5. split; [exact Hrun|]. exists nodes. split; [exact En | exact Hd].
Defined.

(** The entry of another node whose name continues the name is taken for it. *)
Example mkfs_of_longer_name :
  (is_mkfs_done_on_all_nodes [JStr "data1"] (site_world [("mkfs_done/data10", "true")] "m2")).1 = Ret true.
Proof. vm_compute. reflexivity. Qed.



(** After the cleanup the mark of mkfs is still there. *)
Example mkfs_mark_survives_cleanup :
  let w := site_world [("mkfs_done/data1", "true"); ("epoch", "3")] "m1" in
  let w' := (kv_delete_in_transaction provision_keys w).2 in
  (is_mkfs_done_on_all_nodes [JStr "data1"] w').1 = Ret true
  /\ store_get "epoch" (view (env w')) = None.
Proof. vm_compute. split; reflexivity. Qed.

(** An error before hax is started, here a configuration without the endpoints of
    Consul, is hidden by the [except] clause. *)
Definition no_endpoints : site :=
  mkSite (server_of []) [("cortx>common>storage>local", JStr "/etc"); ("cortx>common>storage>log", JStr "/log")]
    [] (Some "m1") "data1" [] [] [] [].

Example init_hides_early_error :
  (init demo_args (world_init no_endpoints None 3)).1 = Raise (UnboundLocalError "hax_starter").
Proof. vm_compute. reflexivity. Qed.

(** The directory [setup_logging] creates is not the one [pre_factory] removes. *)
Example deployment_logs_left :
  st_started (env (deployment_logs_cleanup "yaml:///c" (site_world [] "m1")).2)
  = ["rm -rf /var/log/hare/log/m1hare_deployment"].
Proof. vm_compute. reflexivity. Qed.

Lemma starter_always_signals_witness :
  exists w', starter_execute "l" (mret (["consul"], None)) 7%nat
    (world_init (mkSite (server_of []) [] [] None "h" [("consul", (0, ""))] [] [] []) None 3) = (Ret tt, w')
    /\ 7%nat ∈ events_set w'.
Proof.
  match goal with |- exists w', ?m = _ /\ _ =>
    assert (Hrun : m = (Ret tt, m.2)) by (apply run_ret; vm_compute; reflexivity) end.
  eexists. split; [exact Hrun|].
  refine (proj2 (starter_always_signals _ _ _ _ _ _ _ Hrun _)); [| discriminate].
  intros e. exists e. reflexivity.
Defined.
End Witnesses.

(** ** The status of the cluster *)

(** Only the statuses 'started' are kept, by service. *)
Definition only_started (d : list (string * json)) : Prop :=
  forall k v, (k, v) ∈ d -> exists l, v = JArr l /\ Forall (fun x => json_is "started" x = true) l.

Lemma dict_set_elem {A} k (v : A) l k' v' : (k', v') ∈ dict_set k v l -> v' = v \/ (k', v') ∈ l.
Proof.
  induction l as [| [k1 v1] l IH]; cbn; [set_solver|].
  destruct (String.eqb k k1); intros [He | Hin]%elem_of_cons.
  - left. by injection He.
  - right. by right.
  - right. rewrite He. left.
  - destruct (IH Hin); [by left | right; by right].
Qed.

(** A loop over a list that ends well keeps an invariant of its accumulator. *)
Lemma foldl_outcome_inv {A S} (I : S -> Prop) (f : outcome S -> A -> outcome S) (o : outcome S) l r :
  (forall x o' s', f o' x = Ret s' -> exists s, o' = Ret s /\ (I s -> I s')) ->
  (forall s, o = Ret s -> I s) -> foldl f o l = Ret r -> I r.
Proof.
  intros Hf. revert o. induction l as [| x l IH]; intros o Ho; cbn; [by apply Ho|].
  apply IH. intros s' Hs. destruct (Hf x o s' Hs) as (s & -> & Hi). by apply Hi, Ho.
Qed.

Lemma outcome_bind_Ret {A B} (o : outcome A) (k : A -> outcome B) b :
  (o ≫= k) = Ret b -> exists a, o = Ret a /\ k a = Ret b.
Proof. destruct o as [a | e |]; try done. eauto. Qed.

Lemma node_services_started node d : node_services node = Ret d -> only_started d.
Proof.
  unfold node_services. intros (svcs & _ & (l & _ & Hd)%outcome_bind_Ret)%outcome_bind_Ret.
  revert Hd. apply foldl_outcome_inv; [| intros s [= <-] k v Hk; set_solver].
  intros x o d' (d0 & -> & (name & _ & (status & _ & [= <-])%outcome_bind_Ret)%outcome_bind_Ret)%outcome_bind_Ret.
  exists d0. split; [done|]. intros Hd0 k v [-> | Hin]%dict_set_elem; [| by apply (Hd0 k)].
  eexists. split; [done|].
  assert (Hh : Forall (fun x => json_is "started" x = true)
    (default [] (match dict_find (py_str name) d0 with Some (JArr x) => Some x | _ => None end))).
  { destruct (dict_find (py_str name) d0) as [y |] eqn:Ef; [| constructor].
    apply dict_find_elem in Ef as (l1 & -> & Hl)%Hd0. exact Hl. }
  destruct (json_is "started" status) eqn:Es; [| exact Hh]. apply Forall_app. by repeat constructor.
Qed.

Lemma list2dict_started nodes d k v :
  list2dict nodes = Ret d -> (k, v) ∈ d -> exists info, v = JObj info /\ only_started info.
Proof.
  intros Hd. revert k v. unfold list2dict in Hd. revert Hd.
  apply (foldl_outcome_inv (fun d => forall k v, (k, v) ∈ d -> exists info, v = JObj info /\ only_started info));
    [| intros s [= <-] k v Hk; set_solver].
  intros x o d' (d0 & -> & (info & Hi & (name & _ & [= <-])%outcome_bind_Ret)%outcome_bind_Ret)%outcome_bind_Ret.
  exists d0. split; [done|]. intros Hd0 k v [-> | Hin]%dict_set_elem; [| by apply (Hd0 k)].
  exists info. split; [done | by eapply node_services_started].
Qed.

Lemma statuses_started nodes d node svc l x :
  list2dict nodes = Ret d -> statuses_of d node svc = Ret l -> x ∈ l -> json_is "started" x = true.
Proof.
  intros Hd. unfold statuses_of.
  intros (h & _ & (n & Hn & (v & Hv & Hl)%outcome_bind_Ret)%outcome_bind_Ret)%outcome_bind_Ret Hx.
  destruct (dict_find (py_str h) d) as [n' |] eqn:Ef; [| done]. injection Hn as ->.
  apply dict_find_elem in Ef. destruct (list2dict_started _ _ _ _ Hd Ef) as (info & -> & Hi).
  cbn in Hv. destruct (dict_find svc info) as [v' |] eqn:Es; [| done]. injection Hv as ->.
  apply dict_find_elem in Es as (l1 & -> & Hall)%Hi. injection Hl as ->.
  by eapply (proj1 (List.Forall_forall _ _) Hall), list_elem_of_In.
Qed.

Lemma index_get_elem {A} i (l : list A) x : index_get i l = Ret x -> x ∈ l.
Proof. unfold index_get. destruct (l !! i) eqn:El; [| done]. intros [= ->]. by eapply list_elem_of_lookup_2. Qed.

Lemma server_status_counts nodes d node o m0d r :
  list2dict nodes = Ret d -> server_status d node o m0d = Ret r ->
  exists s, o = Ret s /\ ((exists n, s = inr n) -> exists n, r = inr n).
Proof.
  intros Hd (s & -> & Hr)%outcome_bind_Ret. exists s. split; [done|]. intros [n ->].
  apply outcome_bind_Ret in Hr as (keys & _ & Hr). apply outcome_bind_Ret in Hr as (bad & Hb & Hr).
  assert (bad = false) as ->.
  { destruct (bool_decide _); [| by injection Hb].
    apply outcome_bind_Ret in Hb as (l & Hl & Hb). apply outcome_bind_Ret in Hb as (x & Hx & [= <-]).
    by rewrite (statuses_started _ _ _ _ _ _ Hd Hl (index_get_elem _ _ _ Hx)). }
  apply outcome_bind_Ret in Hr as (disks & _ & Hr). destruct (truthy disks); [| injection Hr as <-; eauto].
  apply outcome_bind_Ret in Hr as (l & Hl & Hr). apply outcome_bind_Ret in Hr as (x & Hx & Hr).
  rewrite (statuses_started _ _ _ _ _ _ Hd Hl (index_get_elem _ _ _ Hx)) in Hr. injection Hr as <-. eauto.
Qed.

(** Without S3 clients [check_cluster_status] never reports a failure: a confd or an
    io service that is not started makes it raise [IndexError] instead. *)
Lemma cluster_status_never_fails cluster_desc cluster_info descs z :
  jget "nodes" cluster_desc = Ret (JArr descs) ->
  Forall (fun node => (s3 ← jget2 "m0_clients" "s3" node; int_of s3) = Ret 0) descs ->
  cluster_status cluster_desc cluster_info = Ret z -> z = 0.
Proof.
  intros Hdesc Hs3. unfold cluster_status.
  intros (nodes & _ & Hr)%outcome_bind_Ret. apply outcome_bind_Ret in Hr as (nl & _ & Hr).
  apply outcome_bind_Ret in Hr as (d & Hd & Hr). rewrite Hdesc in Hr. cbn in Hr.
  apply outcome_bind_Ret in Hr as (r & Hf & [= <-]).
  enough (r = None) as -> by done.
  assert (Hgen : forall o, (forall s, o = Ret s -> s = None) ->
    foldl (node_status d) o descs = Ret r -> r = None); [| by eapply Hgen; [| exact Hf]; intros s [= <-]].
  clear Hf Hdesc. induction Hs3 as [| node descs Hz _ IH]; intros o Ho; cbn; [by apply Ho|].
  apply IH. intros s (s0 & -> & Hs)%outcome_bind_Ret. rewrite (Ho s0 eq_refl) in Hs.
  apply outcome_bind_Ret in Hz as (s3 & Hs3 & Hint). rewrite Hs3 in Hs. cbn in Hs. rewrite Hint in Hs. cbn in Hs.
  apply outcome_bind_Ret in Hs as (m0ds & _ & Hs). apply outcome_bind_Ret in Hs as (l & _ & Hs).
  apply outcome_bind_Ret in Hs as (res & Hres & Hs).
  assert (exists n, res = inr n) as [n ->]; [| by injection Hs].
  revert Hres. apply (foldl_outcome_inv (fun r => exists n, r = inr n)); [| intros s' [= <-]; eauto].
  intros x o' s'. by eapply server_status_counts.
Qed.

Example stopped_confd_raises :
  let node := JObj [("hostname", JStr "n1"); ("m0_clients", JObj [("s3", JInt 0)]);
                    ("m0_servers", JArr [JObj [("runs_confd", JBool true);
                                               ("io_disks", JObj [("data", JArr [])])]])] in
  let info := JObj [("name", JStr "n1");
                    ("svcs", JArr [JObj [("name", JStr "confd"); ("status", JStr "offline")]])] in
  cluster_status (JObj [("nodes", JArr [node])]) (JObj [("nodes", JArr [info])]) = Raise IndexError.
Proof. vm_compute. reflexivity. Qed.
