(* ===== verification/HareUtils.v ===== *)
(** * Utilities of the cluster scripts ([src/utils/utils.py])

    The processes of a node grouped by service, and the pool of threads that
    stops them.  The pool is a transition system: the main thread fills a bounded
    queue, the workers empty it and call [process_stop], which may raise; the pool always
    comes to its end, and without an exception the processes that were passing were
    stopped once. *)

From S2P Require Import Prelude PyStr Json HaxTypes Message LinkedList Planner Delivery World.
From S2P Require Import Cache ConsulStore Consul ConsulUtil Exec ConfStore.

(** [subprocess.call] and [socket.gethostname]. *)
Class CallApi (E : Type) := {
  call_argv : list string -> M E Z;
  call_shell : string -> M E Z;
  call_gethostname : M E string;
}.

Record Process : Type := mkProcess {
  p_node : string; consul_name : string; systemd_name : string; fidk : Z;
  p_status : string; is_local : bool }.

Definition shutdown_sequence : list string := ["s3service"; "ios"; "confd"; "hax"; "consul"].

Definition processfid2str (k : Z) : string :=
  fid_repr (mkFid (Z.lor (Z.shiftl 114 56) 1) k).

Definition get_systemd_name (k : Z) (svc_name : string) : string :=
  if String.eqb svc_name "hax" then "hare-hax"
  else if String.eqb svc_name "s3service" then "s3server@" +:+ processfid2str k
  else "m0d@" +:+ processfid2str k.

(** [processes.setdefault(name, []).append(p)] *)
Definition add_process (name : string) (p : Process) (d : list (string * list Process))
    : list (string * list Process) :=
  dict_set name (default [] (dict_find name d) ++ [p]) d.

Definition is_fake_leader_name (leader : string) : bool :=
  bool_decide (is_Some (rx_match [RLit "elect"; RDigits; REnd] leader)).

Section HareUtils.
Context {E : Type} `{ConsulApi E} `{Host E} `{CallApi E} `{Others E} `{Fuel}.
Notation W := (World E).

Definition get_kv (key : string) : M W string :=
  wrap_consul "Could not access Consul KV"
    ('(_, kv) ← on_env (consul_kv_get key false);
     match kv with
     | KVItem i => mret (default "" (Value i))
     | _ => mret ""
     end).

(** [f.readline().strip('\n')] *)
Definition first_line (text : string) : string :=
  let fix go (l : list ascii) : list ascii :=
    match l with [] => [] | c :: l' => if Ascii.eqb c lf then [] else c :: go l' end in
  string_of_list_ascii (go (chars text)).

Definition get_node_name (path : string) : M W string :=
  text ← on_env (read_file (path +:+ "/node-name")); mret (first_line text).

Definition match_node_file (hostname : string) : M W bool :=
  catch (n ← get_node_name "/var/lib/hare"; mret (String.eqb hostname n)) (fun e =>
    match e with FileNotFoundError _ => Some (mret false) | _ => None end).

Definition match_localhost (hostname : string) : M W bool :=
  name ← on_env call_gethostname;
  mret (bool_decide (hostname ∈ ["localhost"; "127.0.0.1"; name; name +:+ ".local"])).

Definition host_is_local (hostname : string) : M W bool :=
  b ← match_node_file hostname; if (b : bool) then mret true else match_localhost hostname.

Definition ssh_prefix (hostname : string) : M W string :=
  let h := consul_to_local_nodename hostname in
  assert (negb (String.eqb h "")) ;;
  b ← host_is_local h;
  mret (if b : bool then "" else "ssh " +:+ h +:+ " ").

(** [shlex.split] of a command without quotes. *)
Definition words (s : string) : list string :=
  List.filter (fun x => negb (String.eqb x "")) (py_split " " s).

Definition consul_is_active_at (hostname : string) : M W bool :=
  p ← ssh_prefix hostname;
  rc ← on_env (call_argv (words (p +:+ "sudo systemctl is-active --quiet hare-consul-agent")));
  mret (rc =? 0).

Definition pcs_consul_is_active_at (hostname : string) : M W bool :=
  p ← ssh_prefix hostname;
  rc ← on_env (call_shell (p +:+ "sudo systemctl is-active --quiet hare-consul-agent*"));
  mret (rc =? 0).

Definition exec_silent (cmd : string) : M W bool := rc ← on_env (call_shell cmd); mret (rc =? 0).

(** What is logged is not modelled. *)
Definition exec_custom (cmd : string) : M W unit :=
  assert (negb (String.eqb cmd "")) ;; exec_silent cmd ;; mret tt.

(** The body of the loop over the nodes of the catalog. *)
Definition node_processes (node : string) (local : bool) (d : list (string * list Process))
    : M W (list (string * list Process)) :=
  svcs ← on_env (consul_health_node node);
  d1 ← fold_m (fun d svc =>
         n ← lift (jget "ServiceName" svc);
         if truthy n then
           let svc_name := py_str n in
           sid ← lift (jget "ServiceID" svc);
           k ← lift (int_of sid);
           status ← lift (jget "Status" svc);
           mret (add_process svc_name
                   (mkProcess node svc_name (get_systemd_name k svc_name) k (py_str status) local) d)
         else mret d) d svcs;
  active ← consul_is_active_at node;
  mret (add_process "consul"
          (mkProcess node "consul" "hare-consul-agent" 0 (if active : bool then "passing" else "offline")
             local) d1).

Definition processes_node (node_name : string) : M W (list (string * list Process)) :=
  wrap_consul "Could not access Consul services"
    (me ← get_local_nodename;
     nodes ← on_env consul_catalog_nodes;
     fold_m (fun d node =>
       n ← lift (jget "Node" node);
       if json_is node_name n then node_processes node_name (String.eqb node_name me) d else mret d)
       [] nodes).

Definition processes_by_consul_svc_name : M W (list (string * list Process)) :=
  wrap_consul "Could not access Consul services"
    (nodes ← on_env consul_catalog_nodes;
     fold_m (fun d node =>
       n ← lift (jget "Node" node);
       me ← get_local_nodename;
       node_processes (py_str n) (json_is me n) d) [] nodes).

Definition process_stop (proc : Process) : M W unit :=
  if String.eqb (p_status proc) "passing" then
    p ← ssh_prefix (p_node proc);
    exec_silent (p +:+ "sudo systemctl stop --force " +:+ systemd_name proc) ;;
    mret tt
  else mret tt.
End HareUtils.

(** ** [stop_parallel] *)
Inductive message : Type := StopProcess (p : Process) | QuitMessage.

(** [_do_work]: waiting in [queue.get()], about to call [process_stop], returned, or ended by
    an exception of [process_stop]. *)
Inductive worker : Type := WGet | WStop (p : Process) | WReturned | WDied.

(** The main thread: the messages still to be put, the joins, the return. *)
Inductive pool_main : Type := PPut (l : list message) | PJoin | PReturned.

(** [p_done] and [p_raised] record the processes for which [process_stop] has returned and
    has raised, in this order. *)
Record pool (E : Type) : Type := mkPool {
  q_items : list message; q_maxsize : nat; worker_pool : list worker; p_main : pool_main;
  p_world : World E; p_done : list Process; p_raised : list Process }.

Arguments mkPool {E}. Arguments q_items {E}. Arguments q_maxsize {E}. Arguments worker_pool {E}.
Arguments p_main {E}. Arguments p_world {E}. Arguments p_done {E}. Arguments p_raised {E}.

(** What a shell is asked to do can be observed: a call of [subprocess.call(cmd, shell=True)]
    is one more command, and the other two calls of [process_stop] are none. *)
Class ShellTrace (E : Type) `{Host E} `{CallApi E} := {
  issued : E -> list string;
  issued_call cmd e : issued (call_shell cmd e).2 = issued e ++ [cmd];
  issued_read path e : issued (read_file path e).2 = issued e;
  issued_gethostname e : issued (call_gethostname e).2 = issued e;
}.

(** The worker has returned or died: [join] does not wait for it. *)
Definition ended (w : worker) : bool := match w with WReturned | WDied => true | _ => false end.

Section Pool.
Context {E : Type} `{Host E} `{CallApi E}.
Notation Pool := (pool E).

(** The state once the workers are started; nothing is done for an empty list. *)
Definition stop_parallel (process_list : list Process) (thread_count : nat) (w : World E)
    : option Pool :=
  match process_list with
  | [] => None
  | _ =>
      let size := length process_list in
      let n := Nat.min thread_count size in
      Some (mkPool [] size (replicate n WGet)
              (PPut ((StopProcess <$> process_list) ++ replicate n QuitMessage)) w [] [])
  end.

(** A step of the main thread or of a worker.  A call of [process_stop] is one step: the
    threads share the host only. *)
Inductive pool_step : Pool -> Pool -> Prop :=
| pool_put q cap ws m l w dn rs :
    (length q < cap)%nat ->
    pool_step (mkPool q cap ws (PPut (m :: l)) w dn rs) (mkPool (q ++ [m]) cap ws (PPut l) w dn rs)
| pool_put_done q cap ws w dn rs :
    pool_step (mkPool q cap ws (PPut []) w dn rs) (mkPool q cap ws PJoin w dn rs)
| pool_get_stop q cap w1 w2 m p w dn rs :
    pool_step (mkPool (StopProcess p :: q) cap (w1 ++ WGet :: w2) m w dn rs)
              (mkPool q cap (w1 ++ WStop p :: w2) m w dn rs)
| pool_get_quit q cap w1 w2 m w dn rs :
    pool_step (mkPool (QuitMessage :: q) cap (w1 ++ WGet :: w2) m w dn rs)
              (mkPool q cap (w1 ++ WReturned :: w2) m w dn rs)
| pool_stopped q cap w1 w2 m p w w' dn rs :
    process_stop p w = (Ret tt, w') ->
    pool_step (mkPool q cap (w1 ++ WStop p :: w2) m w dn rs)
              (mkPool q cap (w1 ++ WGet :: w2) m w' (dn ++ [p]) rs)
| pool_raised q cap w1 w2 m p w w' e dn rs :
    process_stop p w = (Raise e, w') ->
    pool_step (mkPool q cap (w1 ++ WStop p :: w2) m w dn rs)
              (mkPool q cap (w1 ++ WDied :: w2) m w' dn (rs ++ [p]))
| pool_join q cap ws w dn rs :
    Forall (fun x => ended x = true) ws ->
    pool_step (mkPool q cap ws PJoin w dn rs) (mkPool q cap ws PReturned w dn rs).

Definition pending (s : Pool) : list message := match p_main s with PPut l => l | _ => [] end.
End Pool.

Definition busy (ws : list worker) : list Process :=
  omap (fun w => match w with WStop p => Some p | _ => None end) ws.
Definition count (f : worker -> bool) (ws : list worker) : nat := length (List.filter f ws).
Definition has_returned (w : worker) : bool := match w with WReturned => true | _ => false end.
Definition has_died (w : worker) : bool := match w with WDied => true | _ => false end.

Lemma busy_mid w1 w w2 :
  busy (w1 ++ w :: w2) = busy w1 ++ match w with WStop p => [p] | _ => [] end ++ busy w2.
Proof. unfold busy. rewrite omap_app. by destruct w. Qed.
Lemma count_mid f w1 w w2 :
  count f (w1 ++ w :: w2) = (count f w1 + (if f w then 1 else 0) + count f w2)%nat.
Proof. unfold count. rewrite List.filter_app, length_app. cbn. destruct (f w); cbn; lia. Qed.
Lemma not_all_ended w1 w w2 :
  ended w = false -> ~ Forall (fun w => ended w = true) (w1 ++ w :: w2).
Proof. intros Hw [_ Hf]%Forall_app. inversion Hf. congruence. Qed.

(** The workers of the pool by what they do. *)
Lemma all_ended ws : Forall (fun w => ended w = true) ws ->
  (count has_returned ws + count has_died ws = length ws)%nat /\ busy ws = [].
Proof.
  induction 1 as [| w ws Hw _ [IH1 IH2]]; [done|]. unfold count in *.
  destruct w; try done; cbn; (split; [lia | exact IH2]).
Qed.

Lemma some_worker ws : Forall (fun w => ended w = true) ws
  \/ exists w1 w w2, ws = w1 ++ w :: w2 /\ ended w = false.
Proof.
  induction ws as [| w ws IH]; [by left|].
  destruct (ended w) eqn:Ew; [| right; by exists [], w, ws].
  destruct IH as [IH | (w1 & x & w2 & -> & Hx)]; [left; by constructor|].
  right. by exists (w :: w1), x, w2.
Qed.

(** *** What [process_stop] issues *)
Definition stop_command (p : Process) (cmd : string) : Prop :=
  cmd = "sudo systemctl stop --force " +:+ systemd_name p
  \/ cmd = "ssh " +:+ consul_to_local_nodename (p_node p) +:+ " "
           +:+ "sudo systemctl stop --force " +:+ systemd_name p.

Definition is_passing (p : Process) : bool := String.eqb (p_status p) "passing".

(** The commands [cs] are those of the processes [ps] that are passing: one each. *)
Definition stop_commands (ps : list Process) (cs : list string) : Prop :=
  Forall2 stop_command (List.filter is_passing ps) cs.

Section PoolProps.
Context {E : Type} `{ShellTrace E}.
Notation Pool := (pool E).

Lemma ssh_prefix_ret h (w w' : World E) pre : ssh_prefix h w = (Ret pre, w') ->
  issued (env w') = issued (env w)
  /\ (pre = "" \/ pre = "ssh " +:+ consul_to_local_nodename h +:+ " ").
Proof.
  intros Hr. apply bind_Ret in Hr as (? & w1 & Ha & Hr).
  unfold assert in Ha. destruct (negb _); [| done]. injection Ha as _ <-.
  apply bind_Ret in Hr as (b & w2 & Hb & Hr). injection Hr as <- <-.
  split; [| destruct b; auto]. apply bind_Ret in Hb as (c & w3 & Hc & Hb).
  assert (H3 : issued (env w3) = issued (env w)).
  { unfold match_node_file, catch, get_node_name, on_env, mbind, M_bind in Hc.
    pose proof (issued_read ("/var/lib/hare" +:+ "/node-name") (env w)) as Hi.
    destruct (read_file _ (env w)) as [[t | e |] e1]; cbn in Hi, Hc; [by injection Hc as _ <- | | done].
    destruct e; try done; by injection Hc as _ <-. }
  destruct c; [by injection Hb as _ <-|].
  unfold match_localhost, on_env, mbind, M_bind in Hb.
  pose proof (issued_gethostname (env w3)) as Hi.
  destruct (call_gethostname (env w3)) as [[t | e |] e1]; cbn in Hi, Hb; [| done | done].
  injection Hb as _ <-. cbn. congruence.
Qed.

Lemma process_stop_issues p (w w' : World E) : process_stop p w = (Ret tt, w') ->
  exists cs, issued (env w') = issued (env w) ++ cs /\ stop_commands [p] cs.
Proof.
  unfold process_stop, stop_commands. cbn [List.filter].
  change (String.eqb (p_status p) "passing") with (is_passing p).
  destruct (is_passing p); [| intros [= <-]; exists []; by rewrite app_nil_r].
  intros (pre & w1 & (He & Hpre)%ssh_prefix_ret & Hr)%bind_Ret.
  apply bind_Ret in Hr as (b & w2 & Hb & Hr). injection Hr as <-.
  unfold exec_silent, on_env, mbind, M_bind in Hb. set (cmd := pre +:+ _) in Hb.
  pose proof (issued_call cmd (env w1)) as Hi.
  destruct (call_shell cmd (env w1)) as [[rc | e |] e1]; cbn in Hi, Hb; [| done | done].
  injection Hb as _ <-. exists [cmd]. cbn. split; [congruence|]. constructor; [| constructor].
  unfold cmd. destruct Hpre as [-> | ->]; [by left|]. right. by rewrite !append_assoc.
Qed.

(** *** The invariant *)

(** Every process is in one place: to be put, queued, with a worker, done, or given up by an
    exception; the messages to quit follow all others, one for each worker that has
    not taken one; a worker that has died has had a process of its own; and while
    nothing was raised the commands issued are those of the processes done. *)
Definition pool_inv (procs : list Process) (n : nat) (w0 : World E) (s : Pool) : Prop :=
  exists rest k,
    q_items s ++ pending s = (StopProcess <$> rest) ++ replicate k QuitMessage
    /\ (k + count has_returned (worker_pool s) = n)%nat /\ length (worker_pool s) = n
    /\ p_done s ++ p_raised s ++ busy (worker_pool s) ++ rest ≡ₚ procs
    /\ count has_died (worker_pool s) = length (p_raised s)
    /\ (count has_returned (worker_pool s) = 0%nat \/ rest = [])
    /\ q_maxsize s = length procs
    /\ (p_main s = PReturned -> Forall (fun x => ended x = true) (worker_pool s))
    /\ (p_raised s = [] -> exists cs,
          issued (env (p_world s)) = issued (env w0) ++ cs /\ stop_commands (p_done s) cs).

(** Each step lowers it. *)
Definition pool_measure (s : Pool) : nat :=
  (3 * length (pending s) + 2 * length (q_items s) + length (busy (worker_pool s))
   + match p_main s with PPut _ => 2 | PJoin => 1 | PReturned => 0 end)%nat.

Lemma pool_init_inv procs tc w0 s : stop_parallel procs tc w0 = Some s ->
  pool_inv procs (Nat.min tc (length procs)) w0 s.
Proof.
  unfold stop_parallel. destruct procs as [| p procs]; [done|]. intros [= <-].
  set (n := Nat.min tc _). exists (p :: procs), n.
  cbn [q_items pending p_main worker_pool p_done p_raised p_world q_maxsize].
  assert (Hb : forall k, busy (replicate k WGet) = [] /\ count has_returned (replicate k WGet) = 0%nat
    /\ count has_died (replicate k WGet) = 0%nat) by (by induction k as [| k IH]).
  destruct (Hb n) as (-> & -> & ->). rewrite length_replicate.
  split_and!; try done; try lia. intros _. exists [].
  split; [by rewrite app_nil_r | constructor].
Qed.

Lemma pool_inv_step procs n w0 s s' :
  pool_inv procs n w0 s -> pool_step s s' -> pool_inv procs n w0 s'.
Proof.
  intros (rest & k & Hflow & Hk & Hl & Hp & Hd & Hr & Hcap & Hret & Hcs) Hstep.
  destruct Hstep as [q cap ws m l w dn rs Hq | q cap ws w dn rs | q cap w1 w2 m p w dn rs
    | q cap w1 w2 m w dn rs | q cap w1 w2 m p w w' dn rs Hstop | q cap w1 w2 m p w w' e dn rs Hstop
    | q cap ws w dn rs Hall];
    unfold pool_inv; cbn [q_items pending p_main worker_pool p_done p_raised p_world q_maxsize] in *;
    rewrite ?busy_mid, ?count_mid, ?length_app in *; cbn in *.
  - exists rest, k. rewrite <- app_assoc. by split_and!.
  - exists rest, k. by split_and!.
  - destruct rest as [| p' rest]; [by destruct k|]. injection Hflow as -> Hflow.
    exists rest, k. split_and!; try done; try lia.
    + rewrite <- Hp. do 2 f_equiv. rewrite <- !app_assoc. f_equiv. cbn. by rewrite Permutation_middle.
    + destruct Hr; [left; lia | done].
    + intros Hm. by apply not_all_ended in Hret.
  - destruct rest as [| p' rest]; [| done]. destruct k as [| k]; [done|]. injection Hflow as Hflow.
    exists [], k. split_and!; try done; try lia; [by right|].
    intros Hm. by apply not_all_ended in Hret.
  - exists rest, k. split_and!; try done; try lia.
    + rewrite <- Hp, <- !app_assoc. f_equiv. cbn. rewrite Permutation_middle. f_equiv.
      by rewrite Permutation_middle.
    + intros Hm. by apply not_all_ended in Hret.
    + intros Hrs. destruct (Hcs Hrs) as (cs & Hi & Hf).
      destruct (process_stop_issues _ _ _ Hstop) as (c & Hi' & Hf'). exists (cs ++ c).
      rewrite Hi', Hi, app_assoc. split; [done|]. unfold stop_commands in *.
      rewrite List.filter_app. by apply Forall2_app.
  - exists rest, k. split_and!; try done; try lia.
    + rewrite <- Hp, <- !app_assoc. do 2 f_equiv. cbn. by rewrite Permutation_middle.
    + intros Hm. by apply not_all_ended in Hret.
    + intros Hrs. by destruct rs.
  - exists rest, k. by split_and!.
Qed.

Lemma pool_inv_reachable procs tc w0 s0 s :
  stop_parallel procs tc w0 = Some s0 -> rtc pool_step s0 s ->
  pool_inv procs (Nat.min tc (length procs)) w0 s.
Proof.
  intros Hi Hr. refine (rtc_ind_r (fun s => pool_inv procs _ w0 s) s0 _ _ s Hr).
  - by apply pool_init_inv.
  - intros x y _ Hstep Hx. by eapply pool_inv_step.
Qed.

(** A worker that has not ended can go on while there are messages. *)
Lemma worker_moves q cap ws m (w : World E) dn rs :
  (forall p, (process_stop p w).1 <> Hang) -> q <> [] -> ~ Forall (fun x => ended x = true) ws ->
  exists s', pool_step (mkPool q cap ws m w dn rs) s'.
Proof.
  intros Hh Hq Hn. destruct (some_worker ws) as [| (w1 & x & w2 & -> & Hx)]; [done|].
  destruct x as [| p | |]; try done.
  - destruct q as [| [p |] q]; [done | eexists; apply pool_get_stop | eexists; apply pool_get_quit].
  - specialize (Hh p). destruct (process_stop p w) as [[[] | e |] w'] eqn:Es; [| | done].
    + eexists. by apply pool_stopped.
    + eexists. by eapply pool_raised.
Qed.

(** With all workers gone there is room in the queue for what is still to be put. *)
Lemma room_for_rest procs n w0 (s : Pool) : pool_inv procs n w0 s ->
  Forall (fun x => ended x = true) (worker_pool s) ->
  (length (q_items s) + length (pending s) <= q_maxsize s)%nat.
Proof.
  intros (rest & k & Hflow & Hk & Hl & Hp & Hd & _ & Hcap & _) Hall.
  apply all_ended in Hall as [Hc Hb]. rewrite Hb in Hp.
  apply (f_equal length) in Hflow. apply Permutation_length in Hp.
  rewrite !length_app in *. cbn in *. rewrite length_fmap, length_replicate in Hflow. lia.
Qed.

Lemma pool_progress procs n w0 s :
  (forall p (w : World E), (process_stop p w).1 <> Hang) ->
  (0 < n <= length procs)%nat -> pool_inv procs n w0 s -> p_main s <> PReturned ->
  exists s', pool_step s s'.
Proof.
  intros Hh Hn Hinv Hm. pose proof (room_for_rest _ _ _ _ Hinv) as Hroom.
  destruct Hinv as (rest & k & Hflow & Hk & Hl & Hp & Hd & Hr & Hcap & _).
  destruct s as [q cap ws m w dn rs].
  cbn [q_items pending p_main worker_pool p_done p_raised q_maxsize] in *.
  destruct m as [[| x l] | |]; [eexists; apply pool_put_done | | | done].
  - destruct (decide (length q < cap)%nat) as [Hq | Hq]; [eexists; by apply pool_put|].
    apply worker_moves; [done | destruct q; [cbn in Hq; lia | done] |].
    intros Hall. specialize (Hroom Hall). cbn in Hroom. lia.
  - destruct (some_worker ws) as [Hall | (w1 & x & w2 & Hws & Hx)]; [eexists; by apply pool_join|].
    assert (Hne : ~ Forall (fun x => ended x = true) ws) by (rewrite Hws; by apply not_all_ended).
    destruct q as [| y q]; [| by apply worker_moves].
    destruct x as [| p | |]; try done.
    + cbn in Hflow. destruct rest; [| done]. destruct k; [| done]. subst ws.
      rewrite count_mid, length_app in *. cbn in *. unfold count in *.
      pose proof (List.filter_length_le has_returned w1).
      pose proof (List.filter_length_le has_returned w2). lia.
    + subst ws. specialize (Hh p w). destruct (process_stop p w) as [[[] | e |] w'] eqn:Es; [| | done].
      * eexists. by apply pool_stopped.
      * eexists. by eapply pool_raised.
Qed.

Lemma pool_step_measure (s s' : Pool) : pool_step s s' -> (pool_measure s' < pool_measure s)%nat.
Proof.
  unfold pool_measure, pending.
  destruct 1; cbn [p_main q_items worker_pool]; rewrite ?busy_mid, ?length_app; cbn; lia.
Qed.
End PoolProps.

(** C20: The pool of [stop_parallel] always comes to its end, in every interleaving, as
    long as no call of [process_stop] blocks: no run is longer than the measure of the
    initial state and a state in which the main thread has not returned has a next
    step, exceptions in the workers included.  When it has returned, every process was
    given to [process_stop] once, unless each of the workers was ended by an exception; and
    when none was raised, the commands issued are the stop commands of the processes
    that were passing, one each, and nothing for the others. *)
Theorem stop_parallel_stops_all {E} `{ShellTrace E} procs tc (w0 : World E) s0 :
  (0 < tc)%nat -> (forall p (w : World E), (process_stop p w).1 <> Hang) ->
  stop_parallel procs tc w0 = Some s0 ->
  (forall k s, nsteps pool_step k s0 s -> (k <= pool_measure s0)%nat)
  /\ (forall s, rtc pool_step s0 s -> p_main s <> PReturned -> exists s', pool_step s s')
  /\ (forall s, rtc pool_step s0 s -> p_main s = PReturned ->
       ((length (p_raised s) < Nat.min tc (length procs))%nat -> p_done s ++ p_raised s ≡ₚ procs)
       /\ (p_raised s = [] -> exists cs,
            issued (env (p_world s)) = issued (env w0) ++ cs /\ stop_commands (p_done s) cs)).
Proof.
  intros Htc Hh Hi. assert (Hn : (0 < Nat.min tc (length procs) <= length procs)%nat).
  { destruct procs as [| p procs]; [done|]. cbn [length]. lia. }
  split; [| split].
  - intros k s Hk. clear Hi Hn. induction Hk as [s | k s s1 s2 Hs _ IH]; [lia|].
    apply pool_step_measure in Hs. lia.
  - intros s Hr. eapply pool_progress; [exact Hh | exact Hn | by eapply pool_inv_reachable].
  - intros s Hr Hm. destruct (pool_inv_reachable _ _ _ _ _ Hi Hr)
      as (rest & k & _ & _ & Hl & Hp & Hd & Hrest & _ & Hall & Hcs).
    split; [| exact Hcs]. intros Hlt. destruct (all_ended _ (Hall Hm)) as [Hc Hb]. rewrite Hb in Hp.
    destruct Hrest as [Hr0 | ->]; [lia|]. by rewrite !app_nil_r in Hp.
Qed.

(** ** A host *)
Section Witnesses.

(** The commands given to the shell so far; no file can be read. *)
#[local] Instance wit_host : Host (list string) := {|
  popen _ _ _ := raise (FileNotFoundError ""); proc_close_stdout _ := mret tt;
  proc_communicate _ _ _ := mret (0, "", ""); os_system _ := mret 0; os_getenv _ := mret None;
  sys_path := mret []; path_exists _ := mret false; path_isdir _ := mret false; os_makedirs _ := mret tt;
  os_listdir _ := mret []; read_file p := raise (FileNotFoundError p); write_file _ _ := mret tt;
  copy_file _ _ := mret tt; copy_tree _ _ := mret tt; device_size _ := mret 0;
  device_blksize _ := mret 0 |}.
#[local] Instance wit_calls : CallApi (list string) := {|
  call_argv _ := mret 0; call_shell cmd := fun e => (Ret 0, e ++ [cmd]); call_gethostname := mret "n1" |}.
#[local] Instance wit_trace : ShellTrace (list string).
Proof. refine {| issued e := e |}; done. Defined.

Definition demo_proc (node : string) (k : Z) (status : string) : Process :=
  mkProcess node "ios" (get_systemd_name k "ios") k status false.
Definition demo_procs : list Process :=
  [demo_proc "n1" 1 "passing"; demo_proc "n2" 2 "warning"; demo_proc "n2" 3 "passing"].
Definition demo_host : World (list string) := world_init [] None 1.

Lemma stop_parallel_stops_all_witness :
  exists s0, stop_parallel demo_procs 2 demo_host = Some s0
    /\ (forall k s, nsteps pool_step k s0 s -> (k <= pool_measure s0)%nat)
    /\ (forall s, rtc pool_step s0 s -> p_main s <> PReturned -> exists s', pool_step s s')
    /\ (forall s, rtc pool_step s0 s -> p_main s = PReturned -> p_raised s = [] ->
          p_done s ≡ₚ demo_procs /\ stop_commands (p_done s) (env (p_world s))).
Proof.
  eexists. split; [reflexivity|].
  assert (Hh : forall p (w : World (list string)), (process_stop p w).1 <> Hang).
  { intros p w. unfold process_stop, ssh_prefix, assert. destruct (String.eqb (p_status p) _); [| done].
    destruct (String.eqb (consul_to_local_nodename _) ""); [done|]. vm_compute. discriminate. }
  destruct (stop_parallel_stops_all demo_procs 2 demo_host _ ltac:(lia) Hh eq_refl) as (Hm & Hp & Hr).
  split_and!; [exact Hm | exact Hp |]. intros s Hs He Hrs. destruct (Hr s Hs He) as [Hd Hc].
  split; [rewrite Hrs, app_nil_r in Hd; apply Hd; cbn; lia|].
  destruct (Hc Hrs) as (cs & Hi & Hf). cbn in Hi. by rewrite Hi.
Defined.
End Witnesses.
