(* ===== verification/HaxMain.v ===== *)
(** * Start-up of hax ([src/hax/hax/hax.py], [ServerRunner] of [server.py], [queue/cli.py])

    The function [main] with the calls it makes before it serves requests, the
    server it runs until hax is stopped, the handlers that run a script, and the
    command that publishes to a queue.  [WebServer] is the interface of aiohttp and
    of [ssl]; a route pairs a method and a path with its handler. *)

From S2P Require Import Prelude PyStr PyFloat Json HaxTypes Message LinkedList Planner Delivery.
From S2P Require Import World Cache ConsulStore Consul Queue ConsulUtil ConfTree ProcStatus Frame.
From S2P Require Import Motr HaEvents Handler BqProcessor Server ByteCount Exec.

(** What the handlers read of a request. *)
Record Request : Type := mkRequest {
  req_body : string; req_query : list (string * string); match_info : list (string * string) }.

Record Route (E : Type) : Type := mkRoute {
  rt_method : string; rt_path : string; rt_handler : Request -> M (World E) response }.
Arguments mkRoute {E}. Arguments rt_method {E}. Arguments rt_path {E}. Arguments rt_handler {E}.

(** [run_app] blocks until the server stops: address, port, certificate and key
    of the TLS context. *)
Class WebServer (E : Type) := {
  run_app : list (Route E) -> string -> Z -> option (string * string) -> M (World E) unit;
  load_cert_chain : string -> string -> M E unit;
}.

(** The threads of hax; [stop] sets the flags. *)
Inductive thread : Type :=
| ConsumerThread (idx : Z) (is_stopped : nat)
| RconfcThread (s : RconfcStarter)
| FsStatsUpdater (u : Updater)
| ByteCountUpdater (u : Updater)
| EventPollingThread (stopped event : nat)
| StubEventThread.

Definition thread_flags (t : thread) : list nat :=
  match t with
  | ConsumerThread _ f => [f]
  | RconfcThread s => [rs_stopped s; rs_event s]
  | FsStatsUpdater u | ByteCountUpdater u => [up_stopped u; up_event u]
  | EventPollingThread s e => [s; e]
  | StubEventThread => []
  end.

Record HL_Fids : Type := mkHL { hl_hax_ep : string; hl_hax_fid : Fid; hl_ha_fid : Fid;
                                hl_profiles : list Profile }.

(** The process: its world and the threads started, oldest first, each with the calls into
    Motr that had been made when it was started. *)
Record Proc (E : Type) : Type := mkProc { pworld : World E; started : list (thread * list ffi_call) }.
Arguments mkProc {E}. Arguments pworld {E}. Arguments started {E}.

Section HaxMain.
Context {E : Type} `{ConsulApi E} `{MotrFfi E} `{CortxUtils E} `{Host E} `{WebServer E}.
Context `{Others E} `{Fuel} `{Clock E}.
Notation W := (World E).
Notation P := (Proc E).
Notation retry := (repeat_if_fails (-1)).

(** ** Before the server *)

(** [re.match('^elect[\d]+$', node)] *)
Definition is_stub_leader (node : string) : bool :=
  bool_decide (is_Some (rx_match [RLit "elect"; RDigits; REnd] node)).

(** [kv_get_raw] returns a pair, which is never false: the guard of the early
    return does not hold. *)
Definition pair_truthy {A B} (x : A * B) : bool := true.

Definition remove_stale_session_body : M W unit :=
  leader ← kv_get_raw "leader" false;
  if negb (pair_truthy leader) then mret tt
  else
    sess ← get_leader_session_no_wait;
    present ← is_leader_value_present_for_session;
    if (present : bool) then
      node ← get_leader_node;
      if is_stub_leader node then destroy_session sess else mret tt
    else destroy_session sess.

Definition remove_stale_session : M W unit := retry remove_stale_session_body.

(** [_get_motr_fids]: [None] when [log_exception] swallowed the exception.  A [Fid]
    is a named tuple with two fields, so it is never false. *)
Definition get_motr_fids : M W (option HL_Fids) :=
  catch
    (cfg ← retry
       (catch
          (hax_ep ← get_hax_endpoint None;
           hax_fid ← get_hax_fid None;
           ha_fid ← get_ha_fid None;
           profiles ← get_profiles None;
           if String.eqb hax_ep "" || (length profiles =? 0)%nat
           then raise (HAConsistencyException "fids and profiles unavailable")
           else mret (mkHL hax_ep hax_fid ha_fid profiles))
          (fun _ => Some (raise (HAConsistencyException "failed to get motr fids"))));
     mret (Some cfg))
    (fun _ => Some (mret None)).

(** [handle_signal] *)
Definition handle_signal : M W unit :=
  modify (set_stopping true) ;;
  modify (fun w => set_planner (shutdown (work_planner w)) (next_oid w) w).

(** ** Handlers that run a script *)
Definition get_python_env : M W (list (string * string)) :=
  path ← on_env (os_getenv "PATH");
  p ← lift (dict_get "PATH" path);
  sp ← on_env sys_path;
  pp ← on_env (os_getenv "PYTHONPATH");
  let py_path := py_join ":" sp in
  mret [("PATH", py_join ":" ["/opt/seagate/cortx/hare/bin"; "/opt/seagate/cortx/hare/libexec"; p]);
        ("PYTHONPATH", match pp with Some v => v +:+ ":" +:+ py_path | None => py_path end)].

Definition script_reply (cmd : list string) : M W response :=
  e ← get_python_env;
  result ← exec_run (program cmd) (Some e);
  mret (RespText result).

Definition bytecount_stat (r : Request) : M W response :=
  script_reply ["/opt/seagate/cortx/hare/libexec/hare-status"; "--bytecount"].
Definition hctl_stat (r : Request) : M W response :=
  script_reply ["/opt/seagate/cortx/hare/libexec/hare-status"; "--json"].
Definition hctl_fetch_fids (r : Request) : M W response :=
  script_reply ["/opt/seagate/cortx/hare/libexec/hare-fetch-fids"; "--all"; "--use-kv-store"].
Definition hello_reply (r : Request) : M W response := mret (RespText "I'm alive! Sincerely, HaX").

(** ** ServerRunner *)
Definition get_my_hostname : M W string := get_hax_hostname None.

(** [request.query['pool_fid']] is read after the reply queue is made. *)
Definition sns_status_handler (repair : bool) (r : Request) : M W response :=
  match dict_find "pool_fid" (req_query r) with
  | Some f => get_sns_status repair f
  | None => new_oid ;; raise (KeyError "pool_fid")
  end.

(** [add_routes]; every handler runs under the middleware [encode_exception]. *)
Definition app_routes (o : OffsetStorage) : list (Route E) :=
  (fun x => mkRoute x.1.1 x.1.2 (fun r => encode_exception (x.2 r))) <$>
  [("GET", "/", hello_reply);
   ("GET", "/v1/cluster/status", hctl_stat);
   ("GET", "/v1/cluster/status/bytecount", bytecount_stat);
   ("GET", "/v1/cluster/fetch-fids", hctl_fetch_fids);
   ("POST", "/", fun r => process_ha_states (req_body r));
   ("POST", "/watcher/bq", fun r => process_bq_update o (req_body r));
   ("POST", "/watcher/processes", fun r => process_state_update (req_body r));
   ("POST", "/api/v1/sns/{operation}",
      fun r => process_sns_operation (default "" (dict_find "operation" (match_info r))) (req_body r));
   ("GET", "/api/v1/sns/repair-status", sns_status_handler true);
   ("GET", "/api/v1/sns/rebalance-status", sns_status_handler false);
   ("POST", "/v1/events/subscribe", fun r => event_subscription_handle (req_body r));
   ("POST", "/v1/events/unsubscribe", fun r => event_unsubscription_handle (req_body r))].

(** [_configure] *)
Definition server_configure : M W (list (Route E)) :=
  retry
    (catch
       (node_address ← get_my_hostname;
        mret (app_routes (mkOffset node_address "bq-delivered")))
       (fun _ => Some (raise (HAConsistencyException "Failed to configure hax")))).

(** [_get_ssl_context]; [all(map(...))] stops at the first path that is missing. *)
Definition get_ssl_context : M W (option (string * string)) :=
  o ← get_hax_ssl_config None;
  match o with
  | None => mret None
  | Some cfg =>
      if negb (truthy cfg) then mret None
      else
        protocol ← lift (jget_or "http_protocol" JNull cfg);
        if match protocol with JStr s => String.eqb s "https" | _ => false end then
          cert ← lift (jget_or "cert_path" (JStr "") cfg);
          private_key ← lift (jget_or "key_path" (JStr "") cfg);
          c ← lift (match cert with JStr s => Ret s | _ => Raise TypeError end);
          ok1 ← on_env (path_exists c);
          ok2 ← (if (ok1 : bool) then
                   k ← lift (match private_key with JStr s => Ret s | _ => Raise TypeError end);
                   on_env (path_exists k)
                 else mret false);
          if (ok2 : bool) then
            k ← lift (match private_key with JStr s => Ret s | _ => Raise TypeError end);
            on_env (load_cert_chain c k) ;;
            mret (Some (c, k))
          else mret None
        else mret None
  end.

(** [_start] *)
Definition server_start (app : list (Route E)) (port : Z) : M W unit :=
  retry
    (catch
       (web_address ← get_my_hostname;
        ssl_context ← get_ssl_context;
        run_app app web_address port ssl_context)
       (fun _ => Some (raise (HAConsistencyException
                                "Failed to start web server, trying again...")))).

(** The [finally] block of [run]: joining a thread lets the others run. *)
Definition stop_threads (threads : list thread) : M W unit :=
  server_finally (thread_flags <$> threads) ;;
  for_each threads (fun _ => sleep).

Definition server_attempt (threads : list thread) (port : Z) : M W unit :=
  app ← server_configure;
  try_finally
    (catch (server_start app port)
       (fun _ => Some (raise (HAConsistencyException
                                "Failed to start web server, trying again..."))))
    (stop_threads threads).

Definition server_run (threads : list thread) (port : Z) : M W unit :=
  retry (server_attempt threads port).

(** ** main *)
Definition on_world {A} (m : M W A) : M P A := fun p =>
  let '(r, w) := m (pworld p) in (r, mkProc w (started p)).

(** [_run_thread]: the thread runs from here on. *)
Definition run_thread (t : thread) : M P thread :=
  modify (fun p => mkProc (pworld p) (started p ++ [(t, ffi_log (pworld p))])) ;;
  on_world sleep ;; mret t.

(** Constructors of the threads: their flag and their event are new objects. *)
Definition new_consumer (idx : Z) : M W thread := f ← new_oid; mret (ConsumerThread idx f).
Definition new_updater : M W Updater := s ← new_oid; e ← new_oid; mret (mkUpdater s e).
Definition new_rconfc : M W RconfcStarter := s ← new_oid; e ← new_oid; mret (mkRconfcStarter s e).

(** [create_ha_thread] *)
Definition create_ha_thread : M W thread :=
  if cortx_importable then s ← new_oid; e ← new_oid; mret (EventPollingThread s e)
  else mret StubEventThread.

Definition consumer_indices : list Z := Z.of_nat <$> seq 0 32.

(** The statements of [main] before the [try]: the port of the server, the
    configuration and the consumer threads.  [cfg.hax_fid] of [None] raises. *)
Definition main_setup : M P (Z * HL_Fids * list thread) :=
  on_world (modify (fun w => set_planner planner_init (next_oid w) w)) ;;
  on_world (modify (set_all_node_items [])) ;;
  on_world remove_stale_session ;;
  o ← on_world get_motr_fids;
  hax_http_port ← on_world get_hax_http_port;
  on_world init_motr_processes_status ;;
  on_world ha_utils_init ;;
  on_world (event_subscribe [("node", JStr "health_message")]) ;;
  cfg ← lift (match o with Some c => Ret c | None => Raise AttributeError end);
  on_world (modify (fun w => set_delivery (herald_init MAX_UNSORTED_TTL) (next_oid w) w)) ;;
  on_world motr_init ;;
  on_world (modify (set_locks (replicate 32 false))) ;;
  consumer_threads ← map_m (fun i => t ← on_world (new_consumer i); run_thread t) consumer_indices;
  mret (hax_http_port, cfg, consumer_threads).

(** The body of the [try]. *)
Definition main_serve (port : Z) (cfg : HL_Fids) (consumer_threads : list thread) : M P unit :=
  profile ← lift (index_get 0 (hl_profiles cfg));
  on_world (start (hl_hax_ep cfg) (hl_hax_fid cfg) (hl_ha_fid cfg) profile) ;;
  rs ← on_world new_rconfc;
  rconfc_starter ← run_thread (RconfcThread rs);
  su ← on_world new_updater;
  stats_updater ← run_thread (FsStatsUpdater su);
  bu ← on_world new_updater;
  bc_updater ← run_thread (ByteCountUpdater bu);
  ht ← on_world create_ha_thread;
  event_poller ← run_thread ht;
  on_world (server_run
    (consumer_threads ++ [stats_updater; bc_updater; rconfc_starter; event_poller]) port).

Definition main : M P unit :=
  x ← main_setup;
  let '(port, cfg, consumer_threads) := x in
  try_finally (catch (main_serve port cfg consumer_threads) (fun _ => Some (mret tt)))
    (on_world fini).

(** ** The command of the queues ([queue/cli.py])

    [main] calls [publish(type, payload)], without the time stamp the method
    requires. *)
Definition publisher_named (name : string) : option Publisher :=
  if String.eqb name "eq" then Some EQPublisher
  else if String.eqb name "bq" then Some BQPublisher else None.

Definition publish_args (p : Publisher) (args : list string) : M W Z :=
  match args with
  | [timestamp; message_type; payload] => publish p timestamp message_type payload
  | _ => raise TypeError
  end.

Definition queue_cli_main (queue type payload : string) : M W (option Z) :=
  match publisher_named (py_lower queue) with
  | None => mret None
  | Some pub =>
      catch (offset ← publish_args pub [type; payload]; mret (Some offset))
        (fun _ => Some (mret None))
  end.
End HaxMain.
