(* ===== verification/HaxMainProps.v ===== *)
(** * Properties of the start-up and of the server loop *)

From S2P Require Import Prelude PyStr PyFloat Json HaxTypes Message LinkedList Planner Delivery.
From S2P Require Import World Cache ConsulStore Consul Queue ConsulUtil ConfTree ProcStatus Frame.
From S2P Require Import Motr MotrProps HaEvents Handler BqProcessor Server ByteCount Exec HaxMain Demo.

(** ** Retrying *)
Section Retry.
Context {E : Type} `{Others E} `{Fuel}.
Notation W := (World E).

(** An unlimited retry raises [HAConsistencyException] only when hax stops. *)
Lemma retry_raises {A} (f : M W A) w e w' :
  repeat_if_fails (-1) f w = (Raise e, w') ->
  (exists m, e = HAConsistencyException m /\ stopping w' = true)
  \/ (exists v, f v = (Raise e, w') /\ forall m, e <> HAConsistencyException m).
Proof.
  unfold repeat_if_fails. generalize 0. revert w. induction fuel as [| n IH]; intros w c; cbn; [done|].
  destruct (f w) as [[a | e1 |] w1] eqn:Ef; [done | | done].
  destruct e1; try (intros [= <- <-]; right; exists w; split; [done | by intros]).
  destruct (stopping w1) eqn:Es; [intros [= <- <-]; left; eauto|].
  unfold sleep. rewrite bind_modify. apply IH.
Qed.

(** When every failure of the body is wrapped, only a stop ends the retries. *)
Lemma wrapped_retry_raises {A} (m : M W A) msg w e w' :
  repeat_if_fails (-1) (catch m (fun _ => Some (raise (HAConsistencyException msg)))) w
    = (Raise e, w') ->
  stopping w' = true.
Proof.
  intros [(x & _ & Hs) | (v & Hv & Hx)]%retry_raises; [done|].
  unfold catch in Hv. destruct (m v) as [[a | e1 |] w1]; try done.
  injection Hv as <- <-. by destruct (Hx msg).
Qed.
End Retry.

(** ** The stale session *)

(** The session of this leader entry is destroyed. *)
Definition stale_entry (i : kvitem) : bool :=
  match Value i with None => true | Some node => is_stub_leader node end.

Section StaleSession.
Context {E : Type} `{ConsulApi E} `{!ConsulLaws E} `{Others E} `{Fuel}.
Notation W := (World E).
Implicit Types w : W.

(** [kv_get] with a cache of its own, on every answer. *)
Lemma kv_get_own k r an w :
  available (env w) = true -> k <> "" ->
  exists w', kv_get k r an None w = (kv_get_outcome k r an (view (env w)), w') /\ core w' = core w.
Proof.
  intros Ha Hk. destruct (kv_get_outcome k r an (view (env w))) as [d | e |] eqn:Ho.
  - by apply kv_get_miss_core.
  - exists (new_cache w).2. split; [| done]. unfold kv_get, uses_consul_cache. cbn [cache_or_new].
    rewrite (bind_unfold_Ret _ _ w (next_cache w) (new_cache w).2) by done.
    rewrite bind_gets. unfold cache_get. cbn. rewrite lookup_insert_eq. cbn.
    apply bind_unfold_Raise. rewrite kv_get_body by done. change (env _) with (env w). by rewrite Ho.
  - unfold kv_get_outcome in Ho. by destruct (store_read _ _ _).2; destruct an as [[] |].
Qed.

Lemma leader_read an w :
  available (env w) = true ->
  exists w', kv_get "leader" None an None w
    = (match entries (view (env w)) !! "leader" with
       | Some i => Ret (KVItem i)
       | None => if default false an then Ret KVNone
                 else Raise (HAConsistencyException "Could not get data from Consul KV")
       end, w') /\ core w' = core w.
Proof.
  intros Ha. destruct (kv_get_own "leader" None an w Ha) as (w' & Hw & Hc); [done|].
  exists w'. split; [| done]. rewrite Hw. unfold kv_get_outcome, store_read, store_get. cbn.
  by destruct (_ !! "leader").
Qed.

(** What the body of [_remove_stale_session] does with a leader entry. *)
Lemma stale_body w i s r e' :
  available (env w) = true -> fuel <> 0%nat ->
  entries (view (env w)) !! "leader" = Some i -> Session i = Some s ->
  consul_session_destroy s (env w) = (r, e') ->
  exists w', core w' = core w /\
    remove_stale_session_body w = if stale_entry i then destroy_session s w' else (Ret tt, w').
Proof.
  intros Ha Hf Hl Hs Hd.
  destruct (leader_read None w Ha) as (w1 & Hr1 & C1). rewrite Hl in Hr1.
  assert (A1 : available (env w1) = true) by by rewrite (core_env _ _ C1).
  assert (L1 : entries (view (env w1)) !! "leader" = Some i) by by rewrite (core_env _ _ C1).
  destruct (leader_read (Some true) w1 A1) as (w2 & Hr2 & C2). rewrite L1 in Hr2.
  assert (A2 : available (env w2) = true) by by rewrite (core_env _ _ C2).
  assert (L2 : entries (view (env w2)) !! "leader" = Some i) by by rewrite (core_env _ _ C2).
  destruct (leader_read (Some true) w2 A2) as (w3 & Hr3 & C3). rewrite L2 in Hr3.
  unfold remove_stale_session_body.
  rewrite (bind_unfold_Ret _ _ _ _ _ (kv_get_raw_ok "leader" false w Ha ltac:(done))). cbn [pair_truthy negb].
  rewrite (bind_unfold_Ret _ _ w s w1).
  2:{ unfold get_leader_session_no_wait, catch. rewrite (bind_unfold_Ret _ _ _ _ _ Hr1). cbn.
      unfold mbind, M_bind, lift, dict_get. by rewrite Hs. }
  rewrite (bind_unfold_Ret _ _ w1 (match Value i with None => false | Some _ => true end) w2).
  2:{ unfold is_leader_value_present_for_session. by rewrite (bind_unfold_Ret _ _ _ _ _ Hr2). }
  unfold stale_entry. destruct (Value i) as [node |] eqn:Ev.
  - exists w3. split; [congruence|].
    rewrite (bind_unfold_Ret _ _ w2 node w3); [by destruct (is_stub_leader node)|].
    unfold get_leader_node. apply repeat_if_fails_ret; [| done | done].
    rewrite (bind_unfold_Ret _ _ _ _ _ Hr3). cbn. unfold mbind, M_bind, lift. by rewrite Ev.
  - exists w2. split; [congruence | done].
Qed.

(** With a leader key held by a session, start-up destroys that session
    exactly when the key has no value or a stub value ([elect] and digits), so that
    a new RC can be elected; the session of a real leader is left alone. *)
Theorem stale_session_removed w i s e' :
  available (env w) = true -> fuel <> 0%nat ->
  entries (view (env w)) !! "leader" = Some i -> Session i = Some s ->
  consul_session_destroy s (env w) = (Ret tt, e') ->
  exists w', remove_stale_session w = (Ret tt, w')
    /\ env w' = (if stale_entry i then e' else env w) /\ stopping w' = stopping w.
Proof.
  intros Ha Hf Hl Hs Hd. destruct (stale_body w i s _ _ Ha Hf Hl Hs Hd) as (w1 & C1 & Hb).
  pose proof (core_env _ _ C1) as E1.
  assert (Hds : destroy_session s w1 = (Ret tt, set_env e' w1)).
  { apply wrap_consul_ret. unfold on_env. by rewrite E1, Hd. }
  rewrite Hds in Hb.
  exists (if stale_entry i then set_env e' w1 else w1).
  split; [| split; destruct (stale_entry i); try done; by apply (f_equal stopping) in C1].
  apply repeat_if_fails_ret; [| done | done]. rewrite Hb. by destruct (stale_entry i).
Qed.

(** Consul answers, there is no leader key, and hax is not stopping. *)
Definition no_leader (w : W) : Prop :=
  available (env w) = true /\ entries (view (env w)) !! "leader" = None /\ stopping w = false.

Lemma no_leader_core w w' : core w' = core w -> no_leader w -> no_leader w'.
Proof.
  intros Hc (Ha & Hl & Hs). unfold no_leader. rewrite (core_env _ _ Hc).
  apply (f_equal stopping) in Hc. cbn in Hc. by rewrite Hc.
Qed.

Lemma no_leader_body w :
  no_leader w ->
  exists w', remove_stale_session_body w
    = (Raise (HAConsistencyException "Could not get data from Consul KV"), w') /\ no_leader w'.
Proof.
  intros Hn. pose proof Hn as (Ha & Hl & Hs). destruct (leader_read None w Ha) as (w1 & Hr1 & C1).
  rewrite Hl in Hr1. exists w1. split; [| by eapply no_leader_core].
  unfold remove_stale_session_body.
  rewrite (bind_unfold_Ret _ _ _ _ _ (kv_get_raw_ok "leader" false w Ha ltac:(done))). cbn [pair_truthy negb].
  apply bind_unfold_Raise. unfold get_leader_session_no_wait, catch.
  by rewrite (bind_unfold_Raise _ _ _ _ _ Hr1).
Qed.

(** Against a fresh KV store, where there is no leader key, start-up does not
    return as its comment says: the early return is never taken, and the call
    is retried for as long as the key is missing and no stop is requested. *)
Theorem fresh_store_blocks_start w :
  (forall v, no_leader v -> no_leader (others v)) -> no_leader w ->
  exists w', remove_stale_session w = (Hang, w').
Proof.
  intros Ho. unfold remove_stale_session, repeat_if_fails. generalize 0. revert w.
  induction fuel as [| n IH]; intros w c Hn; cbn [repeat_loop]; [by eexists|].
  destruct (no_leader_body w Hn) as (w1 & Hb & Hn1). rewrite Hb.
  pose proof Hn1 as (_ & _ & Hs). rewrite Hs. unfold sleep. rewrite bind_modify. by apply IH, Ho.
Qed.
End StaleSession.

(** ** The server loop *)
Section ServerLoop.
Context {E : Type} `{ConsulApi E} `{MotrFfi E} `{CortxUtils E} `{Host E} `{WebServer E}.
Context `{Others E} `{Fuel} `{Clock E}.
Notation W := (World E).

(** hax is stopping, the planner is shut down, the threads were told to stop. *)
Definition all_stopped (ts : list thread) (w : W) : Prop :=
  stopping w = true /\ is_shutdown (state (work_planner w)) = true
  /\ forall t f, t ∈ ts -> f ∈ thread_flags t -> f ∈ events_set w.

Lemma set_flags (fs : list nat) (w : W) :
  exists w', for_each fs set_flag w = (Ret tt, w') /\ stopping w' = stopping w
    /\ work_planner w' = work_planner w /\ events_set w' = list_to_set fs ∪ events_set w.
Proof.
  revert w. induction fs as [| f fs IH]; intros w; cbn [for_each].
  - exists w. split_and!; [done | done | done | set_solver].
  - destruct (IH (set_flag f w).2) as (w' & Hw & Hs & Hp & He).
    exists w'. split_and!; [by rewrite <- Hw | done | done | rewrite He; cbn; set_solver].
Qed.

Lemma set_all_flags (fss : list (list nat)) (w : W) :
  exists w', for_each fss (fun fs => for_each fs set_flag) w = (Ret tt, w')
    /\ stopping w' = stopping w /\ work_planner w' = work_planner w
    /\ forall fs f, fs ∈ fss -> f ∈ fs -> f ∈ events_set w'.
Proof.
  assert (Hgen : exists w', for_each fss (fun fs => for_each fs set_flag) w = (Ret tt, w')
    /\ stopping w' = stopping w /\ work_planner w' = work_planner w
    /\ events_set w ⊆ events_set w' /\ forall fs f, fs ∈ fss -> f ∈ fs -> f ∈ events_set w').
  { revert w. induction fss as [| fs fss IH]; intros w; cbn [for_each].
    - exists w. split_and!; [done.. |]. intros fs f Hf. set_solver.
    - destruct (set_flags fs w) as (w1 & Hw1 & Hs1 & Hp1 & He1).
      destruct (IH w1) as (w2 & Hw2 & Hs2 & Hp2 & Hm2 & He2). exists w2.
      rewrite (bind_unfold_Ret _ _ _ _ _ Hw1).
      split_and!; [done | congruence | congruence | set_solver |].
      intros fs' f [-> | Hin]%elem_of_cons Hf; [| by eapply He2]. apply Hm2. rewrite He1. set_solver. }
  destruct Hgen as (w' & ? & ? & ? & _ & ?). eauto 10.
Qed.

(** The [finally] block always completes. *)
Lemma stop_threads_ok ts w :
  (forall v, all_stopped ts v -> all_stopped ts (others v)) ->
  exists w', stop_threads ts w = (Ret tt, w') /\ all_stopped ts w'.
Proof.
  intros Ho. unfold stop_threads, server_finally.
  set (w0 := set_planner (shutdown (work_planner (set_stopping true w))) (next_oid w) (set_stopping true w)).
  destruct (set_all_flags (thread_flags <$> ts) w0) as (w1 & Hw1 & Hs1 & Hp1 & He1).
  rewrite (bind_unfold_Ret _ _ w tt w1) by exact Hw1.
  assert (Hall : all_stopped ts w1).
  { split_and!; [by rewrite Hs1 | by rewrite Hp1 |]. intros t f Ht Hf.
    apply (He1 (thread_flags t)); [| done]. by apply list_elem_of_fmap_2. }
  clear -Ho Hall. generalize ts at 1. intros l. revert w1 Hall.
  induction l as [| t l IH]; intros w1 Hall; cbn [for_each]; [by eexists|].
  unfold sleep. rewrite bind_modify. by apply IH, Ho.
Qed.

(** How one attempt to serve can end. *)
Lemma server_attempt_ends ts port w r w' :
  (forall v, all_stopped ts v -> all_stopped ts (others v)) ->
  server_attempt ts port w = (r, w') -> r <> Hang ->
  stopping w' = true
  /\ ((exists app w1, server_configure w = (Ret app, w1)) -> all_stopped ts w').
Proof.
  intros Ho Hrun Hr. unfold server_attempt in Hrun.
  destruct (server_configure w) as [[app | e |] w1] eqn:Ec.
  - rewrite (bind_unfold_Ret _ _ _ _ _ Ec) in Hrun. unfold try_finally in Hrun.
    destruct (catch _ _ w1) as [r1 w2]. destruct (stop_threads_ok ts w2 Ho) as (w3 & Hst & Hall).
    rewrite Hst in Hrun. destruct r1; injection Hrun as <- <-; try done; split; by try apply Hall.
  - rewrite (bind_unfold_Raise _ _ _ _ _ Ec) in Hrun. injection Hrun as <- <-.
    split; [by eapply wrapped_retry_raises | by intros (app & w2 & [=])].
  - rewrite (bind_unfold_Hang _ _ _ _ Ec) in Hrun. by injection Hrun as <- <-.
Qed.

(** [ServerRunner.run] serves once.  When an attempt ends, [run] ends with it:
    the decorator never repeats it, since hax is stopping by then.  If the server was
    configured, then however it ended, with an exception or without, the planner is
    shut down and every thread was told to stop. *)
Theorem server_runs_once ts port w r w' :
  (forall v, all_stopped ts v -> all_stopped ts (others v)) ->
  server_attempt ts port w = (r, w') -> r <> Hang -> fuel <> 0%nat ->
  server_run ts port w = (r, w') /\ stopping w' = true
  /\ ((exists app w1, server_configure w = (Ret app, w1)) -> all_stopped ts w').
Proof.
  intros Ho Ha Hr Hf. destruct (server_attempt_ends ts port w r w' Ho Ha Hr) as [Hs Hall].
  split; [| done]. unfold server_run, repeat_if_fails. destruct fuel as [| n]; [done|].
  cbn [repeat_loop]. rewrite Ha. destruct r as [a | e |]; [done | | done]. destruct e; try done.
  by rewrite Hs.
Qed.

(** A stop that arrives while the server is being configured leaves the threads
    running: the [finally] block does not cover that call. *)
Lemma configure_failure_leaves_threads ts port w e w' :
  fuel <> 0%nat -> server_configure w = (Raise e, w') ->
  (server_run ts port w).2 = w'.
Proof.
  intros Hf Hc. unfold server_run, repeat_if_fails. destruct fuel as [| n]; [done|]. cbn [repeat_loop].
  unfold server_attempt. rewrite (bind_unfold_Raise _ _ _ _ _ Hc).
  assert (stopping w' = true) as Hs by by eapply wrapped_retry_raises.
  destruct e; try done. by rewrite Hs.
Qed.

End ServerLoop.

(** ** main *)
Section Main.
Context {E : Type} `{ConsulApi E} `{MotrFfi E} `{CortxUtils E} `{Host E} `{WebServer E}.
Context `{Others E} `{Fuel} `{Clock E}.
Context (Hquiet : quiet_others E).
Notation W := (World E).
Implicit Types p : Proc E.
#[local] Instance quiet_frame : Framed (@quiet E) := quiet_framed Hquiet.





Lemma quiet_new_oid : keeps quiet (new_oid (E := E)).
Proof. by intros w. Qed.








Lemma quiet_sleep : keeps quiet (sleep (E := E)).
Proof. intros w. apply Hquiet. Qed.











End Main.

(** ** Witnesses *)
Section Witnesses.
#[local] Instance wit_fuel : Fuel := demo_fuel.
#[local] Instance wit_others : Others server := demo_others.
#[local] Instance wit_clock : Clock server := fun _ => 0.
#[local] Instance wit_cortx : CortxUtils server := {|
  cortx_importable := false; conf_machine_id := mret "m"; conf_load _ := mret tt; conf_get _ := mret None;
  bus_init _ := mret tt; bus_list_message_types := mret []; bus_register_message_type _ _ := mret tt;
  producer_new _ := mret tt; producer_send _ _ := mret tt; consumer_new _ _ := mret tt;
  consumer_receive := mret None; consumer_ack := mret tt; health_attr s := s;
  health_event_json l j := j |}.
#[local] Instance wit_host : Host server := {|
  popen _ _ _ := raise (FileNotFoundError ""); proc_close_stdout _ := mret tt;
  proc_communicate _ _ _ := mret (0, "", ""); os_system _ := mret 0; os_getenv _ := mret None;
  sys_path := mret []; path_exists _ := mret false; path_isdir _ := mret false; os_makedirs _ := mret tt;
  os_listdir _ := mret []; read_file p := raise (FileNotFoundError p); write_file _ _ := mret tt;
  copy_file _ _ := mret tt; copy_tree _ _ := mret tt; device_size _ := mret 0;
  device_blksize _ := mret 0 |}.
(** The server stops as soon as it is started. *)
#[local] Instance wit_web : WebServer server := {|
  run_app _ _ _ _ := mret tt; load_cert_chain _ _ := mret tt |}.

Definition stub_kv (v : string) : World server :=
  let c := cluster "M0_CONF_HA_PROCESS_STARTED" "M0_NC_ONLINE" "passing" in
  world_init
    (set_store (mkStore (<["leader" := mkKv "leader" (Some v) 100 (Some "session-1")]>
                           (entries (srv_store c))) 100) c) (Some "node1") 3.

Lemma stale_session_removed_witness :
  stale_entry (mkKv "leader" (Some "elect2805") 100 (Some "session-1")) = true
  /\ exists w', remove_stale_session (stub_kv "elect2805") = (Ret tt, w')
       /\ env w' = env (stub_kv "elect2805") /\ stopping w' = false.
Proof.
  split; [reflexivity|].
  by apply (stale_session_removed (stub_kv "elect2805")
    (mkKv "leader" (Some "elect2805") 100 (Some "session-1")) "session-1" (env (stub_kv "elect2805"))).
Defined.

Example leader_session_kept : stale_entry (mkKv "leader" (Some "node1") 100 (Some "session-1")) = false.
Proof. reflexivity. Qed.

Lemma fresh_store_blocks_start_witness :
  exists w', remove_stale_session (world_init (server_of []) (Some "node1") 3) = (Hang, w').
Proof. apply fresh_store_blocks_start; [by intros v Hv | by repeat split]. Defined.

Definition wit_threads : list thread :=
  [ConsumerThread 0 7; FsStatsUpdater (mkUpdater 8 9)].

Definition served_world : World server :=
  cluster_world "M0_CONF_HA_PROCESS_STARTED" "M0_NC_ONLINE" "passing".

Lemma server_runs_once_witness :
  exists w', server_run wit_threads 8008 served_world = (Ret tt, w') /\ all_stopped wit_threads w'.
Proof.
  assert (Ha : server_attempt wit_threads 8008 served_world
               = (Ret tt, (server_attempt wit_threads 8008 served_world).2)).
  { apply run_ret. vm_compute. reflexivity. }
  destruct (server_runs_once wit_threads 8008 served_world _ _ (fun v Hv => Hv) Ha) as (Hrun & _ & Hall);
    [discriminate | discriminate |].
  eexists. split; [exact Hrun|]. apply Hall.
  unfold server_attempt at 1 in Ha. apply bind_Ret in Ha as (app & w1 & Ec & _). by exists app, w1.
Defined.



End Witnesses.
