(* ===== verification/OrdDict.v ===== *)
(** * Dicts that keep the order of insertion

    A Python dict is the list of its items in the order the keys were first
    added: [d[k] = v] changes the value in place when the key is there and adds
    the item at the end otherwise.  The keys of a dict built so are distinct, and
    iteration visits the items in the order of the list. *)

From S2P Require Import Prelude.

Section OrdDict.
Context {K V : Type} `{EqDecision K}.
Implicit Types (d : list (K * V)) (k : K) (v : V).

(** [d.get(k)] *)
Fixpoint od_get (k : K) (d : list (K * V)) : option V :=
  match d with
  | [] => None
  | (k', v) :: d' => if decide (k = k') then Some v else od_get k d'
  end.

(** [d[k] = v] *)
Fixpoint od_set (k : K) (v : V) (d : list (K * V)) : list (K * V) :=
  match d with
  | [] => [(k, v)]
  | (k', v') :: d' => if decide (k = k') then (k, v) :: d' else (k', v') :: od_set k v d'
  end.

(** [k in d] *)
Definition od_in (k : K) (d : list (K * V)) : bool :=
  match od_get k d with Some _ => true | None => false end.

Definition od_keys (d : list (K * V)) : list K := fst <$> d.

Lemma od_get_elem k v d : od_get k d = Some v -> (k, v) ∈ d.
Proof.
  induction d as [| [k' v'] d IH]; cbn; [done|].
  case_decide; [intros [= ->]; subst; left | right; auto].
Qed.

Lemma od_get_key k d : k ∈ od_keys d <-> is_Some (od_get k d).
Proof.
  induction d as [| [k' v'] d IH]; cbn.
  - split; [by intros ?%elem_of_nil | by intros []].
  - rewrite elem_of_cons. case_decide as Hk; [by subst; split; eauto|].
    rewrite IH. naive_solver.
Qed.

Lemma od_get_None k d : od_get k d = None <-> k ∉ od_keys d.
Proof. rewrite od_get_key, <- eq_None_not_Some. done. Qed.

Lemma od_elem_get k v d : NoDup (od_keys d) -> (k, v) ∈ d -> od_get k d = Some v.
Proof.
  induction d as [| [k' v'] d IH]; cbn; [by intros _ ?%elem_of_nil|].
  intros [Hk Hd]%NoDup_cons [[= -> ->] | H]%elem_of_cons; case_decide; subst; try done.
  - exfalso. apply Hk. apply list_elem_of_fmap. by exists (k', v).
  - auto.
Qed.

Lemma od_in_true k d : od_in k d = true <-> k ∈ od_keys d.
Proof. unfold od_in. rewrite od_get_key. destruct (od_get k d); naive_solver. Qed.

Lemma od_get_set_eq k v d : od_get k (od_set k v d) = Some v.
Proof.
  induction d as [| [k' v'] d IH]; cbn; [by case_decide|].
  case_decide as Hk; cbn; case_decide; try done.
Qed.

Lemma od_get_set_ne k k' v d : k <> k' -> od_get k' (od_set k v d) = od_get k' d.
Proof.
  intros Hne. induction d as [| [k1 v1] d IH]; cbn; [by case_decide|].
  case_decide as Hk; cbn; repeat case_decide; subst; done.
Qed.

Lemma od_set_fresh k v d : k ∉ od_keys d -> od_set k v d = d ++ [(k, v)].
Proof.
  induction d as [| [k' v'] d IH]; cbn; [done|].
  intros [Hk Hd]%not_elem_of_cons. case_decide; [done|]. by rewrite IH.
Qed.

Lemma od_keys_set_old k v d : k ∈ od_keys d -> od_keys (od_set k v d) = od_keys d.
Proof.
  induction d as [| [k' v'] d IH]; cbn; [by intros ?%elem_of_nil|].
  case_decide as Hk; cbn; [by subst|].
  intros [-> | H]%elem_of_cons; [done|]. f_equal. by apply IH.
Qed.

Lemma od_keys_set_new k v d : k ∉ od_keys d -> od_keys (od_set k v d) = od_keys d ++ [k].
Proof. intros Hk. rewrite od_set_fresh by done. unfold od_keys. by rewrite fmap_app. Qed.

Lemma od_keys_set_elem k v d k' : k' ∈ od_keys (od_set k v d) <-> k' = k \/ k' ∈ od_keys d.
Proof.
  destruct (decide (k ∈ od_keys d)) as [Hk | Hk].
  - rewrite od_keys_set_old by done. naive_solver.
  - rewrite od_keys_set_new by done. rewrite elem_of_app, list_elem_of_singleton. tauto.
Qed.

Lemma od_keys_set_NoDup k v d : NoDup (od_keys d) -> NoDup (od_keys (od_set k v d)).
Proof.
  intros Hd. destruct (decide (k ∈ od_keys d)) as [Hk | Hk].
  - by rewrite od_keys_set_old.
  - rewrite od_keys_set_new by done. apply NoDup_app. split; [done|]. split; [| apply NoDup_singleton].
    intros x Hx ->%list_elem_of_singleton. done.
Qed.

(** In-place change: the items around it stay. *)
Lemma od_set_split k v v0 d :
  od_get k d = Some v0 ->
  exists d1 d2, d = d1 ++ (k, v0) :: d2 /\ od_set k v d = d1 ++ (k, v) :: d2.
Proof.
  induction d as [| [k' v'] d IH]; cbn; [done|].
  case_decide as Hk; [intros [= ->]; subst; by exists [], d|].
  intros (d1 & d2 & -> & E)%IH. exists ((k', v') :: d1), d2. cbn. by rewrite E.
Qed.
End OrdDict.

(** [all_unique(xs)]: [len(xs) == len(set(xs))]. *)
Definition all_unique {A} `{EqDecision A} (xs : list A) : bool :=
  Nat.eqb (length xs) (length (remove_dups xs)).

Lemma remove_dups_length_le {A} `{EqDecision A} (xs : list A) :
  (length (remove_dups xs) <= length xs)%nat.
Proof. induction xs as [| x xs IH]; cbn; [done|]. case_decide; cbn; lia. Qed.

Lemma all_unique_true {A} `{EqDecision A} (xs : list A) : all_unique xs = true <-> NoDup xs.
Proof.
  unfold all_unique. rewrite Nat.eqb_eq. split.
  - induction xs as [| x xs IH]; cbn; [constructor|].
    case_decide as Hx; cbn; intros H.
    + pose proof (remove_dups_length_le xs). lia.
    + constructor; [done | apply IH; lia].
  - induction 1 as [| x xs Hx Hxs IH]; cbn; [done|].
    case_decide; [done|]. cbn. by rewrite IH.
Qed.

#[export] Hint Resolve od_keys_set_NoDup : hare.
#[export] Hint Rewrite @od_get_set_eq @od_get_set_ne using done : hare.
