(* ===== verification/CfgenTypes.v ===== *)
(** * Data of the configuration generator ([src/cfgen/cfgen])

    [cfgen] reads a cluster description, builds the Motr configuration as a dict
    [m0conf] from object identifiers to objects, and prints it.  This file has the
    cluster description as the Dhall schema of [src/cfgen/dhall/types] lets it
    through (a field of type [Optional] may be absent or null: [field]), the
    description enriched with facts, the identifiers and classes of the
    configuration objects, the generator's global state and the accessors of
    [m0conf]. *)

From S2P Require Import Prelude PyStr Json HaxTypes OrdDict.

Notation HaxObjT := HaxTypes.ObjT.

(** ** Identifiers *)
Inductive ObjT : Type :=
| o_root | o_fdmi_flt_grp | o_fdmi_filter
| o_node | o_process | o_service | o_sdev
| o_site | o_rack | o_enclosure | o_controller | o_drive
| o_pool | o_pver | o_pver_f | o_objv
| o_profile.

#[global] Instance cfgen_ObjT_eq_dec : EqDecision ObjT.
Proof. solve_decision. Defined.

(** The members of the enum in the order of their definition. *)
Definition ObjT_members : list ObjT :=
  [o_root; o_fdmi_flt_grp; o_fdmi_filter; o_node; o_process; o_service; o_sdev; o_site; o_rack;
   o_enclosure; o_controller; o_drive; o_pool; o_pver; o_pver_f; o_objv; o_profile].

Definition objt_name (t : ObjT) : string :=
  match t with
  | o_root => "root" | o_fdmi_flt_grp => "fdmi_flt_grp" | o_fdmi_filter => "fdmi_filter"
  | o_node => "node" | o_process => "process" | o_service => "service" | o_sdev => "sdev"
  | o_site => "site" | o_rack => "rack" | o_enclosure => "enclosure"
  | o_controller => "controller" | o_drive => "drive"
  | o_pool => "pool" | o_pver => "pver" | o_pver_f => "pver_f" | o_objv => "objv"
  | o_profile => "profile"
  end.

Record Oid : Type := mkOid { o_type : ObjT; o_fidk : Z }.

#[global] Instance Oid_eq_dec : EqDecision Oid.
Proof. solve_decision. Defined.

(** [x.type is t] *)
Definition is_t (t : ObjT) (x : Oid) : bool := bool_decide (o_type x = t).

Lemma is_t_true t x : is_t t x = true <-> o_type x = t.
Proof. unfold is_t. by rewrite bool_decide_eq_true. Qed.

(** ** Enumerations *)
Inductive NetProtocol : Type := np_tcp | np_o2ib.
Inductive ProcT : Type := p_hax | p_m0_server | p_m0_client_s3 | p_m0_client_other.
Inductive m0ProcT : Type := m0_confd | m0_ios.
Inductive PoolT : Type := pool_sns | pool_dix | pool_md.
Inductive SvcT : Type :=
| M0_CST_MDS | M0_CST_IOS | M0_CST_CONFD | M0_CST_RMS | M0_CST_STATS | M0_CST_HA | M0_CST_SSS
| M0_CST_SNS_REP | M0_CST_SNS_REB | M0_CST_ADDB2 | M0_CST_CAS | M0_CST_DIX_REP | M0_CST_DIX_REB
| M0_CST_DS1 | M0_CST_DS2 | M0_CST_FIS | M0_CST_FDMI | M0_CST_BE | M0_CST_M0T1FS | M0_CST_CLIENT
| M0_CST_ISCS | M0_CST_DTM0.

#[global] Instance NetProtocol_eq_dec : EqDecision NetProtocol.
Proof. solve_decision. Defined.
#[global] Instance ProcT_eq_dec : EqDecision ProcT.
Proof. solve_decision. Defined.
#[global] Instance m0ProcT_eq_dec : EqDecision m0ProcT.
Proof. solve_decision. Defined.
#[global] Instance PoolT_eq_dec : EqDecision PoolT.
Proof. solve_decision. Defined.
#[global] Instance SvcT_eq_dec : EqDecision SvcT.
Proof. solve_decision. Defined.

Definition m0ProcT_value (p : m0ProcT) : Z := match p with m0_confd => 21001 | m0_ios => 21002 end.
Definition proto_name (p : NetProtocol) : string := match p with np_tcp => "tcp" | np_o2ib => "o2ib" end.
Definition proc_t_name (p : ProcT) : string :=
  match p with
  | p_hax => "hax" | p_m0_server => "m0_server" | p_m0_client_s3 => "m0_client_s3"
  | p_m0_client_other => "m0_client_other"
  end.
Definition svc_t_name (s : SvcT) : string :=
  match s with
  | M0_CST_MDS => "M0_CST_MDS" | M0_CST_IOS => "M0_CST_IOS" | M0_CST_CONFD => "M0_CST_CONFD"
  | M0_CST_RMS => "M0_CST_RMS" | M0_CST_STATS => "M0_CST_STATS" | M0_CST_HA => "M0_CST_HA"
  | M0_CST_SSS => "M0_CST_SSS" | M0_CST_SNS_REP => "M0_CST_SNS_REP"
  | M0_CST_SNS_REB => "M0_CST_SNS_REB" | M0_CST_ADDB2 => "M0_CST_ADDB2" | M0_CST_CAS => "M0_CST_CAS"
  | M0_CST_DIX_REP => "M0_CST_DIX_REP" | M0_CST_DIX_REB => "M0_CST_DIX_REB"
  | M0_CST_DS1 => "M0_CST_DS1" | M0_CST_DS2 => "M0_CST_DS2" | M0_CST_FIS => "M0_CST_FIS"
  | M0_CST_FDMI => "M0_CST_FDMI" | M0_CST_BE => "M0_CST_BE" | M0_CST_M0T1FS => "M0_CST_M0T1FS"
  | M0_CST_CLIENT => "M0_CST_CLIENT" | M0_CST_ISCS => "M0_CST_ISCS" | M0_CST_DTM0 => "M0_CST_DTM0"
  end.

(** ** Cluster description *)

(** A key of a dict: not there, there with [None], or there with a value. *)
Inductive field (A : Type) : Type := Absent | Null | Given (a : A).
Arguments Absent {A}. Arguments Null {A}. Arguments Given {A} a.

#[global] Instance field_eq_dec {A} `{EqDecision A} : EqDecision (field A).
Proof. solve_decision. Defined.

(** [d.get(k)] and [k in d] *)
Definition fget {A} (f : field A) : option A := match f with Given a => Some a | _ => None end.
Definition fin {A} (f : field A) : bool := match f with Absent => false | _ => true end.
(** [d[k]] *)
Definition fitem {A} (k : string) (f : field A) : outcome (option A) :=
  match f with Absent => Raise (KeyError k) | Null => Ret None | Given a => Ret (Some a) end.

(** The value of a decimal literal: [dec_digits / 10 ^ dec_scale]. *)
Record decimal : Type := mkDecimal { dec_digits : Z; dec_scale : nat }.

Record IODisk : Type := mkIODisk { iod_path : field string; iod_size : field Z; iod_blksize : field Z }.

#[global] Instance IODisk_eq_dec : EqDecision IODisk.
Proof. solve_decision. Defined.

Record IODisks : Type := mkIODisks {
  io_meta_data : field string; io_data : list IODisk; io_log : list IODisk }.
Record M0Server : Type := mkM0Server { ms_runs_confd : field bool; ms_io_disks : IODisks }.
Record M0Client : Type := mkM0Client { mc_name : string; mc_instances : Z }.

(** The ['port'] of an entry: a number of the description or a member of [m0ProcT]. *)
Inductive portv : Type := PInt (n : Z) | PEnum (p : m0ProcT) | PList (l : list Z).
Record Port : Type := mkPort { port_name : string; port_value : portv }.
Record Ports : Type := mkPorts {
  np_hax : field Z; np_hax_http : field Z; np_m0_server : field (list Port);
  np_m0_client_s3 : field Z; np_m0_client_other : field (list Port) }.

Record NodeDesc : Type := mkNodeDesc {
  nd_hostname : string; nd_machine_id : field string; nd_processorcount : field Z;
  nd_memorysize_mb : field decimal; nd_data_iface : string; nd_data_iface_ip_addr : field string;
  nd_data_iface_type : field NetProtocol; nd_transport_type : string;
  nd_m0_servers : option (list M0Server); nd_m0_clients : field (list M0Client);
  nd_network_ports : option Ports }.

Record Failures : Type := mkFailures {
  f_site : Z; f_rack : Z; f_enclosure : Z; f_controller : Z; f_drive : Z }.

#[global] Instance Failures_eq_dec : EqDecision Failures.
Proof. solve_decision. Defined.

(** [list(failures)] *)
Definition failures_list (f : Failures) : list Z :=
  [f_site f; f_rack f; f_enclosure f; f_controller f; f_drive f].
(** [pver_levels] *)
Definition pver_levels : list ObjT := [o_site; o_rack; o_enclosure; o_controller; o_drive].

(** The ['path'] of a disk reference is text in the description; the references
    made up for auxiliary pools hold the whole description of a disk. *)
Inductive ref_path : Type := RText (s : string) | RDisk (d : IODisk).

#[global] Instance ref_path_eq_dec : EqDecision ref_path.
Proof. solve_decision. Defined.

Record DiskRef : Type := mkDiskRef { dr_path : ref_path; dr_node : field string }.

#[global] Instance cfgen_DiskRef_eq_dec : EqDecision DiskRef.
Proof. solve_decision. Defined.

Record PoolDesc : Type := mkPoolDesc {
  pl_name : option string; pl_type : field PoolT; pl_disk_refs : field (list DiskRef);
  pl_data_units : option Z; pl_parity_units : option Z; pl_spare_units : field Z;
  pl_allowed_failures : option Failures }.
Record ProfileDesc : Type := mkProfileDesc { pf_name : string; pf_pools : list string }.
Record FdmiFilterDesc : Type := mkFdmiFilterDesc {
  ff_name : string; ff_node : string; ff_client_index : Z; ff_substrings : list string }.

(** The description, with nodes as read or enriched. *)
Record ClusterDesc (N : Type) : Type := mkClusterDesc {
  cd_nodes : list N; cd_pools : list PoolDesc; cd_profiles : field (list ProfileDesc);
  cd_fdmi_filters : option (list FdmiFilterDesc); cd_create_aux : bool;
  cd_generate_formulaic_pvers : bool }.
Arguments mkClusterDesc {N}. Arguments cd_nodes {N}. Arguments cd_pools {N}.
Arguments cd_profiles {N}. Arguments cd_fdmi_filters {N}. Arguments cd_create_aux {N}.
Arguments cd_generate_formulaic_pvers {N}.

(** ** Enriched description *)

(** [Disk]: a null size passes from the description. *)
Record Disk : Type := mkDisk { dk_path : option string; dk_size : option Z; dk_blksize : option Z }.

#[global] Instance cfgen_Disk_eq_dec : EqDecision Disk.
Proof. solve_decision. Defined.

(** [node['facts']]; [ft_ipaddr] is under the key of the node's data interface. *)
Record Facts : Type := mkFacts { ft_processorcount : option Z; ft_memsize_MB : Z; ft_ipaddr : option string }.

Record Server : Type := mkServer {
  sv_runs_confd : bool; sv_meta_data : option string; sv_data : list IODisk; sv_log : list IODisk;
  sv_io_disks : list Disk; sv_log_disks : list Disk }.

(** The list of client ports is the description's own or the one object that is
    the value of [PortalGroup.m0_client_other]. *)
Inductive other_ports : Type := Own (l : list Port) | SharedDefault.
Record NodePorts : Type := mkNodePorts {
  pt_hax : Z; pt_hax_http : option Z; pt_m0_server : list Port; pt_m0_client_s3 : Z;
  pt_m0_client_other : other_ports }.

Record Node : Type := mkNode {
  hostname : string; machine_id : option string; data_iface_type : field NetProtocol;
  transport_type : string; facts : Facts; m0_servers : option (list Server);
  m0_clients : option (list M0Client); network_ports : NodePorts }.

(** ** Endpoints *)
Definition portalgroup : Type := string * portv.

Inductive Endpoint : Type :=
| LibfabricEndpoint (netfamily : string) (proto : NetProtocol) (ipaddr : string)
    (pg : portalgroup) (portal : Z)
| LnetEndpoint (proto : NetProtocol) (ipaddr : string) (pg : portalgroup) (tmid : Z).

Definition ep_portalgroup (e : Endpoint) : portalgroup :=
  match e with LibfabricEndpoint _ _ _ pg _ => pg | LnetEndpoint _ _ pg _ => pg end.

(** ** Configuration objects *)
Record CRoot : Type := mkRoot {
  r_nodes : list Oid; r_sites : list Oid; r_pools : list Oid; r_profiles : list Oid;
  r_fdmi_flt_grps : list Oid; r_mdpool : option Oid; r_mdredundancy : Z; r_imeta_pver : option Oid }.
Record CNode : Type := mkCNode {
  n_name : string; n_nr_cpu : option Z; n_memsize_MB : Z; n_processes : list Oid;
  n_machine_id : option string; n_network_ports : NodePorts }.
Record CProcess : Type := mkProcess {
  p_nr_cpu : Z; p_memsize_MB : Z; p_endpoint : Endpoint; p_services : list Oid;
  p_meta_data : option string; p_log : list Disk; p_proc_name : option string }.
Record CService : Type := mkService {
  s_type : SvcT; s_endpoint : Endpoint; s_sdevs : list Oid; s_params : list string;
  s_ctrl_id : option Oid }.
Record CSdev : Type := mkSdev { sd_dev_idx : Z; sd_filename : string; sd_size : Z; sd_blksize : Z }.
Record CSite : Type := mkSite { st_racks : list Oid; st_pvers : list Oid }.
Record CRack : Type := mkRack { rk_encls : list Oid; rk_pvers : list Oid; rk_parent : Oid }.
Record CEnclosure : Type := mkEnclosure {
  e_node : Oid; e_ctrls : list Oid; e_pvers : list Oid; e_parent : Oid }.
Record CController : Type := mkController { c_drives : list Oid; c_pvers : list Oid; c_parent : Oid }.
Record CDrive : Type := mkDrive { dv_sdev : Oid; dv_pvers : list Oid; dv_parent : Oid }.
Record CPool : Type := mkPool { po_pvers : list Oid; po_name : option string }.
Record CPver : Type := mkPver {
  pv_data_units : Z; pv_parity_units : Z; pv_spare_units : Z; pv_pool_width : Z;
  pv_tolerance : list Z; pv_sitevs : list Oid }.
Record CPverF : Type := mkPverF { pf_cuid : Z; pf_base : Oid; pf_allowance : list Z }.
Record CObjv : Type := mkObjv { ov_real : Oid; ov_children : list Oid }.
Record CProfile : Type := mkProfile { pr_pools : list Oid; pr_name : string }.
Record CFdmiFltGrp : Type := mkFltGrp { fg_rec_type : Z; fg_filters : list Oid }.
Record CFdmiFilter : Type := mkFilter {
  fl_dix_pver : option Oid; fl_node : Oid; fl_substrings : list string; fl_endpoint : string }.

Inductive Obj : Type :=
| ConfRoot (x : CRoot) | ConfNode (x : CNode) | ConfProcess (x : CProcess)
| ConfService (x : CService) | ConfSdev (x : CSdev) | ConfSite (x : CSite) | ConfRack (x : CRack)
| ConfEnclosure (x : CEnclosure) | ConfController (x : CController) | ConfDrive (x : CDrive)
| ConfPool (x : CPool) | ConfPver (x : CPver) | ConfPverF (x : CPverF) | ConfObjv (x : CObjv)
| ConfProfile (x : CProfile) | ConfFdmiFltGrp (x : CFdmiFltGrp) | ConfFdmiFilter (x : CFdmiFilter).

(** [obj._objt] *)
Definition obj_objt (x : Obj) : ObjT :=
  match x with
  | ConfRoot _ => o_root | ConfNode _ => o_node | ConfProcess _ => o_process
  | ConfService _ => o_service | ConfSdev _ => o_sdev | ConfSite _ => o_site | ConfRack _ => o_rack
  | ConfEnclosure _ => o_enclosure | ConfController _ => o_controller | ConfDrive _ => o_drive
  | ConfPool _ => o_pool | ConfPver _ => o_pver | ConfPverF _ => o_pver_f | ConfObjv _ => o_objv
  | ConfProfile _ => o_profile | ConfFdmiFltGrp _ => o_fdmi_flt_grp
  | ConfFdmiFilter _ => o_fdmi_filter
  end.

(** [Downlink]: the attribute and the type of the children. *)
Record Downlink : Type := mkDownlink { dl_name : string; dl_children_t : ObjT }.

#[global] Instance Downlink_eq_dec : EqDecision Downlink.
Proof. solve_decision. Defined.

(** The items of [obj._downlinks] with the attribute each names. *)
Definition obj_downlinks (x : Obj) : list (Downlink * list Oid) :=
  match x with
  | ConfRoot r =>
      [(mkDownlink "nodes" o_node, r_nodes r); (mkDownlink "sites" o_site, r_sites r);
       (mkDownlink "pools" o_pool, r_pools r); (mkDownlink "profiles" o_profile, r_profiles r);
       (mkDownlink "fdmi_flt_grps" o_fdmi_flt_grp, r_fdmi_flt_grps r)]
  | ConfNode n => [(mkDownlink "processes" o_process, n_processes n)]
  | ConfProcess p => [(mkDownlink "services" o_service, p_services p)]
  | ConfService s => [(mkDownlink "sdevs" o_sdev, s_sdevs s)]
  | ConfSite s => [(mkDownlink "racks" o_rack, st_racks s)]
  | ConfRack r => [(mkDownlink "encls" o_enclosure, rk_encls r)]
  | ConfEnclosure e => [(mkDownlink "ctrls" o_controller, e_ctrls e)]
  | ConfController c => [(mkDownlink "drives" o_drive, c_drives c)]
  | ConfPool p => [(mkDownlink "pvers" o_pver, po_pvers p)]
  | ConfPver p => [(mkDownlink "sitevs" o_objv, pv_sitevs p)]
  | ConfObjv o => [(mkDownlink "children" o_objv, ov_children o)]
  | ConfSdev _ | ConfDrive _ | ConfPverF _ | ConfProfile _ | ConfFdmiFltGrp _ | ConfFdmiFilter _ => []
  end.

(** [obj.pvers] *)
Definition obj_pvers (x : Obj) : outcome (list Oid) :=
  match x with
  | ConfSite s => Ret (st_pvers s) | ConfRack r => Ret (rk_pvers r)
  | ConfEnclosure e => Ret (e_pvers e) | ConfController c => Ret (c_pvers c)
  | ConfDrive d => Ret (dv_pvers d) | ConfPool p => Ret (po_pvers p)
  | _ => Raise AttributeError
  end.

(** [obj.pvers.append(v)] *)
Definition obj_add_pver (v : Oid) (x : Obj) : outcome Obj :=
  match x with
  | ConfSite s => Ret (ConfSite (mkSite (st_racks s) (st_pvers s ++ [v])))
  | ConfRack r => Ret (ConfRack (mkRack (rk_encls r) (rk_pvers r ++ [v]) (rk_parent r)))
  | ConfEnclosure e =>
      Ret (ConfEnclosure (mkEnclosure (e_node e) (e_ctrls e) (e_pvers e ++ [v]) (e_parent e)))
  | ConfController c => Ret (ConfController (mkController (c_drives c) (c_pvers c ++ [v]) (c_parent c)))
  | ConfDrive d => Ret (ConfDrive (mkDrive (dv_sdev d) (dv_pvers d ++ [v]) (dv_parent d)))
  | ConfPool p => Ret (ConfPool (mkPool (po_pvers p ++ [v]) (po_name p)))
  | _ => Raise AttributeError
  end.

(** [obj._parent] *)
Definition obj_parent (x : Obj) : outcome Oid :=
  match x with
  | ConfRack r => Ret (rk_parent r) | ConfEnclosure e => Ret (e_parent e)
  | ConfController c => Ret (c_parent c) | ConfDrive d => Ret (dv_parent d)
  | _ => Raise AttributeError
  end.

(** The object as an instance of one class; another class has no such attribute. *)
Definition as_root (x : Obj) : outcome CRoot := match x with ConfRoot r => Ret r | _ => Raise AttributeError end.
Definition as_node (x : Obj) : outcome CNode := match x with ConfNode r => Ret r | _ => Raise AttributeError end.
Definition as_process (x : Obj) : outcome CProcess := match x with ConfProcess r => Ret r | _ => Raise AttributeError end.
Definition as_service (x : Obj) : outcome CService := match x with ConfService r => Ret r | _ => Raise AttributeError end.
Definition as_sdev (x : Obj) : outcome CSdev := match x with ConfSdev r => Ret r | _ => Raise AttributeError end.
Definition as_site (x : Obj) : outcome CSite := match x with ConfSite r => Ret r | _ => Raise AttributeError end.
Definition as_rack (x : Obj) : outcome CRack := match x with ConfRack r => Ret r | _ => Raise AttributeError end.
Definition as_encl (x : Obj) : outcome CEnclosure := match x with ConfEnclosure r => Ret r | _ => Raise AttributeError end.
Definition as_ctrl (x : Obj) : outcome CController := match x with ConfController r => Ret r | _ => Raise AttributeError end.
Definition as_drive (x : Obj) : outcome CDrive := match x with ConfDrive r => Ret r | _ => Raise AttributeError end.
Definition as_pool (x : Obj) : outcome CPool := match x with ConfPool r => Ret r | _ => Raise AttributeError end.
Definition as_pver (x : Obj) : outcome CPver := match x with ConfPver r => Ret r | _ => Raise AttributeError end.
Definition as_profile (x : Obj) : outcome CProfile := match x with ConfProfile r => Ret r | _ => Raise AttributeError end.
Definition as_objv (x : Obj) : outcome CObjv := match x with ConfObjv r => Ret r | _ => Raise AttributeError end.

(** ** Global state *)
Notation Conf := (list (Oid * Obj)).

Record Gen : Type := mkGen {
  m0conf : Conf;                               (* cluster.m0conf *)
  ObjT_last_fidk : ObjT -> Z;                  (* the next value of each counter *)
  dev_idx : Z;                                 (* ConfSdev._dev_idx *)
  cuid : Z;                                    (* ConfPverF._cuid *)
  ep_map : list (string * Z * Z);              (* LibfabricEndpoint.ep_map *)
  tmids : list (string * Z * Z);               (* LnetEndpoint._tmids *)
  pg_other : list Port;                        (* PortalGroup.m0_client_other.value *)
  aux_pools : list (string * list PoolDesc) }.

(** The state when the script starts. *)
Definition gen0 : Gen :=
  mkGen [] (fun _ => 0) 0 0 [] [] [mkPort "default" (PInt 22501)] [].

Definition with_conf (c : Conf) (g : Gen) : Gen :=
  mkGen c (ObjT_last_fidk g) (dev_idx g) (cuid g) (ep_map g) (tmids g) (pg_other g) (aux_pools g).
Definition with_fidk (f : ObjT -> Z) (g : Gen) : Gen :=
  mkGen (m0conf g) f (dev_idx g) (cuid g) (ep_map g) (tmids g) (pg_other g) (aux_pools g).
Definition with_dev_idx (n : Z) (g : Gen) : Gen :=
  mkGen (m0conf g) (ObjT_last_fidk g) n (cuid g) (ep_map g) (tmids g) (pg_other g) (aux_pools g).
Definition with_cuid (n : Z) (g : Gen) : Gen :=
  mkGen (m0conf g) (ObjT_last_fidk g) (dev_idx g) n (ep_map g) (tmids g) (pg_other g) (aux_pools g).
Definition with_ep_map (d : list (string * Z * Z)) (g : Gen) : Gen :=
  mkGen (m0conf g) (ObjT_last_fidk g) (dev_idx g) (cuid g) d (tmids g) (pg_other g) (aux_pools g).
Definition with_tmids (d : list (string * Z * Z)) (g : Gen) : Gen :=
  mkGen (m0conf g) (ObjT_last_fidk g) (dev_idx g) (cuid g) (ep_map g) d (pg_other g) (aux_pools g).
Definition with_pg_other (l : list Port) (g : Gen) : Gen :=
  mkGen (m0conf g) (ObjT_last_fidk g) (dev_idx g) (cuid g) (ep_map g) (tmids g) l (aux_pools g).
Definition with_aux_pools (d : list (string * list PoolDesc)) (g : Gen) : Gen :=
  mkGen (m0conf g) (ObjT_last_fidk g) (dev_idx g) (cuid g) (ep_map g) (tmids g) (pg_other g) d.

(** ** Access to [m0conf] *)
Definition oid_repr (o : Oid) : string :=
  "Oid(type=" +:+ objt_name (o_type o) +:+ ", fidk=" +:+ dec_str (o_fidk o) +:+ ")".

(** [m0conf[oid]], and the attribute access that picks a class *)
Definition conf_get (c : Conf) (o : Oid) : outcome Obj := dict_get (oid_repr o) (od_get o c).
Definition conf_as {A} (as_ : Obj -> outcome A) (c : Conf) (o : Oid) : outcome A :=
  x ← conf_get c o; as_ x.

(** [m0conf[oid] = x] *)
Definition conf_put (o : Oid) (x : Obj) : M Gen unit :=
  modify (fun g => with_conf (od_set o x (m0conf g)) g).

(** A change of [m0conf[oid]] in place. *)
Definition conf_upd (o : Oid) (f : Obj -> outcome Obj) : M Gen unit :=
  c ← gets m0conf;
  x ← lift (conf_get c o);
  y ← lift (f x);
  conf_put o y.

(** An assertion in code that only reads. *)
Definition check (b : bool) : outcome unit := if b then Ret tt else Raise AssertionError.
