(* ===== verification/CfgenBuild.v ===== *)
(** * Building the software and hardware subtrees ([src/cfgen/cfgen])

    Fid allocation ([new_oid]), endpoints, and the [__init__] and [build] methods
    of the classes from [ConfRoot] to [ConfDrive].  [X_init] has the assertions of
    [X.__init__] and returns the object; [X_build] is the class method: it
    allocates the identifier, adds the object to [m0conf] and links it to its
    parent. *)

From S2P Require Import Prelude PyStr Json HaxTypes OrdDict CfgenTypes.

(** ** Fids *)

(** [ObjTMap[t]]; [ObjT.pver_f] has no counterpart in hax and is mapped to itself. *)
Definition ObjT_to_HaxObjT (t : ObjT) : HaxObjT + ObjT :=
  match t with
  | o_root => inl ROOT | o_fdmi_flt_grp => inl FDMI_FLT_GRP | o_fdmi_filter => inl FDMI_FILTER
  | o_node => inl NODE | o_process => inl PROCESS | o_service => inl SERVICE | o_sdev => inl SDEV
  | o_site => inl SITE | o_rack => inl RACK | o_enclosure => inl ENCLOSURE
  | o_controller => inl CONTROLLER | o_drive => inl DRIVE
  | o_pool => inl POOL | o_pver => inl PVER | o_objv => inl OBJV | o_profile => inl PROFILE
  | o_pver_f => inr o_pver_f
  end.

(** [ObjTMaskMap.get(...)] *)
Definition obj_mask (t : ObjT) : option Fid :=
  match ObjT_to_HaxObjT t with
  | inl h => match ObjTMaskMap h with Ret m => Some m | _ => None end
  | inr _ => None
  end.

Definition allocate_base_fidkey (objt : ObjT) (fidk : Z) : Z :=
  match obj_mask objt with
  | Some m => Z.land (Z.lxor (key m) QW_F * fidk + fidk) (key m)
  | None => fidk
  end.

(** [next(ObjT_last_fidk[objt])] *)
Definition bump (objt : ObjT) (f : ObjT -> Z) : ObjT -> Z :=
  fun t => if decide (t = objt) then f t + 1 else f t.

Definition next_fidk (objt : ObjT) : M Gen Z :=
  f ← gets ObjT_last_fidk;
  modify (with_fidk (bump objt f)) ;;
  mret (f objt).

Definition new_oid (objt : ObjT) : M Gen Oid :=
  fidk ← next_fidk objt;
  mret (mkOid objt (allocate_base_fidkey objt fidk)).

Definition tcontainer_char (t : ObjT) : option ascii :=
  match t with
  | o_root => Some "t" | o_fdmi_flt_grp => Some "g" | o_fdmi_filter => Some "l"
  | o_node => Some "n" | o_process => Some "r" | o_service => Some "s" | o_sdev => Some "d"
  | o_site => Some "S" | o_rack => Some "a" | o_enclosure => Some "e"
  | o_controller => Some "c" | o_drive => Some "k"
  | o_pool => Some "o" | o_pver => Some "v" | o_objv => Some "j" | o_profile => Some "p"
  | o_pver_f => None
  end%char.

Definition oid_to_fidstr (oid : Oid) : outcome string :=
  match tcontainer_char (o_type oid) with
  | None => Raise AssertionError
  | Some c =>
      Ret ("0x" +:+ hex_str (Z.lor (Z.shiftl (octet c) 56) 1) +:+ ":0x" +:+ hex_str (o_fidk oid))
  end.

(** ** Endpoints *)

(** [portalgroup[1]] as a number. *)
Definition portal_number (p : portv) : outcome Z :=
  match p with
  | PInt n => Ret n
  | PEnum m => Ret (m0ProcT_value m)
  | PList _ => Raise AttributeError
  end.

(** [assert ipaddr] *)
Definition need_ipaddr (ip : option string) : outcome string :=
  match ip with
  | Some s => if String.eqb s "" then Raise AssertionError else Ret s
  | None => Raise AssertionError
  end.

Definition LnetEndpoint_init (proto : NetProtocol) (ipaddr : option string) (pg : portalgroup)
    : M Gen Endpoint :=
  ip ← lift (need_ipaddr ipaddr);
  portal ← lift (portal_number pg.2);
  assert (0 <? portal) ;;
  d ← gets tmids;
  let tmid := default 1 (od_get (ip, portal) d) in
  modify (with_tmids (od_set (ip, portal) (tmid + 1) d)) ;;
  mret (LnetEndpoint proto ip pg tmid).

Definition LibfabricEndpoint_init (netfamily : string) (proto : NetProtocol)
    (ipaddr : option string) (pg : portalgroup) : M Gen Endpoint :=
  ip ← lift (need_ipaddr ipaddr);
  portal ← lift (portal_number pg.2);
  assert (0 <? portal) ;;
  d ← gets ep_map;
  let p := default portal (od_get (ip, portal) d) in
  modify (with_ep_map (od_set (ip, portal) (p + 1) d)) ;;
  mret (LibfabricEndpoint netfamily proto ip pg p).

(** [repr] of a port and of the tuple [portalgroup] *)
Definition portv_repr (p : portv) : string :=
  match p with
  | PInt n => dec_str n
  | PEnum m0_confd => "<m0ProcT.confd: 21001>"
  | PEnum m0_ios => "<m0ProcT.ios: 21002>"
  | PList l => "[" +:+ py_join ", " (dec_str <$> l) +:+ "]"
  end.
Definition portalgroup_repr (pg : portalgroup) : string :=
  "('" +:+ pg.1 +:+ "', " +:+ portv_repr pg.2 +:+ ")".

(** [str(endpoint)] *)
Definition endpoint_str (e : Endpoint) : string :=
  match e with
  | LibfabricEndpoint nf proto ip _ portal =>
      nf +:+ ":" +:+ proto_name proto +:+ ":" +:+ ip +:+ "@" +:+ dec_str portal
  | LnetEndpoint proto ip pg tmid =>
      ip +:+ "@" +:+ proto_name proto +:+ ":12345:" +:+ portalgroup_repr pg +:+ ":" +:+ dec_str tmid
  end.

(** ** Portals *)
Record Portals : Type := mkPortals {
  ps_hax : Z; ps_m0_server : list Port; ps_m0_client_s3 : list Z; ps_m0_client_other : other_ports }.

(** [portal_group.m0_client_other.append({'name': 'default', 'port': port})]: the
    list is the caller's. *)
Definition add_default_port (port : Z) (o : other_ports) : M Gen other_ports :=
  match o with
  | Own l => mret (Own (l ++ [mkPort "default" (PInt port)]))
  | SharedDefault =>
      l ← gets pg_other;
      modify (with_pg_other (l ++ [mkPort "default" (PInt port)])) ;;
      mret SharedDefault
  end.

Definition get_lnet_portal_group (o : other_ports) : M Gen other_ports := add_default_port 4 o.
Definition get_libfab_portal_group (o : other_ports) : M Gen other_ports := add_default_port 22501 o.

Definition read_other (o : other_ports) : M Gen (list Port) :=
  match o with Own l => mret l | SharedDefault => gets pg_other end.

(** The entry of [portal_group[proc_t.name]] for the process.  The loop that looks
    for the default entry tests [item], which is the last entry of the list. *)
Definition named_portal (proc_t : ProcT) (proc_name : option string) (items : list Port)
    : outcome portalgroup :=
  match find (fun item => bool_decide (proc_name = Some (port_name item))) items with
  | Some item => Ret (proc_t_name proc_t, port_value item)
  | None =>
      match last items with
      | Some item =>
          if String.eqb (port_name item) "default" then Ret ("m0_client_other", port_value item)
          else Raise (UnboundLocalError "portal")
      | None => Raise (UnboundLocalError "portal")
      end
  end.

Definition process_portal (ps : Portals) (proc_t : ProcT) (proc_name : option string)
    : M Gen portalgroup :=
  match proc_t with
  | p_m0_server => lift (named_portal proc_t proc_name (ps_m0_server ps))
  | p_m0_client_other =>
      items ← read_other (ps_m0_client_other ps);
      lift (named_portal proc_t proc_name items)
  | p_hax => mret (proc_t_name proc_t, PInt (ps_hax ps))
  | p_m0_client_s3 => mret (proc_t_name proc_t, PList (ps_m0_client_s3 ps))
  end.

(** ** Object classes *)

(** [all(x.type is t for x in l)] *)
Definition all_t (t : ObjT) (l : list Oid) : bool := forallb (is_t t) l.

Definition ConfRoot_init (nodes sites pools profiles fdmi_flt_grps : list Oid) : outcome Obj :=
  check (all_t o_node nodes) ;; check (all_t o_site sites) ;; check (all_t o_pool pools) ;;
  check (all_t o_profile profiles) ;; check (all_t o_fdmi_flt_grp fdmi_flt_grps) ;;
  Ret (ConfRoot (mkRoot nodes sites pools profiles fdmi_flt_grps None 0 None)).

Definition ConfRoot_build : M Gen Oid :=
  root_id ← new_oid o_root;
  x ← lift (ConfRoot_init [] [] [] [] []);
  conf_put root_id x ;;
  mret root_id.

Definition ConfNode_init (name : string) (nr_cpu : option Z) (memsize_MB : Z) (processes : list Oid)
    (mid : option string) (ports : NodePorts) : outcome Obj :=
  check (all_t o_process processes) ;;
  Ret (ConfNode (mkCNode name nr_cpu memsize_MB processes mid ports)).

(** [m0conf[parent].nodes.append(node_id)] and its likes *)
Definition add_node (o : Oid) (x : Obj) : outcome Obj :=
  r ← as_root x;
  Ret (ConfRoot (mkRoot (r_nodes r ++ [o]) (r_sites r) (r_pools r) (r_profiles r)
                   (r_fdmi_flt_grps r) (r_mdpool r) (r_mdredundancy r) (r_imeta_pver r))).
Definition add_process (o : Oid) (x : Obj) : outcome Obj :=
  n ← as_node x;
  Ret (ConfNode (mkCNode (n_name n) (n_nr_cpu n) (n_memsize_MB n) (n_processes n ++ [o])
                   (n_machine_id n) (n_network_ports n))).
Definition add_service (o : Oid) (x : Obj) : outcome Obj :=
  p ← as_process x;
  Ret (ConfProcess (mkProcess (p_nr_cpu p) (p_memsize_MB p) (p_endpoint p) (p_services p ++ [o])
                      (p_meta_data p) (p_log p) (p_proc_name p))).
Definition add_sdev (o : Oid) (x : Obj) : outcome Obj :=
  s ← as_service x;
  Ret (ConfService (mkService (s_type s) (s_endpoint s) (s_sdevs s ++ [o]) (s_params s) (s_ctrl_id s))).
Definition add_encl (o : Oid) (x : Obj) : outcome Obj :=
  r ← as_rack x; Ret (ConfRack (mkRack (rk_encls r ++ [o]) (rk_pvers r) (rk_parent r))).
Definition add_ctrl (o : Oid) (x : Obj) : outcome Obj :=
  e ← as_encl x;
  Ret (ConfEnclosure (mkEnclosure (e_node e) (e_ctrls e ++ [o]) (e_pvers e) (e_parent e))).
Definition add_drive (o : Oid) (x : Obj) : outcome Obj :=
  c ← as_ctrl x; Ret (ConfController (mkController (c_drives c ++ [o]) (c_pvers c) (c_parent c))).

(** [assert not m0conf[parent].sites; m0conf[parent].sites = [site_id]] *)
Definition set_sites (o : Oid) (x : Obj) : outcome Obj :=
  r ← as_root x;
  check (match r_sites r with [] => true | _ => false end) ;;
  Ret (ConfRoot (mkRoot (r_nodes r) [o] (r_pools r) (r_profiles r)
                   (r_fdmi_flt_grps r) (r_mdpool r) (r_mdredundancy r) (r_imeta_pver r))).
Definition set_racks (o : Oid) (x : Obj) : outcome Obj :=
  s ← as_site x;
  check (match st_racks s with [] => true | _ => false end) ;;
  Ret (ConfSite (mkSite [o] (st_pvers s))).

Definition ConfNode_build (parent : Oid) (node : Node) : M Gen Oid :=
  assert (is_t o_root parent) ;;
  node_id ← new_oid o_node;
  x ← lift (ConfNode_init (hostname node) (ft_processorcount (facts node)) (ft_memsize_MB (facts node))
              [] (machine_id node) (network_ports node));
  conf_put node_id x ;;
  conf_upd parent (add_node node_id) ;;
  mret node_id.

(** [nr_cpu > 0] with [nr_cpu] an int or [None] *)
Definition ConfProcess_init (nr_cpu : option Z) (memsize_MB : Z) (endpoint : Endpoint)
    (services : list Oid) (meta_data : option string) (log : list Disk) (proc_name : option string)
    : outcome Obj :=
  n ← match nr_cpu with Some n => Ret n | None => Raise TypeError end;
  check (0 <? n) ;; check (0 <? memsize_MB) ;; check (all_t o_service services) ;;
  Ret (ConfProcess (mkProcess n memsize_MB endpoint services meta_data log proc_name)).

Definition ConfService_init (stype : SvcT) (endpoint : Endpoint) (sdevs : list Oid)
    (params : list string) (ctrl_id : option Oid) : outcome Obj :=
  check (all_t o_sdev sdevs) ;;
  Ret (ConfService (mkService stype endpoint sdevs params ctrl_id)).

Definition ConfService_build (parent : Oid) (stype : SvcT) (endpoint : Endpoint)
    (params : list string) (ctrl : option Oid) : M Gen Oid :=
  assert (is_t o_process parent) ;;
  svc_id ← new_oid o_service;
  x ← lift (ConfService_init stype endpoint [] params ctrl);
  conf_put svc_id x ;;
  conf_upd parent (add_service svc_id) ;;
  mret svc_id.

(** [assert size >= 0] with [size] an int or [None] *)
Definition non_negative (n : option Z) : outcome Z :=
  match n with
  | Some z => check (0 <=? z) ;; Ret z
  | None => Raise TypeError
  end.

Definition ConfSdev_init (dev_idx : Z) (filename : option string) (size blksize : option Z) : outcome Obj :=
  check (0 <=? dev_idx) ;;
  f ← need_ipaddr filename;
  s ← non_negative size;
  b ← non_negative blksize;
  Ret (ConfSdev (mkSdev dev_idx f s b)).

(** [next(cls._dev_idx)] *)
Definition next_dev_idx : M Gen Z :=
  n ← gets dev_idx; modify (with_dev_idx (n + 1)) ;; mret n.

Definition ConfSdev_build (parent : Oid) (disk : Disk) : M Gen Oid :=
  assert (is_t o_service parent) ;;
  sdev_id ← new_oid o_sdev;
  i ← next_dev_idx;
  x ← lift (ConfSdev_init i (dk_path disk) (dk_size disk) (dk_blksize disk));
  conf_put sdev_id x ;;
  conf_upd parent (add_sdev sdev_id) ;;
  mret sdev_id.

Definition ConfSite_init (racks pvers : list Oid) : outcome Obj :=
  check (all_t o_rack racks) ;; check (all_t o_pver pvers) ;; Ret (ConfSite (mkSite racks pvers)).

Definition ConfSite_build (parent : Oid) : M Gen Oid :=
  assert (is_t o_root parent) ;;
  site_id ← new_oid o_site;
  x ← lift (ConfSite_init [] []);
  conf_put site_id x ;;
  conf_upd parent (set_sites site_id) ;;
  mret site_id.

(** [_parent] is assigned right after the object is added. *)
Definition ConfRack_init (encls pvers : list Oid) (parent : Oid) : outcome Obj :=
  check (all_t o_enclosure encls) ;; check (all_t o_pver pvers) ;;
  Ret (ConfRack (mkRack encls pvers parent)).

Definition ConfRack_build (parent : Oid) : M Gen Oid :=
  assert (is_t o_site parent) ;;
  rack_id ← new_oid o_rack;
  x ← lift (ConfRack_init [] [] parent);
  conf_put rack_id x ;;
  conf_upd parent (set_racks rack_id) ;;
  mret rack_id.

Definition ConfEnclosure_init (node : Oid) (ctrls pvers : list Oid) (parent : Oid) : outcome Obj :=
  check (is_t o_node node) ;; check (all_t o_controller ctrls) ;; check (all_t o_pver pvers) ;;
  Ret (ConfEnclosure (mkEnclosure node ctrls pvers parent)).

Definition ConfEnclosure_build (parent node : Oid) : M Gen Oid :=
  assert (is_t o_rack parent) ;;
  assert (is_t o_node node) ;;
  encl_id ← new_oid o_enclosure;
  x ← lift (ConfEnclosure_init node [] [] parent);
  conf_put encl_id x ;;
  conf_upd parent (add_encl encl_id) ;;
  mret encl_id.

Definition ConfController_init (drives pvers : list Oid) (parent : Oid) : outcome Obj :=
  check (all_t o_drive drives) ;; check (all_t o_pver pvers) ;;
  Ret (ConfController (mkController drives pvers parent)).

Definition ConfController_build (parent : Oid) : M Gen Oid :=
  assert (is_t o_enclosure parent) ;;
  ctrl_id ← new_oid o_controller;
  x ← lift (ConfController_init [] [] parent);
  conf_put ctrl_id x ;;
  conf_upd parent (add_ctrl ctrl_id) ;;
  mret ctrl_id.

Definition ConfDrive_init (sdev : Oid) (pvers : list Oid) (parent : Oid) : outcome Obj :=
  check (is_t o_sdev sdev) ;; check (all_t o_pver pvers) ;;
  Ret (ConfDrive (mkDrive sdev pvers parent)).

Definition ConfDrive_build (parent sdev : Oid) : M Gen Oid :=
  assert (is_t o_controller parent) ;;
  assert (is_t o_sdev sdev) ;;
  drive_id ← new_oid o_drive;
  x ← lift (ConfDrive_init sdev [] parent);
  conf_put drive_id x ;;
  conf_upd parent (add_drive drive_id) ;;
  mret drive_id.

(** ** Processes *)
Definition service_types (proc_t : ProcT) (proc_desc : option Server) : outcome (list SvcT) :=
  let hax := match proc_t with p_hax => [M0_CST_HA] | _ => [] end in
  let client :=
    match proc_t with p_m0_client_other | p_m0_client_s3 => [M0_CST_DTM0; M0_CST_FIS] | _ => [] end in
  server ←
    match proc_t with
    | p_m0_server =>
        match proc_desc with
        | None => Raise AssertionError
        | Some d =>
            Ret ((if sv_runs_confd d then [M0_CST_CONFD] else [])
                 ++ match sv_io_disks d with
                    | [] => []
                    | _ => [M0_CST_IOS; M0_CST_SNS_REP; M0_CST_SNS_REB; M0_CST_DIX_REP;
                            M0_CST_DIX_REB; M0_CST_ADDB2; M0_CST_CAS; M0_CST_ISCS; M0_CST_FDMI;
                            M0_CST_FIS; M0_CST_DTM0]
                    end)
        end
    | _ => Ret []
    end;
  Ret (hax ++ [M0_CST_RMS] ++ client ++ server).

(** [NetProtocol[node_desc.get('data_iface_type', 'tcp')]] *)
Definition node_proto (node : Node) : outcome NetProtocol :=
  match data_iface_type node with
  | Absent => Ret np_tcp
  | Null => Raise (KeyError "None")
  | Given p => Ret p
  end.

(** The body of the loop over the services of a process. *)
Definition build_service (proc_id : Oid) (ep : Endpoint) (params : list string)
    (proc_desc : option Server) (ctrl : option Oid) (stype : SvcT) : M Gen unit :=
  svc_id ← ConfService_build proc_id stype ep (if decide (stype = M0_CST_DTM0) then params else []) ctrl;
  if decide (stype = M0_CST_IOS) then
    match proc_desc with
    | None => raise AssertionError
    | Some d =>
        for_each (sv_io_disks d) (fun disk =>
          match ctrl with
          | None => raise AssertionError
          | Some c => sdev ← ConfSdev_build svc_id disk; ConfDrive_build c sdev ;; mret tt
          end)
    end
  else mret tt.

Definition ConfProcess_build (parent : Oid) (ps : Portals) (node : Node) (proc_t : ProcT)
    (proc_desc : option Server) (ctrl : option Oid) (proc_name : option string) : M Gen Oid :=
  assert (is_t o_node parent) ;;
  match ctrl with Some c => assert (is_t o_controller c) | None => mret tt end ;;
  proto ← lift (node_proto node);
  portal ← process_portal ps proc_t proc_name;
  fab ← LibfabricEndpoint_init "inet" proto (ft_ipaddr (facts node)) portal;
  ep ← (if String.eqb (transport_type node) "lnet"
        then LnetEndpoint_init proto (ft_ipaddr (facts node)) portal else mret fab);
  proc_id ← new_oid o_process;
  let server := match proc_t with p_m0_server => proc_desc | _ => None end in
  x ← lift (ConfProcess_init (ft_processorcount (facts node)) (ft_memsize_MB (facts node)) ep []
              (server ≫= sv_meta_data) (default [] (sv_log_disks <$> server)) proc_name);
  conf_put proc_id x ;;
  conf_upd parent (add_process proc_id) ;;
  let params :=
    match proc_t with
    | p_m0_client_other | p_m0_client_s3 => ["origin:in-volatile"]
    | p_m0_server => ["origin:in-persistent"]
    | p_hax => []
    end in
  ts ← lift (service_types proc_t proc_desc);
  for_each ts (build_service proc_id ep params proc_desc ctrl) ;;
  mret proc_id.

(** ** Metadata devices *)

(** The device of a CAS service. *)
Definition build_cas_dev (ctrls : list (Oid * Server)) (svc_id : Oid) (svc : CService) : M Gen unit :=
  match s_ctrl_id svc ≫= (fun c => pair c <$> od_get c ctrls) with
  | None => raise (KeyError "ctrl_id")
  | Some (ctrl_id, d) =>
      let md := match sv_meta_data d with
                | Some s => if String.eqb s "" then "/dev/null" else s
                | None => "/dev/null"
                end in
      sdev ← ConfSdev_build svc_id (mkDisk (Some md) (Some 1024) (Some 1));
      ConfDrive_build ctrl_id sdev ;; mret tt
  end.

Definition build_cas_devs (ctrls : list (Oid * Server)) : M Gen unit :=
  items ← gets (fun g => od_keys (m0conf g));
  for_each items (fun item =>
    if is_t o_enclosure item then
      c ← gets m0conf;
      e ← lift (conf_as as_encl c item);
      n ← lift (conf_as as_node c (e_node e));
      for_each (n_processes n) (fun proc_id =>
        c ← gets m0conf;
        p ← lift (conf_as as_process c proc_id);
        for_each (p_services p) (fun svc_id =>
          c ← gets m0conf;
          s ← lift (conf_as as_service c svc_id);
          if decide (s_type s = M0_CST_CAS) then build_cas_dev ctrls svc_id s else mret tt))
    else mret tt).
