(* ===== verification/CfgenPools.v ===== *)
(** * Pools, pool versions, profiles and the whole cluster ([src/cfgen/cfgen])

    The drives of a pool, failure tolerances, [ConfPool.build] with the pool
    version and its tree of virtual objects, auxiliary pools, profiles, FDMI
    filters, [validate_m0conf] and [build_cluster].

    The order of [list(set(...))] is not specified by the language: the one order
    that shows, of the nodes an auxiliary pool is made from, is the parameter
    [list_set]. *)

From stdpp Require Import list_numbers.
From S2P Require Import Prelude PyStr Json HaxTypes OrdDict PyFloat CfgenTypes CfgenBuild.

(** [[y for x in l for y in f(x)]] *)
Definition concat_o {A B} (f : A -> outcome (list B)) (l : list A) : outcome (list B) :=
  ls ← mapM f l; Ret (concat ls).

(** [[x for x in m0conf if x.type is t]] *)
Definition conf_keys_of (t : ObjT) (c : Conf) : list Oid := List.filter (is_t t) (od_keys c).

Definition pool_type (p : PoolDesc) : outcome PoolT :=
  match pl_type p with
  | Absent => Ret pool_sns
  | Null => Raise (KeyError "None")
  | Given t => Ret t
  end.

(** The services of the node an enclosure stands for, selected by type. *)
Definition encl_svcs (c : Conf) (svc_t : SvcT) (encl_id : Oid) : outcome (list Oid) :=
  e ← conf_as as_encl c encl_id;
  n ← conf_as as_node c (e_node e);
  concat_o (fun proc_id =>
    p ← conf_as as_process c proc_id;
    concat_o (fun svc_id =>
      s ← conf_as as_service c svc_id;
      Ret (if decide (s_type s = svc_t) then [svc_id] else [])) (p_services p)) (n_processes n).

Definition cluster_svcs (c : Conf) (svc_t : SvcT) : outcome (list Oid) :=
  concat_o (encl_svcs c svc_t) (conf_keys_of o_enclosure c).

Definition cluster_encls (c : Conf) (svc_t : SvcT) : outcome (list Oid) :=
  l ← concat_o (fun encl_id => svcs ← encl_svcs c svc_t encl_id; Ret (map (fun _ => encl_id) svcs))
        (conf_keys_of o_enclosure c);
  Ret (remove_dups (l : list Oid)).

(** One list of controllers per enclosure. *)
Definition cluster_ctrls (c : Conf) : outcome (list (list Oid)) :=
  encls ← cluster_encls c M0_CST_IOS;
  mapM (fun encl_id => e ← conf_as as_encl c encl_id; Ret (e_ctrls e)) encls.

(** ** Drives of a pool *)
Definition pool_drives_with_nodes (c : Conf) : outcome (list (Oid * Oid)) :=
  all_drives ← concat_o (fun encl_id =>
    e ← conf_as as_encl c encl_id;
    concat_o (fun ctrl_id =>
      k ← conf_as as_ctrl c ctrl_id;
      Ret ((fun drive_id => (drive_id, e_node e)) <$> c_drives k)) (e_ctrls e))
    (conf_keys_of o_enclosure c);
  check (match all_drives with [] => false | _ => true end) ;;
  check (forallb (fun '(d, n) => is_t o_drive d && is_t o_node n) all_drives) ;;
  Ret all_drives.

Definition get_pool_diskrefs (p : PoolDesc) : option (list DiskRef) := fget (pl_disk_refs p).

(** The condition of the comprehension that selects [targets]. *)
Definition ref_matches (c : Conf) (ref : DiskRef) (dn : Oid * Oid) : outcome bool :=
  d ← conf_as as_drive c dn.1;
  s ← conf_as as_sdev c (dv_sdev d);
  if bool_decide (dr_path ref = RText (sd_filename s)) then
    n ← conf_as as_node c dn.2;
    Ret (match fget (dr_node ref) with None => true | Some x => String.eqb x (n_name n) end)
  else Ret false.

Definition ref_targets (c : Conf) (drives : list (Oid * Oid)) (ref : DiskRef)
    : outcome (list (Oid * Oid)) :=
  concat_o (fun dn => b ← ref_matches c ref dn; Ret (if (b : bool) then [dn] else [])) drives.

Definition pool_drives_from_references (c : Conf) (p : PoolDesc) : outcome (list (Oid * Oid)) :=
  all_drives ← pool_drives_with_nodes c;
  match get_pool_diskrefs p with
  | None => Ret []
  | Some refs =>
      drives ← concat_o (fun ref =>
        targets ← ref_targets c (remove_dups all_drives) ref;
        check (length targets =? 1)%nat ;; Ret targets) refs;
      check (all_unique drives) ;;
      Ret drives
  end.

(** [m0conf[ctrl_id].drives[-1]] and [m0conf[ctrl_id].drives[0]] *)
Definition last_drive (c : Conf) (ctrl_id : Oid) : outcome Oid :=
  k ← conf_as as_ctrl c ctrl_id;
  match last (c_drives k) with Some d => Ret d | None => Raise IndexError end.
Definition first_drive (c : Conf) (ctrl_id : Oid) : outcome Oid :=
  k ← conf_as as_ctrl c ctrl_id; index_get 0 (c_drives k).

Definition pool_drives (c : Conf) (p : PoolDesc) : outcome (list Oid) :=
  ptype ← pool_type p;
  match ptype return outcome (list Oid) with
  | pool_dix => mapM (last_drive c) (conf_keys_of o_controller c)
  | pool_md => mapM (first_drive c) (conf_keys_of o_controller c)
  | pool_sns =>
      refs ← pool_drives_from_references c p;
      drives ← match refs return outcome (list (Oid * Oid)) with
               | [] => pool_drives_with_nodes c
               | _ => Ret refs
               end;
      Ret (map fst drives)
  end.

Definition check_drive_multiple_references {N} (c : Conf) (desc : ClusterDesc N)
    : outcome (list (Oid * Oid)) :=
  drives ← concat_o (pool_drives_from_references c) (cd_pools desc);
  let over := List.filter (fun d => (1 <? length (List.filter (fun x => bool_decide (x = d)) drives))%nat)
                drives in
  check (cd_create_aux desc || match over with [] => true | _ => false end) ;;
  Ret drives.

(** ** Failure tolerance *)
Record faultToleranceInfo : Type := mkFti {
  max_drives_per_node : Z; max_drives_per_ctrl : Z; min_drives_per_node : Z }.

(** The two inner statements of the loop over the enclosures. *)
Definition count_encl (acc : faultToleranceInfo) (per_ctrl : list Z) : faultToleranceInfo :=
  let per_node := foldr Z.add 0 per_ctrl in
  mkFti (Z.max (max_drives_per_node acc) per_node)
    (foldl Z.max (max_drives_per_ctrl acc) per_ctrl)
    (if (min_drives_per_node acc =? 0) || (per_node <? min_drives_per_node acc)
     then per_node else min_drives_per_node acc).

Definition drives_per_node_and_ctrl (c : Conf) : outcome faultToleranceInfo :=
  counts ← mapM (fun encl_id =>
    e ← conf_as as_encl c encl_id;
    mapM (fun ctrl_id => k ← conf_as as_ctrl c ctrl_id; Ret (Z.of_nat (length (c_drives k))))
      (e_ctrls e)) (conf_keys_of o_enclosure c);
  Ret (foldl count_encl (mkFti 0 0 0) counts).

(** [floor(a / b)] and [ceil(a / b)] *)
Definition floor_div (a b : Z) : outcome Z := q ← py_truediv a b; Ret (py_floor q).
Definition ceil_of_div (a b : Z) : outcome Z := q ← py_truediv a b; Ret (py_ceil q).

Definition gen_sns_tolerance (c : Conf) (p : PoolDesc) : outcome Failures :=
  encls ← cluster_encls c M0_CST_IOS;
  let encls_nr := Z.of_nat (length encls) in
  ctrls ← cluster_ctrls c;
  ctrls_per_encl ← floor_div (Z.of_nat (length ctrls)) encls_nr;
  data_units ← dict_get "data_units" (pl_data_units p);
  parity_units ← dict_get "parity_units" (pl_parity_units p);
  spare_units ← match pl_spare_units p with
                | Absent => Ret 0 | Null => Raise TypeError | Given s => Ret s
                end;
  let total_units := data_units + parity_units + spare_units in
  info ← drives_per_node_and_ctrl c;
  let min_pool_width := min_drives_per_node info * encls_nr in
  drives ← pool_drives c p;
  let actual_pool_width := Z.of_nat (length drives) in
  asymmetric ← (if min_pool_width <? actual_pool_width
                then q ← py_truediv min_pool_width total_units; Ret (0 <? fm q) else Ret false);
  if (asymmetric : bool) then
    if parity_units <? max_drives_per_ctrl info then Ret (mkFailures 0 0 0 0 parity_units)
    else Raise (UnboundLocalError "ctrl_failure_allowed")
  else
    units_per_encl ← ceil_of_div total_units encls_nr;
    enc_failure_allowed ← floor_div parity_units units_per_encl;
    Ret (mkFailures 0 0 enc_failure_allowed
           (Z.min (ctrls_per_encl * enc_failure_allowed) parity_units) parity_units).

Definition gen_md_tolerance (c : Conf) : outcome Failures :=
  encls ← cluster_encls c M0_CST_IOS;
  let encls_nr := Z.of_nat (length encls) in
  ctrls ← cluster_ctrls c;
  ctrls_per_encl ← floor_div (Z.of_nat (length ctrls)) encls_nr;
  let encl_failures := encls_nr - 1 in
  Ret (mkFailures 0 0 encl_failures (Z.min encl_failures (ctrls_per_encl * encl_failures))
         encl_failures).

(** [itertools.product] *)
Fixpoint product (ls : list (list Z)) : list (list Z) :=
  match ls with
  | [] => [[]]
  | l :: ls' => l ≫= (fun x => cons x <$> product ls')
  end.

(** [Failures(...)] of a tuple *)
Definition failures_of (v : list Z) : option Failures :=
  match v with [a; b; c; d; e] => Some (mkFailures a b c d e) | _ => None end.

Definition gen_allowances (allowed : Failures) : list Failures :=
  omap failures_of
    (List.filter (existsb (fun n => negb (n =? 0)))
       (product ((fun n => seqZ 0 (n + 1)) <$> failures_list allowed))).

Record PDClustAttrs0 : Type := mkPD { pd_data_units : Z; pd_parity_units : Z; pd_spare_units : Z }.

(** [divmod] and the case analysis of [tolerated_failures] *)
Definition ctrl_failures (n k s nr_ctrls : Z) : outcome Z :=
  let q := (n + k + s) / nr_ctrls in
  let r := (n + k + s) mod nr_ctrls in
  let kc := r * (q + 1) in
  if k <? kc then Ret (k / (q + 1))
  else if kc <? k then
    (if q =? 0 then Raise (OtherException "ZeroDivisionError") else Ret (r + (k - kc) / q))
  else Ret r.

Definition spare_ok (parity_units spare_units : Z) : bool :=
  (spare_units =? 0) || (spare_units =? parity_units).

Definition tolerated_failures (c : Conf) (pd : PDClustAttrs0) (drives : list Oid) : outcome Failures :=
  check (0 <? pd_data_units pd) ;;
  check (0 <=? pd_parity_units pd) ;;
  check (spare_ok (pd_parity_units pd) (pd_spare_units pd)) ;;
  check (match drives with [] => false | _ => all_t o_drive drives end) ;;
  check (all_unique drives) ;;
  hit ← mapM (fun ctrl_id => k ← conf_as as_ctrl c ctrl_id;
               Ret (existsb (fun d => bool_decide (d ∈ drives)) (c_drives k)))
          (conf_keys_of o_controller c);
  let nr_ctrls := Z.of_nat (length (List.filter id hit)) in
  check (0 <? nr_ctrls) ;;
  cf ← ctrl_failures (pd_data_units pd) (pd_parity_units pd) (pd_spare_units pd) nr_ctrls;
  Ret (mkFailures 0 0 0 cf (pd_parity_units pd)).

(** ** Virtual objects *)
Definition ConfObjv_init (real : Oid) (children : list Oid) : outcome Obj :=
  check (bool_decide (o_type real ∈ pver_levels)) ;; check (all_t o_objv children) ;;
  Ret (ConfObjv (mkObjv real children)).

Definition ConfObjv_build (real : Oid) : M Gen Oid :=
  c ← gets m0conf;
  assert (od_in real c) ;;
  objv_id ← new_oid o_objv;
  x ← lift (ConfObjv_init real []);
  conf_put objv_id x ;;
  mret objv_id.

Definition add_child (o : Oid) (x : Obj) : outcome Obj :=
  v ← as_objv x; Ret (ConfObjv (mkObjv (ov_real v) (ov_children v ++ [o]))).
Definition add_sitev (o : Oid) (x : Obj) : outcome Obj :=
  p ← as_pver x;
  Ret (ConfPver (mkPver (pv_data_units p) (pv_parity_units p) (pv_spare_units p) (pv_pool_width p)
                   (pv_tolerance p) (pv_sitevs p ++ [o]))).

(** [virtual[x]] *)
Definition virt (virtual : list (Oid * Oid)) (x : Oid) : outcome Oid :=
  dict_get (oid_repr x) (od_get x virtual).

(** The three statements that make [dev] part of the pool version. *)
Definition enter_pver (pver dev : Oid) (virtual : list (Oid * Oid)) : M Gen (list (Oid * Oid)) :=
  c ← gets m0conf;
  x ← lift (conf_get c dev);
  vs ← lift (obj_pvers x);
  assert (negb (bool_decide (pver ∈ vs))) ;;
  conf_upd dev (obj_add_pver pver) ;;
  v ← ConfObjv_build dev;
  mret (od_set dev v virtual).

(** The [while] loop: [types] is what is left of [parent_types], last one first,
    [dev0] is [devs[0]].  Returns [virtual], [devs[0]] and [parent_types]. *)
Fixpoint climb (pver : Oid) (types : list ObjT) (dev0 : Oid) (virtual : list (Oid * Oid))
    : M Gen (list (Oid * Oid) * Oid * list ObjT) :=
  match types with
  | [] => mret (virtual, dev0, [])
  | t :: types' =>
      c ← gets m0conf;
      x ← lift (conf_get c dev0);
      dev ← lift (obj_parent x);
      assert (is_t t dev) ;;
      let parent_ready := od_in dev virtual in
      virtual' ← (if parent_ready then mret virtual else enter_pver pver dev virtual);
      v0 ← lift (virt virtual' dev0);
      v ← lift (virt virtual' dev);
      conf_upd v (add_child v0) ;;
      if parent_ready then mret (virtual', dev, types') else climb pver types' dev virtual'
  end.

(** One turn of the loop over the drives. *)
Definition pver_drive (pver : Oid) (virtual : list (Oid * Oid)) (drive : Oid)
    : M Gen (list (Oid * Oid)) :=
  assert (negb (od_in drive virtual)) ;;
  virtual1 ← enter_pver pver drive virtual;
  '(virtual2, top, rest) ← climb pver [o_controller; o_enclosure; o_rack; o_site] drive virtual1;
  match rest with
  | [] => v ← lift (virt virtual2 top); conf_upd pver (add_sitev v)
  | _ => mret tt
  end ;;
  mret virtual2.

Definition build_pver_subtree (pver : Oid) (drives : list Oid) : M Gen (list (Oid * Oid)) :=
  assert (is_t o_pver pver) ;;
  assert (match drives with [] => false | _ => all_t o_drive drives end) ;;
  fold_m (pver_drive pver) [] drives.

(** ** Pool versions *)
Definition ConfPver_init (data_units parity_units spare_units pool_width : Z) (tolerance : list Z)
    (sitevs : list Oid) : outcome Obj :=
  check (0 <? data_units) ;; check (0 <=? parity_units) ;; check (spare_ok parity_units spare_units) ;;
  check (0 <? pool_width) ;; check (length tolerance =? length pver_levels)%nat ;;
  check (forallb (fun n => 0 <=? n) tolerance) ;; check (all_t o_objv sitevs) ;;
  Ret (ConfPver (mkPver data_units parity_units spare_units pool_width tolerance sitevs)).

Definition ConfPver_build (parent : Oid) (pd : PDClustAttrs0) (drives : list Oid)
    (tolerance : option Failures) : M Gen Oid :=
  assert (is_t o_pool parent) ;;
  assert (match drives with [] => false | _ => all_t o_drive drives end) ;;
  assert (all_unique drives) ;;
  pver_id ← new_oid o_pver;
  c ← gets m0conf;
  t ← match tolerance with Some t => mret t | None => lift (tolerated_failures c pd drives) end;
  x ← lift (ConfPver_init (pd_data_units pd) (pd_parity_units pd) (pd_spare_units pd)
              (Z.of_nat (length drives)) (failures_list t) []);
  conf_put pver_id x ;;
  conf_upd parent (obj_add_pver pver_id) ;;
  build_pver_subtree pver_id drives ;;
  mret pver_id.

Definition ConfPverF_init (cuid : Z) (base : Oid) (allowance : list Z) : outcome Obj :=
  check (0 <=? cuid) ;; check (is_t o_pver base) ;;
  check (length allowance =? length pver_levels)%nat ;;
  Ret (ConfPverF (mkPverF cuid base allowance)).

Definition next_cuid : M Gen Z :=
  n ← gets cuid; modify (with_cuid (n + 1)) ;; mret n.

Definition ConfPverF_build (parent base : Oid) (allowance : Failures) : M Gen Oid :=
  assert (is_t o_pool parent) ;;
  pver_id ← new_oid o_pver_f;
  n ← next_cuid;
  x ← lift (ConfPverF_init n base (failures_list allowance));
  conf_put pver_id x ;;
  conf_upd parent (obj_add_pver pver_id) ;;
  mret pver_id.

(** ** Pools *)
Definition ConfPool_init (pvers : list Oid) (name : option string) : outcome Obj :=
  check (forallb (fun x => is_t o_pver x || is_t o_pver_f x) pvers) ;;
  Ret (ConfPool (mkPool pvers name)).

Definition add_pool (o : Oid) (x : Obj) : outcome Obj :=
  r ← as_root x;
  Ret (ConfRoot (mkRoot (r_nodes r) (r_sites r) (r_pools r ++ [o]) (r_profiles r)
                   (r_fdmi_flt_grps r) (r_mdpool r) (r_mdredundancy r) (r_imeta_pver r))).

(** [assert m0conf[parent].imeta_pver is None; m0conf[parent].imeta_pver = pver] *)
Definition set_imeta_pver (o : Oid) (x : Obj) : outcome Obj :=
  r ← as_root x;
  check (match r_imeta_pver r with None => true | _ => false end) ;;
  Ret (ConfRoot (mkRoot (r_nodes r) (r_sites r) (r_pools r) (r_profiles r)
                   (r_fdmi_flt_grps r) (r_mdpool r) (r_mdredundancy r) (Some o))).
Definition set_mdpool (o : Oid) (x : Obj) : outcome Obj :=
  r ← as_root x;
  check (match r_mdpool r with None => true | _ => false end) ;;
  Ret (ConfRoot (mkRoot (r_nodes r) (r_sites r) (r_pools r) (r_profiles r)
                   (r_fdmi_flt_grps r) (Some o) (r_mdredundancy r) (r_imeta_pver r))).
Definition set_mdredundancy (n : Z) (x : Obj) : outcome Obj :=
  r ← as_root x;
  Ret (ConfRoot (mkRoot (r_nodes r) (r_sites r) (r_pools r) (r_profiles r)
                   (r_fdmi_flt_grps r) (r_mdpool r) n (r_imeta_pver r))).

(** [pd_attrs] *)
Definition pool_pd_attrs (c : Conf) (p : PoolDesc) (t : PoolT) : outcome PDClustAttrs0 :=
  check (Bool.eqb (bool_decide (is_Some (pl_data_units p))) (bool_decide (is_Some (pl_parity_units p)))) ;;
  match pl_data_units p with
  | Some data_units =>
      parity_units ← dict_get "parity_units" (pl_parity_units p);
      Ret (mkPD data_units parity_units (default parity_units (fget (pl_spare_units p))))
  | None =>
      svc_t ← match t with
              | pool_dix => Ret M0_CST_CAS
              | pool_md => Ret M0_CST_IOS
              | pool_sns => Raise AssertionError
              end;
      encls ← cluster_encls c svc_t;
      Ret (mkPD 1 (Z.of_nat (length encls) - 1) 0)
  end.

Definition pool_tolerance (c : Conf) (p : PoolDesc) (t : PoolT) : outcome Failures :=
  match t, pl_allowed_failures p with
  | pool_md, _ => gen_md_tolerance c
  | _, Some d => Ret d
  | pool_dix, None => gen_md_tolerance c
  | pool_sns, None => gen_sns_tolerance c p
  end.

(** [assert spare_units is None or spare_units == 0 or spare_units == pool_desc['parity_units']] *)
Definition check_spare (p : PoolDesc) : outcome unit :=
  match fget (pl_spare_units p) with
  | None => Ret tt
  | Some s =>
      if s =? 0 then Ret tt
      else k ← dict_get "parity_units" (pl_parity_units p); check (s =? k)
  end.

Definition ConfPool_build {N} (parent : Oid) (p : PoolDesc) (desc : ClusterDesc N) : M Gen Oid :=
  assert (is_t o_root parent) ;;
  pool_id ← new_oid o_pool;
  x ← lift (ConfPool_init [] (pl_name p));
  conf_put pool_id x ;;
  conf_upd parent (add_pool pool_id) ;;
  lift (check_spare p) ;;
  c ← gets m0conf;
  drives ← lift (pool_drives c p);
  t ← lift (pool_type p);
  pd_attrs ← lift (pool_pd_attrs c p t);
  tolerance ← lift (pool_tolerance c p t);
  pver ← ConfPver_build pool_id pd_attrs drives (Some tolerance);
  match t with
  | pool_dix => conf_upd parent (set_imeta_pver pver)
  | pool_md => conf_upd parent (set_mdpool pool_id)
  | pool_sns =>
      if cd_generate_formulaic_pvers desc then
        for_each (gen_allowances tolerance) (fun v => ConfPverF_build pool_id pver v ;; mret tt)
      else mret tt
  end ;;
  mret pool_id.

(** ** Profiles *)
Definition ConfProfile_init (pools : list Oid) (name : string) : outcome Obj :=
  check (all_t o_pool pools) ;; Ret (ConfProfile (mkProfile pools name)).

Definition add_profile (o : Oid) (x : Obj) : outcome Obj :=
  r ← as_root x;
  Ret (ConfRoot (mkRoot (r_nodes r) (r_sites r) (r_pools r) (r_profiles r ++ [o])
                   (r_fdmi_flt_grps r) (r_mdpool r) (r_mdredundancy r) (r_imeta_pver r))).

(** [pool_ids] *)
Definition profile_pool_ids (c : Conf) (names : list string) : outcome (list (string * Oid)) :=
  items ← concat_o (fun pool_id =>
    p ← conf_as as_pool c pool_id;
    Ret (match po_name p with
         | Some n => if bool_decide (n ∈ names) then [(n, pool_id)] else []
         | None => []
         end)) (conf_keys_of o_pool c);
  Ret (foldl (fun d kv => od_set kv.1 kv.2 d) [] items).

(** The pools of a profile: the named ones, then the DIX and the metadata pool. *)
Definition profile_pools (c : Conf) (root : CRoot) (names : list string) : outcome (list Oid) :=
  pool_ids ← profile_pool_ids c names;
  prof_pools ← mapM (fun pool => dict_get pool (od_get pool pool_ids)) names;
  dix_pools ← concat_o (fun pool =>
    x ← conf_get c pool;
    vs ← obj_pvers x;
    Ret (match r_imeta_pver root with
         | Some v => if bool_decide (v ∈ vs) then [pool] else []
         | None => []
         end)) (r_pools root);
  check (length dix_pools =? 1)%nat ;;
  dix_pool ← index_get 0 dix_pools;
  let prof_pools1 := if bool_decide (dix_pool ∈ prof_pools) then prof_pools
                     else prof_pools ++ [dix_pool] in
  match r_mdpool root with
  | None => Raise AssertionError
  | Some mdpool =>
      Ret (if bool_decide (mdpool ∈ prof_pools1) then prof_pools1 else prof_pools1 ++ [mdpool])
  end.

Definition ConfProfile_build (parent : Oid) (prof : ProfileDesc) : M Gen Oid :=
  assert (is_t o_root parent) ;;
  c ← gets m0conf;
  root ← lift (conf_as as_root c parent);
  prof_pools ← lift (profile_pools c root (pf_pools prof));
  prof_id ← new_oid o_profile;
  x ← lift (ConfProfile_init prof_pools (pf_name prof));
  conf_put prof_id x ;;
  conf_upd parent (add_profile prof_id) ;;
  mret prof_id.

(** ** FDMI filters *)
Definition ConfFdmiFilter_build (root parent : Oid) (d : FdmiFilterDesc)
    (other_clients : list (string * list (Oid * Oid))) : M Gen Oid :=
  assert (is_t o_fdmi_flt_grp parent) ;;
  fdmi_filter_oid ← new_oid o_fdmi_filter;
  clients ← lift (dict_get (ff_node d) (od_get (ff_node d) other_clients));
  '(node_oid, process_oid) ← lift (index_get (Z.to_nat (ff_client_index d)) clients);
  c ← gets m0conf;
  process ← lift (conf_as as_process c process_oid);
  r ← lift (conf_as as_root c root);
  conf_put fdmi_filter_oid
    (ConfFdmiFilter (mkFilter (r_imeta_pver r) node_oid (ff_substrings d)
                       (endpoint_str (p_endpoint process)))) ;;
  mret fdmi_filter_oid.

Definition add_fdmi_flt_grp (o : Oid) (x : Obj) : outcome Obj :=
  r ← as_root x;
  Ret (ConfRoot (mkRoot (r_nodes r) (r_sites r) (r_pools r) (r_profiles r)
                   (r_fdmi_flt_grps r ++ [o]) (r_mdpool r) (r_mdredundancy r) (r_imeta_pver r))).

Definition ConfFdmiFltGrp_init (rec_type : Z) (fdmi_filters : list Oid) : outcome Obj :=
  check (all_t o_fdmi_filter fdmi_filters) ;;
  Ret (ConfFdmiFltGrp (mkFltGrp rec_type fdmi_filters)).

Definition ConfFdmiFltGrp_build (parent : Oid) (d : FdmiFilterDesc)
    (other_clients : list (string * list (Oid * Oid))) : M Gen Oid :=
  assert (is_t o_root parent) ;;
  grp_id ← new_oid o_fdmi_flt_grp;
  filter_oid ← ConfFdmiFilter_build parent grp_id d other_clients;
  x ← lift (ConfFdmiFltGrp_init 0x1000 [filter_oid]);
  conf_put grp_id x ;;
  conf_upd parent (add_fdmi_flt_grp grp_id) ;;
  mret grp_id.
