(* ===== verification/CfgenCluster.v ===== *)
(** * The whole cluster ([src/cfgen/cfgen])

    Auxiliary pools, [validate_m0conf] and [build_cluster].  The order in which
    [list(set(l))] lists the elements of [l] is not specified by the language: the
    only such order that shows, of the nodes auxiliary pools are made from, is the
    parameter [list_set]. *)

From stdpp Require Import list_numbers.
From S2P Require Import Prelude PyStr Json HaxTypes OrdDict CfgenTypes CfgenBuild CfgenPools.

(** ** Auxiliary pools *)

(** [itertools.combinations(l, r)] *)
Fixpoint combs {A} (r : nat) (l : list A) : list (list A) :=
  match r with
  | O => [[]]
  | S r' =>
      match l with
      | [] => []
      | x :: l' => map (cons x) (combs r' l') ++ combs r l'
      end
  end.

Definition combinations {A} (l : list A) (r : Z) : outcome (list (list A)) :=
  if r <? 0 then Raise ValueError else Ret (combs (Z.to_nat r) l).

(** [range(n, 0, -1)] *)
Definition count_down (n : Z) : list Z := rev (seqZ 1 n).

(** [f'{i:003}'] *)
Definition pad3 (i : Z) : string :=
  let s := dec_str i in
  match String.length s with
  | 1%nat => "00" +:+ s
  | 2%nat => "0" +:+ s
  | _ => s
  end.

(** [dr['node'] == encl_x] *)
Definition on_node (x : option string) (r : DiskRef) : outcome bool :=
  n ← fitem "node" (dr_node r); Ret (bool_decide (n = x)).

(** The references of a combination of nodes. *)
Definition refs_of (refs : list DiskRef) (encl : list (option string)) : outcome (list DiskRef) :=
  concat_o (fun encl_x =>
    concat_o (fun dr => b ← on_node encl_x dr; Ret (if (b : bool) then [dr] else [])) refs) encl.

(** An entry of [aux_pools[pool['name']]]. *)
Definition aux_pool (pool : PoolDesc) (i : Z) (comb : list DiskRef) : outcome PoolDesc :=
  name ← dict_get "name" (pl_name pool);
  data_units ← dict_get "data_units" (pl_data_units pool);
  parity_units ← dict_get "parity_units" (pl_parity_units pool);
  spare_units ← fitem "spare_units" (pl_spare_units pool);
  Ret (mkPoolDesc (Some (name +:+ "-aux" +:+ pad3 i)) Absent (Given comb)
         (Some (data_units - parity_units)) (Some parity_units)
         (match spare_units with Some s => Given s | None => Null end) None).

(** [enumerate(l, start=1)] *)
Definition enumerate1 {A} (l : list A) : list (Z * A) := zip (seqZ 1 (Z.of_nat (length l))) l.

Section Cluster.
Context (list_set : list (option string) -> list (option string)).

(** The sets of nodes left when [1] to [tolerance.enclosure] of them fail. *)
Definition encl_ref_combination (pool_nodes : list (option string)) (enclosure : Z)
    : outcome (list (list (option string))) :=
  concat_o (fun encl_failures => combinations pool_nodes (Z.of_nat (length pool_nodes) - encl_failures))
    (count_down enclosure).

(** [disk_refs], or the references made from [disks] when the pool has none *)
Definition aux_refs (pool : PoolDesc) (disks : list DiskRef) : list DiskRef :=
  default disks (get_pool_diskrefs pool).

Definition aux_combinations (pool : PoolDesc) (disks : list DiskRef) (enclosure : Z)
    : outcome (list (list DiskRef)) :=
  temp_pool_nodes ← mapM (fun r => fitem "node" (dr_node r)) (aux_refs pool disks);
  combos ← encl_ref_combination (list_set temp_pool_nodes) enclosure;
  mapM (refs_of (aux_refs pool disks)) combos.

Definition aux_pool_list (pool : PoolDesc) (disks : list DiskRef) : M Gen unit :=
  c ← gets m0conf;
  pool_t ← lift (pool_type pool);
  name ← lift (dict_get "name" (pl_name pool));
  assert (bool_decide (pool_t = pool_sns)) ;;
  tolerance ← match pl_allowed_failures pool with
              | Some d => mret d
              | None => lift (gen_sns_tolerance c pool)
              end;
  disk_ref_combinations ← lift (aux_combinations pool disks (f_enclosure tolerance));
  pools ← lift (mapM (fun ic : Z * list DiskRef => aux_pool pool ic.1 ic.2)
                  (enumerate1 disk_ref_combinations));
  modify (fun g => with_aux_pools (od_set name pools (aux_pools g)) g).

(** ** Validation *)
Definition upper_char (c : ascii) : ascii :=
  let n := nat_of_ascii c in
  if ((97 <=? n) && (n <=? 122))%nat then ascii_of_nat (n - 32) else c.
Definition capitalize (s : string) : string :=
  match s with
  | EmptyString => EmptyString
  | String c s' => String (upper_char c) (py_lower s')
  end.

(** ['Conf' + ''.join(s.capitalize() for s in oid.type.name.split('_'))] *)
Definition class_name_of_type (t : ObjT) : string :=
  "Conf" +:+ py_join "" (capitalize <$> py_split "_" (objt_name t)).

(** [obj.__class__.__name__] *)
Definition obj_class (x : Obj) : string :=
  match x with
  | ConfRoot _ => "ConfRoot" | ConfNode _ => "ConfNode" | ConfProcess _ => "ConfProcess"
  | ConfService _ => "ConfService" | ConfSdev _ => "ConfSdev" | ConfSite _ => "ConfSite"
  | ConfRack _ => "ConfRack" | ConfEnclosure _ => "ConfEnclosure"
  | ConfController _ => "ConfController" | ConfDrive _ => "ConfDrive" | ConfPool _ => "ConfPool"
  | ConfPver _ => "ConfPver" | ConfPverF _ => "ConfPverF" | ConfObjv _ => "ConfObjv"
  | ConfProfile _ => "ConfProfile" | ConfFdmiFltGrp _ => "ConfFdmiFltGrp"
  | ConfFdmiFilter _ => "ConfFdmiFilter"
  end.

(** The types a downlink may hold. *)
Definition child_ok (children_t : ObjT) (x : Oid) : bool :=
  is_t children_t x || (is_t o_pver_f x && bool_decide (children_t = o_pver)).

(** [children_by_parent_type], keyed by type and attribute *)
Notation ChildMap := (list (ObjT * string * list Oid)).

Definition visit_link (t : ObjT) (acc : ChildMap) (rel : Downlink * list Oid) : outcome ChildMap :=
  check (all_unique rel.2) ;;
  check (forallb (child_ok (dl_children_t rel.1)) rel.2) ;;
  let k := (t, dl_name rel.1) in
  Ret (od_set k (default [] (od_get k acc) ++ rel.2) acc).

(** A [for] loop with an accumulator in code that only reads. *)
Fixpoint fold_o {A S} (f : S -> A -> outcome S) (s : S) (l : list A) : outcome S :=
  match l with
  | [] => Ret s
  | x :: l' => s' ← f s x; fold_o f s' l'
  end.

Definition visit_obj (acc : ChildMap) (ox : Oid * Obj) : outcome ChildMap :=
  check (bool_decide (o_type ox.1 = obj_objt ox.2)) ;;
  check (String.eqb (obj_class ox.2) (class_name_of_type (o_type ox.1))) ;;
  fold_o (visit_link (o_type ox.1)) acc (obj_downlinks ox.2).

Definition validate_m0conf (c : Conf) : outcome unit :=
  acc ← fold_o visit_obj [] c;
  check (forallb (fun kv => all_unique kv.2) acc).

(** ** [build_cluster] *)
Record ConsulAgent : Type := mkAgent { node_name : string; ipaddr : option string }.
Record Cluster : Type := mkCluster {
  consul_servers : list ConsulAgent; consul_clients : list ConsulAgent;
  cl_m0_clients : list (Oid * Oid); m0_client_types : list string }.

Definition add_agent (confd_p : bool) (a : ConsulAgent) (cl : Cluster) : Cluster :=
  if confd_p
  then mkCluster (consul_servers cl ++ [a]) (consul_clients cl) (cl_m0_clients cl) (m0_client_types cl)
  else mkCluster (consul_servers cl) (consul_clients cl ++ [a]) (cl_m0_clients cl) (m0_client_types cl).

Definition add_client (proc_id svc_id : Oid) (name : string) (cl : Cluster) : Cluster :=
  mkCluster (consul_servers cl) (consul_clients cl) (od_set proc_id svc_id (cl_m0_clients cl))
    (if bool_decide (name ∈ m0_client_types cl) then m0_client_types cl
     else m0_client_types cl ++ [name]).

(** The loop that builds the controllers of a node: [ctrl_ids] and [io_ctrls]. *)
Definition build_ctrls (encl_id : Oid) (servers : list Server)
    : M Gen (list (option Oid * Server)) :=
  map_m (fun m0d =>
    match sv_io_disks m0d with
    | [] => mret (None, m0d)
    | _ => ctrl_oid ← ConfController_build encl_id; mret (Some ctrl_oid, m0d)
    end) servers.

Definition io_ctrls_of (l : list (option Oid * Server)) : list (Oid * Server) :=
  omap (fun '(o, d) => (fun c => (c, d)) <$> o) l.

(** One instance of a client. *)
Definition build_client (node_id : Oid) (ps : Portals) (node : Node) (name : string)
    (cl : Cluster) : M Gen Cluster :=
  proc_id ← ConfProcess_build node_id ps node p_m0_client_other None None (Some name);
  svc_id ← new_oid o_service;
  mret (add_client proc_id svc_id name cl).

Definition build_server (node_id : Oid) (ps : Portals) (node : Node)
    (cd : option Oid * Server) : M Gen unit :=
  ConfProcess_build node_id ps node p_m0_server (Some cd.2) cd.1
    (Some (if sv_runs_confd cd.2 then "confd" else "ios")) ;;
  mret tt.

(** The body of the loop over the nodes. *)
Definition build_node (root_id rack_id : Oid) (acc : Cluster * list (Oid * Server)) (node : Node)
    : M Gen (Cluster * list (Oid * Server)) :=
  node_id ← ConfNode_build root_id node;
  encl_id ← ConfEnclosure_build rack_id node_id;
  ctrl_ids ← build_ctrls encl_id (default [] (m0_servers node));
  let ports := network_ports node in
  other1 ← get_lnet_portal_group (pt_m0_client_other ports);
  other2 ← get_libfab_portal_group other1;
  let ps := mkPortals (pt_hax ports) (pt_m0_server ports) [pt_m0_client_s3 ports] other2 in
  ConfProcess_build node_id ps node p_hax None None None ;;
  for_each ctrl_ids (build_server node_id ps node) ;;
  let confd_p := existsb (fun cd : option Oid * Server => sv_runs_confd cd.2) ctrl_ids in
  let cl := add_agent confd_p (mkAgent (hostname node) (ft_ipaddr (facts node))) acc.1 in
  cl' ← fold_m (fun cl client =>
          fold_m (fun cl _ => build_client node_id ps node (mc_name client) cl) cl
            (seqZ 0 (mc_instances client)))
          cl (default [] (m0_clients node));
  mret (cl', acc.2 ++ io_ctrls_of ctrl_ids).

(** The disks listed for auxiliary pools of a pool without references. *)
Definition described_disks (nodes : list Node) : list DiskRef :=
  nodes ≫= (fun node =>
    default [] (m0_servers node) ≫= (fun m0d =>
      if sv_runs_confd m0d then []
      else (fun d => mkDiskRef (RDisk d) (Given (hostname node))) <$> sv_data m0d)).

Definition no_diskrefs (p : PoolDesc) : bool :=
  match get_pool_diskrefs p with None | Some [] => true | _ => false end.

(** The pools when auxiliary pools are asked for. *)
Definition build_pools_aux (root_id : Oid) (desc : ClusterDesc Node) : M Gen unit :=
  for_each (cd_pools desc) (fun pool =>
    pool_t ← lift (pool_type pool);
    if decide (pool_t = pool_sns) then
      aux_pool_list pool (if no_diskrefs pool then described_disks (cd_nodes desc) else [])
    else ConfPool_build root_id pool desc ;; mret tt) ;;
  aux ← gets (fun g => concat (snd <$> aux_pools g));
  for_each (cd_pools desc ++ aux) (fun pool =>
    pool_t ← lift (pool_type pool);
    if decide (pool_t = pool_sns) then ConfPool_build root_id pool desc ;; mret tt else mret tt).

Definition build_pools (root_id : Oid) (desc : ClusterDesc Node) : M Gen unit :=
  if cd_create_aux desc then build_pools_aux root_id desc
  else for_each (cd_pools desc) (fun pool => ConfPool_build root_id pool desc ;; mret tt).

(** [{'type': t}] *)
Definition default_pool (t : PoolT) : PoolDesc := mkPoolDesc None (Given t) Absent None None Absent None.

Definition root_of (root_id : Oid) : M Gen CRoot :=
  c ← gets m0conf; lift (conf_as as_root c root_id).

Definition build_default_pools (root_id : Oid) (desc : ClusterDesc Node) : M Gen unit :=
  r ← root_of root_id;
  match r_imeta_pver r with
  | None => ConfPool_build root_id (default_pool pool_dix) desc ;; mret tt
  | Some _ => mret tt
  end ;;
  r ← root_of root_id;
  match r_mdpool r with
  | None => ConfPool_build root_id (default_pool pool_md) desc ;; mret tt
  | Some _ => mret tt
  end.

(** The pools of a profile with the auxiliary pools of each. *)
Definition profile_with_aux (aux : list (string * list PoolDesc)) (prof : ProfileDesc) : ProfileDesc :=
  mkProfileDesc (pf_name prof)
    (pf_pools prof ++
       (pf_pools prof ≫= (fun pool_name => omap pl_name (default [] (od_get pool_name aux))))).

Definition build_profiles (root_id : Oid) (desc : ClusterDesc Node) : M Gen unit :=
  profs ← lift (match cd_profiles desc with
                | Given l => Ret l | Null => Raise TypeError | Absent => Raise (KeyError "profiles")
                end);
  for_each profs (fun prof =>
    aux ← gets aux_pools;
    ConfProfile_build root_id (if cd_create_aux desc then profile_with_aux aux prof else prof) ;;
    mret tt).

(** Everything before [validate_m0conf]. *)
Definition build_conf (desc : ClusterDesc Node) : M Gen Cluster :=
  root_id ← ConfRoot_build;
  site_id ← ConfSite_build root_id;
  rack_id ← ConfRack_build site_id;
  '(cluster, io_ctrls) ← fold_m (build_node root_id rack_id) (mkCluster [] [] [] [], []) (cd_nodes desc);
  build_cas_devs io_ctrls ;;
  c ← gets m0conf;
  lift (check_drive_multiple_references c desc) ;;
  build_pools root_id desc ;;
  build_default_pools root_id desc ;;
  c ← gets m0conf;
  encls ← lift (cluster_encls c M0_CST_IOS);
  conf_upd root_id (set_mdredundancy (Z.of_nat (length encls))) ;;
  build_profiles root_id desc ;;
  for_each (default [] (cd_fdmi_filters desc)) (fun f =>
    ConfFdmiFltGrp_build root_id f [] ;; mret tt) ;;
  mret cluster.

(** [re.search] finds no double quote, comma, equals sign, space or at sign. *)
Definition name_ok (s : string) : bool :=
  forallb (fun c => negb (existsb (Ascii.eqb c) [quote; ","; "="; " "; "@"]%char)) (chars s).

Definition check_agents (cl : Cluster) : outcome unit :=
  check (match consul_servers cl with [] => false | _ => true end) ;;
  let agents := consul_servers cl ++ consul_clients cl in
  check (all_unique (node_name <$> agents)) ;;
  check (forallb name_ok (node_name <$> agents)) ;;
  check (all_unique (ipaddr <$> agents)).

Definition build_cluster (desc : ClusterDesc Node) : M Gen Cluster :=
  cluster ← build_conf desc;
  c ← gets m0conf;
  lift (validate_m0conf c) ;;
  lift (check_agents cluster) ;;
  mret cluster.
End Cluster.
