(* ===== verification/CfgenDemo.v ===== *)
(** * An example cluster for the generator ([src/cfgen/cfgen])

    Three nodes, each with a confd, an I/O service over two disks and two
    instances of a client; one SNS pool over all disks by reference.  The witnesses
    of the theorems about the generator evaluate it. *)

From S2P Require Import Prelude PyStr Json HaxTypes OrdDict CfgenTypes CfgenBuild.
From S2P Require Import CfgenPools CfgenCluster.

Definition demo_ports : NodePorts :=
  mkNodePorts 22001 None [mkPort "confd" (PEnum m0_confd); mkPort "ios" (PEnum m0_ios)] 22501
    SharedDefault.

Definition demo_disk (s : string) : Disk := mkDisk (Some s) (Some 1000) (Some 4096).
Definition demo_iodisk (s : string) : IODisk := mkIODisk (Given s) (Given 1000) (Given 4096).

Definition demo_io_server : Server :=
  mkServer false (Some "/dev/sdm") (demo_iodisk <$> ["/dev/sda"; "/dev/sdb"]) []
    (demo_disk <$> ["/dev/sda"; "/dev/sdb"]) [].

Definition demo_node (name ip : string) : Node :=
  mkNode name (Some ("id-" +:+ name)) (Given np_tcp) "libfab" (mkFacts (Some 4) 8192 (Some ip))
    (Some [mkServer true None [] [] [] []; demo_io_server])
    (Some [mkM0Client "rgw_s3" 2]) demo_ports.

Definition demo_refs : list DiskRef :=
  ["n1"; "n2"; "n3"] ≫= (fun n =>
    (fun d => mkDiskRef (RText d) (Given n)) <$> ["/dev/sda"; "/dev/sdb"]).

Definition demo_pool : PoolDesc :=
  mkPoolDesc (Some "p0") Absent (Given demo_refs) (Some 2) (Some 1) (Given 0) None.

Definition demo_desc (aux formulaic : bool) : ClusterDesc Node :=
  mkClusterDesc [demo_node "n1" "10.0.0.1"; demo_node "n2" "10.0.0.2"; demo_node "n3" "10.0.0.3"]
    [demo_pool] (Given [mkProfileDesc "default" ["p0"]]) None aux formulaic.
