(* ===== verification/CfgenInv.v ===== *)
(** * Well-formedness of [m0conf] ([src/cfgen/cfgen])

    [wf c f]: in the configuration [c] with the counters [f], keys are distinct
    and below the counters, classes fit the types of the keys, every identifier
    an object mentions is a key of the right type, and no object is the child of
    two parents.  The two primitive changes, a new object and a new link,
    preserve it; [ext] is what every [build] does to the state. *)

From stdpp Require Import list_numbers.
From S2P Require Import Prelude PyStr Json HaxTypes OrdDict CfgenTypes CfgenBuild.
From S2P Require Import CfgenPools CfgenCluster.

(** ** What an object mentions *)
Definition opt_list {A} (o : option A) : list A := match o with Some a => [a] | None => [] end.

(** Its children, over all downlinks *)
Definition links_of (x : Obj) : list Oid := concat (snd <$> obj_downlinks x).

(** Everything else *)
Definition other_refs (x : Obj) : list Oid :=
  match x with
  | ConfRoot r => opt_list (r_mdpool r) ++ opt_list (r_imeta_pver r)
  | ConfService s => opt_list (s_ctrl_id s)
  | ConfSite s => st_pvers s
  | ConfRack r => rk_parent r :: rk_pvers r
  | ConfEnclosure e => e_node e :: e_parent e :: e_pvers e
  | ConfController c => c_parent c :: c_pvers c
  | ConfDrive d => dv_sdev d :: dv_parent d :: dv_pvers d
  | ConfPverF p => [pf_base p]
  | ConfObjv v => [ov_real v]
  | ConfProfile p => pr_pools p
  | ConfFdmiFltGrp g => fg_filters g
  | ConfFdmiFilter f => fl_node f :: opt_list (fl_dix_pver f)
  | ConfNode _ | ConfProcess _ | ConfSdev _ | ConfPool _ | ConfPver _ => []
  end.

(** The types of the mentioned identifiers *)
Definition links_typed (x : Obj) : bool :=
  forallb (fun rl : Downlink * list Oid => forallb (child_ok (dl_children_t rl.1)) rl.2)
    (obj_downlinks x).

Definition refs_typed (x : Obj) : bool :=
  match x with
  | ConfRoot r => all_t o_pool (opt_list (r_mdpool r)) && all_t o_pver (opt_list (r_imeta_pver r))
  | ConfService s => all_t o_controller (opt_list (s_ctrl_id s))
  | ConfSite s => all_t o_pver (st_pvers s)
  | ConfRack r => is_t o_site (rk_parent r) && all_t o_pver (rk_pvers r)
  | ConfEnclosure e => is_t o_node (e_node e) && is_t o_rack (e_parent e) && all_t o_pver (e_pvers e)
  | ConfController c => is_t o_enclosure (c_parent c) && all_t o_pver (c_pvers c)
  | ConfDrive d => is_t o_sdev (dv_sdev d) && is_t o_controller (dv_parent d) && all_t o_pver (dv_pvers d)
  | ConfPverF p => is_t o_pver (pf_base p)
  | ConfObjv v => bool_decide (o_type (ov_real v) ∈ pver_levels)
  | ConfProfile p => all_t o_pool (pr_pools p)
  | ConfFdmiFltGrp g => all_t o_fdmi_filter (fg_filters g)
  | _ => true
  end.

Definition all_links (c : Conf) : list Oid := concat ((fun ox => links_of ox.2) <$> c).

(** ** The invariant *)
Record wf (c : Conf) (f : ObjT -> Z) : Prop := mkWf {
  wf_keys : NoDup (od_keys c);
  wf_count : forall t, 0 <= f t;
  wf_alloc : forall o, o ∈ od_keys c ->
    exists i, 0 <= i < f (o_type o) /\ o_fidk o = allocate_base_fidkey (o_type o) i;
  wf_class : forall o x, od_get o c = Some x -> o_type o = obj_objt x;
  wf_links_typed : forall o x, od_get o c = Some x -> links_typed x = true;
  wf_refs_typed : forall o x, od_get o c = Some x -> refs_typed x = true;
  wf_refs : forall o x r, od_get o c = Some x -> r ∈ links_of x ++ other_refs x -> r ∈ od_keys c;
  wf_unique : NoDup (all_links c) }.

(** The part of a key that identifies a process or a service has 32 bits. *)
Definition bounded (f : ObjT -> Z) : Prop := f o_process <= 2 ^ 32 /\ f o_service <= 2 ^ 32.

Definition has (g : Gen) (t : ObjT) (o : Oid) : Prop := o ∈ od_keys (m0conf g) /\ o_type o = t.

(** Types of which there is at most one object: a filter is never built. *)
Definition single (t : ObjT) : bool :=
  match t with o_root | o_rack | o_fdmi_filter => true | _ => false end.

(** What a root refers to besides its children stays. *)
Definition keeps_roots (c c' : Conf) : Prop := forall o x,
  od_get o c = Some x -> obj_objt x = o_root ->
  exists y, od_get o c' = Some y /\ obj_objt y = o_root /\ forall r, r ∈ other_refs x -> r ∈ other_refs y.

Record ext (g g' : Gen) : Prop := mkExt {
  ext_count : forall t, ObjT_last_fidk g t <= ObjT_last_fidk g' t;
  ext_single : forall t, single t = true -> ObjT_last_fidk g' t = ObjT_last_fidk g t;
  ext_keys : forall o, o ∈ od_keys (m0conf g) -> o ∈ od_keys (m0conf g');
  ext_wf : bounded (ObjT_last_fidk g') -> wf (m0conf g) (ObjT_last_fidk g) ->
           wf (m0conf g') (ObjT_last_fidk g');
  ext_roots : bounded (ObjT_last_fidk g') -> wf (m0conf g) (ObjT_last_fidk g) ->
              keeps_roots (m0conf g) (m0conf g') }.

Lemma keeps_roots_refl c : keeps_roots c c.
Proof. intros o x Hx Ht. by exists x. Qed.

Lemma keeps_roots_trans c1 c2 c3 : keeps_roots c1 c2 -> keeps_roots c2 c3 -> keeps_roots c1 c3.
Proof.
  intros H1 H2 o x Hx Ht. destruct (H1 o x Hx Ht) as (y & Hy & Hty & Hr).
  destruct (H2 o y Hy Hty) as (z & Hz & Htz & Hr'). exists z. eauto.
Qed.

(** A change of one object *)
Lemma keeps_roots_set c o x y :
  od_get o c = Some x -> (obj_objt x = o_root -> obj_objt y = o_root /\ forall r, r ∈ other_refs x -> r ∈ other_refs y) ->
  keeps_roots c (od_set o y c).
Proof.
  intros Hx Hy k z Hz Ht. destruct (decide (k = o)) as [-> | Hne].
  - rewrite Hx in Hz. injection Hz as <-. exists y. rewrite od_get_set_eq. naive_solver.
  - exists z. by rewrite od_get_set_ne.
Qed.

(** ** Keys *)
Definition masked (t : ObjT) : bool := match t with o_process | o_service => true | _ => false end.

Lemma base_fidkey_plain t i : masked t = false -> allocate_base_fidkey t i = i.
Proof. by destruct t. Qed.

Lemma base_fidkey_masked t i : masked t = true -> allocate_base_fidkey t i = i mod 2 ^ 32.
Proof.
  intros Ht. assert (E : allocate_base_fidkey t i = Z.land (Z.lxor DW_F QW_F * i + i) (Z.ones 32))
    by (by destruct t). rewrite E, Z.land_ones by lia.
  change (Z.lxor DW_F QW_F) with ((2 ^ 32 - 1) * 2 ^ 32).
  replace ((2 ^ 32 - 1) * 2 ^ 32 * i + i) with (i + ((2 ^ 32 - 1) * i) * 2 ^ 32) by ring.
  apply Z.mod_add. done.
Qed.

Lemma base_fidkey_id f t i : bounded f -> 0 <= i < f t -> allocate_base_fidkey t i = i.
Proof.
  intros [Hp Hs] Hi. destruct (masked t) eqn:E; [| by apply base_fidkey_plain].
  rewrite base_fidkey_masked by done. apply Z.mod_small. destruct t; try discriminate; lia.
Qed.

Lemma bump_eq t f : bump t f t = f t + 1.
Proof. unfold bump. by case_decide. Qed.
Lemma bump_ne t t' f : t' <> t -> bump t f t' = f t'.
Proof. unfold bump. by case_decide. Qed.
Lemma bump_le t t' f : f t' <= bump t f t'.
Proof. unfold bump. case_decide; lia. Qed.

Lemma bounded_mono f f' : (forall t, f t <= f' t) -> bounded f' -> bounded f.
Proof. intros H [Hp Hs]. pose proof (H o_process). pose proof (H o_service). split; lia. Qed.

(** An identifier that was just allocated is not a key yet. *)
Lemma fresh_oid c f t :
  wf c f -> bounded (bump t f) -> mkOid t (allocate_base_fidkey t (f t)) ∉ od_keys c.
Proof.
  intros Hwf Hb Hin. destruct (wf_alloc _ _ Hwf _ Hin) as (i & Hi & E). cbn in *.
  pose proof (wf_count _ _ Hwf t). pose proof (bump_eq t f).
  rewrite !(base_fidkey_id (bump t f)) in E by (done || lia). lia.
Qed.

(** ** Links *)
Lemma all_links_app c1 c2 : all_links (c1 ++ c2) = all_links c1 ++ all_links c2.
Proof. unfold all_links. by rewrite fmap_app, concat_app. Qed.

Lemma all_links_elem c o : o ∈ all_links c <-> exists ox, ox ∈ c /\ o ∈ links_of ox.2.
Proof.
  unfold all_links. rewrite list_elem_of_In, in_concat. split.
  - intros (l & Hl & Ho). apply list_elem_of_In in Hl as (ox & -> & Hox)%list_elem_of_fmap.
    exists ox. split; [done | by apply list_elem_of_In].
  - intros (ox & Hox & Ho). exists (links_of ox.2). rewrite <- !list_elem_of_In. split; [| done].
    apply list_elem_of_fmap. eauto.
Qed.

Lemma wf_link_key c f o : wf c f -> o ∈ all_links c -> o ∈ od_keys c.
Proof.
  intros Hwf ([k x] & Hin & Ho)%all_links_elem. cbn in Ho.
  apply (wf_refs _ _ Hwf k x); [by apply od_elem_get, Hin; apply (wf_keys _ _ Hwf) |].
  by apply elem_of_app; left.
Qed.

Lemma od_get_in {K V} `{EqDecision K} (k : K) (v : V) d : od_get k d = Some v -> k ∈ od_keys d.
Proof. intros E. apply od_get_key. by rewrite E. Qed.
#[export] Hint Resolve od_get_in : hare.

(** A lookup after [m0conf[o] = x]. *)
Lemma od_get_set_inv {K V} `{EqDecision K} (k k' : K) (v v' : V) d :
  od_get k' (od_set k v d) = Some v' -> (k' = k /\ v' = v) \/ (k' <> k /\ od_get k' d = Some v').
Proof.
  destruct (decide (k' = k)) as [-> | Hne].
  - rewrite od_get_set_eq. intros [= ->]. by left.
  - rewrite od_get_set_ne by done. by right.
Qed.

(** A new object, not linked yet. *)
Lemma wf_insert c f t x :
  wf c f -> bounded (bump t f) ->
  obj_objt x = t -> links_of x = [] -> links_typed x = true -> refs_typed x = true ->
  (forall r, r ∈ other_refs x -> r ∈ od_keys c) ->
  wf (od_set (mkOid t (allocate_base_fidkey t (f t))) x c) (bump t f).
Proof.
  intros Hwf Hb Ht Hl Hlt Hrt Hr. set (o := mkOid t _).
  pose proof (fresh_oid c f t Hwf Hb) as Hnew. fold o in Hnew.
  assert (Hk : forall k, k ∈ od_keys c -> k ∈ od_keys (od_set o x c))
    by (intros k Hk; apply od_keys_set_elem; by right).
  pose proof (wf_count _ _ Hwf) as Hc.
  split.
  - apply od_keys_set_NoDup, (wf_keys _ _ Hwf).
  - intros t'. pose proof (bump_le t t' f). specialize (Hc t'). lia.
  - intros o' [-> | Ho']%od_keys_set_elem.
    + exists (f t). cbn. rewrite bump_eq. specialize (Hc t). split; [lia | done].
    + destruct (wf_alloc _ _ Hwf o' Ho') as (i & Hi & E). exists i.
      pose proof (bump_le t (o_type o') f). split; [lia | done].
  - intros o' x' [[-> ->] | [_ E]]%od_get_set_inv; [done | by apply (wf_class _ _ Hwf)].
  - intros o' x' [[-> ->] | [_ E]]%od_get_set_inv; [done | by apply (wf_links_typed _ _ Hwf o')].
  - intros o' x' [[-> ->] | [_ E]]%od_get_set_inv; [done | by apply (wf_refs_typed _ _ Hwf o')].
  - intros o' x' r [[-> ->] | [_ E]]%od_get_set_inv Hin.
    + rewrite Hl in Hin. by apply Hk, Hr.
    + by apply Hk, (wf_refs _ _ Hwf o' x').
  - rewrite od_set_fresh by done. rewrite all_links_app. unfold all_links at 2. cbn.
    rewrite Hl. cbn. rewrite app_nil_r. apply (wf_unique _ _ Hwf).
Qed.

(** A change of an object in place that adds the links [new]. *)
Lemma wf_update c f p x y new :
  wf c f -> od_get p c = Some x ->
  obj_objt y = obj_objt x -> links_of y ≡ₚ new ++ links_of x ->
  links_typed y = true -> refs_typed y = true ->
  (forall r, r ∈ other_refs y -> r ∈ od_keys c) ->
  NoDup new -> (forall r, r ∈ new -> r ∈ od_keys c /\ r ∉ all_links c) ->
  wf (od_set p y c) f.
Proof.
  intros Hwf Hp Ht Hl Hlt Hrt Hr Hnd Hnew.
  pose proof (od_keys_set_old p y c (od_get_in _ _ _ Hp)) as Hk.
  assert (Hlinks : all_links (od_set p y c) ≡ₚ new ++ all_links c).
  { destruct (od_set_split p y x c Hp) as (d1 & d2 & -> & ->).
    rewrite !all_links_app. unfold all_links at 2 4. cbn. rewrite Hl.
    fold (all_links d2). solve_Permutation. }
  split.
  - rewrite Hk. apply (wf_keys _ _ Hwf).
  - apply (wf_count _ _ Hwf).
  - rewrite Hk. apply (wf_alloc _ _ Hwf).
  - intros o' x' [[-> ->] | [_ E]]%od_get_set_inv; [| by apply (wf_class _ _ Hwf)].
    rewrite Ht. by apply (wf_class _ _ Hwf).
  - intros o' x' [[-> ->] | [_ E]]%od_get_set_inv; [done | by apply (wf_links_typed _ _ Hwf o')].
  - intros o' x' [[-> ->] | [_ E]]%od_get_set_inv; [done | by apply (wf_refs_typed _ _ Hwf o')].
  - intros o' x' r [[-> ->] | [_ E]]%od_get_set_inv Hin; rewrite Hk.
    + apply elem_of_app in Hin as [Hin | Hin]; [| by apply Hr]. rewrite Hl in Hin.
      apply elem_of_app in Hin as [Hin | Hin]; [by apply Hnew|].
      apply (wf_refs _ _ Hwf p x r Hp), elem_of_app. by left.
    + by apply (wf_refs _ _ Hwf o' x').
  - rewrite Hlinks. apply NoDup_app. split; [done|]. split; [| apply (wf_unique _ _ Hwf)].
    intros r Hin. by apply Hnew.
Qed.
