(* ===== verification/CfgenWf.v ===== *)
(** * Every [build] keeps [m0conf] well-formed ([src/cfgen/cfgen])

    [ext g g'] for a successful run of each class method from [ConfNode.build] to
    [ConfDrive.build], for whole processes and for the metadata devices. *)

From stdpp Require Import list_numbers.
From S2P Require Import Prelude PyStr Json HaxTypes OrdDict CfgenTypes CfgenBuild.
From S2P Require Import CfgenPools CfgenCluster CfgenInv.

(** ** Inversion of runs *)
Lemma assert_inv {W} b (w : W) a w' : assert b w = (Ret a, w') -> b = true /\ w' = w.
Proof. unfold assert. destruct b; [by intros [= _ <-] | by intros [=]]. Qed.

Lemma lift_Ret_inv {W A} (o : outcome A) (w : W) a w' : lift o w = (Ret a, w') -> o = Ret a /\ w' = w.
Proof. unfold lift. by intros [= -> <-]. Qed.

Lemma gets_inv {W A} (f : W -> A) w a w' : gets f w = (Ret a, w') -> a = f w /\ w' = w.
Proof. unfold gets. by intros [= -> <-]. Qed.

Lemma modify_inv {W} (f : W -> W) w a w' : modify f w = (Ret a, w') -> w' = f w.
Proof. unfold modify. by intros [= _ <-]. Qed.

Lemma mret_inv {W A} (a : A) (w : W) b w' : (mret a : M W A) w = (Ret b, w') -> b = a /\ w' = w.
Proof. by intros [= <- <-]. Qed.

Lemma conf_get_inv c o x : conf_get c o = Ret x -> od_get o c = Some x.
Proof. unfold conf_get, dict_get. by destruct (od_get o c); intros [= ->]. Qed.

Lemma conf_upd_inv o f g a g' :
  conf_upd o f g = (Ret a, g') ->
  exists x y, od_get o (m0conf g) = Some x /\ f x = Ret y /\
    g' = with_conf (od_set o y (m0conf g)) g.
Proof.
  unfold conf_upd. intros H. inv_run H. inv_run H. inv_run H.
  apply gets_inv in H0 as [-> ->]. apply lift_Ret_inv in H1 as [E1 ->]. apply lift_Ret_inv in H2 as [E2 ->].
  apply conf_get_inv in E1. apply modify_inv in H. by eauto.
Qed.

Lemma conf_upd_run o f g x y :
  od_get o (m0conf g) = Some x -> f x = Ret y ->
  conf_upd o f g = (Ret tt, with_conf (od_set o y (m0conf g)) g).
Proof.
  intros E1 E2. unfold conf_upd, conf_get, mbind, M_bind, gets, lift, conf_put, modify.
  rewrite E1. cbn. by rewrite E2.
Qed.

Lemma bind_o_inv {A B} (o : outcome A) (k : A -> outcome B) b :
  (o ≫= k) = Ret b -> exists a, o = Ret a /\ k a = Ret b.
Proof. destruct o; cbn; [eauto | done | done]. Qed.

Lemma check_inv b a : check b = Ret a -> b = true.
Proof. by destruct b. Qed.

Lemma new_oid_inv t g o g' :
  new_oid t g = (Ret o, g') ->
  o = mkOid t (allocate_base_fidkey t (ObjT_last_fidk g t)) /\
  g' = with_fidk (bump t (ObjT_last_fidk g)) g.
Proof. unfold new_oid, next_fidk. by intros [= <- <-]. Qed.

(** [crunch] splits all runs of the context into their parts. *)
Ltac crunch1 :=
  match goal with
  | H : (_ ≫= _) _ = (Ret _, _) |- _ =>
      let H1 := fresh H in apply bind_Ret in H as (? & ? & H1 & H)
  | H : (_ ≫= _) = Ret _ |- _ =>
      let H1 := fresh H in apply bind_o_inv in H as (? & H1 & H)
  | H : assert _ _ = (Ret _, _) |- _ => apply assert_inv in H as [H ->]
  | H : lift _ _ = (Ret _, _) |- _ => apply lift_Ret_inv in H as [H ->]
  | H : gets _ _ = (Ret _, _) |- _ => apply gets_inv in H as [-> ->]
  | H : modify _ _ = (Ret _, _) |- _ => apply modify_inv in H as ->
  | H : conf_put _ _ _ = (Ret _, _) |- _ => apply modify_inv in H as ->
  | H : mret _ _ = (Ret _, _) |- _ => apply mret_inv in H as [-> ->]
  | H : raise _ _ = (Ret _, _) |- _ => discriminate H
  | H : Raise _ = Ret _ |- _ => discriminate H
  | H : new_oid _ _ = (Ret _, _) |- _ => apply new_oid_inv in H as [-> ->]
  | H : conf_upd _ _ _ = (Ret _, _) |- _ => apply conf_upd_inv in H as (? & ? & ? & ? & ->)
  | H : check _ = Ret _ |- _ => apply check_inv in H
  | H : conf_get _ _ = Ret _ |- _ => apply conf_get_inv in H
  | H : mret ?a = Ret ?b |- _ => change (Ret a = Ret b) in H
  | H : Ret _ = Ret _ |- _ => injection H as H; subst
  end.
Ltac proj :=
  cbn [m0conf ObjT_last_fidk dev_idx cuid ep_map tmids pg_other aux_pools with_conf with_fidk
       with_dev_idx with_cuid with_ep_map with_tmids with_pg_other with_aux_pools] in *.
Ltac crunch := repeat crunch1; proj.

(** ** [ext] *)
Lemma ext_refl g : ext g g.
Proof. split; auto using keeps_roots_refl. intros t. lia. Qed.

Lemma ext_trans g1 g2 g3 : ext g1 g2 -> ext g2 g3 -> ext g1 g3.
Proof.
  intros [C1 R1 K1 W1 S1] [C2 R2 K2 W2 S2]. split; auto.
  - intros t. specialize (C1 t). specialize (C2 t). lia.
  - intros t Ht. rewrite R2, R1; done.
  - intros Hb Hw. apply W2; [done|]. apply W1; [| done]. by eapply bounded_mono.
  - intros Hb Hw. assert (Hb2 : bounded (ObjT_last_fidk g2)) by (by eapply bounded_mono).
    eapply keeps_roots_trans; [by apply S1 | by apply S2, W1].
Qed.

Lemma has_ext g g' t o : ext g g' -> has g t o -> has g' t o.
Proof. intros [_ _ K _ _] [H1 H2]. split; auto. Qed.

(** The state outside of the configuration and the counters does not matter. *)
Lemma ext_same g g' :
  m0conf g' = m0conf g -> ObjT_last_fidk g' = ObjT_last_fidk g -> ext g g'.
Proof. intros E1 E2. split; rewrite ?E1, ?E2; auto using keeps_roots_refl. intros t. lia. Qed.

#[export] Hint Resolve ext_refl has_ext : hare.

(** An identifier that is allocated and not used. *)
Lemma ext_alloc g t : single t = false -> ext g (with_fidk (bump t (ObjT_last_fidk g)) g).
Proof.
  intros Ht. split; cbn; auto using keeps_roots_refl.
  - intros t'. apply bump_le.
  - intros t' Ht'. rewrite bump_ne; [done | congruence].
  - intros Hb Hwf. destruct Hwf as [W1 W2 W3 W4 W5 W6 W7 W8]. split; auto.
    + intros t'. pose proof (bump_le t t' (ObjT_last_fidk g)). specialize (W2 t'). lia.
    + intros o Ho. destruct (W3 o Ho) as (i & Hi & E). exists i.
      pose proof (bump_le t (o_type o) (ObjT_last_fidk g)). split; [lia | done].
Qed.

(** [y] is [x] with the child [o] appended to one of its downlinks. *)
Record adds (t : ObjT) (o : Oid) (x y : Obj) : Prop := mkAdds {
  adds_objt : obj_objt y = obj_objt x;
  adds_links : links_of y ≡ₚ [o] ++ links_of x;
  adds_links_typed : o_type o = t -> links_typed x = true -> links_typed y = true;
  adds_refs_typed : refs_typed y = refs_typed x;
  adds_refs : other_refs y = other_refs x }.

(** The object of a fresh identifier. *)
Record newborn (g : Gen) (t : ObjT) (x : Obj) : Prop := mkNewborn {
  nb_objt : obj_objt x = t;
  nb_links : links_of x = [];
  nb_links_typed : links_typed x = true;
  nb_refs_typed : refs_typed x = true;
  nb_refs : forall r, r ∈ other_refs x -> r ∈ od_keys (m0conf g) }.

(** A new object, as every [build] that links it to its parent leaves it. *)
Lemma child_wf g g' t x p px y :
  o_type p <> t ->
  let o := mkOid t (allocate_base_fidkey t (ObjT_last_fidk g t)) in
  od_get p (od_set o x (m0conf g)) = Some px ->
  (p ∈ od_keys (m0conf g) -> wf (m0conf g) (ObjT_last_fidk g) -> newborn g t x) ->
  (wf (m0conf g) (ObjT_last_fidk g) -> adds t o px y) ->
  m0conf g' = od_set p y (od_set o x (m0conf g)) ->
  ObjT_last_fidk g' = bump t (ObjT_last_fidk g) ->
  bounded (ObjT_last_fidk g') -> wf (m0conf g) (ObjT_last_fidk g) -> wf (m0conf g') (ObjT_last_fidk g').
Proof.
  intros Htp o Hp Hx Hy Ec Ef. assert (Hpo : p <> o) by (by intros ->).
  assert (Hpk : od_get p (m0conf g) = Some px) by (by rewrite od_get_set_ne in Hp).
  specialize (Hx (od_get_in _ _ _ Hpk)).
  rewrite Ec, Ef. intros Hb Hwf. specialize (Hy Hwf). destruct (Hx Hwf) as [X1 X2 X3 X4 X5].
  pose proof (wf_insert _ _ t x Hwf Hb X1 X2 X3 X4 X5) as W1. fold o in W1.
  pose proof (fresh_oid _ _ t Hwf Hb) as Hfresh. fold o in Hfresh.
  assert (Hl : all_links (od_set o x (m0conf g)) = all_links (m0conf g)).
  { rewrite od_set_fresh by done. rewrite all_links_app. unfold all_links at 2. cbn.
    rewrite X2. cbn. by rewrite app_nil_r. }
  eapply (wf_update _ _ p px y [o] W1 Hp).
  - apply (adds_objt _ _ _ _ Hy).
  - apply (adds_links _ _ _ _ Hy).
  - apply (adds_links_typed _ _ _ _ Hy); [done | by apply (wf_links_typed _ _ Hwf p)].
  - rewrite (adds_refs_typed _ _ _ _ Hy). by apply (wf_refs_typed _ _ Hwf p).
  - rewrite (adds_refs _ _ _ _ Hy). intros r Hr. apply (wf_refs _ _ W1 p px r Hp).
    apply elem_of_app. by right.
  - apply NoDup_singleton.
  - intros r ->%list_elem_of_singleton. split; [by apply od_keys_set_elem; left|].
    rewrite Hl. intros Hin. by apply Hfresh, (wf_link_key _ (ObjT_last_fidk g)).
Qed.

Lemma ext_child g g' t x p px y :
  single t = false -> o_type p <> t ->
  let o := mkOid t (allocate_base_fidkey t (ObjT_last_fidk g t)) in
  od_get p (od_set o x (m0conf g)) = Some px ->
  (p ∈ od_keys (m0conf g) -> wf (m0conf g) (ObjT_last_fidk g) -> newborn g t x) ->
  (wf (m0conf g) (ObjT_last_fidk g) -> adds t o px y) ->
  m0conf g' = od_set p y (od_set o x (m0conf g)) ->
  ObjT_last_fidk g' = bump t (ObjT_last_fidk g) ->
  ext g g' /\ has g' t o.
Proof.
  intros Ht Htp o Hp Hx Hy Ec Ef.
  assert (Hk : forall k, k = o \/ k ∈ od_keys (m0conf g) -> k ∈ od_keys (m0conf g')).
  { intros k Hk. rewrite Ec. apply od_keys_set_elem. right. by apply od_keys_set_elem. }
  split; [split | split; [by apply Hk; left | done]].
  - intros t'. rewrite Ef. apply bump_le.
  - intros t' Ht'. rewrite Ef. apply bump_ne. congruence.
  - auto.
  - by apply (child_wf g g' t x p px y).
  - intros Hb Hwf k z Hk' Hz. rewrite Ec. assert (Hko : k <> o).
    { intros ->. pose proof (wf_class _ _ Hwf _ _ Hk') as Hc. cbn in Hc. rewrite Hz in Hc. rewrite Hc in Ht. done. }
    apply (keeps_roots_set _ p px y Hp); [| by rewrite od_get_set_ne | done].
    intros Hpx. destruct (Hy Hwf) as [A1 _ _ _ A5]. rewrite A1, A5. done.
Qed.

(** A change in place that links nothing. *)
Lemma ext_touch o f g a g' :
  conf_upd o f g = (Ret a, g') ->
  (forall x y, od_get o (m0conf g) = Some x -> wf (m0conf g) (ObjT_last_fidk g) -> f x = Ret y ->
     obj_objt y = obj_objt x /\ links_of y = links_of x /\ links_typed y = links_typed x /\
     refs_typed y = true /\ (forall r, r ∈ other_refs y -> r ∈ other_refs x \/ r ∈ od_keys (m0conf g)) /\
     forall r, r ∈ other_refs x -> r ∈ other_refs y) ->
  ext g g'.
Proof.
  intros (x & y & Ho & Hf & ->)%conf_upd_inv Hxy. split; cbn; auto; [intros; lia | | |].
  - intros k Hk. apply od_keys_set_elem. by right.
  - intros Hb Hwf. destruct (Hxy x y Ho Hwf Hf) as (H1 & H2 & H3 & H4 & H5 & H6).
    apply (wf_update _ _ o x y [] Hwf Ho); try done.
    + by rewrite H2.
    + rewrite H3. by apply (wf_links_typed _ _ Hwf o).
    + intros r [Hr | Hr]%H5; [| done]. apply (wf_refs _ _ Hwf o x r Ho), elem_of_app. by right.
    + constructor.
    + by intros r ?%elem_of_nil.
  - intros Hb Hwf. destruct (Hxy x y Ho Hwf Hf) as (H1 & _ & _ & _ & _ & H6).
    apply (keeps_roots_set _ _ x); [done|]. rewrite H1. auto.
Qed.

(** ** The two sides of a link *)
Lemma child_ok_self t o : o_type o = t -> child_ok t o = true.
Proof. intros E. unfold child_ok. rewrite (proj2 (is_t_true t o) E). done. Qed.

(** [adds] for the updates of one class: the case analysis over the downlinks. *)
Ltac solve_adds :=
  match goal with
  | H : _ = Ret _ |- adds _ _ ?x _ =>
      destruct x; crunch; try discriminate; cbn in *; crunch
  end;
  match goal with H : Ret _ = Ret _ |- _ => injection H as <- | _ => idtac end;
  split; unfold links_of, links_typed; cbn;
  [ done | rewrite ?app_nil_r; solve_Permutation
  | intros Ho; pose proof (child_ok_self _ _ Ho) as Hc; cbn in Hc;
    rewrite ?forallb_app; cbn; rewrite ?Hc, ?andb_true_r; try done | done | done ].

Lemma add_node_adds o x y : add_node o x = Ret y -> adds o_node o x y.
Proof. unfold add_node, as_root. intros H. solve_adds. Qed.
Lemma add_process_adds o x y : add_process o x = Ret y -> adds o_process o x y.
Proof. unfold add_process, as_node. intros H. solve_adds. Qed.
Lemma add_service_adds o x y : add_service o x = Ret y -> adds o_service o x y.
Proof. unfold add_service, as_process. intros H. solve_adds. Qed.
Lemma add_sdev_adds o x y : add_sdev o x = Ret y -> adds o_sdev o x y.
Proof. unfold add_sdev, as_service. intros H. solve_adds. Qed.
Lemma add_encl_adds o x y : add_encl o x = Ret y -> adds o_enclosure o x y.
Proof. unfold add_encl, as_rack. intros H. solve_adds. Qed.
Lemma add_ctrl_adds o x y : add_ctrl o x = Ret y -> adds o_controller o x y.
Proof. unfold add_ctrl, as_encl. intros H. solve_adds. Qed.
Lemma add_drive_adds o x y : add_drive o x = Ret y -> adds o_drive o x y.
Proof. unfold add_drive, as_ctrl. intros H. solve_adds. Qed.
Lemma add_pool_adds o x y : add_pool o x = Ret y -> adds o_pool o x y.
Proof. unfold add_pool, as_root. intros H. solve_adds. Qed.
Lemma add_profile_adds o x y : add_profile o x = Ret y -> adds o_profile o x y.
Proof. unfold add_profile, as_root. intros H. solve_adds. Qed.
Lemma add_fdmi_flt_grp_adds o x y : add_fdmi_flt_grp o x = Ret y -> adds o_fdmi_flt_grp o x y.
Proof. unfold add_fdmi_flt_grp, as_root. intros H. solve_adds. Qed.
Lemma add_child_adds o x y : add_child o x = Ret y -> adds o_objv o x y.
Proof. unfold add_child, as_objv. intros H. solve_adds. Qed.
Lemma add_sitev_adds o x y : add_sitev o x = Ret y -> adds o_objv o x y.
Proof. unfold add_sitev, as_pver. intros H. solve_adds. Qed.

Lemma set_sites_adds o x y : set_sites o x = Ret y -> adds o_site o x y.
Proof.
  unfold set_sites, as_root. destruct x; intros H; crunch; try discriminate.
  case_match eqn:E; [| discriminate].
  split; unfold links_of, links_typed; cbn; rewrite ?E, ?app_nil_r; auto.
  - solve_Permutation.
  - intros Ho. pose proof (child_ok_self _ _ Ho) as ->. by rewrite ?andb_true_r.
Qed.

Lemma set_racks_adds o x y : set_racks o x = Ret y -> adds o_rack o x y.
Proof.
  unfold set_racks, as_site. destruct x; intros H; crunch; try discriminate.
  case_match eqn:E; [| discriminate].
  split; unfold links_of, links_typed; cbn; rewrite ?E, ?app_nil_r; auto.
  intros Ho. pose proof (child_ok_self _ _ Ho) as ->. by rewrite ?andb_true_r.
Qed.

(** ** The methods *)

(** Types of the asserted parents. *)
Lemma is_t_ne t t' o : is_t t o = true -> t <> t' -> o_type o <> t'.
Proof. intros E%is_t_true. congruence. Qed.

(** [newborn] of an object whose attributes are literals or checked arguments *)
Ltac solve_newborn :=
  split; cbn; auto;
  try match goal with |- forall r, r ∈ _ -> _ =>
    let r := fresh "r" in let Hr := fresh "Hr" in intros r Hr; cbn in Hr;
    rewrite ?elem_of_cons in Hr; destruct_or? Hr; subst; auto;
    try (by apply elem_of_nil in Hr) end;
  repeat match goal with
  | H : is_t _ _ = true |- context [is_t _ _] => rewrite H
  end; auto.

Ltac open_build adds_lemma :=
  eapply ext_child with (g' := _); only 3 : eassumption;
  [ reflexivity | eapply is_t_ne; [eassumption | discriminate]
  | intros ? ? | intros ?; eapply adds_lemma; eassumption | reflexivity | reflexivity ].

Ltac solve_build adds_lemma := open_build adds_lemma; solve_newborn.

Lemma ConfNode_build_ext parent node g o g' :
  ConfNode_build parent node g = (Ret o, g') -> ext g g' /\ has g' o_node o.
Proof. unfold ConfNode_build, ConfNode_init. intros H. crunch. solve_build add_node_adds. Qed.

Lemma ConfService_build_ext parent stype ep params ctrl g o g' :
  ConfService_build parent stype ep params ctrl g = (Ret o, g') ->
  (forall c, ctrl = Some c -> has g o_controller c) ->
  ext g g' /\ has g' o_service o.
Proof.
  unfold ConfService_build, ConfService_init. intros H Hc. crunch.
  open_build add_service_adds.
  destruct ctrl as [c |]; [destruct (Hc c eq_refl) as [Hk Ht%is_t_true] |]; solve_newborn.
Qed.

Lemma ConfSdev_build_ext parent disk g o g' :
  ConfSdev_build parent disk g = (Ret o, g') -> ext g g' /\ has g' o_sdev o.
Proof.
  unfold ConfSdev_build, next_dev_idx, ConfSdev_init. intros H. crunch. solve_build add_sdev_adds.
Qed.

Lemma ConfSite_build_ext parent g o g' :
  ConfSite_build parent g = (Ret o, g') -> ext g g' /\ has g' o_site o.
Proof. unfold ConfSite_build, ConfSite_init. intros H. crunch. solve_build set_sites_adds. Qed.

Lemma ConfEnclosure_build_ext parent node g o g' :
  ConfEnclosure_build parent node g = (Ret o, g') -> has g o_node node ->
  ext g g' /\ has g' o_enclosure o.
Proof.
  unfold ConfEnclosure_build, ConfEnclosure_init. intros H [Hn _]. crunch.
  solve_build add_encl_adds.
Qed.

Lemma ConfController_build_ext parent g o g' :
  ConfController_build parent g = (Ret o, g') -> ext g g' /\ has g' o_controller o.
Proof.
  unfold ConfController_build, ConfController_init. intros H. crunch. solve_build add_ctrl_adds.
Qed.

Lemma ConfDrive_build_ext parent sdev g o g' :
  ConfDrive_build parent sdev g = (Ret o, g') -> has g o_sdev sdev ->
  ext g g' /\ has g' o_drive o.
Proof.
  unfold ConfDrive_build, ConfDrive_init. intros H [Hs _]. crunch. solve_build add_drive_adds.
Qed.

(** ** Loops *)
Definition stable (P : Gen -> Prop) : Prop := forall g g', ext g g' -> P g -> P g'.

Lemma has_stable t o : stable (fun g => has g t o).
Proof. intros g g'. apply has_ext. Qed.
Lemma and_stable P Q : stable P -> stable Q -> stable (fun g => P g /\ Q g).
Proof. intros HP HQ g g' E [H1 H2]. split; [by eapply HP | by eapply HQ]. Qed.
Lemma forall_stable {A} (P : A -> Gen -> Prop) : (forall a, stable (P a)) -> stable (fun g => forall a, P a g).
Proof. intros HP g g' E H a. by eapply HP. Qed.
Lemma impl_stable (A : Prop) P : stable P -> stable (fun g => A -> P g).
Proof. intros HP g g' E H a. eapply HP; eauto. Qed.
Lemma const_stable (A : Prop) : stable (fun _ => A).
Proof. by intros g g' E H. Qed.
#[export] Hint Resolve has_stable and_stable forall_stable impl_stable const_stable : hare.

Lemma fold_m_ext {A S} (I : S -> Gen -> Prop) (f : S -> A -> M Gen S) l :
  (forall s, stable (I s)) ->
  (forall s x g s' g', x ∈ l -> f s x g = (Ret s', g') -> I s g -> ext g g' /\ I s' g') ->
  forall s g s' g', fold_m f s l g = (Ret s', g') -> I s g -> ext g g' /\ I s' g'.
Proof.
  intros HI. induction l as [| x l IH]; intros Hf s g s' g' H Hs; cbn in H; crunch; [by auto with hare|].
  destruct (Hf _ _ _ _ _ ltac:(left) H0 Hs) as [E1 I1].
  destruct (IH ltac:(intros; eapply Hf; [by right | done..]) _ _ _ _ H I1) as [E2 I2].
  split; [by eapply ext_trans | done].
Qed.

Lemma for_each_ext {A} (P : Gen -> Prop) (body : A -> M Gen unit) l :
  stable P ->
  (forall x g u g', x ∈ l -> body x g = (Ret u, g') -> P g -> ext g g') ->
  forall g u g', for_each l body g = (Ret u, g') -> P g -> ext g g'.
Proof.
  intros HP. induction l as [| x l IH]; intros Hb g u g' H Hg; cbn in H; crunch; [by auto with hare|].
  pose proof (Hb _ _ _ _ ltac:(left) H0 Hg) as E1.
  eapply ext_trans; [exact E1|]. eapply IH; [| exact H | by eapply HP].
  intros. eapply Hb; [by right | done..].
Qed.

Lemma map_m_ext {A B} (Q : A -> B -> Gen -> Prop) (f : A -> M Gen B) l (P : Gen -> Prop) :
  stable P -> (forall x y, stable (Q x y)) ->
  (forall x g y g', f x g = (Ret y, g') -> P g -> ext g g' /\ Q x y g') ->
  forall g ys g', map_m f l g = (Ret ys, g') -> P g ->
  ext g g' /\ Forall2 (fun x y => Q x y g') l ys.
Proof.
  intros HP HQ Hf. induction l as [| x l IH]; intros g ys g' H Hg; cbn in H; crunch.
  - split; [by auto with hare | constructor].
  - destruct (Hf _ _ _ _ H0 Hg) as [E1 Q1].
    destruct (IH _ _ _ H1 ltac:(by eapply HP)) as [E2 F2].
    split; [by eapply ext_trans|]. constructor; [by eapply HQ | done].
Qed.

(** ** Processes *)
Lemma LibfabricEndpoint_init_ext nf proto ip pg g e g' :
  LibfabricEndpoint_init nf proto ip pg g = (Ret e, g') -> ext g g'.
Proof. unfold LibfabricEndpoint_init. intros H. crunch. by apply ext_same. Qed.

Lemma LnetEndpoint_init_ext proto ip pg g e g' :
  LnetEndpoint_init proto ip pg g = (Ret e, g') -> ext g g'.
Proof. unfold LnetEndpoint_init. intros H. crunch. by apply ext_same. Qed.

Lemma process_portal_ext ps t name g p g' : process_portal ps t name g = (Ret p, g') -> g' = g.
Proof.
  unfold process_portal, read_other. intros H. destruct t; crunch; try done.
  destruct (ps_m0_client_other ps); crunch; done.
Qed.

Lemma build_service_ext proc_id ep params d ctrl stype g u g' :
  build_service proc_id ep params d ctrl stype g = (Ret u, g') ->
  (forall c, ctrl = Some c -> has g o_controller c) -> ext g g'.
Proof.
  unfold build_service. intros H Hc. crunch.
  destruct (ConfService_build_ext _ _ _ _ _ _ _ _ H0 Hc) as [E1 Hs].
  case_decide; crunch; [| done]. destruct d as [d |]; crunch.
  eapply ext_trans; [exact E1|].
  eapply (for_each_ext (fun _ => True)); [auto with hare | | exact H | done].
  intros disk g1 u1 g1' _ Hb _. destruct ctrl as [c |]; crunch.
  destruct (ConfSdev_build_ext _ _ _ _ _ Hb0) as [E2 H2].
  destruct (ConfDrive_build_ext _ _ _ _ _ Hb1 H2) as [E3 _].
  by eapply ext_trans.
Qed.

Lemma ConfProcess_build_ext parent ps node t d ctrl name g o g' :
  ConfProcess_build parent ps node t d ctrl name g = (Ret o, g') ->
  (forall c, ctrl = Some c -> has g o_controller c) ->
  ext g g' /\ has g' o_process o.
Proof.
  unfold ConfProcess_build, ConfProcess_init. intros H Hc. crunch.
  apply process_portal_ext in H3 as ->. apply LibfabricEndpoint_init_ext in H4.
  assert (x2 = g) as -> by (destruct ctrl; crunch; done).
  assert (E0 : ext g x10).
  { eapply ext_trans; [exact H4|]. destruct (String.eqb (transport_type node) "lnet"); crunch;
      [by eapply LnetEndpoint_init_ext | auto with hare]. }
  match type of H11 with for_each _ _ ?gs = _ =>
    assert (E1 : ext x10 gs /\ has gs o_process (mkOid o_process
      (allocate_base_fidkey o_process (ObjT_last_fidk x10 o_process)))) by solve_build add_process_adds;
    revert E1 H11; generalize gs; intros gm E1 H11
  end.
  destruct E1 as [E1 Hp]. pose proof (ext_trans _ _ _ E0 E1) as E2.
  assert (E3 : ext gm x22).
  { eapply (for_each_ext (fun g => forall c, ctrl = Some c -> has g o_controller c));
      [auto with hare | | exact H11 | intros c Hcc; eapply has_ext; [exact E2 | by apply Hc]].
    intros. by eapply build_service_ext. }
  split; [by eapply ext_trans | by eapply has_ext].
Qed.

(** ** Metadata devices *)
Lemma build_cas_dev_ext ctrls svc_id s g u g' :
  build_cas_dev ctrls svc_id s g = (Ret u, g') -> ext g g'.
Proof.
  unfold build_cas_dev. intros H. case_match; crunch. case_match. crunch.
  destruct (ConfSdev_build_ext _ _ _ _ _ H2) as [E1 Hs].
  destruct (ConfDrive_build_ext _ _ _ _ _ H3 Hs) as [E2 _]. by eapply ext_trans.
Qed.

Lemma for_each_ext0 {A} (body : A -> M Gen unit) l :
  (forall x g u g', body x g = (Ret u, g') -> ext g g') ->
  forall g u g', for_each l body g = (Ret u, g') -> ext g g'.
Proof.
  intros Hb g u g' H. eapply (for_each_ext (fun _ => True)); [auto with hare | | exact H | done].
  intros. by eapply Hb.
Qed.

Lemma build_cas_devs_ext ctrls g u g' : build_cas_devs ctrls g = (Ret u, g') -> ext g g'.
Proof.
  unfold build_cas_devs. intros H. crunch. revert H. apply for_each_ext0.
  intros item g1 u1 g1' H. case_match; crunch; [| auto with hare]. revert H. apply for_each_ext0.
  intros proc g2 u2 g2' H. crunch. revert H. apply for_each_ext0.
  intros svc g3 u3 g3' H. crunch. case_decide; crunch; [| auto with hare].
  by eapply build_cas_dev_ext.
Qed.
