(* ===== verification/CfgenReads.v ===== *)
(** * Reading a well-formed configuration ([src/cfgen/cfgen])

    On a well-formed configuration the selections of [cfgen] over the objects
    below an object never meet a missing key or an object of another class. *)

From stdpp Require Import list_numbers.
From S2P Require Import Prelude PyStr Json HaxTypes OrdDict CfgenTypes CfgenBuild.
From S2P Require Import CfgenPools CfgenCluster CfgenInv CfgenWf.

Lemma mapM_ok {A B} (g : A -> outcome B) l :
  (forall x, x ∈ l -> exists y, g x = Ret y) -> exists ys, mapM g l = Ret ys.
Proof.
  induction l as [| x l IH]; intros Hg; [by exists []|]. destruct (Hg x ltac:(left)) as [y Hy].
  destruct IH as [ys Hys]; [intros z Hz; apply Hg; by right|]. exists (y :: ys). cbn. by rewrite Hy, Hys.
Qed.

Lemma concat_o_ok {A B} (g : A -> outcome (list B)) l :
  (forall x, x ∈ l -> exists y, g x = Ret y) -> exists ys, concat_o g l = Ret ys.
Proof. intros Hg. destruct (mapM_ok g l Hg) as [ys E]. exists (concat ys). unfold concat_o. by rewrite E. Qed.

Lemma child_ok_type t o : t <> o_pver -> child_ok t o = true -> o_type o = t.
Proof. unfold child_ok, is_t. intros Ht. destruct t; try done; rewrite ?orb_true_iff, ?andb_true_iff, ?bool_decide_eq_true; naive_solver. Qed.

Lemma conf_as_ok {A} (c : Conf) (as_ : Obj -> outcome A) o x y :
  od_get o c = Some x -> as_ x = Ret y -> conf_as as_ c o = Ret y.
Proof. intros E1 E2. unfold conf_as, conf_get. by rewrite E1. Qed.

Section Objects.
Context (c : Conf) (f : ObjT -> Z) (Hwf : wf c f).

(** An object of a key, seen as an instance of its class *)
Lemma key_object o : o ∈ od_keys c -> exists x, od_get o c = Some x /\ obj_objt x = o_type o.
Proof using Hwf.
  intros Ho. apply od_get_key in Ho. destruct (od_get o c) as [x |] eqn:E; [| by destruct Ho].
  exists x. split; [done|]. symmetry. by apply (wf_class _ _ Hwf).
Qed.

(** A child over a downlink *)
Lemma child_key o x rel l r :
  od_get o c = Some x -> (rel, l) ∈ obj_downlinks x -> r ∈ l ->
  r ∈ od_keys c /\ child_ok (dl_children_t rel) r = true.
Proof using Hwf.
  intros Ho Hl Hr. split.
  - apply (wf_refs _ _ Hwf o x r Ho), elem_of_app. left. unfold links_of.
    apply list_elem_of_In, in_concat. exists l. split; apply list_elem_of_In; [| done].
    apply list_elem_of_fmap. by exists (rel, l).
  - pose proof (wf_links_typed _ _ Hwf o x Ho) as Ht. unfold links_typed in Ht.
    rewrite forallb_forall in Ht. apply list_elem_of_In in Hl. specialize (Ht _ Hl). cbn in Ht.
    rewrite forallb_forall in Ht. by apply Ht, list_elem_of_In.
Qed.

(** The object of a key by its type, with its children *)
Ltac typed_object Ho Ht :=
  let x := fresh "x" in let Hx := fresh "Hx" in let E := fresh "E" in
  destruct (key_object _ Ho) as (x & Hx & E); rewrite Ht in E;
  destruct x as [x|x|x|x|x|x|x|x|x|x|x|x|x|x|x|x|x]; try discriminate E; clear E; exists x;
  pose proof (wf_refs_typed _ _ Hwf _ _ Hx); pose proof (wf_refs c f Hwf) as Hrefs.
Ltac typed_children Hx := intros r Hr; destruct (child_key _ _ _ _ r Hx ltac:(left) Hr) as [? ?%child_ok_type]; [by split | done].

Notation at_key t o := (o ∈ od_keys c /\ o_type o = t).

Lemma encl_object o : at_key o_enclosure o -> exists x, od_get o c = Some (ConfEnclosure x) /\
  at_key o_node (e_node x) /\ forall r, r ∈ e_ctrls x -> at_key o_controller r.
Proof using Hwf.
  intros [Ho Ht]. typed_object Ho Ht. split_and!; [done | | | typed_children Hx].
  - apply (Hrefs o _ (e_node x) Hx). apply elem_of_app. right. left.
  - cbn in H. rewrite !andb_true_iff in H. apply is_t_true, H.
Qed.

Lemma node_object o : at_key o_node o -> exists x, od_get o c = Some (ConfNode x) /\
  forall r, r ∈ n_processes x -> at_key o_process r.
Proof using Hwf. intros [Ho Ht]. typed_object Ho Ht. split; [done | typed_children Hx]. Qed.

Lemma process_object o : at_key o_process o -> exists x, od_get o c = Some (ConfProcess x) /\
  forall r, r ∈ p_services x -> at_key o_service r.
Proof using Hwf. intros [Ho Ht]. typed_object Ho Ht. split; [done | typed_children Hx]. Qed.

Lemma service_object o : at_key o_service o -> exists x, od_get o c = Some (ConfService x).
Proof using Hwf. intros [Ho Ht]. by typed_object Ho Ht. Qed.

Lemma sdev_object o : at_key o_sdev o -> exists x, od_get o c = Some (ConfSdev x).
Proof using Hwf. intros [Ho Ht]. by typed_object Ho Ht. Qed.

Lemma ctrl_object o : at_key o_controller o -> exists x, od_get o c = Some (ConfController x) /\
  forall r, r ∈ c_drives x -> at_key o_drive r.
Proof using Hwf. intros [Ho Ht]. typed_object Ho Ht. split; [done | typed_children Hx]. Qed.

Lemma drive_object o : at_key o_drive o -> exists x, od_get o c = Some (ConfDrive x) /\ at_key o_sdev (dv_sdev x).
Proof using Hwf.
  intros [Ho Ht]. typed_object Ho Ht. split_and!; [done | |].
  - apply (Hrefs o _ (dv_sdev x) Hx). apply elem_of_app. right. left.
  - cbn in H. rewrite !andb_true_iff in H. apply is_t_true, H.
Qed.

Lemma pool_object o : at_key o_pool o -> exists x, od_get o c = Some (ConfPool x).
Proof using Hwf. intros [Ho Ht]. by typed_object Ho Ht. Qed.
End Objects.
