(* ===== verification/CfgenRuns.v ===== *)
(** * Runs of the generator that succeed ([src/cfgen/cfgen])

    [runs m g Q]: from [g] the computation [m] returns, with [Q] of its value and
    of the state.  [evolves N c c']: [c'] has the objects of [c], with the same
    attributes and at least the same children, and new ones that satisfy [N].
    [good g P S]: [g] is well-formed and there is room for [P] processes and [S]
    services.  With them, the methods that build one object succeed. *)

From stdpp Require Import list_numbers.
From S2P Require Import Prelude PyStr Json HaxTypes OrdDict CfgenTypes CfgenBuild.
From S2P Require Import CfgenPools CfgenCluster CfgenInv CfgenWf.

(** ** Computations that return *)
Definition runs {A} (m : M Gen A) (g : Gen) (Q : A -> Gen -> Prop) : Prop :=
  exists a g', m g = (Ret a, g') /\ Q a g'.

Section Rules.
Context {A B : Type}.
Implicit Types (m : M Gen A) (k : A -> M Gen B) (g : Gen).

Lemma runs_bind m k g Q R :
  runs m g Q -> (forall a g', Q a g' -> runs (k a) g' R) -> runs (m ≫= k) g R.
Proof.
  intros (a & g1 & E & Ha) Hk. destruct (Hk a g1 Ha) as (b & g2 & E2 & Hb).
  exists b, g2. split; [| done]. by rewrite (bind_unfold_Ret _ _ _ _ _ E).
Qed.

Lemma runs_step m k g a g1 R : m g = (Ret a, g1) -> runs (k a) g1 R -> runs (m ≫= k) g R.
Proof.
  intros E (b & g2 & E2 & Hb). exists b, g2. split; [| done]. by rewrite (bind_unfold_Ret _ _ _ _ _ E).
Qed.

Lemma runs_conseq m g (Q R : A -> Gen -> Prop) :
  runs m g Q -> (forall a g', Q a g' -> R a g') -> runs m g R.
Proof. intros (a & g1 & E & Ha) H. exists a, g1. auto. Qed.

Lemma runs_mret (a : A) g (Q : A -> Gen -> Prop) : Q a g -> runs (mret a) g Q.
Proof. intros H. by exists a, g. Qed.

Lemma runs_gets (f : Gen -> A) g (Q : A -> Gen -> Prop) : Q (f g) g -> runs (gets f) g Q.
Proof. intros H. by exists (f g), g. Qed.

Lemma runs_lift (o : outcome A) a g (Q : A -> Gen -> Prop) : o = Ret a -> Q a g -> runs (lift o) g Q.
Proof. intros -> H. by exists a, g. Qed.
End Rules.

Lemma assert_step b (g : Gen) : b = true -> assert b g = (Ret tt, g).
Proof. by intros ->. Qed.

Lemma runs_modify f g (Q : unit -> Gen -> Prop) : Q tt (f g) -> runs (modify f) g Q.
Proof. intros H. by exists tt, (f g). Qed.

Lemma runs_assert b g (Q : unit -> Gen -> Prop) : b = true -> Q tt g -> runs (assert b) g Q.
Proof. intros -> H. by exists tt, g. Qed.

Lemma runs_upd o f g x y (Q : unit -> Gen -> Prop) :
  od_get o (m0conf g) = Some x -> f x = Ret y -> Q tt (with_conf (od_set o y (m0conf g)) g) ->
  runs (conf_upd o f) g Q.
Proof. intros Ex Ef H. exists tt. eexists. split; [by eapply conf_upd_run | done]. Qed.

(** Loops, with an invariant of what is left *)
Lemma runs_for_each {A} (I : list A -> Gen -> Prop) (body : A -> M Gen unit) l g :
  I l g -> (forall x l' g, I (x :: l') g -> runs (body x) g (fun _ g' => I l' g')) ->
  runs (for_each l body) g (fun _ g' => I [] g').
Proof.
  intros Hl Hb. revert g Hl. induction l as [| x l IH]; intros g Hl; cbn; [by apply runs_mret|].
  eapply runs_bind; [by apply Hb | intros u g' H'; by apply IH].
Qed.

Lemma runs_fold_m {A S} (I : S -> list A -> Gen -> Prop) (f : S -> A -> M Gen S) l s g :
  I s l g -> (forall s x l' g, I s (x :: l') g -> runs (f s x) g (fun s' g' => I s' l' g')) ->
  runs (fold_m f s l) g (fun s' g' => I s' [] g').
Proof.
  intros Hl Hb. revert s g Hl. induction l as [| x l IH]; intros s g Hl; cbn; [by apply runs_mret|].
  eapply runs_bind; [by apply Hb | intros s' g' H'; by apply IH].
Qed.

Lemma runs_map_m {A B} (I : list B -> list A -> Gen -> Prop) (f : A -> M Gen B) l g :
  I [] l g -> (forall ys x l' g, I ys (x :: l') g -> runs (f x) g (fun y g' => I (ys ++ [y]) l' g')) ->
  runs (map_m f l) g (fun ys g' => I ys [] g').
Proof.
  intros Hl Hb. cut (forall ys g, I ys l g -> runs (map_m f l) g (fun zs g' => I (ys ++ zs) [] g')).
  { intros H. exact (H [] g Hl). }
  clear g Hl. induction l as [| x l IH]; intros ys g Hl; cbn.
  - apply runs_mret. by rewrite app_nil_r.
  - eapply runs_bind; [by apply Hb|]. intros y g' H'. eapply runs_bind; [exact (IH _ _ H')|].
    intros zs g'' H''. apply runs_mret. cbn beta in H''. by rewrite <- app_assoc in H''.
Qed.

(** ** Attributes that do not change *)

(** The object without its children and pool versions *)
Definition core (x : Obj) : Obj :=
  match x with
  | ConfRoot r => ConfRoot (mkRoot [] [] (r_pools r) (r_profiles r) [] (r_mdpool r) 0 (r_imeta_pver r))
  | ConfNode n => ConfNode (mkCNode (n_name n) (n_nr_cpu n) (n_memsize_MB n) [] (n_machine_id n) (n_network_ports n))
  | ConfProcess p =>
      ConfProcess (mkProcess (p_nr_cpu p) (p_memsize_MB p) (p_endpoint p) [] (p_meta_data p) (p_log p) (p_proc_name p))
  | ConfService s => ConfService (mkService (s_type s) (s_endpoint s) [] (s_params s) (s_ctrl_id s))
  | ConfSite s => ConfSite (mkSite [] [])
  | ConfRack r => ConfRack (mkRack [] [] (rk_parent r))
  | ConfEnclosure e => ConfEnclosure (mkEnclosure (e_node e) [] [] (e_parent e))
  | ConfController c => ConfController (mkController [] [] (c_parent c))
  | ConfDrive d => ConfDrive (mkDrive (dv_sdev d) [] (dv_parent d))
  | ConfPool p => ConfPool (mkPool [] (po_name p))
  | ConfPver p => ConfPver (mkPver (pv_data_units p) (pv_parity_units p) (pv_spare_units p) (pv_pool_width p) (pv_tolerance p) [])
  | ConfObjv v => ConfObjv (mkObjv (ov_real v) [])
  | x => x
  end.

Lemma core_objt x : obj_objt (core x) = obj_objt x.
Proof. by destruct x. Qed.

Record evolves (N : Obj -> Prop) (c c' : Conf) : Prop := mkEvolves {
  ev_old : forall k z, od_get k c = Some z -> exists z', od_get k c' = Some z' /\ core z' = core z /\
    forall r, r ∈ links_of z -> r ∈ links_of z';
  ev_new : forall k z', od_get k c' = Some z' -> k ∈ od_keys c \/ N (core z') }.

Lemma evolves_refl N c : evolves N c c.
Proof. split; [eauto | intros k z' H; left; by eapply od_get_in]. Qed.

Lemma evolves_trans N c1 c2 c3 : evolves N c1 c2 -> evolves N c2 c3 -> evolves N c1 c3.
Proof.
  intros [O1 N1] [O2 N2]. split.
  - intros k z Hz. destruct (O1 k z Hz) as (z1 & Hz1 & E1 & L1). destruct (O2 k z1 Hz1) as (z2 & Hz2 & E2 & L2).
    exists z2. split_and!; [done | congruence | auto].
  - intros k z' Hz'. destruct (N2 k z' Hz') as [Hk | Hn]; [| by right].
    apply od_get_key in Hk as [z Hz]. destruct (O2 k z Hz) as (z2 & Hz2 & E2 & _).
    rewrite Hz' in Hz2. injection Hz2 as <-. rewrite E2. by apply (N1 k).
Qed.

Lemma evolves_impl (N N' : Obj -> Prop) c c' : (forall x, N x -> N' x) -> evolves N c c' -> evolves N' c c'.
Proof. intros H [O1 N1]. split; [done|]. intros k z' Hz. destruct (N1 k z' Hz); auto. Qed.

Lemma evolves_keys N c c' k : evolves N c c' -> k ∈ od_keys c -> k ∈ od_keys c'.
Proof.
  intros [O1 _] [z Hz]%od_get_key. destruct (O1 k z Hz) as (z' & Hz' & _). by eapply od_get_in.
Qed.

(** An object of [c] in [c'], with its attributes *)
Lemma evolves_back N c c' k z' :
  evolves N c c' -> k ∈ od_keys c -> od_get k c' = Some z' ->
  exists z, od_get k c = Some z /\ core z' = core z /\ forall r, r ∈ links_of z -> r ∈ links_of z'.
Proof.
  intros [O1 _] [z Hz]%od_get_key Hz'. destruct (O1 k z Hz) as (z1 & E & H). rewrite Hz' in E.
  injection E as <-. eauto.
Qed.

(** ** Room for identifiers *)
Definition port_ok (p : portv) : bool :=
  match portal_number p with Ret n => 0 <? n | _ => false end.
Definition ports_ok (l : list Port) : bool := forallb (fun p => port_ok (port_value p)) l.

Definition ends_with_default (l : list Port) : Prop := exists p, last l = Some p /\ port_name p = "default".

Record good (g : Gen) (P S : Z) : Prop := mkGood {
  gd_wf : wf (m0conf g) (ObjT_last_fidk g);
  gd_procs : 0 <= P /\ ObjT_last_fidk g o_process + P <= 2 ^ 32;
  gd_svcs : 0 <= S /\ ObjT_last_fidk g o_service + S <= 2 ^ 32;
  gd_rack : ObjT_last_fidk g o_rack <= 1;
  gd_dev : 0 <= dev_idx g;
  gd_cuid : 0 <= cuid g;
  gd_ports : ports_ok (pg_other g) = true /\ ends_with_default (pg_other g) }.

Lemma good_bounded g P S : good g P S -> bounded (ObjT_last_fidk g).
Proof. intros [_ HP HS _ _ _ _]. split; lia. Qed.

Lemma good_less g P S P' S' : good g P S -> 0 <= P' <= P -> 0 <= S' <= S -> good g P' S'.
Proof. intros [H1 H2 H3 H4 H5 H6 H7] HP HS. split; [done | lia | lia | done..]. Qed.

Definition proc_cost (t : ObjT) : Z := match t with o_process => 1 | _ => 0 end.
Definition svc_cost (t : ObjT) : Z := match t with o_service => 1 | _ => 0 end.

Lemma bump_proc t f : bump t f o_process = f o_process + proc_cost t.
Proof. unfold bump. case_decide; subst; cbn; [lia|]. destruct t; cbn; try lia; done. Qed.
Lemma bump_svc t f : bump t f o_service = f o_service + svc_cost t.
Proof. unfold bump. case_decide; subst; cbn; [lia|]. destruct t; cbn; try lia; done. Qed.

(** An identifier that is not used *)
Lemma new_oid_runs t g P S (Q : Oid -> Gen -> Prop) :
  single t = false -> good g P S -> proc_cost t <= P -> svc_cost t <= S ->
  (forall o g', m0conf g' = m0conf g -> good g' (P - proc_cost t) (S - svc_cost t) -> ext g g' -> o_type o = t -> Q o g') ->
  runs (new_oid t) g Q.
Proof.
  intros Ht Hg HP HS HQ. eexists _, _. split; [reflexivity|]. apply HQ; [done | | by apply ext_alloc | done].
  pose proof (ext_wf _ _ (ext_alloc g t Ht)) as Hw. destruct Hg as [H1 H2 H3 H4 H5 H6 H7].
  split; cbn; rewrite ?bump_proc, ?bump_svc; try done; try lia.
  - apply Hw; [| done]. unfold bounded. cbn. rewrite bump_proc, bump_svc. lia.
  - rewrite bump_ne; [done|]. by intros <-.
Qed.

(** ** A new object under its parent *)
Definition linked (c : Conf) (p o : Oid) : Prop := exists z, od_get p c = Some z /\ o ∈ links_of z.

Lemma linked_evolves N c c' p o : evolves N c c' -> linked c p o -> linked c' p o.
Proof. intros [O1 _] (z & Hz & Ho). destruct (O1 p z Hz) as (z' & Hz' & _ & L). exists z'. auto. Qed.

Lemma evolves_child (N : Obj -> Prop) c o x p px y :
  o ∉ od_keys c -> od_get p c = Some px -> N (core x) -> core y = core px ->
  (forall r, r ∈ links_of px -> r ∈ links_of y) ->
  evolves N c (od_set p y (od_set o x c)).
Proof.
  intros Ho Hp HN Hy HL. assert (Hne : p <> o) by (intros ->; apply Ho; by eapply od_get_in). split.
  - intros k z Hz. assert (Hk : k <> o) by (intros ->; apply Ho; by eapply od_get_in).
    destruct (decide (k = p)) as [-> | Hkp].
    + exists y. rewrite od_get_set_eq. rewrite Hp in Hz. injection Hz as <-. auto.
    + exists z. rewrite !od_get_set_ne by done. auto.
  - intros k z' [[-> ->] | [Hk [[-> ->] | [Hk' Hz]]%od_get_set_inv]]%od_get_set_inv.
    + left. by eapply od_get_in.
    + by right.
    + left. by eapply od_get_in.
Qed.

Lemma child_runs0 g g1 t x add p px y P S (Q : Oid -> Gen -> Prop) :
  good g P S -> proc_cost t <= P -> svc_cost t <= S -> single t = false ->
  m0conf g1 = m0conf g -> ObjT_last_fidk g1 = bump t (ObjT_last_fidk g) -> 0 <= dev_idx g1 -> 0 <= cuid g1 ->
  pg_other g1 = pg_other g ->
  od_get p (m0conf g) = Some px -> o_type p <> t -> newborn g t x ->
  let o := mkOid t (allocate_base_fidkey t (ObjT_last_fidk g t)) in
  add o px = Ret y -> adds t o px y ->
  (forall g', good g' (P - proc_cost t) (S - svc_cost t) ->
     m0conf g' = od_set p y (od_set o x (m0conf g)) -> o ∉ od_keys (m0conf g) -> Q o g') ->
  runs (conf_put o x ;; conf_upd p (add o) ;; mret o) g1 Q.
Proof.
  intros Hg HP HS Hs Ec Ef Hdev Hcuid Hpg Hp Htp Hnb o Ey Hy HQ. destruct Hg as [G1 G2 G3 G4 G5 G6 G7].
  assert (Hb : bounded (bump t (ObjT_last_fidk g))) by (unfold bounded; rewrite bump_proc, bump_svc; lia).
  pose proof (fresh_oid _ _ t G1 Hb) as Hfresh. fold o in Hfresh.
  assert (Hpo : p <> o) by (by intros ->). set (c' := od_set p y (od_set o x (m0conf g))).
  assert (Hp' : od_get p (od_set o x (m0conf g)) = Some px) by (by rewrite od_get_set_ne).
  eapply runs_bind; [by apply (runs_modify _ _ (fun _ g' => g' = with_conf (od_set o x (m0conf g)) g1)); rewrite Ec|].
  intros _u g2 ->. eapply runs_bind.
  { by apply (runs_upd _ _ _ px y (fun _ g' => g' = with_conf c' g1)). }
  intros _u' g3 ->. apply runs_mret. apply HQ; [| done | done].
  split; cbn; rewrite ?Ef, ?bump_proc, ?bump_svc, ?Hpg; try done; try lia.
  - rewrite <- Ef. eapply (child_wf g (with_conf c' g1)); cbn; rewrite ?Ef; try done.
  - rewrite bump_ne; [done|]. by intros <-.
Qed.

Lemma child_runs g g1 t x add p px P S N (Q : Oid -> Gen -> Prop) :
  good g P S -> proc_cost t <= P -> svc_cost t <= S -> single t = false ->
  m0conf g1 = m0conf g -> ObjT_last_fidk g1 = bump t (ObjT_last_fidk g) -> 0 <= dev_idx g1 -> 0 <= cuid g1 ->
  pg_other g1 = pg_other g ->
  od_get p (m0conf g) = Some px -> o_type p <> t -> newborn g t x -> N (core x) ->
  let o := mkOid t (allocate_base_fidkey t (ObjT_last_fidk g t)) in
  (exists y, add o px = Ret y /\ adds t o px y /\ core y = core px) ->
  (forall g', good g' (P - proc_cost t) (S - svc_cost t) -> evolves N (m0conf g) (m0conf g') ->
     od_get o (m0conf g') = Some x -> linked (m0conf g') p o -> o ∉ od_keys (m0conf g) ->
     (forall k, k ∈ od_keys (m0conf g') -> k = o \/ k ∈ od_keys (m0conf g)) -> Q o g') ->
  runs (conf_put o x ;; conf_upd p (add o) ;; mret o) g1 Q.
Proof.
  intros Hg HP HS Hs Ec Ef Hdev Hcuid Hpg Hp Htp Hnb HN o (y & Ey & Hy & Hcore) HQ.
  eapply (child_runs0 g g1 t x add p px y P S); try done. fold o. intros g' G' C' Hfresh.
  assert (Hpo : p <> o) by (by intros ->).
  apply HQ; [done | rewrite C'.. | done | rewrite C'].
  - apply (evolves_child N _ o x p px y Hfresh Hp HN Hcore).
    intros r Hr. rewrite (adds_links _ _ _ _ Hy). apply elem_of_app. by right.
  - by rewrite od_get_set_ne, od_get_set_eq.
  - exists y. rewrite od_get_set_eq. split; [done|]. rewrite (adds_links _ _ _ _ Hy).
    apply elem_of_app. left. by apply list_elem_of_singleton.
  - rewrite od_keys_set_old; [intros k; apply od_keys_set_elem|].
    apply od_keys_set_elem. right. by eapply od_get_in.
Qed.

(** An object of a type *)
Lemma has_object g t o P S : good g P S -> has g t o -> exists x, od_get o (m0conf g) = Some x /\ obj_objt x = t.
Proof.
  intros Hg [[x Hx]%od_get_key Ht]. exists x. split; [done|].
  rewrite <- (wf_class _ _ (gd_wf _ _ _ Hg) _ _ Hx). done.
Qed.

Lemma has_evolves N g g' t o : evolves N (m0conf g) (m0conf g') -> has g t o -> has g' t o.
Proof. intros E [H1 H2]. split; [by eapply evolves_keys | done]. Qed.
#[export] Hint Resolve has_evolves evolves_refl linked_evolves : hare.
