(* ===== verification/CfgenTotal.v ===== *)
(** * The software and hardware trees are built ([src/cfgen/cfgen])

    The methods from [ConfNode.build] to [ConfDrive.build], whole processes, nodes
    and the metadata devices succeed on a node whose description passes
    [node_ok]. *)

From stdpp Require Import list_numbers.
From S2P Require Import Prelude PyStr Json HaxTypes OrdDict CfgenTypes CfgenBuild.
From S2P Require Import CfgenPools CfgenCluster CfgenInv CfgenWf CfgenRuns.

(** ** One object *)

(** [o] is the new object [x] under [p]. *)
Record made (g : Gen) (P S : Z) (x : Obj) (p o : Oid) (g' : Gen) : Prop := mkMade {
  md_good : good g' P S;
  md_evolves : evolves (eq (core x)) (m0conf g) (m0conf g');
  md_get : od_get o (m0conf g') = Some x;
  md_linked : linked (m0conf g') p o;
  md_fresh : o ∉ od_keys (m0conf g);
  md_only : forall k, k ∈ od_keys (m0conf g') -> k = o \/ k ∈ od_keys (m0conf g) }.

(** The last steps of a [build]: [child_runs] with the lemma about the parent's list *)
Ltac step := eapply runs_step; [reflexivity|].
Ltac step_assert := eapply runs_step; [by apply assert_step, is_t_true|].
Ltac same_good :=
  match goal with H : good ?g ?P ?S |- good ?g ?P' ?S' =>
    replace P' with P by lia; replace S' with S by lia; exact H end.
Ltac finish_build adds_lemma :=
  match goal with Hg : good _ _ _ |- runs (conf_put _ ?x ;; _) _ _ =>
    pose proof (gd_procs _ _ _ Hg); pose proof (gd_svcs _ _ _ Hg); pose proof (gd_dev _ _ _ Hg); pose proof (gd_cuid _ _ _ Hg);
    eapply (child_runs _ _ _ x _ _ _ _ _ (eq (core x))); try eassumption; try reflexivity; cbn; try lia
  end;
  [ .. | eexists; split_and!; [reflexivity | by apply adds_lemma | reflexivity]
  | intros; split; [same_good | done..] ];
  try congruence; try solve_newborn.

(** The object [m0conf[o]], given its type *)
Ltac object_of Hg Ho x Hx :=
  let Ht := fresh "Ht" in
  destruct (has_object _ _ _ _ _ Hg Ho) as (x & Hx & Ht); destruct x as [x|x|x|x|x|x|x|x|x|x|x|x|x|x|x|x|x];
  try discriminate Ht; clear Ht.

Lemma ConfNode_build_runs root r node g P S :
  good g P S -> od_get root (m0conf g) = Some (ConfRoot r) ->
  runs (ConfNode_build root node) g
    (made g P S (ConfNode (mkCNode (hostname node) (ft_processorcount (facts node))
                             (ft_memsize_MB (facts node)) [] (machine_id node) (network_ports node))) root).
Proof.
  intros Hg Hr. pose proof (wf_class _ _ (gd_wf _ _ _ Hg) _ _ Hr) as Ht. cbn in Ht.
  unfold ConfNode_build. step_assert. step. step. finish_build add_node_adds.
Qed.

Lemma ConfEnclosure_build_runs rack node g P S :
  good g P S -> has g o_rack rack -> has g o_node node ->
  runs (ConfEnclosure_build rack node) g (made g P S (ConfEnclosure (mkEnclosure node [] [] rack)) rack).
Proof.
  intros Hg Hr Hn. object_of Hg Hr x Hx. destruct Hr as [Kr Tr], Hn as [Kn Tn].
  unfold ConfEnclosure_build, ConfEnclosure_init. step_assert. step_assert. step.
  eapply runs_step; [by rewrite (proj2 (is_t_true _ _) Tn)|]. finish_build add_encl_adds.
  by rewrite !(proj2 (is_t_true _ _)).
Qed.

Lemma ConfController_build_runs encl g P S :
  good g P S -> has g o_enclosure encl ->
  runs (ConfController_build encl) g (made g P S (ConfController (mkController [] [] encl)) encl).
Proof.
  intros Hg Hr. object_of Hg Hr x Hx. destruct Hr as [Kr Tr].
  unfold ConfController_build, ConfController_init. step_assert. step. step. finish_build add_ctrl_adds.
  by rewrite (proj2 (is_t_true _ _)).
Qed.

Lemma ConfService_build_runs proc stype ep params ctrl g P S :
  good g P (S + 1) -> 0 <= S -> has g o_process proc -> (forall k, ctrl = Some k -> has g o_controller k) ->
  runs (ConfService_build proc stype ep params ctrl) g
    (made g P S (ConfService (mkService stype ep [] params ctrl)) proc).
Proof.
  intros Hg HS Hr Hc. object_of Hg Hr x Hx. destruct Hr as [Kr Tr].
  unfold ConfService_build, ConfService_init. step_assert. step. step. finish_build add_service_adds.
  - destruct ctrl as [k |]; cbn; [| done]. rewrite (proj2 (is_t_true _ _)); [done | by apply Hc].
  - destruct ctrl as [k |]; cbn in Hr; [| by apply elem_of_nil in Hr].
    apply list_elem_of_singleton in Hr as ->. by apply Hc.
Qed.

Lemma ConfSdev_build_runs svc disk path size blk g P S :
  good g P S -> has g o_service svc ->
  disk = mkDisk (Some path) (Some size) (Some blk) -> path <> "" -> 0 <= size -> 0 <= blk ->
  runs (ConfSdev_build svc disk) g (made g P S (ConfSdev (mkSdev (dev_idx g) path size blk)) svc).
Proof.
  intros Hg Hr -> Hp Hs Hb. object_of Hg Hr x Hx. destruct Hr as [Kr Tr].
  unfold ConfSdev_build, ConfSdev_init. step_assert. step. step.
  eapply runs_step.
  { unfold need_ipaddr, non_negative. cbn. destruct (String.eqb_spec path ""); [done|].
    rewrite !(proj2 (Z.leb_le _ _)) by (done || apply (gd_dev _ _ _ Hg)). reflexivity. }
  finish_build add_sdev_adds.
Qed.

Lemma ConfDrive_build_runs ctrl sdev g P S :
  good g P S -> has g o_controller ctrl -> has g o_sdev sdev ->
  runs (ConfDrive_build ctrl sdev) g (made g P S (ConfDrive (mkDrive sdev [] ctrl)) ctrl).
Proof.
  intros Hg Hr Hn. object_of Hg Hr x Hx. destruct Hr as [Kr Tr], Hn as [Kn Tn].
  unfold ConfDrive_build, ConfDrive_init. step_assert. step_assert. step.
  eapply runs_step; [by rewrite (proj2 (is_t_true _ _) Tn)|]. finish_build add_drive_adds.
  by rewrite !(proj2 (is_t_true _ _)).
Qed.

(** ** Endpoints *)
Record same_conf (g g' : Gen) : Prop := mkSameConf {
  sc_conf : m0conf g' = m0conf g; sc_fidk : ObjT_last_fidk g' = ObjT_last_fidk g;
  sc_dev : dev_idx g' = dev_idx g; sc_cuid : cuid g' = cuid g; sc_ports : pg_other g' = pg_other g }.

Lemma good_same g g' P S : same_conf g g' -> good g P S -> good g' P S.
Proof. intros [E1 E2 E3 E4 E5] [H1 H2 H3 H4 H5 H6 H7]. split; rewrite ?E1, ?E2, ?E3, ?E4, ?E5; done. Qed.

Lemma port_ok_inv p : port_ok p = true -> exists n, portal_number p = Ret n /\ (0 <? n) = true.
Proof. unfold port_ok. destruct (portal_number p); [eauto | done | done]. Qed.

Lemma LibfabricEndpoint_init_runs nf proto ip pg g :
  ip <> "" -> port_ok pg.2 = true ->
  runs (LibfabricEndpoint_init nf proto (Some ip) pg) g (fun _ g' => same_conf g g').
Proof.
  intros Hip (n & En & Hn)%port_ok_inv. unfold LibfabricEndpoint_init, need_ipaddr.
  destruct (String.eqb_spec ip ""); [done|]. step. rewrite En. step.
  eapply runs_step; [by apply assert_step|]. step. step. by apply runs_mret.
Qed.

Lemma LnetEndpoint_init_runs proto ip pg g :
  ip <> "" -> port_ok pg.2 = true ->
  runs (LnetEndpoint_init proto (Some ip) pg) g (fun _ g' => same_conf g g').
Proof.
  intros Hip (n & En & Hn)%port_ok_inv. unfold LnetEndpoint_init, need_ipaddr.
  destruct (String.eqb_spec ip ""); [done|]. step. rewrite En. step.
  eapply runs_step; [by apply assert_step|]. step. step. by apply runs_mret.
Qed.

(** The list of client ports as it is at the time. *)
Definition other_list (o : other_ports) (g : Gen) : list Port :=
  match o with Own l => l | SharedDefault => pg_other g end.

Lemma named_portal_default t name l :
  ports_ok l = true -> ends_with_default l -> exists pg, named_portal t name l = Ret pg /\ port_ok pg.2 = true.
Proof.
  intros Hl (p & Ep & Hp). unfold ports_ok in Hl. rewrite forallb_forall in Hl. unfold named_portal.
  destruct (find _ l) as [item |] eqn:E.
  - apply find_some in E as [Hin _]. eexists. split; [done|]. by apply Hl.
  - rewrite Ep, Hp. eexists. split; [done|]. apply Hl. apply list_elem_of_In.
    apply last_Some in Ep as [l' ->]. apply elem_of_app. right. left.
Qed.

(** The process finds its portal. *)
Definition portal_found (g : Gen) (ps : Portals) (t : ProcT) (name : option string) : Prop :=
  match t with
  | p_hax => 0 < ps_hax ps
  | p_m0_server => exists pg, named_portal t name (ps_m0_server ps) = Ret pg /\ port_ok pg.2 = true
  | p_m0_client_other =>
      ports_ok (other_list (ps_m0_client_other ps) g) = true /\
      ends_with_default (other_list (ps_m0_client_other ps) g)
  | p_m0_client_s3 => False
  end.

Lemma process_portal_runs ps t name g :
  portal_found g ps t name ->
  runs (process_portal ps t name) g (fun pg g' => g' = g /\ port_ok pg.2 = true).
Proof.
  unfold process_portal, portal_found. destruct t.
  - intros H. apply runs_mret. split; [done|]. by apply Z.ltb_lt.
  - intros (pg & E & Hpg). by eapply runs_lift.
  - done.
  - intros [H1 H2]. destruct (named_portal_default p_m0_client_other name _ H1 H2) as (pg & E & Hpg).
    destruct (ps_m0_client_other ps); cbn in *; (eapply runs_step; [reflexivity|]); by eapply runs_lift.
Qed.

(** ** Services *)

(** What a new object of a process may be; [ctrl] is the controller it is for. *)
Definition fits (ctrl : option Oid) (x : Obj) : Prop :=
  match x with
  | ConfRoot _ | ConfController _ | ConfProcess _ => False
  | ConfService s => s_type s = M0_CST_CAS -> is_Some ctrl /\ s_ctrl_id s = ctrl
  | _ => True
  end.
Definition fits_p (ctrl : option Oid) (x : Obj) : Prop := match x with ConfProcess _ => True | _ => fits ctrl x end.

Lemma fits_fits_p ctrl x : fits ctrl x -> fits_p ctrl x.
Proof. by destruct x. Qed.

Definition disk_ok (d : Disk) : bool :=
  match d with
  | mkDisk (Some p) (Some n) (Some b) => negb (String.eqb p "") && (0 <=? n) && (0 <=? b)
  | _ => false
  end.

Lemma disk_ok_inv d : disk_ok d = true ->
  exists p n b, d = mkDisk (Some p) (Some n) (Some b) /\ p <> "" /\ 0 <= n /\ 0 <= b.
Proof.
  destruct d as [[p |] [n |] [b |]]; cbn; try done.
  intros [[Hp Hn]%andb_true_iff Hb]%andb_true_iff. exists p, n, b.
  destruct (String.eqb_spec p ""); [done|]. split_and!; try done; by apply Z.leb_le.
Qed.

(** A device of a service and its drive *)
Lemma disk_runs svc ctrl disk g P S :
  good g P S -> has g o_service svc -> has g o_controller ctrl -> disk_ok disk = true ->
  runs (sdev ← ConfSdev_build svc disk; ConfDrive_build ctrl sdev ;; mret tt) g (fun _ g' =>
    good g' P S /\ evolves (fits None) (m0conf g) (m0conf g') /\ exists d, linked (m0conf g') ctrl d).
Proof.
  intros Hg Hs Hc (p & n & b & -> & Hp & Hn & Hb)%disk_ok_inv.
  eapply runs_bind; [by eapply ConfSdev_build_runs|]. intros sdev g1 [G1 E1 O1 _ _ _].
  eapply runs_bind.
  { apply (ConfDrive_build_runs ctrl sdev g1 P S G1); [by eauto with hare|].
    split; [by eapply od_get_in|]. by rewrite (wf_class _ _ (gd_wf _ _ _ G1) _ _ O1). }
  intros d g2 [G2 E2 _ L2 _ _]. apply runs_mret. split_and!; [done | | by exists d].
  eapply evolves_trans; [eapply evolves_impl; [| exact E1] | eapply evolves_impl; [| exact E2]]; by intros x <-.
Qed.

Lemma fits_None ctrl x : fits None x -> fits ctrl x.
Proof. destruct x; cbn; try done. intros H E. by destruct (H E) as [[? [=]] _]. Qed.

(** [served c proc st]: [proc] has a service of type [st]. *)
Definition served (c : Conf) (proc : Oid) (st : SvcT) : Prop :=
  exists s x, linked c proc s /\ od_get s c = Some (ConfService x) /\ s_type x = st.

Lemma served_evolves N c c' proc st : evolves N c c' -> served c proc st -> served c' proc st.
Proof.
  intros E (s & x & L & Hs & Ht). destruct (ev_old _ _ _ E s _ Hs) as (z & Hz & Ec & _).
  destruct z; try discriminate Ec. eexists s, _. split_and!; [by eapply linked_evolves | exact Hz |].
  injection Ec. congruence.
Qed.

(** Every process has a service. *)
Definition staffed (c : Conf) : Prop := forall p x, od_get p c = Some (ConfProcess x) -> exists s, linked c p s.

Lemma staffed_evolves N c c' : evolves N c c' -> (forall x, N (ConfProcess x) -> False) -> staffed c -> staffed c'.
Proof.
  intros E HN H p x Hp. destruct (ev_new _ _ _ E p _ Hp) as [Hin | []%HN].
  destruct (evolves_back _ _ _ _ _ E Hin Hp) as (z & Hz & Ez & _). destruct z; try discriminate Ez.
  destruct (H p _ Hz) as [s L]. exists s. by eapply linked_evolves.
Qed.

Lemma build_service_runs proc ep params d ctrl st g P S :
  good g P (S + 1) -> 0 <= S -> has g o_process proc -> (forall k, ctrl = Some k -> has g o_controller k) ->
  (st = M0_CST_CAS -> is_Some ctrl) ->
  (st = M0_CST_IOS -> exists srv, d = Some srv /\ is_Some ctrl /\ forallb disk_ok (sv_io_disks srv) = true) ->
  runs (build_service proc ep params d ctrl st) g (fun _ g' =>
    good g' P S /\ evolves (fits ctrl) (m0conf g) (m0conf g') /\ served (m0conf g') proc st /\
    (st = M0_CST_IOS -> forall srv k, d = Some srv -> ctrl = Some k -> sv_io_disks srv <> [] ->
       exists dr, linked (m0conf g') k dr)).
Proof.
  intros Hg HS Hp Hc Hcas Hios. unfold build_service.
  eapply runs_bind; [by apply (ConfService_build_runs _ _ _ _ _ _ P S)|]. intros s g1 [G1 E1 O1 L1 _ _].
  assert (E1' : evolves (fits ctrl) (m0conf g) (m0conf g1)).
  { eapply evolves_impl; [| exact E1]. intros x <-. cbn. intros E. split; [by apply Hcas | done]. }
  assert (Hs1 : served (m0conf g1) proc st) by (eexists s, _; split_and!; [done | exact O1 | done]).
  destruct (decide (st = M0_CST_IOS)) as [Hst | Hst]; [| by apply runs_mret; split_and!]. destruct (Hios Hst) as (srv & -> & [k Hk] & Hd).
  assert (Hsv : has g1 o_service s).
  { split; [by eapply od_get_in|]. by rewrite (wf_class _ _ (gd_wf _ _ _ G1) _ _ O1). }
  assert (Hk1 : has g1 o_controller k) by (eapply has_evolves; eauto).
  eapply runs_conseq.
  { apply (runs_for_each (fun l g' => good g' P S /\ evolves (fits None) (m0conf g1) (m0conf g') /\
      forallb disk_ok l = true /\ (l <> sv_io_disks srv -> exists dr, linked (m0conf g') k dr))
      _ (sv_io_disks srv) g1); [by split_and!; [done | auto with hare | done | done]|].
    intros disk l g2 (G2 & E2 & [Hd1 Hd2]%andb_true_iff & _). rewrite Hk.
    eapply runs_conseq; [apply (disk_runs s k disk g2 P S); eauto with hare|].
    intros u g3 (G3 & E3 & L3). split_and!; [done | by eapply evolves_trans | done | done]. }
  intros u g2 (G2 & E2 & _ & Hl). split_and!; [done | | by eapply served_evolves |].
  - eapply evolves_trans; [exact E1'|]. eapply evolves_impl; [apply fits_None | exact E2].
  - intros _ srv' k' [= <-] Hk' Hne. rewrite Hk in Hk'. injection Hk' as <-. by apply Hl.
Qed.

(** ** Processes *)
Definition host_ok (node : Node) : bool :=
  match data_iface_type node with Null => false | _ => true end &&
  match ft_ipaddr (facts node) with Some s => negb (String.eqb s "") | None => false end &&
  match ft_processorcount (facts node) with Some n => 0 <? n | None => false end &&
  (0 <? ft_memsize_MB (facts node)).

Lemma host_ok_inv node : host_ok node = true ->
  exists proto ip n, node_proto node = Ret proto /\ ft_ipaddr (facts node) = Some ip /\ ip <> "" /\
    ft_processorcount (facts node) = Some n /\ (0 <? n) = true /\ (0 <? ft_memsize_MB (facts node)) = true.
Proof.
  unfold host_ok, node_proto. intros [[[H1 H2]%andb_true_iff H3]%andb_true_iff H4]%andb_true_iff.
  destruct (ft_ipaddr (facts node)) as [ip |]; [| done].
  destruct (ft_processorcount (facts node)) as [n |]; [| done].
  destruct (String.eqb_spec ip ""); [done|]. destruct (data_iface_type node); eauto 10; done.
Qed.

(** The process, all of its services and the devices of its I/O service *)
Record process_made (g : Gen) (P S : Z) (parent : Oid) (ctrl : option Oid) (d : option Server)
    (ts : list SvcT) (o : Oid) (g' : Gen) : Prop := mkProcessMade {
  pm_good : good g' P S;
  pm_evolves : evolves (fits_p ctrl) (m0conf g) (m0conf g');
  pm_linked : linked (m0conf g') parent o;
  pm_has : has g' o_process o;
  pm_served : forall st, st ∈ ts -> served (m0conf g') o st;
  pm_drive : M0_CST_IOS ∈ ts -> forall srv k, d = Some srv -> ctrl = Some k -> sv_io_disks srv <> [] ->
    exists dr, linked (m0conf g') k dr;
  pm_staffed : ts <> [] -> staffed (m0conf g) -> staffed (m0conf g') }.

Lemma services_run proc ep params d ctrl ts g P S :
  good g P (S + Z.of_nat (length ts)) -> 0 <= S -> has g o_process proc ->
  (forall k, ctrl = Some k -> has g o_controller k) ->
  (M0_CST_CAS ∈ ts -> is_Some ctrl) ->
  (M0_CST_IOS ∈ ts -> exists srv, d = Some srv /\ is_Some ctrl /\ forallb disk_ok (sv_io_disks srv) = true) ->
  runs (for_each ts (build_service proc ep params d ctrl)) g (fun _ g' =>
    good g' P S /\ evolves (fits ctrl) (m0conf g) (m0conf g') /\
    (forall st, st ∈ ts -> served (m0conf g') proc st) /\
    (M0_CST_IOS ∈ ts -> forall srv k, d = Some srv -> ctrl = Some k -> sv_io_disks srv <> [] ->
       exists dr, linked (m0conf g') k dr)).
Proof.
  intros Hg HS Hp Hc Hcas Hios. revert g Hg Hp Hc.
  induction ts as [| st ts IH]; intros g Hg Hp Hc; cbn [for_each].
  - apply runs_mret. cbn [length] in Hg. rewrite Z.add_0_r in Hg.
    split_and!; [done | auto with hare | by intros ? ?%elem_of_nil | by intros ?%elem_of_nil].
  - eapply runs_bind.
    { apply (build_service_runs _ _ _ _ _ _ _ P (S + Z.of_nat (length ts))); try done; try lia.
      - cbn [length] in Hg. by replace (S + Z.of_nat (length ts) + 1) with (S + Z.of_nat (Datatypes.S (length ts))) by lia.
      - intros ->. apply Hcas. left.
      - intros ->. apply Hios. left. }
    intros u g1 (G1 & E1 & S1 & D1). eapply runs_conseq.
    { apply IH; eauto using list_elem_of_further with hare. }
    intros u' g2 (G2 & E2 & S2 & D2). split_and!; [done | by eapply evolves_trans | |].
    + intros st' [-> | Hin]%elem_of_cons; [by eapply served_evolves | auto].
    + intros Hin srv k Hd Hk Hne. apply elem_of_cons in Hin as [<- | Hin]; [| by eapply D2].
      destruct (D1 eq_refl srv k Hd Hk Hne) as [dr L]. exists dr. by eapply linked_evolves.
Qed.

Lemma ConfProcess_build_runs parent ps node t d ctrl name ts g P S :
  good g (P + 1) (S + Z.of_nat (length ts)) -> 0 <= P -> 0 <= S -> has g o_node parent ->
  host_ok node = true -> portal_found g ps t name -> service_types t d = Ret ts ->
  (forall k, ctrl = Some k -> has g o_controller k) ->
  (M0_CST_CAS ∈ ts -> is_Some ctrl) ->
  (M0_CST_IOS ∈ ts -> exists srv, d = Some srv /\ is_Some ctrl /\ forallb disk_ok (sv_io_disks srv) = true) ->
  runs (ConfProcess_build parent ps node t d ctrl name) g (process_made g P S parent ctrl d ts).
Proof.
  intros Hg HP HS Hpa (proto & ip & n & Epr & Eip & Hip & En & Hn & Hm)%host_ok_inv Hport Hts Hc Hcas Hios.
  object_of Hg Hpa x Hx. destruct Hpa as [Kp Tp].
  unfold ConfProcess_build. step_assert.
  eapply runs_step; [by destruct ctrl as [k |]; [apply assert_step, is_t_true, Hc | reflexivity]|].
  rewrite Epr, Eip. step.
  eapply runs_bind; [by apply process_portal_runs|]. intros pg ? [-> Hpg].
  eapply runs_bind; [by apply LibfabricEndpoint_init_runs|]. intros fab g1 Es1.
  eapply (runs_bind _ _ _ (fun _ g' => same_conf g g')).
  { destruct (String.eqb (transport_type node) "lnet"); [| by apply runs_mret].
    eapply runs_conseq; [by apply LnetEndpoint_init_runs|]. intros e g2 [A1 A2 A3 A4 A5]. destruct Es1 as [B1 B2 B3 B4 B5].
    split; congruence. }
  intros ep g2 Es2. pose proof (good_same _ _ _ _ Es2 Hg) as G2.
  rewrite En. unfold ConfProcess_init. step.
  eapply runs_step; [by cbn; rewrite Hn, Hm; cbn; reflexivity|].
  rewrite <- (sc_conf _ _ Es2) in *.
  match goal with |- runs (conf_put ?o ?x ;; conf_upd ?p ?f ;; ?k) ?g ?Q =>
    assert (Hm1 : runs (conf_put o x ;; conf_upd p f ;; mret o) g (made g2 P (S + Z.of_nat (length ts)) x parent)) end.
  { finish_build add_process_adds. }
  destruct Hm1 as (o & g3 & Erun & M3). apply bind_Ret in Erun as (u1 & g4 & R1 & Erun).
  apply bind_Ret in Erun as (u2 & g5 & R2 & Erun). apply mret_inv in Erun as [Eo Eg]. subst g5.
  eapply runs_step; [exact R1|]. eapply runs_step; [exact R2|].
  destruct M3 as [G3 E3 O3 L3 _ K3]. rewrite <- Eo. rewrite Hts. step.
  assert (Hp3 : has g3 o_process o).
  { split; [by eapply od_get_in|]. by rewrite (wf_class _ _ (gd_wf _ _ _ G3) _ _ O3). }
  assert (E3' : evolves (fits_p ctrl) (m0conf g) (m0conf g3)).
  { rewrite (sc_conf _ _ Es2) in E3. eapply evolves_impl; [| exact E3]. by intros z <-. }
  eapply runs_bind.
  { apply (services_run o ep _ d ctrl ts g3 P S); eauto with hare. }
  intros u g6 (G6 & E6 & S6 & D6). apply runs_mret. split; try done.
  - eapply evolves_trans; [exact E3'|]. eapply evolves_impl; [apply fits_fits_p | exact E6].
  - by eapply linked_evolves.
  - by eapply has_evolves.
  - intros Hne Hst p x' Hp. destruct (ev_new _ _ _ E6 p _ Hp) as [Hin | []].
    destruct (K3 p Hin) as [-> | Hold].
    + destruct ts as [| st ts]; [done|]. destruct (S6 st ltac:(left)) as (s & ? & L & _). eauto.
    + rewrite (sc_conf _ _ Es2) in Hold.
      destruct (evolves_back _ _ _ _ _ (evolves_trans _ _ _ _ E3' (evolves_impl _ _ _ _ (fits_fits_p ctrl) E6)) Hold Hp)
        as (z & Hz & Ez & _).
      destruct z; try discriminate Ez. destruct (Hst p _ Hz) as [s L]. exists s.
      eapply linked_evolves; [exact E6|]. by eapply linked_evolves.
Qed.

(** ** Nodes *)
Definition paired (g : Gen) (cd : option Oid * Server) : Prop :=
  match cd.1 with
  | Some k => has g o_controller k /\ sv_io_disks cd.2 <> []
  | None => sv_io_disks cd.2 = []
  end.

Lemma paired_evolves N g g' cd : evolves N (m0conf g) (m0conf g') -> paired g cd -> paired g' cd.
Proof. unfold paired. intros E. destruct cd.1; [| done]. intros [H1 H2]. split; [by eapply has_evolves | done]. Qed.

Definition is_ctrl (x : Obj) : Prop := exists k, x = ConfController k.

Lemma build_ctrls_runs encl servers g P S :
  good g P S -> has g o_enclosure encl ->
  runs (build_ctrls encl servers) g (fun cds g' =>
    good g' P S /\ evolves is_ctrl (m0conf g) (m0conf g') /\ snd <$> cds = servers /\
    Forall (paired g') cds /\ Forall (fun cd => forall k, cd.1 = Some k -> linked (m0conf g') encl k) cds /\
    forall k x, od_get k (m0conf g') = Some (ConfController x) -> k ∈ od_keys (m0conf g) \/ Some k ∈ fst <$> cds).
Proof.
  intros Hg He. unfold build_ctrls. eapply runs_conseq.
  { apply (runs_map_m (fun cds l g' => good g' P S /\ evolves is_ctrl (m0conf g) (m0conf g') /\
      (snd <$> cds) ++ l = servers /\ Forall (paired g') cds /\
      Forall (fun cd => forall k, cd.1 = Some k -> linked (m0conf g') encl k) cds /\
      forall k x, od_get k (m0conf g') = Some (ConfController x) -> k ∈ od_keys (m0conf g) \/ Some k ∈ fst <$> cds)).
    { split_and!; [done | auto with hare | done | constructor | constructor | intros k x Hk; left; by eapply od_get_in]. }
    intros cds srv l g1 (G1 & E1 & Hs & Hp & Hl & Hk). destruct (sv_io_disks srv) as [| d ds] eqn:Ed.
    - apply runs_mret. rewrite !fmap_app, <- app_assoc. split_and!; try done.
      + apply Forall_app. split; [done|]. by apply Forall_singleton.
      + apply Forall_app. split; [done|]. by apply Forall_singleton.
      + intros k x Hx. destruct (Hk k x Hx); [by left | right; apply elem_of_app; by left].
    - eapply runs_bind; [by apply (ConfController_build_runs encl g1 P S); eauto with hare|].
      intros k g2 [G2 E2 O2 L2 F2 K2]. apply runs_mret. rewrite !fmap_app, <- app_assoc.
      assert (E2' : evolves is_ctrl (m0conf g1) (m0conf g2)).
      { eapply evolves_impl; [| exact E2]. intros x <-. cbn. by eexists. }
      split_and!; try done; [by eapply evolves_trans | | |].
      + apply Forall_app. split; [eapply Forall_impl; [exact Hp | intros; by eapply paired_evolves]|].
        apply Forall_singleton. split; [| by cbn; rewrite Ed]. split; [by eapply od_get_in|].
        by rewrite (wf_class _ _ (gd_wf _ _ _ G2) _ _ O2).
      + apply Forall_app. split.
        * eapply Forall_impl; [exact Hl|]. intros cd Hcd k' Ek. eapply linked_evolves; [exact E2 | by apply Hcd].
        * apply Forall_singleton. by intros k' [= <-].
      + intros k' x Hx. destruct (K2 k' (od_get_in _ _ _ Hx)) as [-> | Hin].
        * right. apply elem_of_app. right. left.
        * destruct (evolves_back _ _ _ _ _ E2 Hin Hx) as (z & Hz & Ez & _). destruct z; try discriminate Ez.
          destruct (Hk k' _ Hz); [by left | right; apply elem_of_app; by left]. }
  intros cds g' (G & E & Hs & Hp & Hl & Hk). rewrite app_nil_r in Hs. by split_and!.
Qed.

Definition server_ok (ports : list Port) (srv : Server) : bool :=
  match named_portal p_m0_server (Some (if sv_runs_confd srv then "confd" else "ios")) ports with
  | Ret pg => port_ok pg.2 | _ => false
  end && forallb disk_ok (sv_io_disks srv).

(** Room for a process: one identifier of a process and at most [svc_max] of services *)
Definition svc_max : Z := 14.

(** The I/O and the CAS service of a node *)
Definition stored (c : Conf) (node_id : Oid) : Prop :=
  exists p, linked c node_id p /\ served c p M0_CST_IOS /\ served c p M0_CST_CAS.

Lemma stored_evolves N c c' n : evolves N c c' -> stored c n -> stored c' n.
Proof.
  intros E (p & L & S1 & S2). exists p.
  split_and!; [by eapply linked_evolves | by eapply served_evolves..].
Qed.

Lemma build_server_runs node_id ps node cd g P S :
  good g (P + 1) (S + svc_max) -> 0 <= P -> 0 <= S -> has g o_node node_id -> host_ok node = true ->
  server_ok (ps_m0_server ps) cd.2 = true -> paired g cd ->
  runs (build_server node_id ps node cd) g (fun _ g' =>
    good g' P S /\ evolves (fits_p cd.1) (m0conf g) (m0conf g') /\ (staffed (m0conf g) -> staffed (m0conf g')) /\
    forall k, cd.1 = Some k -> (exists dr, linked (m0conf g') k dr) /\ stored (m0conf g') node_id).
Proof.
  destruct cd as [ctrl srv]. cbn [fst snd]. unfold server_ok, paired, svc_max. cbn [fst snd].
  intros Hg HP HS Hn Hh [Hs Hd]%andb_true_iff Hpair.
  destruct (service_types p_m0_server (Some srv)) as [ts | |] eqn:Ets; try discriminate Ets.
  assert (Hlen : (length ts <= 13)%nat).
  { cbn in Ets. injection Ets as <-. destruct (sv_runs_confd srv), (sv_io_disks srv); cbn; lia. }
  assert (Hio : forall st, st = M0_CST_IOS \/ st = M0_CST_CAS -> st ∈ ts <-> is_Some ctrl).
  { intros st Hst. cbn in Ets. injection Ets as <-.
    destruct ctrl as [k |]; [destruct Hpair as [_ Hne]; destruct (sv_io_disks srv); [done|] | rewrite Hpair];
      (split; [| (by intros [? [=]]) || intros _]);
      rewrite ?elem_of_cons, ?elem_of_app, ?elem_of_nil; destruct (sv_runs_confd srv), Hst; subst;
      rewrite ?elem_of_cons, ?elem_of_app, ?elem_of_nil; naive_solver. }
  unfold build_server. cbn [fst snd]. eapply runs_bind.
  { apply (ConfProcess_build_runs _ _ _ _ _ _ _ ts g P S); try done.
    - eapply good_less; [exact Hg | lia | lia].
    - unfold portal_found. destruct (named_portal _ _ _) as [pg | |]; [eauto | done | done].
    - intros k ->. apply Hpair.
    - intros H. apply (Hio M0_CST_CAS); auto.
    - intros H. exists srv. split_and!; try done. apply (Hio M0_CST_IOS); auto. }
  intros o g' [G' E' L' H' S' D' T']. apply runs_mret. split_and!; [done | done | |].
  { apply T'. cbn in Ets. injection Ets as <-. by destruct (sv_runs_confd srv). }
  intros k ->. assert (Hin : forall st, st = M0_CST_IOS \/ st = M0_CST_CAS -> st ∈ ts) by (intros; by apply Hio).
  split; [eapply D'; [auto | done | done | apply Hpair]|].
  exists o. split_and!; auto.
Qed.

Definition fine (o : other_ports) : Prop :=
  match o with Own l => ports_ok l = true /\ ends_with_default l | SharedDefault => True end.

Lemma fine_found g ps P S name : good g P S -> fine (ps_m0_client_other ps) -> portal_found g ps p_m0_client_other name.
Proof. unfold portal_found, fine. intros Hg. destruct (ps_m0_client_other ps); cbn; [done|]. intros _. apply Hg. Qed.

Lemma add_default_port_runs port o g P S :
  good g P S -> 0 < port -> match o with Own l => ports_ok l = true | SharedDefault => True end ->
  runs (add_default_port port o) g (fun o' g' => good g' P S /\ m0conf g' = m0conf g /\ fine o').
Proof.
  intros Hg Hp Ho. assert (Hl : forall l, ports_ok l = true ->
    ports_ok (l ++ [mkPort "default" (PInt port)]) = true /\ ends_with_default (l ++ [mkPort "default" (PInt port)])).
  { intros l Hl. unfold ports_ok in *. rewrite forallb_app, Hl. cbn. unfold port_ok. cbn.
    rewrite (proj2 (Z.ltb_lt _ _) Hp). split; [done|]. exists (mkPort "default" (PInt port)). by rewrite last_snoc. }
  destruct o as [l |]; cbn.
  - apply runs_mret. split_and!; [done | done |]. by apply Hl.
  - step. step. apply runs_mret. destruct Hg as [G1 G2 G3 G4 G5 G6 [G7 _]]. split_and!; [| done | done].
    split; try done. by apply Hl.
Qed.

(** The identifiers of the clients are of processes and services. *)
Definition clients_typed (cl : Cluster) : bool :=
  forallb (fun kv => is_t o_process kv.1 && is_t o_service kv.2) (cl_m0_clients cl).

Record same_agents (cl cl' : Cluster) : Prop := mkSameAgents {
  sa_servers : consul_servers cl' = consul_servers cl;
  sa_clients : consul_clients cl' = consul_clients cl;
  sa_typed : clients_typed cl = true -> clients_typed cl' = true }.

Lemma same_agents_refl cl : same_agents cl cl.
Proof. by split. Qed.
Lemma same_agents_trans cl1 cl2 cl3 : same_agents cl1 cl2 -> same_agents cl2 cl3 -> same_agents cl1 cl3.
Proof. intros [A1 B1 C1] [A2 B2 C2]. split; [congruence | congruence | auto]. Qed.

Lemma add_client_typed proc svc name cl :
  o_type proc = o_process -> o_type svc = o_service -> same_agents cl (add_client proc svc name cl).
Proof.
  intros Hp Hs. split; [done | done |]. unfold clients_typed. cbn. intros H. apply forallb_forall.
  intros [k v] Hin%list_elem_of_In. rewrite forallb_forall in H.
  assert (Hkv : (k = proc /\ v = svc) \/ (k, v) ∈ cl_m0_clients cl).
  { clear H. induction (cl_m0_clients cl) as [| [k' v'] l IH]; cbn in Hin.
    - apply list_elem_of_singleton in Hin as [= -> ->]. by left.
    - case_decide; apply elem_of_cons in Hin as [[= -> ->] | Hin]; [by left | right; by right | right; by left |].
      destruct (IH Hin); [by left | right; by right]. }
  destruct Hkv as [[-> ->] | Hkv]; [cbn; by rewrite (proj2 (is_t_true _ _) Hp), (proj2 (is_t_true _ _) Hs)|].
  by apply H, list_elem_of_In.
Qed.

Lemma build_client_runs node_id ps node name cl g P S :
  good g (P + 1) (S + svc_max) -> 0 <= P -> 0 <= S -> has g o_node node_id -> host_ok node = true ->
  fine (ps_m0_client_other ps) ->
  runs (build_client node_id ps node name cl) g (fun cl' g' =>
    good g' P S /\ evolves (fits_p None) (m0conf g) (m0conf g') /\ (staffed (m0conf g) -> staffed (m0conf g')) /\
    same_agents cl cl').
Proof.
  unfold svc_max. intros Hg HP HS Hn Hh Hf. unfold build_client. eapply runs_bind.
  { apply (ConfProcess_build_runs _ _ _ _ _ _ _ [M0_CST_RMS; M0_CST_DTM0; M0_CST_FIS] g P (S + 1)); try done;
      try lia; try (by eapply fine_found).
    - eapply good_less; [exact Hg | lia | cbn; lia].
    - intros H. exfalso. by repeat (apply elem_of_cons in H as [H | H]; [discriminate H|]); apply elem_of_nil in H.
    - intros H. exfalso. by repeat (apply elem_of_cons in H as [H | H]; [discriminate H|]); apply elem_of_nil in H. }
  intros o g1 [G1 E1 _ [_ To] _ _ T1]. eapply runs_bind.
  { apply (new_oid_runs o_service _ P (S + 1) (fun s g' => good g' P S /\ m0conf g' = m0conf g1 /\ o_type s = o_service));
      try done; cbn; try lia. intros o' g' Ec G' _ Ht. split_and!; [same_good | done | done]. }
  intros svc g2 (G2 & Ec & Ts). apply runs_mret. rewrite Ec.
  split_and!; [done | done | by apply T1 | by apply add_client_typed].
Qed.

(** ** What is known after each node *)

(** Controllers have drives, but for those whose process is not built yet. *)
Definition full (c : Conf) (pend : list Oid) : Prop := forall k x,
  od_get k c = Some (ConfController x) -> k ∈ pend \/ exists dr, linked c k dr.

(** The controller of a CAS service is one of [io]. *)
Definition cas_in (c : Conf) (io : list (Oid * Server)) : Prop := forall s x,
  od_get s c = Some (ConfService x) -> s_type x = M0_CST_CAS -> exists k, s_ctrl_id x = Some k /\ k ∈ od_keys io.

Definition reached (c : Conf) : Prop := exists e x k,
  od_get e c = Some (ConfEnclosure x) /\ stored c (e_node x) /\ linked c e k.

Lemma reached_evolves N c c' : evolves N c c' -> reached c -> reached c'.
Proof.
  intros E (e & x & k & He & Hs & L). destruct (ev_old _ _ _ E e _ He) as (z & Hz & Ec & _).
  destruct z as [| | | | | | | y | | | | | | | | |]; try discriminate Ec. exists e, y, k. split; [done|].
  injection Ec as En _. rewrite En. split; [by eapply stored_evolves | by eapply linked_evolves].
Qed.

Lemma full_evolves ctrl c c' pend : evolves (fits_p ctrl) c c' -> full c pend -> full c' pend.
Proof.
  intros E H k x Hk. destruct (ev_new _ _ _ E k _ Hk) as [Hin | []].
  destruct (evolves_back _ _ _ _ _ E Hin Hk) as (z & Hz & Ez & _). destruct z; try discriminate Ez.
  destruct (H k _ Hz) as [| [dr L]]; [by left | right]. exists dr. by eapply linked_evolves.
Qed.

Lemma full_less c pend pend' : full c pend -> (forall k, k ∈ pend -> k ∈ pend' \/ exists dr, linked c k dr) -> full c pend'.
Proof. intros H Hp k x Hk. destruct (H k x Hk); auto. Qed.

Lemma cas_in_evolves N c c' io :
  evolves N c c' -> cas_in c io ->
  (forall x, N (ConfService x) -> s_type x = M0_CST_CAS -> exists k, s_ctrl_id x = Some k /\ k ∈ od_keys io) ->
  cas_in c' io.
Proof.
  intros E H Hc s x Hs Ht. destruct (ev_new _ _ _ E s _ Hs) as [Hin | Hn].
  - destruct (evolves_back _ _ _ _ _ E Hin Hs) as (z & Hz & Ez & _). destruct z as [| | | y | | | | | | | | | | | | |]; try discriminate Ez.
    injection Ez as E1 _ _ E4. rewrite E4. apply (H s y); [done | congruence].
  - destruct (Hc _ Hn Ht) as (k & Ek & Hk). by exists k.
Qed.

Lemma fits_cas ctrl (io : list (Oid * Server)) x : fits_p ctrl (ConfService x) -> (forall k, ctrl = Some k -> k ∈ od_keys io) ->
  s_type x = M0_CST_CAS -> exists k, s_ctrl_id x = Some k /\ k ∈ od_keys io.
Proof. cbn. intros H Hk Ht. destruct (H Ht) as [[k ->] E]. exists k. auto. Qed.

Lemma cas_in_more c io io' : cas_in c io -> (forall k, k ∈ od_keys io -> k ∈ od_keys io') -> cas_in c io'.
Proof. intros H Hk s x Hs Ht. destruct (H s x Hs Ht) as (k & E & Hin). eauto. Qed.

Lemma io_ctrls_keys cds k : k ∈ od_keys (io_ctrls_of cds) <-> Some k ∈ fst <$> cds.
Proof.
  unfold io_ctrls_of, od_keys. induction cds as [| [[k' |] d] cds IH]; cbn.
  - by rewrite !elem_of_nil.
  - rewrite !elem_of_cons, IH. naive_solver.
  - rewrite elem_of_cons, IH. naive_solver.
Qed.

Definition node_ok (node : Node) : bool :=
  host_ok node && (0 <? pt_hax (network_ports node)) &&
  match pt_m0_client_other (network_ports node) with Own l => ports_ok l | SharedDefault => true end &&
  forallb (server_ok (pt_m0_server (network_ports node))) (default [] (m0_servers node)).

Definition has_io (node : Node) : bool :=
  existsb (fun srv => match sv_io_disks srv with [] => false | _ => true end) (default [] (m0_servers node)).

(** The processes of a node *)
Definition client_count (l : list M0Client) : Z :=
  foldr (fun c n => Z.of_nat (length (seqZ 0 (mc_instances c))) + n) 0 l.
Definition node_procs (node : Node) : Z :=
  1 + Z.of_nat (length (default [] (m0_servers node))) + client_count (default [] (m0_clients node)).

Lemma client_count_nonneg l : 0 <= client_count l.
Proof. induction l as [| c l IH]; unfold client_count in *; cbn [foldr]; lia. Qed.

Record stage (g : Gen) (root rack : Oid) (io : list (Oid * Server)) (seen : bool) : Prop := mkStage {
  st_root : exists r, od_get root (m0conf g) = Some (ConfRoot r) /\
    core (ConfRoot r) = ConfRoot (mkRoot [] [] [] [] [] None 0 None);
  st_rack : has g o_rack rack;
  st_full : full (m0conf g) [];
  st_cas : cas_in (m0conf g) io;
  st_io : forall k, k ∈ od_keys io -> has g o_controller k;
  st_reached : seen = true -> reached (m0conf g);
  st_staffed : staffed (m0conf g) }.

Lemma existsb_exists_snd {A B} (f : B -> bool) (l : list (A * B)) :
  existsb f (snd <$> l) = true -> exists x, x ∈ l /\ f x.2 = true.
Proof.
  intros (y & Hy & Hf)%existsb_exists. apply list_elem_of_In, list_elem_of_fmap in Hy as (x & -> & Hx). eauto.
Qed.

Lemma has_io_paired g cds :
  Forall (paired g) cds ->
  existsb (fun srv => match sv_io_disks srv with [] => false | _ => true end) (snd <$> cds) = true ->
  exists cd k, cd ∈ cds /\ cd.1 = Some k.
Proof.
  intros Hp ([o srv] & Hin & Hd)%existsb_exists_snd. rewrite Forall_forall in Hp. specialize (Hp _ Hin).
  unfold paired in Hp. cbn in *. destruct o as [k |]; [by exists (Some k, srv), k|]. by rewrite Hp in Hd.
Qed.

(** All servers of a node *)
Lemma servers_run node_id ps node cds io g P S :
  good g (P + Z.of_nat (length cds)) (S + svc_max * Z.of_nat (length cds)) -> 0 <= P -> 0 <= S ->
  has g o_node node_id -> host_ok node = true ->
  forallb (server_ok (ps_m0_server ps)) (snd <$> cds) = true -> Forall (paired g) cds ->
  full (m0conf g) (omap fst cds) -> cas_in (m0conf g) io -> (forall k, Some k ∈ fst <$> cds -> k ∈ od_keys io) ->
  runs (for_each cds (build_server node_id ps node)) g (fun _ g' =>
    good g' P S /\ evolves (fun _ => True) (m0conf g) (m0conf g') /\ full (m0conf g') [] /\ cas_in (m0conf g') io /\
    (staffed (m0conf g) -> staffed (m0conf g')) /\
    (existsb (fun srv => match sv_io_disks srv with [] => false | _ => true end) (snd <$> cds) = true ->
     stored (m0conf g') node_id)).
Proof.
  intros Hg HP HS Hn Hh. unfold svc_max in *. revert g Hg Hn.
  induction cds as [| cd cds IH]; intros g Hg Hn Hok Hpair Hfull Hcas Hio; cbn [for_each].
  - apply runs_mret. cbn [length] in Hg. split_and!; [same_good | auto with hare | done..].
  - cbn [fmap list_fmap forallb] in Hok. apply andb_true_iff in Hok as [Hok1 Hok2]. inversion Hpair as [| ? ? Hp1 Hp2]; subst.
    cbn [length] in Hg. eapply runs_bind.
    { apply (build_server_runs _ _ _ _ _ (P + Z.of_nat (length cds)) (S + 14 * Z.of_nat (length cds)));
        unfold svc_max; try done; try lia. eapply good_less; [exact Hg | lia | lia]. }
    intros u g1 (G1 & E1 & T1 & K1). eapply runs_conseq.
    { apply IH; try done.
      - by eapply has_evolves.
      - eapply Forall_impl; [exact Hp2|]. intros. by eapply paired_evolves.
      - eapply full_less; [by eapply full_evolves|]. intros k Hk. cbn in Hk.
        destruct cd.1 as [k' |] eqn:Ek; [| by left]. apply elem_of_cons in Hk as [-> | Hk]; [right; by apply K1 | by left].
      - eapply cas_in_evolves; [exact E1 | done |]. intros x Hx. eapply fits_cas; [exact Hx|].
        intros k Hk. apply Hio. cbn. rewrite Hk. left.
      - intros k Hk. apply Hio. by right. }
    intros u' g2 (G2 & E2 & F2 & C2 & T2 & S2). split_and!; try done.
    + eapply evolves_trans; [eapply evolves_impl; [| exact E1]; done | exact E2].
    + auto.
    + cbn. unfold paired in Hp1. destruct cd.1 as [k |] eqn:Ek.
      * intros _. eapply stored_evolves; [exact E2|]. by apply (K1 k).
      * rewrite Hp1. done.
Qed.

Lemma instances_run {B} node_id ps node name (l : list B) cl g P S :
  good g (P + Z.of_nat (length l)) (S + svc_max * Z.of_nat (length l)) -> 0 <= P -> 0 <= S ->
  has g o_node node_id -> host_ok node = true -> fine (ps_m0_client_other ps) ->
  runs (fold_m (fun cl (_ : B) => build_client node_id ps node name cl) cl l) g (fun cl' g' =>
    good g' P S /\ evolves (fits_p None) (m0conf g) (m0conf g') /\ (staffed (m0conf g) -> staffed (m0conf g')) /\
    same_agents cl cl').
Proof.
  intros Hg HP HS Hn Hh Hf. unfold svc_max in *. revert cl g Hg Hn.
  induction l as [| x l IH]; intros cl g Hg Hn; cbn [fold_m length] in *.
  - apply runs_mret. split_and!; [same_good | auto with hare | done | apply same_agents_refl].
  - eapply runs_bind.
    { apply (build_client_runs _ _ _ _ _ _ (P + Z.of_nat (length l)) (S + 14 * Z.of_nat (length l)));
        unfold svc_max; try done; try lia. eapply good_less; [exact Hg | lia | lia]. }
    intros cl1 g1 (G1 & E1 & T1 & A1). eapply runs_conseq; [apply IH; [done | by eapply has_evolves]|].
    intros cl2 g2 (G2 & E2 & T2 & A2). split_and!; [done | by eapply evolves_trans | auto | by eapply same_agents_trans].
Qed.

Lemma clients_run node_id ps node clients cl g P S :
  good g (P + client_count clients) (S + svc_max * client_count clients) -> 0 <= P -> 0 <= S ->
  has g o_node node_id -> host_ok node = true -> fine (ps_m0_client_other ps) ->
  runs (fold_m (fun cl client =>
          fold_m (fun cl _ => build_client node_id ps node (mc_name client) cl) cl
            (seqZ 0 (mc_instances client))) cl clients) g (fun cl' g' =>
    good g' P S /\ evolves (fits_p None) (m0conf g) (m0conf g') /\ (staffed (m0conf g) -> staffed (m0conf g')) /\
    same_agents cl cl').
Proof.
  intros Hg HP HS Hn Hh Hf. revert cl g Hg Hn.
  induction clients as [| c l IH]; intros cl g Hg Hn; cbn [fold_m].
  - apply runs_mret. cbn in Hg. split_and!; [same_good | auto with hare | done | apply same_agents_refl].
  - pose proof (client_count_nonneg l) as Hl.
    assert (Ec : client_count (c :: l) = Z.of_nat (length (seqZ 0 (mc_instances c))) + client_count l) by done.
    rewrite Ec in Hg. eapply runs_bind.
    { apply (instances_run _ _ _ _ _ _ _ (P + client_count l) (S + svc_max * client_count l));
        try done; unfold svc_max in *; try lia. eapply good_less; [exact Hg | lia | lia]. }
    intros cl1 g1 (G1 & E1 & T1 & A1). eapply runs_conseq; [apply IH; [done | by eapply has_evolves]|].
    intros cl2 g2 (G2 & E2 & T2 & A2). split_and!; [done | by eapply evolves_trans | auto | by eapply same_agents_trans].
Qed.

Definition node_agent (node : Node) : ConsulAgent := mkAgent (hostname node) (ft_ipaddr (facts node)).
Definition node_confd (node : Node) : bool := existsb sv_runs_confd (default [] (m0_servers node)).

Lemma existsb_snd {A B} (f : B -> bool) (l : list (A * B)) : existsb (fun x => f x.2) l = existsb f (snd <$> l).
Proof. induction l as [| x l IH]; cbn; [done|]. by rewrite IH. Qed.

(** *** The devices of a node *)
Record framed (g : Gen) (io : list (Oid * Server)) (node : Node) (P S : Z)
    (node_id encl : Oid) (cds : list (option Oid * Server)) (g' : Gen) : Prop := mkFramed {
  fr_good : good g' P S;
  fr_evolves : evolves (fun _ => True) (m0conf g) (m0conf g');
  fr_node : has g' o_node node_id;
  fr_encl : exists y, od_get encl (m0conf g') = Some (ConfEnclosure y) /\ e_node y = node_id;
  fr_servers : snd <$> cds = default [] (m0_servers node);
  fr_paired : Forall (paired g') cds;
  fr_linked : Forall (fun cd => forall k, cd.1 = Some k -> linked (m0conf g') encl k) cds;
  fr_full : full (m0conf g') (omap fst cds);
  fr_cas : cas_in (m0conf g') (io ++ io_ctrls_of cds);
  fr_staffed : staffed (m0conf g') }.

Lemma io_keys_app (io : list (Oid * Server)) cds k :
  k ∈ od_keys (io ++ io_ctrls_of cds) <-> k ∈ od_keys io \/ Some k ∈ fst <$> cds.
Proof. rewrite <- io_ctrls_keys. unfold od_keys. by rewrite fmap_app, elem_of_app. Qed.

Lemma frame_runs {A} root rack io node g P S seen (k : Oid -> Oid -> list (option Oid * Server) -> M Gen A) Q :
  good g P S -> stage g root rack io seen ->
  (forall node_id encl cds g', framed g io node P S node_id encl cds g' -> runs (k node_id encl cds) g' Q) ->
  runs (node_id ← ConfNode_build root node; encl_id ← ConfEnclosure_build rack node_id;
        ctrl_ids ← build_ctrls encl_id (default [] (m0_servers node)); k node_id encl_id ctrl_ids) g Q.
Proof.
  intros Hg [(r & Hr & Cr) Hrack Hfull Hcas Hio Hre Hst] Hk.
  eapply runs_bind; [by eapply ConfNode_build_runs|]. intros node_id g1 [G1 E1 O1 _ _ _].
  assert (Hn1 : has g1 o_node node_id).
  { split; [by eapply od_get_in|]. by rewrite (wf_class _ _ (gd_wf _ _ _ G1) _ _ O1). }
  eapply runs_bind; [by eapply ConfEnclosure_build_runs; eauto with hare|]. intros encl g2 [G2 E2 O2 _ _ _].
  assert (He2 : has g2 o_enclosure encl).
  { split; [by eapply od_get_in|]. by rewrite (wf_class _ _ (gd_wf _ _ _ G2) _ _ O2). }
  assert (E2' : evolves (fits_p None) (m0conf g) (m0conf g2)).
  { eapply evolves_trans; [eapply evolves_impl; [| exact E1] | eapply evolves_impl; [| exact E2]]; by intros x <-. }
  eapply runs_bind; [by eapply build_ctrls_runs|]. intros cds g3 (G3 & E3 & Hs3 & P3 & L3 & K3).
  assert (E3t : evolves (fun _ => True) (m0conf g2) (m0conf g3)) by (eapply evolves_impl; [| exact E3]; done).
  apply Hk. split; try done.
  - eapply evolves_trans; [eapply evolves_impl; [| exact E2']; done | exact E3t].
  - eapply has_evolves; [exact E3t|]. by eapply has_evolves; [exact E2|].
  - destruct (ev_old _ _ _ E3t encl _ O2) as (z & Hz & Ez & _).
    destruct z as [| | | | | | | y | | | | | | | | |]; try discriminate Ez. injection Ez as En _. eauto.
  - intros c x Hc. destruct (K3 c x Hc) as [Hin | Hin].
    + destruct (evolves_back _ _ _ _ _ E3 Hin Hc) as (z & Hz & Ez & _). destruct z; try discriminate Ez.
      destruct (full_evolves _ _ _ _ E2' Hfull c _ Hz) as [[]%elem_of_nil | [dr L]].
      right. exists dr. by eapply linked_evolves.
    + left. apply list_elem_of_omap. apply list_elem_of_fmap in Hin as (cd & Hcd & Hin). eauto.
  - eapply cas_in_evolves; [exact E3 | | by intros x [c [=]]].
    eapply cas_in_more; [eapply cas_in_evolves; [exact E2' | exact Hcas |]|].
    + intros x Hx. eapply fits_cas; [exact Hx | done].
    + intros c Hc. apply io_keys_app. by left.
  - eapply (staffed_evolves _ _ _ E3); [by intros x [c [=]]|]. eapply (staffed_evolves _ _ _ E2); [done|].
    by eapply (staffed_evolves _ _ _ E1).
Qed.

(** *** The processes of a node *)
Lemma processes_run {A} node_id ps node cds io cl g P S (k : Cluster -> M Gen A) Q :
  good g (P + node_procs node) (S + svc_max * node_procs node) -> 0 <= P -> 0 <= S ->
  has g o_node node_id -> node_ok node = true -> Forall (paired g) cds ->
  snd <$> cds = default [] (m0_servers node) -> full (m0conf g) (omap fst cds) -> cas_in (m0conf g) io ->
  (forall k, Some k ∈ fst <$> cds -> k ∈ od_keys io) ->
  ps_hax ps = pt_hax (network_ports node) -> ps_m0_server ps = pt_m0_server (network_ports node) ->
  fine (ps_m0_client_other ps) ->
  (forall cl' g', good g' P S -> evolves (fun _ => True) (m0conf g) (m0conf g') -> full (m0conf g') [] ->
     cas_in (m0conf g') io -> (has_io node = true -> stored (m0conf g') node_id) ->
     (staffed (m0conf g) -> staffed (m0conf g')) -> same_agents cl cl' ->
     runs (k cl') g' Q) ->
  runs (ConfProcess_build node_id ps node p_hax None None None ;;
        for_each cds (build_server node_id ps node) ;;
        cl' ← fold_m (fun cl client =>
                fold_m (fun cl _ => build_client node_id ps node (mc_name client) cl) cl
                  (seqZ 0 (mc_instances client)))
                cl (default [] (m0_clients node));
        k cl') g Q.
Proof.
  unfold node_ok, node_procs, has_io. intros Hg HP HS Hn.
  intros [[[Hh Hhax%Z.ltb_lt]%andb_true_iff Hoth]%andb_true_iff Hsrv]%andb_true_iff Hpair Hs3 Hfull Hcas Hio Eh Es Hfine Hk.
  pose proof (client_count_nonneg (default [] (m0_clients node))) as Hcc. rewrite <- Hs3 in Hg, Hsrv, Hk.
  set (nc := client_count _) in *. rewrite (length_fmap snd cds) in Hg. unfold svc_max in *.
  assert (Hno : forall st, st ∈ [M0_CST_HA; M0_CST_RMS] -> st = M0_CST_HA \/ st = M0_CST_RMS)
    by (intros st; rewrite !elem_of_cons, elem_of_nil; tauto).
  eapply runs_bind.
  { apply (ConfProcess_build_runs _ _ _ _ _ _ _ [M0_CST_HA; M0_CST_RMS] g
      (P + Z.of_nat (length cds) + nc) (S + 14 * nc + 14 * Z.of_nat (length cds)));
      try done; try lia; try (intros H; by destruct (Hno _ H)).
    - eapply good_less; [exact Hg | lia | cbn; lia].
    - unfold portal_found. cbn. by rewrite Eh. }
  intros hax g6 [G6 E6 _ _ _ _ T6]. eapply runs_bind.
  { apply (servers_run node_id ps node cds io g6 (P + nc) (S + 14 * nc)); unfold svc_max; try done; try lia.
    - eapply good_less; [exact G6 | lia | lia].
    - by eapply has_evolves.
    - by rewrite Es.
    - eapply Forall_impl; [exact Hpair|]. intros. by eapply paired_evolves.
    - by eapply full_evolves.
    - eapply cas_in_evolves; [exact E6 | done|]. intros x Hx. eapply fits_cas; [exact Hx | done]. }
  intros u g7 (G7 & E7 & F7 & C7 & T7 & S7).
  assert (E27 : evolves (fun _ => True) (m0conf g) (m0conf g7)).
  { eapply evolves_trans; [eapply evolves_impl; [| exact E6]; done | exact E7]. }
  eapply runs_bind; [apply (clients_run _ _ _ _ _ g7 P S); unfold svc_max; try done; by eapply has_evolves|].
  intros cl' g8 (G8 & E8 & T8 & A8). apply Hk; try done.
  - eapply evolves_trans; [exact E27|]. eapply evolves_impl; [| exact E8]; done.
  - by eapply full_evolves.
  - eapply cas_in_evolves; [exact E8 | done|]. intros x Hx. eapply fits_cas; [exact Hx | done].
  - intros Hs. eapply stored_evolves; [exact E8 | by apply S7].
  - intros Hst. by apply T8, T7, T6.
Qed.

Lemma build_node_runs root rack acc node g P S seen :
  good g (P + node_procs node) (S + svc_max * node_procs node) -> 0 <= P -> 0 <= S ->
  stage g root rack acc.2 seen -> node_ok node = true ->
  runs (build_node root rack acc node) g (fun acc' g' =>
    good g' P S /\ stage g' root rack acc'.2 (seen || has_io node) /\
    same_agents (add_agent (node_confd node) (node_agent node) acc.1) acc'.1).
Proof.
  intros Hg HP HS Hst Hok. unfold build_node. eapply frame_runs; [exact Hg | exact Hst|].
  intros node_id encl cds g3 [G3 E3 N3 (y & O3 & En) Hs3 P3 L3 F3 C3 T3].
  destruct Hst as [(r & Hr & Cr) Hrack _ _ Hio Hre _].
  assert (Hoth : match pt_m0_client_other (network_ports node) with Own l => ports_ok l = true | SharedDefault => True end).
  { unfold node_ok in Hok. rewrite !andb_true_iff in Hok. destruct Hok as [[_ Ho] _]. by destruct (pt_m0_client_other _). }
  eapply runs_bind; [by eapply (add_default_port_runs 4); [exact G3 | lia |]|]. intros o1 g4 (G4 & C4 & F4).
  eapply runs_bind; [by eapply (add_default_port_runs 22501); [exact G4 | lia | destruct o1; [apply F4|]]|].
  intros o2 g5 (G5 & C5 & F5). rewrite C4 in C5.
  apply (processes_run node_id _ node cds (acc.2 ++ io_ctrls_of cds) _ g5 P S); try done; rewrite ?C5; try done.
  { eapply (has_evolves (fun _ => True) g3); [rewrite C5; auto with hare | done]. }
  { eapply Forall_impl; [exact P3|]. intros cd. apply (paired_evolves (fun _ => True)). rewrite C5. auto with hare. }
  { intros k Hk. apply io_keys_app. by right. }
  intros cl' g8 G8 E8 F8 C8 S8 T8 A8. apply runs_mret. cbn [fst snd].
  assert (E08 : evolves (fun _ => True) (m0conf g) (m0conf g8)) by (by eapply evolves_trans).
  split_and!; [done | split; try done |].
  - destruct (ev_old _ _ _ E08 root _ Hr) as (z & Hz & Ez & _). destruct z as [r' | | | | | | | | | | | | | | | |]; try discriminate Ez.
    exists r'. split; [done|]. by rewrite Ez.
  - eapply has_evolves; [exact E08 | exact Hrack].
  - intros k [Hk | Hk]%io_keys_app; [by eapply has_evolves; [exact E08 | apply Hio]|].
    apply list_elem_of_fmap in Hk as (cd & Hcd & Hin).
    rewrite Forall_forall in P3. specialize (P3 cd Hin). unfold paired in P3. rewrite <- Hcd in P3.
    eapply (has_evolves (fun _ => True) g3); [exact E8 | apply P3].
  - intros [Hs | Hs]%orb_true_iff; [by eapply reached_evolves; [exact E08 | apply Hre]|].
    destruct (ev_old _ _ _ E8 encl _ O3) as (z & Hz & Ez & _).
    destruct z as [| | | | | | | y' | | | | | | | | |]; try discriminate Ez. injection Ez as En' _.
    destruct (has_io_paired _ _ P3 ltac:(rewrite Hs3; exact Hs)) as (cd & k & Hcd & Hk).
    exists encl, y', k. split; [done|]. rewrite En', En. split; [by apply S8|].
    eapply linked_evolves; [exact E8|]. rewrite Forall_forall in L3. by eapply L3.
  - by apply T8.
  - rewrite existsb_snd, Hs3 in A8. exact A8.
Qed.
