(* ===== verification/CfgenMirror.v ===== *)
(** * The tree of virtual objects of a pool version ([src/cfgen/cfgen])

    [build_pver_subtree] gives every drive of the pool, and every controller,
    enclosure, rack and site above one, a virtual object, and links the virtual
    objects the way the real ones are.  [mirror] is the invariant of its loops:
    [tops] are the devices whose virtual object has no parent yet, [bare] the one
    whose virtual object has no child yet. *)

From stdpp Require Import list_numbers.
From S2P Require Import Prelude PyStr Json HaxTypes OrdDict CfgenTypes CfgenBuild.
From S2P Require Import CfgenPools CfgenCluster CfgenInv CfgenWf.

(** ** Devices *)

(** The device above: [m0conf[x]._parent]. *)
Definition par (c : Conf) (x : Oid) : option Oid :=
  match od_get x c with
  | Some o => match obj_parent o with Ret p => Some p | _ => None end
  | None => None
  end.

Definition up_type (t : ObjT) : option ObjT :=
  match t with
  | o_drive => Some o_controller | o_controller => Some o_enclosure
  | o_enclosure => Some o_rack | o_rack => Some o_site | _ => None
  end.

Lemma wf_par c f x t :
  wf c f -> x ∈ od_keys c -> up_type (o_type x) = Some t ->
  exists p, par c x = Some p /\ o_type p = t /\ p ∈ od_keys c.
Proof.
  intros Hwf [o Ho]%od_get_key Ht. unfold par. rewrite Ho.
  pose proof (wf_class _ _ Hwf _ _ Ho) as Hc. pose proof (wf_refs_typed _ _ Hwf _ _ Ho) as Hrt.
  pose proof (fun r => wf_refs _ _ Hwf _ _ r Ho) as Hr. rewrite Hc in Ht.
  destruct o; cbn in *; try discriminate; injection Ht as <-; eexists; split; try reflexivity;
    rewrite !andb_true_iff, !is_t_true in Hrt;
    (split; [tauto | apply Hr; set_solver]).
Qed.

Lemma par_type c f x p : wf c f -> par c x = Some p -> up_type (o_type x) = Some (o_type p).
Proof.
  intros Hwf. unfold par. destruct (od_get x c) as [o |] eqn:Ho; [| done].
  pose proof (wf_class _ _ Hwf _ _ Ho) as ->. pose proof (wf_refs_typed _ _ Hwf _ _ Ho) as Hrt.
  destruct o; cbn in *; intros [= <-]; rewrite !andb_true_iff, !is_t_true in Hrt;
    f_equal; symmetry; tauto.
Qed.

Lemma up_type_ne t t' : up_type t = Some t' -> t <> t'.
Proof. by destruct t; intros [= <-]. Qed.

(** [obj_add_pver] on a device *)
Lemma add_pver_device v o :
  obj_objt o ∈ pver_levels ->
  exists o', obj_add_pver v o = Ret o' /\ obj_objt o' = obj_objt o /\ links_of o' = links_of o /\
    links_typed o' = links_typed o /\ obj_parent o' = obj_parent o /\
    (o_type v = o_pver -> refs_typed o = true -> refs_typed o' = true) /\
    (forall r, r ∈ other_refs o' <-> r = v \/ r ∈ other_refs o).
Proof.
  assert (Ht : forall l, o_type v = o_pver -> all_t o_pver l = true -> all_t o_pver (l ++ [v]) = true).
  { intros l Hv Hl. unfold all_t. rewrite forallb_app. unfold all_t in Hl. rewrite Hl. cbn.
    by rewrite (proj2 (is_t_true o_pver v) Hv). }
  intros Hin%(bool_decide_pack _).
  destruct o; try (by vm_compute in Hin); clear Hin; eexists; (split; [reflexivity|]); cbn;
    (split_and!; [done | done | done | done | | intros r; rewrite ?elem_of_cons, elem_of_app,
       list_elem_of_singleton; tauto]);
    intros Hv; rewrite ?andb_true_iff; intuition auto; by apply Ht.
Qed.

Lemma device_pvers o : obj_objt o ∈ pver_levels -> exists vs, obj_pvers o = Ret vs /\
  (forall v, v ∈ vs -> v ∈ other_refs o).
Proof.
  intros Hin%(bool_decide_pack _). destruct o; try (by vm_compute in Hin); clear Hin; cbn;
    eexists; (split; [reflexivity|]); intros v; rewrite ?elem_of_cons; tauto.
Qed.

(** Distinct values of a dict. *)
Lemma od_get_inj {K V} `{EqDecision K} (d : list (K * V)) x y v :
  NoDup (snd <$> d) -> od_get x d = Some v -> od_get y d = Some v -> x = y.
Proof.
  induction d as [| [k w] d IH]; cbn; [done|]. intros [Hw Hd]%NoDup_cons.
  assert (Hin : forall z, od_get z d = Some w -> False).
  { intros z Hz%od_get_elem. apply Hw, list_elem_of_fmap. by exists (z, w). }
  repeat case_decide; subst; intros; simplify_eq;
    first [done | by apply IH | exfalso; eapply Hin; eassumption].
Qed.

Lemma od_get_snoc {K V} `{EqDecision K} (d : list (K * V)) k v x :
  k ∉ od_keys d -> od_get x (d ++ [(k, v)]) = if decide (x = k) then Some v else od_get x d.
Proof.
  intros Hk. rewrite <- od_set_fresh by done. case_decide; subst.
  - apply od_get_set_eq.
  - by apply od_get_set_ne.
Qed.

Lemma od_keys_snoc {K V} (d : list (K * V)) k v : od_keys (d ++ [(k, v)]) = od_keys d ++ [k].
Proof. unfold od_keys. by rewrite fmap_app. Qed.

(** ** The invariant *)
Section Mirror.
Context (c0 : Conf) (f0 : ObjT -> Z) (pver : Oid) (p0 : CPver).
Context (Hwf0 : wf c0 f0) (Hbound : bounded f0).
Context (Hpver : od_get pver c0 = Some (ConfPver p0)) (Hsitevs : pv_sitevs p0 = []).
Context (Hunused : forall x o vs, od_get x c0 = Some o -> o_type x ∈ pver_levels ->
                     obj_pvers o = Ret vs -> pver ∉ vs).
Context (Hrack : forall x y, x ∈ od_keys c0 -> y ∈ od_keys c0 ->
                   o_type x = o_rack -> o_type y = o_rack -> x = y).

Notation up := (fun a b => par c0 a = Some b).
Notation Virtual := (list (Oid * Oid)).

Record mirror (g : Gen) (tops : list Oid) (bare : option Oid) (V : Virtual) (done : list Oid)
    : Prop := mkMirror {
  mi_wf : wf (m0conf g) (ObjT_last_fidk g);
  mi_fidk : forall t, t <> o_objv -> ObjT_last_fidk g t = f0 t;
  mi_keys : od_keys (m0conf g) = od_keys c0 ++ (snd <$> V);
  mi_vkeys : NoDup (od_keys V);
  mi_dev : forall x, x ∈ od_keys V -> x ∈ od_keys c0 /\ o_type x ∈ pver_levels;
  mi_objv : forall x v, od_get x V = Some v ->
    exists cs, od_get v (m0conf g) = Some (ConfObjv (mkObjv x cs)) /\
      forall w, w ∈ cs <-> exists y, od_get y V = Some w /\ par c0 y = Some x /\ y ∉ tops;
  mi_in : forall x o, od_get x c0 = Some o -> x ∈ od_keys V ->
    exists o', obj_add_pver pver o = Ret o' /\ od_get x (m0conf g) = Some o';
  mi_out : forall x o, od_get x c0 = Some o -> x ∉ od_keys V -> x <> pver ->
    od_get x (m0conf g) = Some o;
  mi_pver : exists sv, od_get pver (m0conf g) = Some (ConfPver (mkPver (pv_data_units p0)
      (pv_parity_units p0) (pv_spare_units p0) (pv_pool_width p0) (pv_tolerance p0) sv)) /\
    forall w, w ∈ sv <-> exists y, od_get y V = Some w /\ o_type y = o_site /\ y ∉ tops;
  mi_up : forall x p, x ∈ od_keys V -> x ∉ tops -> par c0 x = Some p -> p ∈ od_keys V;
  mi_down : forall x, x ∈ od_keys V -> o_type x <> o_drive -> Some x <> bare ->
    exists y, y ∈ od_keys V /\ y ∉ tops /\ par c0 y = Some x;
  mi_done : forall x, o_type x = o_drive -> x ∈ od_keys V <-> x ∈ done;
  mi_reach : forall x, x ∈ od_keys V -> exists d, d ∈ done /\ rtc up d x }.

Lemma pver_type : o_type pver = o_pver.
Proof. by apply (wf_class _ _ Hwf0 _ _ Hpver). Qed.

Lemma mirror_start g : m0conf g = c0 -> ObjT_last_fidk g = f0 -> mirror g [] None [] [].
Proof.
  intros Ec Ef.
  split; rewrite ?Ec, ?Ef; cbn; try done; try (by rewrite app_nil_r); try (by constructor);
    try (by set_solver).
  exists []. rewrite Hpver. destruct p0; cbn in *. subst. split; [done | set_solver].
Qed.

Lemma mirror_values g tops bare V done : mirror g tops bare V done ->
  NoDup (snd <$> V) /\ forall v, v ∈ snd <$> V -> v ∉ od_keys c0.
Proof.
  intros Hm. pose proof (wf_keys _ _ (mi_wf _ _ _ _ _ Hm)) as Hnd.
  rewrite (mi_keys _ _ _ _ _ Hm) in Hnd. apply NoDup_app in Hnd as (_ & Hdis & Hv).
  split; [done|]. intros v H1 H2. by apply (Hdis v).
Qed.

Lemma od_get_value {K V} `{EqDecision K} (d : list (K * V)) x v : od_get x d = Some v -> v ∈ snd <$> d.
Proof. intros H%od_get_elem. apply list_elem_of_fmap. by exists (x, v). Qed.

(** The virtual object of a device in [tops] is nobody's child. *)
Lemma mirror_orphan g tops bare V done x v :
  mirror g tops bare V done -> x ∈ tops -> od_get x V = Some v -> v ∉ all_links (m0conf g).
Proof.
  intros Hm Hx Hv. destruct (mirror_values _ _ _ _ _ Hm) as [Hnd Hnew].
  intros ([k o] & Hin & Hl)%all_links_elem. cbn in Hl.
  pose proof (od_elem_get _ _ _ (wf_keys _ _ (mi_wf _ _ _ _ _ Hm)) Hin) as Ho.
  assert (Hinj : forall y, od_get y V = Some v -> y ∈ tops)
    by (intros y Hy; by rewrite (od_get_inj V y x v Hnd Hy Hv)).
  pose proof (od_get_in _ _ _ Ho) as Hk. rewrite (mi_keys _ _ _ _ _ Hm) in Hk.
  apply elem_of_app in Hk as [Hk | Hk].
  - destruct (decide (k = pver)) as [-> | Hne].
    + destruct (mi_pver _ _ _ _ _ Hm) as (sv & E & Hsv). rewrite Ho in E. injection E as ->.
      unfold links_of in Hl. cbn in Hl. rewrite app_nil_r in Hl.
      apply Hsv in Hl as (y & Hy & _ & Hn). by apply Hn, Hinj.
    + apply od_get_key in Hk as [o0 Ho0].
      assert (Hlinks : links_of o = links_of o0).
      { destruct (decide (k ∈ od_keys V)) as [Hi | Hi].
        - destruct (mi_in _ _ _ _ _ Hm _ _ Ho0 Hi) as (o' & E1 & E2).
          destruct (mi_dev _ _ _ _ _ Hm _ Hi) as [_ Hlev]. rewrite (wf_class _ _ Hwf0 _ _ Ho0) in Hlev.
          destruct (add_pver_device pver o0 Hlev) as (o'' & E3 & _ & E4 & _). congruence.
        - rewrite (mi_out _ _ _ _ _ Hm _ _ Ho0 Hi Hne) in Ho. congruence. }
      rewrite Hlinks in Hl. apply (Hnew v); [by eapply od_get_value|].
      apply (wf_refs _ _ Hwf0 k o0); [done|]. apply elem_of_app. by left.
  - apply list_elem_of_fmap in Hk as ([y k'] & -> & Hy). cbn in *.
    pose proof (od_elem_get _ _ _ (mi_vkeys _ _ _ _ _ Hm) Hy) as Hz.
    destruct (mi_objv _ _ _ _ _ Hm _ _ Hz) as (cs & E & Hcs). rewrite Ho in E. injection E as ->.
    unfold links_of in Hl. cbn in Hl. rewrite app_nil_r in Hl.
    apply Hcs in Hl as (y' & Hy' & _ & Hn). by apply Hn, Hinj.
Qed.

(** The current parent of a device is the one it had. *)
Lemma mirror_parent g tops bare V done x p :
  mirror g tops bare V done -> par c0 x = Some p ->
  exists o, od_get x (m0conf g) = Some o /\ obj_parent o = Ret p.
Proof.
  intros Hm Hp. unfold par in Hp. destruct (od_get x c0) as [o |] eqn:Ho; [| done].
  assert (Hpar : obj_parent o = Ret p) by (destruct (obj_parent o); congruence).
  destruct (decide (x ∈ od_keys V)) as [Hi | Hi].
  - destruct (mi_in _ _ _ _ _ Hm _ _ Ho Hi) as (o' & E1 & E2). exists o'. split; [done|].
    destruct (mi_dev _ _ _ _ _ Hm _ Hi) as [_ Hlev]. rewrite (wf_class _ _ Hwf0 _ _ Ho) in Hlev.
    destruct (add_pver_device pver o Hlev) as (o'' & E3 & _ & _ & _ & E4 & _). congruence.
  - exists o. split; [| done]. apply (mi_out _ _ _ _ _ Hm); [done.. |].
    intros ->. rewrite Hpver in Ho. injection Ho as <-. done.
Qed.

(** *** A device enters the pool version *)
Lemma enter_run g tops bare V done x :
  mirror g tops bare V done -> x ∈ od_keys c0 -> o_type x ∈ pver_levels -> x ∉ od_keys V ->
  let v := mkOid o_objv (ObjT_last_fidk g o_objv) in
  exists o o' g1, od_get x c0 = Some o /\ obj_add_pver pver o = Ret o' /\
    enter_pver pver x V g = (Ret (V ++ [(x, v)]), g1) /\ v ∉ od_keys (m0conf g) /\
    m0conf g1 = od_set v (ConfObjv (mkObjv x [])) (od_set x o' (m0conf g)) /\
    ObjT_last_fidk g1 = bump o_objv (ObjT_last_fidk g) /\
    wf (m0conf g1) (ObjT_last_fidk g1).
Proof.
  intros Hm Hx Hlev Hnx v. pose proof Hx as [o Ho]%od_get_key.
  assert (Hne : x <> pver).
  { intros E. rewrite E, pver_type in Hlev. by apply (bool_decide_pack _) in Hlev. }
  pose proof (mi_out _ _ _ _ _ Hm _ _ Ho Hnx Hne) as Hox.
  assert (Hcls : obj_objt o ∈ pver_levels) by (by rewrite <- (wf_class _ _ Hwf0 _ _ Ho)).
  destruct (add_pver_device pver o Hcls) as (o' & E1 & E2 & E3 & E4 & E5 & E6 & E7).
  destruct (device_pvers o Hcls) as (vs & Evs & _).
  pose proof (Hunused _ _ _ Ho Hlev Evs) as Hnot.
  pose proof (mi_wf _ _ _ _ _ Hm) as Hw.
  assert (Hpk : pver ∈ od_keys (m0conf g)) by (destruct (mi_pver _ _ _ _ _ Hm) as (sv & E & _); eauto with hare).
  assert (W1 : wf (od_set x o' (m0conf g)) (ObjT_last_fidk g)).
  { apply (wf_update _ _ x o o' []); try done.
    - by rewrite E3.
    - rewrite E4. by apply (wf_links_typed _ _ Hw x).
    - apply E6; [apply pver_type | by apply (wf_refs_typed _ _ Hw x)].
    - intros r [-> | Hr]%E7; [done|]. apply (wf_refs _ _ Hw x o r Hox), elem_of_app. by right.
    - constructor.
    - by intros r ?%elem_of_nil. }
  assert (Hb : bounded (bump o_objv (ObjT_last_fidk g))).
  { unfold bounded. rewrite !bump_ne by done. rewrite !(mi_fidk _ _ _ _ _ Hm) by done. done. }
  assert (Hxk : x ∈ od_keys (od_set x o' (m0conf g))) by (apply od_keys_set_elem; by left).
  pose proof (fresh_oid _ _ o_objv Hw Hb) as Hfresh.
  exists o, o', (mkGen (od_set v (ConfObjv (mkObjv x [])) (od_set x o' (m0conf g)))
    (bump o_objv (ObjT_last_fidk g)) (dev_idx g) (cuid g) (ep_map g) (tmids g) (pg_other g) (aux_pools g)).
  split_and!; try done.
  - unfold enter_pver, conf_upd, ConfObjv_build, conf_get, ConfObjv_init, new_oid, next_fidk.
    run. rewrite Hox. cbn.
    rewrite Evs. rewrite bool_decide_false by done. cbn. rewrite Hox. cbn. rewrite E1. cbn.
    rewrite (proj2 (od_in_true x _) Hxk). rewrite bool_decide_true by done. cbn.
    by rewrite od_set_fresh.
  - cbn. apply (wf_insert _ _ o_objv (ConfObjv (mkObjv x [])) W1 Hb); try done.
    + cbn. by rewrite bool_decide_true.
    + cbn. intros r ->%list_elem_of_singleton. done.
Qed.

Definition bare_of (x : Oid) : option Oid := if decide (o_type x = o_drive) then None else Some x.

Lemma mirror_enter g tops V done x done' :
  mirror g tops None V done -> x ∈ od_keys c0 -> o_type x ∈ pver_levels -> x ∉ od_keys V ->
  (forall d, o_type d = o_drive -> d ∈ done' <-> d = x \/ d ∈ done) ->
  (forall d, d ∈ done -> d ∈ done') -> (exists d, d ∈ done' /\ rtc up d x) ->
  exists v g1, enter_pver pver x V g = (Ret (V ++ [(x, v)]), g1) /\
    mirror g1 (x :: tops) (bare_of x) (V ++ [(x, v)]) done'.
Proof.
  intros Hm Hx Hlev Hnx Hdone Hsub Hreach.
  destruct (enter_run _ _ _ _ _ _ Hm Hx Hlev Hnx) as (o & o' & g1 & Ho & Eo' & Erun & Hv & Ec & Ef & W).
  set (v := mkOid o_objv (ObjT_last_fidk g o_objv)) in *. exists v, g1. split; [done|].
  assert (Hxk : x ∈ od_keys (m0conf g)) by (rewrite (mi_keys _ _ _ _ _ Hm); apply elem_of_app; by left).
  assert (Hxv : v <> x) by (by intros ->).
  assert (Hk1 : od_keys (m0conf g1) = od_keys (m0conf g) ++ [v]).
  { rewrite Ec, od_keys_set_new; rewrite od_keys_set_old by done; done. }
  assert (Hget : forall k, k <> v -> k <> x -> od_get k (m0conf g1) = od_get k (m0conf g)).
  { intros k H1 H2. rewrite Ec. rewrite !od_get_set_ne by done. done. }
  assert (Hval : forall y w, od_get y V = Some w -> w <> v /\ w <> x).
  { intros y w Hy%od_get_value. destruct (mirror_values _ _ _ _ _ Hm) as [_ Hn].
    split; intros ->; [| by apply (Hn x)]. apply Hv. rewrite (mi_keys _ _ _ _ _ Hm), elem_of_app. by right. }
  assert (Hpv : pver <> v /\ pver <> x).
  { destruct (mi_pver _ _ _ _ _ Hm) as (sv & E & _). split; intros E1.
    - apply Hv. rewrite <- E1. eauto with hare.
    - rewrite <- E1, pver_type in Hlev. by apply (bool_decide_pack _) in Hlev. }
  assert (HV : forall y, od_get y (V ++ [(x, v)]) = if decide (y = x) then Some v else od_get y V)
    by (intros y; by apply od_get_snoc).
  assert (HVk : forall y, y ∈ od_keys (V ++ [(x, v)]) <-> y ∈ od_keys V \/ y = x)
    by (intros y; by rewrite od_keys_snoc, elem_of_app, list_elem_of_singleton).
  split.
  - done.
  - intros t Ht. rewrite Ef, bump_ne by done. by apply (mi_fidk _ _ _ _ _ Hm).
  - rewrite Hk1, (mi_keys _ _ _ _ _ Hm), fmap_app, app_assoc. done.
  - rewrite od_keys_snoc. apply NoDup_app. split; [apply (mi_vkeys _ _ _ _ _ Hm)|].
    split; [| apply NoDup_singleton]. by intros y Hy ->%list_elem_of_singleton.
  - intros y [Hy | ->]%HVk; [by apply (mi_dev _ _ _ _ _ Hm) | done].
  - intros y w. rewrite HV. case_decide as Hyx.
    + intros [= <-]. subst y. exists []. rewrite Ec, od_get_set_eq. split; [done|].
      intros w. split; [by intros ?%elem_of_nil|]. intros (z & Hz & Hp & Hn). exfalso.
      apply not_elem_of_cons in Hn as [Hzx Hzt]. rewrite HV in Hz. case_decide; [done|].
      apply Hnx. eapply (mi_up _ _ _ _ _ Hm z); eauto with hare.
    + intros Hy. destruct (mi_objv _ _ _ _ _ Hm _ _ Hy) as (cs & E & Hcs). exists cs.
      destruct (Hval _ _ Hy). rewrite Hget by done. split; [done|]. intros u. rewrite Hcs.
      split; intros (z & Hz & Hp & Hn); exists z; rewrite HV in *.
      * case_decide; [subst z; apply od_get_in in Hz; done|]. by rewrite not_elem_of_cons.
      * apply not_elem_of_cons in Hn as [H1 H2]. rewrite decide_False in Hz by done. done.
  - intros y oy Hy [Hin | ->]%HVk.
    + destruct (mi_in _ _ _ _ _ Hm _ _ Hy Hin) as (o1 & E1 & E2). exists o1. split; [done|].
      rewrite Hget; [done | | by intros ->]. intros ->. apply Hv. eauto with hare.
    + rewrite Ho in Hy. injection Hy as <-. exists o'. split; [done|].
      rewrite Ec, od_get_set_ne by done. apply od_get_set_eq.
  - intros y oy Hy Hin Hne. rewrite HVk in Hin. rewrite Hget; [apply (mi_out _ _ _ _ _ Hm); tauto | | tauto].
    intros ->. apply Hv. rewrite (mi_keys _ _ _ _ _ Hm), elem_of_app. left. eauto with hare.
  - destruct (mi_pver _ _ _ _ _ Hm) as (sv & E & Hsv). exists sv. destruct Hpv.
    rewrite Hget by done. split; [done|]. intros u. rewrite Hsv.
    split; intros (z & Hz & Hp & Hn); exists z; rewrite HV in *.
    + case_decide; [subst z; apply od_get_in in Hz; done|]. by rewrite not_elem_of_cons.
    + apply not_elem_of_cons in Hn as [H1 H2]. rewrite decide_False in Hz by done. done.
  - intros y p [Hy | ->]%HVk [H1 H2]%not_elem_of_cons Hp; [| done]. apply HVk. left.
    by eapply (mi_up _ _ _ _ _ Hm y).
  - intros y [Hy | ->]%HVk Hnd Hb.
    + destruct (mi_down _ _ _ _ _ Hm y Hy Hnd ltac:(done)) as (z & Hz & Hzt & Hp). exists z.
      rewrite HVk, not_elem_of_cons. split_and!; auto. by intros ->.
    + unfold bare_of in Hb. by rewrite decide_False in Hb.
  - intros y Hy. rewrite HVk, Hdone, (mi_done _ _ _ _ _ Hm) by done. tauto.
  - intros y [Hy | ->]%HVk; [| done]. destruct (mi_reach _ _ _ _ _ Hm y Hy) as (d & Hd & Hr). eauto.
Qed.

(** *** A virtual object gets its parent *)
Lemma mirror_link g tops tops' bare V done dev0 dev v0 v :
  mirror g tops bare V done -> dev0 ∈ tops -> par c0 dev0 = Some dev ->
  od_get dev0 V = Some v0 -> od_get dev V = Some v -> (bare = None \/ bare = Some dev) ->
  (forall y, y ∈ tops' <-> y ∈ tops /\ y <> dev0) ->
  exists g1, conf_upd v (add_child v0) g = (Ret tt, g1) /\ mirror g1 tops' None V done.
Proof.
  intros Hm Htop Hpar Hv0 Hv Hbare Htops.
  destruct (mi_objv _ _ _ _ _ Hm _ _ Hv) as (cs & Ecs & Hcs).
  set (y := ConfObjv (mkObjv dev (cs ++ [v0]))).
  set (g1 := with_conf (od_set v y (m0conf g)) g).
  assert (Hk1 : od_keys (m0conf g1) = od_keys (m0conf g)) by (apply od_keys_set_old; eauto with hare).
  assert (Hget : forall k, k <> v -> od_get k (m0conf g1) = od_get k (m0conf g))
    by (intros k Hk; by apply od_get_set_ne).
  destruct (mirror_values _ _ _ _ _ Hm) as [Hnd Hnew].
  pose proof (mi_wf _ _ _ _ _ Hm) as Hw.
  assert (Hv0k : v0 ∈ od_keys (m0conf g))
    by (rewrite (mi_keys _ _ _ _ _ Hm), elem_of_app; right; by eapply od_get_value).
  assert (Hvk : v ∉ od_keys c0) by (by apply Hnew; eapply od_get_value).
  assert (Hv0t : o_type v0 = o_objv).
  { destruct (mi_objv _ _ _ _ _ Hm _ _ Hv0) as (cs0 & E0 & _). by apply (wf_class _ _ Hw _ _ E0). }
  pose proof (mirror_orphan _ _ _ _ _ _ _ Hm Htop Hv0) as Horph.
  pose proof (add_child_adds v0 (ConfObjv (mkObjv dev cs)) y eq_refl) as Ha.
  assert (Hne : dev0 <> dev).
  { intros ->. pose proof (par_type _ _ _ _ Hwf0 Hpar) as E. by apply up_type_ne in E. }
  exists g1. split.
  { unfold conf_upd, conf_get. run. rewrite Ecs. done. }
  split.
  - apply (wf_update _ _ v _ y [v0] Hw Ecs).
    + done.
    + apply (adds_links _ _ _ _ Ha).
    + apply (adds_links_typed _ _ _ _ Ha Hv0t), (wf_links_typed _ _ Hw _ _ Ecs).
    + apply (wf_refs_typed _ _ Hw _ _ Ecs).
    + intros r Hr. apply (wf_refs _ _ Hw _ _ r Ecs), elem_of_app. by right.
    + apply NoDup_singleton.
    + by intros r ->%list_elem_of_singleton.
  - apply (mi_fidk _ _ _ _ _ Hm).
  - rewrite Hk1. apply (mi_keys _ _ _ _ _ Hm).
  - apply (mi_vkeys _ _ _ _ _ Hm).
  - apply (mi_dev _ _ _ _ _ Hm).
  - intros x w Hx. destruct (decide (w = v)) as [-> | Hw1].
    + rewrite (od_get_inj V x dev v Hnd Hx Hv) in *. exists (cs ++ [v0]). split; [apply od_get_set_eq|].
      intros u. rewrite elem_of_app, list_elem_of_singleton, Hcs. split.
      * intros [(z & Hz & Hp & Hn) | ->]; [exists z | exists dev0]; rewrite Htops; tauto.
      * intros (z & Hz & Hp & Hn). rewrite Htops in Hn. destruct (decide (z = dev0)) as [-> | Hz0].
        -- right. congruence.
        -- left. exists z. tauto.
    + destruct (mi_objv _ _ _ _ _ Hm _ _ Hx) as (cs1 & E1 & Hcs1). exists cs1.
      rewrite Hget by done. split; [done|]. intros u. rewrite Hcs1.
      split; intros (z & Hz & Hp & Hn); exists z; rewrite Htops in *; split_and!; auto; [tauto|].
      intros Hzt. apply Hn. split; [done|]. intros ->. rewrite Hpar in Hp. congruence.
  - intros x o Hx Hin. destruct (mi_in _ _ _ _ _ Hm _ _ Hx Hin) as (o' & E1 & E2). exists o'.
    split; [done|]. rewrite Hget; [done|]. intros ->. eauto with hare.
  - intros x o Hx Hin Hp. rewrite Hget; [by apply (mi_out _ _ _ _ _ Hm)|]. intros ->. eauto with hare.
  - destruct (mi_pver _ _ _ _ _ Hm) as (sv & E & Hsv). exists sv. rewrite Hget.
    2: { intros E'. rewrite E' in Hpver. eauto with hare. }
    split; [done|]. intros u. rewrite Hsv.
    split; intros (z & Hz & Hp & Hn); exists z; rewrite Htops in *; split_and!; auto; [tauto|].
    intros Hzt. apply Hn. split; [done|]. intros ->.
    pose proof (par_type _ _ _ _ Hwf0 Hpar) as E'. by rewrite Hp in E'.
  - intros x p Hx Hxt Hp. rewrite Htops in Hxt. destruct (decide (x = dev0)) as [-> | Hx0].
    + rewrite Hpar in Hp. injection Hp as <-. eauto with hare.
    + apply (mi_up _ _ _ _ _ Hm x); tauto.
  - intros x Hx Hnd' _. destruct (decide (x = dev)) as [-> | Hxd].
    + exists dev0. rewrite Htops. split_and!; eauto with hare. tauto.
    + destruct (mi_down _ _ _ _ _ Hm x Hx Hnd') as (z & Hz & Hzt & Hp); [naive_solver|].
      exists z. rewrite Htops. tauto.
  - apply (mi_done _ _ _ _ _ Hm).
  - apply (mi_reach _ _ _ _ _ Hm).
Qed.

Lemma mirror_site g tops tops' bare V done x v :
  mirror g tops bare V done -> x ∈ tops -> o_type x = o_site -> od_get x V = Some v ->
  (forall y, y ∈ tops' <-> y ∈ tops /\ y <> x) ->
  exists g1, conf_upd pver (add_sitev v) g = (Ret tt, g1) /\ mirror g1 tops' bare V done.
Proof.
  intros Hm Htop Hxt Hv Htops.
  destruct (mi_pver _ _ _ _ _ Hm) as (sv & Esv & Hsv).
  match type of Esv with _ = Some ?p => set (px := p) in * end.
  set (y := ConfPver (mkPver (pv_data_units p0) (pv_parity_units p0) (pv_spare_units p0)
    (pv_pool_width p0) (pv_tolerance p0) (sv ++ [v]))).
  set (g1 := with_conf (od_set pver y (m0conf g)) g).
  assert (Hk1 : od_keys (m0conf g1) = od_keys (m0conf g)) by (apply od_keys_set_old; eauto with hare).
  assert (Hget : forall k, k <> pver -> od_get k (m0conf g1) = od_get k (m0conf g))
    by (intros k Hk; by apply od_get_set_ne).
  destruct (mirror_values _ _ _ _ _ Hm) as [Hnd Hnew].
  pose proof (mi_wf _ _ _ _ _ Hm) as Hw.
  assert (Hvk : v ∈ od_keys (m0conf g))
    by (rewrite (mi_keys _ _ _ _ _ Hm), elem_of_app; right; by eapply od_get_value).
  assert (Hvt : o_type v = o_objv).
  { destruct (mi_objv _ _ _ _ _ Hm _ _ Hv) as (cs0 & E0 & _). by apply (wf_class _ _ Hw _ _ E0). }
  pose proof (mirror_orphan _ _ _ _ _ _ _ Hm Htop Hv) as Horph.
  pose proof (add_sitev_adds v px y eq_refl) as Ha.
  assert (Hnopar : par c0 x = None).
  { destruct (par c0 x) eqn:E; [| done]. pose proof (par_type _ _ _ _ Hwf0 E) as E'. by rewrite Hxt in E'. }
  exists g1. split.
  { unfold conf_upd, conf_get. run. rewrite Esv. done. }
  split.
  - apply (wf_update _ _ pver _ y [v] Hw Esv).
    + done.
    + apply (adds_links _ _ _ _ Ha).
    + apply (adds_links_typed _ _ _ _ Ha Hvt), (wf_links_typed _ _ Hw _ _ Esv).
    + done.
    + cbn. by intros r ?%elem_of_nil.
    + apply NoDup_singleton.
    + by intros r ->%list_elem_of_singleton.
  - apply (mi_fidk _ _ _ _ _ Hm).
  - rewrite Hk1. apply (mi_keys _ _ _ _ _ Hm).
  - apply (mi_vkeys _ _ _ _ _ Hm).
  - apply (mi_dev _ _ _ _ _ Hm).
  - intros x1 w Hx. destruct (mi_objv _ _ _ _ _ Hm _ _ Hx) as (cs1 & E1 & Hcs1). exists cs1.
    rewrite Hget by (intros ->; rewrite Esv in E1; discriminate).
    split; [done|]. intros u. rewrite Hcs1.
    split; intros (z & Hz & Hp & Hn); exists z; rewrite Htops in *; split_and!; auto; [tauto|].
    intros Hzt. apply Hn. split; [done|]. intros ->. congruence.
  - intros x1 o Hx Hin. destruct (mi_in _ _ _ _ _ Hm _ _ Hx Hin) as (o' & E1 & E2). exists o'.
    split; [done|]. rewrite Hget; [done|]. intros E. destruct (mi_dev _ _ _ _ _ Hm _ Hin) as [_ Hl].
    rewrite E, pver_type in Hl. by apply (bool_decide_pack _) in Hl.
  - intros x1 o Hx Hin Hp. rewrite Hget; [by apply (mi_out _ _ _ _ _ Hm) | done].
  - exists (sv ++ [v]). split; [apply od_get_set_eq|]. intros u.
    rewrite elem_of_app, list_elem_of_singleton, Hsv. split.
    + intros [(z & Hz & Hp & Hn) | ->]; [exists z | exists x]; rewrite Htops; tauto.
    + intros (z & Hz & Hp & Hn). rewrite Htops in Hn. destruct (decide (z = x)) as [-> | Hz0].
      * right. congruence.
      * left. exists z. tauto.
  - intros x1 p Hx Hxt1 Hp. rewrite Htops in Hxt1. apply (mi_up _ _ _ _ _ Hm x1); [done | | done].
    intros Ht. apply Hxt1. split; [done|]. intros ->. congruence.
  - intros x1 Hx Hnd' Hb. destruct (mi_down _ _ _ _ _ Hm x1 Hx Hnd' Hb) as (z & Hz & Hzt & Hp).
    exists z. rewrite Htops. tauto.
  - apply (mi_done _ _ _ _ _ Hm).
  - apply (mi_reach _ _ _ _ _ Hm).
Qed.

(** *** The loops *)
Definition ups (t : ObjT) : list ObjT :=
  match t with
  | o_drive => [o_controller; o_enclosure; o_rack; o_site]
  | o_controller => [o_enclosure; o_rack; o_site]
  | o_enclosure => [o_rack; o_site]
  | o_rack => [o_site]
  | _ => []
  end.

Lemma ups_cons t t' ts : ups t = t' :: ts -> up_type t = Some t' /\ ups t' = ts /\ t' ∈ pver_levels.
Proof. destruct t; intros [= <- <-]; (split_and!; [done | done | by apply (bool_decide_unpack _)]). Qed.

Lemma climb_run types dev0 g V done :
  types = ups (o_type dev0) -> o_type dev0 ∈ pver_levels ->
  mirror g [dev0] None V done -> dev0 ∈ od_keys V ->
  exists V' top rest g1, climb pver types dev0 V g = (Ret (V', top, rest), g1) /\
    (rest <> [] /\ mirror g1 [] None V' done \/
     rest = [] /\ o_type top = o_site /\ top ∈ od_keys V' /\ mirror g1 [top] None V' done).
Proof.
  revert dev0 g V. induction types as [| t types IH]; intros dev0 g V Ht Hlev Hm Hin.
  - exists V, dev0, [], g. split; [done|]. right. split_and!; try done.
    revert Ht Hlev. destruct (o_type dev0); try done; by intros _ ?%(bool_decide_pack _).
  - symmetry in Ht. apply ups_cons in Ht as (Hup & Hts & Htl).
    destruct (mi_dev _ _ _ _ _ Hm _ Hin) as [Hk0 _].
    destruct (wf_par _ _ _ _ Hwf0 Hk0 Hup) as (dev & Hpar & Hdt & Hdk).
    destruct (mirror_parent _ _ _ _ _ _ _ Hm Hpar) as (o & Ho & Hop).
    pose proof Hin as [v0 Hv0]%od_get_key.
    assert (Hne : dev0 <> dev) by (intros ->; rewrite Hdt in Hup; by apply up_type_ne in Hup).
    cbn [climb]. unfold conf_get, virt.
    rewrite bind_gets. erewrite bind_unfold_Ret; [| unfold lift; by rewrite Ho].
    erewrite bind_unfold_Ret; [| unfold lift; by rewrite Hop].
    erewrite bind_unfold_Ret; [| unfold assert; by rewrite (proj2 (is_t_true t dev) Hdt)].
    destruct (decide (dev ∈ od_keys V)) as [Hd | Hd].
    + rewrite (proj2 (od_in_true dev V) Hd). pose proof Hd as [v Hv]%od_get_key.
      destruct (mirror_link _ _ [] _ _ _ _ _ _ _ Hm ltac:(left) Hpar Hv0 Hv ltac:(by left)) as (g1 & Eg & Hm1);
        [set_solver|].
      erewrite bind_unfold_Ret; [| reflexivity]. erewrite bind_unfold_Ret; [| unfold lift; by rewrite Hv0].
      erewrite bind_unfold_Ret; [| unfold lift; by rewrite Hv]. erewrite bind_unfold_Ret; [| exact Eg].
      exists V, dev, types, g1. split; [done|]. left. split; [| done].
      intros ->. destruct (mi_down _ _ _ _ _ Hm dev Hd) as (y & Hy & Hyt & Hyp); [| done |].
      { intros E. rewrite Hdt in E. rewrite E in Hup. revert Hup. by destruct (o_type dev0). }
      apply Hyt. rewrite (Hrack y dev0); [left | by apply (mi_dev _ _ _ _ _ Hm) | done | |].
      * pose proof (par_type _ _ _ _ Hwf0 Hyp) as E. rewrite Hdt in E. clear -E Hts Htl.
        revert E. destruct t; try discriminate Hts; try (by apply (bool_decide_pack _) in Htl).
        by destruct (o_type y).
      * clear -Hup Hts Htl. revert Hup. destruct (o_type dev0); intros [= <-]; done.
    + assert (E : od_in dev V = false)
        by (destruct (od_in dev V) eqn:E; [by apply od_in_true in E | done]).
      rewrite E. clear E.
      assert (Hdd : o_type dev <> o_drive).
      { intros E. rewrite Hdt in E. rewrite E in Hup. revert Hup. by destruct (o_type dev0). }
      destruct (mirror_enter _ _ _ _ dev done Hm) as (v & g1 & Erun & Hm1); try done.
      { by rewrite Hdt. }
      { intros d Hd'. split; [by right|]. intros [-> | ?]; [by rewrite Hd' in Hdd | done]. }
      { destruct (mi_reach _ _ _ _ _ Hm _ Hin) as (d & Hd1 & Hd2). exists d. split; [done|].
        by eapply rtc_r. }
      erewrite bind_unfold_Ret; [| exact Erun].
      assert (Hv0' : od_get dev0 (V ++ [(dev, v)]) = Some v0) by (rewrite od_get_snoc by done; by rewrite decide_False).
      assert (Hv' : od_get dev (V ++ [(dev, v)]) = Some v) by (rewrite od_get_snoc by done; by rewrite decide_True).
      erewrite bind_unfold_Ret; [| unfold lift; by rewrite Hv0'].
      erewrite bind_unfold_Ret; [| unfold lift; by rewrite Hv'].
      destruct (mirror_link _ _ [dev] _ _ _ dev0 dev v0 v Hm1) as (g2 & Eg & Hm2); try done.
      { set_solver. }
      { right. unfold bare_of. by rewrite decide_False. }
      { intros y. rewrite list_elem_of_singleton, !elem_of_cons. set_solver. }
      erewrite bind_unfold_Ret; [| exact Eg].
      apply IH; [by rewrite Hdt | by rewrite Hdt | done | rewrite od_keys_snoc; set_solver].
Qed.

Lemma pver_drive_run g V done drive :
  mirror g [] None V done -> drive ∈ od_keys c0 -> o_type drive = o_drive -> drive ∉ done ->
  exists V' g1, pver_drive pver V drive g = (Ret V', g1) /\ mirror g1 [] None V' (done ++ [drive]).
Proof.
  intros Hm Hk Ht Hnd. assert (Hn : drive ∉ od_keys V) by (by rewrite (mi_done _ _ _ _ _ Hm)).
  assert (Hlev : o_type drive ∈ pver_levels) by (rewrite Ht; by apply (bool_decide_unpack _)).
  destruct (mirror_enter _ _ _ _ drive (done ++ [drive]) Hm Hk Hlev Hn) as (v & g1 & E1 & Hm1).
  { intros d Hd. rewrite elem_of_app, list_elem_of_singleton. tauto. }
  { intros d Hd. apply elem_of_app. by left. }
  { exists drive. split; [set_solver | apply rtc_refl]. }
  unfold bare_of in Hm1. rewrite decide_True in Hm1 by done.
  destruct (climb_run (ups o_drive) drive g1 (V ++ [(drive, v)]) (done ++ [drive]))
    as (V' & top & rest & g2 & E2 & Hrest); [by rewrite Ht | done | done | rewrite od_keys_snoc; set_solver |].
  unfold pver_drive.
  assert (Hin : od_in drive V = false)
    by (destruct (od_in drive V) eqn:E; [by apply od_in_true in E | done]).
  rewrite Hin. erewrite bind_unfold_Ret; [| reflexivity].
  erewrite bind_unfold_Ret; [| exact E1]. erewrite bind_unfold_Ret; [| exact E2].
  destruct Hrest as [[Hne Hm2] | (-> & Htt & Htin & Hm2)].
  - exists V', g2. destruct rest; [done|]. done.
  - apply od_get_key in Htin as [w Hw].
    destruct (mirror_site _ _ [] _ _ _ _ _ Hm2 ltac:(left) Htt Hw) as (g3 & E3 & Hm3); [set_solver|].
    exists V', g3. split; [| done]. erewrite bind_unfold_Ret; [reflexivity|].
    unfold virt. rewrite Hw. erewrite bind_unfold_Ret; [exact E3 | reflexivity].
Qed.

Lemma pver_drives_run drives g V done :
  mirror g [] None V done -> NoDup (done ++ drives) ->
  Forall (fun d => d ∈ od_keys c0 /\ o_type d = o_drive) drives ->
  exists V' g1, fold_m (pver_drive pver) V drives g = (Ret V', g1) /\
    mirror g1 [] None V' (done ++ drives).
Proof.
  revert g V done. induction drives as [| d drives IH]; intros g V done Hm Hnd Hd.
  - exists V, g. by rewrite app_nil_r.
  - apply Forall_cons in Hd as [[Hk Ht] Hd]. assert (Hn : d ∉ done).
    { apply NoDup_app in Hnd as (_ & Hdis & _). intros Hin. by apply (Hdis d Hin), elem_of_cons; left. }
    destruct (pver_drive_run _ _ _ _ Hm Hk Ht Hn) as (V1 & g1 & E1 & Hm1).
    destruct (IH g1 V1 (done ++ [d]) Hm1) as (V2 & g2 & E2 & Hm2); [by rewrite <- app_assoc | done |].
    exists V2, g2. rewrite <- app_assoc in Hm2. split; [| done].
    cbn. by erewrite bind_unfold_Ret.
Qed.
End Mirror.

(** ** The pool version as a whole *)

(** What [ConfPver.build] makes of the configuration [c]: [V] maps devices to
    virtual objects. *)
Record mirrors (c c' : Conf) (pver : Oid) (drives : list Oid) (V : list (Oid * Oid)) : Prop := mkMirrors {
  ms_devices : forall x, x ∈ od_keys V <-> exists d, d ∈ drives /\ rtc (fun a b => par c a = Some b) d x;
  ms_distinct : NoDup (snd <$> V) /\ forall v, v ∈ snd <$> V -> v ∉ od_keys c;
  ms_tree : forall x v, od_get x V = Some v ->
    exists cs, od_get v c' = Some (ConfObjv (mkObjv x cs)) /\ NoDup cs /\
      forall w, w ∈ cs <-> exists y, od_get y V = Some w /\ par c y = Some x;
  ms_sitevs : exists p s v, od_get pver c' = Some (ConfPver p) /\ pv_pool_width p = Z.of_nat (length drives) /\
    pv_sitevs p = [v] /\ od_get s V = Some v /\ o_type s = o_site;
  ms_marked : forall x o, od_get x c = Some o -> x <> pver -> o_type x <> o_pool ->
    exists o', od_get x c' = Some o' /\
      (x ∈ od_keys V -> obj_add_pver pver o = Ret o') /\ (x ∉ od_keys V -> o' = o) }.

Lemma links_NoDup c f o x : wf c f -> od_get o c = Some x -> NoDup (links_of x).
Proof.
  intros Hwf Ho%od_get_elem. pose proof (wf_unique _ _ Hwf) as Hnd.
  apply list_elem_of_split in Ho as (c1 & c2 & ->). rewrite all_links_app in Hnd.
  apply NoDup_app in Hnd as (_ & _ & Hnd). unfold all_links in Hnd. cbn in Hnd.
  by apply NoDup_app in Hnd as (Hnd & _ & _).
Qed.

Lemma one_rack c f : wf c f -> f o_rack <= 1 ->
  forall x y, x ∈ od_keys c -> y ∈ od_keys c -> o_type x = o_rack -> o_type y = o_rack -> x = y.
Proof.
  intros Hwf Hf [tx kx] [ty ky] Hx Hy; cbn; intros -> ->.
  destruct (wf_alloc _ _ Hwf _ Hx) as (i & Hi & Ei). destruct (wf_alloc _ _ Hwf _ Hy) as (j & Hj & Ej).
  cbn in *. f_equal. lia.
Qed.

Lemma singleton_list {A} (l : list A) a : NoDup l -> (forall x, x ∈ l <-> x = a) -> l = [a].
Proof.
  intros Hnd Hl. destruct l as [| b l]; [by pose proof (proj2 (Hl a) eq_refl) as ?%elem_of_nil|].
  apply NoDup_cons in Hnd as [Hb _]. assert (b = a) as -> by (apply Hl; left).
  destruct l as [| b l]; [done|]. exfalso. apply Hb.
  assert (b = a) as -> by (apply Hl; right; left). left.
Qed.

(** The loop over the drives, from a pool version that is not in use. *)
Lemma subtree_run g pver p0 drives :
  let c := m0conf g in
  wf c (ObjT_last_fidk g) -> bounded (ObjT_last_fidk g) -> ObjT_last_fidk g o_rack <= 1 ->
  od_get pver c = Some (ConfPver p0) -> pv_sitevs p0 = [] ->
  pv_pool_width p0 = Z.of_nat (length drives) ->
  (forall x o vs, od_get x c = Some o -> o_type x ∈ pver_levels -> obj_pvers o = Ret vs -> pver ∉ vs) ->
  drives <> [] -> NoDup drives -> Forall (fun d => d ∈ od_keys c /\ o_type d = o_drive) drives ->
  exists V g', build_pver_subtree pver drives g = (Ret V, g') /\
    mirrors c (m0conf g') pver drives V /\ wf (m0conf g') (ObjT_last_fidk g') /\
    (forall t, t <> o_objv -> ObjT_last_fidk g' t = ObjT_last_fidk g t) /\
    (forall o, o ∈ od_keys c -> o ∈ od_keys (m0conf g')) /\
    (forall x o, od_get x c = Some o -> o_type x = o_pool -> od_get x (m0conf g') = Some o).
Proof.
  intros c Hwf Hb Hr Hp Hs Hwidth Hu Hne Hnd Hd.
  pose proof (one_rack _ _ Hwf Hr) as Hrack.
  destruct (pver_drives_run c (ObjT_last_fidk g) pver p0 Hwf Hb Hp Hs Hu Hrack drives g [] [])
    as (V & g' & E & Hm); [by apply mirror_start | done | done |].
  exists V, g'. split.
  { unfold build_pver_subtree.
    rewrite (proj2 (is_t_true o_pver pver) (wf_class _ _ Hwf _ _ Hp)).
    erewrite bind_unfold_Ret; [| reflexivity]. erewrite bind_unfold_Ret; [exact E|].
    unfold assert. destruct drives as [| d ds]; [done|].
    assert (all_t o_drive (d :: ds) = true) as ->; [| done].
    apply forallb_forall. intros x Hx. apply is_t_true. rewrite Forall_forall in Hd.
    by apply Hd, list_elem_of_In. }
  cbn in Hm. destruct (mirror_values _ _ _ _ _ _ _ _ _ Hm) as [Hvd Hvn].
  pose proof (mi_wf _ _ _ _ _ _ _ _ _ Hm) as Hw'.
  pose proof (od_get_in _ _ _ Hp) as Hpk.
  split_and!; [| done | apply (mi_fidk _ _ _ _ _ _ _ _ _ Hm) | |].
  2: { intros o Ho. rewrite (mi_keys _ _ _ _ _ _ _ _ _ Hm). apply elem_of_app. by left. }
  2: { intros x o Hx Ht. apply (mi_out _ _ _ _ _ _ _ _ _ Hm); [done | |].
    - intros [_ Hl]%(mi_dev _ _ _ _ _ _ _ _ _ Hm). rewrite Ht in Hl. by apply (bool_decide_pack _) in Hl.
    - intros ->. rewrite (wf_class _ _ Hwf _ _ Hp) in Ht. done. }
  assert (Hanc : forall x y, rtc (fun a b => par c a = Some b) x y -> x ∈ od_keys V -> y ∈ od_keys V).
  { induction 1 as [| x y z Hxy _ IH]; [done|]. intros Hx. apply IH.
    apply (mi_up _ _ _ _ _ _ _ _ _ Hm x); [done | by apply not_elem_of_nil | done]. }
  assert (Hdv : forall d, d ∈ drives -> d ∈ od_keys V).
  { intros d Hin. apply (mi_done _ _ _ _ _ _ _ _ _ Hm); [| done].
    rewrite Forall_forall in Hd. by apply Hd. }
  split.
  - intros x. split; [apply (mi_reach _ _ _ _ _ _ _ _ _ Hm)|]. intros (d & Hin & Hr'). eauto.
  - done.
  - intros x v Hx. destruct (mi_objv _ _ _ _ _ _ _ _ _ Hm _ _ Hx) as (cs & Ecs & Hcs).
    exists cs. split; [done|]. split.
    + pose proof (links_NoDup _ _ _ _ Hw' Ecs) as Hn. unfold links_of in Hn. cbn in Hn.
      by rewrite app_nil_r in Hn.
    + intros w. rewrite Hcs. split; intros (y & ? & ?); exists y; [tauto|].
      split_and!; try done. apply not_elem_of_nil.
  - destruct (mi_pver _ _ _ _ _ _ _ _ _ Hm) as (sv & Esv & Hsv).
    destruct drives as [| d ds]; [done|].
    assert (Hlev : forall x t, x ∈ od_keys V -> up_type (o_type x) = Some t ->
      exists y, y ∈ od_keys V /\ o_type y = t /\ par c x = Some y).
    { intros x t Hx Ht. destruct (mi_dev _ _ _ _ _ _ _ _ _ Hm _ Hx) as [Hk _].
      destruct (wf_par _ _ _ _ Hwf Hk Ht) as (y & Hy & Hyt & _). exists y. split_and!; try done.
      by apply (mi_up _ _ _ _ _ _ _ _ _ Hm x); [| apply not_elem_of_nil |]. }
    apply Forall_cons in Hd as [[_ Htd] _].
    destruct (Hlev d o_controller) as (x1 & H1 & T1 & _); [apply Hdv; left | by rewrite Htd |].
    destruct (Hlev x1 o_enclosure) as (x2 & H2 & T2 & _); [done | by rewrite T1 |].
    destruct (Hlev x2 o_rack) as (x3 & H3 & T3 & _); [done | by rewrite T2 |].
    destruct (Hlev x3 o_site) as (x4 & H4 & T4 & P4); [done | by rewrite T3 |].
    apply od_get_key in H4 as [v Hv].
    eexists _, x4, v. split; [exact Esv|]. cbn. split_and!; try done.
    apply singleton_list.
    + pose proof (links_NoDup _ _ _ _ Hw' Esv) as Hn. unfold links_of in Hn. cbn in Hn.
      by rewrite app_nil_r in Hn.
    + intros w. rewrite Hsv. split.
      * intros (s & Hs1 & Hs2 & _).
        destruct (mi_down _ _ _ _ _ _ _ _ _ Hm s) as (y & Hy & _ & Hyp);
          [eauto with hare | by rewrite Hs2 | done |].
        pose proof (par_type _ _ _ _ Hwf Hyp) as Ety. rewrite Hs2 in Ety.
        assert (o_type y = o_rack) by (revert Ety; by destruct (o_type y)).
        assert (y = x3) as -> by (apply Hrack; [by apply (mi_dev _ _ _ _ _ _ _ _ _ Hm) ..| done | done]).
        congruence.
      * intros ->. exists x4. split_and!; try done. apply not_elem_of_nil.
  - intros x o Hx Hxp Ht. destruct (decide (x ∈ od_keys V)) as [Hi | Hi].
    + destruct (mi_in _ _ _ _ _ _ _ _ _ Hm _ _ Hx Hi) as (o' & E1 & E2). exists o'. done.
    + exists o. by rewrite (mi_out _ _ _ _ _ _ _ _ _ Hm _ _ Hx Hi Hxp).
Qed.
