(* ===== verification/CfgenPverWf.v ===== *)
(** * Pool versions, pools and profiles keep [m0conf] well-formed ([src/cfgen/cfgen])

    [ConfPver.build] succeeds on the drives of a well-formed configuration and
    builds the mirror of the devices; with it, every method that builds a part of
    the pools subtree keeps the invariant, and so does [build_cluster]. *)

From stdpp Require Import list_numbers.
From S2P Require Import Prelude PyStr Json HaxTypes OrdDict CfgenTypes CfgenBuild.
From S2P Require Import CfgenPools CfgenCluster CfgenInv CfgenWf CfgenMirror.

(** ** Growth alone *)
Record mono (g g' : Gen) : Prop := mkMono {
  mono_count : forall t, ObjT_last_fidk g t <= ObjT_last_fidk g' t;
  mono_single : forall t, single t = true -> ObjT_last_fidk g' t = ObjT_last_fidk g t;
  mono_keys : forall o, o ∈ od_keys (m0conf g) -> o ∈ od_keys (m0conf g') }.

Lemma mono_refl g : mono g g.
Proof. split; auto. intros t. lia. Qed.

Lemma mono_trans g1 g2 g3 : mono g1 g2 -> mono g2 g3 -> mono g1 g3.
Proof.
  intros [C1 R1 K1] [C2 R2 K2]. split; auto.
  - intros t. specialize (C1 t). specialize (C2 t). lia.
  - intros t Ht. rewrite R2, R1; done.
Qed.

Lemma mono_put g o x : mono g (with_conf (od_set o x (m0conf g)) g).
Proof. split; cbn; auto; [intros; lia|]. intros k Hk. apply od_keys_set_elem. by right. Qed.

Lemma mono_alloc g t : single t = false -> mono g (with_fidk (bump t (ObjT_last_fidk g)) g).
Proof. intros Ht. by destruct (ext_alloc g t Ht). Qed.

#[local] Hint Resolve mono_refl mono_put mono_alloc : hare.

(** A computation whose runs only add to the state. *)
Definition grows {A} (m : M Gen A) : Prop := forall g a g', m g = (Ret a, g') -> mono g g'.

Lemma grows_seq {A B} (m : M Gen A) (k : A -> M Gen B) :
  grows m -> (forall a, grows (k a)) -> grows (m ≫= k).
Proof. intros Hm Hk g b g' (a & g1 & H1 & H2)%bind_Ret. eapply mono_trans; [by eapply Hm | by eapply Hk]. Qed.
Lemma grows_mret {A} (a : A) : grows (mret a).
Proof. intros g b g' H. crunch. auto with hare. Qed.
Lemma grows_lift {A} (o : outcome A) : grows (lift o).
Proof. intros g b g' H. crunch. auto with hare. Qed.
Lemma grows_gets {A} (f : Gen -> A) : grows (gets f).
Proof. intros g b g' H. crunch. auto with hare. Qed.
Lemma grows_assert b : grows (assert b).
Proof. intros g u g' H. crunch. auto with hare. Qed.
Lemma grows_put o x : grows (conf_put o x).
Proof. intros g u g' H. crunch. apply mono_put. Qed.
Lemma grows_upd o f : grows (conf_upd o f).
Proof. intros g u g' H. crunch. apply mono_put. Qed.
Lemma grows_new_oid t : single t = false -> grows (new_oid t).
Proof. intros Ht g u g' H. crunch. by apply mono_alloc. Qed.

Ltac solve_grows :=
  repeat first
    [ apply grows_put | apply grows_upd | apply grows_new_oid; reflexivity | apply grows_mret
    | apply grows_lift | apply grows_gets | apply grows_assert | apply grows_seq; [| intros ?]
    | case_match ].

Lemma enter_pver_grows pver dev V : grows (enter_pver pver dev V).
Proof. unfold enter_pver, ConfObjv_build. solve_grows. Qed.

Lemma climb_grows pver types dev0 V : grows (climb pver types dev0 V).
Proof.
  revert dev0 V. induction types as [| t types IH]; intros dev0 V; cbn; [apply grows_mret|].
  do 4 (apply grows_seq; [solve_grows | intros ?]).
  apply grows_seq; [case_match; [apply grows_mret | apply enter_pver_grows] | intros V'].
  do 3 (apply grows_seq; [solve_grows | intros ?]). case_match; [apply grows_mret | apply IH].
Qed.

Lemma pver_drive_grows pver V d : grows (pver_drive pver V d).
Proof.
  unfold pver_drive. apply grows_seq; [solve_grows | intros _].
  apply grows_seq; [apply enter_pver_grows | intros V1].
  apply grows_seq; [apply climb_grows | intros [[V2 top] rest]]. solve_grows.
Qed.

Lemma fold_m_grows {A S} (f : S -> A -> M Gen S) l : (forall s x, grows (f s x)) -> forall s, grows (fold_m f s l).
Proof.
  intros Hf. induction l as [| x l IH]; intros s; cbn; [apply grows_mret|]. by apply grows_seq.
Qed.

Lemma build_pver_subtree_grows pver drives : grows (build_pver_subtree pver drives).
Proof.
  unfold build_pver_subtree. do 2 (apply grows_seq; [solve_grows | intros ?]).
  apply fold_m_grows, pver_drive_grows.
Qed.

Lemma ConfPver_build_grows parent pd drives tol : grows (ConfPver_build parent pd drives tol).
Proof.
  unfold ConfPver_build. do 9 (apply grows_seq; [solve_grows | intros ?]).
  apply grows_seq; [apply build_pver_subtree_grows | intros ?; apply grows_mret].
Qed.

(** ** [ConfPver.build] *)
Lemma pool_adds t o p y :
  t = o_pver \/ t = o_pver_f -> obj_add_pver o (ConfPool p) = Ret y -> adds t o (ConfPool p) y.
Proof.
  intros Ht H. cbn in H. crunch. split; unfold links_of, links_typed; cbn; try done.
  - rewrite ?app_nil_r. solve_Permutation.
  - intros Ho. rewrite forallb_app. cbn.
    assert (child_ok o_pver o = true) as ->.
    { unfold child_ok, is_t. rewrite Ho. by destruct Ht as [-> | ->]. }
    by rewrite !andb_true_r.
Qed.

Lemma level_not_pver x : o_type x ∈ pver_levels -> o_type x <> o_pver /\ o_type x <> o_pool.
Proof. intros H. split; intros E; rewrite E in H; by apply (bool_decide_pack _) in H. Qed.

(** Neither a pool nor a pool version has a device above it. *)
Lemma par_set c o x y : obj_parent x = Raise AttributeError -> par c o = None ->
  par (od_set o x c) y = par c y.
Proof.
  intros Hx Ho. unfold par in *. destruct (decide (y = o)) as [-> | Hne].
  - rewrite od_get_set_eq, Hx. by destruct (od_get o c).
  - by rewrite od_get_set_ne.
Qed.

Lemma rtc_ext {A} (R S : A -> A -> Prop) x y : (forall a b, R a b -> S a b) -> rtc R x y -> rtc S x y.
Proof. intros H. induction 1; [apply rtc_refl | eapply rtc_l; eauto]. Qed.

Lemma par_ext_mirrors c c1 c' pver drives V :
  (forall y, par c1 y = par c y) -> (forall o, o ∈ od_keys c -> o ∈ od_keys c1) ->
  (forall x, o_type x <> o_pool -> x <> pver -> od_get x c1 = od_get x c) ->
  mirrors c1 c' pver drives V -> mirrors c c' pver drives V.
Proof.
  intros Hpar Hk Hget Hm. split.
  - intros x. rewrite (ms_devices _ _ _ _ _ Hm). split; intros (d & Hd & Hr); exists d;
      (split; [done|]); (eapply rtc_ext; [| exact Hr]); cbn; intros a b; by rewrite Hpar.
  - destruct (ms_distinct _ _ _ _ _ Hm) as [H1 H2]. split; [done|]. intros v Hv Hin. by eapply H2, Hk.
  - intros x v Hv. destruct (ms_tree _ _ _ _ _ Hm x v Hv) as (cs & E & Hn & Hcs). exists cs.
    split_and!; try done. intros w. rewrite Hcs. by setoid_rewrite Hpar.
  - apply (ms_sitevs _ _ _ _ _ Hm).
  - intros x o Hx Hne Ht. rewrite <- Hget in Hx by done. by apply (ms_marked _ _ _ _ _ Hm).
Qed.

(** The configuration just before the loop over the drives. *)
Lemma pver_inserted g pool po pver p0 :
  let c := m0conf g in
  let f := ObjT_last_fidk g in
  wf c f -> bounded f -> od_get pool c = Some (ConfPool po) -> pv_sitevs p0 = [] ->
  pver = mkOid o_pver (f o_pver) ->
  let g1 := mkGen (od_set pool (ConfPool (mkPool (po_pvers po ++ [pver]) (po_name po)))
                     (od_set pver (ConfPver p0) c)) (bump o_pver f)
              (dev_idx g) (cuid g) (ep_map g) (tmids g) (pg_other g) (aux_pools g) in
  ext g g1 /\ wf (m0conf g1) (bump o_pver f) /\ pver ∉ od_keys c /\
  od_get pver (m0conf g1) = Some (ConfPver p0) /\
  (forall y, par (m0conf g1) y = par c y) /\
  (forall x, x <> pool -> x <> pver -> od_get x (m0conf g1) = od_get x c) /\
  (forall x o vs, od_get x (m0conf g1) = Some o -> o_type x ∈ pver_levels -> obj_pvers o = Ret vs ->
     pver ∉ vs).
Proof.
  intros c f Hwf Hb Hpool Hs Epv g1.
  assert (Hpt : o_type pool = o_pool) by (by apply (wf_class _ _ Hwf _ _ Hpool)).
  assert (Hpvt : o_type pver = o_pver) by (by rewrite Epv).
  assert (Hne : pver <> pool) by (intros E; rewrite E in Hpvt; congruence).
  assert (Hb1 : bounded (bump o_pver f)) by (unfold bounded; by rewrite !bump_ne).
  pose proof (fresh_oid c f o_pver Hwf Hb1) as Hfresh.
  change (mkOid o_pver _) with (mkOid o_pver (f o_pver)) in Hfresh. rewrite <- Epv in Hfresh.
  assert (E : ext g g1 /\ has g1 o_pver pver).
  { rewrite Epv. apply (ext_child g g1 o_pver (ConfPver p0) pool (ConfPool po)
      (ConfPool (mkPool (po_pvers po ++ [pver]) (po_name po)))); try done.
    - by rewrite Hpt.
    - rewrite od_get_set_ne; [done|]. intros E. rewrite <- E in Hpt. done.
    - intros _ _. split; cbn; unfold links_of, links_typed; cbn; rewrite ?Hs; try done.
      by intros r ?%elem_of_nil.
    - intros _. apply pool_adds; [by left | by rewrite Epv].
    - cbn. by rewrite Epv. }
  destruct E as [E _]. pose proof (ext_wf _ _ E Hb1 Hwf) as Hwf1.
  assert (Hget : forall x, x <> pool -> x <> pver -> od_get x (m0conf g1) = od_get x c).
  { intros x H1 H2. cbn. rewrite !od_get_set_ne by done. done. }
  split_and!; try done.
  - cbn. rewrite od_get_set_ne by done. apply od_get_set_eq.
  - intros y. cbn. rewrite !par_set; try done.
    + unfold par. by rewrite (proj2 (od_get_None _ _) Hfresh).
    + rewrite par_set; [unfold par; by rewrite Hpool | done |].
      unfold par. by rewrite (proj2 (od_get_None _ _) Hfresh).
  - intros x o vs Hx Hlev Hvs Hin. destruct (level_not_pver x Hlev) as [H1 H2].
    rewrite Hget in Hx by (intros ->; congruence).
    assert (Hcls : obj_objt o ∈ pver_levels) by (by rewrite <- (wf_class _ _ Hwf _ _ Hx)).
    destruct (device_pvers o Hcls) as (vs' & E1 & E2). apply Hfresh.
    apply (wf_refs _ _ Hwf x o); [done|]. apply elem_of_app. right. apply E2. congruence.
Qed.

Lemma ConfPver_build_run g pool po pd drives tol :
  let c := m0conf g in
  wf c (ObjT_last_fidk g) -> bounded (ObjT_last_fidk g) -> ObjT_last_fidk g o_rack <= 1 ->
  od_get pool c = Some (ConfPool po) ->
  drives <> [] -> NoDup drives -> Forall (has g o_drive) drives ->
  0 < pd_data_units pd -> 0 <= pd_parity_units pd ->
  spare_ok (pd_parity_units pd) (pd_spare_units pd) = true ->
  Forall (fun n => 0 <= n) (failures_list tol) ->
  exists pver V g', ConfPver_build pool pd drives (Some tol) g = (Ret pver, g') /\
    o_type pver = o_pver /\ pver ∉ od_keys c /\
    mirrors c (m0conf g') pver drives V /\ wf (m0conf g') (ObjT_last_fidk g') /\
    has g' o_pver pver /\ bounded (ObjT_last_fidk g') /\
    forall x y, od_get x c = Some y -> o_type x = o_pool -> od_get x (m0conf g') =
      Some (if decide (x = pool) then ConfPool (mkPool (po_pvers po ++ [pver]) (po_name po)) else y).
Proof.
  intros c Hwf Hb Hr Hpool Hne Hnd Hd Hdu Hpu Hsp Htol.
  set (pver := mkOid o_pver (ObjT_last_fidk g o_pver)).
  set (p0 := mkPver (pd_data_units pd) (pd_parity_units pd) (pd_spare_units pd)
               (Z.of_nat (length drives)) (failures_list tol) []).
  destruct (pver_inserted g pool po pver p0 Hwf Hb Hpool eq_refl eq_refl)
    as (E1 & Hwf1 & Hfresh & Hpv & Hpar & Hget & Hun).
  match type of E1 with ext _ ?g1 => set (g1' := g1) in * end.
  assert (Hpt : o_type pool = o_pool) by (by apply (wf_class _ _ Hwf _ _ Hpool)).
  assert (Hf1 : ObjT_last_fidk g1' = bump o_pver (ObjT_last_fidk g)) by done.
  destruct (subtree_run g1' pver p0 drives) as (V & g' & Erun & Hm & Hwf' & Hf & Hk & Hpo); try done.
  { eapply Forall_impl; [exact Hd|]. intros d [H1 H2]. split; [by apply (ext_keys _ _ E1) | done]. }
  exists pver, V, g'. split.
  - unfold ConfPver_build, ConfPver_init.
    rewrite (proj2 (is_t_true o_pool pool) Hpt).
    erewrite bind_unfold_Ret; [| reflexivity]. erewrite bind_unfold_Ret.
    2: { unfold assert. destruct drives as [| d ds]; [done|].
         assert (all_t o_drive (d :: ds) = true) as ->; [| reflexivity].
         apply forallb_forall. intros x Hx%list_elem_of_In. apply is_t_true.
         rewrite Forall_forall in Hd. by apply Hd. }
    rewrite (proj2 (all_unique_true drives) Hnd). erewrite bind_unfold_Ret; [| reflexivity].
    rewrite (proj2 (Z.ltb_lt _ _) Hdu), (proj2 (Z.leb_le _ _) Hpu), Hsp.
    assert ((0 <? Z.of_nat (length drives)) = true) as ->
      by (apply Z.ltb_lt; destruct drives; [done | cbn; lia]).
    do 3 (erewrite bind_unfold_Ret; [| reflexivity]).
    assert (forallb (fun n => 0 <=? n) (failures_list tol) = true) as ->.
    { apply forallb_forall. intros x Hx%list_elem_of_In. apply Z.leb_le.
      rewrite Forall_forall in Htol. by apply Htol. }
    do 2 (erewrite bind_unfold_Ret; [| reflexivity]).
    erewrite bind_unfold_Ret.
    2: { apply (conf_upd_run _ _ _ (ConfPool po)); [| reflexivity]. cbn [m0conf with_conf with_fidk].
         rewrite od_get_set_ne; [done|]. intros E. rewrite <- E in Hpt. done. }
    erewrite bind_unfold_Ret; [reflexivity | exact Erun].
  - split_and!; try done.
    + eapply par_ext_mirrors; [exact Hpar | apply (ext_keys _ _ E1) | | exact Hm].
      intros x Hx1 Hx2. apply Hget; [intros ->; by rewrite Hpt in Hx1 | done].
    + split; [| done]. apply Hk. cbn. eauto with hare.
    + unfold bounded. rewrite !Hf by done. rewrite !Hf1. by rewrite !bump_ne.
    + intros x y Hx Hxt. apply Hpo; [| done]. cbn. case_decide as Hxp; [subst; by rewrite od_get_set_eq|].
      rewrite od_get_set_ne by done. rewrite od_get_set_ne; [done|]. intros <-. done.
Qed.

Lemma all_t_Forall t l : all_t t l = true -> Forall (fun o => o_type o = t) l.
Proof.
  intros H. apply Forall_forall. intros x Hx%list_elem_of_In. apply is_t_true.
  by apply (proj1 (forallb_forall _ _) H).
Qed.

(** Checked arguments of [ConfPver.__init__] *)
Lemma ConfPver_build_args parent pd drives tol g o g' :
  ConfPver_build parent pd drives (Some tol) g = (Ret o, g') ->
  o_type parent = o_pool /\ drives <> [] /\ NoDup drives /\
  Forall (fun d => o_type d = o_drive) drives /\ 0 < pd_data_units pd /\ 0 <= pd_parity_units pd /\
  spare_ok (pd_parity_units pd) (pd_spare_units pd) = true /\
  Forall (fun n => 0 <= n) (failures_list tol) /\ has g' o_pver o /\
  exists x, od_get parent (m0conf g) = Some x.
Proof.
  unfold ConfPver_build, ConfPver_init. intros H. crunch.
  match goal with H : build_pver_subtree _ _ _ = _ |- _ =>
    pose proof (build_pver_subtree_grows _ _ _ _ _ H) as M end.
  destruct drives as [| d ds]; [discriminate|].
  split_and!; try done.
  - by apply is_t_true.
  - by apply all_unique_true.
  - by apply all_t_Forall.
  - by apply Z.ltb_lt.
  - by apply Z.leb_le.
  - apply Forall_forall. intros n Hn%list_elem_of_In. apply Z.leb_le.
    apply (proj1 (forallb_forall (fun n => 0 <=? n) (failures_list tol))); [assumption | exact Hn].
  - split; [| done]. apply (mono_keys _ _ M). cbn. apply od_keys_set_elem. right. apply od_keys_set_elem. by left.
  - match goal with H : od_get parent _ = Some _ |- _ => rewrite od_get_set_ne in H; [eauto|] end.
    intros <-. match goal with H : is_t _ _ = true |- _ => apply is_t_true in H end. done.
Qed.

(** The mirrored devices are no roots. *)
Lemma mirrors_keep_roots g c' pver drives V :
  wf (m0conf g) (ObjT_last_fidk g) ->
  pver ∉ od_keys (m0conf g) -> mirrors (m0conf g) c' pver drives V -> keeps_roots (m0conf g) c'.
Proof.
  intros Hwf Hp Hm o x Hx Ht. pose proof (wf_class _ _ Hwf _ _ Hx) as Hc. rewrite Ht in Hc.
  destruct (ms_marked _ _ _ _ _ Hm o x Hx) as (y & Hy & Hin & Hout).
  { intros ->. apply Hp. by eapply od_get_in. }
  { congruence. }
  destruct (decide (o ∈ od_keys V)) as [Ho | Ho].
  - specialize (Hin Ho). destruct x; cbn in Ht, Hin; discriminate.
  - rewrite (Hout Ho) in *. by exists x.
Qed.

Lemma ConfPver_build_ext parent pd drives tol g o g' :
  ConfPver_build parent pd drives (Some tol) g = (Ret o, g') ->
  (wf (m0conf g) (ObjT_last_fidk g) -> Forall (fun d => d ∈ od_keys (m0conf g)) drives) ->
  ObjT_last_fidk g o_rack <= 1 -> ext g g' /\ has g' o_pver o.
Proof.
  intros H Hd Hr. destruct (ConfPver_build_args _ _ _ _ _ _ _ H)
    as (Ht & Hne & Hnd & Hdt & H1 & H2 & H3 & H4 & Ho & x & Hx).
  pose proof (ConfPver_build_grows _ _ _ _ _ _ _ H) as [C R K].
  split; [| done].
  assert (Hrun : bounded (ObjT_last_fidk g') -> wf (m0conf g) (ObjT_last_fidk g) ->
    wf (m0conf g') (ObjT_last_fidk g') /\ keeps_roots (m0conf g) (m0conf g')); [| split; [done | done | done | ..]; intros; by apply Hrun].
  intros Hb Hwf.
  assert (Hb0 : bounded (ObjT_last_fidk g)) by (by eapply bounded_mono).
  pose proof (wf_class _ _ Hwf _ _ Hx) as Hc. rewrite Ht in Hc. destruct x; try discriminate.
  destruct (ConfPver_build_run g parent x pd drives tol) as (pver & V & g1 & E & _ & Hf & Hm & Hw & _); try done.
  { specialize (Hd Hwf). rewrite Forall_forall in *. intros d Hin. split; auto. }
  rewrite E in H. injection H as _ <-. split; [done|]. by eapply mirrors_keep_roots.
Qed.

Lemma ConfPverF_build_ext parent base allowance g o g' :
  ConfPverF_build parent base allowance g = (Ret o, g') -> base ∈ od_keys (m0conf g) ->
  ext g g' /\ has g' o_pver_f o.
Proof.
  unfold ConfPverF_build, ConfPverF_init, next_cuid. intros H Hb. crunch.
  pose proof (proj1 (is_t_true _ _) H0) as Hpt.
  match goal with H : od_get parent _ = Some _ |- _ => rename H into Hx end.
  eapply ext_child with (g' := _) (p := parent).
  - reflexivity.
  - by rewrite Hpt.
  - exact Hx.
  - intros _ _. split; cbn; try done. by intros r ->%list_elem_of_singleton.
  - intros Hwf. rewrite od_get_set_ne in Hx by (by intros <-).
    pose proof (wf_class _ _ Hwf _ _ Hx) as Hc. rewrite Hpt in Hc.
    match goal with H : obj_add_pver _ ?x = Ret _ |- _ => destruct x; try discriminate Hc end.
    eapply pool_adds; [by right | eassumption].
  - reflexivity.
  - reflexivity.
Qed.

(** ** What the selections read *)
Lemma mapM_inv {A B} (f : A -> outcome B) l ys :
  mapM f l = Ret ys -> Forall2 (fun x y => f x = Ret y) l ys.
Proof.
  revert ys. induction l as [| x l IH]; intros ys H; cbn in H; crunch; [constructor|].
  constructor; auto.
Qed.

Lemma mapM_elem {A B} (f : A -> outcome B) l ys y :
  mapM f l = Ret ys -> y ∈ ys -> exists x, x ∈ l /\ f x = Ret y.
Proof.
  intros H%mapM_inv. induction H as [| x z l ys E _ IH]; [by intros ?%elem_of_nil|].
  intros [-> | Hy]%elem_of_cons; [exists x; split; [left | done]|].
  destruct (IH Hy) as (x' & Hx' & E'). exists x'. split; [by right | done].
Qed.

Lemma concat_o_elem {A B} (f : A -> outcome (list B)) l ys y :
  concat_o f l = Ret ys -> y ∈ ys -> exists x yx, x ∈ l /\ f x = Ret yx /\ y ∈ yx.
Proof.
  unfold concat_o. intros H Hy. crunch.
  apply list_elem_of_In, in_concat in Hy as (yx & H1 & H2).
  apply list_elem_of_In in H1, H2. destruct (mapM_elem _ _ _ _ H0 H1) as (a & Ha & E). eauto.
Qed.

Lemma concat_o_in {A B} (g : A -> outcome (list B)) l ys x :
  concat_o g l = Ret ys -> x ∈ l -> exists y, g x = Ret y /\ forall b, b ∈ y -> b ∈ ys.
Proof.
  unfold concat_o. intros H Hx. crunch. apply mapM_inv in H0.
  apply list_elem_of_split in Hx as (l1 & l2 & ->).
  apply Forall2_app_inv_l in H0 as (ys1 & ys2 & _ & E & ->). inversion E as [| ? y ? ? Hy _]; subst.
  exists y. split; [done|]. intros b Hb'. rewrite concat_app. cbn. set_solver.
Qed.

Lemma conf_as_inv {A} (as_ : Obj -> outcome A) c o a :
  conf_as as_ c o = Ret a -> exists x, od_get o c = Some x /\ as_ x = Ret a.
Proof. unfold conf_as. intros H. crunch. eauto. Qed.

Lemma conf_keys_of_elem t c o : o ∈ conf_keys_of t c <-> o ∈ od_keys c /\ o_type o = t.
Proof.
  unfold conf_keys_of. rewrite list_elem_of_In, filter_In, <- list_elem_of_In, is_t_true. done.
Qed.

Lemma dict_of_items {K V} `{EqDecision K} (items d : list (K * V)) k v :
  od_get k (foldl (fun d kv => od_set kv.1 kv.2 d) d items) = Some v ->
  (k, v) ∈ items \/ od_get k d = Some v.
Proof.
  revert d. induction items as [| [k1 v1] items IH]; intros d; cbn; [by right|].
  intros [H | H]%IH; [by left; right|]. apply od_get_set_inv in H as [[-> ->] | [_ H]]; [| by right].
  left. by left.
Qed.

Section Reads.
Context (c : Conf) (f : ObjT -> Z) (Hwf : wf c f).

Lemma ctrl_drives_keys o k d : conf_as as_ctrl c o = Ret k -> d ∈ c_drives k -> d ∈ od_keys c.
Proof using Hwf.
  intros (x & Hx & E)%conf_as_inv Hd. destruct x; try discriminate. injection E as ->.
  apply (wf_refs _ _ Hwf _ _ d Hx), elem_of_app. left. unfold links_of. cbn. by rewrite app_nil_r.
Qed.

Lemma pool_drives_with_nodes_keys l d n :
  pool_drives_with_nodes c = Ret l -> (d, n) ∈ l -> d ∈ od_keys c.
Proof using Hwf.
  unfold pool_drives_with_nodes. intros H Hin. crunch.
  destruct (concat_o_elem _ _ _ _ H0 Hin) as (e & l1 & _ & E1 & Hl1). crunch.
  destruct (concat_o_elem _ _ _ _ E1 Hl1) as (k & l2 & _ & E2 & Hl2). crunch.
  apply list_elem_of_fmap in Hl2 as (d' & [= -> ->] & Hd). by eapply ctrl_drives_keys.
Qed.

Lemma ref_targets_sub drives ref l dn : ref_targets c drives ref = Ret l -> dn ∈ l -> dn ∈ drives.
Proof using.
  unfold ref_targets. intros H Hin. destruct (concat_o_elem _ _ _ _ H Hin) as (x & l1 & Hx & E & H1).
  crunch. case_match; crunch; [by apply list_elem_of_singleton in H1 as -> | by apply elem_of_nil in H1].
Qed.

Lemma pool_drives_keys p l : pool_drives c p = Ret l -> Forall (fun d => d ∈ od_keys c) l.
Proof using Hwf.
  unfold pool_drives. intros H. crunch. apply Forall_forall. intros d Hd. destruct x.
  - crunch. apply list_elem_of_fmap in Hd as ([d' n] & -> & Hd).
    destruct x; [by eapply pool_drives_with_nodes_keys|]. crunch.
    unfold pool_drives_from_references in H1. crunch. case_match; crunch; try discriminate.
    destruct (concat_o_elem _ _ _ _ H3 Hd) as (r & l1 & _ & E1 & Hd1). crunch.
    match goal with H : ref_targets _ _ _ = _ |- _ =>
      pose proof (ref_targets_sub _ _ _ _ H Hd1) as Hin end.
    rewrite elem_of_remove_dups in Hin. exact (pool_drives_with_nodes_keys _ d' n H2 Hin).
  - destruct (mapM_elem _ _ _ _ H Hd) as (k & _ & E). unfold last_drive in E. crunch.
    case_match eqn:El; crunch. eapply ctrl_drives_keys; [eassumption|].
    apply last_Some in El as (l' & ->). apply elem_of_app. right. by left.
  - destruct (mapM_elem _ _ _ _ H Hd) as (k & _ & E). unfold first_drive, index_get in E. crunch.
    case_match eqn:El; crunch. eapply ctrl_drives_keys; [eassumption|].
    by eapply list_elem_of_lookup_2.
Qed.

Lemma profile_pools_keys parent root names l :
  conf_as as_root c parent = Ret root -> profile_pools c root names = Ret l ->
  forall o, o ∈ l -> o ∈ od_keys c.
Proof using Hwf.
  intros (x & Hx & E)%conf_as_inv. destruct x; try discriminate. injection E as ->.
  assert (Hr : forall r, r ∈ links_of (ConfRoot root) ++ other_refs (ConfRoot root) -> r ∈ od_keys c)
    by (intros r; by apply (wf_refs _ _ Hwf parent)).
  unfold profile_pools, profile_pool_ids. intros H o Ho. crunch.
  assert (Hp : forall o, o ∈ x0 -> o ∈ od_keys c).
  { intros o' Ho'. destruct (mapM_elem _ _ _ _ H1 Ho') as (n & _ & E).
    unfold dict_get in E. case_match eqn:Eg; crunch.
    destruct (dict_of_items _ _ _ _ Eg) as [Hin | ?]; [| done].
    destruct (concat_o_elem _ _ _ _ H5 Hin) as (k & l1 & Hk & E1 & Hl1). crunch.
    destruct (po_name _); [| by apply elem_of_nil in Hl1].
    case_bool_decide; [| by apply elem_of_nil in Hl1].
    apply list_elem_of_singleton in Hl1 as [= -> ->]. by apply conf_keys_of_elem in Hk as [Hk _]. }
  assert (Hd : x3 ∈ od_keys c).
  { unfold index_get in H4. destruct (x1 !! 0%nat) eqn:Ei; crunch. apply list_elem_of_lookup_2 in Ei.
    destruct (concat_o_elem _ _ _ _ H2 Ei) as (k & l1 & Hk & E1 & Hl1). crunch.
    destruct (r_imeta_pver root); [| by apply elem_of_nil in Hl1].
    case_bool_decide; [| by apply elem_of_nil in Hl1]. apply list_elem_of_singleton in Hl1 as ->.
    apply Hr, elem_of_app. left. unfold links_of. cbn. set_solver. }
  destruct (r_mdpool root) as [o0 |] eqn:Em; crunch.
  assert (Hm : o0 ∈ od_keys c) by (apply Hr; cbn; rewrite Em; set_solver).
  revert Ho. repeat case_bool_decide; rewrite ?elem_of_app, ?list_elem_of_singleton; naive_solver.
Qed.
End Reads.
