(* ===== verification/CfgenClusterWf.v ===== *)
(** * The built configuration is well-formed ([src/cfgen/cfgen])

    Pools, profiles, FDMI filters, nodes and the whole of [build_cluster] keep the
    invariant [wf]; a well-formed configuration passes [validate_m0conf]. *)

From stdpp Require Import list_numbers.
From S2P Require Import Prelude PyStr Json HaxTypes OrdDict CfgenTypes CfgenBuild.
From S2P Require Import CfgenPools CfgenCluster CfgenInv CfgenWf CfgenMirror CfgenPverWf CfgenDemo.

(** ** Pools and profiles *)
Definition rack1 (g : Gen) : Prop := ObjT_last_fidk g o_rack <= 1.

Lemma rack1_stable : stable rack1.
Proof. intros g g' E. unfold rack1. by rewrite (ext_single _ _ E o_rack eq_refl). Qed.
#[export] Hint Resolve rack1_stable : hare.

(** [set_imeta_pver], [set_mdpool] and [set_mdredundancy] link nothing. *)
Lemma set_imeta_pver_ext root pver g u g' :
  conf_upd root (set_imeta_pver pver) g = (Ret u, g') -> has g o_pver pver -> ext g g'.
Proof.
  intros H [Hk Ht]. eapply ext_touch; [exact H|]. intros x y Hx Hwf Hy.
  unfold set_imeta_pver, as_root in Hy. destruct x; crunch. split_and!; try done.
  - pose proof (wf_refs_typed _ _ Hwf _ _ Hx) as Hr. cbn in *. rewrite andb_true_iff in *.
    rewrite (proj2 (is_t_true _ _) Ht). tauto.
  - cbn. intros r. rewrite !elem_of_app, list_elem_of_singleton. intros [? | ->]; tauto.
  - cbn. case_match; [discriminate|]. set_solver.
Qed.

Lemma set_mdpool_ext root pool g u g' :
  conf_upd root (set_mdpool pool) g = (Ret u, g') -> has g o_pool pool -> ext g g'.
Proof.
  intros H [Hk Ht]. eapply ext_touch; [exact H|]. intros x y Hx Hwf Hy.
  unfold set_mdpool, as_root in Hy. destruct x; crunch. split_and!; try done.
  - pose proof (wf_refs_typed _ _ Hwf _ _ Hx) as Hr. cbn in *. rewrite andb_true_iff in *.
    rewrite (proj2 (is_t_true _ _) Ht). tauto.
  - cbn. intros r. rewrite !elem_of_cons, !elem_of_app. intros [-> | ?]; tauto.
  - cbn. case_match; [discriminate|]. set_solver.
Qed.

Lemma set_mdredundancy_ext root n g u g' :
  conf_upd root (set_mdredundancy n) g = (Ret u, g') -> ext g g'.
Proof.
  intros H. eapply ext_touch; [exact H|]. intros x y Hx Hwf Hy.
  unfold set_mdredundancy, as_root in Hy. destruct x; crunch. split_and!; try done.
  - apply (wf_refs_typed _ _ Hwf _ _ Hx).
  - auto.
Qed.

Lemma ConfPool_build_ext {N} parent p (desc : ClusterDesc N) g o g' :
  ConfPool_build parent p desc g = (Ret o, g') -> rack1 g -> ext g g'.
Proof.
  unfold ConfPool_build, ConfPool_init. intros H Hr. crunch.
  match type of H11 with ConfPver_build ?po _ _ _ ?gs = _ =>
    assert (E1 : ext g gs /\ has gs o_pool po) by solve_build add_pool_adds;
    change (od_set parent _ _) with (m0conf gs) in H7;
    revert E1 H7 H11 H12; generalize gs po; intros gm pool E1 H7 H11 H12
  end.
  destruct E1 as [E1 Hp].
  destruct (ConfPver_build_ext _ _ _ _ _ _ _ H11) as [E2 Hv].
  { intros Hwf. by eapply pool_drives_keys. }
  { by apply (rack1_stable _ _ E1). }
  pose proof (ext_trans _ _ _ E1 E2) as E12. eapply ext_trans; [exact E12|].
  destruct x15.
  - case_match; crunch; [| auto with hare].
    eapply (for_each_ext (fun g => has g o_pver x21)); [auto with hare | | exact H12 | done].
    intros v g1 u1 g1' _ Hb [Hk _]. apply bind_Ret in Hb as (a & g2 & Hb & Hu). crunch.
    by destruct (ConfPverF_build_ext _ _ _ _ _ _ Hb Hk).
  - by eapply set_imeta_pver_ext.
  - eapply set_mdpool_ext; [exact H12 | exact (has_ext _ _ _ _ E2 Hp)].
Qed.

Lemma ConfProfile_build_ext parent prof g o g' :
  ConfProfile_build parent prof g = (Ret o, g') -> ext g g' /\ has g' o_profile o.
Proof.
  unfold ConfProfile_build, ConfProfile_init. intros H. crunch.
  open_build add_profile_adds. split; cbn; try done.
  intros r Hr. by eapply profile_pools_keys.
Qed.

(** No client is ever recorded in [other_clients]: a filter cannot be built. *)
Lemma ConfFdmiFltGrp_build_fails parent d g :
  is_t o_root parent = true ->
  (ConfFdmiFltGrp_build parent d [] g).1 = Raise (KeyError (ff_node d)).
Proof. intros E. unfold ConfFdmiFltGrp_build, ConfFdmiFilter_build. run. rewrite E. done. Qed.

Lemma build_fdmi_ext root l g u g' :
  for_each l (fun f => ConfFdmiFltGrp_build root f [] ;; mret tt) g = (Ret u, g') -> ext g g'.
Proof.
  apply for_each_ext0. intros f g1 u1 g1' H. exfalso. apply bind_Ret in H as (a & g2 & H & _).
  destruct (is_t o_root root) eqn:E.
  - pose proof (ConfFdmiFltGrp_build_fails root f g1 E) as E1. by rewrite H in E1.
  - unfold ConfFdmiFltGrp_build in H. crunch. congruence.
Qed.

(** ** Nodes *)
Lemma add_default_port_ext port o g o' g' : add_default_port port o g = (Ret o', g') -> ext g g'.
Proof. unfold add_default_port. intros H. destruct o; crunch; [auto with hare | by apply ext_same]. Qed.

Lemma build_ctrls_ext encl servers g l g' :
  build_ctrls encl servers g = (Ret l, g') ->
  ext g g' /\ Forall (fun od => forall c, od.1 = Some c -> has g' o_controller c) l.
Proof.
  intros H. unfold build_ctrls in H.
  eapply (map_m_ext (fun _ (od : option Oid * Server) g => forall c, od.1 = Some c -> has g o_controller c)
    _ servers (fun _ => True)) in H as [E F]; [| auto with hare | auto with hare | | done].
  - split; [done|]. clear -F. induction F; constructor; auto.
  - intros m0d g1 y g1' Hy _. destruct (sv_io_disks m0d); crunch; [by split; auto with hare|].
    destruct (ConfController_build_ext _ _ _ _ Hy0) as [E1 Hc]. split; [done|]. by intros c [= <-].
Qed.

Lemma build_node_ext root rack acc node g acc' g' :
  build_node root rack acc node g = (Ret acc', g') -> ext g g'.
Proof.
  unfold build_node. intros H. crunch.
  destruct (ConfNode_build_ext _ _ _ _ _ H0) as [E1 Hn].
  destruct (ConfEnclosure_build_ext _ _ _ _ _ H1 Hn) as [E2 _].
  destruct (build_ctrls_ext _ _ _ _ _ H2) as [E3 Hc].
  apply add_default_port_ext in H3, H4.
  destruct (ConfProcess_build_ext _ _ _ _ _ _ _ _ _ _ H5) as [E6 _]; [done|].
  assert (Hc' : forall od, od ∈ x3 -> forall c, od.1 = Some c -> has x10 o_controller c).
  { intros od Hod c Ho. rewrite Forall_forall in Hc.
    eapply has_ext; [exact E6|]. eapply has_ext; [exact H4|]. eapply has_ext; [exact H3|]. by eapply Hc. }
  assert (E7 : ext x10 x12).
  { eapply (for_each_ext (fun g => forall od, od ∈ x3 -> forall c, od.1 = Some c -> has g o_controller c));
      [auto with hare | | exact H6 | exact Hc'].
    intros od g1 u1 g1' Hod Hb Hcc. unfold build_server in Hb. apply bind_Ret in Hb as (a & g2 & Hb & Hu).
    crunch. destruct (ConfProcess_build_ext _ _ _ _ _ _ _ _ _ _ Hb) as [E _]; [| done].
    by apply Hcc. }
  assert (E8 : ext x12 x14).
  { eapply (fold_m_ext (fun _ _ => True)) in H7 as [E _]; [exact E | auto with hare | | done].
    intros cl client g1 cl' g1' _ Hb _. eapply (fold_m_ext (fun _ _ => True)) in Hb; [exact Hb | auto with hare | | done].
    intros cl1 z g2 cl2 g2' _ Hb1 _. unfold build_client in Hb1.
    apply bind_Ret in Hb1 as (proc & g3 & Hb1 & Hb2). crunch. split; [| done].
    destruct (ConfProcess_build_ext _ _ _ _ _ _ _ _ _ _ Hb1) as [E _]; [done|].
    eapply ext_trans; [exact E | by apply ext_alloc]. }
  repeat (eapply ext_trans; [eassumption|]). auto with hare.
Qed.

(** ** The cluster *)
Section Cluster.
Context (list_set : list (option string) -> list (option string)).

Lemma aux_pool_list_ext pool disks g u g' : aux_pool_list list_set pool disks g = (Ret u, g') -> ext g g'.
Proof.
  unfold aux_pool_list. intros H. crunch. case_match; crunch; by apply ext_same.
Qed.

Lemma build_one_pool_ext root pool (desc : ClusterDesc Node) g u g' :
  (ConfPool_build root pool desc ;; mret tt) g = (Ret u, g') -> rack1 g -> ext g g'.
Proof. intros H Hr. apply bind_Ret in H as (a & g1 & H & Hu). crunch. by eapply ConfPool_build_ext. Qed.

Lemma build_pools_ext root desc g u g' : build_pools list_set root desc g = (Ret u, g') -> rack1 g -> ext g g'.
Proof.
  unfold build_pools, build_pools_aux. intros H Hr. destruct (cd_create_aux desc).
  - apply bind_Ret in H as (a & g1 & H1 & H). apply bind_Ret in H as (aux & g2 & H2 & H). crunch.
    assert (E1 : ext g g1).
    { eapply (for_each_ext rack1); [auto with hare | | exact H1 | done].
      intros pool g3 u3 g3' _ Hb Hr3. apply bind_Ret in Hb as (t & g4 & Ht & Hb). crunch.
      case_decide; [by eapply aux_pool_list_ext | by eapply build_one_pool_ext]. }
    eapply ext_trans; [exact E1|].
    eapply (for_each_ext rack1); [auto with hare | | exact H | by eapply rack1_stable].
    intros pool g3 u3 g3' _ Hb Hr3. apply bind_Ret in Hb as (t & g4 & Ht & Hb). crunch.
    case_decide; [by eapply build_one_pool_ext | crunch; auto with hare].
  - eapply (for_each_ext rack1); [auto with hare | | exact H | done].
    intros pool g3 u3 g3' _ Hb Hr3. eapply build_one_pool_ext; [exact Hb | exact Hr3].
Qed.

Lemma build_default_pools_ext root desc g u g' :
  build_default_pools root desc g = (Ret u, g') -> rack1 g -> ext g g'.
Proof.
  unfold build_default_pools, root_of. intros H Hr.
  apply bind_Ret in H as (r & g1 & H1 & H). apply bind_Ret in H as (a & g2 & H2 & H).
  apply bind_Ret in H as (r' & g3 & H3 & H). crunch.
  assert (E2 : ext g g2) by (destruct (r_imeta_pver r); [crunch; auto with hare | by eapply build_one_pool_ext]).
  eapply ext_trans; [exact E2|].
  destruct (r_mdpool r'); [crunch; auto with hare|].
  eapply build_one_pool_ext; [exact H | by eapply rack1_stable].
Qed.

Lemma build_profiles_ext root desc g u g' : build_profiles root desc g = (Ret u, g') -> ext g g'.
Proof.
  unfold build_profiles. intros H. apply bind_Ret in H as (profs & g1 & H1 & H). crunch.
  revert H. apply for_each_ext0. intros prof g2 u2 g2' H.
  apply bind_Ret in H as (aux & g3 & H3 & H). apply bind_Ret in H as (o & g4 & H4 & H). crunch.
  by destruct (ConfProfile_build_ext _ _ _ _ _ H4).
Qed.

(** *** From the start *)
Lemma wf_gen0 : wf (m0conf gen0) (ObjT_last_fidk gen0).
Proof.
  split; cbn; try done; [constructor | by intros o ?%elem_of_nil | constructor].
Qed.

Lemma ConfRoot_build_wf g o g' :
  ConfRoot_build g = (Ret o, g') ->
  (forall t, ObjT_last_fidk g' t = bump o_root (ObjT_last_fidk g) t) /\ has g' o_root o /\
  (bounded (ObjT_last_fidk g') -> wf (m0conf g) (ObjT_last_fidk g) -> wf (m0conf g') (ObjT_last_fidk g')).
Proof.
  unfold ConfRoot_build, ConfRoot_init. intros H. crunch. split_and!.
  - done.
  - split; [| done]. cbn. apply od_keys_set_elem. by left.
  - intros Hb Hwf. cbn. apply (wf_insert _ _ o_root); try done. cbn. by intros r ?%elem_of_nil.
Qed.

Lemma ConfRack_build_wf parent g o g' :
  ConfRack_build parent g = (Ret o, g') ->
  (forall t, ObjT_last_fidk g' t = bump o_rack (ObjT_last_fidk g) t) /\
  (forall k, k ∈ od_keys (m0conf g) -> k ∈ od_keys (m0conf g')) /\
  (bounded (ObjT_last_fidk g') -> wf (m0conf g) (ObjT_last_fidk g) -> wf (m0conf g') (ObjT_last_fidk g')).
Proof.
  unfold ConfRack_build, ConfRack_init. intros H. crunch. split_and!.
  - done.
  - intros k Hk. cbn. apply od_keys_set_elem. right. apply od_keys_set_elem. by right.
  - match goal with |- _ -> _ -> wf ?c ?f => change (bounded (ObjT_last_fidk (with_fidk f (with_conf c g))) ->
      wf (m0conf g) (ObjT_last_fidk g) -> wf (m0conf (with_fidk f (with_conf c g))) (ObjT_last_fidk (with_fidk f (with_conf c g)))) end.
    eapply child_wf with (t := o_rack) (p := parent).
    + eapply is_t_ne; [eassumption | discriminate].
    + eassumption.
    + intros ? ?. solve_newborn.
    + intros ?. eapply set_racks_adds; eassumption.
    + reflexivity.
    + reflexivity.
Qed.

(** *** The root *)

(** The root has its pool version of the meta-data index and its meta-data pool. *)
Definition root_set (c : Conf) (o : Oid) : Prop :=
  exists r, od_get o c = Some (ConfRoot r) /\ r_imeta_pver r <> None /\ r_mdpool r <> None.

Lemma opt_list_elem {A} (o : option A) : o <> None <-> exists a, a ∈ opt_list o.
Proof.
  destruct o as [a |]; split; try done; [intros _; exists a; set_solver | by intros [a ?%elem_of_nil]].
Qed.

Lemma opt_list_typed t o v : all_t t (opt_list o) = true -> v ∈ opt_list o -> o_type v = t.
Proof. intros H%all_t_Forall. rewrite Forall_forall in H. auto. Qed.

(** The two references of a root, told apart by their types *)
Lemma root_refs c f o r : wf c f -> od_get o c = Some (ConfRoot r) ->
  (r_imeta_pver r <> None <-> exists v, v ∈ other_refs (ConfRoot r) /\ o_type v = o_pver) /\
  (r_mdpool r <> None <-> exists v, v ∈ other_refs (ConfRoot r) /\ o_type v = o_pool).
Proof.
  intros Hwf Ho. pose proof (wf_refs_typed _ _ Hwf _ _ Ho) as Ht. cbn in Ht.
  apply andb_true_iff in Ht as [Hm Hi]. rewrite !opt_list_elem. cbn.
  split; (split; [intros [v Hv]; exists v; split; [set_solver | by eapply opt_list_typed]|]);
    intros (v & [Hv | Hv]%elem_of_app & Hvt).
  - apply (opt_list_typed _ _ _ Hm) in Hv. congruence.
  - by exists v.
  - by exists v.
  - apply (opt_list_typed _ _ _ Hi) in Hv. congruence.
Qed.

Lemma root_grows g g' o r : ext g g' -> bounded (ObjT_last_fidk g') -> wf (m0conf g) (ObjT_last_fidk g) ->
  od_get o (m0conf g) = Some (ConfRoot r) ->
  exists r', od_get o (m0conf g') = Some (ConfRoot r') /\
    (r_imeta_pver r <> None -> r_imeta_pver r' <> None) /\ (r_mdpool r <> None -> r_mdpool r' <> None).
Proof.
  intros E Hb Hwf Ho. destruct (ext_roots _ _ E Hb Hwf o _ Ho eq_refl) as (y & Hy & Hty & Hr).
  destruct y as [r' | | | | | | | | | | | | | | | |]; try discriminate. exists r'. split; [done|].
  destruct (root_refs _ _ _ _ Hwf Ho) as [I1 M1].
  destruct (root_refs _ _ _ _ (ext_wf _ _ E Hb Hwf) Hy) as [I2 M2].
  rewrite I1, I2, M1, M2. split; intros (v & Hv & Ht); exists v; auto.
Qed.

Lemma ConfPool_build_root {N} root p (desc : ClusterDesc N) g o g' t :
  ConfPool_build root p desc g = (Ret o, g') -> pool_type p = Ret t -> t <> pool_sns ->
  exists r, od_get root (m0conf g') = Some (ConfRoot r) /\
    match t with pool_dix => r_imeta_pver r <> None | _ => r_mdpool r <> None end.
Proof.
  unfold ConfPool_build. intros H Ht Hs. repeat (apply bind_Ret in H as (? & ? & ? & H)).
  match goal with Hl : lift (pool_type p) _ = _ |- _ => rewrite Ht in Hl; apply lift_Ret_inv in Hl as [[= <-] _] end.
  apply mret_inv in H as [_ ->].
  match goal with Hu : match t with _ => _ end _ = _ |- _ => rename Hu into Hupd end.
  destruct t; [done | ..]; cbv iota in Hupd; apply conf_upd_inv in Hupd as (xr & y & Hx & Hy & ->);
    unfold set_imeta_pver, set_mdpool, as_root in Hy; destruct xr; try discriminate; crunch;
    eexists; cbn; rewrite od_get_set_eq; (split; [reflexivity | done]).
Qed.

Lemma root_of_inv root g r g' : root_of root g = (Ret r, g') -> g' = g /\ od_get root (m0conf g) = Some (ConfRoot r).
Proof.
  unfold root_of. intros H. apply bind_Ret in H as (c & g1 & H1 & H). apply gets_inv in H1 as [-> ->].
  apply lift_Ret_inv in H as [H ->]. split; [done|]. unfold conf_as, conf_get in H.
  destruct (od_get root (m0conf g)) as [[] |]; try discriminate. by injection H as ->.
Qed.

Lemma build_default_pools_root root desc g u g' :
  build_default_pools root desc g = (Ret u, g') -> rack1 g -> bounded (ObjT_last_fidk g') ->
  wf (m0conf g) (ObjT_last_fidk g) -> root_set (m0conf g') root.
Proof.
  unfold build_default_pools. intros H Hr Hb Hwf.
  apply bind_Ret in H as (r & g1 & H1 & H). apply root_of_inv in H1 as [-> Hroot].
  apply bind_Ret in H as (u2 & g2 & H2 & H). apply bind_Ret in H as (r' & g3 & H3 & H).
  apply root_of_inv in H3 as [-> Hroot'].
  assert (E2 : ext g g2 /\ r_imeta_pver r' <> None).
  { destruct (r_imeta_pver r) eqn:Ei.
    - crunch. split; [auto with hare|]. congruence.
    - pose proof (build_one_pool_ext _ _ _ _ _ _ H2 Hr) as E2. split; [done|].
      apply bind_Ret in H2 as (a & g4 & H2 & Hu). apply mret_inv in Hu as [_ ->].
      destruct (ConfPool_build_root _ _ _ _ _ _ pool_dix H2 eq_refl) as (r2 & Hr2 & Hi); [done|]. congruence. }
  destruct E2 as [E2 Hi]. pose proof (rack1_stable _ _ E2 Hr) as Hrk.
  destruct (r_mdpool r') eqn:Em.
  - crunch. exists r'. split_and!; [done | done | congruence].
  - pose proof (build_one_pool_ext _ _ _ _ _ _ H Hrk) as E3.
    apply bind_Ret in H as (a & g4 & H & Hu). apply mret_inv in Hu as [_ ->].
    destruct (ConfPool_build_root _ _ _ _ _ _ pool_md H eq_refl) as (r3 & Hr3 & Hm); [done|].
    assert (Hb2 : bounded (ObjT_last_fidk g2)) by (eapply bounded_mono; [apply (ext_count _ _ E3) | done]).
    destruct (root_grows _ _ _ _ E3 Hb (ext_wf _ _ E2 Hb2 Hwf) Hroot') as (r4 & Hr4 & Hi4 & _).
    exists r3. split_and!; [done | | done]. rewrite Hr3 in Hr4. injection Hr4 as ->. auto.
Qed.

(** The configuration [build_cluster] hands to [validate_m0conf] is well-formed. *)
Lemma build_conf_wf desc cl g' :
  build_conf list_set desc gen0 = (Ret cl, g') -> bounded (ObjT_last_fidk g') ->
  wf (m0conf g') (ObjT_last_fidk g') /\ exists root, root_set (m0conf g') root /\
    (forall o r, od_get o (m0conf g') = Some (ConfRoot r) -> o = root) /\
    forall o x, od_get o (m0conf g') <> Some (ConfFdmiFilter x).
Proof.
  unfold build_conf. intros H Hb.
  apply bind_Ret in H as (root & g1 & H1 & H). apply bind_Ret in H as (site & g2 & H2 & H).
  apply bind_Ret in H as (rack & g3 & H3 & H). apply bind_Ret in H as ([cl1 ioc] & g4 & H4 & H).
  apply bind_Ret in H as (u5 & g5 & H5 & H). apply bind_Ret in H as (c6 & g6 & H6 & H).
  apply bind_Ret in H as (u7 & g7 & H7 & H). apply bind_Ret in H as (u8 & g8 & H8 & H).
  apply bind_Ret in H as (u9 & g9 & H9 & H). apply bind_Ret in H as (c10 & g10 & H10 & H).
  apply bind_Ret in H as (en & g11 & H11 & H). apply bind_Ret in H as (u12 & g12 & H12 & H).
  apply bind_Ret in H as (u13 & g13 & H13 & H). apply bind_Ret in H as (u14 & g14 & H14 & H).
  apply lift_Ret_inv in H7 as [_ ->]. apply lift_Ret_inv in H11 as [_ ->].
  apply gets_inv in H6 as [-> ->]. apply gets_inv in H10 as [-> ->]. apply mret_inv in H as [-> ->].
  destruct (ConfRoot_build_wf _ _ _ H1) as (C1 & _ & W1). destruct (ConfSite_build_ext _ _ _ _ H2) as [E2 _].
  destruct (ConfRack_build_wf _ _ _ _ H3) as (C3 & _ & W3).
  assert (Hr3 : rack1 g3).
  { unfold rack1. rewrite C3, bump_eq, (ext_single _ _ E2 o_rack eq_refl), C1. done. }
  assert (E4 : ext g3 g4).
  { eapply (fold_m_ext (fun _ _ => True)) in H4 as [E4 _]; [exact E4 | auto with hare | | done].
    intros s x g s' g' _ Hb' _. split; [by eapply build_node_ext | done]. }
  pose proof (ext_trans _ _ _ E4 (build_cas_devs_ext _ _ _ _ H5)) as E5.
  pose proof (ext_trans _ _ _ E5 (build_pools_ext _ _ _ _ _ H8 (rack1_stable _ _ E5 Hr3))) as E8.
  pose proof (ext_trans _ _ _ E8 (build_default_pools_ext _ _ _ _ _ H9 (rack1_stable _ _ E8 Hr3))) as E9.
  pose proof (set_mdredundancy_ext _ _ _ _ _ H12) as E12.
  pose proof (ext_trans _ _ _ E12 (build_profiles_ext _ _ _ _ _ H13)) as E13.
  pose proof (ext_trans _ _ _ E13 (build_fdmi_ext _ _ _ _ _ H14)) as Elast.
  pose proof (ext_trans _ _ _ E9 Elast) as E14.
  assert (Hb9 : bounded (ObjT_last_fidk g9)) by (eapply bounded_mono; [apply (ext_count _ _ Elast) | done]).
  assert (Hb8 : bounded (ObjT_last_fidk g8)).
  { eapply bounded_mono; [| exact Hb9]. apply (ext_count _ _ (build_default_pools_ext _ _ _ _ _ H9 (rack1_stable _ _ E8 Hr3))). }
  assert (Hb3 : bounded (ObjT_last_fidk g3)) by (eapply bounded_mono; [apply (ext_count _ _ E14) | done]).
  assert (Hb2 : bounded (ObjT_last_fidk g2)) by (eapply bounded_mono; [| exact Hb3]; intros t; rewrite C3; apply bump_le).
  assert (Hwf3 : wf (m0conf g3) (ObjT_last_fidk g3)).
  { apply W3, (ext_wf _ _ E2 Hb2), W1, wf_gen0; [done|]. eapply bounded_mono; [apply (ext_count _ _ E2) | done]. }
  pose proof (ext_wf _ _ E14 Hb Hwf3) as Hwf. split; [done|]. exists root. split_and!.
  - pose proof (build_default_pools_root _ _ _ _ _ H9 (rack1_stable _ _ E8 Hr3) Hb9 (ext_wf _ _ E8 Hb8 Hwf3))
      as (r & Hr & Hi & Hm).
    destruct (root_grows _ _ _ _ Elast Hb (ext_wf _ _ E9 Hb9 Hwf3) Hr) as (r' & Hr' & Hi' & Hm'). exists r'. auto.
  - assert (H1r : ObjT_last_fidk g14 o_root = 1).
    { rewrite (ext_single _ _ E14 o_root eq_refl), C3, bump_ne, (ext_single _ _ E2 o_root eq_refl), C1 by done.
      reflexivity. }
    assert (Hkey : forall o, o ∈ od_keys (m0conf g14) -> o_type o = o_root -> o_fidk o = 0).
    { intros o Ho Ht. destruct (wf_alloc _ _ Hwf o Ho) as (i & Hi & E). rewrite Ht, H1r in Hi. rewrite E, Ht.
      assert (i = 0) as -> by lia. reflexivity. }
    pose proof (build_default_pools_root _ _ _ _ _ H9 (rack1_stable _ _ E8 Hr3) Hb9 (ext_wf _ _ E8 Hb8 Hwf3))
      as (r & Hr & _). apply (root_grows _ _ _ _ Elast Hb (ext_wf _ _ E9 Hb9 Hwf3)) in Hr as (r' & Hr' & _).
    intros o ro Ho. pose proof (wf_class _ _ Hwf _ _ Ho) as To. pose proof (wf_class _ _ Hwf _ _ Hr') as Tr.
    pose proof (Hkey o (od_get_in _ _ _ Ho) To). pose proof (Hkey root (od_get_in _ _ _ Hr') Tr).
    destruct o, root. cbn in *. congruence.
  - intros o x Ho. pose proof (wf_class _ _ Hwf _ _ Ho) as To. cbn in To.
    destruct (wf_alloc _ _ Hwf o (od_get_in _ _ _ Ho)) as (i & Hi & _). rewrite To in Hi.
    rewrite (ext_single _ _ E14 o_fdmi_filter eq_refl), C3, bump_ne, (ext_single _ _ E2 o_fdmi_filter eq_refl), C1 in Hi by done.
    change (bump o_root (ObjT_last_fidk gen0) o_fdmi_filter) with 0 in Hi. lia.
Qed.
End Cluster.

(** ** [validate_m0conf] *)
Lemma class_name_ok x : obj_class x = class_name_of_type (obj_objt x).
Proof. by destruct x. Qed.

Notation acc_links acc := (concat (snd <$> acc)).

Lemma acc_extend (acc : list (ObjT * string * list Oid)) k l :
  acc_links (od_set k (default [] (od_get k acc) ++ l) acc) ≡ₚ acc_links acc ++ l.
Proof.
  destruct (od_get k acc) as [l0 |] eqn:E.
  - cbn [from_option id]. destruct (od_set_split k (l0 ++ l) l0 acc E) as (d1 & d2 & -> & ->).
    rewrite !fmap_app, !concat_app. cbn. solve_Permutation.
  - cbn [from_option id]. rewrite od_set_fresh by (by apply od_get_None).
    rewrite fmap_app, concat_app. cbn. by rewrite app_nil_r.
Qed.

Lemma visit_links_ok t dls acc :
  forallb (fun rl : Downlink * list Oid => forallb (child_ok (dl_children_t rl.1)) rl.2) dls = true ->
  NoDup (acc_links acc ++ concat (snd <$> dls)) ->
  exists acc', fold_o (visit_link t) acc dls = Ret acc' /\
    acc_links acc' ≡ₚ acc_links acc ++ concat (snd <$> dls).
Proof.
  revert acc. induction dls as [| [rel l] dls IH]; intros acc Ht Hnd.
  - exists acc. cbn. by rewrite app_nil_r.
  - cbn in Ht, Hnd. apply andb_true_iff in Ht as [Hl Ht].
    assert (Hu : all_unique l = true).
    { apply all_unique_true. apply NoDup_app in Hnd as (_ & _ & Hnd). by apply NoDup_app in Hnd as (? & _). }
    pose proof (acc_extend acc (t, dl_name rel) l) as Hp.
    destruct (IH (od_set (t, dl_name rel) (default [] (od_get (t, dl_name rel) acc) ++ l) acc) Ht)
      as (acc' & E & Hp').
    { rewrite Hp, <- app_assoc. done. }
    exists acc'. cbn [fold_o visit_link fst snd]. unfold visit_link. cbn [fst snd].
    rewrite Hu, Hl. split; [exact E|]. rewrite Hp', Hp. cbn. by rewrite <- app_assoc.
Qed.

Lemma visit_objs_ok c acc :
  Forall (fun ox => o_type ox.1 = obj_objt ox.2 /\ links_typed ox.2 = true) c ->
  NoDup (acc_links acc ++ all_links c) ->
  exists acc', fold_o visit_obj acc c = Ret acc' /\ acc_links acc' ≡ₚ acc_links acc ++ all_links c.
Proof.
  revert acc. induction c as [| [o x] c IH]; intros acc Hc Hnd.
  - exists acc. unfold all_links. cbn. by rewrite app_nil_r.
  - apply Forall_cons in Hc as [[Ht Hl] Hc]. cbn in Ht, Hl.
    change (all_links ((o, x) :: c)) with (links_of x ++ all_links c) in *.
    destruct (visit_links_ok (o_type o) (obj_downlinks x) acc Hl) as (acc1 & E1 & Hp1).
    { rewrite app_assoc in Hnd. by apply NoDup_app in Hnd as (? & _). }
    destruct (IH acc1 Hc) as (acc' & E & Hp).
    { rewrite Hp1. by rewrite app_assoc in Hnd. }
    exists acc'. split; [| rewrite Hp, Hp1; by rewrite <- app_assoc].
    cbn [fold_o]. unfold visit_obj. cbn [fst snd].
    rewrite bool_decide_true by done. rewrite class_name_ok, <- Ht, String.eqb_refl. cbn [check].
    cbn [mbind outcome_bind]. by rewrite E1.
Qed.

Lemma wf_validates c f : wf c f -> validate_m0conf c = Ret tt.
Proof.
  intros Hwf. unfold validate_m0conf.
  destruct (visit_objs_ok c []) as (acc & E & Hp).
  - apply Forall_forall. intros [o x] Hin. cbn.
    pose proof (od_elem_get _ _ _ (wf_keys _ _ Hwf) Hin) as Ho.
    split; [by apply (wf_class _ _ Hwf) | by apply (wf_links_typed _ _ Hwf o)].
  - cbn. apply (wf_unique _ _ Hwf).
  - rewrite E. cbn. assert (forallb (fun kv : ObjT * string * list Oid => all_unique kv.2) acc = true) as ->; [| done].
    apply forallb_forall. intros kv Hkv%list_elem_of_In. apply all_unique_true.
    assert (Hnd : NoDup (acc_links acc)) by (rewrite Hp; apply (wf_unique _ _ Hwf)).
    apply list_elem_of_split in Hkv as (l1 & l2 & ->). rewrite fmap_app, concat_app in Hnd.
    apply NoDup_app in Hnd as (_ & _ & Hnd). cbn in Hnd. by apply NoDup_app in Hnd as (? & _).
Qed.
