(* ===== verification/CfgenStage.v ===== *)
(** * The configuration before the pools ([src/cfgen/cfgen])

    All nodes and their metadata devices are built when every node passes
    [node_ok] and there is room for the identifiers of the processes; what the
    configuration then has. *)

From stdpp Require Import list_numbers.
From S2P Require Import Prelude PyStr Json HaxTypes OrdDict CfgenTypes CfgenBuild.
From S2P Require Import CfgenPools CfgenCluster CfgenInv CfgenWf CfgenRuns CfgenTotal CfgenReads.
From S2P Require Import CfgenMirror CfgenPverWf CfgenClusterWf.

(** ** Metadata devices *)

(** What holds before and after each turn of the three loops of [build_cas_devs] *)
Record cas_ready (io : list (Oid * Server)) (P S : Z) (g : Gen) : Prop := mkCasReady {
  cr_good : good g P S;
  cr_cas : cas_in (m0conf g) io;
  cr_io : forall k, k ∈ od_keys io -> has g o_controller k }.

Section Cas.
Context (io : list (Oid * Server)) (P S : Z).
Notation ready := (cas_ready io P S).
Notation devs_added g := (fun (_ : unit) g' => ready g' /\ evolves (fits None) (m0conf g) (m0conf g')).

Lemma build_cas_dev_runs g svc s :
  ready g -> od_get svc (m0conf g) = Some (ConfService s) -> s_type s = M0_CST_CAS ->
  runs (build_cas_dev io svc s) g (devs_added g).
Proof.
  intros [G C I] Hs Ht. destruct (C svc s Hs Ht) as (k & Ek & Hk). unfold build_cas_dev. rewrite Ek. cbn.
  apply od_get_key in Hk as Hd. destruct Hd as [srv Hd]. rewrite Hd. cbn.
  eapply runs_conseq.
  { apply (disk_runs svc k _ g P S G).
    - split; [by eapply od_get_in|]. by rewrite (wf_class _ _ (gd_wf _ _ _ G) _ _ Hs).
    - by apply I.
    - destruct (sv_meta_data srv) as [m |]; [| done]. destruct (String.eqb_spec m ""); [done|]. cbn.
      by destruct (String.eqb_spec m ""). }
  intros u g' (G' & E' & _). split; [split; [done | | by intros; eapply has_evolves; eauto] | done].
  eapply cas_in_evolves; [exact E' | done |]. intros x Hx. eapply fits_cas; [exact Hx | done].
Qed.

(** A loop over keys *)
Lemma devs_loop g l body :
  ready g -> (forall x, x ∈ l -> x ∈ od_keys (m0conf g)) ->
  (forall x g', x ∈ l -> ready g' -> x ∈ od_keys (m0conf g') -> runs (body x) g' (devs_added g')) ->
  runs (for_each l body) g (devs_added g).
Proof.
  intros Hg Hl Hb. revert g Hg Hl.
  induction l as [| x l IH]; intros g Hg Hl; cbn; [by apply runs_mret; split; auto with hare|].
  eapply runs_bind; [apply Hb; [left | done | apply Hl; left]|].
  intros u g1 [R1 E1]. eapply runs_conseq.
  - apply IH; [intros; apply Hb; [by right | done | done] | done |].
    intros y Hy. eapply evolves_keys; [exact E1 | apply Hl; by right].
  - intros u' g2 [R2 E2]. split; [done | by eapply evolves_trans].
Qed.

(** Reading an object: the run goes on with it *)
Ltac read Hx := eapply runs_step; [reflexivity|]; eapply runs_step; [by apply (f_equal (fun o => (o, _))), (conf_as_ok _ _ _ _ _ Hx)|].

Lemma build_cas_devs_runs g : ready g -> runs (build_cas_devs io) g (devs_added g).
Proof.
  intros Hg. unfold build_cas_devs. eapply runs_step; [reflexivity|]. apply devs_loop; [done | done |].
  intros item g1 _ R1 K1. destruct (is_t o_enclosure item) eqn:Et; [| by apply runs_mret; split; auto with hare].
  apply is_t_true in Et. pose proof (gd_wf _ _ _ (cr_good _ _ _ _ R1)) as W1.
  destruct (encl_object _ _ W1 item (conj K1 Et)) as (e & He & Hn & _).
  destruct (node_object _ _ W1 _ Hn) as (n & Hn' & Hps).
  read He. eapply runs_step; [by apply (f_equal (fun o => (o, _))), (conf_as_ok _ _ _ _ _ Hn')|].
  apply devs_loop; [done | intros p Hp; by apply Hps |].
  intros p g2 Hp R2 K2. pose proof (gd_wf _ _ _ (cr_good _ _ _ _ R2)) as W2.
  destruct (process_object _ _ W2 p (conj K2 (proj2 (Hps p Hp)))) as (px & Hpx & Hss). read Hpx.
  apply devs_loop; [done | intros s Hs; by apply Hss |].
  intros s g3 Hs R3 K3. pose proof (gd_wf _ _ _ (cr_good _ _ _ _ R3)) as W3.
  destruct (service_object _ _ W3 s (conj K3 (proj2 (Hss s Hs)))) as (sx & Hsx). read Hsx.
  destruct (decide (s_type sx = M0_CST_CAS)); [by apply build_cas_dev_runs | by apply runs_mret; split; auto with hare].
Qed.
End Cas.

(** ** All nodes *)
Definition total_procs (nodes : list Node) : Z := foldr (fun n s => node_procs n + s) 0 nodes.

Lemma node_procs_pos node : 1 <= node_procs node.
Proof. unfold node_procs. pose proof (client_count_nonneg (default [] (m0_clients node))). lia. Qed.

Lemma total_procs_nonneg nodes : 0 <= total_procs nodes.
Proof.
  induction nodes as [| n l IH]; unfold total_procs in *; cbn [foldr]; [lia|]. pose proof (node_procs_pos n). lia.
Qed.

(** The agents of the nodes with and without a confd *)
Definition agents (b : bool) (nodes : list Node) : list ConsulAgent :=
  node_agent <$> List.filter (fun n => Bool.eqb b (node_confd n)) nodes.

Lemma nodes_run root rack nodes acc g P S seen :
  good g (P + total_procs nodes) (S + svc_max * total_procs nodes) -> 0 <= P -> 0 <= S ->
  stage g root rack acc.2 seen -> forallb node_ok nodes = true ->
  runs (fold_m (build_node root rack) acc nodes) g (fun acc' g' =>
    good g' P S /\ stage g' root rack acc'.2 (seen || existsb has_io nodes) /\
    consul_servers acc'.1 = consul_servers acc.1 ++ agents true nodes /\
    consul_clients acc'.1 = consul_clients acc.1 ++ agents false nodes /\
    (clients_typed acc.1 = true -> clients_typed acc'.1 = true)).
Proof.
  intros Hg HP HS Hst Hok. revert acc g seen Hg Hst Hok.
  induction nodes as [| node nodes IH]; intros acc g seen Hg Hst Hok; cbn [fold_m].
  - apply runs_mret. cbn in *. rewrite !app_nil_r, orb_false_r. split_and!; [same_good | done..].
  - cbn [forallb] in Hok. apply andb_true_iff in Hok as [Hok1 Hok2]. pose proof (total_procs_nonneg nodes) as Hn.
    pose proof (node_procs_pos node) as Hp.
    assert (Et : total_procs (node :: nodes) = node_procs node + total_procs nodes) by done. rewrite Et in Hg.
    eapply runs_bind.
    { apply (build_node_runs root rack acc node g (P + total_procs nodes) (S + svc_max * total_procs nodes) seen);
        unfold svc_max in *; try done; try lia. eapply good_less; [exact Hg | lia | lia]. }
    intros acc1 g1 (G1 & S1 & [A1 B1 T1]). eapply runs_conseq; [by apply (IH acc1 g1)|].
    intros acc2 g2 (G2 & S2 & A2 & B2 & T2). cbn [existsb]. rewrite orb_assoc. split_and!; [done | done | | |].
    + rewrite A2, A1. unfold agents, add_agent. cbn [List.filter]. destruct (node_confd node); cbn; [by rewrite <- app_assoc | done].
    + rewrite B2, B1. unfold agents, add_agent. cbn [List.filter]. destruct (node_confd node); cbn; [done | by rewrite <- app_assoc].
    + intros H. apply T2, T1. unfold add_agent. by destruct (node_confd node).
Qed.

(** ** The root, its site and the rack *)
Definition gen3 : Gen := ((root_id ← ConfRoot_build; site_id ← ConfSite_build root_id; ConfRack_build site_id) gen0).2.
Definition root0 : Oid := mkOid o_root 0.
Definition site0 : Oid := mkOid o_site 0.
Definition rack0 : Oid := mkOid o_rack 0.

Lemma start_runs :
  ConfRoot_build gen0 = (Ret root0, (ConfRoot_build gen0).2) /\
  ConfSite_build root0 (ConfRoot_build gen0).2 = (Ret site0, (ConfSite_build root0 (ConfRoot_build gen0).2).2) /\
  ConfRack_build site0 (ConfSite_build root0 (ConfRoot_build gen0).2).2 = (Ret rack0, gen3).
Proof. split_and!; by vm_compute. Qed.

Lemma gen3_conf : m0conf gen3 =
  [(root0, ConfRoot (mkRoot [] [site0] [] [] [] None 0 None)); (site0, ConfSite (mkSite [rack0] []));
   (rack0, ConfRack (mkRack [] [] site0))].
Proof. reflexivity. Qed.

Lemma gen3_good : good gen3 (2 ^ 32) (2 ^ 32).
Proof.
  destruct start_runs as (R1 & R2 & R3).
  destruct (ConfRoot_build_wf _ _ _ R1) as (_ & _ & W1). destruct (ConfSite_build_ext _ _ _ _ R2) as [E2 _].
  destruct (ConfRack_build_wf _ _ _ _ R3) as (_ & _ & W3).
  split; [| by split | by split | done | done | done | split; [done | by exists (mkPort "default" (PInt 22501))]].
  apply W3; [done|]. apply (ext_wf _ _ E2); [done|]. apply W1; [done|]. apply wf_gen0.
Qed.

Lemma gen3_stage : stage gen3 root0 rack0 [] false.
Proof.
  split; try done.
  - eexists. by rewrite gen3_conf.
  - split; [| done]. rewrite gen3_conf. right. right. left.
  - intros k x Hk. apply od_get_elem in Hk. rewrite gen3_conf in Hk.
    by repeat (apply elem_of_cons in Hk as [[= ] | Hk]; try done); apply elem_of_nil in Hk.
  - intros s x Hs. apply od_get_elem in Hs. rewrite gen3_conf in Hs.
    by repeat (apply elem_of_cons in Hs as [[= ] | Hs]; try done); apply elem_of_nil in Hs.
  - by intros k ?%elem_of_nil.
  - intros p x Hp. apply od_get_elem in Hp. rewrite gen3_conf in Hp.
    by repeat (apply elem_of_cons in Hp as [[= ] | Hp]; try done); apply elem_of_nil in Hp.
Qed.

(** ** The configuration without pools *)

(** [build_cluster] up to and including [build_cas_devs] *)
Definition build_hardware (nodes : list Node) : M Gen Cluster :=
  root_id ← ConfRoot_build;
  site_id ← ConfSite_build root_id;
  rack_id ← ConfRack_build site_id;
  '(cluster, io_ctrls) ← fold_m (build_node root_id rack_id) (mkCluster [] [] [] [], []) nodes;
  build_cas_devs io_ctrls ;;
  mret cluster.

Record hardware_ready (g : Gen) : Prop := mkHardwareReady {
  hr_good : good g 0 0;
  hr_root : exists r, od_get root0 (m0conf g) = Some (ConfRoot r) /\
    core (ConfRoot r) = ConfRoot (mkRoot [] [] [] [] [] None 0 None);
  hr_full : full (m0conf g) [];
  hr_reached : reached (m0conf g);
  hr_staffed : staffed (m0conf g) }.

Definition nodes_ok (nodes : list Node) : bool :=
  forallb node_ok nodes && (svc_max * total_procs nodes <=? 2 ^ 32) && existsb has_io nodes.

Lemma hardware_runs nodes :
  nodes_ok nodes = true ->
  runs (build_hardware nodes) gen0 (fun cl g =>
    hardware_ready g /\ consul_servers cl = agents true nodes /\ consul_clients cl = agents false nodes /\
    clients_typed cl = true).
Proof.
  intros [[Hok Hcost%Z.leb_le]%andb_true_iff Hio]%andb_true_iff. unfold svc_max in Hcost.
  pose proof (total_procs_nonneg nodes) as Hn. destruct start_runs as (R1 & R2 & R3).
  unfold build_hardware. eapply runs_step; [exact R1|]. eapply runs_step; [exact R2|].
  eapply runs_step; [exact R3|]. eapply runs_bind.
  { apply (nodes_run root0 rack0 nodes _ gen3 0 0 false); unfold svc_max; try done; [| apply gen3_stage].
    eapply good_less; [apply gen3_good | lia | lia]. }
  intros [cl io] g1 (G1 & [S1 S2 S3 S4 S5 S6 S7] & A1 & B1 & T1). eapply runs_bind.
  { apply (build_cas_devs_runs io 0 0). by split. }
  intros u g2 [[G2 _ _] E2]. apply runs_mret. split; [| by split_and!; auto]. split.
  - done.
  - destruct S1 as (r & Hr & Cr). destruct (ev_old _ _ _ E2 _ _ Hr) as (z & Hz & Ez & _).
    destruct z as [r' | | | | | | | | | | | | | | | |]; try discriminate Ez. exists r'. split; [done | by rewrite Ez].
  - by eapply full_evolves; [eapply evolves_impl; [apply fits_fits_p | exact E2]|].
  - eapply reached_evolves; [exact E2 | by apply S6].
  - by eapply staffed_evolves.
Qed.
