(* ===== verification/CfgenSame.v ===== *)
(** * Pools leave the hardware alone ([src/cfgen/cfgen])

    [hw_same c c']: [c'] has the nodes, processes, services and devices of [c], in
    the same order, with the same attributes and children; only lists of pool
    versions differ.  What [cfgen] selects from the devices is then the same. *)

From stdpp Require Import list_numbers.
From S2P Require Import Prelude PyStr Json HaxTypes OrdDict CfgenTypes CfgenBuild.
From S2P Require Import CfgenPools CfgenCluster CfgenInv CfgenWf CfgenReads CfgenRuns.
From S2P Require Import CfgenMirror CfgenPverWf.

Definition hwt (t : ObjT) : bool :=
  match t with
  | o_node | o_process | o_service | o_sdev | o_enclosure | o_controller | o_drive => true
  | _ => false
  end.

Record hw_same (c c' : Conf) : Prop := mkHwSame {
  hs_keys : forall t, hwt t = true -> conf_keys_of t c' = conf_keys_of t c;
  hs_obj : forall o x, hwt (o_type o) = true -> od_get o c = Some x ->
    exists x', od_get o c' = Some x' /\ core x' = core x /\ links_of x' = links_of x }.

Lemma hw_same_refl c : hw_same c c.
Proof. split; eauto. Qed.

Lemma hw_same_trans c1 c2 c3 : hw_same c1 c2 -> hw_same c2 c3 -> hw_same c1 c3.
Proof.
  intros [K1 O1] [K2 O2]. split.
  - intros t Ht. by rewrite K2, K1.
  - intros o x Ho Hx. destruct (O1 o x Ho Hx) as (x1 & H1 & E1 & L1). destruct (O2 o x1 Ho H1) as (x2 & H2 & E2 & L2).
    exists x2. split_and!; congruence.
Qed.

(** ** Equal selections *)
Lemma mapM_same {A B} (f g : A -> outcome B) l : (forall x, x ∈ l -> f x = g x) -> mapM f l = mapM g l.
Proof.
  induction l as [| x l IH]; intros H; cbn; [done|]. rewrite (H x) by left. by rewrite IH by (intros; apply H; by right).
Qed.

Lemma concat_o_same {A B} (f g : A -> outcome (list B)) l : (forall x, x ∈ l -> f x = g x) -> concat_o f l = concat_o g l.
Proof. intros H. unfold concat_o. by rewrite (mapM_same f g l H). Qed.

Section Same.
Context (c c' : Conf) (f : ObjT -> Z) (Hwf : wf c f) (Hs : hw_same c c').

Notation at_key t o := (o ∈ od_keys c /\ o_type o = t).

(** An object of [c] as an object of [c'] of the same class *)
Ltac same_as Hx :=
  let x' := fresh "x'" in let Hx' := fresh "Hx'" in let E := fresh "E" in let L := fresh "L" in
  match type of Hx with od_get ?o c = Some (?K ?x) =>
    destruct (hs_obj _ _ Hs o _ ltac:(first [rewrite (wf_class _ _ Hwf _ _ Hx); reflexivity]) Hx) as (x' & Hx' & E & L);
    destruct x' as [x'|x'|x'|x'|x'|x'|x'|x'|x'|x'|x'|x'|x'|x'|x'|x'|x']; try discriminate E;
    unfold links_of in L; cbn in L; rewrite ?app_nil_r in L
  end.

Lemma same_ctrl k x : od_get k c = Some (ConfController x) ->
  exists x', od_get k c' = Some (ConfController x') /\ c_drives x' = c_drives x.
Proof using Hwf Hs. intros Hx. same_as Hx. eauto. Qed.

Lemma same_encl e x : od_get e c = Some (ConfEnclosure x) ->
  exists x', od_get e c' = Some (ConfEnclosure x') /\ e_ctrls x' = e_ctrls x /\ e_node x' = e_node x.
Proof using Hwf Hs. intros Hx. same_as Hx. eexists. split_and!; [done | done | cbn in E; congruence]. Qed.

Lemma same_node o x : od_get o c = Some (ConfNode x) ->
  exists x', od_get o c' = Some (ConfNode x') /\ n_processes x' = n_processes x /\ n_name x' = n_name x.
Proof using Hwf Hs. intros Hx. same_as Hx. eexists. split_and!; [done | done | cbn in E; congruence]. Qed.

Lemma same_process o x : od_get o c = Some (ConfProcess x) ->
  exists x', od_get o c' = Some (ConfProcess x') /\ p_services x' = p_services x.
Proof using Hwf Hs. intros Hx. same_as Hx. eauto. Qed.

Lemma same_service o x : od_get o c = Some (ConfService x) ->
  exists x', od_get o c' = Some (ConfService x') /\ s_type x' = s_type x.
Proof using Hwf Hs. intros Hx. same_as Hx. eexists. split; [done | cbn in E; congruence]. Qed.

Lemma same_drive o x : od_get o c = Some (ConfDrive x) ->
  exists x', od_get o c' = Some (ConfDrive x') /\ dv_sdev x' = dv_sdev x.
Proof using Hwf Hs. intros Hx. same_as Hx. eexists. split; [done | cbn in E; congruence]. Qed.

Lemma same_sdev o x : od_get o c = Some (ConfSdev x) ->
  exists x', od_get o c' = Some (ConfSdev x') /\ sd_filename x' = sd_filename x.
Proof using Hwf Hs. intros Hx. same_as Hx. eexists. split; [done | cbn in E; congruence]. Qed.

(** Both configurations read the object of a key. *)
Ltac read2 H H' :=
  erewrite (conf_as_ok _ _ _ _ _ H) by reflexivity; erewrite (conf_as_ok _ _ _ _ _ H') by reflexivity;
  cbn [mbind outcome_bind].

Lemma encl_svcs_same st e : at_key o_enclosure e -> encl_svcs c' st e = encl_svcs c st e.
Proof using Hwf Hs.
  intros He. unfold encl_svcs. destruct (encl_object _ _ Hwf _ He) as (x & Hx & Hn & _).
  destruct (same_encl _ _ Hx) as (x' & Hx' & _ & En). read2 Hx' Hx. rewrite En.
  destruct (node_object _ _ Hwf _ Hn) as (n & Hn' & Hp). destruct (same_node _ _ Hn') as (n' & Hn2 & Ep & _).
  read2 Hn2 Hn'. rewrite Ep. apply concat_o_same. intros p Hpin.
  destruct (process_object _ _ Hwf _ (Hp p Hpin)) as (px & Hpx & Hsv). destruct (same_process _ _ Hpx) as (px' & Hpx' & Es).
  read2 Hpx' Hpx. rewrite Es. apply concat_o_same. intros s Hsin.
  destruct (service_object _ _ Hwf _ (Hsv s Hsin)) as (sx & Hsx). destruct (same_service _ _ Hsx) as (sx' & Hsx' & Et).
  read2 Hsx' Hsx. by rewrite Et.
Qed.

Lemma encl_keys e : e ∈ conf_keys_of o_enclosure c -> at_key o_enclosure e.
Proof. apply conf_keys_of_elem. Qed.

Lemma cluster_encls_same st : cluster_encls c' st = cluster_encls c st.
Proof using Hwf Hs.
  unfold cluster_encls. rewrite (hs_keys _ _ Hs) by done. f_equal. apply concat_o_same.
  intros e He%encl_keys. by rewrite encl_svcs_same.
Qed.

Lemma pool_drives_with_nodes_same : pool_drives_with_nodes c' = pool_drives_with_nodes c.
Proof using Hwf Hs.
  unfold pool_drives_with_nodes. rewrite (hs_keys _ _ Hs) by done. f_equal. apply concat_o_same.
  intros e He%encl_keys. destruct (encl_object _ _ Hwf _ He) as (x & Hx & _ & Hk).
  destruct (same_encl _ _ Hx) as (x' & Hx' & Ek & En). read2 Hx' Hx. rewrite Ek. apply concat_o_same.
  intros k Hkin. destruct (ctrl_object _ _ Hwf _ (Hk k Hkin)) as (y & Hy & _).
  destruct (same_ctrl _ _ Hy) as (y' & Hy' & Ed). read2 Hy' Hy. by rewrite Ed, En.
Qed.

Lemma pool_drives_with_nodes_elem l d n :
  pool_drives_with_nodes c = Ret l -> (d, n) ∈ l -> at_key o_drive d /\ at_key o_node n.
Proof using Hwf.
  unfold pool_drives_with_nodes. intros H Hin. apply bind_o_inv in H as (l' & H & H2).
  apply bind_o_inv in H2 as (u & _ & H2). apply bind_o_inv in H2 as (u' & _ & [= <-]).
  destruct (concat_o_elem _ _ _ _ H Hin) as (e & y & He%encl_keys & Hy & Hin').
  destruct (encl_object _ _ Hwf _ He) as (x & Hx & Hn & Hk). erewrite (conf_as_ok _ _ _ _ _ Hx) in Hy by reflexivity. cbn in Hy.
  destruct (concat_o_elem _ _ _ _ Hy Hin') as (k & z & Hkin & Hz & Hin2).
  destruct (ctrl_object _ _ Hwf _ (Hk k Hkin)) as (cx & Hcx & Hd). erewrite (conf_as_ok _ _ _ _ _ Hcx) in Hz by reflexivity. cbn in Hz.
  injection Hz as <-. apply list_elem_of_fmap in Hin2 as (d' & [= -> ->] & Hd'). auto.
Qed.

Lemma pool_drives_from_references_same p : pool_drives_from_references c' p = pool_drives_from_references c p.
Proof using Hwf Hs.
  unfold pool_drives_from_references. rewrite pool_drives_with_nodes_same.
  destruct (pool_drives_with_nodes c) as [all | |] eqn:Ea; [| done | done]. cbn [mbind outcome_bind].
  destruct (get_pool_diskrefs p) as [refs |]; [| done].
  assert (Er : forall r, ref_targets c' (remove_dups all) r = ref_targets c (remove_dups all) r).
  { intros r. apply concat_o_same. intros [d n] Hin. rewrite elem_of_remove_dups in Hin.
    destruct (pool_drives_with_nodes_elem _ _ _ Ea Hin) as [Hd Hn]. unfold ref_matches. cbn [fst snd].
    destruct (drive_object _ _ Hwf _ Hd) as (dx & Hdx & Hsd). destruct (same_drive _ _ Hdx) as (dx' & Hdx' & Esd).
    read2 Hdx' Hdx. rewrite Esd. destruct (sdev_object _ _ Hwf _ Hsd) as (sx & Hsx).
    destruct (same_sdev _ _ Hsx) as (sx' & Hsx' & Ef). read2 Hsx' Hsx. rewrite Ef.
    destruct (node_object _ _ Hwf _ Hn) as (nx & Hnx & _). destruct (same_node _ _ Hnx) as (nx' & Hnx' & _ & Enm).
    read2 Hnx' Hnx. by rewrite Enm. }
  assert (Ec : forall g g' : DiskRef -> outcome (list (Oid * Oid)), (forall r, g' r = g r) -> concat_o g' refs = concat_o g refs)
    by (intros; by apply concat_o_same).
  erewrite Ec; [reflexivity|]. intros r. cbn beta. by rewrite Er.
Qed.

Lemma pool_drives_same p : pool_drives c' p = pool_drives c p.
Proof using Hwf Hs.
  unfold pool_drives. destruct (pool_type p) as [t | |]; [| done | done]. cbn [mbind outcome_bind].
  assert (Hk : forall g : Conf -> Oid -> outcome Oid,
    (forall k x x', od_get k c = Some (ConfController x) -> od_get k c' = Some (ConfController x') ->
       c_drives x' = c_drives x -> g c' k = g c k) ->
    mapM (g c') (conf_keys_of o_controller c') = mapM (g c) (conf_keys_of o_controller c)).
  { intros g Hg. rewrite (hs_keys _ _ Hs) by done. apply mapM_same. intros k Hkin%conf_keys_of_elem.
    destruct (ctrl_object _ _ Hwf _ Hkin) as (x & Hx & _). destruct (same_ctrl _ _ Hx) as (x' & Hx' & Ed). by eapply Hg. }
  destruct t.
  - by rewrite pool_drives_from_references_same, pool_drives_with_nodes_same.
  - apply (Hk last_drive). intros k x x' Hx Hx' Ed. unfold last_drive. read2 Hx' Hx. by rewrite Ed.
  - apply (Hk first_drive). intros k x x' Hx Hx' Ed. unfold first_drive. read2 Hx' Hx. by rewrite Ed.
Qed.
End Same.
