(* ===== verification/CfgenTol.v ===== *)
(** * Failure tolerance of pools ([src/cfgen/cfgen])

    [gen_allowances] enumerates all non-zero vectors below the allowed one;
    [tolerated_failures] finds the largest number of controllers that may fail;
    [gen_sns_tolerance] never promises more than the parity units cover; the
    auxiliary pools cover every allowed set of failed nodes. *)

From stdpp Require Import list_numbers.
From S2P Require Import Prelude PyStr Json HaxTypes OrdDict PyFloat CfgenTypes CfgenBuild.
From S2P Require Import CfgenPools CfgenCluster CfgenInv CfgenWf CfgenPverWf CfgenDemo.

(** ** Allowance vectors *)
Lemma product_elem ls v : v ∈ product ls <-> Forall2 (fun x l => x ∈ l) v ls.
Proof.
  revert v. induction ls as [| l ls IH]; intros v; cbn.
  - rewrite list_elem_of_singleton. split; [intros ->; constructor | by inversion 1].
  - rewrite list_elem_of_bind. setoid_rewrite list_elem_of_fmap. setoid_rewrite IH. split.
    + intros (x & (w & -> & Hw) & Hx). by constructor.
    + inversion 1 as [| x l' w ls' Hx Hw]; subst. exists x. split; [by exists w | done].
Qed.

Lemma product_NoDup ls : Forall NoDup ls -> NoDup (product ls).
Proof.
  induction 1 as [| l ls Hl _ IH]; cbn; [apply NoDup_singleton|].
  induction Hl as [| x l Hx Hl IHl]; cbn; [constructor|].
  apply NoDup_app. split_and!; [by apply NoDup_fmap; [intros ? ? [=] |] | | exact IHl].
  intros v (w & -> & _)%list_elem_of_fmap Hv.
  apply list_elem_of_bind in Hv as (y & Hy & Hyl). apply list_elem_of_fmap in Hy as (w' & [= -> ->] & _).
  done.
Qed.

Definition below (v a : Failures) : Prop := Forall2 (fun x n => 0 <= x <= n) (failures_list v) (failures_list a).

Definition no_failures : Failures := mkFailures 0 0 0 0 0.

Lemma failures_of_list v : failures_of (failures_list v) = Some v.
Proof. by destruct v. Qed.

Lemma failures_of_inv w v : failures_of w = Some v -> w = failures_list v.
Proof.
  destruct w as [| a [| b [| c [| d [| e [| f w]]]]]]; cbn; try done. by intros [= <-].
Qed.

Lemma any_nonzero v : existsb (fun n => negb (n =? 0)) (failures_list v) = true <-> v <> no_failures.
Proof.
  destruct v as [a b c d e]. cbn. rewrite !orb_true_iff, !negb_true_iff, !Z.eqb_neq.
  split; [intros H [= -> -> -> -> ->]; naive_solver|].
  intros H. destruct (decide (a = 0)), (decide (b = 0)), (decide (c = 0)), (decide (d = 0)), (decide (e = 0));
    subst; tauto.
Qed.

Lemma omap_NoDup {A B} (f : A -> option B) l :
  (forall x y b, f x = Some b -> f y = Some b -> x = y) -> NoDup l -> NoDup (omap f l).
Proof.
  intros Hinj. induction 1 as [| x l Hx _ IH]; cbn; [constructor|].
  destruct (f x) as [b |] eqn:E; [| done]. constructor; [| done].
  intros (y & Hy & Ey)%list_elem_of_omap. by rewrite (Hinj _ _ _ E Ey) in Hx.
Qed.

(** [gen_allowances] yields every vector of failures that is below the allowed
    one at each level and not zero, exactly once, and nothing else. *)
Theorem allowances_enumerated a :
  NoDup (gen_allowances a) /\
  forall v, v ∈ gen_allowances a <-> v <> no_failures /\ below v a.
Proof.
  split.
  - apply omap_NoDup.
    { intros x y b Hx Hy. by rewrite (failures_of_inv _ _ Hx), (failures_of_inv _ _ Hy). }
    apply NoDup_ListNoDup, List.NoDup_filter, NoDup_ListNoDup, product_NoDup. apply Forall_fmap, Forall_true. intros n. apply NoDup_seqZ.
  - intros v. unfold gen_allowances, below. rewrite list_elem_of_omap. split.
    + intros (w & Hw & ->%failures_of_inv). apply list_elem_of_In, filter_In in Hw as [Hw Hany].
      split; [by apply any_nonzero|]. apply list_elem_of_In, product_elem in Hw.
      rewrite Forall2_fmap_r in Hw. eapply Forall2_impl; [exact Hw|]. cbn. intros x n Hx%elem_of_seqZ. lia.
    + intros [Hne Hb]. exists (failures_list v). split; [| apply failures_of_list].
      apply list_elem_of_In, filter_In. split; [| by apply any_nonzero].
      apply list_elem_of_In, product_elem, Forall2_fmap_r.
      eapply Forall2_impl; [exact Hb|]. cbn. intros x n Hx. apply elem_of_seqZ. lia.
Qed.

(** ** Controllers *)

(** Units of a parity group per controller, the most populated ones first. *)
Definition unit_spread (total nr : Z) : list Z :=
  replicate (Z.to_nat (total mod nr)) (total / nr + 1) ++
  replicate (Z.to_nat (nr - total mod nr)) (total / nr).

(** Units lost when the [c] most populated controllers fail *)
Definition units_lost (total nr c : Z) : Z := foldr Z.add 0 (take (Z.to_nat c) (unit_spread total nr)).

Lemma sum_replicate n x : foldr Z.add 0 (replicate n x) = Z.of_nat n * x.
Proof. induction n as [| n IH]; [done|]. cbn [replicate foldr]. rewrite IH. lia. Qed.

Lemma sum_app l1 l2 : foldr Z.add 0 (l1 ++ l2) = foldr Z.add 0 l1 + foldr Z.add 0 l2.
Proof. induction l1 as [| x l1 IH]; cbn; [lia|]. rewrite IH. lia. Qed.

Lemma units_lost_eq total nr c : 0 < nr -> 0 <= c <= nr ->
  let q := total / nr in let r := total mod nr in
  units_lost total nr c = Z.min c r * (q + 1) + Z.max 0 (c - r) * q.
Proof.
  intros Hnr Hc q r. unfold units_lost, unit_spread. fold q r.
  pose proof (Z.mod_pos_bound total nr Hnr). fold r in H.
  rewrite take_app, length_replicate, !take_replicate, sum_app, !sum_replicate.
  rewrite !Nat2Z.inj_min, Nat2Z.inj_sub_max, !Z2Nat.id by lia. f_equal; f_equal; lia.
Qed.

(** C16: The number of tolerated controller failures of [tolerated_failures] is
    optimal: the parity units cover the loss of that many controllers, the most
    populated ones first, and would not cover the loss of any more. *)
Theorem tolerated_controllers_optimal n k s nr :
  0 < n -> 0 <= k -> 0 <= s -> 0 < nr ->
  exists cf, ctrl_failures n k s nr = Ret cf /\ 0 <= cf < nr /\
    units_lost (n + k + s) nr cf <= k /\
    forall c, cf < c <= nr -> k < units_lost (n + k + s) nr c.
Proof.
  intros Hn Hk Hs Hnr. unfold ctrl_failures. set (t := n + k + s).
  set (q := t / nr). set (r := t mod nr).
  pose proof (Z.div_mod t nr ltac:(lia)) as Ht. fold q r in Ht.
  pose proof (Z.mod_pos_bound t nr Hnr) as Hr. fold r in Hr.
  assert (Hq : 0 <= q) by (apply Z.div_pos; lia).
  assert (HL : forall c, 0 <= c <= nr -> units_lost t nr c = Z.min c r * (q + 1) + Z.max 0 (c - r) * q)
    by (intros c Hc; by apply units_lost_eq).
  destruct (Z.ltb_spec k (r * (q + 1))) as [H1 | H1].
  - set (cf := k / (q + 1)). pose proof (Z.div_mod k (q + 1) ltac:(lia)) as Hd. fold cf in Hd.
    pose proof (Z.mod_pos_bound k (q + 1) ltac:(lia)).
    assert (0 <= cf < r) by nia. exists cf. split; [done|]. split; [lia|]. split.
    + rewrite HL by lia. rewrite Z.min_l, Z.max_l by lia. nia.
    + intros c Hc. rewrite HL by lia. destruct (Z.le_gt_cases c r).
      * rewrite Z.min_l, Z.max_l by lia. nia.
      * rewrite Z.min_r, Z.max_r by lia. nia.
  - assert (Hq0 : 0 < q) by nia.
    destruct (Z.ltb_spec (r * (q + 1)) k) as [H2 | H2].
    + destruct (Z.eqb_spec q 0) as [| _]; [lia|].
      set (m := (k - r * (q + 1)) / q). pose proof (Z.div_mod (k - r * (q + 1)) q ltac:(lia)) as Hd. fold m in Hd.
      pose proof (Z.mod_pos_bound (k - r * (q + 1)) q Hq0).
      assert (0 <= m) by (apply Z.div_pos; lia).
      assert (r + m < nr) by nia.
      exists (r + m). split; [done|]. split; [lia|]. split.
      * rewrite HL by lia. rewrite Z.min_r, Z.max_r by lia. nia.
      * intros c Hc. rewrite HL by lia. rewrite Z.min_r, Z.max_r by lia. nia.
    + exists r. split; [done|]. split; [lia|]. split.
      * rewrite HL by lia. rewrite Z.min_l, Z.max_l by lia. lia.
      * intros c Hc. rewrite HL by lia. rewrite Z.min_r, Z.max_r by lia. nia.
Qed.

(** ** SNS pools *)
Lemma floor_div_exact a b : 0 <= a < 2 ^ 53 -> 0 < b <= 2 ^ 53 -> floor_div a b = Ret (a / b).
Proof. intros Ha Hb. unfold floor_div. destruct (float_floor_div a b Ha Hb) as (q & -> & E). cbn. by rewrite E. Qed.

Lemma ceil_of_div_exact a b : 0 <= a < 2 ^ 53 -> 0 < b <= 2 ^ 53 -> ceil_of_div a b = Ret (ceil_div a b).
Proof. intros Ha Hb. unfold ceil_of_div. destruct (float_ceil_div a b Ha Hb) as (q & -> & E). cbn. by rewrite E. Qed.

Lemma mapM_length {A B} (f : A -> outcome B) l ys : mapM f l = Ret ys -> length ys = length l.
Proof. intros H%mapM_inv. by apply Forall2_length in H. Qed.

(** Every enclosure contributes one entry to [cluster_ctrls], however many
    controllers it has. *)
Lemma cluster_ctrls_length c encls l :
  cluster_encls c M0_CST_IOS = Ret encls -> cluster_ctrls c = Ret l -> length l = length encls.
Proof. unfold cluster_ctrls. intros -> H. cbn in H. by apply mapM_length in H. Qed.

(** The units of a parity group over the [n] enclosures, as evenly as they can be: [us] is
    the number of units of each. *)
Definition evenly_placed (total n : Z) (us : list Z) : Prop :=
  Z.of_nat (length us) = n /\ foldr Z.add 0 us = total /\ forall x y, x ∈ us -> y ∈ us -> x <= y + 1.

Lemma sum_bounds (us : list Z) lo hi : Forall (fun x => lo <= x <= hi) us ->
  Z.of_nat (length us) * lo <= foldr Z.add 0 us <= Z.of_nat (length us) * hi.
Proof. induction 1 as [| x us Hx _ IH]; cbn [length foldr]; lia. Qed.

Lemma sum_lower (us : list Z) lo : Forall (fun x => lo <= x) us ->
  Z.of_nat (length us) * lo <= foldr Z.add 0 us.
Proof. induction 1 as [| x us Hx _ IH]; cbn [length foldr]; lia. Qed.

(** No enclosure has more units than the average rounded up, none fewer than rounded down. *)
Lemma evenly_placed_bounds total n us x : 0 < n -> evenly_placed total n us -> x ∈ us ->
  total / n <= x <= ceil_div total n.
Proof.
  intros Hn (Hl & Hsum & Heven) Hx. pose proof (ceil_div_spec total n Hn) as Hc.
  pose proof (Z.div_mod total n ltac:(lia)) as Hd. pose proof (Z.mod_pos_bound total n Hn) as Hm.
  apply list_elem_of_split in Hx as (us1 & us2 & ->).
  rewrite sum_app in Hsum. rewrite length_app in Hl. cbn in Hsum, Hl.
  assert (Hx : x ∈ us1 ++ x :: us2) by set_solver.
  assert (Hlo : forall us, (forall y, y ∈ us -> y ∈ us1 ++ x :: us2) -> Forall (fun y => x - 1 <= y <= x + 1) us).
  { intros us Hus. apply Forall_forall. intros y Hy%Hus.
    pose proof (Heven x y Hx Hy). pose proof (Heven y x Hy Hx). lia. }
  pose proof (sum_bounds us1 _ _ (Hlo us1 ltac:(set_solver))).
  pose proof (sum_bounds us2 _ _ (Hlo us2 ltac:(set_solver))). nia.
Qed.

(** The units on the enclosures that fail. *)
Lemma lost_at_most total n us failed e : 0 < n -> evenly_placed total n us -> failed `sublist_of` us ->
  Z.of_nat (length failed) <= e -> 0 <= total ->
  foldr Z.add 0 failed <= e * ceil_div total n.
Proof.
  intros Hn He Hs Hl Ht. pose proof (ceil_div_spec total n Hn).
  assert (Hf : Forall (fun x => total / n <= x <= ceil_div total n) failed).
  { apply Forall_forall. intros x Hx. eapply evenly_placed_bounds; [done | done |].
    eapply elem_of_submseteq; [exact Hx | by apply sublist_submseteq]. }
  pose proof (sum_bounds _ _ _ Hf). assert (0 <= ceil_div total n) by nia. nia.
Qed.

(** *** The drives of the enclosures *)
Definition encl_drives (c : Conf) (encl : Oid) (d : Z) : Prop :=
  exists e counts, conf_as as_encl c encl = Ret e
    /\ Forall2 (fun k n => exists r, conf_as as_ctrl c k = Ret r /\ n = Z.of_nat (length (c_drives r)))
         (e_ctrls e) counts
    /\ d = foldr Z.add 0 counts.

(** With drives in every enclosure, [min_drives_per_node] is below all the sums. *)
Lemma min_drives counts acc :
  Forall (fun l => 0 < foldr Z.add 0 l) counts -> 0 <= min_drives_per_node acc ->
  let m := min_drives_per_node (foldl count_encl acc counts) in
  0 <= m /\ (0 < min_drives_per_node acc \/ counts <> [] -> 0 < m)
  /\ (0 < min_drives_per_node acc -> m <= min_drives_per_node acc)
  /\ Forall (fun l => m <= foldr Z.add 0 l) counts.
Proof.
  intros Hc. revert acc. induction Hc as [| l counts Hl Hc IH]; intros acc Ha m; cbn [foldl] in m.
  { subst m. cbn. split_and!; [done | by intros [? | ?] | done | constructor]. }
  assert (Hm' : 0 < min_drives_per_node (count_encl acc l) <= foldr Z.add 0 l
    /\ (0 < min_drives_per_node acc -> min_drives_per_node (count_encl acc l) <= min_drives_per_node acc)).
  { unfold count_encl. cbn [min_drives_per_node].
    destruct (Z.eqb_spec (min_drives_per_node acc) 0); cbn [orb]; [lia|].
    destruct (Z.ltb_spec (foldr Z.add 0 l) (min_drives_per_node acc)); lia. }
  destruct (IH (count_encl acc l)) as (H0 & H1 & H2 & H3); [lia|]. fold m in H0, H1, H2, H3.
  split_and!; [done | intros _; apply H1; left; lia | lia |]. constructor; [lia | done].
Qed.

Lemma truediv_positive a b f : 0 < a < 2 ^ 53 -> 0 < b <= 2 ^ 53 -> py_truediv a b = Ret f -> 0 < fm f.
Proof.
  intros Ha Hb Hf. destruct (float_ceil_div a b ltac:(lia) Hb) as (q & Eq & Hc).
  rewrite Hf in Eq. injection Eq as <-. pose proof (ceil_div_spec a b ltac:(lia)) as Hs.
  destruct (Z.lt_ge_cases 0 (fm f)) as [| Hle]; [done|].
  assert (Hn : py_ceil f <= 0).
  { unfold py_ceil. destruct (Z.leb_spec 0 (fe f)).
    - pose proof (Z.pow_nonneg 2 (fe f) ltac:(lia)). nia.
    - pose proof (Z.pow_pos_nonneg 2 (- fe f) ltac:(lia) ltac:(lia)).
      pose proof (Z.div_pos (- fm f) (2 ^ - fe f) ltac:(lia) ltac:(lia)). lia. }
  nia.
Qed.

(** Node failures are allowed only in a pool that has, on average, no more drives in an
    enclosure than the smallest one has. *)
Lemma symmetric_pool c info drives total n f :
  drives_per_node_and_ctrl c = Ret info ->
  (min_drives_per_node info * n < Z.of_nat (length drives) ->
     py_truediv (min_drives_per_node info * n) total = Ret f /\ fm f <= 0) ->
  0 < total < 2 ^ 53 -> 0 < n -> Z.of_nat (length (drives : list Oid)) < 2 ^ 53 ->
  (forall encl, encl ∈ conf_keys_of o_enclosure c -> exists d, encl_drives c encl d /\ 0 < d) ->
  forall encl d, encl ∈ conf_keys_of o_enclosure c -> encl_drives c encl d ->
  Z.of_nat (length drives) <= n * d.
Proof.
  intros Hi Hf Ht Hn Hw Hall encl d Hencl Hd.
  apply bind_o_inv in Hi as (counts & Hc%mapM_inv & Hi). injection Hi as <-.
  assert (Hsum : forall x l d', Forall2 (fun k n => (k0 ← conf_as as_ctrl c k; Ret (Z.of_nat (length (c_drives k0)))) = Ret n)
      x l -> forall counts, Forall2 (fun k n => exists r, conf_as as_ctrl c k = Ret r /\ n = Z.of_nat (length (c_drives r))) x counts ->
      d' = foldr Z.add 0 counts -> d' = foldr Z.add 0 l).
  { intros x l d' Hl. revert d'. induction Hl as [| k n' x l Hk _ IH]; intros d' cs Hcs ->; inversion Hcs as [| ? ? ? ? (r & Hr & ->) Hrest]; subst; [done|].
    rewrite Hr in Hk. injection Hk as <-. cbn. f_equal. by eapply IH. }
  assert (Hin : forall encl d, encl ∈ conf_keys_of o_enclosure c -> encl_drives c encl d ->
    exists l, l ∈ counts /\ d = foldr Z.add 0 l).
  { intros x dx Hx (e & cs & He & Hcs & Hdx). apply list_elem_of_lookup_1 in Hx as [i Hix].
    destruct (Forall2_lookup_l _ _ _ _ _ Hc Hix) as (l & Hl & El).
    exists l. split; [by eapply list_elem_of_lookup_2|].
    rewrite He in El. cbn in El. apply mapM_inv in El. by eapply Hsum. }
  assert (Hpos : Forall (fun l => 0 < foldr Z.add 0 l) counts).
  { apply Forall_forall. intros l Hl. apply list_elem_of_lookup_1 in Hl as [i Hil].
    destruct (Forall2_lookup_r _ _ _ _ _ Hc Hil) as (x & Hx & El).
    destruct (Hall x) as (dx & (e & cs & He & Hcs & Hdx) & Hdpos); [by eapply list_elem_of_lookup_2|].
    rewrite He in El. cbn in El. apply mapM_inv in El. by rewrite <- (Hsum _ _ _ El _ Hcs Hdx). }
  destruct (min_drives counts (mkFti 0 0 0) Hpos ltac:(done)) as (_ & Hmpos & _ & Hmin).
  set (m := min_drives_per_node _) in *. destruct (Hin _ _ Hencl Hd) as (l & Hl & ->).
  rewrite Forall_forall in Hmin. specialize (Hmin l Hl).
  assert (0 < m) by (apply Hmpos; right; by destruct counts; [apply not_elem_of_nil in Hl|]).
  destruct (Z.lt_ge_cases (m * n) (Z.of_nat (length drives))) as [Hlt | Hge]; [| nia].
  destruct (Hf Hlt) as [Eq Hle]. apply truediv_positive in Eq; [lia | nia | lia].
Qed.

(** C17: what [gen_sns_tolerance] promises holds: however the units of a parity group are
    placed evenly over the enclosures, and whichever enclosures fail, as long as they
    are no more than allowed, at most the number of parity units is lost, so that the
    data can be repaired.  When the units divide evenly and a failure is allowed, one
    more failed enclosure would lose too many.  An enclosure failure is allowed only
    when the pool has no more drives than the enclosures times the drives of any one
    of them, every enclosure having some. *)
Theorem sns_tolerance_recoverable c p t encls drives data parity spare :
  gen_sns_tolerance c p = Ret t -> cluster_encls c M0_CST_IOS = Ret encls ->
  pool_drives c p = Ret drives ->
  pl_data_units p = Some data -> pl_parity_units p = Some parity ->
  spare = default 0 (fget (pl_spare_units p)) ->
  0 < data -> 0 <= parity -> 0 <= spare -> data + parity + spare < 2 ^ 53 ->
  0 < Z.of_nat (length encls) < 2 ^ 53 -> Z.of_nat (length drives) < 2 ^ 53 ->
  let total := data + parity + spare in
  let n := Z.of_nat (length encls) in
  f_drive t = parity /\ f_controller t = f_enclosure t /\
  (forall us failed, evenly_placed total n us -> failed `sublist_of` us ->
     Z.of_nat (length failed) <= f_enclosure t -> foldr Z.add 0 failed <= parity) /\
  (0 < f_enclosure t -> total mod n = 0 ->
     forall us failed, evenly_placed total n us -> failed `sublist_of` us ->
     Z.of_nat (length failed) = f_enclosure t + 1 -> parity < foldr Z.add 0 failed) /\
  (0 < f_enclosure t ->
     (forall encl, encl ∈ conf_keys_of o_enclosure c -> exists d, encl_drives c encl d /\ 0 < d) ->
     forall encl d, encl ∈ conf_keys_of o_enclosure c -> encl_drives c encl d ->
     Z.of_nat (length drives) <= n * d).
Proof.
  intros H Ee Edr Ed Ep Es Hd Hp Hs Ht He Hw total n. unfold gen_sns_tolerance in H.
  rewrite Ee, Ed, Ep in H. cbn in H.
  destruct (cluster_ctrls c) as [ctrls | |] eqn:Ec; try discriminate. cbn in H.
  rewrite (cluster_ctrls_length _ _ _ Ee Ec), floor_div_exact, Z.div_same in H by lia. cbn in H.
  assert (E : (match pl_spare_units p with Absent => Ret 0 | Null => Raise TypeError | Given s => Ret s end) = Ret spare).
  { subst spare. by destruct (pl_spare_units p); try discriminate. }
  rewrite E in H. cbn in H. clear E Es. fold total n in H, He. fold total in Ht.
  apply bind_o_inv in H as (info & Hi & H). rewrite Edr in H. cbn in H.
  apply bind_o_inv in H as (asym & Hasym & H). destruct asym.
  - destruct (parity <? max_drives_per_ctrl info); [| discriminate]. injection H as <-. cbn. split_and!; [done | done | | lia | lia].
    intros us failed _ _ Hl. destruct failed; [cbn; lia | cbn in Hl; lia].
  - pose proof (ceil_div_spec total n ltac:(lia)) as Hc. rewrite ceil_of_div_exact in H by lia. cbn in H.
    set (u := ceil_div total n) in *. assert (0 < u) by nia. assert (u <= total) by nia.
    rewrite floor_div_exact in H by lia. cbn in H. injection H as <-.
    pose proof (Z.div_mod parity u ltac:(lia)) as Hm. pose proof (Z.mod_pos_bound parity u ltac:(lia)).
    assert (0 <= parity / u) by (apply Z.div_pos; lia).
    set (e := parity / u) in *. assert (e <= parity) by nia.
    cbn [f_drive f_enclosure f_controller]. rewrite (Z.min_l (1 * e)) by lia.
    split_and!; [done | lia | | |].
    + intros us failed Hus Hf Hl. pose proof (lost_at_most total n us failed e ltac:(lia) Hus Hf Hl ltac:(lia)) as Hlost.
      fold u in Hlost. nia.
    + intros _ Hdiv us failed Hus Hf Hl.
      assert (Hu : total / n = u).
      { apply Z.div_exact in Hdiv; [| lia]. unfold u. set (q := total / n) in *. rewrite Hdiv.
        symmetry. apply ceil_div_mult. lia. }
      assert (Hall : Forall (fun x => u <= x) failed).
      { apply Forall_forall. intros x Hx. rewrite <- Hu.
        eapply (evenly_placed_bounds total n us x); [lia | done |].
        eapply elem_of_submseteq; [exact Hx | by apply sublist_submseteq]. }
      pose proof (sum_lower _ _ Hall). nia.
    + intros _ Hall encl d Hencl Hdr.
      destruct (Z.ltb_spec (min_drives_per_node info * n) (Z.of_nat (length drives))) as [Hlt | Hge].
      * apply bind_o_inv in Hasym as (f & Hf & Hasym). injection Hasym as Hasym. apply Z.ltb_ge in Hasym.
        eapply (symmetric_pool c info drives total n f); try done; lia.
      * eapply (symmetric_pool c info drives total n (mkFloat 0 0)); try done; lia.
Qed.

(** ** Auxiliary pools *)
Lemma combs_elem {A} r (xs l : list A) : l ∈ combs r xs <-> l `sublist_of` xs /\ length l = r.
Proof.
  revert r l. induction xs as [| x xs IH]; intros r l.
  - destruct r; cbn.
    + rewrite list_elem_of_singleton. split; [by intros -> | intros [_ ->%nil_length_inv]; done].
    + rewrite elem_of_nil. split; [done|]. by intros [->%sublist_nil_r ?].
  - destruct r; cbn.
    + rewrite list_elem_of_singleton. split; [intros ->; split; [apply sublist_nil_l | done]|].
      by intros [_ ->%nil_length_inv].
    + rewrite elem_of_app, list_elem_of_fmap, IH. setoid_rewrite IH. split.
      * intros [(w & -> & Hw & <-) | [Hw <-]]; [split; [by apply sublist_skip | done]|].
        split; [by apply sublist_cons | done].
      * intros [Hs Hl]. inversion Hs as [| ? w ? Hw | ? ? ? Hw]; subst; [left | by right].
        exists w. cbn in Hl. split; [done | split; [done | lia]].
Qed.

Lemma mapM_total {A B} (f : A -> outcome B) (h : A -> B) l :
  (forall x, x ∈ l -> f x = Ret (h x)) -> mapM f l = Ret (h <$> l).
Proof.
  induction l as [| x l IH]; intros Hf; [done|]. cbn. rewrite (Hf x) by left. cbn.
  rewrite IH; [done|]. intros y Hy. apply Hf. by right.
Qed.

Lemma concat_o_total {A B} (f : A -> outcome (list B)) (h : A -> list B) l :
  (forall x, x ∈ l -> f x = Ret (h x)) -> concat_o f l = Ret (concat (h <$> l)).
Proof. intros Hf. unfold concat_o. by rewrite (mapM_total f h). Qed.

(** The node of a reference *)
Definition ref_node (r : DiskRef) : option string := fget (dr_node r).

(** A reference that names its node. *)
Definition named (r : DiskRef) : Prop := exists n, dr_node r = Given n.

Lemma fitem_named r : named r -> fitem "node" (dr_node r) = Ret (ref_node r).
Proof. unfold ref_node. by intros [n ->]. Qed.

Lemma refs_of_total refs encl : Forall named refs ->
  exists comb, refs_of refs encl = Ret comb /\ forall r, r ∈ comb <-> r ∈ refs /\ ref_node r ∈ encl.
Proof.
  intros Hn. rewrite Forall_forall in Hn.
  set (on x := concat ((fun dr => if bool_decide (ref_node dr = x) then [dr] else []) <$> refs)).
  assert (Hon : forall x r, r ∈ on x <-> r ∈ refs /\ ref_node r = x).
  { intros x r. unfold on. rewrite list_elem_of_In, in_concat. split.
    - intros (l & Hl & Hr). apply list_elem_of_In in Hl as (dr & -> & Hdr)%list_elem_of_fmap.
      case_bool_decide; [| done]. cbn in Hr. destruct Hr as [<- | []]. done.
    - intros [Hr E]. exists [r]. split; [| by left]. apply list_elem_of_In, list_elem_of_fmap.
      exists r. by rewrite bool_decide_true. }
  exists (concat (on <$> encl)). split.
  - apply concat_o_total. intros x _. apply concat_o_total. intros dr Hdr.
    unfold on_node. rewrite fitem_named by auto. done.
  - intros r. rewrite list_elem_of_In, in_concat. split.
    + intros (l & Hl & Hr%list_elem_of_In). apply list_elem_of_In in Hl as (x & -> & Hx)%list_elem_of_fmap.
      apply Hon in Hr as [Hr <-]. done.
    + intros [Hr Hx]. exists (on (ref_node r)). rewrite <- !list_elem_of_In. split; [| by apply Hon].
      apply list_elem_of_fmap. eauto.
Qed.

Section Aux.
Context (list_set : list (option string) -> list (option string)).
Context (list_set_perm : forall l, list_set l ≡ₚ remove_dups l).

(** [failed] is a set of at most [n] of the nodes, at least one. *)
Definition failed_nodes (nodes : list (option string)) (n : Z) (failed : list (option string)) : Prop :=
  NoDup failed /\ (forall x, x ∈ failed -> x ∈ nodes) /\ 1 <= Z.of_nat (length failed) <= n.

Lemma count_down_elem n k : k ∈ count_down n <-> 1 <= k <= n.
Proof. unfold count_down. rewrite list_elem_of_In, <- in_rev, <- list_elem_of_In, elem_of_seqZ. lia. Qed.

Lemma filter_sublist {A} (P : A -> Prop) `{forall x, Decision (P x)} (l : list A) : filter P l `sublist_of` l.
Proof.
  induction l as [| x l IH]; [done|]. rewrite filter_cons.
  case_decide; [by apply sublist_skip | by apply sublist_cons].
Qed.

(** A set of nodes and its complement *)
Lemma complement_split (nodes part : list (option string)) :
  NoDup nodes -> NoDup part -> (forall x, x ∈ part -> x ∈ nodes) ->
  nodes ≡ₚ part ++ filter (fun x => x ∉ part) nodes.
Proof.
  intros Hn Hp Hsub. apply NoDup_Permutation; [done | |].
  - apply NoDup_app. split_and!; [done | | by apply NoDup_filter].
    intros x Hx [Hx' _]%list_elem_of_filter. done.
  - intros x. rewrite elem_of_app, list_elem_of_filter.
    destruct (decide (x ∈ part)); naive_solver.
Qed.

(** C18: The auxiliary pools cover exactly the allowed failures: for every set of
    at most [enclosure] failed nodes there is a pool made of just the disks of the
    other nodes, and every pool arises so (whatever order [list(set(..))] has). *)
Theorem aux_pools_cover_failures pool disks enclosure :
  let refs := aux_refs pool disks in
  let nodes := list_set (ref_node <$> refs) in
  Forall named refs -> enclosure <= Z.of_nat (length nodes) ->
  exists combos, aux_combinations list_set pool disks enclosure = Ret combos /\
    (forall failed, failed_nodes nodes enclosure failed ->
       exists comb, comb ∈ combos /\ forall r, r ∈ comb <-> r ∈ refs /\ ref_node r ∉ failed) /\
    (forall comb, comb ∈ combos ->
       exists failed, failed_nodes nodes enclosure failed /\
         forall r, r ∈ comb <-> r ∈ refs /\ ref_node r ∉ failed).
Proof using list_set_perm.
  intros refs nodes Hnamed Hle. unfold aux_combinations. fold refs.
  rewrite (mapM_total _ ref_node) by (intros r Hr; apply fitem_named; rewrite Forall_forall in Hnamed; auto).
  cbn [mbind outcome_bind]. fold nodes.
  set (n := Z.of_nat (length nodes)) in *.
  assert (Hnd : NoDup nodes) by (unfold nodes; rewrite list_set_perm; apply NoDup_remove_dups).
  assert (Hin : forall r, r ∈ refs -> ref_node r ∈ nodes).
  { intros r Hr. unfold nodes. rewrite list_set_perm. apply elem_of_remove_dups, list_elem_of_fmap. eauto. }
  assert (Ecomb : encl_ref_combination nodes enclosure =
    Ret (concat ((fun k => combs (Z.to_nat (n - k)) nodes) <$> count_down enclosure))).
  { apply concat_o_total. intros k Hk%count_down_elem. unfold combinations. fold n.
    by destruct (Z.ltb_spec (n - k) 0); [lia|]. }
  rewrite Ecomb. cbn [mbind outcome_bind]. clear Ecomb.
  set (cs := concat _).
  assert (Hcs : forall s, s ∈ cs <-> exists k, 1 <= k <= enclosure /\ s `sublist_of` nodes /\ Z.of_nat (length s) = n - k).
  { intros s. unfold cs. rewrite list_elem_of_In, in_concat. split.
    - intros (l & Hl & Hs%list_elem_of_In).
      apply list_elem_of_In in Hl as (k & -> & Hk%count_down_elem)%list_elem_of_fmap.
      apply combs_elem in Hs as [Hs Hlen]. exists k. split_and!; try done; lia.
    - intros (k & Hk & Hs & Hlen). exists (combs (Z.to_nat (n - k)) nodes). split.
      + apply list_elem_of_In, list_elem_of_fmap. exists k. split; [done | by apply count_down_elem].
      + apply list_elem_of_In, combs_elem. split; [done | lia]. }
  assert (Hh : exists h, forall s, refs_of refs s = Ret (h s) /\ forall r, r ∈ h s <-> r ∈ refs /\ ref_node r ∈ s).
  { exists (fun s => match refs_of refs s with Ret comb => comb | _ => [] end). intros s.
    destruct (refs_of_total refs s Hnamed) as (comb & -> & Hc). done. }
  destruct Hh as [h Hh]. exists (h <$> cs).
  split; [apply mapM_total; intros s _; apply Hh|]. split.
  - intros failed (Hf1 & Hf2 & Hf3). pose proof (complement_split nodes failed Hnd Hf1 Hf2) as Hp.
    set (s := filter (fun x => x ∉ failed) nodes) in *. exists (h s). split.
    + apply list_elem_of_fmap. exists s. split; [done|]. apply Hcs. exists (Z.of_nat (length failed)).
      split_and!; [lia | lia | apply filter_sublist |].
      apply Permutation_length in Hp. rewrite length_app in Hp. lia.
    + intros r. destruct (Hh s) as [_ ->]. unfold s. rewrite list_elem_of_filter. naive_solver.
  - intros comb (s & -> & (k & Hk & Hs & Hlen)%Hcs)%list_elem_of_fmap.
    assert (Hsn : NoDup s) by (by eapply sublist_NoDup).
    assert (Hss : forall x, x ∈ s -> x ∈ nodes)
      by (intros x Hx; by eapply elem_of_submseteq; [| apply sublist_submseteq]).
    pose proof (complement_split nodes s Hnd Hsn Hss) as Hp.
    exists (filter (fun x => x ∉ s) nodes). split.
    + split_and!; [by apply NoDup_filter | by intros x [_ ?]%list_elem_of_filter | |];
        apply Permutation_length in Hp; rewrite length_app in Hp; lia.
    + intros r. destruct (Hh s) as [_ ->]. rewrite list_elem_of_filter.
      split; [naive_solver|]. intros [Hr Hnot]. split; [done|].
      destruct (decide (ref_node r ∈ s)); [done|]. exfalso. apply Hnot. auto.
Qed.
End Aux.
