(* ===== verification/CfgenPoolRuns.v ===== *)
(** * The pools are built ([src/cfgen/cfgen])

    [ConfPool.build] succeeds on a configuration whose hardware is complete, for
    pools that pass [pool_ok] and whose drives can be found, and leaves the
    hardware alone. *)

From stdpp Require Import list_numbers.
From S2P Require Import Prelude PyStr Json HaxTypes OrdDict PyFloat CfgenTypes CfgenBuild.
From S2P Require Import CfgenPools CfgenCluster CfgenInv CfgenWf CfgenReads CfgenRuns.
From S2P Require Import CfgenMirror CfgenPverWf CfgenClusterWf CfgenTotal CfgenSame CfgenTol.

(** ** Which keys a computation adds *)

(** New keys are of other types than the hardware; counters of identifiers of
    other kinds stay. *)
Record tail_of (g g' : Gen) : Prop := mkTailOf {
  to_keys : exists new, od_keys (m0conf g') = od_keys (m0conf g) ++ new /\
    Forall (fun o => hwt (o_type o) = false) new;
  to_dev : dev_idx g' = dev_idx g;
  to_cuid : cuid g <= cuid g';
  to_ports : pg_other g' = pg_other g }.

Lemma tail_refl g : tail_of g g.
Proof. split; try done. exists []. by rewrite app_nil_r. Qed.

Lemma tail_trans g1 g2 g3 : tail_of g1 g2 -> tail_of g2 g3 -> tail_of g1 g3.
Proof.
  intros [(n1 & K1 & F1) D1 C1 P1] [(n2 & K2 & F2) D2 C2 P2]. split; [| congruence | lia | congruence].
  exists (n1 ++ n2). rewrite K2, K1, app_assoc. split; [done | by apply Forall_app].
Qed.

Lemma tail_set g o x :
  hwt (o_type o) = false \/ o ∈ od_keys (m0conf g) -> tail_of g (with_conf (od_set o x (m0conf g)) g).
Proof.
  intros Ho. split; [cbn [m0conf with_conf] | done | cbn [cuid with_conf]; lia | done]. destruct (decide (o ∈ od_keys (m0conf g))) as [Hin | Hin].
  - exists []. by rewrite app_nil_r, od_keys_set_old.
  - exists [o]. rewrite od_keys_set_new by done. split; [done|]. apply Forall_singleton. naive_solver.
Qed.

Definition tails {A} (m : M Gen A) : Prop := forall g a g', m g = (Ret a, g') -> tail_of g g'.

Lemma tails_seq {A B} (m : M Gen A) (k : A -> M Gen B) : tails m -> (forall a, tails (k a)) -> tails (m ≫= k).
Proof. intros Hm Hk g a g' (b & g1 & H1 & H2)%bind_Ret. eapply tail_trans; [by eapply Hm | by eapply Hk]. Qed.

Lemma tails_upd o f : tails (conf_upd o f).
Proof. intros g a g' (x & y & Hx & _ & ->)%conf_upd_inv. apply tail_set. right. by eapply od_get_in. Qed.

Lemma tails_mret {A} (a : A) : tails (mret a).
Proof. intros g b g' [_ ->]%mret_inv. apply tail_refl. Qed.
Lemma tails_lift {A} (o : outcome A) : tails (lift o).
Proof. intros g b g' [_ ->]%lift_Ret_inv. apply tail_refl. Qed.
Lemma tails_gets {A} (f : Gen -> A) : tails (gets f).
Proof. intros g b g' [_ ->]%gets_inv. apply tail_refl. Qed.
Lemma tails_assert b : tails (assert b).
Proof. intros g u g' [_ ->]%assert_inv. apply tail_refl. Qed.

Lemma ConfObjv_build_tails real : tails (ConfObjv_build real).
Proof.
  unfold ConfObjv_build, ConfObjv_init. intros g a g' H. crunch.
  split; cbn; [| done | lia | done].
  apply (to_keys g (with_conf (od_set (mkOid o_objv (allocate_base_fidkey o_objv (ObjT_last_fidk g o_objv)))
           (ConfObjv (mkObjv real [])) (m0conf g)) g)), tail_set. by left.
Qed.

Ltac solve_tails :=
  repeat first
    [ apply tails_upd | apply ConfObjv_build_tails | apply tails_mret | apply tails_lift | apply tails_gets
    | apply tails_assert | apply tails_seq; [| intros ?] | case_match ].

Lemma climb_tails pver types dev0 V : tails (climb pver types dev0 V).
Proof.
  revert dev0 V. induction types as [| t types IH]; intros dev0 V; cbn [climb]; [apply tails_mret|].
  unfold enter_pver. solve_tails. all: apply IH.
Qed.

Lemma fold_m_tails {A S} (f : S -> A -> M Gen S) l : (forall s x, tails (f s x)) -> forall s, tails (fold_m f s l).
Proof. intros Hf. induction l as [| x l IH]; intros s; cbn; [apply tails_mret|]. apply tails_seq; auto. Qed.

Lemma pver_drive_tails pver V d : tails (pver_drive pver V d).
Proof.
  unfold pver_drive, enter_pver. repeat (apply tails_seq; [solve_tails; try apply climb_tails | intros ?]).
  all: solve_tails.
Qed.

Lemma build_pver_subtree_tails pver drives : tails (build_pver_subtree pver drives).
Proof.
  unfold build_pver_subtree. repeat (apply tails_seq; [solve_tails | intros ?]).
  apply fold_m_tails. intros. apply pver_drive_tails.
Qed.

(** An object that is not hardware, under its parent *)
Lemma tail_child g g' o x p y :
  m0conf g' = od_set p y (od_set o x (m0conf g)) -> hwt (o_type o) = false -> p ∈ od_keys (od_set o x (m0conf g)) ->
  dev_idx g' = dev_idx g -> cuid g <= cuid g' -> pg_other g' = pg_other g -> tail_of g g'.
Proof.
  intros Ec Ho Hp E1 E2 E3. split; [| done | done | done]. rewrite Ec, od_keys_set_old by done.
  apply (to_keys g (with_conf (od_set o x (m0conf g)) g)), tail_set. by left.
Qed.

Lemma ConfPver_build_tails parent pd drives tol : tails (ConfPver_build parent pd drives (Some tol)).
Proof.
  unfold ConfPver_build, ConfPver_init. intros g a g' H. crunch.
  match goal with H : build_pver_subtree _ _ _ = _ |- _ => pose proof (build_pver_subtree_tails _ _ _ _ _ H) as T end.
  eapply tail_trans; [| exact T]. eapply tail_child; try reflexivity; try done. by eapply od_get_in.
Qed.

(** ** The hardware stays *)
Lemma hw_same_keys g g' : tail_of g g' ->
  forall t, hwt t = true -> conf_keys_of t (m0conf g') = conf_keys_of t (m0conf g).
Proof.
  intros [(new & K & F) _ _ _] t Ht. unfold conf_keys_of. rewrite K, List.filter_app.
  assert (E : List.filter (is_t t) new = []); [| by rewrite E, app_nil_r].
  clear K. induction F as [| o l Ho F IH]; [done|]. cbn. unfold is_t at 1. rewrite bool_decide_eq_false_2; [exact IH | congruence].
Qed.

Lemma hw_same_set c o x : hwt (o_type o) = false -> hw_same c (od_set o x c).
Proof.
  intros Ho. split.
  - intros t Ht. set (g := with_conf c gen0).
    apply (hw_same_keys g (with_conf (od_set o x c) g)); [| done]. apply tail_set. by left.
  - intros k z Hk Hz. exists z. rewrite od_get_set_ne; [done|]. intros <-. congruence.
Qed.

Lemma add_pver_core v x y : obj_add_pver v x = Ret y -> obj_objt x <> o_pool -> core y = core x /\ links_of y = links_of x.
Proof. destruct x; cbn; intros [= <-] H; done. Qed.

Lemma mirrors_hw_same g g' pver drives V f :
  wf (m0conf g) f -> tail_of g g' -> o_type pver = o_pver -> mirrors (m0conf g) (m0conf g') pver drives V ->
  hw_same (m0conf g) (m0conf g').
Proof.
  intros Hwf T Hpv Hm. split; [by apply hw_same_keys|]. intros o x Ho Hx.
  assert (Hnp : o_type o <> o_pool) by (by intros E; rewrite E in Ho).
  destruct (ms_marked _ _ _ _ _ Hm o x Hx) as (x' & Hx' & Hin & Hout); [by intros ->; rewrite Hpv in Ho | done |].
  exists x'. split; [done|]. destruct (decide (o ∈ od_keys V)) as [Hv | Hv]; [| by rewrite (Hout Hv)].
  apply (add_pver_core pver); [by apply Hin|]. by rewrite <- (wf_class _ _ Hwf _ _ Hx).
Qed.

(** ** What the description of a pool must have *)
Definition units_ok (p : PoolDesc) : bool :=
  match pl_data_units p, pl_parity_units p with
  | Some d, Some k =>
      (0 <? d) && (0 <=? k) &&
      match fget (pl_spare_units p) with None => true | Some s => (s =? 0) || (s =? k) end
  | None, None => match fget (pl_spare_units p) with None => true | Some s => s =? 0 end
  | _, _ => false
  end.

Definition pool_ok (p : PoolDesc) : bool :=
  match pool_type p with
  | Ret t =>
      units_ok p &&
      match t, pl_data_units p, pl_allowed_failures p with
      | pool_sns, Some _, Some f | pool_dix, _, Some f => forallb (fun n => 0 <=? n) (failures_list f)
      | pool_dix, _, None | pool_md, _, _ => true
      | _, _, _ => false
      end
  | _ => false
  end.

Lemma check_spare_ok p : units_ok p = true -> check_spare p = Ret tt.
Proof.
  unfold units_ok, check_spare. destruct (pl_data_units p), (pl_parity_units p), (fget (pl_spare_units p)) as [s |];
    try done; rewrite ?andb_true_iff.
  - intros [_ [-> | H]%orb_true_iff]; [done|]. destruct (s =? 0); cbn; [done | by rewrite H].
  - by intros ->.
Qed.

Lemma floor_div_self n : 0 < n -> floor_div n n = Ret 1.
Proof.
  intros Hn. unfold floor_div, py_truediv. destruct (Z.eqb_spec n 0); [lia|]. rewrite Z.abs_eq by lia.
  assert (E : fdiv_pos n n = mkFloat (2 ^ 52) (- 52)).
  { unfold fdiv_pos, flog2. rewrite Z.sub_diag. cbn [Z.max Z.opp Z.compare]. rewrite Z.pow_0_r, Z.leb_refl.
    change (Z.max (0 - 52) (-1074)) with (-52). cbn [Z.max Z.opp Z.compare]. rewrite Z.pow_0_r, Z.mul_1_r.
    rewrite Z.mul_comm, round_even_exact by lia. done. }
  rewrite E. cbn -[Z.pow]. rewrite Z.sgn_pos by lia. done.
Qed.

Section Tolerances.
Context (c : Conf) (f : ObjT -> Z) (Hwf : wf c f).
Context (ei ec : list Oid) (Hei : cluster_encls c M0_CST_IOS = Ret ei) (Hec : cluster_encls c M0_CST_CAS = Ret ec).
Context (Nei : ei <> []) (Nec : ec <> []).

Lemma cluster_encls_key st l e : cluster_encls c st = Ret l -> e ∈ l -> e ∈ conf_keys_of o_enclosure c.
Proof.
  unfold cluster_encls. intros H He. apply bind_o_inv in H as (l' & H & [= <-]). rewrite elem_of_remove_dups in He.
  destruct (concat_o_elem _ _ _ _ H He) as (x & y & Hx & Hy & Hin).
  apply bind_o_inv in Hy as (svcs & _ & [= <-]). apply list_elem_of_In, in_map_iff in Hin as (s & <- & _). done.
Qed.

Lemma gen_md_tolerance_ok : exists t, gen_md_tolerance c = Ret t /\ Forall (fun n => 0 <= n) (failures_list t).
Proof using Hwf Hei Nei.
  unfold gen_md_tolerance. rewrite Hei. cbn [mbind outcome_bind].
  destruct (mapM_ok (fun encl_id => e ← conf_as as_encl c encl_id; Ret (e_ctrls e)) ei) as [l El].
  { intros e He. apply (cluster_encls_key _ _ _ Hei), conf_keys_of_elem in He.
    destruct (encl_object _ _ Hwf _ He) as (x & Hx & _). erewrite (conf_as_ok _ _ _ _ _ Hx) by reflexivity. by eexists. }
  assert (Ec : cluster_ctrls c = Ret l) by (unfold cluster_ctrls; rewrite Hei; done).
  rewrite Ec. cbn [mbind outcome_bind]. rewrite (cluster_ctrls_length _ _ _ Hei Ec).
  assert (Hn : 0 < Z.of_nat (length ei)) by (destruct ei; [done | cbn; lia]).
  rewrite floor_div_self by done. cbn [mbind outcome_bind]. eexists. split; [done|].
  repeat constructor; cbn -[Z.of_nat Z.mul]; lia.
Qed.

Lemma pool_tolerance_ok p t :
  pool_ok p = true -> pool_type p = Ret t ->
  exists tol, pool_tolerance c p t = Ret tol /\ Forall (fun n => 0 <= n) (failures_list tol).
Proof using Hwf Hei Nei.
  unfold pool_ok. intros Hp Et. rewrite Et in Hp. apply andb_true_iff in Hp as [_ Hp]. unfold pool_tolerance.
  assert (Hf : forall a, forallb (fun n => 0 <=? n) (failures_list a) = true -> Forall (fun n => 0 <= n) (failures_list a)).
  { intros a Ha. apply Forall_forall. intros n Hn%list_elem_of_In. rewrite forallb_forall in Ha. by apply Z.leb_le, Ha. }
  destruct t, (pl_allowed_failures p) as [a |]; eauto using gen_md_tolerance_ok; destruct (pl_data_units p); eauto; done.
Qed.

Lemma pool_pd_attrs_ok p t :
  pool_ok p = true -> pool_type p = Ret t ->
  exists pd, pool_pd_attrs c p t = Ret pd /\ 0 < pd_data_units pd /\ 0 <= pd_parity_units pd /\
    spare_ok (pd_parity_units pd) (pd_spare_units pd) = true.
Proof using Hei Hec Nei Nec.
  unfold pool_ok. intros Hp Et. rewrite Et in Hp. apply andb_true_iff in Hp as [Hu Hp].
  unfold pool_pd_attrs, units_ok in *.
  destruct (pl_data_units p) as [d |], (pl_parity_units p) as [k |]; try done; cbn [mbind outcome_bind check].
  - apply andb_true_iff in Hu as [[Hd%Z.ltb_lt Hk%Z.leb_le]%andb_true_iff Hs]. eexists. split; [reflexivity|]. cbn.
    split_and!; [done | done |]. unfold spare_ok. destruct (fget (pl_spare_units p)); cbn; [done|].
    by rewrite Z.eqb_refl, orb_true_r.
  - destruct t; [done | |]; cbn [mbind outcome_bind bool_decide].
    + rewrite Hec. eexists. split; [reflexivity|]. cbn -[Z.of_nat]. destruct ec; [done|]. cbn [length]. split_and!; [lia | lia | done].
    + rewrite Hei. eexists. split; [reflexivity|]. cbn -[Z.of_nat]. destruct ei; [done|]. cbn [length]. split_and!; [lia | lia | done].
Qed.
End Tolerances.

(** ** One pool *)
Definition pools_grow (c c' : Conf) : Prop := forall k po, od_get k c = Some (ConfPool po) ->
  exists po', od_get k c' = Some (ConfPool po') /\ po_name po' = po_name po /\
    forall v, v ∈ po_pvers po -> v ∈ po_pvers po'.

Lemma pools_grow_refl c : pools_grow c c.
Proof. intros k po Hk. eauto. Qed.

Lemma pools_grow_trans c1 c2 c3 : pools_grow c1 c2 -> pools_grow c2 c3 -> pools_grow c1 c3.
Proof.
  intros H1 H2 k po Hk. destruct (H1 k po Hk) as (po1 & Hk1 & N1 & V1).
  destruct (H2 k po1 Hk1) as (po2 & Hk2 & N2 & V2). exists po2. split_and!; [done | congruence | auto].
Qed.

(** A new key or a change of something that is not a pool *)
Lemma pools_grow_set c o x : (forall po, od_get o c <> Some (ConfPool po)) -> pools_grow c (od_set o x c).
Proof.
  intros Ho k po Hk. exists po. rewrite od_get_set_ne; [auto|]. intros <-. by eapply Ho.
Qed.

Lemma pools_grow_pool c o po v :
  od_get o c = Some (ConfPool po) -> pools_grow c (od_set o (ConfPool (mkPool (po_pvers po ++ [v]) (po_name po))) c).
Proof.
  intros Ho k po' Hk. destruct (decide (k = o)) as [-> | Hne].
  - rewrite Ho in Hk. injection Hk as <-. eexists. rewrite od_get_set_eq. split_and!; [done | done |].
    intros w Hw. apply elem_of_app. by left.
  - exists po'. rewrite od_get_set_ne by done. auto.
Qed.

(** The state while pools are built: the hardware is that of [c0], the root is [r]. *)
Record pooling (c0 : Conf) (root : Oid) (r : CRoot) (g : Gen) : Prop := mkPooling {
  pst_good : good g 0 0;
  pst_same : hw_same c0 (m0conf g);
  pst_root : od_get root (m0conf g) = Some (ConfRoot r) }.

Lemma root_type g P S root r : good g P S -> od_get root (m0conf g) = Some (ConfRoot r) -> o_type root = o_root.
Proof. intros Hg Hr. by apply (wf_class _ _ (gd_wf _ _ _ Hg) _ _ Hr). Qed.

Lemma ConfPverF_build_runs c0 root r g pool po base v :
  pooling c0 root r g -> od_get pool (m0conf g) = Some (ConfPool po) -> has g o_pver base ->
  runs (ConfPverF_build pool base v) g (fun _ g' =>
    pooling c0 root r g' /\ pools_grow (m0conf g) (m0conf g') /\ has g' o_pver base).
Proof.
  intros [G C R] Hp [Hb Tb]. pose proof (wf_class _ _ (gd_wf _ _ _ G) _ _ Hp) as Tp. cbn in Tp.
  pose proof (root_type _ _ _ _ _ G R) as Tr.
  pose proof (gd_dev _ _ _ G) as Hd. pose proof (gd_cuid _ _ _ G) as Hc.
  unfold ConfPverF_build, ConfPverF_init, next_cuid.
  eapply runs_step; [by apply assert_step, is_t_true|]. step. step.
  cbn [cuid with_fidk]. eapply runs_step; [by rewrite (proj2 (Z.leb_le _ _) Hc), (proj2 (is_t_true _ _) Tb)|].
  eapply (child_runs0 g _ o_pver_f _ (fun o => obj_add_pver o) pool (ConfPool po)); try done; try lia.
  - cbn [cuid with_cuid with_fidk]. lia.
  - by rewrite Tp.
  - split; cbn; try done; [by rewrite (proj2 (is_t_true _ _) Tb) | by intros x ->%list_elem_of_singleton].
  - eapply pool_adds; [by right | reflexivity].
  - intros g' G' C' Hfresh. set (o := mkOid o_pver_f _) in *.
    assert (Hpo : od_get pool (od_set o (ConfPverF (mkPverF (cuid g) base (failures_list v))) (m0conf g)) = Some (ConfPool po)).
    { rewrite od_get_set_ne; [done|]. intros <-. by apply Hfresh, (od_get_in _ _ _ Hp). }
    split_and!.
    + split; [exact G' | rewrite C' |].
      * eapply hw_same_trans; [exact C|]. eapply hw_same_trans; apply hw_same_set; [done | by rewrite Tp].
      * rewrite C', !od_get_set_ne; [done | |]; intros E; rewrite <- E in Tr; [done | by rewrite Tp in Tr].
    + rewrite C'. eapply pools_grow_trans; [apply pools_grow_set | by apply pools_grow_pool].
      intros po' Hpo'. by apply Hfresh, (od_get_in _ _ _ Hpo').
    + split; [| done]. rewrite C'. apply od_keys_set_elem. right. apply od_keys_set_elem. by right.
Qed.

Lemma formulaic_run c0 root r g pool po base l :
  pooling c0 root r g -> od_get pool (m0conf g) = Some (ConfPool po) -> has g o_pver base ->
  runs (for_each l (fun v => ConfPverF_build pool base v ;; mret tt)) g (fun _ g' =>
    pooling c0 root r g' /\ pools_grow (m0conf g) (m0conf g')).
Proof.
  revert g po. induction l as [| v l IH]; intros g po Hg Hp Hb; cbn [for_each].
  - apply runs_mret. split; [done | apply pools_grow_refl].
  - eapply (runs_bind _ _ _ (fun _ g' => pooling c0 root r g' /\ pools_grow (m0conf g) (m0conf g') /\ has g' o_pver base)).
    { eapply runs_bind; [by eapply ConfPverF_build_runs|]. intros o g1 H1. by apply runs_mret. }
    intros u g1 (P1 & G1 & B1). destruct (G1 pool po Hp) as (po1 & Hp1 & _).
    eapply runs_conseq; [by eapply IH|]. intros u' g2 [P2 G2]. split; [done | by eapply pools_grow_trans].
Qed.

Lemma ConfPver_build_pooling c0 f0 root r g pool po pd drives tol :
  wf c0 f0 -> pooling c0 root r g -> od_get pool (m0conf g) = Some (ConfPool po) ->
  drives <> [] -> NoDup drives -> Forall (fun d => d ∈ od_keys c0 /\ o_type d = o_drive) drives ->
  0 < pd_data_units pd -> 0 <= pd_parity_units pd ->
  spare_ok (pd_parity_units pd) (pd_spare_units pd) = true -> Forall (fun n => 0 <= n) (failures_list tol) ->
  runs (ConfPver_build pool pd drives (Some tol)) g (fun pv g' =>
    pooling c0 root r g' /\ pools_grow (m0conf g) (m0conf g') /\ has g' o_pver pv /\
    od_get pool (m0conf g') = Some (ConfPool (mkPool (po_pvers po ++ [pv]) (po_name po)))).
Proof.
  intros Hwf0 [G C R] Hp Hne Hnd Hd Hdu Hpu Hsp Htol. pose proof (root_type _ _ _ _ _ G R) as Tr.
  destruct (ConfPver_build_run g pool po pd drives tol) as (pv & V & g' & Erun & Tpv & Hf & Hm & Hw & Hh & Hb & Hpools); try done.
  { apply G. } { by eapply good_bounded. } { apply G. }
  { eapply Forall_impl; [exact Hd|]. intros d [Hk Ht]. split; [| done].
    apply (conf_keys_of_elem o_drive (m0conf g)). rewrite (hs_keys _ _ C) by done. by apply conf_keys_of_elem. }
  pose proof (ConfPver_build_tails _ _ _ _ _ _ _ Erun) as T.
  pose proof (ConfPver_build_grows _ _ _ _ _ _ _ Erun) as Mo.
  exists pv, g'. split; [done|]. split_and!; [split | | done |].
  - destruct T as [_ D U Po], Hb as [Hb1 Hb2]. destruct G as [_ _ _ G4 G5 G6 G7].
    split; rewrite ?D, ?Po; try done; try lia. by rewrite (mono_single _ _ Mo).
  - eapply hw_same_trans; [exact C|]. eapply mirrors_hw_same; [apply G | done | done | exact Hm].
  - destruct (ms_marked _ _ _ _ _ Hm root _ R) as (x' & Hx' & Hin & Hout).
    + intros ->. by rewrite Tpv in Tr.
    + by rewrite Tr.
    + rewrite Hx'. destruct (decide (root ∈ od_keys V)) as [Hv | Hv]; [| by rewrite (Hout Hv)].
      pose proof (Hin Hv) as H. discriminate H.
  - intros k y Hk. pose proof (wf_class _ _ (gd_wf _ _ _ G) _ _ Hk) as Tk. rewrite (Hpools k _ Hk Tk).
    case_decide as Ek; [subst k | eauto]. rewrite Hp in Hk. injection Hk as <-. eexists. split_and!; [done | done|].
    intros w Hw'. apply elem_of_app. by left.
  - pose proof (wf_class _ _ (gd_wf _ _ _ G) _ _ Hp) as Tp. rewrite (Hpools _ _ Hp Tp). by rewrite decide_True.
Qed.

(** A change of the root *)
Lemma root_upd_runs c0 root r r' g f :
  pooling c0 root r g -> f (ConfRoot r) = Ret (ConfRoot r') ->
  (forall u g', conf_upd root f g = (Ret u, g') -> ext g g') ->
  runs (conf_upd root f) g (fun _ g' => pooling c0 root r' g' /\ pools_grow (m0conf g) (m0conf g')).
Proof.
  intros [G C R] Hf He. pose proof (conf_upd_run root f g _ _ R Hf) as Erun. specialize (He _ _ Erun).
  pose proof (root_type _ _ _ _ _ G R) as Tr. eexists tt, _. split; [exact Erun|]. split.
  - split; cbn [m0conf with_conf].
    + destruct G as [G1 G2 G3 G4 G5 G6 G7]. split; try done. apply (ext_wf _ _ He); [| done]. split; cbn; lia.
    + eapply hw_same_trans; [exact C|]. apply hw_same_set. by rewrite Tr.
    + apply od_get_set_eq.
  - apply pools_grow_set. intros po Hpo. congruence.
Qed.

(** The new pool, before it has a version *)
Lemma new_pool_runs {A} c0 root r g name (k : Oid -> M Gen A) Q :
  pooling c0 root r g ->
  (forall o g', pooling c0 root (mkRoot (r_nodes r) (r_sites r) (r_pools r ++ [o]) (r_profiles r)
       (r_fdmi_flt_grps r) (r_mdpool r) (r_mdredundancy r) (r_imeta_pver r)) g' ->
     pools_grow (m0conf g) (m0conf g') -> od_get o (m0conf g') = Some (ConfPool (mkPool [] name)) ->
     runs (k o) g' Q) ->
  runs (pool_id ← new_oid o_pool; conf_put pool_id (ConfPool (mkPool [] name)) ;;
        conf_upd root (add_pool pool_id) ;; k pool_id) g Q.
Proof.
  intros [G C R] Hk. pose proof (root_type _ _ _ _ _ G R) as Tr.
  assert (Hrun : runs (pool_id ← new_oid o_pool; conf_put pool_id (ConfPool (mkPool [] name)) ;;
      conf_upd root (add_pool pool_id) ;; mret pool_id) g (fun o g' =>
      pooling c0 root (mkRoot (r_nodes r) (r_sites r) (r_pools r ++ [o]) (r_profiles r)
        (r_fdmi_flt_grps r) (r_mdpool r) (r_mdredundancy r) (r_imeta_pver r)) g' /\
      pools_grow (m0conf g) (m0conf g') /\ od_get o (m0conf g') = Some (ConfPool (mkPool [] name)))).
  { step. pose proof (gd_dev _ _ _ G). pose proof (gd_cuid _ _ _ G).
    eapply (child_runs0 g _ o_pool _ add_pool root (ConfRoot r)); try done; try lia.
    - by rewrite Tr.
    - split; try done. by intros x ?%elem_of_nil.
    - by apply add_pool_adds.
    - intros g' G' C' Hfresh. set (o := mkOid o_pool _) in *.
      assert (Hne : root <> o) by (intros E; by rewrite E in Tr). split_and!.
      + split; [exact G' | rewrite C' |].
        * eapply hw_same_trans; [exact C|]. eapply hw_same_trans; apply hw_same_set; [done | by rewrite Tr].
        * by rewrite C', od_get_set_eq.
      + rewrite C'. eapply pools_grow_trans; apply pools_grow_set; intros po.
        * intros Ho. by apply Hfresh, (od_get_in _ _ _ Ho).
        * rewrite od_get_set_ne by done. by rewrite R.
      + by rewrite C', od_get_set_ne, od_get_set_eq. }
  destruct Hrun as (o & g' & E & P & Gr & Ho). unfold runs in *.
  destruct (Hk o g' P Gr Ho) as (a & g2 & E2 & HQ). exists a, g2. split; [| done].
  apply bind_Ret in E as (o1 & g1 & E1 & E). rewrite (bind_unfold_Ret _ _ _ _ _ E1).
  apply bind_Ret in E as (u & g3 & E3 & E). rewrite (bind_unfold_Ret _ _ _ _ _ E3).
  apply bind_Ret in E as (u' & g4 & E4 & E). rewrite (bind_unfold_Ret _ _ _ _ _ E4).
  apply mret_inv in E as [-> ->]. exact E2.
Qed.

(** The root after a pool is built *)
Definition root_with (t : PoolT) (o pv : Oid) (r r' : CRoot) : Prop :=
  r_pools r' = r_pools r ++ [o] /\ r_profiles r' = r_profiles r /\
  r_imeta_pver r' = (match t with pool_dix => Some pv | _ => r_imeta_pver r end) /\
  r_mdpool r' = (match t with pool_md => Some o | _ => r_mdpool r end).

Section Pools.
Context (c0 : Conf) (f0 : ObjT -> Z) (Hwf0 : wf c0 f0) (root : Oid).
Context (ei ec : list Oid) (Hei : cluster_encls c0 M0_CST_IOS = Ret ei) (Hec : cluster_encls c0 M0_CST_CAS = Ret ec).
Context (Nei : ei <> []) (Nec : ec <> []).

(** The drives of a pool can be found. *)
Definition drives_found (p : PoolDesc) : Prop := exists drives, pool_drives c0 p = Ret drives /\
  drives <> [] /\ NoDup drives /\ Forall (fun d => d ∈ od_keys c0 /\ o_type d = o_drive) drives.

Lemma last_step_runs {N} (desc : ClusterDesc N) t tol r g o po pv :
  pooling c0 root r g -> od_get o (m0conf g) = Some (ConfPool po) -> has g o_pver pv -> pv ∈ po_pvers po ->
  (t = pool_dix -> r_imeta_pver r = None) -> (t = pool_md -> r_mdpool r = None) ->
  runs (match t with
        | pool_dix => conf_upd root (set_imeta_pver pv)
        | pool_md => conf_upd root (set_mdpool o)
        | pool_sns =>
            if cd_generate_formulaic_pvers desc then
              for_each (gen_allowances tol) (fun v => ConfPverF_build o pv v ;; mret tt)
            else mret tt
        end) g (fun _ g' => exists r', pooling c0 root r' g' /\ pools_grow (m0conf g) (m0conf g') /\
          r_pools r' = r_pools r /\ r_profiles r' = r_profiles r /\
          r_imeta_pver r' = (match t with pool_dix => Some pv | _ => r_imeta_pver r end) /\
          r_mdpool r' = (match t with pool_md => Some o | _ => r_mdpool r end)).
Proof.
  intros Hg Ho Hv Hin Hdix Hmd. destruct t.
  - destruct (cd_generate_formulaic_pvers desc).
    + eapply runs_conseq; [by eapply formulaic_run|]. intros u g' [P' G']. by exists r.
    + apply runs_mret. exists r. split_and!; try done. apply pools_grow_refl.
  - eapply runs_conseq.
    { eapply root_upd_runs; [exact Hg | cbn; by rewrite Hdix |]. intros u g' E. by eapply set_imeta_pver_ext. }
    intros u g' [P' G']. eexists. split; [exact P'|]. done.
  - eapply runs_conseq.
    { eapply root_upd_runs; [exact Hg | cbn; by rewrite Hmd |]. intros u g' E. eapply set_mdpool_ext; [exact E|].
      split; [by eapply od_get_in|]. by rewrite (wf_class _ _ (gd_wf _ _ _ (pst_good _ _ _ _ Hg)) _ _ Ho). }
    intros u g' [P' G']. eexists. split; [exact P'|]. done.
Qed.

Lemma ConfPool_build_runs {N} (desc : ClusterDesc N) p t r g :
  pooling c0 root r g -> pool_ok p = true -> pool_type p = Ret t -> drives_found p ->
  (t = pool_dix -> r_imeta_pver r = None) -> (t = pool_md -> r_mdpool r = None) ->
  runs (ConfPool_build root p desc) g (fun o g' => exists r' pv po,
    pooling c0 root r' g' /\ root_with t o pv r r' /\ pools_grow (m0conf g) (m0conf g') /\
    od_get o (m0conf g') = Some (ConfPool po) /\ po_name po = pl_name p /\ pv ∈ po_pvers po).
Proof using Hwf0 Hei Hec Nei Nec.
  intros Hg Hok Ht (drives & Hd & Dne & Dnd & Dk) Hdix Hmd. unfold ConfPool_build.
  eapply runs_step.
  { apply assert_step, is_t_true. destruct Hg as [G _ R]. by eapply root_type. }
  apply (new_pool_runs c0 root r g (pl_name p)); [done|]. intros o g1 P1 G1 O1.
  pose proof (pst_same _ _ _ _ P1) as S1. pose proof (gd_wf _ _ _ (pst_good _ _ _ _ P1)) as W1.
  assert (Hu : units_ok p = true) by (unfold pool_ok in Hok; rewrite Ht in Hok; by apply andb_true_iff in Hok as [? _]).
  eapply runs_step; [by rewrite (check_spare_ok _ Hu)|]. step.
  eapply runs_step; [by rewrite (pool_drives_same _ _ _ Hwf0 S1), Hd|].
  eapply runs_step; [by rewrite Ht|].
  assert (E : forall st, cluster_encls (m0conf g1) st = cluster_encls c0 st)
    by (intros st; by apply (cluster_encls_same _ _ _ Hwf0 S1)).
  destruct (pool_pd_attrs_ok (m0conf g1) ei ec ltac:(by rewrite E) ltac:(by rewrite E) Nei Nec p t Hok Ht)
    as (pd & Epd & Hdu & Hpu & Hsp).
  destruct (pool_tolerance_ok (m0conf g1) _ W1 ei ltac:(by rewrite E) Nei p t Hok Ht) as (tol & Etol & Htol).
  eapply runs_step; [by rewrite Epd|]. eapply runs_step; [by rewrite Etol|].
  eapply runs_bind; [by eapply (ConfPver_build_pooling c0 f0 root _ g1 o (mkPool [] (pl_name p)) pd drives tol)|]. intros pv g2 (P2 & G2 & V2 & O2).
  eapply runs_bind.
  { eapply last_step_runs; [exact P2 | exact O2 | exact V2 | by apply list_elem_of_singleton | done | done]. }
  intros u g3 (r3 & P3 & G3 & E1 & E2 & E3 & E4). apply runs_mret. destruct (G3 _ _ O2) as (po & O3 & N3 & V3).
  exists r3, pv, po. split_and!; try done.
  - eapply pools_grow_trans; [exact G1|]. by eapply pools_grow_trans.
  - apply V3. cbn. apply list_elem_of_singleton. done.
Qed.
End Pools.
