(* ===== verification/CfgenFound.v ===== *)
(** * What the pools find ([src/cfgen/cfgen])

    On a configuration whose hardware is complete the enclosures with a service
    and the drives of every pool can be selected, without repetition. *)

From stdpp Require Import list_numbers.
From S2P Require Import Prelude PyStr Json HaxTypes OrdDict PyFloat CfgenTypes CfgenBuild.
From S2P Require Import CfgenPools CfgenCluster CfgenInv CfgenWf CfgenReads CfgenRuns.
From S2P Require Import CfgenMirror CfgenPverWf CfgenClusterWf CfgenTotal CfgenSame CfgenTol CfgenPoolRuns.

(** ** Selections without repetition *)
Lemma mapM_NoDup {A B} (g : A -> outcome B) l ys :
  mapM g l = Ret ys -> NoDup l -> (forall x1 x2 y, x1 ∈ l -> x2 ∈ l -> g x1 = Ret y -> g x2 = Ret y -> x1 = x2) -> NoDup ys.
Proof.
  intros H%mapM_inv Hl Hg. induction H as [| x y l ys E H IH]; [constructor|].
  apply NoDup_cons in Hl as [Hx Hl]. constructor.
  - intros Hy. apply Hx. apply list_elem_of_lookup in Hy as [i Hi].
    destruct (Forall2_lookup_r _ _ _ _ _ H Hi) as (x' & Hx' & E'). apply list_elem_of_lookup_2 in Hx'.
    rewrite (Hg x x' y); [done | left | by right | done | done].
  - apply IH; [done|]. intros x1 x2 z H1 H2. apply Hg; by right.
Qed.

Lemma concat_o_NoDup {A B C} (g : A -> outcome (list B)) (h : B -> C) l ys :
  concat_o g l = Ret ys -> NoDup l -> (forall x y, x ∈ l -> g x = Ret y -> NoDup (h <$> y)) ->
  (forall x1 x2 y1 y2 z, x1 ∈ l -> x2 ∈ l -> g x1 = Ret y1 -> g x2 = Ret y2 ->
     z ∈ h <$> y1 -> z ∈ h <$> y2 -> x1 = x2) ->
  NoDup (h <$> ys).
Proof.
  unfold concat_o. intros H Hl Hy Hg. apply bind_o_inv in H as (yss & H%mapM_inv & [= <-]).
  induction H as [| x y l yss E H IH]; [constructor|]. apply NoDup_cons in Hl as [Hx Hl]. cbn.
  rewrite fmap_app. apply NoDup_app. split_and!.
  - by apply (Hy x); [left|].
  - intros z Hz Hz'. apply list_elem_of_fmap in Hz' as (b & -> & Hb).
    apply list_elem_of_In, in_concat in Hb as (y' & Hy'%list_elem_of_In & Hb%list_elem_of_In).
    apply list_elem_of_lookup in Hy' as [i Hi]. destruct (Forall2_lookup_r _ _ _ _ _ H Hi) as (x' & Hx' & E').
    apply list_elem_of_lookup_2 in Hx'. apply Hx.
    rewrite (Hg x x' y y' (h b)); [done | left | by right | done | done | done | by apply list_elem_of_fmap_2].
  - apply IH; [done | |].
    + intros x' y' Hx'. apply Hy. by right.
    + intros x1 x2 y1 y2 z H1 H2. apply Hg; by right.
Qed.

Lemma NoDup_fst_sub `{EqDecision A} {B} (l l' : list (A * B)) :
  NoDup l.*1 -> NoDup l' -> (forall x, x ∈ l' -> x ∈ l) -> NoDup l'.*1.
Proof.
  intros Hl Hl' Hs. induction Hl' as [| [a b] l' Hx _ IH]; [constructor|]. cbn. constructor.
  - intros ([a' b'] & Ea & Hin)%list_elem_of_fmap. cbn in Ea. subst a'. apply Hx.
    pose proof (od_elem_get a b l Hl (Hs _ ltac:(left))) as E1.
    pose proof (od_elem_get a b' l Hl (Hs (a, b') ltac:(by right))) as E2. by simplify_eq.
  - apply IH. intros x Hin. apply Hs. by right.
Qed.

(** A key is linked from one object. *)
Lemma links_one_parent c f a b x y r :
  wf c f -> od_get a c = Some x -> od_get b c = Some y -> r ∈ links_of x -> r ∈ links_of y -> a = b.
Proof.
  intros Hwf Ha Hb Hx Hy. destruct (decide (a = b)) as [| Hne]; [done | exfalso].
  apply od_get_elem in Ha, Hb. pose proof (wf_unique _ _ Hwf) as Hnd.
  apply list_elem_of_split in Ha as (c1 & c2 & ->). rewrite all_links_app in Hnd.
  change (all_links ((a, x) :: c2)) with (links_of x ++ all_links c2) in Hnd.
  apply NoDup_app in Hnd as (_ & H1 & Hnd). apply NoDup_app in Hnd as (_ & H2 & _).
  apply elem_of_app in Hb as [Hb | [[= -> ->] | Hb]%elem_of_cons]; [| done |].
  - apply (H1 r); [apply all_links_elem; by exists (b, y) | apply elem_of_app; by left].
  - apply (H2 r); [done | apply all_links_elem; by exists (b, y)].
Qed.

Lemma conf_keys_NoDup c f t : wf c f -> NoDup (conf_keys_of t c).
Proof. intros Hwf. apply NoDup_ListNoDup, List.NoDup_filter, NoDup_ListNoDup, (wf_keys _ _ Hwf). Qed.

Section Found.
Context (c : Conf) (f : ObjT -> Z) (Hwf : wf c f).
Notation at_key t o := (o ∈ od_keys c /\ o_type o = t).

Ltac read_in Hx H := erewrite (conf_as_ok _ _ _ _ _ Hx) in H by reflexivity; cbn [mbind outcome_bind] in H.
Ltac read Hx := erewrite (conf_as_ok _ _ _ _ _ Hx) by reflexivity; cbn [mbind outcome_bind].

(** ** Enclosures with a service *)
Lemma encl_svcs_ok st e : at_key o_enclosure e -> exists l, encl_svcs c st e = Ret l.
Proof using Hwf.
  intros He. unfold encl_svcs. destruct (encl_object _ _ Hwf _ He) as (x & Hx & Hn & _). read Hx.
  destruct (node_object _ _ Hwf _ Hn) as (n & Hn' & Hp). read Hn'. apply concat_o_ok. intros p Hpin.
  destruct (process_object _ _ Hwf _ (Hp p Hpin)) as (px & Hpx & Hs). read Hpx. apply concat_o_ok. intros s Hsin.
  destruct (service_object _ _ Hwf _ (Hs s Hsin)) as (sx & Hsx). read Hsx. eauto.
Qed.


Lemma encl_svcs_nonempty st e x l :
  od_get e c = Some (ConfEnclosure x) -> encl_svcs c st e = Ret l ->
  (exists p, linked c (e_node x) p /\ served c p st) -> l <> [].
Proof using Hwf.
  intros Hx H (p & Lp & s & sx & Ls & Hsx & Hst) ->. unfold encl_svcs in H. read_in Hx H.
  assert (He : at_key o_enclosure e) by (split; [by eapply od_get_in | by rewrite (wf_class _ _ Hwf _ _ Hx)]).
  destruct (encl_object _ _ Hwf _ He) as (x' & Hx' & Hn & _). rewrite Hx in Hx'. injection Hx' as <-.
  destruct (node_object _ _ Hwf _ Hn) as (n & Hn' & Hp). read_in Hn' H.
  assert (Hpin : p ∈ n_processes n).
  { destruct Lp as (z & Hz & Hr). rewrite Hn' in Hz. injection Hz as <-. unfold links_of in Hr. cbn in Hr. by rewrite app_nil_r in Hr. }
  destruct (concat_o_in _ _ _ _ H Hpin) as (y & Hy & Hin). destruct (process_object _ _ Hwf _ (Hp p Hpin)) as (px & Hpx & Hs).
  read_in Hpx Hy.
  assert (Hsin : s ∈ p_services px).
  { destruct Ls as (z & Hz & Hr). rewrite Hpx in Hz. injection Hz as <-. unfold links_of in Hr. cbn in Hr. by rewrite app_nil_r in Hr. }
  destruct (concat_o_in _ _ _ _ Hy Hsin) as (y' & Hy' & Hin'). read_in Hsx Hy'. rewrite decide_True in Hy' by done.
  injection Hy' as <-. apply (not_elem_of_nil s), Hin, Hin'. left.
Qed.

Lemma cluster_encls_found st :
  (exists e x p, od_get e c = Some (ConfEnclosure x) /\ linked c (e_node x) p /\ served c p st) ->
  exists l, cluster_encls c st = Ret l /\ l <> [].
Proof using Hwf.
  intros (e & x & p & Hx & Lp & Hs). unfold cluster_encls.
  assert (He : e ∈ conf_keys_of o_enclosure c).
  { apply conf_keys_of_elem. split; [by eapply od_get_in | by rewrite (wf_class _ _ Hwf _ _ Hx)]. }
  destruct (concat_o_ok (fun encl_id => svcs ← encl_svcs c st encl_id; Ret (map (fun _ => encl_id) svcs))
    (conf_keys_of o_enclosure c)) as [l El].
  { intros e' He'%conf_keys_of_elem. destruct (encl_svcs_ok st e' He') as [l ->]. cbn. eauto. }
  rewrite El. eexists. split; [reflexivity|]. destruct (concat_o_in _ _ _ _ El He) as (y & Hy & Hin).
  apply bind_o_inv in Hy as (svcs & Hsv & [= <-]).
  pose proof (encl_svcs_nonempty _ _ _ _ Hx Hsv (ex_intro _ p (conj Lp Hs))) as Hne. destruct svcs as [| s svcs]; [done|].
  intros E. apply (not_elem_of_nil e). rewrite <- E. apply elem_of_remove_dups, Hin. left.
Qed.

(** ** Drives *)
Context (Hfull : full c []) (Hreached : reached c).

Lemma ctrl_has_drive k x : od_get k c = Some (ConfController x) -> c_drives x <> [].
Proof using Hfull.
  intros Hk. destruct (Hfull k x Hk) as [H%elem_of_nil | (dr & z & Hz & Hdr)]; [done|].
  rewrite Hk in Hz. injection Hz as <-. unfold links_of in Hdr. cbn in Hdr. rewrite app_nil_r in Hdr.
  intros E. rewrite E in Hdr. by apply elem_of_nil in Hdr.
Qed.

Lemma some_ctrl : exists e x k, od_get e c = Some (ConfEnclosure x) /\ k ∈ e_ctrls x /\ at_key o_controller k.
Proof using Hwf Hreached.
  destruct Hreached as (e & x & k & He & _ & z & Hz & Hk). rewrite He in Hz. injection Hz as <-.
  unfold links_of in Hk. cbn in Hk. rewrite app_nil_r in Hk. exists e, x, k.
  destruct (encl_object _ _ Hwf e) as (x' & Hx' & _ & Hc).
  { split; [by eapply od_get_in | by rewrite (wf_class _ _ Hwf _ _ He)]. }
  rewrite He in Hx'. injection Hx' as <-. auto.
Qed.

Definition drives_ok (drives : list Oid) : Prop :=
  drives <> [] /\ NoDup drives /\ Forall (fun d => at_key o_drive d) drives.

(** A drive of every controller *)
Lemma one_per_ctrl (g : Oid -> outcome Oid) :
  (forall k x, od_get k c = Some (ConfController x) -> exists d, g k = Ret d /\ d ∈ c_drives x) ->
  exists ds, mapM g (conf_keys_of o_controller c) = Ret ds /\ drives_ok ds.
Proof using Hwf Hreached.
  intros Hg. destruct (mapM_ok g (conf_keys_of o_controller c)) as [ds Eds].
  { intros k Hk%conf_keys_of_elem. destruct (ctrl_object _ _ Hwf _ Hk) as (x & Hx & _).
    destruct (Hg k x Hx) as (d & Ed & _). eauto. }
  assert (Hof : forall k d, k ∈ conf_keys_of o_controller c -> g k = Ret d ->
    exists x, od_get k c = Some (ConfController x) /\ d ∈ c_drives x /\ at_key o_drive d).
  { intros k d Hk%conf_keys_of_elem Ed. destruct (ctrl_object _ _ Hwf _ Hk) as (x & Hx & Hdr).
    destruct (Hg k x Hx) as (d' & Ed' & Hd'). rewrite Ed in Ed'. injection Ed' as <-. eauto. }
  exists ds. split; [done | split_and!].
  - destruct some_ctrl as (e & x & k & _ & _ & Hk). intros ->. apply mapM_inv, Forall2_nil_inv_r in Eds.
    apply (not_elem_of_nil k). rewrite <- Eds. by apply conf_keys_of_elem.
  - eapply mapM_NoDup; [exact Eds | by eapply conf_keys_NoDup |]. intros k1 k2 d H1 H2 E1 E2.
    destruct (Hof _ _ H1 E1) as (x1 & Hx1 & Hd1 & _). destruct (Hof _ _ H2 E2) as (x2 & Hx2 & Hd2 & _).
    eapply (links_one_parent c f k1 k2 _ _ d Hwf Hx1 Hx2); unfold links_of; cbn; by rewrite app_nil_r.
  - apply Forall_forall. intros d Hd. destruct (mapM_elem _ _ _ _ Eds Hd) as (k & Hk & Ek).
    by destruct (Hof _ _ Hk Ek) as (x & _ & _ & ?).
Qed.

Lemma dix_drives p : pool_type p = Ret pool_dix -> exists ds, pool_drives c p = Ret ds /\ drives_ok ds.
Proof using Hwf Hreached Hfull.
  intros Ht. unfold pool_drives. rewrite Ht. apply (one_per_ctrl (last_drive c)). intros k x Hk. unfold last_drive. read Hk.
  destruct (last (c_drives x)) as [d |] eqn:E; [exists d; split; [done | by apply last_Some_elem_of]|].
  apply last_None in E. by destruct (ctrl_has_drive k x Hk).
Qed.

Lemma md_drives p : pool_type p = Ret pool_md -> exists ds, pool_drives c p = Ret ds /\ drives_ok ds.
Proof using Hwf Hreached Hfull.
  intros Ht. unfold pool_drives. rewrite Ht. apply (one_per_ctrl (first_drive c)). intros k x Hk. unfold first_drive. read Hk.
  pose proof (ctrl_has_drive k x Hk). destruct (c_drives x) as [| d l]; [done|]. exists d. split; [done | left].
Qed.

(** The drives of the cluster with their nodes *)
Lemma encl_drives_inv e y :
  e ∈ conf_keys_of o_enclosure c ->
  (x ← conf_as as_encl c e;
   concat_o (fun ctrl_id => k ← conf_as as_ctrl c ctrl_id;
     Ret ((fun drive_id => (drive_id, e_node x)) <$> c_drives k)) (e_ctrls x)) = Ret y ->
  NoDup (y.*1) /\ forall d, d ∈ y.*1 -> exists x k kx, od_get e c = Some (ConfEnclosure x) /\
    k ∈ e_ctrls x /\ od_get k c = Some (ConfController kx) /\ d ∈ c_drives kx.
Proof using Hwf.
  intros He%conf_keys_of_elem H. destruct (encl_object _ _ Hwf _ He) as (x & Hx & _ & Hk). read_in Hx H.
  assert (Hin : forall k z, k ∈ e_ctrls x ->
    (kx ← conf_as as_ctrl c k; Ret ((fun drive_id => (drive_id, e_node x)) <$> c_drives kx)) = Ret z ->
    exists kx, od_get k c = Some (ConfController kx) /\ z.*1 = c_drives kx).
  { intros k z Hkin Hz. destruct (ctrl_object _ _ Hwf _ (Hk k Hkin)) as (kx & Hkx & _). read_in Hkx Hz.
    injection Hz as <-. exists kx. split; [done|]. rewrite <- list_fmap_compose. unfold compose. cbn. apply list_fmap_id. }
  split.
  - eapply concat_o_NoDup; [exact H | | |].
    + pose proof (links_NoDup _ _ _ _ Hwf Hx) as Hnd. unfold links_of in Hnd. cbn in Hnd. by rewrite app_nil_r in Hnd.
    + intros k z Hkin Hz. destruct (Hin _ _ Hkin Hz) as (kx & Hkx & ->).
      pose proof (links_NoDup _ _ _ _ Hwf Hkx) as Hnd. unfold links_of in Hnd. cbn in Hnd. by rewrite app_nil_r in Hnd.
    + intros k1 k2 z1 z2 d H1 H2 E1 E2. destruct (Hin _ _ H1 E1) as (x1 & Hx1 & ->).
      destruct (Hin _ _ H2 E2) as (x2 & Hx2 & ->). intros D1 D2.
      eapply (links_one_parent c f k1 k2 _ _ d Hwf Hx1 Hx2); unfold links_of; cbn; by rewrite app_nil_r.
  - intros d ([d' n] & -> & Hd)%list_elem_of_fmap. destruct (concat_o_elem _ _ _ _ H Hd) as (k & z & Hkin & Hz & Hdz).
    destruct (Hin _ _ Hkin Hz) as (kx & Hkx & Ez). exists x, k, kx. split_and!; [done | done | done |].
    rewrite <- Ez. apply list_elem_of_fmap. by exists (d', n).
Qed.

Lemma with_nodes_found : exists l, pool_drives_with_nodes c = Ret l /\ l <> [] /\ NoDup l.*1.
Proof using Hwf Hreached Hfull.
  unfold pool_drives_with_nodes.
  set (sel := fun encl_id => e ← conf_as as_encl c encl_id;
    concat_o (fun ctrl_id => k ← conf_as as_ctrl c ctrl_id;
      Ret ((fun drive_id => (drive_id, e_node e)) <$> c_drives k)) (e_ctrls e)).
  assert (Hok : exists l, concat_o sel (conf_keys_of o_enclosure c) = Ret l).
  { apply concat_o_ok. intros e He%conf_keys_of_elem. unfold sel.
    destruct (encl_object _ _ Hwf _ He) as (x & Hx & _ & Hk). read Hx. apply concat_o_ok. intros k Hkin.
    destruct (ctrl_object _ _ Hwf _ (Hk k Hkin)) as (kx & Hkx & _). read Hkx. eauto. }
  destruct Hok as [l El]. rewrite El. cbn [mbind outcome_bind].
  assert (Hin : forall d n, (d, n) ∈ l -> o_type d = o_drive /\ o_type n = o_node).
  { intros d n Hdn. destruct (concat_o_elem _ _ _ _ El Hdn) as (e & y & He%conf_keys_of_elem & Hy & Hin). unfold sel in Hy.
    destruct (encl_object _ _ Hwf _ He) as (x & Hx & [_ Hn] & Hk). read_in Hx Hy.
    destruct (concat_o_elem _ _ _ _ Hy Hin) as (k & z & Hkin & Hz & Hdz).
    destruct (ctrl_object _ _ Hwf _ (Hk k Hkin)) as (kx & Hkx & Hd). read_in Hkx Hz. injection Hz as <-.
    apply list_elem_of_fmap in Hdz as (d' & [= -> ->] & Hd'). split; [by apply Hd | done]. }
  assert (Hne : l <> []).
  { destruct some_ctrl as (e & x & k & He & Hk & Hkey). destruct (ctrl_object _ _ Hwf _ Hkey) as (kx & Hkx & _).
    pose proof (ctrl_has_drive _ _ Hkx) as Hd. destruct (c_drives kx) as [| d ds] eqn:Ed; [done|]. intros ->.
    assert (Hek : e ∈ conf_keys_of o_enclosure c).
    { apply conf_keys_of_elem. split; [by eapply od_get_in | by rewrite (wf_class _ _ Hwf _ _ He)]. }
    destruct (concat_o_in _ _ _ _ El Hek) as (y & Hy & H1). unfold sel in Hy. read_in He Hy.
    destruct (concat_o_in _ _ _ _ Hy Hk) as (z & Hz & H2). read_in Hkx Hz. injection Hz as <-.
    apply (not_elem_of_nil (d, e_node x)), H1, H2. rewrite Ed. left. }
  exists l. split_and!; [| done |].
  - assert (forallb (fun '(d, n) => is_t o_drive d && is_t o_node n) l = true) as ->.
    { apply forallb_forall. intros [d n] Hdn%list_elem_of_In. destruct (Hin d n Hdn) as [H1 H2].
      by rewrite (proj2 (is_t_true _ _) H1), (proj2 (is_t_true _ _) H2). }
    by destruct l.
  - eapply concat_o_NoDup; [exact El | by eapply conf_keys_NoDup | |].
    + intros e y He Hy. by apply (encl_drives_inv e y).
    + intros e1 e2 y1 y2 d He1 He2 Hy1 Hy2 D1 D2.
      destruct (encl_drives_inv _ _ He1 Hy1) as [_ I1]. destruct (encl_drives_inv _ _ He2 Hy2) as [_ I2].
      destruct (I1 d D1) as (x1 & k1 & kx1 & Hx1 & Hk1 & Hkx1 & Hd1).
      destruct (I2 d D2) as (x2 & k2 & kx2 & Hx2 & Hk2 & Hkx2 & Hd2).
      assert (k1 = k2) as <- by (eapply (links_one_parent c f k1 k2 _ _ d Hwf Hkx1 Hkx2); unfold links_of; cbn; by rewrite app_nil_r).
      eapply (links_one_parent c f e1 e2 _ _ k1 Hwf Hx1 Hx2); unfold links_of; cbn; by rewrite app_nil_r.
Qed.

(** The drives that references select are drives of the cluster. *)
Lemma references_sub p l refs :
  pool_drives_with_nodes c = Ret l -> pool_drives_from_references c p = Ret refs ->
  NoDup refs /\ forall dn, dn ∈ refs -> dn ∈ l.
Proof.
  intros El H. unfold pool_drives_from_references in H. rewrite El in H. cbn [mbind outcome_bind] in H.
  destruct (get_pool_diskrefs p) as [rs |]; [| injection H as <-; split; [constructor | by intros dn ?%elem_of_nil]].
  apply bind_o_inv in H as (ds & Hds & H). apply bind_o_inv in H as (u & Hu & [= <-]). split.
  - destruct (all_unique ds) eqn:E; [by eapply all_unique_true | discriminate Hu].
  - intros dn Hdn. destruct (concat_o_elem _ _ _ _ Hds Hdn) as (ref & y & _ & Hy & Hin).
    apply bind_o_inv in Hy as (ts & Hts & Hy). apply bind_o_inv in Hy as (u' & _ & [= <-]).
    unfold ref_targets in Hts. destruct (concat_o_elem _ _ _ _ Hts Hin) as (dn' & z & Hdn' & Hz & Hin').
    apply bind_o_inv in Hz as ([] & _ & [= <-]); [| by apply elem_of_nil in Hin'].
    apply list_elem_of_singleton in Hin' as ->. by rewrite elem_of_remove_dups in Hdn'.
Qed.

Lemma sns_drives p refs :
  pool_type p = Ret pool_sns -> pool_drives_from_references c p = Ret refs ->
  exists ds, pool_drives c p = Ret ds /\ drives_ok ds.
Proof using Hwf Hreached Hfull.
  intros Ht Hr. destruct with_nodes_found as (l & El & Hne & Hnd). destruct (references_sub _ _ _ El Hr) as [Rnd Rsub].
  assert (Hall : forall l' : list (Oid * Oid), l' <> [] -> NoDup l'.*1 -> (forall dn, dn ∈ l' -> dn ∈ l) -> drives_ok l'.*1).
  { intros l' H1 H2 H3. split_and!; [by destruct l' | done |]. apply Forall_forall.
    intros d ([d' n] & -> & Hd)%list_elem_of_fmap. by destruct (pool_drives_with_nodes_elem _ _ Hwf l d' n El (H3 _ Hd)). }
  unfold pool_drives. rewrite Ht. cbn [mbind outcome_bind]. rewrite Hr. cbn [mbind outcome_bind].
  destruct refs as [| dn refs]; [rewrite El; cbn [mbind outcome_bind]|]; (eexists; split; [reflexivity|]).
  - by apply Hall.
  - apply Hall; [done | | done]. eapply NoDup_fst_sub; [exact Hnd | exact Rnd | exact Rsub].
Qed.

(** Every pool of the description has drives, when its references resolve. *)
Lemma described_drives p t refs :
  pool_type p = Ret t -> pool_drives_from_references c p = Ret refs -> drives_found c p.
Proof using Hwf Hreached Hfull.
  intros Ht Hr. assert (exists ds, pool_drives c p = Ret ds /\ drives_ok ds) as (ds & E & H1 & H2 & H3); [| by exists ds].
  destruct t; [by eapply sns_drives | by apply dix_drives | by apply md_drives].
Qed.

(** Without references nothing can be referred to twice. *)
Lemma no_references p : get_pool_diskrefs p = None -> pool_drives_from_references c p = Ret [].
Proof using Hwf Hreached Hfull.
  intros Hp. destruct with_nodes_found as (l & El & _). unfold pool_drives_from_references. by rewrite El, Hp.
Qed.

Lemma no_multiple_references {N} (desc : ClusterDesc N) :
  Forall (fun p => get_pool_diskrefs p = None) (cd_pools desc) -> check_drive_multiple_references c desc = Ret [].
Proof using Hwf Hreached Hfull.
  intros Hp. unfold check_drive_multiple_references.
  assert (concat_o (pool_drives_from_references c) (cd_pools desc) = Ret []) as ->; [| cbn; by rewrite orb_true_r].
  rewrite (concat_o_total _ (fun _ => [])); [by induction (cd_pools desc) as [| p l IH]; [| inversion Hp; auto]|].
  intros p Hin. rewrite Forall_forall in Hp. apply no_references, Hp, Hin.
Qed.

Lemma references_resolve {N} (desc : ClusterDesc N) l :
  check_drive_multiple_references c desc = Ret l ->
  Forall (fun p => exists refs, pool_drives_from_references c p = Ret refs) (cd_pools desc).
Proof.
  unfold check_drive_multiple_references. intros (ds & H & _)%bind_o_inv. apply Forall_forall. intros p Hp.
  destruct (concat_o_in _ _ _ _ H Hp) as (y & Hy & _). eauto.
Qed.
End Found.
