(* ===== verification/CfgenBuilds.v ===== *)
(** * A described cluster is built ([src/cfgen/cfgen])

    [described]: an executable condition on the description.  A description that
    passes it is turned into a configuration, unless the disks that its pools refer
    to cannot be found. *)

From stdpp Require Import list_numbers.
From S2P Require Import Prelude PyStr Json HaxTypes OrdDict PyFloat CfgenTypes CfgenBuild.
From S2P Require Import CfgenPools CfgenCluster CfgenInv CfgenWf CfgenReads CfgenRuns.
From S2P Require Import CfgenMirror CfgenPverWf CfgenClusterWf CfgenTotal CfgenStage CfgenSame CfgenTol.
From S2P Require Import CfgenPoolRuns CfgenFound CfgenDemo.

(** ** All pools *)

(** Every pool can be built; [dix] and [md]: there already is such a pool. *)
Fixpoint pools_ok (dix md : bool) (l : list PoolDesc) : bool :=
  match l with
  | [] => true
  | p :: l' =>
      pool_ok p &&
      match pool_type p with
      | Ret pool_dix => negb dix && pools_ok true md l'
      | Ret pool_md => negb md && pools_ok dix true l'
      | _ => pools_ok dix md l'
      end
  end.

(** Pools with these names are there, and the pool of the DIX version is one of them. *)
Record pooled (c0 : Conf) (root : Oid) (names : list (option string)) (r : CRoot) (g : Gen) : Prop := mkPooled {
  pl_pooling : pooling c0 root r g;
  pl_dix : forall v, r_imeta_pver r = Some v -> exists o po, o ∈ r_pools r /\
    od_get o (m0conf g) = Some (ConfPool po) /\ v ∈ po_pvers po;
  pl_names : forall n, n ∈ names -> exists o po, od_get o (m0conf g) = Some (ConfPool po) /\ po_name po = n }.

Lemma pooled_grows c0 root names r r' g g' :
  pooled c0 root names r g -> pooling c0 root r' g' -> pools_grow (m0conf g) (m0conf g') ->
  r_imeta_pver r' = r_imeta_pver r -> (forall o, o ∈ r_pools r -> o ∈ r_pools r') ->
  pooled c0 root names r' g'.
Proof.
  intros [P D N] P' G' Ei Hp. split; [done | |].
  - intros v. rewrite Ei. intros Hv. destruct (D v Hv) as (o & po & Ho & Hpo & Hin).
    destruct (G' o po Hpo) as (po' & Hpo' & _ & Hvs). exists o, po'. auto.
  - intros n Hn. destruct (N n Hn) as (o & po & Ho & En). destruct (G' o po Ho) as (po' & Ho' & En' & _).
    exists o, po'. split; [done | congruence].
Qed.

Section Building.
Context (c0 : Conf) (f0 : ObjT -> Z) (Hwf0 : wf c0 f0) (root : Oid) (Hfull : full c0 []) (Hreached : reached c0).
Context (desc : ClusterDesc Node).

Lemma encls_found st : st = M0_CST_IOS \/ st = M0_CST_CAS -> exists l, cluster_encls c0 st = Ret l /\ l <> [].
Proof using Hwf0 Hreached.
  intros Hst. destruct Hreached as (e & x & k & He & (p & Lp & Si & Sc) & _).
  apply (cluster_encls_found _ _ Hwf0). exists e, x, p. split_and!; [done | done |]. by destruct Hst as [-> | ->].
Qed.

Lemma one_pool_runs names p t r g :
  pooled c0 root names r g -> pool_ok p = true -> pool_type p = Ret t -> drives_found c0 p ->
  (t = pool_dix -> r_imeta_pver r = None) -> (t = pool_md -> r_mdpool r = None) ->
  runs (ConfPool_build root p desc ;; mret tt) g (fun _ g' => exists r' o pv,
    pooled c0 root (pl_name p :: names) r' g' /\ root_with t o pv r r').
Proof using Hwf0 Hfull Hreached.
  intros Hg Hok Ht Hd Hdix Hmd. destruct (encls_found M0_CST_IOS) as (ei & Hei & Nei); [by left|].
  destruct (encls_found M0_CST_CAS) as (ec & Hec & Nec); [by right|].
  eapply runs_bind; [by eapply (ConfPool_build_runs c0 f0 Hwf0 root ei ec Hei Hec Nei Nec); [apply Hg | ..]|].
  intros o g' (r' & pv & po & P' & R' & G' & O' & En & Hv). apply runs_mret. exists r', o, pv. split; [| done].
  destruct R' as (Ep & _ & Ei & _). split; [done | |].
  - intros v Hiv. destruct (decide (t = pool_dix)) as [-> | Hne].
    + rewrite Ei in Hiv. injection Hiv as <-. exists o, po. split_and!; [rewrite Ep; set_solver | done | done].
    + assert (r_imeta_pver r = Some v) as Hiv' by (rewrite <- Hiv, Ei; by destruct t).
      destruct (pl_dix _ _ _ _ _ Hg v Hiv') as (o1 & po1 & H1 & H2 & H3).
      destruct (G' o1 po1 H2) as (po2 & H4 & _ & H5). exists o1, po2. split_and!; [rewrite Ep; set_solver | done | auto].
  - intros n [-> | Hn]%elem_of_cons; [by exists o, po|].
    destruct (pl_names _ _ _ _ _ Hg n Hn) as (o1 & po1 & H1 & H2). destruct (G' o1 po1 H1) as (po2 & H3 & H4 & _).
    exists o1, po2. split; [done | congruence].
Qed.

Lemma pools_run dix md l names r g :
  pooled c0 root names r g -> pools_ok dix md l = true -> Forall (drives_found c0) l ->
  (dix = false -> r_imeta_pver r = None) -> (md = false -> r_mdpool r = None) ->
  runs (for_each l (fun pool => ConfPool_build root pool desc ;; mret tt)) g (fun _ g' => exists r',
    pooled c0 root (rev (pl_name <$> l) ++ names) r' g').
Proof using Hwf0 Hfull Hreached.
  intros Hg Hok Hd Hdix Hmd. revert dix md names r g Hg Hok Hdix Hmd.
  induction Hd as [| p l Hp Hd IH]; intros dix md names r g Hg Hok Hdix Hmd; cbn [for_each]; [apply runs_mret; eauto|].
  cbn [pools_ok] in Hok. apply andb_true_iff in Hok as [Hpok Hok].
  destruct (pool_type p) as [t | |] eqn:Ht; [| unfold pool_ok in Hpok; by rewrite Ht in Hpok..].
  eapply runs_bind.
  { apply (one_pool_runs names p t r g); try done; intros ->; apply andb_true_iff in Hok as [?%negb_true_iff _]; auto. }
  intros u g1 (r1 & o & pv & P1 & R1 & _ & Ei & Em).
  assert (Hnext : exists dix' md', pools_ok dix' md' l = true /\
    (dix' = false -> r_imeta_pver r1 = None) /\ (md' = false -> r_mdpool r1 = None)).
  { rewrite Ei, Em. destruct t.
    - by exists dix, md.
    - apply andb_true_iff in Hok as [_ Hok]. by exists true, md.
    - apply andb_true_iff in Hok as [_ Hok]. by exists dix, true. }
  destruct Hnext as (dix' & md' & Hok' & Hdix' & Hmd'). eapply runs_conseq; [by eapply IH|].
  intros u' g2 (r2 & P2). exists r2. cbn. by rewrite <- app_assoc.
Qed.

(** The pools that are always there *)
Lemma default_pools_run names r g :
  pooled c0 root names r g ->
  runs (build_default_pools root desc) g (fun _ g' => exists r' names',
    pooled c0 root names' r' g' /\ (forall n, n ∈ names -> n ∈ names') /\
    is_Some (r_imeta_pver r') /\ is_Some (r_mdpool r')).
Proof using Hwf0 Hfull Hreached.
  intros Hg. unfold build_default_pools, root_of.
  assert (Hroot : forall r g, pooled c0 root names r g \/ pooled c0 root (None :: names) r g ->
    conf_as as_root (m0conf g) root = Ret r).
  { intros r1 g1 Hg1. eapply conf_as_ok; [destruct Hg1 as [H | H]; apply H | done]. }
  eapply runs_step; [erewrite bind_unfold_Ret by reflexivity; by rewrite (Hroot r g) by auto|].
  eapply (runs_bind _ _ _ (fun _ g' => exists r' names', pooled c0 root names' r' g' /\
    (names' = names \/ names' = None :: names) /\ is_Some (r_imeta_pver r'))).
  { destruct (r_imeta_pver r) as [v |] eqn:Ev.
    - apply runs_mret. exists r, names. rewrite Ev. eauto.
    - eapply runs_conseq; [apply (one_pool_runs names (default_pool pool_dix) pool_dix r g); try done|].
      + by apply (dix_drives c0 f0 Hwf0 Hfull Hreached).
      + intros u g1 (r1 & o & pv & P1 & _ & _ & Ei & _). exists r1, (None :: names). rewrite Ei. eauto. }
  intros u g1 (r1 & names1 & P1 & En & Hi).
  eapply runs_step.
  { erewrite bind_unfold_Ret by reflexivity. by rewrite (Hroot r1 g1) by (destruct En as [-> | ->]; auto). }
  assert (Hn : forall n, n ∈ names -> n ∈ names1) by (destruct En as [-> | ->]; [done | intros; by right]).
  destruct (r_mdpool r1) as [o |] eqn:Em.
  - apply runs_mret. exists r1, names1. rewrite Em. eauto.
  - eapply runs_conseq; [apply (one_pool_runs names1 (default_pool pool_md) pool_md r1 g1); try done|].
    + by apply (md_drives c0 f0 Hwf0 Hfull Hreached).
    + intros u' g2 (r2 & o & pv & P2 & _ & _ & Ei & Em2). exists r2, (None :: names1). rewrite Ei, Em2.
      split_and!; [done | | done | done]. intros n Hin. right. auto.
Qed.
End Building.

(** ** Profiles *)
Lemma dict_of_items_in {K V} `{EqDecision K} (items d : list (K * V)) k v :
  (k, v) ∈ items -> is_Some (od_get k (foldl (fun d kv => od_set kv.1 kv.2 d) d items)).
Proof.
  intros H. assert (Hor : k ∈ items.*1 \/ k ∈ od_keys d) by (left; apply list_elem_of_fmap; by exists (k, v)).
  clear H. apply od_get_key. revert d Hor. induction items as [| [k1 v1] items IH]; intros d [H | H]; cbn in *.
  - by apply elem_of_nil in H.
  - done.
  - apply IH. apply elem_of_cons in H as [-> | H]; [right; apply od_keys_set_elem; by left | by left].
  - apply IH. right. apply od_keys_set_elem. by right.
Qed.

Section ProfilePools.
Context (c : Conf) (f : ObjT -> Z) (Hwf : wf c f) (root : Oid) (r : CRoot) (Hr : od_get root c = Some (ConfRoot r)).
Notation at_key t o := (o ∈ od_keys c /\ o_type o = t).

Lemma root_pool o : o ∈ r_pools r -> at_key o_pool o.
Proof using Hwf Hr.
  intros Ho. destruct (child_key _ _ Hwf root _ _ _ o Hr ltac:(right; right; left) Ho) as [Hk Ht].
  split; [done | by apply child_ok_type in Ht].
Qed.

Lemma pool_ids_ok names :
  (forall n, n ∈ names -> exists o po, od_get o c = Some (ConfPool po) /\ po_name po = Some n) ->
  exists d, profile_pool_ids c names = Ret d /\ (forall n, n ∈ names -> is_Some (od_get n d)) /\
    forall n o, od_get n d = Some o -> at_key o_pool o.
Proof using Hwf.
  intros Hn. unfold profile_pool_ids.
  set (sel := fun pool_id => p ← conf_as as_pool c pool_id;
    Ret (match po_name p with Some n => if bool_decide (n ∈ names) then [(n, pool_id)] else [] | None => [] end)).
  destruct (concat_o_ok sel (conf_keys_of o_pool c)) as [items Ei].
  { intros o Ho%conf_keys_of_elem. destruct (pool_object _ _ Hwf _ Ho) as [x Hx]. unfold sel.
    erewrite (conf_as_ok _ _ _ _ _ Hx) by reflexivity. by eexists. }
  rewrite Ei. eexists. split; [reflexivity|]. split.
  - intros n Hin. destruct (Hn n Hin) as (o & po & Ho & En).
    assert (Hk : o ∈ conf_keys_of o_pool c).
    { apply conf_keys_of_elem. split; [by eapply od_get_in | by rewrite (wf_class _ _ Hwf _ _ Ho)]. }
    destruct (concat_o_in _ _ _ _ Ei Hk) as (y & Hy & Hsub). unfold sel in Hy.
    erewrite (conf_as_ok _ _ _ _ _ Ho) in Hy by reflexivity. cbn in Hy. rewrite En, bool_decide_eq_true_2 in Hy by done.
    injection Hy as <-. apply (dict_of_items_in _ _ n o), Hsub. left.
  - intros n o Ho. destruct (dict_of_items _ _ _ _ Ho) as [Hin | H]; [| discriminate H].
    destruct (concat_o_elem _ _ _ _ Ei Hin) as (k & y & Hk & Hy & Hin'). unfold sel in Hy.
    apply bind_o_inv in Hy as (p & _ & [= <-]). apply conf_keys_of_elem in Hk.
    destruct (po_name p); [| by apply elem_of_nil in Hin']. case_bool_decide; [| by apply elem_of_nil in Hin'].
    by apply list_elem_of_singleton in Hin' as [= -> ->].
Qed.

(** One pool of the root has the DIX version. *)
Lemma dix_pool_one v o po :
  o ∈ r_pools r -> od_get o c = Some (ConfPool po) -> v ∈ po_pvers po ->
  concat_o (fun pool => x ← conf_get c pool; vs ← obj_pvers x;
    Ret (if bool_decide (v ∈ vs) then [pool] else [])) (r_pools r) = Ret [o].
Proof using Hwf Hr.
  intros Ho Hpo Hv. rewrite (concat_o_total _ (fun pool => if decide (pool = o) then [pool] else [])).
  - f_equal. assert (Hnd : NoDup (r_pools r)).
    { pose proof (links_NoDup _ _ _ _ Hwf Hr) as H. unfold links_of in H. cbn in H.
      apply NoDup_app in H as (_ & _ & H). apply NoDup_app in H as (_ & _ & H). by apply NoDup_app in H as (? & _). }
    clear -Ho Hnd. induction Hnd as [| x l Hx Hnd IH]; [by apply elem_of_nil in Ho|]. cbn.
    apply elem_of_cons in Ho as [<- | Ho].
    + rewrite decide_True by done. cbn. f_equal. clear -Hx. induction l as [| y l IH]; [done|]. cbn.
      rewrite decide_False; [apply IH|]; set_solver.
    + rewrite decide_False; [by apply IH|]. by intros ->.
  - intros k Hk. destruct (pool_object _ _ Hwf _ (root_pool k Hk)) as [x Hx]. unfold conf_get. rewrite Hx. cbn.
    case_decide as Ek; case_bool_decide as Hin; try done; exfalso; [by subst; simplify_eq|].
    apply Ek. eapply (links_one_parent c f k o _ _ v Hwf Hx Hpo); unfold links_of; cbn; by rewrite app_nil_r.
Qed.

Lemma profile_pools_ok names v o po m :
  (forall n, n ∈ names -> exists o po, od_get o c = Some (ConfPool po) /\ po_name po = Some n) ->
  r_imeta_pver r = Some v -> o ∈ r_pools r -> od_get o c = Some (ConfPool po) -> v ∈ po_pvers po ->
  r_mdpool r = Some m ->
  exists l, profile_pools c r names = Ret l /\ Forall (fun k => at_key o_pool k) l.
Proof using Hwf Hr.
  intros Hn Hi Ho Hpo Hv Hm. unfold profile_pools. destruct (pool_ids_ok names Hn) as (d & Ed & Hd & Hk).
  rewrite Ed. cbn [mbind outcome_bind].
  destruct (mapM_ok (fun pool => dict_get pool (od_get pool d)) names) as [ps Eps].
  { intros n [x Hx]%Hd. rewrite Hx. by exists x. }
  rewrite Eps, Hi. cbn [mbind outcome_bind]. rewrite (dix_pool_one v o po Ho Hpo Hv). cbn [mbind outcome_bind].
  rewrite Hm. eexists. split; [reflexivity|].
  assert (Hps : Forall (fun k => at_key o_pool k) ps).
  { apply Forall_forall. intros k Hin. destruct (mapM_elem _ _ _ _ Eps Hin) as (n & _ & En). unfold dict_get in En.
    destruct (od_get n d) as [k' |] eqn:E; [| discriminate En]. injection En as ->. by eapply Hk. }
  assert (Hmk : at_key o_pool m).
  { split; [apply (wf_refs _ _ Hwf root _ m Hr); apply elem_of_app; right; cbn; rewrite Hm; left|].
    pose proof (wf_refs_typed _ _ Hwf _ _ Hr) as Ht. cbn in Ht. rewrite Hm in Ht. cbn in Ht.
    rewrite !andb_true_iff in Ht. apply is_t_true, Ht. }
  pose proof (root_pool o Ho) as Hok. repeat case_bool_decide; rewrite ?Forall_app, ?Forall_singleton; auto.
Qed.
End ProfilePools.

(** Everything a profile needs is there. *)
Record profiled (c0 : Conf) (root : Oid) (names : list (option string)) (r : CRoot) (g : Gen) : Prop := mkProfiled {
  pr_pooled : pooled c0 root names r g;
  pr_imeta : is_Some (r_imeta_pver r);
  pr_mdpool : is_Some (r_mdpool r) }.

Lemma ConfProfile_build_runs c0 root names prof r g :
  profiled c0 root names r g -> Forall (fun n => Some n ∈ names) (pf_pools prof) ->
  runs (ConfProfile_build root prof) g (fun _ g' => exists r', profiled c0 root names r' g').
Proof.
  intros [Hp [v Hv] [m Hm]] Hn. destruct (pl_pooling _ _ _ _ _ Hp) as [G C R].
  pose proof (gd_wf _ _ _ G) as W. pose proof (root_type _ _ _ _ _ G R) as Tr.
  pose proof (gd_dev _ _ _ G). pose proof (gd_cuid _ _ _ G).
  destruct (pl_dix _ _ _ _ _ Hp v Hv) as (o & po & Ho & Hpo & Hin).
  destruct (profile_pools_ok _ _ W root r R (pf_pools prof) v o po m) as (l & El & Hl); try done.
  { intros n Hnin. rewrite Forall_forall in Hn. by apply (pl_names _ _ _ _ _ Hp), Hn. }
  assert (Ht : all_t o_pool l = true).
  { apply forallb_forall. intros k Hk%list_elem_of_In. rewrite Forall_forall in Hl. by apply is_t_true, Hl. }
  unfold ConfProfile_build, ConfProfile_init.
  eapply runs_step; [by apply assert_step, is_t_true|]. step.
  eapply runs_step; [by erewrite (conf_as_ok _ _ _ _ _ R) by reflexivity|].
  eapply runs_step; [by rewrite El|]. step. eapply runs_step; [by rewrite Ht|].
  eapply (child_runs0 g _ o_profile _ add_profile root (ConfRoot r)); try done; try lia.
  - by rewrite Tr.
  - split; try done. cbn. intros k Hk. rewrite Forall_forall in Hl. by apply Hl.
  - by apply add_profile_adds.
  - intros g' G' C' Hfresh. set (k := mkOid o_profile _) in *.
    assert (Hne : root <> k) by (intros E; by rewrite E in Tr).
    exists (mkRoot (r_nodes r) (r_sites r) (r_pools r) (r_profiles r ++ [k]) (r_fdmi_flt_grps r) (r_mdpool r)
              (r_mdredundancy r) (r_imeta_pver r)).
    split; cbn; [| by rewrite Hv | by rewrite Hm].
    eapply pooled_grows; [exact Hp | | | done | done].
    + split; [exact G' | rewrite C' | by rewrite C', od_get_set_eq].
      eapply hw_same_trans; [exact C|]. eapply hw_same_trans; apply hw_same_set; [done | by rewrite Tr].
    + rewrite C'. eapply pools_grow_trans; apply pools_grow_set; intros po'.
      * intros Hk. by apply Hfresh, (od_get_in _ _ _ Hk).
      * rewrite od_get_set_ne by done. by rewrite R.
Qed.

Lemma build_profiles_run c0 root names profs desc r g :
  profiled c0 root names r g -> cd_profiles desc = Given profs -> cd_create_aux desc = false ->
  Forall (fun prof => Forall (fun n => Some n ∈ names) (pf_pools prof)) profs ->
  runs (build_profiles root desc) g (fun _ g' => exists r', profiled c0 root names r' g').
Proof.
  intros Hg Ep Ha Hn. unfold build_profiles. rewrite Ep. step.
  eapply runs_conseq.
  { apply (runs_for_each (fun l g' => (exists r', profiled c0 root names r' g') /\
      Forall (fun prof => Forall (fun n => Some n ∈ names) (pf_pools prof)) l)); [eauto|].
    intros prof l g1 [[r1 Hg1] [Hp Hl]%Forall_cons]. step. rewrite Ha.
    eapply runs_bind; [by eapply ConfProfile_build_runs|]. intros o g2 H2. by apply runs_mret. }
  by intros u g' [H' _].
Qed.

(** ** The whole cluster *)

(** [check_agents] on the nodes *)
Definition agents_ok (nodes : list Node) : bool :=
  existsb node_confd nodes && all_unique (hostname <$> nodes) && forallb name_ok (hostname <$> nodes) &&
  all_unique ((fun n => ft_ipaddr (facts n)) <$> nodes).

(** A description from which a cluster can be built *)
Definition described (desc : ClusterDesc Node) : bool :=
  nodes_ok (cd_nodes desc) && agents_ok (cd_nodes desc) && pools_ok false false (cd_pools desc) &&
  match cd_profiles desc with
  | Given l => forallb (fun prof => forallb (fun n => bool_decide (Some n ∈ pl_name <$> cd_pools desc)) (pf_pools prof)) l
  | _ => false
  end &&
  match default [] (cd_fdmi_filters desc) with [] => true | _ => false end && negb (cd_create_aux desc).

Lemma agents_perm nodes : agents true nodes ++ agents false nodes ≡ₚ node_agent <$> nodes.
Proof.
  unfold agents. rewrite <- fmap_app. apply fmap_Permutation. induction nodes as [| n l IH]; [done|]. cbn.
  destruct (node_confd n); cbn; [by rewrite IH|]. by rewrite <- Permutation_middle, IH.
Qed.

Lemma all_unique_perm `{EqDecision A} (l l' : list A) : l ≡ₚ l' -> all_unique l = true -> all_unique l' = true.
Proof. intros E. rewrite !all_unique_true. by rewrite E. Qed.

Lemma check_agents_ok cl nodes :
  agents_ok nodes = true -> consul_servers cl = agents true nodes -> consul_clients cl = agents false nodes ->
  check_agents cl = Ret tt.
Proof.
  unfold agents_ok. intros [[[H1 H2]%andb_true_iff H3]%andb_true_iff H4]%andb_true_iff Es Ec. unfold check_agents.
  rewrite Es, Ec. pose proof (agents_perm nodes) as P. assert (En : node_name <$> (node_agent <$> nodes) = hostname <$> nodes)
    by (by rewrite <- list_fmap_compose).
  assert (Ei : ipaddr <$> (node_agent <$> nodes) = (fun n => ft_ipaddr (facts n)) <$> nodes) by (by rewrite <- list_fmap_compose).
  assert (exists a l, agents true nodes = a :: l) as (a & l & Ea).
  { unfold agents. apply existsb_exists in H1 as (n & Hn & Hc). assert (Hin : n ∈ List.filter (fun n => Bool.eqb true (node_confd n)) nodes).
    { apply list_elem_of_In, filter_In. by rewrite Hc. }
    destruct (List.filter _ nodes) as [| n' l']; [by apply elem_of_nil in Hin | eauto]. }
  rewrite Ea at 1. cbn [check mbind outcome_bind].
  rewrite (all_unique_perm (hostname <$> nodes)); [| by rewrite P, En | done].
  assert (forallb name_ok (node_name <$> (agents true nodes ++ agents false nodes)) = true) as ->.
  { apply forallb_forall. intros s Hs%list_elem_of_In. rewrite forallb_forall in H3. apply H3, list_elem_of_In.
    by rewrite <- En, <- P. }
  cbn [check mbind outcome_bind]. by rewrite (all_unique_perm ((fun n => ft_ipaddr (facts n)) <$> nodes)); [| rewrite P, Ei |].
Qed.

Lemma pools_found c f dix md l :
  wf c f -> full c [] -> reached c -> pools_ok dix md l = true ->
  Forall (fun p => exists refs, pool_drives_from_references c p = Ret refs) l -> Forall (drives_found c) l.
Proof.
  intros W F Re Hok Hres. revert dix md Hok. induction Hres as [| p l [rs Hrs] Hres IH]; intros dix md Hok; [constructor|].
  cbn in Hok. apply andb_true_iff in Hok as [Hp Hok].
  destruct (pool_type p) as [t | |] eqn:Et; [| unfold pool_ok in Hp; by rewrite Et in Hp..].
  constructor; [by eapply (described_drives _ _ W F Re)|].
  destruct t; [| apply andb_true_iff in Hok as [_ Hok]..]; by eapply IH.
Qed.

Section Whole.
Context (list_set : list (option string) -> list (option string)).

(** [build_cluster] after the check of the references *)
Definition furnish (desc : ClusterDesc Node) (cluster : Cluster) : M Gen Cluster :=
  build_pools list_set root0 desc ;;
  build_default_pools root0 desc ;;
  c ← gets m0conf;
  encls ← lift (cluster_encls c M0_CST_IOS);
  conf_upd root0 (set_mdredundancy (Z.of_nat (length encls))) ;;
  build_profiles root0 desc ;;
  for_each (default [] (cd_fdmi_filters desc)) (fun f =>
    ConfFdmiFltGrp_build root0 f [] ;; mret tt) ;;
  mret cluster.

Lemma build_conf_stages desc cl g1 :
  build_hardware (cd_nodes desc) gen0 = (Ret cl, g1) ->
  build_conf list_set desc gen0 =
    (lift (check_drive_multiple_references (m0conf g1) desc) ≫= (fun _ => furnish desc cl)) g1.
Proof.
  intros H. destruct start_runs as (R1 & R2 & R3). unfold build_conf. unfold build_hardware in H.
  rewrite (bind_unfold_Ret _ _ _ _ _ R1). rewrite (bind_unfold_Ret _ _ _ _ _ R1) in H.
  rewrite (bind_unfold_Ret _ _ _ _ _ R2). rewrite (bind_unfold_Ret _ _ _ _ _ R2) in H.
  rewrite (bind_unfold_Ret _ _ _ _ _ R3). rewrite (bind_unfold_Ret _ _ _ _ _ R3) in H.
  apply bind_Ret in H as ([cl' io] & g4 & H4 & H). rewrite (bind_unfold_Ret _ _ _ _ _ H4).
  apply bind_Ret in H as (u & g5 & H5 & H). rewrite (bind_unfold_Ret _ _ _ _ _ H5).
  apply mret_inv in H as [-> ->]. by erewrite bind_unfold_Ret by reflexivity.
Qed.

Lemma furnish_runs desc cl g refs :
  described desc = true -> hardware_ready g ->
  check_drive_multiple_references (m0conf g) desc = Ret refs ->
  runs (furnish desc cl) g (fun cl' g' => cl' = cl /\ good g' 0 0 /\ hw_same (m0conf g) (m0conf g')).
Proof.
  unfold described. intros Hd [G (r & Hr & Cr) F Re _] Hrefs.
  apply andb_true_iff in Hd as [Hd Haux%negb_true_iff]. apply andb_true_iff in Hd as [Hd Hfdmi].
  apply andb_true_iff in Hd as [Hd Hprof]. apply andb_true_iff in Hd as [_ Hpools].
  destruct (cd_profiles desc) as [| | profs] eqn:Eprof; try done. pose proof (gd_wf _ _ _ G) as W.
  assert (P0 : pooled (m0conf g) root0 [] r g).
  { split; [split; [done | apply hw_same_refl | done] | | by intros n ?%elem_of_nil].
    intros v Hv. injection Cr. congruence. }
  assert (Hi : r_imeta_pver r = None /\ r_mdpool r = None) by (injection Cr; auto). destruct Hi as [Hi Hm].
  unfold furnish, build_pools. rewrite Haux. eapply runs_bind.
  { apply (pools_run (m0conf g) _ W root0 F Re desc false false (cd_pools desc) [] r g P0 Hpools); [| auto | auto].
    eapply (pools_found (m0conf g)); [exact W | exact F | exact Re | exact Hpools | by eapply references_resolve]. }
  intros u1 g1 (r1 & P1). rewrite app_nil_r in P1. eapply runs_bind.
  { by apply (default_pools_run (m0conf g) _ W root0 F Re desc _ _ _ P1). }
  intros u2 g2 (r2 & names & P2 & Hn & I2 & M2). step.
  destruct (encls_found (m0conf g) _ W Re M0_CST_IOS) as (ei & Hei & _); [by left|].
  eapply runs_step.
  { by rewrite (cluster_encls_same _ _ _ W (pst_same _ _ _ _ (pl_pooling _ _ _ _ _ P2))), Hei. }
  eapply runs_bind.
  { eapply (root_upd_runs (m0conf g) root0 r2); [apply P2 | reflexivity | apply set_mdredundancy_ext]. }
  intros u3 g3 [P3 G3]. eapply runs_bind.
  { eapply (build_profiles_run (m0conf g) root0 names profs); [split; [by eapply pooled_grows | done | done] | done | done |].
    apply Forall_forall. intros prof Hp. apply Forall_forall. intros n Hin. apply Hn.
    rewrite forallb_forall in Hprof. specialize (Hprof prof ltac:(by apply list_elem_of_In)).
    rewrite forallb_forall in Hprof. specialize (Hprof n ltac:(by apply list_elem_of_In)).
    apply bool_decide_eq_true in Hprof. by rewrite <- (Permutation_rev (pl_name <$> cd_pools desc)) in *. }
  intros u4 g4 (r4 & [[[G4 S4 _] _ _] _ _]). destruct (default [] (cd_fdmi_filters desc)); [| done].
  step. apply runs_mret. done.
Qed.

(** The stages of a run on a description *)
Lemma build_described desc :
  described desc = true ->
  exists cl g1, build_hardware (cd_nodes desc) gen0 = (Ret cl, g1) /\ hardware_ready g1 /\
    consul_servers cl = agents true (cd_nodes desc) /\ consul_clients cl = agents false (cd_nodes desc) /\
    clients_typed cl = true /\
    forall refs, check_drive_multiple_references (m0conf g1) desc = Ret refs -> exists g2,
      build_conf list_set desc gen0 = (Ret cl, g2) /\ build_cluster list_set desc gen0 = (Ret cl, g2) /\
      good g2 0 0 /\ hw_same (m0conf g1) (m0conf g2).
Proof.
  intros Hd. assert (Hn : nodes_ok (cd_nodes desc) = true /\ agents_ok (cd_nodes desc) = true).
  { unfold described in Hd. rewrite !andb_true_iff in Hd. tauto. }
  destruct Hn as [Hn Ha]. destruct (hardware_runs _ Hn) as (cl & g1 & E & Hr & Es & Ec & Ht).
  exists cl, g1. split_and!; try done. intros refs Ek.
  destruct (furnish_runs desc cl g1 refs Hd Hr Ek) as (cl' & g2 & E2 & -> & G2 & S2). exists g2.
  assert (Eb : build_conf list_set desc gen0 = (Ret cl, g2)) by (by rewrite (build_conf_stages desc cl g1 E), Ek).
  split_and!; try done. unfold build_cluster. rewrite (bind_unfold_Ret _ _ gen0 cl g2) by done.
  erewrite bind_unfold_Ret by reflexivity.
  rewrite (wf_validates _ _ (gd_wf _ _ _ G2)), (check_agents_ok cl (cd_nodes desc)) by done. reflexivity.
Qed.

(** C8: A description that passes the executable condition [described] is built.
    The condition asks that every node is complete (address, cores, memory, ports,
    disks with their sizes), that some node has I/O disks and some node a confd,
    that names and addresses are unique, that every pool has units that fit
    together and failures that are given or can be derived, at most one DIX and one
    metadata pool, that profiles name pools of the description, and that neither
    FDMI filters nor auxiliary pools are asked for.  Then all nodes, processes,
    services and devices are built; the result of [build_cluster] as a whole is
    that of [check_drive_multiple_references] on them: it raises what that raises,
    and otherwise returns the cluster whose Consul servers are the nodes with a
    confd and whose Consul clients are the others, in order, and building the pools
    leaves the hardware as it was.  With no references to disks nothing is raised. *)
Theorem described_cluster_is_built desc :
  described desc = true ->
  exists cl g1, build_hardware (cd_nodes desc) gen0 = (Ret cl, g1) /\
    consul_servers cl = agents true (cd_nodes desc) /\ consul_clients cl = agents false (cd_nodes desc) /\
    (build_cluster list_set desc gen0).1 =
      (check_drive_multiple_references (m0conf g1) desc ≫= (fun _ => Ret cl)) /\
    (forall refs, check_drive_multiple_references (m0conf g1) desc = Ret refs ->
       hw_same (m0conf g1) (m0conf (build_cluster list_set desc gen0).2)) /\
    (Forall (fun p => get_pool_diskrefs p = None) (cd_pools desc) ->
       check_drive_multiple_references (m0conf g1) desc = Ret []).
Proof.
  intros Hd. destruct (build_described desc Hd) as (cl & g1 & E & Hr & Es & Ec & _ & Hb).
  exists cl, g1. split_and!; try done.
  - destruct (check_drive_multiple_references (m0conf g1) desc) as [refs | e |] eqn:Ek.
    + destruct (Hb refs eq_refl) as (g2 & _ & -> & _). done.
    + unfold build_cluster, mbind, M_bind. by rewrite (build_conf_stages desc cl g1 E), Ek.
    + unfold build_cluster, mbind, M_bind. by rewrite (build_conf_stages desc cl g1 E), Ek.
  - intros refs Ek. destruct (Hb refs Ek) as (g2 & _ & -> & _ & Hs). exact Hs.
  - intros Hp. by apply (no_multiple_references _ _ (gd_wf _ _ _ (hr_good _ Hr)) (hr_full _ Hr) (hr_reached _ Hr)).
Qed.
End Whole.

(** The example with failures given for its pool, with and without references *)
Definition demo_given (refs : field (list DiskRef)) : ClusterDesc Node :=
  mkClusterDesc (cd_nodes (demo_desc false true))
    [mkPoolDesc (Some "p0") Absent refs (Some 2) (Some 1) (Given 0) (Some (mkFailures 0 0 1 1 1))]
    (Given [mkProfileDesc "default" ["p0"]]) None false true.

Lemma described_cluster_is_built_witness :
  exists cl, (build_cluster remove_dups (demo_given (Given demo_refs)) gen0).1 = Ret cl /\
    node_name <$> consul_servers cl = ["n1"; "n2"; "n3"] /\
    (build_cluster remove_dups (demo_given (Given (demo_refs ++ demo_refs))) gen0).1 = Raise AssertionError /\
    (exists cl', (build_cluster remove_dups (demo_given Absent) gen0).1 = Ret cl').
Proof.
  destruct (described_cluster_is_built remove_dups (demo_given (Given demo_refs)) ltac:(by vm_compute))
    as (cl & g1 & E & Es & _ & H & _).
  destruct (described_cluster_is_built remove_dups (demo_given (Given (demo_refs ++ demo_refs))) ltac:(by vm_compute))
    as (cl2 & g2 & E2 & _ & _ & H2 & _).
  destruct (described_cluster_is_built remove_dups (demo_given Absent) ltac:(by vm_compute))
    as (cl3 & g3 & _ & _ & _ & H3 & _ & H3').
  change (cd_nodes (demo_given _)) with (cd_nodes (demo_desc false true)) in E, E2.
  assert (Eg : g1 = (build_hardware (cd_nodes (demo_desc false true)) gen0).2) by (by rewrite E).
  assert (Eg2 : g2 = (build_hardware (cd_nodes (demo_desc false true)) gen0).2) by (by rewrite E2).
  exists cl. split_and!.
  - rewrite H, Eg. by vm_compute.
  - by rewrite Es.
  - rewrite H2, Eg2. by vm_compute.
  - exists cl3. rewrite H3, H3'; [done|]. by repeat constructor.
Defined.
