(* ===== verification/CfgenProps.v ===== *)
(** * Properties of the built configuration ([src/cfgen/cfgen])

    [build_cluster] never fails in [validate_m0conf]: whatever it built is closed
    under references and forms a forest.  A pool version is a copy of the part of
    the device tree its drives live in.  The witnesses evaluate the generator on the cluster of [CfgenDemo]. *)

From stdpp Require Import list_numbers.
From S2P Require Import Prelude PyStr Json HaxTypes OrdDict CfgenTypes CfgenBuild.
From S2P Require Import CfgenPools CfgenCluster CfgenInv CfgenWf CfgenMirror CfgenPverWf CfgenDemo.
From S2P Require Import PyFloat CfgenClusterWf CfgenTol.

(** ** The demo cluster, built *)
Definition demo_run : outcome Cluster * Gen := build_conf remove_dups (demo_desc false true) gen0.
Definition demo_gen : Gen := demo_run.2.
Definition demo_cluster : Cluster := match demo_run.1 with Ret cl => cl | _ => mkCluster [] [] [] [] end.

Lemma demo_built : build_conf remove_dups (demo_desc false true) gen0 = (Ret demo_cluster, demo_gen).
Proof. unfold demo_gen, demo_run. apply run_ret. vm_compute. reflexivity. Qed.

Lemma demo_bounded : bounded (ObjT_last_fidk demo_gen).
Proof. split; vm_compute; discriminate. Qed.

Lemma demo_wf : wf (m0conf demo_gen) (ObjT_last_fidk demo_gen).
Proof. exact (proj1 (build_conf_wf _ _ _ _ demo_built demo_bounded)). Qed.

(** C7: Whenever [build_cluster] reaches [validate_m0conf] (with fewer than 2^32
    processes and services), the validation passes and the run ends with the checks
    of the Consul agents: in the configuration built, every identifier an object
    mentions is the key of an object, the class of an object is that of its
    identifier, no object has two parents, and no two objects share an
    identifier. *)
Theorem built_configuration_is_valid list_set desc cl g :
  build_conf list_set desc gen0 = (Ret cl, g) -> bounded (ObjT_last_fidk g) ->
  build_cluster list_set desc gen0 = (lift (check_agents cl) ;; mret cl) g /\
  validate_m0conf (m0conf g) = Ret tt /\
  NoDup (od_keys (m0conf g)) /\ NoDup (all_links (m0conf g)) /\
  forall o x, od_get o (m0conf g) = Some x ->
    o_type o = obj_objt x /\ forall r, r ∈ links_of x ++ other_refs x -> exists y, od_get r (m0conf g) = Some y.
Proof.
  intros H Hb. destruct (build_conf_wf _ _ _ _ H Hb) as [Hwf _].
  pose proof (wf_validates _ _ Hwf) as Hv. split_and!; [| done | apply (wf_keys _ _ Hwf) | apply (wf_unique _ _ Hwf) |].
  - unfold build_cluster. erewrite bind_unfold_Ret by exact H. erewrite bind_unfold_Ret by reflexivity.
    rewrite Hv. by erewrite bind_unfold_Ret by reflexivity.
  - intros o x Ho. split; [by apply (wf_class _ _ Hwf)|]. intros r Hr.
    apply (wf_refs _ _ Hwf o x r Ho), od_get_key in Hr. by destruct (od_get r _) as [y |]; [exists y | destruct Hr].
Qed.

Lemma built_configuration_is_valid_witness :
  validate_m0conf (m0conf demo_gen) = Ret tt /\ (161 <= length (m0conf demo_gen))%nat.
Proof.
  split; [exact (proj1 (proj2 (built_configuration_is_valid _ _ _ _ demo_built demo_bounded))) |].
  apply Nat.leb_le. vm_compute. reflexivity.
Defined.

(** C10: On a well-formed configuration with one rack, [ConfPver.build] over drives
    of the configuration always succeeds, and the virtual objects it adds mirror the
    devices: there is one new [ConfObjv] for every drive and everything above it,
    the children of a virtual object are exactly those of the devices below, the
    pool version has the single virtual site, its pool width is the number of drives,
    exactly the mirrored devices list the pool version, and nothing else changes but
    the pool; the result is well-formed and passes [validate_m0conf]. *)
Theorem pver_tree_mirrors_devices g pool po pd drives tol :
  wf (m0conf g) (ObjT_last_fidk g) -> bounded (ObjT_last_fidk g) -> ObjT_last_fidk g o_rack <= 1 ->
  od_get pool (m0conf g) = Some (ConfPool po) ->
  drives <> [] -> NoDup drives -> Forall (has g o_drive) drives ->
  0 < pd_data_units pd -> 0 <= pd_parity_units pd ->
  spare_ok (pd_parity_units pd) (pd_spare_units pd) = true ->
  Forall (fun n => 0 <= n) (failures_list tol) ->
  exists pver V g', ConfPver_build pool pd drives (Some tol) g = (Ret pver, g') /\
    pver ∉ od_keys (m0conf g) /\ has g' o_pver pver /\
    mirrors (m0conf g) (m0conf g') pver drives V /\
    wf (m0conf g') (ObjT_last_fidk g') /\ validate_m0conf (m0conf g') = Ret tt.
Proof.
  intros Hwf Hb Hr Hpool Hne Hnd Hd Hdu Hpu Hsp Htol.
  destruct (ConfPver_build_run g pool po pd drives tol Hwf Hb Hr Hpool Hne Hnd Hd Hdu Hpu Hsp Htol)
    as (pver & V & g' & E & _ & Hfresh & Hm & Hwf' & Hh & _).
  exists pver, V, g'. split_and!; try done. by eapply wf_validates.
Qed.

(** All drives of the demo but the first form a second version of its pool. *)
Definition demo_drives : list Oid :=
  drop 1 (filter (fun o => o_type o = o_drive) (od_keys (m0conf demo_gen))).
Definition demo_pool_id : Oid := mkOid o_pool 1.
Definition demo_po : CPool :=
  match od_get demo_pool_id (m0conf demo_gen) with Some (ConfPool po) => po | _ => mkPool [] None end.

Lemma pver_tree_mirrors_devices_witness :
  exists pver V g', ConfPver_build demo_pool_id (mkPD 2 1 0) demo_drives
      (Some (mkFailures 0 0 1 1 1)) demo_gen = (Ret pver, g') /\
    mirrors (m0conf demo_gen) (m0conf g') pver demo_drives V.
Proof.
  destruct (pver_tree_mirrors_devices demo_gen demo_pool_id demo_po (mkPD 2 1 0) demo_drives
    (mkFailures 0 0 1 1 1) demo_wf demo_bounded) as (pver & V & g' & E & _ & _ & Hm & _).
  - vm_compute. discriminate.
  - vm_compute. reflexivity.
  - intros E. apply (f_equal length) in E. vm_compute in E. discriminate.
  - apply (bool_decide_unpack _). vm_compute. reflexivity.
  - apply (Forall_impl (fun o => o ∈ od_keys (m0conf demo_gen) /\ o_type o = o_drive)); [| done].
    apply (bool_decide_unpack _). vm_compute. reflexivity.
  - done.
  - done.
  - reflexivity.
  - apply (bool_decide_unpack _). reflexivity.
  - exists pver, V, g'. split; [exact E | exact Hm].
Defined.

(** ** Witnesses of [CfgenTol] *)
Lemma tolerated_controllers_optimal_witness :
  exists cf, ctrl_failures 4 2 0 4 = Ret cf /\ 0 <= cf < 4 /\
    units_lost 6 4 cf <= 2 /\ forall c, cf < c <= 4 -> 2 < units_lost 6 4 c.
Proof. apply (tolerated_controllers_optimal 4 2 0 4); lia. Defined.

Definition demo_encls : list Oid :=
  match cluster_encls (m0conf demo_gen) M0_CST_IOS with Ret l => l | _ => [] end.

Lemma sns_tolerance_recoverable_witness :
  exists t, gen_sns_tolerance (m0conf demo_gen) demo_pool = Ret t /\ f_enclosure t = 1 /\
    (forall us failed, evenly_placed 3 3 us -> failed `sublist_of` us ->
       Z.of_nat (length failed) <= 1 -> foldr Z.add 0 failed <= 1) /\
    (forall us failed, evenly_placed 3 3 us -> failed `sublist_of` us ->
       Z.of_nat (length failed) = 2 -> 1 < foldr Z.add 0 failed).
Proof.
  assert (E : gen_sns_tolerance (m0conf demo_gen) demo_pool = Ret (mkFailures 0 0 1 1 1))
    by (vm_compute; reflexivity).
  assert (Ee : cluster_encls (m0conf demo_gen) M0_CST_IOS = Ret demo_encls) by (vm_compute; reflexivity).
  assert (Hn : length demo_encls = 3%nat) by (vm_compute; reflexivity).
  assert (Edr : exists ds, pool_drives (m0conf demo_gen) demo_pool = Ret ds /\ length ds = 6%nat)
    by (eexists; split; [vm_compute; reflexivity | reflexivity]).
  destruct Edr as (ds & Edr & Hds).
  exists (mkFailures 0 0 1 1 1). split; [exact E|]. split; [reflexivity|].
  pose proof (sns_tolerance_recoverable _ _ _ _ _ 2 1 0 E Ee Edr eq_refl eq_refl eq_refl) as H.
  rewrite Hn, Hds in H. destruct H as (_ & _ & H1 & H2 & _); [lia.. |].
  split; [exact H1|]. apply H2; [cbn; lia | reflexivity].
Defined.

(** Three nodes, one of which may fail: the three pairs. *)
Lemma aux_pools_cover_failures_witness :
  exists combos, aux_combinations remove_dups demo_pool [] 1 = Ret combos /\ length combos = 3%nat /\
    forall failed, failed_nodes (remove_dups (ref_node <$> demo_refs)) 1 failed ->
      exists comb, comb ∈ combos /\ forall r, r ∈ comb <-> r ∈ demo_refs /\ ref_node r ∉ failed.
Proof.
  destruct (aux_pools_cover_failures remove_dups (fun l => reflexivity _) demo_pool [] 1) as (combos & E & H & _).
  - repeat (constructor; [eexists; reflexivity|]). constructor.
  - vm_compute. discriminate.
  - exists combos. split; [exact E|]. split; [| exact H].
    vm_compute in E. injection E as <-. reflexivity.
Defined.
