(* ===== verification/CfgenOut.v ===== *)
(** * Output of the generator ([src/cfgen/cfgen])

    The text of [confd.dhall] with the [to_dhall] method of every class, the
    entries of [consul-kv.json] and the agents of [consul-agents.json]. *)

From S2P Require Import Prelude PyStr Json HaxTypes OrdDict Sysconf.
From S2P Require Import CfgenTypes CfgenBuild CfgenPools CfgenCluster.

(** ** Dhall *)
Definition objT_to_dhall (t : ObjT) : string :=
  "types.ObjT." +:+ py_join "" (capitalize <$> py_split "_" (objt_name t)).

Definition oid_to_dhall (o : Oid) : string :=
  "utils.zoid " +:+ objT_to_dhall (o_type o) +:+ " " +:+ dec_str (o_fidk o).

Definition oids_to_dhall (l : list Oid) : string :=
  match l with
  | [] => "[] : List types.Oid"
  | _ => "[ " +:+ py_join ", " (oid_to_dhall <$> l) +:+ " ]"
  end.

Definition SvcT_to_dhall (s : SvcT) : string := "types.SvcT." +:+ svc_t_name s.

Definition in_quotes (s : string) : string := String quote (s +:+ String quote "").
(** [f'{x}'] of a number that may be [None] and of a list of numbers *)
Definition opt_num (o : option Z) : string := match o with Some n => dec_str n | None => "None" end.
Definition num_list (l : list Z) : string := "[" +:+ py_join ", " (dec_str <$> l) +:+ "]".

(** ['{ %s }' % ', '.join(args)] *)
Definition braces (args : list string) : string := "{ " +:+ py_join ", " args +:+ " }".

Definition ConfRoot_to_dhall (x : CRoot) (oid : Oid) : outcome string :=
  check (is_t o_root oid) ;;
  match r_imeta_pver x, r_mdpool x with
  | Some imeta, Some mdpool =>
      Ret (braces
        ["id = " +:+ oid_to_dhall oid; "mdpool = " +:+ oid_to_dhall mdpool;
         "mdredundancy = " +:+ dec_str (r_mdredundancy x);
         "imeta_pver = Some (" +:+ oid_to_dhall imeta +:+ ")";
         "nodes = " +:+ oids_to_dhall (r_nodes x); "sites = " +:+ oids_to_dhall (r_sites x);
         "pools = " +:+ oids_to_dhall (r_pools x); "profiles = " +:+ oids_to_dhall (r_profiles x);
         "fdmi_flt_grps = " +:+ oids_to_dhall (r_fdmi_flt_grps x)])
  | _, _ => Raise AssertionError
  end.

Definition ConfNode_to_dhall (x : CNode) (oid : Oid) : outcome string :=
  check (is_t o_node oid) ;;
  Ret (braces
    ["id = " +:+ oid_to_dhall oid; "nr_cpu = " +:+ opt_num (n_nr_cpu x);
     "memsize_MB = " +:+ dec_str (n_memsize_MB x);
     "processes = " +:+ oids_to_dhall (n_processes x)]).

Definition ConfProcess_to_dhall (x : CProcess) (oid : Oid) : outcome string :=
  check (is_t o_process oid) ;;
  Ret (braces
    ["id = " +:+ oid_to_dhall oid; "nr_cpu = " +:+ dec_str (p_nr_cpu x);
     "memsize_MB = " +:+ dec_str (p_memsize_MB x);
     "endpoint = " +:+ in_quotes (endpoint_str (p_endpoint x));
     "services = " +:+ oids_to_dhall (p_services x)]).

Definition ConfService_to_dhall (x : CService) (oid : Oid) : outcome string :=
  check (is_t o_service oid) ;;
  let params := match s_params x with
                | origin :: _ => "[" +:+ in_quotes origin +:+ "]"
                | [] => "[] : List Text"
                end in
  Ret (braces
    ["id = " +:+ oid_to_dhall oid; "type = " +:+ SvcT_to_dhall (s_type x);
     "endpoint = " +:+ in_quotes (endpoint_str (s_endpoint x));
     "sdevs = " +:+ oids_to_dhall (s_sdevs x); "params = " +:+ params]).

Definition ConfSdev_to_dhall (x : CSdev) (oid : Oid) : outcome string :=
  check (is_t o_sdev oid) ;;
  Ret (braces
    ["id = " +:+ oid_to_dhall oid; "dev_idx = " +:+ dec_str (sd_dev_idx x);
     "filename = " +:+ in_quotes (sd_filename x); "size = " +:+ dec_str (sd_size x);
     "blksize = " +:+ dec_str (sd_blksize x)]).

Definition ConfSite_to_dhall (x : CSite) (oid : Oid) : outcome string :=
  check (is_t o_site oid) ;;
  Ret (braces ["id = " +:+ oid_to_dhall oid; "racks = " +:+ oids_to_dhall (st_racks x);
               "pvers = " +:+ oids_to_dhall (st_pvers x)]).

Definition ConfRack_to_dhall (x : CRack) (oid : Oid) : outcome string :=
  check (is_t o_rack oid) ;;
  Ret (braces ["id = " +:+ oid_to_dhall oid; "encls = " +:+ oids_to_dhall (rk_encls x);
               "pvers = " +:+ oids_to_dhall (rk_pvers x)]).

Definition ConfEnclosure_to_dhall (x : CEnclosure) (oid : Oid) : outcome string :=
  check (is_t o_enclosure oid) ;;
  Ret (braces ["id = " +:+ oid_to_dhall oid; "node = " +:+ oid_to_dhall (e_node x);
               "ctrls = " +:+ oids_to_dhall (e_ctrls x); "pvers = " +:+ oids_to_dhall (e_pvers x)]).

Definition ConfController_to_dhall (x : CController) (oid : Oid) : outcome string :=
  check (is_t o_controller oid) ;;
  Ret (braces ["id = " +:+ oid_to_dhall oid; "drives = " +:+ oids_to_dhall (c_drives x);
               "pvers = " +:+ oids_to_dhall (c_pvers x)]).

Definition ConfDrive_to_dhall (x : CDrive) (oid : Oid) : outcome string :=
  check (is_t o_drive oid) ;;
  Ret (braces ["id = " +:+ oid_to_dhall oid; "sdev = " +:+ oid_to_dhall (dv_sdev x);
               "pvers = " +:+ oids_to_dhall (dv_pvers x)]).

Definition ConfPool_to_dhall (x : CPool) (oid : Oid) : outcome string :=
  check (is_t o_pool oid) ;;
  Ret (braces ["id = " +:+ oid_to_dhall oid; "pvers = " +:+ oids_to_dhall (po_pvers x)]).

Definition ConfPver_to_dhall (x : CPver) (oid : Oid) : outcome string :=
  check (is_t o_pver oid) ;;
  Ret (braces
    ["id = " +:+ oid_to_dhall oid; "data_units = " +:+ dec_str (pv_data_units x);
     "parity_units = " +:+ dec_str (pv_parity_units x);
     "spare_units = " +:+ dec_str (pv_spare_units x);
     "pool_width = " +:+ dec_str (pv_pool_width x); "tolerance = " +:+ num_list (pv_tolerance x);
     "sitevs = " +:+ oids_to_dhall (pv_sitevs x)]).

Definition ConfPverF_to_dhall (x : CPverF) (oid : Oid) : outcome string :=
  check (is_t o_pver_f oid) ;;
  Ret (braces ["id = " +:+ oid_to_dhall oid; "cuid = " +:+ dec_str (pf_cuid x);
               "base = " +:+ oid_to_dhall (pf_base x);
               "allowance = " +:+ num_list (pf_allowance x)]).

Definition ConfObjv_to_dhall (x : CObjv) (oid : Oid) : outcome string :=
  check (is_t o_objv oid) ;;
  Ret (braces ["id=" +:+ oid_to_dhall oid; "real=" +:+ oid_to_dhall (ov_real x);
               "children=" +:+ oids_to_dhall (ov_children x)]).

Definition ConfProfile_to_dhall (x : CProfile) (oid : Oid) : outcome string :=
  check (is_t o_profile oid) ;;
  Ret (braces ["id = " +:+ oid_to_dhall oid; "pools = " +:+ oids_to_dhall (pr_pools x)]).

Definition ConfFdmiFltGrp_to_dhall (x : CFdmiFltGrp) (oid : Oid) : outcome string :=
  check (is_t o_fdmi_flt_grp oid) ;;
  Ret (braces ["id = " +:+ oid_to_dhall oid; "rec_type = " +:+ dec_str (fg_rec_type x);
               "filters = " +:+ oids_to_dhall (fg_filters x)]).

(** [oid_to_dhall(None)] has no attribute [type]. *)
Definition ConfFdmiFilter_to_dhall (x : CFdmiFilter) (oid : Oid) : outcome string :=
  check (is_t o_fdmi_filter oid) ;;
  match fl_dix_pver x with
  | None => Raise AttributeError
  | Some pver =>
      Ret (braces
        ["id = " +:+ oid_to_dhall oid; "filter_type = 2"; "filter_id = " +:+ oid_to_dhall oid;
         "filter_root = " +:+ in_quotes ""; "node = " +:+ oid_to_dhall (fl_node x);
         "dix_pver = " +:+ oid_to_dhall pver;
         "substrings = [" +:+ py_join ", " (in_quotes <$> fl_substrings x) +:+ "] : List Text";
         "endpoints = [" +:+ in_quotes (fl_endpoint x) +:+ "]"])
  end.

(** [obj.to_dhall(oid)] *)
Definition to_dhall (x : Obj) : Oid -> outcome string :=
  match x with
  | ConfRoot x => ConfRoot_to_dhall x | ConfNode x => ConfNode_to_dhall x
  | ConfProcess x => ConfProcess_to_dhall x | ConfService x => ConfService_to_dhall x
  | ConfSdev x => ConfSdev_to_dhall x | ConfSite x => ConfSite_to_dhall x
  | ConfRack x => ConfRack_to_dhall x | ConfEnclosure x => ConfEnclosure_to_dhall x
  | ConfController x => ConfController_to_dhall x | ConfDrive x => ConfDrive_to_dhall x
  | ConfPool x => ConfPool_to_dhall x | ConfPver x => ConfPver_to_dhall x
  | ConfPverF x => ConfPverF_to_dhall x | ConfObjv x => ConfObjv_to_dhall x
  | ConfProfile x => ConfProfile_to_dhall x | ConfFdmiFltGrp x => ConfFdmiFltGrp_to_dhall x
  | ConfFdmiFilter x => ConfFdmiFilter_to_dhall x
  end.

(** The local function [objt] of [generate_confd]. *)
Definition objt_of (x : Obj) : outcome string :=
  check (String.prefix "Conf" (obj_class x)) ;;
  Ret (String.substring 4 (String.length (obj_class x) - 4) (obj_class x)).

Definition confd_obj (ox : Oid * Obj) : outcome string :=
  t ← objt_of ox.2;
  s ← to_dhall ox.2 ox.1;
  Ret ("types.Obj." +:+ t +:+ " " +:+ s).

Definition nl : string := String newline "".

Definition generate_confd (c : Conf) (dhall_dir : string) : outcome string :=
  check (String.prefix "/" dhall_dir) ;;
  objs ← mapM confd_obj c;
  Ret ("let types = " +:+ dhall_dir +:+ "/types.dhall" +:+ nl
       +:+ "let utils = " +:+ dhall_dir +:+ "/utils.dhall" +:+ nl
       +:+ nl
       +:+ "let objs =" +:+ nl
       +:+ "  [ " +:+ py_join (nl +:+ "  , ") objs +:+ nl
       +:+ "  ]" +:+ nl
       +:+ nl
       +:+ "in " +:+ dhall_dir +:+ "/toConfGen.dhall objs" +:+ nl).

(** ** Consul agents *)
Definition agent_json (a : ConsulAgent) : json :=
  JObj [("node_name", JStr (node_name a));
        ("ipaddr", match ipaddr a with Some ip => JStr ip | None => JNull end)].

Definition generate_consul_agents (cl : Cluster) : outcome string :=
  check (match consul_servers cl with [] => false | _ => true end) ;;
  Ret (dumps_indent 0 (JObj [("servers", JArr (agent_json <$> consul_servers cl));
                             ("clients", JArr (agent_json <$> consul_clients cl))]) +:+ nl).

(** ** Consul KV *)

(** A dict filled in the order of the assignments. *)
Definition dict_of {A} (l : list (string * A)) : list (string * A) :=
  foldl (fun d kv => dict_set kv.1 kv.2 d) [] l.

Definition state_unknown : string := dumps (JObj [("state", JStr "M0_NC_UNKNOWN")]).
(** [json.dumps({k: v, 'state': 'M0_NC_UNKNOWN'})] *)
Definition with_state (k v : string) : string :=
  dumps (JObj [(k, JStr v); ("state", JStr "M0_NC_UNKNOWN")]).

(** *** Hardware *)
Definition drive_entries (c : Conf) (ctrl_key : string) (drive_id : Oid)
    : outcome (list (string * string)) :=
  check (is_t o_drive drive_id) ;;
  f ← oid_to_fidstr drive_id;
  d ← conf_as as_drive c drive_id;
  sdev ← oid_to_fidstr (dv_sdev d);
  Ret [(ctrl_key +:+ "/drives/" +:+ f, with_state "sdev" sdev)].

Definition ctrl_entries (c : Conf) (encl_key : string) (ctrl_id : Oid)
    : outcome (list (string * string)) :=
  check (is_t o_controller ctrl_id) ;;
  f ← oid_to_fidstr ctrl_id;
  let ctrl_key := encl_key +:+ "/ctrls/" +:+ f in
  x ← conf_as as_ctrl c ctrl_id;
  l ← concat_o (drive_entries c ctrl_key) (c_drives x);
  Ret ((ctrl_key, state_unknown) :: l).

Definition encl_entries (c : Conf) (rack_key : string) (encl_id : Oid)
    : outcome (list (string * string)) :=
  check (is_t o_enclosure encl_id) ;;
  f ← oid_to_fidstr encl_id;
  let encl_key := rack_key +:+ "/encls/" +:+ f in
  x ← conf_as as_encl c encl_id;
  node ← oid_to_fidstr (e_node x);
  l ← concat_o (ctrl_entries c encl_key) (e_ctrls x);
  Ret ((encl_key, with_state "node" node) :: l).

Definition rack_entries (c : Conf) (site_key : string) (rack_id : Oid)
    : outcome (list (string * string)) :=
  check (is_t o_rack rack_id) ;;
  f ← oid_to_fidstr rack_id;
  let rack_key := site_key +:+ "/racks/" +:+ f in
  x ← conf_as as_rack c rack_id;
  l ← concat_o (encl_entries c rack_key) (rk_encls x);
  Ret ((rack_key, state_unknown) :: l).

Definition site_entries (c : Conf) (site_id : Oid) : outcome (list (string * string)) :=
  f ← oid_to_fidstr site_id;
  let site_key := "m0conf/sites/" +:+ f in
  x ← conf_as as_site c site_id;
  l ← concat_o (rack_entries c site_key) (st_racks x);
  Ret ((site_key, state_unknown) :: l).

Definition consul_kv_drives (c : Conf) : outcome (list (string * string)) :=
  l ← concat_o (site_entries c) (conf_keys_of o_site c);
  Ret (dict_of l).

(** *** Software *)

(** [svc.type.name[len('M0_CST_'):].lower()] *)
Definition stype_name (s : SvcT) : string :=
  py_lower (String.substring 7 (String.length (svc_t_name s) - 7) (svc_t_name s)).

Definition sdev_entries (c : Conf) (svc_key : string) (sdev_id : Oid)
    : outcome (list (string * string)) :=
  check (is_t o_sdev sdev_id) ;;
  f ← oid_to_fidstr sdev_id;
  x ← conf_as as_sdev c sdev_id;
  Ret [(svc_key +:+ "/sdevs/" +:+ f, with_state "path" (sd_filename x))].

Definition svc_entries (c : Conf) (proc_key : string) (svc_id : Oid)
    : outcome (list (string * string)) :=
  check (is_t o_service svc_id) ;;
  f ← oid_to_fidstr svc_id;
  let svc_key := proc_key +:+ "/services/" +:+ f in
  x ← conf_as as_service c svc_id;
  l ← concat_o (sdev_entries c svc_key) (s_sdevs x);
  Ret ((svc_key, with_state "name" (stype_name (s_type x))) :: l).

Definition proc_entries (c : Conf) (node_key : string) (proc_id : Oid)
    : outcome (list (string * string)) :=
  check (is_t o_process proc_id) ;;
  f ← oid_to_fidstr proc_id;
  let proc_key := node_key +:+ "/processes/" +:+ f in
  x ← conf_as as_process c proc_id;
  l ← concat_o (svc_entries c proc_key) (p_services x);
  Ret ((proc_key, with_state "name" (ep_portalgroup (p_endpoint x)).1) :: l).

Definition node_entries (c : Conf) (node_id : Oid) : outcome (list (string * string)) :=
  f ← oid_to_fidstr node_id;
  let node_key := "m0conf/nodes/" +:+ f in
  x ← conf_as as_node c node_id;
  l ← concat_o (proc_entries c node_key) (n_processes x);
  Ret ((node_key, with_state "name" (n_name x)) :: l).

Definition consul_kv_sdevs (c : Conf) : outcome (list (string * string)) :=
  l ← concat_o (node_entries c) (conf_keys_of o_node c);
  Ret (dict_of l).

(** *** Fid keys: reading a counter advances it. *)
Definition fidk_entries (t : ObjT) : M Gen (list (string * Z)) :=
  n ← next_fidk t;
  mret [("last_base_fid_key/" +:+ objt_name t, n); ("last_dynamic_fid_key/" +:+ objt_name t, 0)].

Definition consul_kv_fidk : M Gen (list (string * Z)) :=
  l ← map_m fidk_entries ObjT_members;
  mret (dict_of (concat l)).

(** *** [generate_consul_kv] *)
Record ConsulService : Type := mkConsulService {
  cs_node_name : string; cs_proc_id : Oid; cs_ep : Endpoint; cs_svc_id : Oid;
  cs_stype : option string; cs_meta_data : option string; cs_log : list Disk }.

(** The local variable [proc] of the generator [processes] keeps the process of the
    last service that was visited. *)
Definition process_services (cl : Cluster) (c : Conf) (node : CNode)
    (acc : option CProcess * list ConsulService) (proc_id : Oid)
    : outcome (option CProcess * list ConsulService) :=
  let '(proc, out) := acc in
  check (is_t o_process proc_id) ;;
  this ← conf_as as_process c proc_id;
  svcs ← mapM (fun svc_id =>
    s ← conf_as as_service c svc_id;
    Ret (mkConsulService (n_name node) proc_id (p_endpoint this) svc_id
           (Some (stype_name (s_type s))) (p_meta_data this) (p_log this))) (p_services this);
  let proc := match p_services this with [] => proc | _ => Some this end in
  match od_get proc_id (cl_m0_clients cl) with
  | None => Ret (proc, out ++ svcs)
  | Some svc_id =>
      match proc with
      | None => Raise (UnboundLocalError "proc")
      | Some p =>
          Ret (proc, out ++ svcs ++ [mkConsulService (n_name node) proc_id (p_endpoint p) svc_id
                                       (p_proc_name this) None []])
      end
  end.

Definition node_services (cl : Cluster) (c : Conf)
    (acc : option CProcess * list ConsulService) (node_id : Oid)
    : outcome (option CProcess * list ConsulService) :=
  node ← conf_as as_node c node_id;
  fold_o (process_services cl c node) acc (n_processes node).

Definition processes (cl : Cluster) (c : Conf) : outcome (list ConsulService) :=
  r ← fold_o (node_services cl c) (None, []) (conf_keys_of o_node c);
  Ret r.2.

Definition sns_pools (c : Conf) : outcome (list Oid) :=
  match conf_keys_of o_root c with
  | [] => Raise (RuntimeError "Impossible happened")
  | root_id :: _ =>
      root ← conf_as as_root c root_id;
      concat_o (fun x =>
        if bool_decide (r_mdpool root = Some x) then Ret []
        else
          y ← conf_get c x;
          pvers ← obj_pvers y;
          Ret (if match r_imeta_pver root with
                  | None => false
                  | Some v => bool_decide (v ∈ pvers)
                  end then [] else [x])) (r_pools root)
  end.

(** A string that is not empty and not [None] *)
Definition truthy (o : option string) : bool :=
  match o with Some s => negb (String.eqb s "") | None => false end.

Definition node_machine_id_map (c : Conf) : outcome (list (string * string)) :=
  concat_o (fun node_id =>
    n ← conf_as as_node c node_id;
    Ret (match n_machine_id n with
         | Some i => if String.eqb i "" then [] else [(i, n_name n); (n_name n, i)]
         | None => []
         end)) (conf_keys_of o_node c).

Definition opt_str (o : option string) : json := match o with Some s => JStr s | None => JNull end.
Definition opt_int (o : option Z) : json := match o with Some n => JInt n | None => JNull end.

(** [m0conf/nodes/{x.node_name}/processes/{x.proc_id.fidk}/] *)
Definition proc_prefix (x : ConsulService) : string :=
  "m0conf/nodes/" +:+ cs_node_name x +:+ "/processes/" +:+ dec_str (o_fidk (cs_proc_id x)) +:+ "/".
Definition is_ios (x : ConsulService) : bool := bool_decide (cs_stype x = Some "ios").

Definition hax_port_entries (c : Conf) : outcome (list (string * json)) :=
  mapM (fun node_id =>
    n ← conf_as as_node c node_id;
    Ret ("ports/" +:+ n_name n +:+ "/hax",
         JStr (dumps (JObj [("http", JInt (default 8008 (pt_hax_http (n_network_ports n))))]))))
    (conf_keys_of o_node c).

Definition pool_entries (c : Conf) : outcome (list (string * json)) :=
  ids ← sns_pools c;
  mapM (fun pool_id =>
    f ← oid_to_fidstr pool_id;
    p ← conf_as as_pool c pool_id;
    Ret ("m0conf/pools/" +:+ f, opt_str (po_name p))) ids.

Definition profile_entries (c : Conf) : outcome (list (string * json)) :=
  mapM (fun prof_id =>
    f ← oid_to_fidstr prof_id;
    p ← conf_as as_profile c prof_id;
    names ← mapM (fun pool_id => po ← conf_as as_pool c pool_id; Ret (opt_str (po_name po))) (pr_pools p);
    Ret ("m0conf/profiles/" +:+ f,
         JStr (dumps (JObj [("name", JStr (pr_name p)); ("pools", JArr names)]))))
    (conf_keys_of o_profile c).

Definition service_entries (procs : list ConsulService) : list (string * json) :=
  (fun x => (proc_prefix x +:+ "services/" +:+ default "None" (cs_stype x),
             JInt (o_fidk (cs_svc_id x)))) <$> procs.
Definition meta_data_entries (procs : list ConsulService) : list (string * json) :=
  (fun x => (proc_prefix x +:+ "meta_data", opt_str (cs_meta_data x))) <$>
    List.filter (fun x => is_ios x && truthy (cs_meta_data x)) procs.
Definition log_entries (procs : list ConsulService) : list (string * json) :=
  List.filter is_ios procs ≫= (fun x =>
    match cs_log x with
    | [] => []
    | d :: _ => [(proc_prefix x +:+ "log",
                  JStr (dumps (JObj [("path", opt_str (dk_path d)); ("size", opt_int (dk_size d))])))]
    end).
Definition endpoint_entries (procs : list ConsulService) : list (string * json) :=
  (fun x => (proc_prefix x +:+ "endpoint", JStr (endpoint_str (cs_ep x)))) <$> procs.

(** The pairs of [consul-kv.json] in their order *)
Definition consul_kv (cl : Cluster) : M Gen (list (string * json)) :=
  assert (forallb (fun kv => is_t o_process kv.1 && is_t o_service kv.2) (cl_m0_clients cl)) ;;
  c ← gets m0conf;
  fidk ← consul_kv_fidk;
  ports ← lift (hax_port_entries c);
  ids ← lift (node_machine_id_map c);
  pools ← lift (pool_entries c);
  profiles ← lift (profile_entries c);
  procs ← lift (processes cl c);
  sdevs ← lift (consul_kv_sdevs c);
  drives ← lift (consul_kv_drives c);
  mret ([("epoch", JInt 1); ("eq-epoch", JInt 1); ("leader", JStr "")]
        ++ (prod_map id JInt <$> fidk)
        ++ [("failvec", JStr ""); ("bytecount/healthy", JInt 0); ("bytecount/degraded", JInt 0);
            ("bytecount/critical", JInt 0); ("bytecount/damaged", JInt 0)]
        ++ ports
        ++ [("m0_client_types", JStr (dumps (JArr (JStr <$> m0_client_types cl))))]
        ++ (prod_map id JStr <$> ids) ++ pools ++ profiles
        ++ service_entries procs ++ meta_data_entries procs ++ log_entries procs
        ++ endpoint_entries procs
        ++ (prod_map id JStr <$> sdevs) ++ (prod_map id JStr <$> drives)).

Definition generate_consul_kv (cl : Cluster) : M Gen string :=
  l ← consul_kv cl;
  mret (dumps_indent 0 (JArr ((fun kv => JObj [("key", JStr kv.1); ("value", kv.2)]) <$> l)) +:+ nl).
