(* ===== verification/CfgenHax.v ===== *)
(** * The generated tree read by hax ([src/cfgen/cfgen], [src/hax/hax/util.py])

    The entries [consul_kv_drives] generates under [m0conf/sites], and what
    [sdev_to_drive_fid] and [drive_to_sdev_fid] of hax find in a Consul server that
    holds them. *)

From S2P Require Import Prelude PyStr Json HaxTypes Message World Delivery Cache ConsulStore.
From S2P Require Import Consul Queue ConsulUtil ConfTree OrdDict CfgenTypes CfgenBuild.
From S2P Require Import CfgenPools CfgenCluster CfgenInv CfgenWf CfgenPverWf CfgenProps CfgenOut.

Notation o_drive := CfgenTypes.o_drive.

(** ** Splitting and substrings *)
Lemma py_split_nonnil c s : py_split c s <> [].
Proof. destruct s as [| a s]; cbn; [done|]. destruct (Ascii.eqb a c); [done|]. by destruct (py_split c s). Qed.

Lemma split_at_sep c s t : py_split c (s +:+ String c t) = py_split c s ++ py_split c t.
Proof.
  induction s as [| a s IH].
  - rewrite append_nil. cbn. by rewrite Ascii.eqb_refl.
  - rewrite append_cons. cbn [py_split]. rewrite IH. destruct (Ascii.eqb a c); [done|].
    pose proof (py_split_nonnil c s). by destruct (py_split c s).
Qed.

(** A key, a word and the fid of one more level. *)
Lemma py_split_level c k w f :
  no_char c w -> no_char c f -> py_split c (k +:+ String c (w +:+ String c f)) = py_split c k ++ [w; f].
Proof. intros Hw Hf. by rewrite !split_at_sep, (py_split_no_sep c w Hw), (py_split_no_sep c f Hf). Qed.

Lemma prefix_app p t : String.prefix p (p +:+ t) = true.
Proof. induction p as [| a p IH]; [by destruct t|]. rewrite append_cons. cbn. by destruct (ascii_dec a a). Qed.

Lemma prefix_inv p s : String.prefix p s = true -> exists t, s = p +:+ t.
Proof.
  revert s. induction p as [| a p IH]; intros s H; [by exists s|].
  destruct s as [| b s]; [done|]. cbn in H. destruct (ascii_dec a b) as [<- |]; [| done].
  destruct (IH s H) as [t ->]. by exists t.
Qed.

Lemma py_in_inv sub s : py_in sub s = true -> exists a b, s = a +:+ (sub +:+ b).
Proof.
  induction s as [| c s IH]; cbn [py_in]; intros [H | H]%orb_true_iff.
  - apply prefix_inv in H as [t ->]. by exists "", t.
  - done.
  - apply prefix_inv in H as [t ->]. by exists "", t.
  - destruct (IH H) as (a & b & ->). by exists (String c a), b.
Qed.

Lemma py_in_mid sub a b : py_in sub (a +:+ (sub +:+ b)) = true.
Proof.
  induction a as [| c a IH]; rewrite ?append_nil, ?append_cons.
  - destruct (sub +:+ b) as [| d s] eqn:E; cbn [py_in]; rewrite <- E, prefix_app; done.
  - cbn [py_in]. by rewrite IH, orb_true_r.
Qed.

(** [/w/] occurs in a key only as a component. *)
Lemma py_in_component c w k :
  no_char c w -> py_in (String c (w +:+ String c "")) k = true -> w ∈ py_split c k.
Proof.
  intros Hw (a & b & ->)%py_in_inv.
  rewrite !append_cons, append_assoc, split_at_sep, append_cons, append_nil, split_at_sep.
  rewrite (py_split_no_sep c w Hw). set_solver.
Qed.

(** ** Regular expressions *)
Lemma strip_lit_inv p s r : strip_lit p s = Some r -> s = p ++ r.
Proof.
  revert s. induction p as [| a p IH]; intros s H; [by injection H as ->|].
  destruct s as [| b s]; [done|]. cbn in H. destruct (Ascii.eqb_spec a b) as [-> |]; [| done].
  cbn. f_equal. by apply IH.
Qed.

Lemma strip_lit_app p r : strip_lit p (p ++ r) = Some r.
Proof. induction p as [| a p IH]; [done|]. cbn. by rewrite Ascii.eqb_refl. Qed.

Lemma greedy_inv {A} ok (k : list ascii -> option A) s p x :
  greedy ok k s = Some (p, x) -> exists t, s = p ++ t /\ k t = Some x.
Proof.
  revert p. induction s as [| c s IH]; intros p H; cbn in H.
  - destruct (k []) eqn:E; [| done]. injection H as <- ->. by exists [].
  - assert (Hno : forall r, (fun r => ([], r)) <$> k (c :: s) = Some (p, r) ->
      exists t, c :: s = p ++ t /\ k t = Some r).
    { intros r Hr. destruct (k (c :: s)) eqn:E; [| done]. injection Hr as <- ->. by exists (c :: s). }
    destruct (ok c); [| by apply Hno].
    destruct (greedy ok k s) as [[p' r] |] eqn:E; [| by apply Hno].
    injection H as <- ->. destruct (IH p' eq_refl) as (t & -> & Ht). by exists t.
Qed.

Lemma greedy_found {A} ok (k : list ascii -> option A) l r x :
  Forall (fun c => ok c = true) l -> k r = Some x -> greedy ok k (l ++ r) <> None.
Proof.
  intros Hl Hk. assert (Hr : greedy ok k r <> None).
  { destruct r as [| c r]; cbn; rewrite ?Hk; [done|]. destruct (ok c); [| done].
    by destruct (greedy ok k r) as [[] |]. }
  induction Hl as [| c l Hc _ IH]; [done|]. cbn. rewrite Hc. by destruct (greedy ok k (l ++ r)) as [[] |].
Qed.

(** [re.match('a.*b$', s)] *)
Lemma rx_between_inv a b s gs :
  rx_match [RLit a; RStar; RLit b; REnd] s = Some gs ->
  exists mid, s = a +:+ (mid +:+ b) \/ s = a +:+ (mid +:+ (b +:+ String newline "")).
Proof.
  unfold rx_match. cbn [rx_run]. destruct (strip_lit _ _) as [s1 |] eqn:E1; [| done].
  destruct (greedy _ _ _) as [[p x] |] eqn:E2; [| done]. intros _.
  apply greedy_inv in E2 as (t & -> & E2). destruct (strip_lit _ t) as [r |] eqn:E3; [| done].
  destruct (at_end r) eqn:E4; [| done].
  apply strip_lit_inv in E1. apply strip_lit_inv in E3 as ->. exists (string_of_list_ascii p).
  rewrite <- (string_of_list_ascii_of_string s), E1.
  assert (Hinj : forall x y, list_ascii_of_string x = list_ascii_of_string y -> x = y)
    by (intros u v Huv; rewrite <- (string_of_list_ascii_of_string u), Huv; apply string_of_list_ascii_of_string).
  destruct r as [| c [| c' r]]; [left | right | done]; apply Hinj;
    rewrite list_ascii_of_string_of_list_ascii, !list_ascii_of_string_app, list_ascii_of_string_of_list_ascii.
  - by rewrite app_nil_r.
  - cbn in E4. apply Ascii.eqb_eq in E4 as ->. done.
Qed.

Lemma rx_between a mid b :
  no_char newline mid ->
  exists gs, rx_match [RLit a; RStar; RLit b; REnd] (a +:+ (mid +:+ b)) = Some gs.
Proof.
  intros Hm. unfold rx_match. cbn [rx_run]. rewrite list_ascii_of_string_app, strip_lit_app.
  rewrite list_ascii_of_string_app.
  match goal with |- context [greedy rx_any ?k _] => set (kk := k) end.
  assert (Hk : kk (list_ascii_of_string b) = Some []).
  { unfold kk. rewrite <- (app_nil_r (list_ascii_of_string b)) at 2. by rewrite strip_lit_app. }
  pose proof (greedy_found rx_any kk (list_ascii_of_string mid) _ _ 
    ltac:(eapply Forall_impl; [exact Hm|]; intros c Hc; unfold rx_any; by apply negb_true_iff, Ascii.eqb_neq) Hk) as Hg.
  destruct (greedy rx_any kk _) as [[p x] |]; [by exists x | done].
Qed.

(** ** Fids in keys *)
Lemma hex_str_no_newline n : 0 <= n -> no_char newline (hex_str n).
Proof.
  intros Hn. unfold hex_str. destruct (Z.ltb_spec n 0); [lia|].
  eapply Forall_impl; [apply (nat_str_chars 16 n); lia|]. intros c [Hs _] ->. done.
Qed.

(** The generator's text of an identifier is the text of hax's fid. *)
Lemma fidstr_repr o s :
  oid_to_fidstr o = Ret s -> exists c, tcontainer_char (o_type o) = Some c /\
    s = fid_repr (mkFid (Z.lor (Z.shiftl (octet c) 56) 1) (o_fidk o)).
Proof.
  unfold oid_to_fidstr. destruct (tcontainer_char _) as [c |]; [| done]. intros [= <-]. by exists c.
Qed.

Lemma container_nonneg c : 0 <= Z.lor (Z.shiftl (octet c) 56) 1.
Proof. apply Z.lor_nonneg. split; [| done]. apply Z.shiftl_nonneg. pose proof (octet_range c). lia. Qed.

Record segment (s : string) : Prop := mkSegment {
  seg_slash : no_char "/" s; seg_newline : no_char newline s; seg_drives : s <> "drives" }.

Lemma fidstr_segment o s : oid_to_fidstr o = Ret s -> 0 <= o_fidk o -> segment s.
Proof.
  intros (c & _ & ->)%fidstr_repr Hk. pose proof (container_nonneg c). split.
  - by apply fid_repr_no_slash.
  - unfold fid_repr. rewrite !no_char_app. cbn [container key].
    repeat split; try (by apply hex_str_no_newline); by repeat constructor.
  - done.
Qed.

(** ** Keys of the tree *)

(** A key of [n] components above the drives. *)
Record above (n : nat) (k : string) : Prop := mkAbove {
  ab_length : length (py_split "/" k) = n;
  ab_drives : "drives" ∉ py_split "/" k;
  ab_newline : no_char newline k;
  ab_root : exists t, k = "m0conf/sites/" +:+ t }.

Lemma above_step n k w f :
  above n k -> segment w -> segment f -> above (n + 2) (k +:+ String "/" (w +:+ String "/" f)).
Proof.
  intros [Hl Hd Hn [t Ht]] [W1 W2 W3] [F1 F2 F3]. split.
  - rewrite py_split_level, length_app, Hl by done. done.
  - rewrite py_split_level by done. set_solver.
  - apply no_char_app. split; [done|]. apply no_char_cons. split; [done|].
    apply no_char_app. split; [done|]. apply no_char_cons. done.
  - exists (t +:+ String "/" (w +:+ String "/" f)). by rewrite Ht, append_assoc.
Qed.

Ltac solve_segment := split; [by repeat constructor | by repeat constructor | done].

(** The entry of a drive *)
Record drive_entry (c : Conf) (kv : string * string) (drive : Oid) (xd : CDrive) : Prop := mkDriveEntry {
  de_type : o_type drive = o_drive;
  de_drive : od_get drive c = Some (ConfDrive xd);
  de_key : exists base fd, oid_to_fidstr drive = Ret fd /\ above 9 base /\
    kv.1 = base +:+ ("/drives/" +:+ fd);
  de_value : exists fs, oid_to_fidstr (dv_sdev xd) = Ret fs /\ kv.2 = with_state "sdev" fs }.

Definition tree_entry (c : Conf) (kv : string * string) : Prop :=
  (exists drive xd, drive_entry c kv drive xd) \/ exists n, above n kv.1.

Lemma conf_as_drive c o x : conf_as as_drive c o = Ret x -> od_get o c = Some (ConfDrive x).
Proof.
  unfold conf_as, conf_get. destruct (od_get o c) as [y |]; [| done]. cbn. destruct y; try done.
  by intros [= ->].
Qed.

Lemma concat_o_Forall {A B} (f : A -> outcome (list B)) l ys (P : B -> Prop) :
  concat_o f l = Ret ys -> (forall x y, x ∈ l -> f x = Ret y -> Forall P y) -> Forall P ys.
Proof.
  intros H Hf. apply Forall_forall. intros y Hy.
  destruct (concat_o_elem _ _ _ _ H Hy) as (x & yx & Hx & E & Hin).
  pose proof (Hf x yx Hx E) as HF. rewrite Forall_forall in HF. auto.
Qed.

Section Tree.
Context (c : Conf) (f : CfgenTypes.ObjT -> Z) (Hwf : wf c f) (Hb : bounded f).

Lemma key_nonneg o : o ∈ od_keys c -> 0 <= o_fidk o.
Proof using Hwf Hb.
  intros (i & Hi & E)%(wf_alloc _ _ Hwf). rewrite E, (base_fidkey_id f) by done. lia.
Qed.

Lemma conf_as_key {A} (as_ : Obj -> outcome A) o x : conf_as as_ c o = Ret x -> 0 <= o_fidk o.
Proof using Hwf Hb.
  unfold conf_as, conf_get. destruct (od_get o c) eqn:E; [| done]. intros _. eapply key_nonneg. by eapply od_get_in.
Qed.

Lemma drive_entries_tree ck o l : drive_entries c ck o = Ret l -> above 9 ck -> Forall (tree_entry c) l.
Proof using Hwf Hb.
  unfold drive_entries. intros H Hk.
  apply bind_o_inv in H as (u & H0 & H). apply bind_o_inv in H as (fd & H1 & H).
  apply bind_o_inv in H as (xd & H2 & H). apply bind_o_inv in H as (fs & H3 & H).
  injection H as <-. apply Forall_singleton. left. exists o, xd. split.
  - unfold check in H0. destruct (is_t o_drive o) eqn:E; [| done]. by apply is_t_true.
  - by apply conf_as_drive.
  - by exists ck, fd.
  - by exists fs.
Qed.
Ltac same_object :=
  repeat match goal with
  | H1 : conf_as ?g ?c ?o = Ret ?x, H2 : conf_as ?g ?c ?o = Ret ?y |- _ =>
      rewrite H1 in H2; injection H2 as ->
  end.
Ltac invert_binds H :=
  repeat (let a := fresh "a" in let E := fresh "E" in apply bind_o_inv in H as (a & E & H)).

(** An entry and the entries below it *)
Lemma level_tree {A B} (as_ : Obj -> outcome A) n k w o x fo v (g : B -> outcome (list (string * string))) bs l :
  above n k -> segment w -> conf_as as_ c o = Ret x -> oid_to_fidstr o = Ret fo ->
  let key := k +:+ String "/" (w +:+ String "/" fo) in
  concat_o g bs = Ret l ->
  (forall b y, above (n + 2) key -> g b = Ret y -> Forall (tree_entry c) y) ->
  Forall (tree_entry c) ((key, v) :: l).
Proof using Hwf Hb.
  intros Hk Hw Hx Ho key Hl Hg.
  assert (Ha : above (n + 2) key).
  { apply above_step; [done | done |]. eapply fidstr_segment; [done | by eapply conf_as_key]. }
  constructor; [right; by exists (n + 2)%nat|]. eapply concat_o_Forall; [exact Hl|]. eauto.
Qed.

Lemma ctrl_entries_tree ek o l : ctrl_entries c ek o = Ret l -> above 7 ek -> Forall (tree_entry c) l.
Proof using Hwf Hb.
  unfold ctrl_entries. intros H Hk. invert_binds H. injection H as <-.
  eapply (level_tree as_ctrl 7 ek "ctrls"); try eassumption; [solve_segment|].
  intros b y Ha Hy. by eapply drive_entries_tree.
Qed.

Lemma encl_entries_tree rk o l : encl_entries c rk o = Ret l -> above 5 rk -> Forall (tree_entry c) l.
Proof using Hwf Hb.
  unfold encl_entries. intros H Hk. invert_binds H. injection H as <-.
  eapply (level_tree as_encl 5 rk "encls"); try eassumption; [solve_segment|].
  intros b y Ha Hy. by eapply ctrl_entries_tree.
Qed.

Lemma rack_entries_tree sk o l : rack_entries c sk o = Ret l -> above 3 sk -> Forall (tree_entry c) l.
Proof using Hwf Hb.
  unfold rack_entries. intros H Hk. invert_binds H. injection H as <-.
  eapply (level_tree as_rack 3 sk "racks"); try eassumption; [solve_segment|].
  intros b y Ha Hy. by eapply encl_entries_tree.
Qed.

Lemma site_key_above fs : segment fs -> above 3 ("m0conf/sites/" +:+ fs).
Proof.
  intros [S1 S2 S3]. split.
  - change ("m0conf/sites/" +:+ fs) with ("m0conf" +:+ String "/" ("sites" +:+ String "/" fs)).
    by rewrite py_split_level by (done || by repeat constructor).
  - change ("m0conf/sites/" +:+ fs) with ("m0conf" +:+ String "/" ("sites" +:+ String "/" fs)).
    rewrite py_split_level by (done || by repeat constructor). cbn.
    intros [? | [? | [? | ?%elem_of_nil]%elem_of_cons]%elem_of_cons]%elem_of_cons; congruence.
  - apply no_char_app. split; [by repeat constructor | done].
  - by exists fs.
Qed.

Lemma site_entries_tree o l : site_entries c o = Ret l -> Forall (tree_entry c) l.
Proof using Hwf Hb.
  unfold site_entries. intros H. invert_binds H. injection H as <-.
  assert (Ha : above 3 ("m0conf/sites/" +:+ a)).
  { apply site_key_above. eapply fidstr_segment; [done | by eapply conf_as_key]. }
  constructor; [right; by exists 3%nat|]. eapply concat_o_Forall; [eassumption|].
  intros b y _ Hy. by eapply rack_entries_tree.
Qed.

(** ** Every drive of the tree has its entry. *)
Record drive_at (site rack encl ctrl drive : Oid) (xd : CDrive) : Prop := mkDriveAt {
  da_site : exists xs, site ∈ conf_keys_of o_site c /\ conf_as as_site c site = Ret xs /\ rack ∈ st_racks xs;
  da_rack : exists xr, conf_as as_rack c rack = Ret xr /\ encl ∈ rk_encls xr;
  da_encl : exists xe, conf_as as_encl c encl = Ret xe /\ ctrl ∈ e_ctrls xe;
  da_ctrl : exists xc, conf_as as_ctrl c ctrl = Ret xc /\ drive ∈ c_drives xc;
  da_drive : conf_as as_drive c drive = Ret xd }.

(** The entries of a child are among those of its parent. *)
Lemma level_below {A B} (as_ : Obj -> outcome A) n k w o x fo kv (g : string -> B -> outcome (list (string * string))) bs b l :
  above n k -> segment w -> conf_as as_ c o = Ret x -> oid_to_fidstr o = Ret fo ->
  let key := k +:+ String "/" (w +:+ String "/" fo) in
  concat_o (g key) bs = Ret l -> b ∈ bs ->
  exists key' y, above (n + 2) key' /\ g key' b = Ret y /\ forall e, e ∈ y -> e ∈ kv :: l.
Proof using Hwf Hb.
  intros Hk Hw Hx Ho key Hl Hin. destruct (concat_o_in _ _ _ _ Hl Hin) as (y & Hy & Hsub).
  exists key, y. split_and!; [| done | intros e He; right; auto].
  apply above_step; [done | done |]. eapply fidstr_segment; [done | by eapply conf_as_key].
Qed.

Lemma rack_below k o l x b :
  rack_entries c k o = Ret l -> above 3 k -> conf_as as_rack c o = Ret x -> b ∈ rk_encls x ->
  exists key y, above 5 key /\ encl_entries c key b = Ret y /\ forall e, e ∈ y -> e ∈ l.
Proof using Hwf Hb.
  unfold rack_entries. intros H Hk Hx Hin. invert_binds H. injection H as <-.
  same_object. eapply level_below with (as_ := as_rack) (n := 3%nat) (w := "racks"); [eassumption | solve_segment | eassumption..].
Qed.

Lemma encl_below k o l x b :
  encl_entries c k o = Ret l -> above 5 k -> conf_as as_encl c o = Ret x -> b ∈ e_ctrls x ->
  exists key y, above 7 key /\ ctrl_entries c key b = Ret y /\ forall e, e ∈ y -> e ∈ l.
Proof using Hwf Hb.
  unfold encl_entries. intros H Hk Hx Hin. invert_binds H. injection H as <-.
  same_object. eapply level_below with (as_ := as_encl) (n := 5%nat) (w := "encls"); [eassumption | solve_segment | eassumption..].
Qed.

Lemma ctrl_below k o l x b :
  ctrl_entries c k o = Ret l -> above 7 k -> conf_as as_ctrl c o = Ret x -> b ∈ c_drives x ->
  exists key y, above 9 key /\ drive_entries c key b = Ret y /\ forall e, e ∈ y -> e ∈ l.
Proof using Hwf Hb.
  unfold ctrl_entries. intros H Hk Hx Hin. invert_binds H. injection H as <-.
  same_object. eapply level_below with (as_ := as_ctrl) (n := 7%nat) (w := "ctrls"); [eassumption | solve_segment | eassumption..].
Qed.

Lemma drive_listed site rack encl ctrl drive xd l :
  drive_at site rack encl ctrl drive xd -> concat_o (site_entries c) (conf_keys_of o_site c) = Ret l ->
  exists kv, kv ∈ l /\ drive_entry c kv drive xd.
Proof using Hwf Hb.
  intros [(xs & S1 & S2 & S3) (xr & R1 & R2) (xe & E1 & E2) (xc & C1 & C2) D] H.
  destruct (concat_o_in _ _ _ _ H S1) as (l1 & H1 & L1). unfold site_entries in H1.
  invert_binds H1. injection H1 as <-. same_object.
  destruct (concat_o_in _ _ _ _ E3 S3) as (l2 & H2 & L2).
  assert (A1 : above 3 ("m0conf/sites/" +:+ a)).
  { apply site_key_above. eapply fidstr_segment; [done | by eapply conf_as_key]. }
  destruct (rack_below _ _ _ _ _ H2 A1 R1 R2) as (k3 & l3 & A3 & H3 & L3).
  destruct (encl_below _ _ _ _ _ H3 A3 E1 E2) as (k4 & l4 & A4 & H4 & L4).
  destruct (ctrl_below _ _ _ _ _ H4 A4 C1 C2) as (k5 & l5 & A5 & H5 & L5).
  unfold drive_entries in H5. invert_binds H5. injection H5 as <-. same_object.
  eexists. split; [apply L1; right; apply L2, L3, L4, L5; by left|]. split.
  - match goal with H : check _ = Ret _ |- _ => by apply is_t_true, (check_inv _ _ H) end.
  - by apply conf_as_drive.
  - eauto.
  - eauto.
Qed.
End Tree.

(** ** Dicts *)
Lemma dict_set_member {A} k (v : A) d kv : kv ∈ dict_set k v d -> kv = (k, v) \/ kv ∈ d.
Proof.
  induction d as [| [k' v'] d IH]; cbn; [set_solver|]. destruct (String.eqb_spec k k') as [-> |]; set_solver.
Qed.

Lemma dict_of_sub {A} (l : list (string * A)) kv : kv ∈ dict_of l -> kv ∈ l.
Proof.
  unfold dict_of. assert (H : forall acc, kv ∈ foldl (fun d kv => dict_set kv.1 kv.2 d) acc l -> kv ∈ acc \/ kv ∈ l).
  { induction l as [| [k v] l IH]; intros acc; cbn; [by left|].
    intros [[-> | ?]%dict_set_member | ?]%IH; set_solver. }
  intros [?%elem_of_nil | ?]%H; done.
Qed.

Lemma dict_of_has {A} (l : list (string * A)) k v :
  (k, v) ∈ l -> (forall v', (k, v') ∈ l -> v' = v) -> (k, v) ∈ dict_of l.
Proof.
  intros Hin Hu. apply dict_find_elem. unfold dict_of.
  assert (H : forall acc, dict_find k acc = Some v \/ (k, v) ∈ l ->
    dict_find k (foldl (fun d kv => dict_set kv.1 kv.2 d) acc l) = Some v); [| by apply H; right].
  clear Hin. induction l as [| [k' v'] l IH]; intros acc H; cbn; [by destruct H as [? | ?%elem_of_nil]|].
  assert (Hu' : forall v', (k, v') ∈ l -> v' = v) by (intros; apply Hu; by right).
  apply IH; [done|]. destruct (decide (k' = k)) as [-> | Hne].
  - left. rewrite dict_find_set_eq. f_equal. apply Hu. by left.
  - destruct H as [H | [[= -> ->] | H]%elem_of_cons]; [left | done | by right].
    by rewrite dict_find_set_ne.
Qed.

(** ** What hax reads *)
Lemma with_state_loads k v :
  k <> "state" -> loads (with_state k v) = Ret (JObj [(k, JStr v); ("state", JStr "M0_NC_UNKNOWN")]).
Proof.
  intros Hk. apply loads_dumps_wf. constructor; [| repeat constructor].
  cbn. apply NoDup_cons. split; [set_solver | apply NoDup_singleton].
Qed.

Lemma mk_fid_container t k : 0 <= container (mk_fid t k).
Proof. unfold mk_fid. cbn [container]. destruct t; cbn [ObjT_value]; lia. Qed.

Lemma mk_fid_repr_inj t k1 k2 :
  0 <= k1 -> 0 <= k2 -> fid_repr (mk_fid t k1) = fid_repr (mk_fid t k2) -> k1 = k2.
Proof.
  intros H1 H2 E. apply fid_repr_inj in E; [| apply mk_fid_container | exact H1 | apply mk_fid_container | exact H2].
  by apply (f_equal key) in E.
Qed.

Section Found.
Context (c : Conf) (f : CfgenTypes.ObjT -> Z) (Hwf : wf c f) (Hb : bounded f).

(** No sdev belongs to two drives. *)
Definition sdevs_distinct : Prop := forall d1 d2 x1 x2,
  od_get d1 c = Some (ConfDrive x1) -> od_get d2 c = Some (ConfDrive x2) -> dv_sdev x1 = dv_sdev x2 -> d1 = d2.

Lemma drive_fidstr o fd : o_type o = o_drive -> oid_to_fidstr o = Ret fd -> fd = fid_repr (mk_fid DRIVE (o_fidk o)).
Proof. intros Ht (ch & E & ->)%fidstr_repr. rewrite Ht in E. by injection E as <-. Qed.

Lemma sdev_fidstr d x fs :
  od_get d c = Some (ConfDrive x) -> oid_to_fidstr (dv_sdev x) = Ret fs ->
  o_type (dv_sdev x) = o_sdev /\ 0 <= o_fidk (dv_sdev x) /\ fs = fid_repr (mk_fid SDEV (o_fidk (dv_sdev x))).
Proof using Hwf Hb.
  intros Hd (ch & E & ->)%fidstr_repr.
  pose proof (wf_refs_typed _ _ Hwf _ _ Hd) as Ht. cbn in Ht.
  rewrite !andb_true_iff, is_t_true in Ht. destruct Ht as [[Ht _] _]. rewrite Ht in E. injection E as <-.
  split_and!; [done | | done]. apply (key_nonneg c f Hwf Hb).
  apply (wf_refs _ _ Hwf d (ConfDrive x)); [done|]. cbn. set_solver.
Qed.

Lemma entry_key kv d x : drive_entry c kv d x ->
  0 <= o_fidk d /\ exists base, above 9 base /\
    kv.1 = base +:+ ("/drives/" +:+ fid_repr (mk_fid DRIVE (o_fidk d))) /\
    py_split "/" kv.1 = py_split "/" base ++ ["drives"; fid_repr (mk_fid DRIVE (o_fidk d))].
Proof using Hwf Hb.
  intros [Ht Hd (base & fd & Hf & Ha & E) _].
  assert (Hk : 0 <= o_fidk d) by (eapply key_nonneg; [done | done | by eapply od_get_in]).
  split; [done|]. exists base. pose proof (fidstr_segment _ _ Hf Hk) as [S1 _ _].
  apply drive_fidstr in Hf as ->; [| done]. split_and!; [done | done |].
  rewrite E. change ("/drives/" +:+ ?x) with (String "/" ("drives" +:+ String "/" x)).
  apply py_split_level; [by repeat constructor | done].
Qed.

Lemma drive_key_inj d1 d2 x1 x2 kv1 kv2 :
  drive_entry c kv1 d1 x1 -> drive_entry c kv2 d2 x2 -> o_fidk d1 = o_fidk d2 -> d1 = d2.
Proof. intros [T1 _ _ _] [T2 _ _ _] E. destruct d1, d2. cbn in *. congruence. Qed.

(** One key, one value *)
Lemma entry_unique kv1 kv2 d1 d2 x1 x2 :
  drive_entry c kv1 d1 x1 -> drive_entry c kv2 d2 x2 -> kv1.1 = kv2.1 -> kv1 = kv2 /\ d1 = d2.
Proof using Hwf Hb.
  intros D1 D2 E. destruct (entry_key _ _ _ D1) as (K1 & b1 & _ & _ & P1).
  destruct (entry_key _ _ _ D2) as (K2 & b2 & _ & _ & P2). rewrite E, P2 in P1.
  apply app_inj_2 in P1 as [_ P1]; [| done].
  assert (P : fid_repr (mk_fid DRIVE (o_fidk d2)) = fid_repr (mk_fid DRIVE (o_fidk d1))) by congruence.
  apply mk_fid_repr_inj in P as P1'; [| assumption..]. pose proof (drive_key_inj _ _ _ _ _ _ D2 D1 P1') as ->. split; [| done].
  destruct D1 as [_ G1 _ (f1 & F1 & V1)], D2 as [_ G2 _ (f2 & F2 & V2)].
  rewrite G1 in G2. injection G2 as ->. rewrite F1 in F2. injection F2 as ->.
  destruct kv1, kv2. cbn in *. congruence.
Qed.

(** The text of a sdev names one drive. *)
Lemma sdev_text_inj kv1 kv2 d1 d2 x1 x2 :
  sdevs_distinct -> drive_entry c kv1 d1 x1 -> drive_entry c kv2 d2 x2 ->
  oid_to_fidstr (dv_sdev x1) = oid_to_fidstr (dv_sdev x2) -> d1 = d2.
Proof using Hwf Hb.
  intros Hs [_ G1 _ (f1 & F1 & _)] [_ G2 _ (f2 & F2 & _)] E. rewrite F1, F2 in E. injection E as ->.
  destruct (sdev_fidstr _ _ _ G1 F1) as (T1 & N1 & E1). destruct (sdev_fidstr _ _ _ G2 F2) as (T2 & N2 & E2).
  rewrite E1 in E2. apply mk_fid_repr_inj in E2; [| assumption..].
  apply (Hs d1 d2 x1 x2 G1 G2). destruct (dv_sdev x1), (dv_sdev x2). cbn in *. congruence.
Qed.
End Found.

(** The keys under [m0conf/sites] of the store are those of the dict. *)
Record sites_stored (s : store) (d : list (string * string)) : Prop := mkSitesStored {
  ss_key : forall k i, entries s !! k = Some i -> Key i = k;
  ss_has : forall k v, (k, v) ∈ d -> exists i, entries s !! k = Some i /\ Value i = Some v;
  ss_only : forall k i, entries s !! k = Some i -> String.prefix "m0conf/sites" k = true ->
    exists v, (k, v) ∈ d /\ Value i = Some v }.

(** A search in which every test is pure and answers nothing or [b]. *)
Lemma find_m_pure {E A B} (g : A -> M (World E) (option B)) l w b :
  (forall x, x ∈ l -> exists r, (forall w, g x w = (Ret r, w)) /\ (r = None \/ r = Some b)) ->
  (exists x, x ∈ l /\ forall w, g x w = (Ret (Some b), w)) ->
  find_m g l w = (Ret (Some b), w).
Proof.
  intros Hg (x & Hx & Ex). induction l as [| y l IH]; [by apply elem_of_nil in Hx|].
  cbn [find_m]. destruct (Hg y ltac:(left)) as (r & Er & Hr).
  rewrite (bind_unfold_Ret _ _ _ _ _ (Er w)). destruct Hr as [-> | ->]; [| done].
  apply IH.
  - intros z Hz. apply Hg. by right.
  - apply elem_of_cons in Hx as [-> | Hx]; [| done].
    exfalso. specialize (Er w). rewrite Ex in Er. congruence.
Qed.

Section Read.
Context {E : Type} `{ConsulApi E} `{!ConsulLaws E} `{Others E} `{Fuel}.
Context (c : Conf) (f : CfgenTypes.ObjT -> Z) (Hwf : wf c f) (Hb : bounded f) (Hdist : sdevs_distinct c).
Context (d : list (string * string)) (Hd : consul_kv_drives c = Ret d).
Notation W := (World E).

Lemma dict_entries kv : kv ∈ d -> tree_entry c kv.
Proof using Hwf Hb Hd.
  unfold consul_kv_drives in Hd. apply bind_o_inv in Hd as (l & Hl & Hd'). injection Hd' as <-.
  intros Hin%dict_of_sub. assert (Hall : Forall (tree_entry c) l).
  { eapply concat_o_Forall; [exact Hl|]. intros o y _ Hy. by eapply site_entries_tree. }
  rewrite Forall_forall in Hall. auto.
Qed.

Lemma above_not_drive n k : above n k -> py_in "/drives/" k = false.
Proof.
  intros [_ Hn _ _]. destruct (py_in "/drives/" k) eqn:Ep; [| done].
  exfalso. apply Hn. apply (py_in_component "/" "drives"); [by repeat constructor | exact Ep].
Qed.

Lemma drive_key_in kv dr x : drive_entry c kv dr x -> py_in "/drives/" kv.1 = true.
Proof. intros [_ _ (base & fd & _ & _ & ->) _]. apply py_in_mid. Qed.

Lemma drive_entry_stored site rack encl ctrl drive xd :
  drive_at c site rack encl ctrl drive xd -> exists kv, kv ∈ d /\ drive_entry c kv drive xd.
Proof using Hwf Hb Hd.
  intros Ha. unfold consul_kv_drives in Hd. apply bind_o_inv in Hd as (l & Hl & Hd'). injection Hd' as <-.
  destruct (drive_listed c f Hwf Hb _ _ _ _ _ _ _ Ha Hl) as ([k v] & Hin & He).
  exists (k, v). split; [| done]. apply dict_of_has; [done|]. intros v' Hv'.
  assert (Hall : Forall (tree_entry c) l).
  { eapply concat_o_Forall; [exact Hl|]. intros o y _ Hy. by eapply site_entries_tree. }
  rewrite Forall_forall in Hall. destruct (Hall _ Hv') as [(d' & x' & He') | (n & Hn)].
  - destruct (entry_unique c f Hwf Hb _ _ _ _ _ _ He' He eq_refl) as [[=] _]. done.
  - apply above_not_drive in Hn. cbn in Hn. pose proof (drive_key_in _ _ _ He) as Hk. cbn in Hk. congruence.
Qed.

Section Server.
Context (w : W) (Hup : available (env w) = true) (Hs : sites_stored (view (env w)) d).

Lemma item_entry i : i ∈ store_list "m0conf/sites" (view (env w)) ->
  exists v, Value i = Some v /\ tree_entry c (Key i, v).
Proof using Hwf Hb Hd Hs.
  intros (Hp & k & Hk)%store_list_elem. pose proof (ss_key _ _ Hs _ _ Hk) as <-.
  destruct (ss_only _ _ Hs _ _ Hk Hp) as (v & Hv & E1). exists v. split; [done | by apply dict_entries].
Qed.

Lemma entry_item kv dr x : kv ∈ d -> drive_entry c kv dr x ->
  exists i, i ∈ store_list "m0conf/sites" (view (env w)) /\ Key i = kv.1 /\ Value i = Some kv.2.
Proof using Hs.
  destruct kv as [k v]. intros Hin He. destruct (ss_has _ _ Hs _ _ Hin) as (i & Hi & Hv).
  pose proof (ss_key _ _ Hs _ _ Hi) as Hk. exists i. split_and!; [| done | done].
  apply store_list_elem. split; [| eauto]. rewrite Hk.
  destruct (de_key _ _ _ _ He) as (base & fd & _ & [_ _ _ (t & ->)] & E1). cbn in E1. rewrite E1, append_assoc.
  apply (prefix_app "m0conf/sites").
Qed.

(** [site_items] answers the entries, from the server or a cache of this call. *)
Lemma site_items_run kv w1 kv0 dr x :
  kv ∈ d -> drive_entry c kv dr x -> core w1 = core w ->
  (forall ch, kv0 = Some ch -> forall fn args, cache_get ch fn args w1 = None) ->
  exists w2, site_items kv0 w1 = (Ret (store_list "m0conf/sites" (view (env w))), w2) /\ core w2 = core w.
Proof using Hup Hs.
  intros Hin He Hc Hm. destruct (entry_item _ _ _ Hin He) as (i & Hi & _ & _).
  pose proof (core_env _ _ Hc) as Ee.
  destruct (kv_get_miss_core "m0conf/sites" (Some true) None kv0 w1
    (KVList (store_list "m0conf/sites" (view (env w))))) as (w2 & E2 & C2); [by rewrite Ee | done | | done |].
  - unfold kv_get_outcome, store_read. cbn [default from_option id]. rewrite Ee.
    destruct (store_list _ _); [by apply elem_of_nil in Hi | done].
  - exists w2. split; [| congruence]. unfold site_items. by rewrite (bind_unfold_Ret _ _ _ _ _ E2).
Qed.

(** The text of the entry of a drive as the two methods read it *)
Lemma entry_text kv dr x i : drive_entry c kv dr x -> Key i = kv.1 -> Value i = Some kv.2 ->
  exists fs, oid_to_fidstr (dv_sdev x) = Ret fs /\ fs = fid_repr (mk_fid SDEV (o_fidk (dv_sdev x))) /\
    0 <= o_fidk (dv_sdev x) /\
    loads_value (Value i) = Ret (JObj [("sdev", JStr fs); ("state", JStr "M0_NC_UNKNOWN")]).
Proof using Hwf Hb.
  intros [_ G _ (fs & F & V)] Hk Hv. destruct (sdev_fidstr c f Hwf Hb _ _ _ G F) as (_ & N & E1).
  exists fs. split_and!; [done | done | done |]. rewrite Hv, V. by apply with_state_loads.
Qed.

Lemma split_fid kv dr x : drive_entry c kv dr x ->
  index_get 10 (py_split "/" kv.1) = Ret (fid_repr (mk_fid DRIVE (o_fidk dr))) /\
  fid_parse (fid_repr (mk_fid DRIVE (o_fidk dr))) = Ret (mk_fid DRIVE (o_fidk dr)).
Proof using Hwf Hb.
  intros He. destruct (entry_key c f Hwf Hb _ _ _ He) as (K & base & [Hl _ _ _] & _ & E1). split.
  - unfold index_get. rewrite E1, lookup_app_r by (rewrite Hl; lia). by rewrite Hl.
  - apply fid_parse_repr_nonneg; [apply mk_fid_container | exact K].
Qed.

Context (Hfuel : fuel <> 0%nat).

Lemma sdev_lookup kv drive xd : kv ∈ d -> drive_entry c kv drive xd ->
  exists w', sdev_to_drive_fid (mk_fid SDEV (o_fidk (dv_sdev xd))) w =
    (Ret (mk_fid DRIVE (o_fidk drive)), w') /\ core w' = core w.
Proof using Hwf Hb Hd Hs Hup Hfuel Hdist.
  intros Hin He. destruct (site_items_run kv w None drive xd) as (w2 & E2 & C2); [done.. |].
  exists w2. split; [| done]. unfold sdev_to_drive_fid. apply repeat_if_fails_ret; [| done | done].
  rewrite (bind_unfold_Ret _ _ _ _ _ E2).
  rewrite (bind_unfold_Ret _ _ w2 (Some (mk_fid DRIVE (o_fidk drive))) w2); [done|].
  match goal with |- find_m ?g _ _ = _ => set (test := g) end.
  assert (Htest : forall i kv' d' x', drive_entry c kv' d' x' -> Key i = kv'.1 -> Value i = Some kv'.2 ->
    forall w, test i w = (Ret (if String.eqb (fid_repr (mk_fid SDEV (o_fidk (dv_sdev x'))))
                                      (fid_repr (mk_fid SDEV (o_fidk (dv_sdev xd))))
                       then Some (mk_fid DRIVE (o_fidk d')) else None), w)).
  { intros i kv' d' x' He' Hk Hv w3. destruct (entry_text _ _ _ i He' Hk Hv) as (fs & F & E3 & N3 & E4).
    destruct (split_fid _ _ _ He') as [S1 S2]. unfold test.
    rewrite Hk, (drive_key_in _ _ _ He'), E4, S1. rewrite <- E3. run.
    destruct (String.eqb fs _); [| done]. run. rewrite S2. done. }
  apply find_m_pure.
  - intros i Hi. destruct (item_entry i Hi) as (v & Hv & [(d' & x' & He') | (n & Hn)]).
    + eexists. split; [by eapply (Htest i (Key i, v))|].
      destruct (String.eqb_spec (fid_repr (mk_fid SDEV (o_fidk (dv_sdev x'))))
        (fid_repr (mk_fid SDEV (o_fidk (dv_sdev xd))))) as [Et |]; [right | by left].
      do 2 f_equal. assert (d' = drive) as ->; [| done].
      apply (sdev_text_inj c f Hwf Hb (Key i, v) kv _ _ x' xd Hdist He' He).
      destruct (entry_text _ _ _ i He' eq_refl Hv) as (fs & F & E3 & _).
      destruct (entry_text kv drive xd (mkKv kv.1 (Some kv.2) 0 None) He eq_refl eq_refl) as (fs' & F' & E3' & _).
      congruence.
    + exists None. split; [| by left]. intros w3. unfold test.
      by rewrite (above_not_drive _ _ Hn : py_in "/drives/" (Key i) = false).
  - destruct (entry_item _ _ _ Hin He) as (i & Hi & Hk & Hv). exists i. split; [done|].
    intros w3. rewrite (Htest i kv drive xd He Hk Hv). by rewrite String.eqb_refl.
Qed.

(** [m0conf/.*/drives/F$] matches the entry of the drive [F] and no other. *)
Lemma drive_regex_own kv dr x : drive_entry c kv dr x ->
  exists gs, rx_match [RLit "m0conf/"; RStar; RLit ("/drives/" +:+ fid_repr (mk_fid DRIVE (o_fidk dr))); REnd] kv.1
    = Some gs.
Proof using Hwf Hb.
  intros He. destruct (entry_key c f Hwf Hb _ _ _ He) as (_ & base & [_ _ Hn (t & ->)] & -> & _).
  change ("m0conf/sites/" +:+ t) with ("m0conf/" +:+ ("sites/" +:+ t)) in *. rewrite append_assoc.
  apply rx_between. by apply no_char_app in Hn as [_ ?].
Qed.

Lemma drive_regex_split k fd gs : segment fd ->
  rx_match [RLit "m0conf/"; RStar; RLit ("/drives/" +:+ fd); REnd] k = Some gs ->
  exists l, py_split "/" k = l ++ ["drives"; fd] \/ py_split "/" k = l ++ ["drives"; fd +:+ String newline ""].
Proof.
  intros [Hf _ _] (mid & [-> | ->])%rx_between_inv; exists (py_split "/" ("m0conf/" +:+ mid)).
  - left. rewrite <- append_assoc. apply (py_split_level "/" _ "drives"); [by repeat constructor | done].
  - right. rewrite <- append_assoc. change (("/drives/" +:+ fd) +:+ String newline "")
      with (String "/" ("drives" +:+ String "/" (fd +:+ String newline ""))).
    apply (py_split_level "/" _ "drives"); [by repeat constructor|].
    apply no_char_app. split; [done | by repeat constructor].
Qed.

Lemma fid_segment t k : 0 <= k -> segment (fid_repr (mk_fid t k)).
Proof.
  intros Hk. pose proof (mk_fid_container t k) as Hc. split.
  - by apply fid_repr_no_slash.
  - unfold fid_repr. rewrite !no_char_app. repeat split; try (by apply hex_str_no_newline); by repeat constructor.
  - done.
Qed.

Lemma drive_regex_other kv dr x dr' gs : drive_entry c kv dr x -> 0 <= o_fidk dr' -> o_type dr' = o_drive ->
  rx_match [RLit "m0conf/"; RStar; RLit ("/drives/" +:+ fid_repr (mk_fid DRIVE (o_fidk dr'))); REnd] kv.1 = Some gs ->
  dr' = dr.
Proof using Hwf Hb.
  intros He Hk Ht Hm. destruct (entry_key c f Hwf Hb _ _ _ He) as (K & base & _ & _ & Hsp).
  pose proof (fid_segment DRIVE _ Hk) as Hseg. pose proof (fid_segment DRIVE _ K) as Hseg'.
  destruct (drive_regex_split _ _ _ Hseg Hm) as (l & [Hl | Hl]); rewrite Hsp in Hl;
    (apply app_inj_2 in Hl as [_ Hl]; [| reflexivity]).
  - assert (E1 : fid_repr (mk_fid DRIVE (o_fidk dr)) = fid_repr (mk_fid DRIVE (o_fidk dr'))) by congruence.
    apply mk_fid_repr_inj in E1; [| assumption..]. pose proof (de_type _ _ _ _ He). destruct dr, dr'. cbn in *. congruence.
  - exfalso. assert (E1 : fid_repr (mk_fid DRIVE (o_fidk dr)) =
      fid_repr (mk_fid DRIVE (o_fidk dr')) +:+ String newline "") by congruence.
    pose proof (seg_newline _ Hseg') as Hn. rewrite E1 in Hn. apply no_char_app in Hn as [_ Hn].
    apply no_char_cons in Hn as [Hn _]. exact (Hn eq_refl).
Qed.

Lemma drive_lookup kv drive xd : kv ∈ d -> drive_entry c kv drive xd ->
  exists w', drive_to_sdev_fid (mk_fid DRIVE (o_fidk drive)) None w =
    (Ret (mk_fid SDEV (o_fidk (dv_sdev xd))), w') /\ core w' = core w.
Proof using Hwf Hb Hd Hs Hup Hfuel Hdist.
  intros Hin He. destruct (entry_key c f Hwf Hb _ _ _ He) as (K & _).
  set (w1 := (new_cache w).2). set (ch := next_cache w).
  assert (Hmiss : forall fn args, cache_get ch fn args w1 = None)
    by (intros fn args; unfold cache_get, w1, ch; cbn; by rewrite lookup_insert_eq).
  destruct (site_items_run kv w1 (Some ch) drive xd) as (w2 & E2 & C2); [done | done | done | by intros ? [= <-]|].
  unfold drive_to_sdev_fid. eexists. split.
  - apply repeat_if_fails_ret; [| done | done]. unfold uses_consul_cache. cbn [cache_or_new].
    rewrite (bind_unfold_Ret _ _ w ch w1) by done. rewrite bind_gets, Hmiss.
    change (None ≫= of_py) with (None : option Fid). cbv iota.
    rewrite (bind_unfold_Ret _ _ w1 (mk_fid SDEV (o_fidk (dv_sdev xd))) w2); [reflexivity|].
    rewrite (bind_unfold_Ret _ _ _ _ _ E2).
    rewrite (bind_unfold_Ret _ _ w2 (Some (mk_fid SDEV (o_fidk (dv_sdev xd)))) w2); [done|].
    match goal with |- find_m ?g _ _ = _ => set (test := g) end.
    assert (Hown : forall i kv', drive_entry c kv' drive xd -> Key i = kv'.1 -> Value i = Some kv'.2 ->
      forall w, test i w = (Ret (Some (mk_fid SDEV (o_fidk (dv_sdev xd)))), w)).
    { intros i kv' He' Hk Hv w3. destruct (entry_text _ _ _ i He' Hk Hv) as (fs & F & E3 & N3 & E4).
      destruct (drive_regex_own _ _ _ He') as (gs & Em). unfold test. rewrite Hk, Em, E4, E3. run.
      by rewrite fid_parse_repr_nonneg by (apply mk_fid_container || exact N3). }
    apply find_m_pure.
    + intros i Hi. destruct (item_entry i Hi) as (v & Hv & [(d' & x' & He') | (n & Hn)]).
      * destruct (rx_match [RLit "m0conf/"; RStar; RLit ("/drives/" +:+ fid_repr (mk_fid DRIVE (o_fidk drive))); REnd]
          (Key i)) as [gs |] eqn:Em.
        -- pose proof (drive_regex_other _ _ _ _ _ He' K (de_type _ _ _ _ He) Em) as <-.
           assert (x' = xd) as ->.
           { pose proof (de_drive _ _ _ _ He'). pose proof (de_drive _ _ _ _ He). congruence. }
           eexists. split; [by eapply (Hown i (Key i, v)) | by right].
        -- exists None. split; [| by left]. intros w3. unfold test. by rewrite Em.
      * exists None. split; [| by left]. intros w3. unfold test.
        destruct (rx_match _ (Key i)) as [gs |] eqn:Em; [| done]. exfalso. apply (ab_drives _ _ Hn). cbn.
        destruct (drive_regex_split _ _ _ (fid_segment DRIVE _ K) Em) as (l & [-> | ->]); set_solver.
    + destruct (entry_item _ _ _ Hin He) as (i & Hi & Hk & Hv). exists i. split; [done | by eapply Hown].
  - exact C2.
Qed.
End Server.
End Read.

(** C11: hax finds the devices the generator wrote: on a Consul server whose keys
    under [m0conf/sites] are those of [consul_kv_drives], [sdev_to_drive_fid] and
    [drive_to_sdev_fid] map the fids of every drive of the configuration and of its
    sdev to each other, and leave the world as it is but for caches. *)
Theorem hax_finds_generated_drives {E} `{ConsulApi E} `{!ConsulLaws E} `{Others E} `{Fuel}
    c f d (w : World E) site rack encl ctrl drive xd :
  wf c f -> bounded f -> sdevs_distinct c -> consul_kv_drives c = Ret d ->
  available (env w) = true -> sites_stored (view (env w)) d -> fuel <> 0%nat ->
  drive_at c site rack encl ctrl drive xd ->
  let drive_fid := mk_fid DRIVE (o_fidk drive) in
  let sdev_fid := mk_fid SDEV (o_fidk (dv_sdev xd)) in
  oid_to_fidstr drive = Ret (fid_repr drive_fid) /\ oid_to_fidstr (dv_sdev xd) = Ret (fid_repr sdev_fid) /\
  (exists w', sdev_to_drive_fid sdev_fid w = (Ret drive_fid, w') /\ core w' = core w) /\
  (exists w', drive_to_sdev_fid drive_fid None w = (Ret sdev_fid, w') /\ core w' = core w).
Proof.
  intros Hwf Hb Hdist Hd Hup Hs Hfuel Hat drive_fid sdev_fid.
  destruct (drive_entry_stored c f Hwf Hb d Hd _ _ _ _ _ _ Hat) as (kv & Hin & He).
  split_and!.
  - destruct He as [Ht _ (base & fd & Hf & _) _]. rewrite Hf. f_equal. by apply drive_fidstr.
  - destruct He as [_ G _ (fs & F & _)]. rewrite F. f_equal. by eapply sdev_fidstr.
  - by eapply sdev_lookup.
  - by eapply drive_lookup.
Qed.

(** *** On the demo cluster *)
Definition ret_or {A} (a : A) (o : outcome A) : A := match o with Ret x => x | _ => a end.
Definition demo_drives_kv : list (string * string) := ret_or [] (consul_kv_drives (m0conf demo_gen)).
Definition demo_world : World server := world_init (server_of demo_drives_kv) None 1.

Lemma sdevs_distinct_check c :
  forallb (fun a : Oid * Obj => forallb (fun b : Oid * Obj =>
    match a.2, b.2 with
    | ConfDrive x, ConfDrive y => bool_decide (dv_sdev x = dv_sdev y -> a.1 = b.1)
    | _, _ => true
    end) c) c = true -> sdevs_distinct c.
Proof.
  intros Hc d1 d2 x1 x2 H1%od_get_elem H2%od_get_elem. rewrite forallb_forall in Hc.
  apply list_elem_of_In in H1, H2. specialize (Hc _ H1). rewrite forallb_forall in Hc. specialize (Hc _ H2).
  cbn in Hc. by apply bool_decide_eq_true in Hc.
Qed.

(** A server that was given the entries one by one *)
Lemma store_of_stored d : NoDup d.*1 -> Forall (fun kv => kv.2 <> "") d -> sites_stored (store_of d) d.
Proof.
  intros Hn Hv. assert (Hall : forall k,
    (forall i, entries (store_of d) !! k = Some i -> Key i = k /\ exists v, (k, v) ∈ d /\ Value i = Some v) /\
    (forall v, (k, v) ∈ d -> exists i, entries (store_of d) !! k = Some i /\ Value i = Some v)).
  2: { split; intros; destruct (Hall k) as [H1 H2]; [by apply H1 | by apply H2 | by apply H1]. }
  intros k. induction d as [| [k' v'] d IH] using rev_ind.
  { split; [intros i | intros v]; [done | by intros ?%elem_of_nil]. }
  rewrite fmap_app in Hn. apply NoDup_app in Hn as (Hn & Hnew & _).
  apply Forall_app in Hv as [Hv Hv']. rewrite Forall_singleton in Hv'. destruct (IH Hn Hv) as [I1 I2]. clear IH.
  assert (Hk' : k' ∉ d.*1) by (intros Hk; apply (Hnew k' Hk); cbn; set_solver).
  unfold store_of in *. rewrite foldl_app. cbn in *. set (s := foldl _ _ d) in *.
  assert (Hval : Value (new_entry k' v' (kv_index s + 1) s) = Some v')
    by (unfold new_entry; cbn [Value]; destruct (String.eqb_spec v' "") as [Ev | _]; [destruct (Hv' Ev) | reflexivity]).
  destruct (decide (k' = k)) as [-> | Hne].
  - rewrite lookup_insert_eq. split.
    + intros i [= <-]. split; [done|]. exists v'. split; [set_solver | exact Hval].
    + intros v [Hin | [= ->]%list_elem_of_singleton]%elem_of_app.
      * exfalso. apply Hk'. apply list_elem_of_fmap. by exists (k, v).
      * eexists. split; [done | exact Hval].
  - rewrite lookup_insert_ne by done. split.
    + intros i Hi. destruct (I1 i Hi) as (? & v & ? & ?). split; [done|]. exists v. set_solver.
    + intros v [Hin | [= -> ->]%list_elem_of_singleton]%elem_of_app; [by apply I2 | done].
Qed.

Lemma hax_finds_generated_drives_witness :
  let others : Others server := fun w => w in
  let fuel : Fuel := 1%nat in
  exists w', sdev_to_drive_fid (mk_fid SDEV 3) demo_world = (Ret (mk_fid DRIVE 3), w').
Proof.
  intros others fuel.
  assert (Hup : available (env demo_world) = true) by reflexivity.
  assert (Hd : consul_kv_drives (m0conf demo_gen) = Ret demo_drives_kv) by (vm_compute; reflexivity).
  assert (Hst : sites_stored (store_of demo_drives_kv) demo_drives_kv)
    by (apply store_of_stored; apply (bool_decide_unpack _); vm_compute; reflexivity).
  assert (Hs : sdevs_distinct (m0conf demo_gen)) by (apply sdevs_distinct_check; vm_compute; reflexivity).
  destruct (hax_finds_generated_drives (m0conf demo_gen) (ObjT_last_fidk demo_gen) demo_drives_kv demo_world
    (mkOid o_site 0) (mkOid o_rack 0) (mkOid o_enclosure 1) (mkOid o_controller 1) (mkOid o_drive 3)
    (mkDrive (mkOid o_sdev 3) [mkOid o_pver 0] (mkOid o_controller 1))
    demo_wf demo_bounded Hs Hd Hup Hst) as (_ & _ & (w' & Hw & _) & _).
  - discriminate.
  - split; [| | | | vm_compute; reflexivity].
    + eexists. split; [apply (bool_decide_unpack _); vm_compute; reflexivity|].
      split; [vm_compute; reflexivity | left].
    + eexists. split; [vm_compute; reflexivity | right; left].
    + eexists. split; [vm_compute; reflexivity | left].
    + eexists. split; [vm_compute; reflexivity | right; left].
  - exists w'. exact Hw.
Defined.
