(* ===== verification/CfgenDesc.v ===== *)
(** * Cluster description: facts, defaults and validation ([src/cfgen/cfgen])

    [enrich_cluster_desc] completes the description with the facts, disks and
    default ports of the nodes and the default profile, [validate_cluster_desc]
    checks it, [main] runs the whole generator.  Programs run on the hosts and
    random numbers are parameters. *)

From S2P Require Import Prelude PyStr Json HaxTypes OrdDict PyFloat Sysconf.
From S2P Require Import CfgenTypes CfgenBuild CfgenPools CfgenCluster CfgenOut.

(** ** Versions *)
Record Version : Type := mkVersion { major : Z; minor : Z; patch : Z }.

(** [s.split('.', 2)] *)
Definition split2 (s : string) : list string :=
  match py_split1 "." s with
  | [a; r] => a :: py_split1 "." r
  | l => l
  end.

Definition version (s : string) : outcome Version :=
  ns ← mapM (py_int 10) (split2 s);
  match ns with
  | [a; b; c] => Ret (mkVersion a b c)
  | _ => Raise TypeError
  end.

(** Tuples compare lexicographically. *)
Definition version_lt (u v : Version) : bool :=
  (major u <? major v)
  || ((major u =? major v) && ((minor u <? minor v) || ((minor u =? minor v) && (patch u <? patch v)))).

(** [out.strip()] *)
Definition py_strip (s : string) : string := string_of_list_ascii (strip_space (list_ascii_of_string s)).

Definition version_str (v : Version) : string :=
  "Version(major=" +:+ dec_str (major v) +:+ ", minor=" +:+ dec_str (minor v)
    +:+ ", patch=" +:+ dec_str (patch v) +:+ ")".

(** [run exe] is the output of [exe --version], or the exception of the executor. *)
Definition check_dhall_version (run : string -> outcome string) (exe : string) (ver : Version)
    : outcome unit :=
  match run exe with
  | Raise (CliException _ _) =>
      Raise (RuntimeError (exe +:+ " >= " +:+ version_str ver +:+ " required, none found"))
  | Raise e => Raise e
  | Hang => Hang
  | Ret out =>
      v ← version (py_strip out);
      if version_lt v ver then Raise (RuntimeError (exe +:+ " >= " +:+ version_str ver +:+ " required"))
      else Ret tt
  end.

Definition check_dhall_versions (run : string -> outcome string) : outcome unit :=
  v1 ← version "1.26.1"; v2 ← version "1.4.1";
  check_dhall_version run "dhall" v1 ;;
  check_dhall_version run "yaml-to-dhall" v2.

Definition validate_facter (run_command : string -> list string -> outcome string) (host : string)
    : outcome unit :=
  out ← run_command host ["facter"; "--version"];
  v ← version (default "" (head (py_split " " out)));
  low ← version "3.14.2";
  if version_lt v low then
    Raise (RuntimeError ("Unsupported facter version found at node " +:+ host +:+ ": "
      +:+ default "" (head (py_split " " out)) +:+ ". Please use 3.14.2 or higher."))
  else Ret tt.

(** ** Facts *)

(** [int(float(x))] of a decimal literal *)
Definition int_of_decimal (d : decimal) : outcome Z :=
  x ← py_truediv (dec_digits d) (10 ^ Z.of_nat (dec_scale d));
  Ret (if fm x <? 0 then py_ceil x else py_floor x).

(** What [get_facts] answers for the three facts that are asked for. *)
Record RawFacts : Type := mkRawFacts {
  rf_processorcount : option Z; rf_memorysize_mb : decimal; rf_ipaddr : option string }.

(** The random numbers of [fabricate_facts]. *)
Record Random : Type := mkRandom {
  rnd_ip : Z * Z * Z * Z; rnd_processors : Z; rnd_memory : decimal }.

Definition fabricate_facts (r : Random) : RawFacts :=
  let '(a, b, c, d) := rnd_ip r in
  mkRawFacts (Some (rnd_processors r)) (rnd_memory r)
    (Some (py_join "." (dec_str <$> [a; b; c; d]))).

(** ** Disks *)
Definition fabricate_disks (paths : list (option string)) : outcome (list Disk) :=
  check (match paths with [] => false | _ => true end) ;;
  Ret ((fun x => mkDisk x (Some 0) (Some 4096)) <$> paths).

Definition has_keys (d : IODisk) : bool := fin (iod_path d) && fin (iod_size d) && fin (iod_blksize d).

(** [[]] as soon as one disk lacks a key *)
Definition get_disks_from_cdf (data_disks : list IODisk) : list Disk :=
  if forallb has_keys data_disks
  then (fun d => mkDisk (fget (iod_path d)) (fget (iod_size d)) (fget (iod_blksize d))) <$> data_disks
  else [].

Definition KB : Z := 1024.
Definition MB : Z := KB ^ 2.
Definition GB : Z := KB ^ 3.
Definition upper_bound : Z := 4 * GB.
Definition lower_bound : Z := 128 * MB.

Section Desc.

(** [int(math.log(num, 2))] of a positive number *)
Context (int_lg : Z -> Z).

Definition powOf2 (num : Z) : outcome Z :=
  if num <=? 0 then Raise ValueError else Ret (2 ^ int_lg num).

Definition set_log_disk_size (host : string) (disk : Disk) : outcome Disk :=
  match dk_size disk with
  | None => Raise TypeError
  | Some n =>
      size ← powOf2 n;
      if size <? lower_bound then
        Raise (RuntimeError ("Node " +:+ host +:+ ": Log device size in 'io_disks.log' is below "
                               +:+ dec_str lower_bound +:+ "."))
      else
        let size := if upper_bound <? size then upper_bound else size in
        Ret (mkDisk (dk_path disk) (Some size) (dk_blksize disk))
  end.

Definition set_log_disks_size (log_disks : list Disk) (host : string) : outcome (list Disk) :=
  mapM (set_log_disk_size host) log_disks.

(** [facter host iface] is the decoded output of [facter --json ...] on the host,
    [remote_disks host paths] that of the script [get_disks_ssh] runs there. *)
Context (run_command : string -> list string -> outcome string).
Context (facter : string -> string -> outcome RawFacts).
Context (remote_disks : string -> list (option string) -> outcome (list Disk)).
Context (random : string -> Random).

Definition ipaddr_key (iface : string) : string := "ipaddress_" +:+ iface.

Definition get_facts (host : string) (mock_p : bool) (iface : string) : outcome RawFacts :=
  if mock_p then Ret (fabricate_facts (random host))
  else validate_facter run_command host ;; facter host (ipaddr_key iface).

Definition get_disks_ssh (host : string) (mock_p : bool) (data_disks : list IODisk)
    : outcome (list Disk) :=
  match data_disks with
  | [] => Ret []
  | _ =>
      paths ← mapM (fun d => fitem "path" (iod_path d)) data_disks;
      if mock_p then fabricate_disks paths else remote_disks host paths
  end.

(** ** [enrich_cluster_desc] *)
Definition node_facts (mock_p : bool) (nd : NodeDesc) : outcome Facts :=
  if fin (nd_processorcount nd) && fin (nd_memorysize_mb nd) then
    mem ← fitem "memorysize_mb" (nd_memorysize_mb nd);
    memsize ← match mem with Some d => int_of_decimal d | None => Raise TypeError end;
    ip ← fitem "data_iface_ip_addr" (nd_data_iface_ip_addr nd);
    Ret (mkFacts (fget (nd_processorcount nd)) memsize ip)
  else
    r ← get_facts (nd_hostname nd) mock_p (nd_data_iface nd);
    memsize ← int_of_decimal (rf_memorysize_mb r);
    Ret (mkFacts (rf_processorcount r) memsize (rf_ipaddr r)).

(** [PortalGroup] *)
Definition pg_hax : Z := 22001.
Definition pg_m0_server : list Port := [mkPort "confd" (PEnum m0_confd); mkPort "ios" (PEnum m0_ios)].
Definition pg_m0_client_s3 : Z := 22501.

(** A port that is missing, null or zero gets the default. *)
Definition port_or (dflt : Z) (f : field Z) : Z :=
  match f with Given n => if n =? 0 then dflt else n | _ => dflt end.

(** [PortalGroup] has no member [hax_http]. *)
Definition node_ports (np : option Ports) : outcome NodePorts :=
  match np with
  | None => Ret (mkNodePorts pg_hax None pg_m0_server pg_m0_client_s3 SharedDefault)
  | Some p =>
      http ← match np_hax_http p with
             | Absent => Ret None
             | Given n => if n =? 0 then Raise (KeyError "hax_http") else Ret (Some n)
             | Null => Raise (KeyError "hax_http")
             end;
      Ret (mkNodePorts (port_or pg_hax (np_hax p)) http
             (match np_m0_server p with Given (x :: l) => x :: l | _ => pg_m0_server end)
             (port_or pg_m0_client_s3 (np_m0_client_s3 p))
             (match np_m0_client_other p with Given (x :: l) => Own (x :: l) | _ => SharedDefault end))
  end.

(** The disks of the description or, when some are not described, of the host. *)
Definition find_disks (host : string) (mock_p : bool) (l : list IODisk) : outcome (list Disk) :=
  match get_disks_from_cdf l with
  | [] => get_disks_ssh host mock_p l
  | disks => Ret disks
  end.

Definition enrich_server (host : string) (mock_p : bool) (m0d : M0Server) : outcome Server :=
  let d := ms_io_disks m0d in
  io_disks ← find_disks host mock_p (io_data d);
  log_disks ← find_disks host mock_p (io_log d);
  log_disks ← (if mock_p then Ret log_disks else set_log_disks_size log_disks host);
  Ret (mkServer (default false (fget (ms_runs_confd m0d))) (fget (io_meta_data d)) (io_data d) (io_log d)
         io_disks log_disks).

Definition enrich_node (mock_p : bool) (nd : NodeDesc) : outcome Node :=
  facts ← node_facts mock_p nd;
  ports ← node_ports (nd_network_ports nd);
  servers ← match nd_m0_servers nd with
            | None => Ret None
            | Some l => l' ← mapM (enrich_server (nd_hostname nd) mock_p) l; Ret (Some l')
            end;
  Ret (mkNode (nd_hostname nd) (fget (nd_machine_id nd)) (nd_data_iface_type nd) (nd_transport_type nd)
         facts servers (fget (nd_m0_clients nd)) ports).

(** [d[k]] of a key that may be missing *)
Definition need {A} (k : string) (o : option A) : outcome A := dict_get k o.

Definition sns_pool_names (pools : list PoolDesc) : outcome (list string) :=
  concat_o (fun pool =>
    t ← pool_type pool;
    if decide (t = pool_sns) then n ← need "name" (pl_name pool); Ret [n] else Ret []) pools.

(** The nodes keep their description: the validation reads both. *)
Definition enrich_cluster_desc (mock_p : bool) (desc : ClusterDesc NodeDesc)
    : outcome (ClusterDesc (NodeDesc * Node)) :=
  nodes ← mapM (fun nd => n ← enrich_node mock_p nd; Ret (nd, n)) (cd_nodes desc);
  profiles ← match cd_profiles desc with
             | Absent => l ← sns_pool_names (cd_pools desc); Ret (Given [mkProfileDesc "default" l])
             | p => Ret p
             end;
  Ret (mkClusterDesc nodes (cd_pools desc) profiles (cd_fdmi_filters desc) (cd_create_aux desc)
         (cd_generate_formulaic_pvers desc)).
End Desc.

(** ** [validate_cluster_desc] *)
Definition all_not_none {A} (l : list (option A)) : bool :=
  forallb (fun o => match o with Some _ => true | None => false end) l.

(** Running totals of [validate_nodes_desc]: confds and disks *)
Notation totals := (Z * Z)%type.

(** The paths a server uses, checked on the way. *)
Definition server_paths (m0d : Server) : outcome (list (option string)) :=
  check (sv_runs_confd m0d || negb (bool_decide (sv_data m0d = []))) ;;
  data ← mapM (fun x => fitem "path" (iod_path x)) (sv_data m0d);
  meta ← match sv_meta_data m0d with
         | None => Ret []
         | Some s => check (negb (String.eqb s "")) ;; Ret [Some s]
         end;
  log ← mapM (fun x => fitem "path" (iod_path x)) (sv_log m0d);
  Ret (data ++ meta ++ log).

Definition count_confds (l : list Server) : Z := Z.of_nat (length (List.filter sv_runs_confd l)).
Definition count_clients (o : option (list M0Client)) : Z :=
  match o with
  | None => 0
  | Some l => foldr (fun c n => mc_instances c + n) 0 l
  end.

Definition validate_node (acc : totals) (x : NodeDesc * Node) : outcome totals :=
  let '(nd, node) := x in
  check (negb (String.eqb (hostname node) "")) ;;
  check (negb (String.eqb (nd_data_iface nd) "")) ;;
  check (truthy (ft_ipaddr (facts node))) ;;
  match m0_servers node with
  | None => Ret acc
  | Some servers =>
      let nr_confds := count_confds servers in
      check (nr_confds <? 2) ;;
      paths ← concat_o server_paths servers;
      check (all_unique paths) ;;
      let disks := servers ≫= sv_io_disks in
      check (all_unique disks) ;;
      check (0 <? nr_confds + count_clients (m0_clients node)) ;;
      Ret (acc.1 + nr_confds, acc.2 + Z.of_nat (length disks))
  end.

Definition validate_nodes_desc (nodes : list (NodeDesc * Node)) : outcome unit :=
  check (all_unique ((fun x => hostname x.2) <$> nodes)) ;;
  check (all_not_none ((fun x => ft_ipaddr (facts x.2)) <$> nodes)) ;;
  check (all_unique ((fun x => ft_ipaddr (facts x.2)) <$> nodes)) ;;
  '(confds, disks) ← fold_o validate_node (0, 0) nodes;
  check (0 <? confds) ;;
  check (0 <? disks).

(** [repr] tells references apart: the keys of all of them are in one order. *)
Definition check_disk_refs (t : PoolT) (p : PoolDesc) : outcome unit :=
  match pl_disk_refs p with
  | Absent => Ret tt
  | f =>
      check (match t with pool_md => false | _ => true end) ;;
      check (all_unique (default [] (fget f)))
  end.

Definition validate_pool (pool_types : list PoolT) (p : PoolDesc) : outcome (list PoolT) :=
  need "name" (pl_name p) ;;
  t ← pool_type p;
  match t with
  | pool_sns =>
      check_spare p ;;
      match pl_allowed_failures p with
      | None => Ret tt
      | Some d => k ← need "parity_units" (pl_parity_units p); check (f_drive d <=? k)
      end
  | _ =>
      data_units ← need "data_units" (pl_data_units p);
      check (data_units =? 1) ;;
      check (negb (bool_decide (t ∈ pool_types)))
  end ;;
  check_disk_refs t p ;;
  Ret (pool_types ++ [t]).

Definition restricted (p : PoolDesc) : bool := fin (pl_disk_refs p).

Definition validate_pools_desc (pools : list PoolDesc) : outcome unit :=
  names ← mapM (fun p => need "name" (pl_name p)) pools;
  check (all_unique names) ;;
  check (forallb (fun s => negb (String.eqb s "")) names) ;;
  pool_types ← fold_o validate_pool [] pools;
  check (bool_decide (pool_sns ∈ pool_types)) ;;
  sns ← concat_o (fun p => t ← pool_type p; Ret (if decide (t = pool_sns) then [p] else [])) pools;
  let unrestricted := List.filter (fun p => negb (restricted p)) sns in
  check (length unrestricted <=? 1)%nat ;;
  check (Bool.eqb (existsb restricted sns) (match unrestricted with [] => true | _ => false end)).

Definition validate_profile (pool_names : list string) (prof : ProfileDesc) : outcome unit :=
  check (match pf_pools prof with [] => false | _ => true end) ;;
  check (forallb (fun s => bool_decide (s ∈ pool_names)) (pf_pools prof)) ;;
  check (all_unique (pf_pools prof)).

Definition validate_profiles_desc (profiles : option (list ProfileDesc)) (pools : list PoolDesc)
    : outcome unit :=
  match profiles with
  | None | Some [] => Raise AssertionError
  | Some profs =>
      check (all_unique (pf_name <$> profs)) ;;
      check (forallb (fun p => negb (String.eqb (pf_name p) "")) profs) ;;
      names ← mapM (fun p => n ← need "name" (pl_name p); pool_type p ;; Ret n) pools;
      mapM (validate_profile names) profs ;; Ret tt
  end.

(** [x['m0_clients']['other']]: the clients of a node are a list. *)
Definition clients_nr (nd : NodeDesc) : outcome Z :=
  match nd_m0_clients nd with
  | Absent => Raise (KeyError "m0_clients")
  | Null | Given _ => Raise TypeError
  end.

Definition validate_fdmi_filter (nodes : list (string * Z)) (f : FdmiFilterDesc) : outcome unit :=
  check (negb (String.eqb (ff_node f) "")) ;;
  match List.filter (fun n => String.eqb n.1 (ff_node f)) nodes with
  | [n] => check (ff_client_index f <? n.2)
  | _ => Raise AssertionError
  end.

Definition validate_fdmi_filters_desc (filters : list FdmiFilterDesc) (nodes : list (NodeDesc * Node))
    : outcome unit :=
  check (all_unique (ff_name <$> filters)) ;;
  check (forallb (fun f => negb (String.eqb (ff_name f) "")) filters) ;;
  ns ← mapM (fun x => n ← clients_nr x.1; Ret (hostname x.2, n)) nodes;
  mapM (validate_fdmi_filter ns) filters ;; Ret tt.

Definition validate_cluster_desc (desc : ClusterDesc (NodeDesc * Node)) : outcome unit :=
  validate_nodes_desc (cd_nodes desc) ;;
  validate_pools_desc (cd_pools desc) ;;
  match cd_profiles desc with
  | Absent => Ret tt
  | p => validate_profiles_desc (fget p) (cd_pools desc)
  end ;;
  match cd_fdmi_filters desc with
  | None => Ret tt
  | Some l => validate_fdmi_filters_desc l (cd_nodes desc)
  end.

(** The description [build_cluster] reads *)
Definition enriched (desc : ClusterDesc (NodeDesc * Node)) : ClusterDesc Node :=
  mkClusterDesc (snd <$> cd_nodes desc) (cd_pools desc) (cd_profiles desc) (cd_fdmi_filters desc)
    (cd_create_aux desc) (cd_generate_formulaic_pvers desc).

(** ** [main] *)

(** The generator's state and the files of the output directory. *)
Record MainSt : Type := mkMain { mn_gen : Gen; mn_files : list (string * string) }.

Definition on_gen {A} (m : M Gen A) : M MainSt A := fun s =>
  let '(r, g) := m (mn_gen s) in (r, mkMain g (mn_files s)).

Definition set_file (path text : string) : M MainSt unit :=
  modify (fun s => mkMain (mn_gen s) (dict_set path text (mn_files s))).

Record Opts : Type := mkOpts { opt_mock : bool; opt_debug : bool; opt_output_dir : string; opt_dhall_dir : string }.

(** [os.path.join(output_dir, name)] of a directory without trailing slash *)
Definition out_path (o : Opts) (name : string) : string := opt_output_dir o +:+ "/" +:+ name.

(** [with open(path, 'w') as f: f.write(text)]: the file is created, or
    emptied, before the text is generated. *)
Definition write_out (path : string) (generate : M MainSt string) : M MainSt unit :=
  set_file path "" ;;
  text ← generate;
  set_file path text.

Section Main.
Context (int_lg : Z -> Z) (run : string -> outcome string).
Context (run_command : string -> list string -> outcome string).
Context (facter : string -> string -> outcome RawFacts).
Context (remote_disks : string -> list (option string) -> outcome (list Disk)).
Context (random : string -> Random).
Context (list_set : list (option string) -> list (option string)).
(** [validate_cdf_schema] and [yaml.safe_load] of the file *)
Context (schema_check : outcome unit) (safe_load : outcome (ClusterDesc NodeDesc)).

Definition write_outputs (o : Opts) (cl : Cluster) : M MainSt unit :=
  write_out (out_path o "consul-agents.json") (lift (generate_consul_agents cl)) ;;
  write_out (out_path o "consul-kv.json") (on_gen (generate_consul_kv cl)) ;;
  write_out (out_path o "confd.dhall")
    (c ← gets (fun s => m0conf (mn_gen s)); lift (generate_confd c (opt_dhall_dir o))).

Definition main_body (o : Opts) : M MainSt unit :=
  lift (check_dhall_versions run) ;;
  lift schema_check ;;
  desc ← lift safe_load;
  e ← lift (enrich_cluster_desc int_lg run_command facter remote_disks random (opt_mock o) desc);
  lift (validate_cluster_desc e) ;;
  if opt_debug o then mret tt
  else
    cl ← on_gen (build_cluster list_set (enriched e));
    write_outputs o cl.

(** Every exception is logged and ends the process with status 1. *)
Definition main (o : Opts) : M MainSt unit :=
  catch (main_body o) (fun _ => Some (raise (SystemExit 1))).
End Main.
