(* ===== verification/CfgenDescProps.v ===== *)
(** * Properties of the description and of [main] ([src/cfgen/cfgen])

    Sizes of log devices, what validation refuses, and that a well-formed
    configuration can always be printed. *)

From S2P Require Import Prelude PyStr Json HaxTypes OrdDict PyFloat Sysconf.
From S2P Require Import CfgenTypes CfgenBuild CfgenPools CfgenCluster CfgenInv CfgenWf CfgenPverWf.
From S2P Require Import CfgenClusterWf CfgenReads CfgenTol CfgenDemo CfgenProps CfgenOut CfgenDesc.

(** ** Log devices *)

(** [math.log(n, 2)] is accurate enough to find the exponent of sizes below one
    terabyte, and does not fall below 40 from there on. *)
Record log_laws (int_lg : Z -> Z) : Prop := mkLogLaws {
  lg_exact : forall n, 1 <= n < 2 ^ 40 -> int_lg n = Z.log2 n;
  lg_large : forall n, 2 ^ 40 <= n -> 40 <= int_lg n }.

Lemma log2_laws : log_laws Z.log2.
Proof.
  split; [done|]. intros n Hn. change 40 with (Z.log2 (2 ^ 40)). by apply Z.log2_le_mono.
Qed.

(** C28: [set_log_disks_size] rounds the size of a log device down to a power of
    two between 128 MB and 4 GB: the largest one that fits, at most 4 GB; it fails
    exactly for the devices below 128 MB. *)
Theorem log_size_is_rounded int_lg host d n :
  log_laws int_lg -> dk_size d = Some n ->
  if n <? lower_bound then
    exists e, set_log_disk_size int_lg host d = Raise e
  else exists k, 27 <= k <= 32 /\
    set_log_disk_size int_lg host d = Ret (mkDisk (dk_path d) (Some (2 ^ k)) (dk_blksize d)) /\
    2 ^ k <= n /\ (n < 2 ^ (k + 1) \/ 2 ^ k = upper_bound).
Proof.
  intros [Hex Hlg] Hn. unfold set_log_disk_size, powOf2. rewrite Hn.
  change lower_bound with (2 ^ 27). change upper_bound with (2 ^ 32).
  destruct (Z.leb_spec n 0) as [H0 | H0].
  { destruct (Z.ltb_spec n (2 ^ 27)); [by eexists | lia]. }
  cbn [mbind outcome_bind].
  destruct (Z.lt_ge_cases n (2 ^ 40)) as [Hs | Hs].
  - rewrite Hex by lia. pose proof (Z.log2_spec n H0) as [L1 L2]. set (k := Z.log2 n) in *.
    assert (0 <= k) by (apply Z.log2_nonneg).
    destruct (Z.ltb_spec n (2 ^ 27)) as [Hlow | Hlow].
    + destruct (Z.ltb_spec (2 ^ k) (2 ^ 27)); [by eexists | lia].
    + assert (27 <= k) by (apply Z.log2_le_pow2; lia).
      destruct (Z.ltb_spec (2 ^ k) (2 ^ 27)) as [Hk |]; [apply Z.pow_lt_mono_r_iff in Hk; lia|].
      destruct (Z.ltb_spec (2 ^ 32) (2 ^ k)) as [Hk | Hk].
      * apply Z.pow_lt_mono_r_iff in Hk; [| lia..]. exists 32. split; [lia|]. split; [done|].
        split; [| by right]. transitivity (2 ^ k); [apply Z.pow_le_mono_r; lia | done].
      * apply Z.pow_le_mono_r_iff in Hk; [| lia..]. exists k. split; [lia|]. split; [done|].
        split; [done|]. left. by rewrite <- Z.add_1_r in L2.
  - pose proof (Hlg n Hs) as Hk. destruct (Z.ltb_spec n (2 ^ 27)); [lia|].
    assert (2 ^ 40 <= 2 ^ int_lg n) by (apply Z.pow_le_mono_r; lia).
    destruct (Z.ltb_spec (2 ^ int_lg n) (2 ^ 27)); [lia|].
    destruct (Z.ltb_spec (2 ^ 32) (2 ^ int_lg n)); [| lia].
    exists 32. split; [lia|]. split; [done|]. split; [lia | by right].
Qed.

Lemma log_size_is_rounded_witness :
  exists k, 27 <= k <= 32 /\
    set_log_disk_size Z.log2 "n1" (mkDisk (Some "/dev/sdl") (Some 200000000) None) =
      Ret (mkDisk (Some "/dev/sdl") (Some (2 ^ k)) None) /\ 2 ^ k <= 200000000.
Proof.
  pose proof (log_size_is_rounded Z.log2 "n1" (mkDisk (Some "/dev/sdl") (Some 200000000) None) 200000000
    log2_laws eq_refl) as H.
  assert (E : (200000000 <? lower_bound) = false) by reflexivity. rewrite E in H.
  destruct H as (k & Hk & Er & Hn & _). exists k. split; [exact Hk|]. split; [exact Er | exact Hn].
Defined.

(** ** FDMI filters *)

(** The clients of a node are a list: a description with filters is never valid. *)
Lemma fdmi_filters_refused filters nd n nodes :
  validate_fdmi_filters_desc filters ((nd, n) :: nodes) <> Ret tt.
Proof.
  unfold validate_fdmi_filters_desc, check. destruct (all_unique _); [| done]. destruct (forallb _ _); [| done].
  cbn. unfold clients_nr. by destruct (nd_m0_clients nd).
Qed.

(** ** Output *)
Lemma fidstr_ok o : o_type o <> o_pver_f -> exists s, oid_to_fidstr o = Ret s.
Proof. intros Ht. unfold oid_to_fidstr. destruct (o_type o); try done; by eexists. Qed.

Section Printed.
Context (c : Conf) (f : ObjT -> Z) (Hwf : wf c f).

Ltac as_object H := destruct (key_object c f Hwf _ H) as ([] & ? & ?); cbn in *; try congruence.

(** The text of the fid and the object of a key *)
Ltac open_object o :=
  match goal with Ho : o ∈ od_keys c, Ht : o_type o = _ |- _ =>
    let fs := fresh "fs" in let Ef := fresh "Ef" in let x := fresh "x" in let Hx := fresh "Hx" in
    destruct (fidstr_ok o ltac:(congruence)) as (fs & Ef); rewrite Ef; cbn [mbind outcome_bind];
    destruct (key_object c f Hwf o Ho) as ([x | x | x | x | x | x | x | x | x | x | x | x | x | x | x | x | x] & Hx & ?);
    cbn in *; try congruence;
    erewrite (conf_as_ok c _ o _ x Hx) by reflexivity; cbn [mbind outcome_bind]
  end.

(** The entries of the children, over the only downlink *)
Ltac children_ok L :=
  match goal with |- context [concat_o ?g ?l] =>
    let ys := fresh "ys" in let E := fresh "E" in
    destruct (concat_o_ok g l) as [ys E];
      [ let r := fresh "r" in let Hr := fresh "Hr" in intros r Hr;
        match goal with Hx : od_get _ c = Some ?x |- _ =>
          destruct (child_key c f Hwf _ x _ l r Hx ltac:(left) Hr) as [? ?%child_ok_type]; [| done]; by eapply L end
      | rewrite E; by eexists ]
  end.

Lemma drive_entries_ok k o : o ∈ od_keys c -> o_type o = o_drive -> exists l, drive_entries c k o = Ret l.
Proof using Hwf.
  intros Ho Ht. unfold drive_entries. rewrite (proj2 (is_t_true _ _) Ht). cbn [check mbind outcome_bind].
  open_object o. pose proof (wf_refs_typed _ _ Hwf _ _ Hx) as Hr. cbn in Hr.
  rewrite !andb_true_iff, is_t_true in Hr. destruct Hr as [[Hr _] _].
  destruct (fidstr_ok (dv_sdev x)) as [s ->]; [congruence|]. by eexists.
Qed.

Lemma ctrl_entries_ok k o : o ∈ od_keys c -> o_type o = o_controller -> exists l, ctrl_entries c k o = Ret l.
Proof using Hwf.
  intros Ho Ht. unfold ctrl_entries. rewrite (proj2 (is_t_true _ _) Ht). cbn [check mbind outcome_bind].
  open_object o. 
  children_ok drive_entries_ok.
Qed.

Lemma encl_entries_ok k o : o ∈ od_keys c -> o_type o = o_enclosure -> exists l, encl_entries c k o = Ret l.
Proof using Hwf.
  intros Ho Ht. unfold encl_entries. rewrite (proj2 (is_t_true _ _) Ht). cbn [check mbind outcome_bind].
  open_object o. pose proof (wf_refs_typed _ _ Hwf _ _ Hx) as Hr. cbn in Hr.
  rewrite !andb_true_iff, is_t_true in Hr. destruct Hr as [[Hr _] _].
  destruct (fidstr_ok (e_node x)) as [s ->]; [congruence|]. cbn [mbind outcome_bind].
  children_ok ctrl_entries_ok.
Qed.

Lemma rack_entries_ok k o : o ∈ od_keys c -> o_type o = o_rack -> exists l, rack_entries c k o = Ret l.
Proof using Hwf.
  intros Ho Ht. unfold rack_entries. rewrite (proj2 (is_t_true _ _) Ht). cbn [check mbind outcome_bind].
  open_object o. 
  children_ok encl_entries_ok.
Qed.

Lemma sdev_entries_ok k o : o ∈ od_keys c -> o_type o = o_sdev -> exists l, sdev_entries c k o = Ret l.
Proof using Hwf.
  intros Ho Ht. unfold sdev_entries. rewrite (proj2 (is_t_true _ _) Ht). cbn [check mbind outcome_bind].
  open_object o. by eexists.
Qed.

Lemma svc_entries_ok k o : o ∈ od_keys c -> o_type o = o_service -> exists l, svc_entries c k o = Ret l.
Proof using Hwf.
  intros Ho Ht. unfold svc_entries. rewrite (proj2 (is_t_true _ _) Ht). cbn [check mbind outcome_bind].
  open_object o. 
  children_ok sdev_entries_ok.
Qed.

Lemma proc_entries_ok k o : o ∈ od_keys c -> o_type o = o_process -> exists l, proc_entries c k o = Ret l.
Proof using Hwf.
  intros Ho Ht. unfold proc_entries. rewrite (proj2 (is_t_true _ _) Ht). cbn [check mbind outcome_bind].
  open_object o. 
  children_ok svc_entries_ok.
Qed.

Lemma conf_keys_typed t o : o ∈ conf_keys_of t c <-> o ∈ od_keys c /\ o_type o = t.
Proof. unfold conf_keys_of. by rewrite list_elem_of_In, filter_In, <- list_elem_of_In, is_t_true. Qed.

Lemma kv_drives_ok : exists d, consul_kv_drives c = Ret d.
Proof using Hwf.
  unfold consul_kv_drives. destruct (concat_o_ok (site_entries c) (conf_keys_of o_site c)) as [l ->]; [| by eexists].
  intros o [Ho Ht]%conf_keys_typed. unfold site_entries. open_object o. children_ok rack_entries_ok.
Qed.

Lemma kv_sdevs_ok : exists d, consul_kv_sdevs c = Ret d.
Proof using Hwf.
  unfold consul_kv_sdevs. destruct (concat_o_ok (node_entries c) (conf_keys_of o_node c)) as [l ->]; [| by eexists].
  intros o [Ho Ht]%conf_keys_typed. unfold node_entries. open_object o. children_ok proc_entries_ok.
Qed.

(** Every object but an incomplete root or filter prints. *)
Definition complete (x : Obj) : Prop :=
  match x with
  | ConfRoot r => r_imeta_pver r <> None /\ r_mdpool r <> None
  | ConfFdmiFilter x => fl_dix_pver x <> None
  | _ => True
  end.

Lemma to_dhall_ok o x : od_get o c = Some x -> complete x -> exists s, confd_obj (o, x) = Ret s.
Proof using Hwf.
  intros Ho Hx. pose proof (wf_class _ _ Hwf _ _ Ho) as Ht.
  unfold confd_obj, objt_of. cbn [fst snd].
  destruct x; cbn [obj_objt obj_class to_dhall] in *;
    unfold ConfRoot_to_dhall, ConfNode_to_dhall, ConfProcess_to_dhall, ConfService_to_dhall, ConfSdev_to_dhall,
      ConfSite_to_dhall, ConfRack_to_dhall, ConfEnclosure_to_dhall, ConfController_to_dhall, ConfDrive_to_dhall,
      ConfPool_to_dhall, ConfPver_to_dhall, ConfPverF_to_dhall, ConfObjv_to_dhall, ConfProfile_to_dhall,
      ConfFdmiFltGrp_to_dhall, ConfFdmiFilter_to_dhall;
    rewrite (proj2 (is_t_true _ _) Ht); cbn in *; try (by eexists).
  - destruct Hx as [Hi Hm]. destruct (r_imeta_pver x); [| done]. destruct (r_mdpool x); [| done]. by eexists.
  - destruct (fl_dix_pver x); [by eexists | done].
Qed.

Lemma generate_confd_ok dir :
  String.prefix "/" dir = true -> (forall o x, od_get o c = Some x -> complete x) ->
  exists s, generate_confd c dir = Ret s.
Proof using Hwf.
  intros Hdir Hc. unfold generate_confd. rewrite Hdir. cbn [check mbind outcome_bind].
  destruct (mapM_ok confd_obj c) as [ys ->]; [| by eexists].
  intros [o x] Hin. pose proof (od_elem_get _ _ _ (wf_keys _ _ Hwf) Hin) as Ho. by eapply to_dhall_ok, Hc.
Qed.
End Printed.

Lemma built_complete list_set desc cl g :
  build_conf list_set desc gen0 = (Ret cl, g) -> bounded (ObjT_last_fidk g) ->
  wf (m0conf g) (ObjT_last_fidk g) /\ (exists root r, od_get root (m0conf g) = Some (ConfRoot r)) /\
  forall o x, od_get o (m0conf g) = Some x -> complete x.
Proof.
  intros H Hb. destruct (build_conf_wf _ _ _ _ H Hb) as (Hwf & root & (r & Hr & Hi & Hm) & Huniq & Hno).
  split_and!; [done | eauto |]. intros o x Ho. destruct x; try done.
  - pose proof (Huniq _ _ Ho) as ->. rewrite Hr in Ho. injection Ho as <-. done.
  - by destruct (Hno o x).
Qed.

(** C25: What [build_cluster] builds can be printed: no assertion, missing key or
    missing attribute stops the generation of [confd.dhall] or of the software and
    hardware trees of [consul-kv.json]; in particular the root has its metadata pool
    and its pool version for the metadata index. *)
Theorem built_configuration_prints list_set desc cl g dir :
  build_conf list_set desc gen0 = (Ret cl, g) -> bounded (ObjT_last_fidk g) ->
  String.prefix "/" dir = true ->
  (exists text, generate_confd (m0conf g) dir = Ret text) /\
  (exists sdevs, consul_kv_sdevs (m0conf g) = Ret sdevs) /\
  (exists drives, consul_kv_drives (m0conf g) = Ret drives).
Proof.
  intros H Hb Hdir. destruct (built_complete _ _ _ _ H Hb) as (Hwf & _ & Hc). split_and!.
  - by apply (generate_confd_ok _ _ Hwf _ Hdir).
  - by eapply kv_sdevs_ok.
  - by eapply kv_drives_ok.
Qed.

Lemma built_configuration_prints_witness :
  exists text, generate_confd (m0conf demo_gen) "/opt/seagate" = Ret text.
Proof. exact (proj1 (built_configuration_prints _ _ _ _ "/opt/seagate" demo_built demo_bounded eq_refl)). Defined.

(** ** [main] *)
Section MainProps.
Context (int_lg : Z -> Z) (run : string -> outcome string).
Context (run_command : string -> list string -> outcome string).
Context (facter : string -> string -> outcome RawFacts).
Context (remote_disks : string -> list (option string) -> outcome (list Disk)).
Context (random : string -> Random).
Context (list_set : list (option string) -> list (option string)).
Context (schema_check : outcome unit) (safe_load : outcome (ClusterDesc NodeDesc)).
Notation main := (main int_lg run run_command facter remote_disks random list_set schema_check safe_load).
Notation enrich := (enrich_cluster_desc int_lg run_command facter remote_disks random).

(** The exit status is 0 or 1. *)
Lemma main_status o s e : (main o s).1 = Raise e -> e = SystemExit 1.
Proof.
  unfold CfgenDesc.main, catch. destruct (main_body _ _ _ _ _ _ _ _ _ o s) as [[] s1]; cbn; congruence.
Qed.

(** A description that does not pass the validation, and a run with [--debug],
    leave the output directory alone. *)
Lemma main_untouched o s desc :
  check_dhall_versions run = Ret tt -> schema_check = Ret tt -> safe_load = Ret desc ->
  (forall e, enrich (opt_mock o) desc = Ret e -> validate_cluster_desc e <> Ret tt) \/ opt_debug o = true ->
  (main o s).2 = s.
Proof.
  intros E1 E2 E3 Hv. unfold CfgenDesc.main, main_body, catch. rewrite E1, E2, E3. run.
  destruct (enrich (opt_mock o) desc) as [e | |] eqn:Ee; [| done | done].
  destruct (validate_cluster_desc e) as [[] | |] eqn:Ev; [| done | done].
  destruct Hv as [Hv | ->]; [by destruct (Hv e) | done].
Qed.
End MainProps.
