(* ===== verification/CfgenPrints.v ===== *)
(** * What cfgen writes ([src/cfgen/cfgen])

    A cluster that was built is printed: [generate_consul_kv] and the other
    generators return.  With it, a description that passes the validation of
    [cfgen] and the conditions that the validation does not cover ([enough]) makes
    [main] write its three files. *)

From stdpp Require Import list_numbers.
From S2P Require Import Prelude PyStr Json HaxTypes OrdDict PyFloat CfgenTypes CfgenBuild.
From S2P Require Import CfgenPools CfgenCluster CfgenInv CfgenWf CfgenReads CfgenRuns.
From S2P Require Import CfgenMirror CfgenPverWf CfgenClusterWf CfgenTotal CfgenStage CfgenSame CfgenTol.
From S2P Require Import CfgenPoolRuns CfgenFound CfgenDemo CfgenBuilds CfgenOut CfgenDesc CfgenDescProps.

Lemma fold_o_ok {A S} (I : S -> Prop) (h : S -> A -> outcome S) l s :
  I s -> (forall s x, I s -> x ∈ l -> exists s', h s x = Ret s' /\ I s') -> exists s', fold_o h s l = Ret s' /\ I s'.
Proof.
  revert s. induction l as [| x l IH]; intros s Hs Hh; cbn; [by exists s|].
  destruct (Hh s x Hs ltac:(left)) as (s1 & -> & H1). cbn. apply IH; [done|]. intros s' y Hs' Hy. apply Hh; [done | by right].
Qed.

(** ** [consul-kv.json] *)
Section Kv.
Context (c : Conf) (f : ObjT -> Z) (Hwf : wf c f) (Hstaff : staffed c).
Context (root : Oid) (r : CRoot) (Hr : od_get root c = Some (ConfRoot r)).
Notation at_key t o := (o ∈ od_keys c /\ o_type o = t).
Ltac read Hx := erewrite (conf_as_ok _ _ _ _ _ Hx) by reflexivity; cbn [mbind outcome_bind].

Lemma hax_port_entries_ok : exists l, hax_port_entries c = Ret l.
Proof using Hwf.
  apply mapM_ok. intros o Ho%conf_keys_of_elem. destruct (node_object _ _ Hwf _ Ho) as (n & Hn & _). read Hn. eauto.
Qed.

Lemma node_machine_id_map_ok : exists l, node_machine_id_map c = Ret l.
Proof using Hwf.
  apply concat_o_ok. intros o Ho%conf_keys_of_elem. destruct (node_object _ _ Hwf _ Ho) as (n & Hn & _). read Hn. eauto.
Qed.

Lemma pool_entries_ok : exists l, pool_entries c = Ret l.
Proof using Hwf Hr.
  assert (Hs : exists ids, sns_pools c = Ret ids /\ forall o, o ∈ ids -> at_key o_pool o).
  { unfold sns_pools. assert (Hk : root ∈ conf_keys_of o_root c).
    { apply conf_keys_of_elem. split; [by eapply od_get_in | by rewrite (wf_class _ _ Hwf _ _ Hr)]. }
    destruct (conf_keys_of o_root c) as [| root' l] eqn:El; [by apply elem_of_nil in Hk|].
    assert (Hk' : root' ∈ conf_keys_of o_root c) by (rewrite El; left). apply conf_keys_of_elem in Hk' as [Hin Ht].
    destruct (key_object _ _ Hwf _ Hin) as (x & Hx & Ex). rewrite Ht in Ex.
    destruct x as [r' | | | | | | | | | | | | | | | |]; try discriminate Ex. read Hx.
    match goal with |- exists ids, concat_o ?sel _ = _ /\ _ => destruct (concat_o_ok sel (r_pools r')) as [ids Ei] end.
    { intros o Ho. case_bool_decide; [eauto|].
      destruct (pool_object _ _ Hwf _ (root_pool _ _ Hwf _ _ Hx o Ho)) as [p Hp]. unfold conf_get. rewrite Hp. cbn. eauto. }
    exists ids. split; [done|]. intros o Ho. destruct (concat_o_elem _ _ _ _ Ei Ho) as (o' & y & Ho' & Hy & Hin').
    case_bool_decide; [injection Hy as <-; by apply elem_of_nil in Hin'|].
    destruct (pool_object _ _ Hwf _ (root_pool _ _ Hwf _ _ Hx o' Ho')) as [p Hp]. unfold conf_get in Hy. rewrite Hp in Hy.
    cbn in Hy. injection Hy as <-. case_match; [by apply elem_of_nil in Hin'|].
    apply list_elem_of_singleton in Hin' as ->. by eapply root_pool. }
  destruct Hs as (ids & Ei & Hids). unfold pool_entries. rewrite Ei. cbn [mbind outcome_bind]. apply mapM_ok. intros o Ho.
  destruct (Hids o Ho) as [Hk Ht]. destruct (fidstr_ok o) as [s ->]; [by rewrite Ht|]. cbn [mbind outcome_bind].
  destruct (pool_object _ _ Hwf o (conj Hk Ht)) as [p Hp]. read Hp. eauto.
Qed.

Lemma profile_entries_ok : exists l, profile_entries c = Ret l.
Proof using Hwf.
  apply mapM_ok. intros o [Hk Ht]%conf_keys_of_elem. destruct (fidstr_ok o) as [s ->]; [by rewrite Ht|]. cbn [mbind outcome_bind].
  destruct (key_object _ _ Hwf _ Hk) as (x & Hx & Ex). rewrite Ht in Ex.
  destruct x as [| | | | | | | | | | | | | | p | |]; try discriminate Ex. read Hx.
  destruct (mapM_ok (fun pool_id => po ← conf_as as_pool c pool_id; Ret (opt_str (po_name po))) (pr_pools p)) as [names ->];
    [| by eexists].
  intros k Hin. pose proof (wf_refs_typed _ _ Hwf _ _ Hx) as Hty. cbn in Hty. unfold all_t in Hty. rewrite forallb_forall in Hty.
  destruct (pool_object _ _ Hwf k) as [po Hpo]; [| read Hpo; eauto]. split.
  - apply (wf_refs _ _ Hwf o _ k Hx), elem_of_app. by right.
  - by apply is_t_true, Hty, list_elem_of_In.
Qed.

(** A process always has a service, so the variable [proc] is bound. *)
Lemma process_services_ok cl node acc p : at_key o_process p -> exists acc', process_services cl c node acc p = Ret acc'.
Proof using Hwf Hstaff.
  intros Hp. destruct acc as [proc out]. unfold process_services.
  rewrite (proj2 (is_t_true _ _) (proj2 Hp)). cbn [check mbind outcome_bind].
  destruct (process_object _ _ Hwf _ Hp) as (x & Hx & Hs). read Hx.
  match goal with |- exists acc', (svcs ← mapM ?g ?l; _) = _ => destruct (mapM_ok g l) as [svcs ->] end.
  { intros s Hin. destruct (service_object _ _ Hwf _ (Hs s Hin)) as (sx & Hsx). read Hsx. eauto. }
  cbn [mbind outcome_bind]. destruct (od_get p (cl_m0_clients cl)) as [svc |]; [| by eexists].
  destruct (Hstaff p x Hx) as (s & z & Hz & Hin). rewrite Hx in Hz. injection Hz as <-.
  unfold links_of in Hin. cbn in Hin. rewrite app_nil_r in Hin.
  destruct (p_services x); [by apply elem_of_nil in Hin | by eexists].
Qed.

Lemma processes_ok cl : exists l, processes cl c = Ret l.
Proof using Hwf Hstaff.
  unfold processes.
  destruct (fold_o_ok (fun _ => True) (node_services cl c) (conf_keys_of o_node c) (None, [])) as (acc & -> & _); [done | | by eexists].
  intros acc o _ Ho%conf_keys_of_elem. unfold node_services. destruct (node_object _ _ Hwf _ Ho) as (n & Hn & Hp). read Hn.
  apply fold_o_ok; [done|]. intros acc' p _ Hin.
  destruct (process_services_ok cl n acc' p (Hp p Hin)) as [a Ha]. eauto.
Qed.

Lemma fidk_runs g : exists l g', consul_kv_fidk g = (Ret l, g') /\ m0conf g' = m0conf g.
Proof.
  assert (H : runs consul_kv_fidk g (fun _ g' => m0conf g' = m0conf g)); [| destruct H as (l & g' & E & H); eauto].
  unfold consul_kv_fidk. eapply runs_bind.
  { apply (runs_map_m (fun _ _ g' => m0conf g' = m0conf g)); [done|]. intros ys t l g1 Hg1.
    eexists _, _. split; [reflexivity | exact Hg1]. }
  intros l g' Hg'. by apply runs_mret.
Qed.

Lemma generate_consul_kv_ok cl g :
  m0conf g = c -> clients_typed cl = true ->
  exists text g', generate_consul_kv cl g = (Ret text, g') /\ m0conf g' = c.
Proof using Hwf Hstaff Hr.
  intros Ec Ht. assert (H : runs (generate_consul_kv cl) g (fun _ g' => m0conf g' = c)); [| destruct H as (l & g' & E & H); eauto].
  unfold generate_consul_kv, consul_kv. destruct hax_port_entries_ok as [ports Ep]. destruct node_machine_id_map_ok as [ids Ei].
  destruct pool_entries_ok as [pools Epo]. destruct profile_entries_ok as [profs Epr]. destruct (processes_ok cl) as [procs Eps].
  destruct (kv_sdevs_ok c f Hwf) as [sdevs Es]. destruct (kv_drives_ok c f Hwf) as [drives Ed].
  destruct (fidk_runs g) as (fidk & g' & Ef & Ec'). rewrite Ec in Ec'.
  eapply (runs_bind _ _ _ (fun _ g' => m0conf g' = c)); [| intros l g2 H2; by apply runs_mret].
  eapply runs_step; [by apply assert_step|]. eapply runs_step; [reflexivity|]. rewrite Ec.
  eapply runs_step; [exact Ef|].
  rewrite Ep, Ei, Epo, Epr, Eps, Es, Ed. do 7 (eapply runs_step; [reflexivity|]). by apply runs_mret.
Qed.
End Kv.

(** ** What the validation ensures *)

(** The conditions of [described] that [validate_cluster_desc] does not check *)
Definition enough (desc : ClusterDesc Node) : bool :=
  forallb node_ok (cd_nodes desc) && (svc_max * total_procs (cd_nodes desc) <=? 2 ^ 32) &&
  forallb name_ok (hostname <$> cd_nodes desc) && forallb pool_ok (cd_pools desc) &&
  match default [] (cd_fdmi_filters desc) with [] => true | _ => false end && negb (cd_create_aux desc).

(** One [check] or read less *)
Ltac open_check H := apply bind_o_inv in H as (? & ?%check_inv & H).

Lemma confd_counted l : 0 < count_confds l -> existsb sv_runs_confd l = true.
Proof. induction l as [| s l IH]; cbn; [done|]. unfold count_confds in *. cbn. destruct (sv_runs_confd s); [done | exact IH]. Qed.

Lemma disks_counted l : 0 < Z.of_nat (length (l ≫= sv_io_disks)) ->
  existsb (fun srv => match sv_io_disks srv with [] => false | _ => true end) l = true.
Proof. induction l as [| s l IH]; cbn; [done|]. rewrite length_app. destruct (sv_io_disks s); [exact IH | done]. Qed.

Lemma validate_node_counts acc x acc' : validate_node acc x = Ret acc' ->
  (acc.1 < acc'.1 -> node_confd x.2 = true) /\ (acc.2 < acc'.2 -> has_io x.2 = true).
Proof.
  destruct x as [nd node]. unfold validate_node, node_confd, has_io. cbn [snd]. intros H. do 3 open_check H.
  destruct (m0_servers node) as [servers |]; [| injection H as <-; lia]. cbn [default from_option id].
  open_check H. apply bind_o_inv in H as (paths & _ & H). do 3 open_check H. injection H as <-. cbn [fst snd].
  split; intros Hlt; [apply confd_counted; lia | apply disks_counted; lia].
Qed.

Lemma validate_nodes_counts nodes acc acc' : fold_o validate_node acc nodes = Ret acc' ->
  (acc.1 < acc'.1 -> existsb node_confd (snd <$> nodes) = true) /\ (acc.2 < acc'.2 -> existsb has_io (snd <$> nodes) = true).
Proof.
  revert acc. induction nodes as [| x nodes IH]; intros acc H; cbn in H; [injection H as <-; lia|].
  apply bind_o_inv in H as (acc1 & H1 & H). destruct (validate_node_counts _ _ _ H1) as [A1 B1]. destruct (IH _ H) as [A2 B2].
  cbn. rewrite !orb_true_iff. split; intros Hlt.
  - destruct (Z.lt_ge_cases acc.1 acc1.1); [left; auto | right; apply A2; lia].
  - destruct (Z.lt_ge_cases acc.2 acc1.2); [left; auto | right; apply B2; lia].
Qed.

Lemma validate_pools_once l types types' dix md :
  fold_o validate_pool types l = Ret types' -> forallb pool_ok l = true ->
  (dix = true -> pool_dix ∈ types) -> (md = true -> pool_md ∈ types) -> pools_ok dix md l = true.
Proof.
  revert types dix md. induction l as [| p l IH]; intros types dix md H Hok Hdix Hmd; [done|].
  cbn in H, Hok |- *. apply andb_true_iff in Hok as [-> Hok]. apply bind_o_inv in H as (types1 & Hp & H). cbn [andb].
  unfold validate_pool in Hp. apply bind_o_inv in Hp as (n & _ & Hp). apply bind_o_inv in Hp as (t & -> & Hp).
  apply bind_o_inv in Hp as (u & Ht & Hp). apply bind_o_inv in Hp as (u' & _ & [= <-]).
  assert (Hin : forall t', t' ∈ types -> t' ∈ types ++ [t]) by (intros t' ?; apply elem_of_app; by left).
  destruct t.
  - eapply IH; eauto.
  - apply bind_o_inv in Ht as (d & _ & Ht). open_check Ht. apply check_inv, negb_true_iff, bool_decide_eq_false in Ht.
    destruct dix; [by destruct Ht; apply Hdix|]. eapply IH; eauto. intros _. apply elem_of_app. by right; left.
  - apply bind_o_inv in Ht as (d & _ & Ht). open_check Ht. apply check_inv, negb_true_iff, bool_decide_eq_false in Ht.
    destruct md; [by destruct Ht; apply Hmd|]. eapply IH; eauto. intros _. apply elem_of_app. by right; left.
Qed.

Lemma validate_profiles_named profs pools :
  validate_profiles_desc (Some profs) pools = Ret tt ->
  forallb (fun prof => forallb (fun n => bool_decide (Some n ∈ pl_name <$> pools)) (pf_pools prof)) profs = true.
Proof.
  unfold validate_profiles_desc. intros H. destruct profs as [| prof0 profs0]; [done|]. set (profs := prof0 :: profs0) in *.
  do 2 open_check H. apply bind_o_inv in H as (names & Hnames & H). apply bind_o_inv in H as (us & Hus & _).
  apply forallb_forall. intros prof Hin%list_elem_of_In. apply mapM_inv in Hus.
  apply list_elem_of_lookup in Hin as [i Hi]. destruct (Forall2_lookup_l _ _ _ _ _ Hus Hi) as (u & _ & Hu).
  unfold validate_profile in Hu. do 2 open_check Hu. apply forallb_forall. intros n Hn.
  assert (Hf : n ∈ names).
  { match goal with Hf : forallb _ (pf_pools prof) = true |- _ => rewrite forallb_forall in Hf; specialize (Hf n Hn);
      by apply bool_decide_eq_true in Hf end. }
  apply bool_decide_eq_true. destruct (mapM_elem _ _ _ _ Hnames Hf) as (p & Hp & Ep).
  apply bind_o_inv in Ep as (n' & En & Ep). apply bind_o_inv in Ep as (t & _ & [= <-]).
  unfold need, dict_get in En. destruct (pl_name p) as [m |] eqn:Em; [| discriminate En]. injection En as <-.
  apply list_elem_of_fmap. by exists p.
Qed.

Lemma validated_described e :
  validate_cluster_desc e = Ret tt -> cd_profiles e <> Absent -> enough (enriched e) = true -> described (enriched e) = true.
Proof.
  intros H Hp He. unfold enough in He. cbn in He. rewrite !andb_true_iff in He.
  destruct He as [[[[[Hn Hs] Hnames] Hpools] Hf] Ha]. unfold validate_cluster_desc in H.
  apply bind_o_inv in H as (u1 & Hvn & H). apply bind_o_inv in H as (u2 & Hvp & H). apply bind_o_inv in H as (u3 & Hprof & _).
  unfold validate_nodes_desc in Hvn. apply bind_o_inv in Hvn as (? & Hhosts%check_inv & Hvn). open_check Hvn.
  apply bind_o_inv in Hvn as (? & Hips%check_inv & Hvn). apply bind_o_inv in Hvn as ([confds disks] & Hcounts & Hvn).
  apply bind_o_inv in Hvn as (? & Hc%check_inv%Z.ltb_lt & Hdk%check_inv%Z.ltb_lt).
  destruct (validate_nodes_counts _ _ _ Hcounts) as [Hconfd Hio].
  unfold validate_pools_desc in Hvp. apply bind_o_inv in Hvp as (names & _ & Hvp). do 2 open_check Hvp.
  apply bind_o_inv in Hvp as (types & Htypes & _).
  unfold described, nodes_ok, agents_ok. cbn. rewrite !andb_true_iff. rewrite <- !list_fmap_compose.
  split_and!; try done; [by apply Hio | by apply Hconfd | | |].
  - by rewrite <- list_fmap_compose in Hnames.
  - by eapply validate_pools_once.
  - destruct (cd_profiles e); [done | discriminate Hprof |]. destruct u3. by apply validate_profiles_named.
Qed.

(** ** [main] *)
Lemma staffed_same c c' f f' : wf c f -> wf c' f' -> hw_same c c' -> staffed c -> staffed c'.
Proof.
  intros W W' S H p x Hp. pose proof (wf_class _ _ W' _ _ Hp) as Tp. cbn in Tp.
  assert (Hk : p ∈ conf_keys_of o_process c').
  { apply conf_keys_of_elem. split; [by eapply od_get_in | done]. }
  rewrite (hs_keys _ _ S) in Hk by done. apply conf_keys_of_elem in Hk.
  destruct (process_object _ _ W _ Hk) as (z & Hz & _). destruct (H p z Hz) as (s & z' & Hz' & Hs). rewrite Hz in Hz'.
  injection Hz' as <-. destruct (hs_obj _ _ S p _ ltac:(by rewrite Tp) Hz) as (x' & Hx' & _ & L). rewrite Hp in Hx'.
  injection Hx' as <-. exists s, (ConfProcess x). split; [done | by rewrite L].
Qed.

Lemma append_left_ne a b c : b <> c -> a +:+ b <> a +:+ c.
Proof. intros Hne. induction a as [| x a IH]; [done|]. cbn. by intros [= H%IH]. Qed.

Lemma write_out_run path m (s s' : MainSt) text :
  m (mkMain (mn_gen s) (dict_set path "" (mn_files s))) = (Ret text, s') ->
  write_out path m s = (Ret tt, mkMain (mn_gen s') (dict_set path text (mn_files s'))).
Proof. intros E. unfold write_out. erewrite bind_unfold_Ret by reflexivity. by rewrite (bind_unfold_Ret _ _ _ _ _ E). Qed.

Lemma write_outputs_run o cl g files a k g' c :
  generate_consul_agents cl = Ret a -> generate_consul_kv cl g = (Ret k, g') ->
  generate_confd (m0conf g') (opt_dhall_dir o) = Ret c ->
  exists files', write_outputs o cl (mkMain g files) = (Ret tt, mkMain g' files') /\
    dict_find (out_path o "consul-agents.json") files' = Some a /\
    dict_find (out_path o "consul-kv.json") files' = Some k /\ dict_find (out_path o "confd.dhall") files' = Some c.
Proof.
  intros Ea Ek Ec. unfold write_outputs.
  erewrite bind_unfold_Ret by (apply write_out_run; cbn; rewrite Ea; reflexivity).
  erewrite bind_unfold_Ret by (apply write_out_run; unfold on_gen; cbn [mn_gen]; rewrite Ek; reflexivity).
  erewrite write_out_run; [| cbn; unfold mbind, M_bind, gets, lift; cbn; rewrite Ec; reflexivity].
  assert (Hne : forall x y, x <> y -> out_path o x <> out_path o y)
    by (intros x y Hxy; unfold out_path; by apply append_left_ne, append_left_ne).
  eexists. split; [reflexivity|]. cbn [mn_files mn_gen].
  split_and!; repeat first [rewrite dict_find_set_eq; reflexivity | rewrite dict_find_set_ne by (by apply Hne)].
Qed.

Section MainRuns.
Context (int_lg : Z -> Z) (run : string -> outcome string).
Context (run_command : string -> list string -> outcome string).
Context (facter : string -> string -> outcome RawFacts).
Context (remote_disks : string -> list (option string) -> outcome (list Disk)).
Context (random : string -> Random).
Context (list_set : list (option string) -> list (option string)).
Context (schema_check : outcome unit) (safe_load : outcome (ClusterDesc NodeDesc)).
Notation main := (main int_lg run run_command facter remote_disks random list_set schema_check safe_load).
Notation enrich := (enrich_cluster_desc int_lg run_command facter remote_disks random).

Lemma enrich_profiles mock_p desc e : enrich mock_p desc = Ret e -> cd_profiles e <> Absent.
Proof.
  unfold enrich_cluster_desc. intros H. apply bind_o_inv in H as (nodes & _ & H).
  apply bind_o_inv in H as (profiles & Hp & [= <-]). cbn. destruct (cd_profiles desc); [| by injection Hp as <-..].
  apply bind_o_inv in Hp as (l & _ & [= <-]). done.
Qed.

(** C9: A run of [cfgen] succeeds.  The versions of the programs and the schema are
    right, the description is completed with facts and passes the validation;
    it also has what the validation does not ask for ([enough]: complete facts, ports
    and disk sizes, room for the identifiers, names of hosts without special
    characters, units and failures of pools that fit together), and the disks
    its pools refer to can be found.  Then [main] returns and the three files are
    there, with the texts that the generators give for the cluster that was built. *)
Theorem main_writes_configuration o desc e refs files :
  check_dhall_versions run = Ret tt -> schema_check = Ret tt -> safe_load = Ret desc ->
  enrich (opt_mock o) desc = Ret e -> validate_cluster_desc e = Ret tt -> enough (enriched e) = true ->
  check_drive_multiple_references (m0conf (build_hardware (cd_nodes (enriched e)) gen0).2) (enriched e) = Ret refs ->
  opt_debug o = false -> String.prefix "/" (opt_dhall_dir o) = true ->
  exists cl g a k g' c files',
    build_cluster list_set (enriched e) gen0 = (Ret cl, g) /\ generate_consul_agents cl = Ret a /\
    generate_consul_kv cl g = (Ret k, g') /\ generate_confd (m0conf g) (opt_dhall_dir o) = Ret c /\
    main o (mkMain gen0 files) = (Ret tt, mkMain g' files') /\
    dict_find (out_path o "consul-agents.json") files' = Some a /\
    dict_find (out_path o "consul-kv.json") files' = Some k /\ dict_find (out_path o "confd.dhall") files' = Some c.
Proof.
  intros E1 E2 E3 Ee Ev Hen Href Hdbg Hdir. assert (Hd : described (enriched e) = true).
  { apply validated_described; [done | by eapply enrich_profiles | done]. }
  destruct (build_described list_set _ Hd) as (cl & g1 & Eh & Hr & Es & _ & Ht & Hb). rewrite Eh in Href.
  destruct (Hb _ Href) as (g & Ebc & Eb & G & Hs).
  destruct (built_complete _ _ _ _ Ebc (good_bounded _ _ _ G)) as (W & (root & r & Hroot) & Hc).
  pose proof (staffed_same _ _ _ _ (gd_wf _ _ _ (hr_good _ Hr)) W Hs (hr_staffed _ Hr)) as Hst.
  destruct (generate_consul_kv_ok _ _ W Hst root r Hroot cl g eq_refl Ht) as (k & g' & Ek & Eg').
  destruct (generate_confd_ok _ _ W _ Hdir Hc) as [c Ec].
  assert (Ea : exists a, generate_consul_agents cl = Ret a).
  { unfold generate_consul_agents. unfold build_cluster in Eb. apply bind_Ret in Eb as (cl' & g2 & Eb' & Eb).
    rewrite Ebc in Eb'. injection Eb' as <- <-. apply bind_Ret in Eb as (c' & g3 & _ & Eb). apply bind_Ret in Eb as (u & g4 & _ & Eb).
    apply bind_Ret in Eb as (u' & g5 & Eb & _). apply lift_Ret_inv in Eb as [Eb _]. unfold check_agents in Eb.
    apply bind_o_inv in Eb as (? & ->%check_inv & _). cbn. by eexists. }
  destruct Ea as [a Ea].
  destruct (write_outputs_run o cl g files a k g' c Ea Ek ltac:(by rewrite Eg')) as (files' & Ew & F1 & F2 & F3).
  exists cl, g, a, k, g', c, files'. split_and!; try done.
  unfold CfgenDesc.main, main_body, catch. rewrite E1, E2, E3. run. rewrite Ee, Ev, Hdbg.
  unfold on_gen. cbn [mn_gen mn_files]. rewrite Eb. by rewrite Ew.
Qed.
End MainRuns.

(** ** Witness *)

(** Two nodes with all facts in the description, an I/O service over two disks each *)
Definition cdf_node (name ip : string) : NodeDesc :=
  mkNodeDesc name (Given ("id-" +:+ name)) (Given 4) (Given (mkDecimal 81925 1)) "eth1" (Given ip) (Given np_tcp) "libfab"
    (Some [mkM0Server (Given true) (mkIODisks Absent [] []);
           mkM0Server (Given false) (mkIODisks (Given "/dev/sdm") (demo_iodisk <$> ["/dev/sda"; "/dev/sdb"]) [])])
    (Given [mkM0Client "rgw_s3" 1]) None.
Definition cdf_refs : list DiskRef :=
  ["n1"; "n2"] ≫= (fun n => (fun d => mkDiskRef (RText d) (Given n)) <$> ["/dev/sda"; "/dev/sdb"]).
Definition cdf_demo : ClusterDesc NodeDesc :=
  mkClusterDesc [cdf_node "n1" "10.0.0.1"; cdf_node "n2" "10.0.0.2"]
    [mkPoolDesc (Some "p0") Absent (Given cdf_refs) (Some 1) (Some 1) (Given 0) (Some (mkFailures 0 0 0 1 1))]
    Absent None false false.
Definition cdf_enrich : outcome (ClusterDesc (NodeDesc * Node)) :=
  enrich_cluster_desc Z.log2 (fun _ _ => Hang) (fun _ _ => Hang) (fun _ _ => Hang)
    (fun _ => mkRandom (1, 1, 1, 1) 1 (mkDecimal 1 0)) false cdf_demo.
Definition cdf_enriched : ClusterDesc (NodeDesc * Node) :=
  match cdf_enrich with Ret e => e | _ => mkClusterDesc [] [] Absent None false false end.
Definition cdf_opts : Opts := mkOpts false false "/tmp/out" "/opt/seagate/cortx/hare/share/cfgen/dhall".
Definition cdf_main : M MainSt unit :=
  main Z.log2 (fun _ => Ret "1.30.0") (fun _ _ => Hang) (fun _ _ => Hang) (fun _ _ => Hang)
    (fun _ => mkRandom (1, 1, 1, 1) 1 (mkDecimal 1 0)) remove_dups (Ret tt) (Ret cdf_demo) cdf_opts.
Definition cdf_refs_found : outcome (list (Oid * Oid)) :=
  check_drive_multiple_references (m0conf (build_hardware (cd_nodes (enriched cdf_enriched)) gen0).2) (enriched cdf_enriched).

Lemma main_writes_configuration_witness :
  exists s a k c, cdf_main (mkMain gen0 []) = (Ret tt, s) /\
    dict_find "/tmp/out/consul-agents.json" (mn_files s) = Some a /\
    dict_find "/tmp/out/consul-kv.json" (mn_files s) = Some k /\ dict_find "/tmp/out/confd.dhall" (mn_files s) = Some c.
Proof.
  destruct (main_writes_configuration Z.log2 (fun _ => Ret "1.30.0") (fun _ _ => Hang) (fun _ _ => Hang) (fun _ _ => Hang)
    (fun _ => mkRandom (1, 1, 1, 1) 1 (mkDecimal 1 0)) remove_dups (Ret tt) (Ret cdf_demo) cdf_opts cdf_demo cdf_enriched
    (match cdf_refs_found with Ret l => l | _ => [] end) [])
    as (cl & g & a & k & g' & c & files' & _ & _ & _ & _ & Hm & F1 & F2 & F3);
    [by vm_compute | done | done | by vm_compute | by vm_compute | by vm_compute | by vm_compute | done | done |].
  exists (mkMain g' files'), a, k, c. split_and!; [exact Hm | exact F1 | exact F2 | exact F3].
Defined.
